(* ===== verification/_CoqProject ===== *)
-Q . S2P
Prelude.v
Memory.v
Endian.v
Bits.v
Hex.v
Base32.v
Checksum.v
AddrTools.v
ReplayProtector.v
NumberCompress.v
LabelSplicer.v
Headers.v
Message.v
SwitchCore.v
NaCl.v
Random.v
CryptoAuth.v
Benc.v
ArrayIO.v
BencSerializer.v
JsonBencSerializer.v
JsonBehaviour.v
JsonParsing.v
Address.v
NodeCollector.v
NodeStore.v
NodeStoreKeeps.v
ClosestNodes.v
Map.v
SessionManager.v
VersionList.v
AverageRoller.v
SearchStore.v
DHT.v
RouterModule.v
RouterInvariant.v
RouterSafety.v
RouterBehaviour.v
RouterDefects.v
RouterExchange.v
Pinger.v
SwitchPinger.v
Ducttape.v
InterfaceController.v
InterfaceInvariant.v
InterfaceBehaviour.v
InterfaceExamples.v
Admin.v
AdminClient.v
AdminBehaviour.v
AdminSession.v
AdminExamples.v
TUNMessageType.v
IpTunnel.v
DucttapeData.v
DucttapeDelivery.v
DucttapeThrough.v
DucttapeDHT.v
DucttapeExamples.v
DucttapeDefects.v
