(* ===== verification/Prelude.v ===== *)
(** * cjdns: verification development (root file)

    cjdns (src/include/cjdns) is a mesh network daemon. Packets travel by source
    routing: a 64-bit label names, switch by switch, the interface to leave by.
    On top of the switches lies an encrypted network in which a node's IPv6
    address is a hash of its public key, and a distributed routing table that
    finds labels for addresses. The development models the parts that carry this
    logic and proves what each promises. All file names below are relative to
    src/include/cjdns.

    ** The parts of the program

    A packet comes in from a physical interface, through a CryptoAuth session
    with the neighbour, to the switch. The switch compresses and splices
    labels, forwards, or answers with an error packet that ends in an Internet
    checksum. Packets for this node go to Ducttape, which keeps a second layer
    of CryptoAuth sessions with distant nodes, and from there to the user's
    network device or to the DHT modules. These exchange bencoded messages and
    keep what they learn in the node store, which also picks the next hop.

    ** Files

    - this file: notations, machine integers, loops, tactics, lemmas on lists;
    - Memory: a C buffer as a map from addresses to bytes, and integers in it;
    - Endian (util/Endian.h), Bits (util/Bits.h), Hex (util/Hex.c), Base32
      (util/Base32.h), Checksum (util/Checksum.h), AddrTools
      (util/AddrTools.h): the utilities;
    - Headers (wire/Headers.h, Control.h, Error.h) and Message
      (wire/Message.h): packets;
    - NumberCompress and LabelSplicer (switch/, same names) and SwitchCore
      (switch/SwitchCore.c): the switch;
    - NaCl (the third-party primitives as an interface; crypto/AddressCalc.c),
      ReplayProtector (crypto/ReplayProtector.h) and CryptoAuth
      (crypto/CryptoAuth.c): the sessions; Random (crypto/random/Random.c): random
      bytes and passwords;
    - Benc (benc/String.c, List.c, Dict.c), ArrayIO (io/ArrayReader.c,
      ArrayWriter.c and the interfaces io/Reader.h, Writer.h) and
      BencSerializer (benc/serialization/standard/): messages of the DHT;
      JsonBencSerializer (benc/serialization/json/): the form of the configuration
      file, with JsonBehaviour, what is written and when that ends, and JsonParsing,
      what is read back;
    - Address (dht/Address.h, util/version/Version.h), NodeCollector
      (dht/dhtcore/NodeCollector.h, LinkStateNodeCollector.h,
      DistanceNodeCollector.h) and NodeStore (dht/dhtcore/NodeStore.c): the
      routing table; VersionList (dht/dhtcore/VersionList.c), AverageRoller
      (util/AverageRoller.c) and SearchStore (dht/dhtcore/SearchStore.c): what the
      searches in it use;
    - Map (util/Map.h) and SessionManager (interface/SessionManager.c): the
      sessions by address and by handle;
    - Pinger (util/Pinger.c), SwitchPinger (net/SwitchPinger.c) and Ducttape (the
      control packets of net/Ducttape.c): pings along a path;
    - TUNMessageType (interface/TUNMessageType.c) and IpTunnel
      (tunnel/IpTunnel.c): foreign addresses through another node;
    - DHT (dht/DHTModuleRegistry.c, ReplyModule.c, SerializationModule.c,
      DHTMessage.h): messages of the DHT, and the monad of actions;
    - RouterModule (dht/dhtcore/RouterModule.c, Janitor.c, with the registry as
      admin/angel/Core.c sets it up): pings, queries, replies, searches and
      maintenance. NodeStoreKeeps has what the store leaves alone,
      RouterInvariant the invariant, RouterSafety that no operation aborts,
      RouterBehaviour and RouterExchange what queries, searches and pings do,
      RouterDefects what goes wrong;
    - DucttapeData (net/Ducttape.c, Ducttape_pvt.h): the data path.
      DucttapeDelivery has a packet from the device of a node to that of the next
      one, DucttapeThrough over a node in between, DucttapeDHT a message of the
      DHT, DucttapeExamples two small networks and the witnesses, DucttapeDefects
      what goes wrong;
    - InterfaceController (interface/InterfaceController.h,
      net/DefaultInterfaceController.c): the neighbours, between the drivers and
      the switch. InterfaceInvariant has the invariant, InterfaceBehaviour what
      happens to packets, InterfaceExamples a controller that runs, the witnesses
      and what goes wrong;
    - Admin (admin/Admin.c, Admin.h) and AdminClient (admin/AdminClient.c,
      AdminClient.h): the remote control. AdminBehaviour has what the server does
      with any message, AdminSession a call from the client to the function and
      back, AdminExamples a daemon and a client that run.

    Each file has one definition per C function, under the C name. Where two
    files would share a name or a C name is too common, the definitions are in a
    Module or the file qualifies them: [SwitchCore.receiveMessage] is
    receiveMessage of SwitchCore.c, [CryptoAuth.receiveMessage] that of
    CryptoAuth.c, [ArrayReader_read] is read of ArrayReader.c. Loops are
    definitions of their own, named after the function.

    ** How C is modelled

    - Integers are in Z; [u8] to [u64], [s32] and [s64] wrap where the C type
      does. Bit operations are those of Z, in the notations below.
    - Memory is a total map from addresses to bytes ([Memory.mem]): a read or a
      write out of bounds is seen as what it is. A structure whose layout
      matters (a packet) lies in memory, other structures are records.
    - The byte order of the host is the parameter [Platform]: theorems hold for
      both. NaCl is the class [NaCl] with the laws [NaClLaws]: a box opens to
      what was put in, a stream applied twice gives the message back, the two
      sides of a key agreement get the same secret, lengths are the documented
      ones. A toy instance satisfies them. Random bytes come from a
      [RandomSource]; the generator of the code is one.
    - Functions that call back into other components return the list of what
      they sent and delivered, in order. None is an aborted program.
    - Components that thread much state use the monad [M W] of DHT: an action on
      a state of type [W] may abort. [wp] is its weakest precondition.
    - [for_loop n i body] is a counted loop. Recursion that is not structural
      has fuel: the serializer's parser, where more fuel than there are bytes
      left is proved enough, and the loops over the 64 bits of a word. The router
      parses messages of at most 1536 bytes, with that much fuel; JSON is read
      with as much fuel as there are characters, and padded in no more rounds than
      the serializer is given: none is needed up to 32 spaces. A request of random
      bytes goes round twice at most, one of a password once for every 26
      characters. A list of
      versions is written with the fuel it is given, and 3 is enough unless the
      version is 2^32 - 1. [handle_event] counts the callbacks of sessions that
      are nested: 1 is enough for a packet to the next node, 2 for one that is
      encrypted twice or passed on.
    - Sums that the code keeps in 32 bits overflow after long runs: the theorems
      on the router hold for a number of operations that is stated with them.

    ** Interfaces between components

    [SchemeLaws] (NumberCompress) is what the switch and the splicer need of an
    encoding of interface numbers; all three encodings of the source satisfy it.
    [ReaderLaws] and [WriterLaws] (ArrayIO) are what the serializer needs;
    ArrayReader and ArrayWriter satisfy them. [NaClLaws] and [RandomLaws] (NaCl)
    are what the sessions need; [generator_laws] (Random) discharges the latter.
    [linkstate_collect_best] (NodeCollector) is what
    the node store needs of a collector. [MapKeyLaws] (Map) is what a map needs of
    its keys, [TunTypeLaws] (TUNMessageType) what the tunnel needs of the mark on
    a packet; the marks of Linux, BSD and Illumos satisfy it. [Environment] is
    what the router is given from outside: the clock, [rand], and what lies in
    memory that is not initialized. [Router] (DucttapeData) is what the data path
    calls of the router, and [Surroundings] what the other ends of its interfaces
    return; [Wires] (InterfaceController) is the same for the neighbours.
    [AdminUsers] (Admin) is what registered functions answer. The examples
    instantiate them.

    ** What is proved

    - Sessions: two ends that start afresh complete the handshake in three
      messages and agree on a secret ([CryptoAuth_handshake]); between the two
      ends of a session every data packet with a fresh nonce is delivered
      unchanged ([CryptoAuth_data_delivered]); what an authenticated session
      delivers opened under its secret and has a nonce that the replay window
      takes ([CryptoAuth_delivers_only_authentic]); the replay window refines a set of
      seen nonces ([checkNonces_spec]); registered passwords are found by their
      hash ([CryptoAuth_addUser_getAuth]). A map refines a finite map with handles
      ([Map_refines]); a handle stands for one address as long as it lives
      ([SessionManager_handle_is_one_address]), and what a lookup of a session
      finds, makes and throws out ([SessionManager_getSession_spec]).
    - Data path: between two nodes with running sessions, a packet from the device
      of one reaches the device of the other unchanged
      ([Ducttape_delivers_packet]), also over a node in between that cannot read
      it ([Ducttape_delivers_through]), which passes it on with its hop limit
      lowered and a new label ([Ducttape_passes_on]); a message of the DHT reaches
      the registry of the other with the sender's address, key and the label back
      ([Ducttape_delivers_dht]).
    - Neighbours: every state that the controller can get into keeps one row of
      its map, one slot of the switch and the label of that slot for each peer
      ([InterfaceController_reachable]); a neighbour who comes back takes over his
      old slot and label ([InterfaceController_merges]); what may be a replay does
      not get past this node ([InterfaceController_guards_replay]); a packet for a
      silent neighbour is answered with an error packet that quotes it
      ([InterfaceController_undeliverable]).
    - Router: no operation aborts on messages whose fields are those that the code
      relies on ([RouterModule_never_aborts]); what a query is answered with
      ([RouterModule_answers]); a ping and its answer put both nodes in the other's
      table ([RouterModule_ping_roundtrip]); a search ends after nine requests at
      most ([RouterModule_search_ends]); the reach that a reply gives
      ([responseFromNode_spec]) and how it spreads to the nodes behind
      ([NodeStore_updateReach_spec]); which of two nodes is nearer to a target
      ([xorCompare_spec]).
    - Switch: what is forwarded where, with which label, and every error branch
      ([SwitchCore_receiveMessage_spec]); the reversed label leads back
      ([SwitchCore_return_path]); the error packet is well formed and its
      checksum right ([SwitchCore_sendError_packet]); the table's invariant over
      all operations ([SwitchCore_reachable_table]); which slot an interface gets
      ([SwitchCore_addInterface_spec]).
    - Labels: encodings round-trip, splicing is concatenation of paths, is
      associative, and the tests on labels mean what they say.
    - Messages: the parser inverts the serializer and always terminates with
      fuel bounded by the input; dictionaries refine finite maps; readers and
      writers refine byte sequences.
    - Configuration: what is written as JSON is read back, with the entries of
      every dictionary turned round ([JsonBencSerializer_roundtrip]), and is written
      at all exactly if it is not nested too deep ([JsonBencSerializer_ends]).
    - Random bytes: requests, however they are cut, take the bytes of one stream
      one after the other ([Random_bytes_stream]); a password fills the space it is
      given and nothing else ([Random_base32_password]).
    - Routing table: adding a node keeps the table well formed and loses nothing
      it should not ([NodeStore_addNode_spec]), breaking a path removes what is
      behind it ([NodeStore_brokenPath_spec]), the next hop is the best one
      ([NodeStore_getBest_spec]), a distance collector keeps the best of what it
      saw ([DistanceNodeCollector_best]). The search store refines stacks of nodes
      with their histories ([SearchStore_refines]); version lists round-trip
      ([VersionList_roundtrip]); the average is that of the seconds kept
      ([AverageRoller_spec]).
    - Pings: every ping ends exactly once, by its answer or by its timer
      ([Pinger_every_ping_ends]); a ping along a path comes back to the one who
      sent it, with its data and the other node's version ([SwitchPinger_echo]).
    - Tunnel: a client's request and the server's answer give the connection that
      asked the addresses it was allowed, across hosts of different byte order
      ([IpTunnel_addresses_issued]); which packets of other nodes reach the device
      ([IpTunnel_guards_tun]); every state the tunnel can get into is well formed
      and keeps its connections ([IpTunnel_reachable]); where a new connection
      goes ([IpTunnel_newConnection_order]).
    - Remote control: a client that knows the password reaches the function it
      names, with its arguments, and gets what that answers
      ([AdminClient_call_reaches_function]); a function that needs the password
      runs only for a request that proves it ([Admin_needs_password]); no message
      stops the daemon ([Admin_survives_requests]) or makes the check of the
      password write outside it ([authValid_stays_inside]), unless the addresses
      of the clients are longer than those of IPv4 ([Admin_long_address_aborts]).
    - Utilities: round trips of the printed forms; checksums are those of RFC 1071
      on every host ([Checksum_is_rfc1071]) and verify; fields of headers do not
      disturb one another.
    - Defects, stated as theorems about the definitions: the switch's scan for a
      free slot leaves its table after a peer came back
      ([SwitchCore_addInterface_leaves_table]), removing users loses the last one
      ([CryptoAuth_removeUsers_loses_last]), the padding that a session announces
      is not enough ([CryptoAuth_announced_padding_aborts]), a parsed dictionary
      accepts a key twice ([Dict_put_duplicates_parsed]), the parser reads behind
      a buffer ([parseList_reads_past_end]), an odd number of hexadecimal digits
      is decoded past both ends ([Hex_decode_odd_overruns]), a short error packet
      stops the node ([handleControlMessage_runt_error_aborts]), an offer of
      addresses changes a connection that did not ask
      ([IpTunnel_offer_to_any_connection]), the tunnel's poll goes on behind its
      array ([IpTunnel_timeout_never_wraps]), a reply without a version stops the
      router ([RouterModule_unversioned_reply_aborts]), a version of 2^32 - 1 hangs
      it ([RouterModule_version_hangs]), a reply can take routes away
      ([RouterModule_reply_cuts_routes]), the next hop of one packet is used for
      the next ([Ducttape_stale_next_hop]), packets are accepted under any source
      address ([Ducttape_accepts_any_source]), a packet to oneself loses its mark
      ([Ducttape_letter_unmarked]), the guard against replays is not for a
      neighbour that was marked as unresponsive
      ([InterfaceController_unresponsive_unguarded]), a peer is used after it
      was given back ([InterfaceController_uses_freed_peer]), a negative number in
      a JSON list comes back positive ([JsonBencSerializer_loses_sign]), and a JSON
      file that was cut off behind a slash is read for ever
      ([JsonBencSerializer_hangs_on_slash]).

    ** What is not modelled

    Input and output (interfaces, TUN, sockets, files), the event loop,
    the allocators (allocation failure aborts the process), process set-up and
    the third-party libraries. Logging and assertions compiled in only for
    debugging. Of the parts that are modelled: the calls of the administrator
    (a dump of the routing table, a ping to a printed address), which only
    translate between dictionaries and the functions modelled here, the
    allocator of a DHT message (a message that does not fit it is dropped), the
    seeds that the operating system gives, and
    the wiring of interfaces at start-up. The functions that the parts register
    with the remote control and the rest of admin/, and the drivers (interface/),
    carry no logic of the protocol. *)
From Stdlib Require Export ZArith Lia Bool.
From Stdlib Require Ascii String.
From stdpp Require Export base tactics list numbers.

#[export] Set Default Goal Selector "!".
Global Open Scope Z_scope.

(** ** Notations: C bit operators, in a scope of their own *)
Declare Scope c_scope.
Delimit Scope c_scope with c.
Infix ".&" := Z.land (at level 52, left associativity) : c_scope.
Infix ".^" := Z.lxor (at level 53, left associativity) : c_scope.
Infix ".|" := Z.lor (at level 54, left associativity) : c_scope.
Infix "<<" := Z.shiftl (at level 51, left associativity) : c_scope.
Infix ">>" := Z.shiftr (at level 51, left associativity) : c_scope.
Global Open Scope c_scope.

(** ** Machine integers: values are [Z], arithmetic wraps explicitly *)
Definition u8 (z : Z) : Z := z mod 2 ^ 8.
Definition u16 (z : Z) : Z := z mod 2 ^ 16.
Definition u32 (z : Z) : Z := z mod 2 ^ 32.
Definition u64 (z : Z) : Z := z mod 2 ^ 64.
Definition s32 (z : Z) : Z := (z + 2 ^ 31) mod 2 ^ 32 - 2 ^ 31.
Definition s64 (z : Z) : Z := (z + 2 ^ 63) mod 2 ^ 64 - 2 ^ 63.
Definition UINT32_MAX : Z := 4294967295.
Definition UINT64_MAX : Z := 18446744073709551615.
Definition INT32_MAX : Z := 2147483647.
Definition INT64_MAX : Z := 9223372036854775807.
Definition INT64_MIN : Z := -9223372036854775808.

Definition is_byte (b : Z) : Prop := 0 <= b < 256.
Definition bytes_ok (l : list Z) : Prop := Forall is_byte l.

(** The character codes of a string literal of the source. *)
Export Stdlib.Strings.String.StringSyntax.
Definition chars (s : String.string) : list Z :=
  map (fun c => Z.of_N (Ascii.N_of_ascii c)) (String.list_ascii_of_string s).
Arguments chars s%_string_scope.

(** ** The machine and build the program is compiled for

    The byte order of the host, the signedness of plain [char], and the build's
    limit on peers (NumberCompress.h refuses to compile above 256). *)
Class Platform : Type := {
  host_is_big_endian : bool;
  char_is_signed : bool;
  CJDNS_MAX_PEERS : Z;
  CJDNS_MAX_PEERS_ok : CJDNS_MAX_PEERS <= 256
}.

(** The platform of the witnesses: x86, and the default of CMakeLists.txt. *)
Definition x86 : Platform :=
  {| host_is_big_endian := false; char_is_signed := true;
     CJDNS_MAX_PEERS := 256; CJDNS_MAX_PEERS_ok := ltac:(done) |}.

(** ** Loops *)

(** [for (i = lo; i < lo + n; i++) s = f i s]. *)
Fixpoint for_loop {S : Type} (n : nat) (lo : Z) (f : Z -> S -> S) (s : S) : S :=
  match n with
  | O => s
  | Datatypes.S n' => for_loop n' (lo + 1) f (f lo s)
  end.

(** The same with early exit: [inr r] leaves the loop with the result [r]. *)
Fixpoint for_until {S R : Type} (n : nat) (lo : Z) (f : Z -> S -> S + R) (s : S) : S + R :=
  match n with
  | O => inl s
  | Datatypes.S n' =>
      match f lo s with
      | inl s' => for_until n' (lo + 1) f s'
      | inr r => inr r
      end
  end.

(** ** Lemmas on machine integers *)
Lemma u8_range z : 0 <= u8 z < 256.
Proof. apply Z.mod_pos_bound. lia. Qed.
Lemma u16_range z : 0 <= u16 z < 2 ^ 16.
Proof. apply Z.mod_pos_bound. lia. Qed.
Lemma u32_range z : 0 <= u32 z < 2 ^ 32.
Proof. apply Z.mod_pos_bound. lia. Qed.
Lemma u64_range z : 0 <= u64 z < 2 ^ 64.
Proof. apply Z.mod_pos_bound. lia. Qed.
Lemma u8_small z : 0 <= z < 256 -> u8 z = z.
Proof. apply Z.mod_small. Qed.
Lemma u16_small z : 0 <= z < 2 ^ 16 -> u16 z = z.
Proof. apply Z.mod_small. Qed.
Lemma u32_small z : 0 <= z < 2 ^ 32 -> u32 z = z.
Proof. apply Z.mod_small. Qed.
Lemma u64_small z : 0 <= z < 2 ^ 64 -> u64 z = z.
Proof. apply Z.mod_small. Qed.
Lemma s32_small z : - 2 ^ 31 <= z < 2 ^ 31 -> s32 z = z.
Proof. intros H. unfold s32. rewrite Z.mod_small by lia. lia. Qed.
Lemma s64_small z : - 2 ^ 63 <= z < 2 ^ 63 -> s64 z = z.
Proof. intros H. unfold s64. rewrite Z.mod_small by lia. lia. Qed.

(** A list of constants holds bytes: by evaluation. *)
Lemma bytes_ok_check l : forallb (fun b => (0 <=? b) && (b <? 256)) l = true -> bytes_ok l.
Proof.
  intros H. apply List.Forall_forall. intros b Hb. rewrite forallb_forall in H. apply H in Hb.
  unfold is_byte. apply andb_true_iff in Hb as [H1 H2]. lia.
Qed.

Create HintDb cjdns.
#[export] Hint Resolve u8_range u16_range u32_range u64_range : cjdns.
#[export] Hint Unfold is_byte : cjdns.

(** ** Bits *)
Lemma testbit_high (z n i : Z) : 0 <= z < 2 ^ n -> n <= i -> Z.testbit z i = false.
Proof.
  intros Hz Hi. destruct (Z.ltb_spec n 0) as [Hn|Hn].
  { rewrite Z.pow_neg_r in Hz by lia. lia. }
  rewrite <-(Z.mod_small z (2 ^ n)) by lia. apply Z.mod_pow2_bits_high. lia.
Qed.

Lemma testbit_mod (a n i : Z) :
  0 <= n -> Z.testbit (a mod 2 ^ n) i = (i <? n) && Z.testbit a i.
Proof.
  intros Hn. destruct (Z.ltb_spec i n).
  - destruct (decide (i < 0)).
    + rewrite !Z.testbit_neg_r by lia. done.
    + rewrite Z.mod_pow2_bits_low by lia. done.
  - rewrite Z.mod_pow2_bits_high by lia. done.
Qed.

Lemma mod_pow2_le (a k n : Z) : 0 <= k <= n -> (a mod 2 ^ n) mod 2 ^ k = a mod 2 ^ k.
Proof.
  intros Hk. apply Z.bits_inj'. intros i Hi. rewrite !testbit_mod by lia.
  destruct (Z.ltb_spec i k), (Z.ltb_spec i n); lia || done.
Qed.

(** A bounded number is determined by its low bits. *)
Lemma bits_inj_bounded (n a b : Z) :
  0 <= a < 2 ^ n -> 0 <= b < 2 ^ n ->
  (forall i, 0 <= i < n -> Z.testbit a i = Z.testbit b i) -> a = b.
Proof.
  intros Ha Hb Hbits. apply Z.bits_inj'. intros i Hi.
  destruct (decide (i < n)); [apply Hbits; lia|].
  rewrite !(testbit_high _ n) by lia. done.
Qed.

Lemma land_range_l (a b n : Z) : 0 <= a < 2 ^ n -> 0 <= a .& b < 2 ^ n.
Proof.
  intros Ha. assert (0 <= n) by (destruct (Z.ltb_spec n 0); [rewrite Z.pow_neg_r in Ha; lia|lia]).
  assert (a .& b = (a .& b) mod 2 ^ n) as ->.
  - rewrite <-Z.land_ones by lia. rewrite <-Z.land_assoc, (Z.land_comm b), Z.land_assoc.
    rewrite (Z.land_ones a) by lia. rewrite Z.mod_small by lia. done.
  - apply Z.mod_pos_bound. lia.
Qed.

Lemma lor_range (a b n : Z) : 0 <= n -> 0 <= a < 2 ^ n -> 0 <= b < 2 ^ n -> 0 <= a .| b < 2 ^ n.
Proof.
  intros Hn Ha Hb. assert (a .| b = (a .| b) mod 2 ^ n) as ->.
  - rewrite <-Z.land_ones, Z.land_lor_distr_l, !Z.land_ones by lia.
    rewrite !Z.mod_small by lia. done.
  - apply Z.mod_pos_bound. lia.
Qed.

Lemma shiftr_range (a k n : Z) :
  0 <= k -> 0 <= n -> 0 <= a < 2 ^ (n + k) -> 0 <= a >> k < 2 ^ n.
Proof.
  intros Hk Hn Ha. rewrite Z.shiftr_div_pow2 by lia. rewrite Z.pow_add_r in Ha by lia.
  split; [apply Z.div_pos; lia|]. apply Z.div_lt_upper_bound; lia.
Qed.

Lemma shiftr_small (a k n : Z) : 0 <= k -> 0 <= a < 2 ^ n -> 0 <= a >> k < 2 ^ n.
Proof.
  intros Hk Ha. rewrite Z.shiftr_div_pow2 by lia. assert (1 <= 2 ^ k) by lia.
  split; [apply Z.div_pos; lia|]. apply Z.div_lt_upper_bound; [lia|]. nia.
Qed.

Lemma shiftl_range (a k n : Z) :
  0 <= k -> 0 <= a < 2 ^ n -> 0 <= a << k < 2 ^ (n + k).
Proof.
  intros Hk Ha. assert (0 <= n) by (destruct (Z.ltb_spec n 0); [rewrite Z.pow_neg_r in Ha; lia|lia]).
  rewrite Z.shiftl_mul_pow2 by lia. rewrite Z.pow_add_r by lia.
  assert (0 < 2 ^ k) by lia. nia.
Qed.

(** Numbers with disjoint bits: [lor] is addition. *)
Lemma lor_disjoint_add (a b : Z) : a .& b = 0 -> a .| b = a + b.
Proof. intros H. rewrite <-Z.lxor_lor by done. rewrite Z.add_nocarry_lxor; done. Qed.

Lemma lor_shiftl_add (a b k : Z) : 0 <= k -> 0 <= a < 2 ^ k -> a .| (b << k) = a + b * 2 ^ k.
Proof.
  intros Hk Ha. rewrite lor_disjoint_add.
  - rewrite Z.shiftl_mul_pow2 by lia. done.
  - apply Z.bits_inj'. intros i Hi. rewrite Z.land_spec, Z.bits_0.
    destruct (decide (i < k)).
    + rewrite Z.shiftl_spec_low by lia. apply andb_false_r.
    + rewrite (testbit_high a k) by lia. done.
Qed.

(** A check of every number below a bound, for facts decided by evaluation. *)
Definition forall_below (n : nat) (p : Z -> bool) : bool :=
  forallb (fun i => p (Z.of_nat i)) (seq 0 n).

Lemma forall_below_spec (n : nat) (p : Z -> bool) :
  forall_below n p = true -> forall i, 0 <= i < Z.of_nat n -> p i = true.
Proof.
  unfold forall_below. rewrite forallb_forall. intros H i Hi.
  specialize (H (Z.to_nat i)). rewrite Z2Nat.id in H by lia. apply H.
  apply in_seq. lia.
Qed.

(** The same as a conjunction, when the cases are propositions to compute. *)
Fixpoint forall_list (n : nat) (i : Z) (Q : Z -> Prop) : Prop :=
  match n with O => True | S n' => Q i /\ forall_list n' (i + 1) Q end.

Lemma forall_list_spec n lo Q : forall_list n lo Q -> forall i, lo <= i < lo + Z.of_nat n -> Q i.
Proof.
  revert lo. induction n as [|n IH]; intros lo; cbn [forall_list]; [lia|].
  intros [H0 H] i Hi. destruct (decide (i = lo)) as [->|]; [done|]. apply (IH (lo + 1) H). lia.
Qed.
(** ** Loops *)
Lemma for_loop_ind {S : Type} (P : Z -> S -> Prop) (n : nat) lo f s :
  P lo s ->
  (forall i s', lo <= i < lo + Z.of_nat n -> P i s' -> P (i + 1) (f i s')) ->
  P (lo + Z.of_nat n) (for_loop n lo f s).
Proof.
  revert lo s. induction n as [|n IH]; intros lo s H0 Hstep; cbn [for_loop].
  - rewrite Z.add_0_r. exact H0.
  - replace (lo + Z.of_nat (Datatypes.S n)) with ((lo + 1) + Z.of_nat n) by lia.
    apply IH.
    + apply Hstep; [lia|done].
    + intros i s' Hi. apply Hstep. lia.
Qed.

Lemma for_loop_ext {S : Type} (n : nat) lo (f g : Z -> S -> S) s :
  (forall i s', lo <= i < lo + Z.of_nat n -> f i s' = g i s') -> for_loop n lo f s = for_loop n lo g s.
Proof.
  revert lo s. induction n as [|n IH]; intros lo s H; cbn [for_loop]; [done|].
  rewrite H by lia. apply IH. intros i s' Hi. apply H. lia.
Qed.

(** A loop whose body keeps an invariant and does not leave early. *)
Lemma for_until_total {S R : Type} (P : Z -> S -> Prop) (n : nat) lo (f : Z -> S -> S + R) s :
  P lo s ->
  (forall i s', lo <= i < lo + Z.of_nat n -> P i s' -> exists s'', f i s' = inl s'' /\ P (i + 1) s'') ->
  exists s', for_until n lo f s = inl s' /\ P (lo + Z.of_nat n) s'.
Proof.
  revert lo s. induction n as [|n IH]; intros lo s H0 Hstep; cbn [for_until].
  - rewrite Z.add_0_r. eauto.
  - destruct (Hstep lo s ltac:(lia) H0) as (s1 & -> & H1).
    replace (lo + Z.of_nat (Datatypes.S n)) with ((lo + 1) + Z.of_nat n) by lia.
    apply IH; [exact H1|]. intros i s' Hi. apply Hstep. lia.
Qed.

Lemma for_until_inv {S R : Type} (P : Z -> S -> Prop) (Q : R -> Prop) (n : nat) lo (f : Z -> S -> S + R) s :
  P lo s -> (forall i s, P i s -> match f i s with inl s' => P (i + 1) s' | inr r => Q r end) ->
  match for_until n lo f s with inl s' => P (lo + Z.of_nat n) s' | inr r => Q r end.
Proof.
  intros H0 Hstep. revert lo s H0. induction n as [|n IH]; intros lo s H0; cbn [for_until]; [by rewrite Z.add_0_r|].
  specialize (Hstep lo s H0). destruct (f lo s) as [s'|r]; [|done].
  replace (lo + Z.of_nat (Datatypes.S n)) with (lo + 1 + Z.of_nat n) by lia. by apply IH.
Qed.

Lemma for_until_ext {S R : Type} (n : nat) lo (f g : Z -> S -> S + R) s :
  (forall i s, f i s = g i s) -> for_until n lo f s = for_until n lo g s.
Proof.
  intros H. revert lo s. induction n as [|n IH]; intros lo s; cbn [for_until]; [done|]. rewrite H.
  destruct (g lo s); auto.
Qed.

(** A loop that looks for the first index with a property. *)
Lemma search_spec {R : Type} (n : nat) lo (p : Z -> bool) (f : Z -> R) :
  match for_until n lo (fun i _ => if p i then inr (f i) else inl tt) tt with
  | inr r => exists i, lo <= i < lo + Z.of_nat n /\ p i = true /\ r = f i /\ forall j, lo <= j < i -> p j = false
  | inl _ => forall j, lo <= j < lo + Z.of_nat n -> p j = false
  end.
Proof.
  revert lo. induction n as [|n IH]; intros lo; cbn [for_until]; [intros j Hj; lia|].
  destruct (p lo) eqn:E.
  - exists lo. split; [lia|]. split; [done|]. split; [done|]. intros j Hj. lia.
  - specialize (IH (lo + 1)). destruct (for_until _ _ _ _) as [u|r].
    + intros j Hj. destruct (decide (j = lo)) as [->|]; [done|]. apply IH. lia.
    + destruct IH as (i & Hi & Hp & Hr & Hlow). exists i. split; [lia|]. split; [done|]. split; [done|].
      intros j Hj. destruct (decide (j = lo)) as [->|]; [done|]. apply Hlow. lia.
Qed.

(** Case analysis on boolean comparisons and options in the goal. *)
Ltac bcase :=
  repeat match goal with
  | |- context [Z.eqb ?a ?b] => destruct (Z.eqb_spec a b)
  | |- context [Z.ltb ?a ?b] => destruct (Z.ltb_spec a b)
  | |- context [Z.leb ?a ?b] => destruct (Z.leb_spec a b)
  end.
