(* ===== verification/Memory.v ===== *)
(** * Byte memory and fixed-width integers laid out in bytes

    A buffer of the C code is a total map from addresses (relative to the
    buffer's first byte) to bytes: reading past the end of a buffer gives
    whatever lies there, as in C, and a write past the end is visible as such.
    [le_combine]/[le_split] and [be_combine]/[be_split] are the two byte orders;
    [load]/[store] use the order of the host. *)
From S2P Require Import Prelude.

Definition mem : Type := Z -> Z.

(** The [n] bytes from address [a]. *)
Definition read (m : mem) (a n : Z) : list Z :=
  map (fun i => m (a + Z.of_nat i)) (seq 0 (Z.to_nat n)).

(** Overwrite the bytes from address [a] with [l]. *)
Definition write (m : mem) (a : Z) (l : list Z) : mem :=
  fun x => if (a <=? x) && (x <? a + Z.of_nat (length l))
           then nth (Z.to_nat (x - a)) l 0 else m x.

(** [m[a] = b]. *)
Definition set (m : mem) (a b : Z) : mem := fun x => if x =? a then b else m x.

Definition of_list (l : list Z) : mem :=
  fun x => if x <? 0 then 0 else nth (Z.to_nat x) l 0.

(** A local array the code fills before reading it. *)
Definition scratch : mem := of_list [].

Definition mem_ok (m : mem) : Prop := forall x, is_byte (m x).

Fixpoint le_combine (l : list Z) : Z :=
  match l with [] => 0 | b :: l' => b + 256 * le_combine l' end.

Fixpoint le_split (n : nat) (z : Z) : list Z :=
  match n with O => [] | S n' => u8 z :: le_split n' (z / 256) end.

Definition be_combine (l : list Z) : Z := le_combine (rev l).
Definition be_split (n : nat) (z : Z) : list Z := rev (le_split n z).

(** An integer of [n] bytes read from and stored to memory by the host. *)
Definition load `{Platform} (n : nat) (m : mem) (a : Z) : Z :=
  let l := read m a (Z.of_nat n) in
  if host_is_big_endian then be_combine l else le_combine l.

Definition store `{Platform} (n : nat) (z : Z) : list Z :=
  if host_is_big_endian then be_split n z else le_split n z.

(** ** Reading and writing *)
Lemma length_read m a n : length (read m a n) = Z.to_nat n.
Proof. unfold read. rewrite length_map, length_seq. done. Qed.

Lemma nth_read m a n i d : (i < Z.to_nat n)%nat -> nth i (read m a n) d = m (a + Z.of_nat i).
Proof.
  intros Hi. unfold read.
  rewrite nth_indep with (d' := (fun i => m (a + Z.of_nat i)) 0%nat)
    by (rewrite length_map, length_seq; lia).
  rewrite (map_nth (fun i => m (a + Z.of_nat i))). rewrite seq_nth by lia. f_equal.
Qed.

Lemma read_ext m m' a a' n :
  (forall i, 0 <= i < n -> m (a + i) = m' (a' + i)) -> read m a n = read m' a' n.
Proof.
  intros H. unfold read. apply map_ext_in. intros i Hi%in_seq. apply H. lia.
Qed.

Lemma read_inj m m' a a' n i : read m a n = read m' a' n -> 0 <= i < n -> m (a + i) = m' (a' + i).
Proof.
  intros E Hi. apply (f_equal (fun l => nth (Z.to_nat i) l 0)) in E.
  rewrite !nth_read, Z2Nat.id in E by lia. done.
Qed.

Lemma read_0 m a n : n <= 0 -> read m a n = [].
Proof. intros H. unfold read. replace (Z.to_nat n) with 0%nat by lia. done. Qed.

Lemma read_app m a n k : 0 <= n -> 0 <= k -> read m a (n + k) = read m a n ++ read m (a + n) k.
Proof.
  intros Hn Hk. apply (nth_ext _ _ 0 0).
  - rewrite length_app, !length_read. lia.
  - rewrite length_read. intros i Hi. rewrite nth_read by lia.
    destruct (Nat.ltb_spec i (Z.to_nat n)).
    + rewrite app_nth1 by (rewrite length_read; lia). rewrite nth_read by lia. done.
    + rewrite app_nth2 by (rewrite length_read; lia).
      rewrite length_read, nth_read by lia. f_equal. lia.
Qed.

Lemma read_split m a n k : 0 <= k <= n -> read m a n = read m a k ++ read m (a + k) (n - k).
Proof. intros H. rewrite <-read_app by lia. f_equal. lia. Qed.

Lemma write_in m a l x :
  a <= x < a + Z.of_nat (length l) -> write m a l x = nth (Z.to_nat (x - a)) l 0.
Proof.
  intros H. unfold write.
  destruct (Z.leb_spec a x), (Z.ltb_spec x (a + Z.of_nat (length l))); simpl; lia || done.
Qed.

Lemma write_out m a l x :
  x < a \/ a + Z.of_nat (length l) <= x -> write m a l x = m x.
Proof.
  intros H. unfold write.
  destruct (Z.leb_spec a x), (Z.ltb_spec x (a + Z.of_nat (length l))); simpl; lia || done.
Qed.

Lemma set_eq m a b : set m a b a = b.
Proof. unfold set. rewrite Z.eqb_refl. done. Qed.

Lemma set_ne m a b x : x <> a -> set m a b x = m x.
Proof. intros H. unfold set. destruct (Z.eqb_spec x a); [lia|done]. Qed.

Lemma set_ok m a b : mem_ok m -> is_byte b -> mem_ok (set m a b).
Proof. intros Hm Hb x. unfold set. destruct (x =? a); auto. Qed.

Lemma read_write_disj m a l b n :
  b + n <= a \/ a + Z.of_nat (length l) <= b -> read (write m a l) b n = read m b n.
Proof. intros H. apply read_ext. intros i Hi. apply write_out. lia. Qed.

Lemma read_write_same m a l n : n = Z.of_nat (length l) -> read (write m a l) a n = l.
Proof.
  intros ->. apply (nth_ext _ _ 0 0); rewrite length_read, Nat2Z.id; [done|].
  intros i Hi. rewrite nth_read by lia. rewrite write_in by lia.
  f_equal. lia.
Qed.

(** Reading inside what was just written. *)
Lemma read_write_sub m a l b n :
  a <= b -> 0 <= n -> b + n <= a + Z.of_nat (length l) ->
  read (write m a l) b n = take (Z.to_nat n) (drop (Z.to_nat (b - a)) l).
Proof.
  intros Hab Hn Hle. apply (nth_ext _ _ 0 0).
  - rewrite length_read, length_take, length_drop. lia.
  - rewrite length_read. intros i Hi. rewrite nth_read by lia. rewrite write_in by lia.
    rewrite nth_firstn, nth_skipn.
    destruct (Nat.ltb_spec i (Z.to_nat n)); [|lia]. f_equal. lia.
Qed.

Lemma read_of_list l n : n = Z.of_nat (length l) -> read (of_list l) 0 n = l.
Proof.
  intros ->. apply (nth_ext _ _ 0 0); rewrite length_read, Nat2Z.id; [done|].
  intros i Hi. rewrite nth_read by lia. unfold of_list.
  destruct (Z.ltb_spec (0 + Z.of_nat i) 0); [lia|]. f_equal. lia.
Qed.

Lemma read_cons m a n : 0 < n -> read m a n = m a :: read m (a + 1) (n - 1).
Proof.
  intros Hn. rewrite (read_split m a n 1) by lia. unfold read at 1. simpl.
  rewrite Z.add_0_r. done.
Qed.

Lemma read_ok m a n : mem_ok m -> bytes_ok (read m a n).
Proof.
  intros Hm. apply List.Forall_forall. intros x Hx.
  apply in_map_iff in Hx as (i & <- & _). apply Hm.
Qed.

Lemma write_ok m a l : mem_ok m -> bytes_ok l -> mem_ok (write m a l).
Proof.
  intros Hm Hl x. unfold write.
  destruct (Z.leb_spec a x), (Z.ltb_spec x (a + Z.of_nat (length l))); simpl; try done.
  unfold bytes_ok in Hl. rewrite List.Forall_forall in Hl. apply Hl, nth_In. lia.
Qed.

(** The middle part of a byte sequence. *)
Lemma read_of_list_mid l1 l2 l3 a n : a = Z.of_nat (length l1) -> n = Z.of_nat (length l2) ->
  read (of_list (l1 ++ l2 ++ l3)) a n = l2.
Proof.
  intros -> ->. apply (nth_ext _ _ 0 0); [rewrite length_read; lia|].
  rewrite length_read. intros i Hi. rewrite nth_read by done. unfold of_list.
  destruct (Z.ltb_spec (Z.of_nat (length l1) + Z.of_nat i) 0); [lia|].
  replace (Z.to_nat (Z.of_nat (length l1) + Z.of_nat i)) with (length l1 + i)%nat by lia.
  rewrite app_nth2_plus, app_nth1 by lia. done.
Qed.

Lemma of_list_ok l : bytes_ok l -> mem_ok (of_list l).
Proof.
  intros Hl x. unfold of_list. destruct (x <? 0); [unfold is_byte; lia|].
  destruct (nth_in_or_default (Z.to_nat x) l 0) as [Hin|E]; [|rewrite E; unfold is_byte; lia].
  unfold bytes_ok in Hl. rewrite List.Forall_forall in Hl. apply Hl, Hin.
Qed.

(** ** Byte order *)
Lemma length_le_split n z : length (le_split n z) = n.
Proof. revert z. induction n as [|n IH]; intros z; simpl; [done|]. rewrite IH. done. Qed.

Lemma length_be_split n z : length (be_split n z) = n.
Proof. unfold be_split. rewrite length_rev. apply length_le_split. Qed.

Lemma length_store `{Platform} n z : length (store n z) = n.
Proof. unfold store. destruct host_is_big_endian; auto using length_le_split, length_be_split. Qed.

Lemma le_split_ok n z : bytes_ok (le_split n z).
Proof.
  revert z. induction n as [|n IH]; intros z; simpl; constructor; [|apply IH].
  apply u8_range.
Qed.

Lemma be_split_ok n z : bytes_ok (be_split n z).
Proof. apply Forall_rev, le_split_ok. Qed.

Lemma store_ok `{Platform} n z : bytes_ok (store n z).
Proof. unfold store. destruct host_is_big_endian; auto using le_split_ok, be_split_ok. Qed.

Lemma le_combine_range l : bytes_ok l -> 0 <= le_combine l < 2 ^ (8 * Z.of_nat (length l)).
Proof.
  induction 1 as [|b l Hb _ IH]; cbn [le_combine length]; [done|].
  replace (8 * Z.of_nat (S (length l))) with (8 + 8 * Z.of_nat (length l)) by lia.
  rewrite Z.pow_add_r by lia. change (2 ^ 8) with 256. unfold is_byte in Hb. nia.
Qed.

Lemma be_combine_range l : bytes_ok l -> 0 <= be_combine l < 2 ^ (8 * Z.of_nat (length l)).
Proof.
  intros H. unfold be_combine. rewrite <-length_rev.
  apply le_combine_range, Forall_rev, H.
Qed.

Lemma le_combine_split n z : le_combine (le_split n z) = z mod 2 ^ (8 * Z.of_nat n).
Proof.
  revert z. induction n as [|n IH]; intros z; cbn [le_combine le_split].
  - rewrite Z.mod_1_r. done.
  - rewrite IH. replace (8 * Z.of_nat (S n)) with (8 + 8 * Z.of_nat n) by lia.
    rewrite Z.pow_add_r by lia. change (2 ^ 8) with 256.
    rewrite Z.rem_mul_r by lia. done.
Qed.

Lemma le_split_combine l : bytes_ok l -> le_split (length l) (le_combine l) = l.
Proof.
  induction 1 as [|b l Hb _ IH]; [done|]. cbn [length le_split le_combine].
  unfold is_byte in Hb. f_equal.
  - unfold u8. rewrite Z.mul_comm, Z.mod_add by lia. apply Z.mod_small. lia.
  - rewrite Z.mul_comm, Z.div_add by lia. rewrite Z.div_small by lia. apply IH.
Qed.

Lemma be_combine_split n z : be_combine (be_split n z) = z mod 2 ^ (8 * Z.of_nat n).
Proof. unfold be_combine, be_split. rewrite rev_involutive. apply le_combine_split. Qed.

Lemma be_split_combine l : bytes_ok l -> be_split (length l) (be_combine l) = l.
Proof.
  intros Hl. unfold be_combine, be_split. rewrite <-length_rev.
  rewrite le_split_combine by (apply Forall_rev, Hl). apply rev_involutive.
Qed.

Lemma load_read `{Platform} n m m' a a' :
  read m a (Z.of_nat n) = read m' a' (Z.of_nat n) -> load n m a = load n m' a'.
Proof. intros E. unfold load. rewrite E. done. Qed.

Lemma load_range `{Platform} n m a : mem_ok m -> 0 <= load n m a < 2 ^ (8 * Z.of_nat n).
Proof.
  intros Hm. unfold load. pose proof (read_ok m a (Z.of_nat n) Hm) as Hr.
  pose proof (length_read m a (Z.of_nat n)) as Hl. rewrite Nat2Z.id in Hl.
  pose proof (le_combine_range _ Hr) as H1. pose proof (be_combine_range _ Hr) as H2.
  rewrite Hl in H1, H2. destruct host_is_big_endian; done.
Qed.

Lemma load_write_store `{Platform} n z m a :
  load n (write m a (store n z)) a = z mod 2 ^ (8 * Z.of_nat n).
Proof.
  unfold load. rewrite read_write_same by (rewrite length_store; done).
  unfold store. destruct host_is_big_endian; auto using le_combine_split, be_combine_split.
Qed.

Lemma load_of_list_mid `{Platform} n z l1 l3 a : a = Z.of_nat (length l1) ->
  load n (of_list (l1 ++ store n z ++ l3)) a = z mod 2 ^ (8 * Z.of_nat n).
Proof.
  intros E. rewrite <-(load_write_store n z scratch 0). apply load_read.
  rewrite read_of_list_mid, read_write_same by (rewrite ?length_store; done). done.
Qed.

(** ** Fields of a structure laid out in memory *)
Lemma read_field m a n pre mid post o k : read m a n = pre ++ mid ++ post ->
  o = Z.of_nat (length pre) -> k = Z.of_nat (length mid) -> read m (a + o) k = mid.
Proof.
  intros E -> ->. pose proof (f_equal (@length Z) E) as El. rewrite length_read, !length_app in El.
  destruct (Z.leb_spec n 0) as [Hn|Hn].
  { replace (Z.to_nat n) with 0%nat in El by lia. destruct mid; [|cbn in El; lia]. apply read_0. cbn. lia. }
  rewrite (read_split m a n (Z.of_nat (length pre))) in E by lia.
  apply app_inj_1 in E as [_ E]; [|rewrite length_read; lia].
  rewrite (read_split m _ _ (Z.of_nat (length mid))) in E by lia.
  apply app_inj_1 in E as [E _]; [exact E|rewrite length_read; lia].
Qed.

Lemma read_write_field m a n pre old post l o : read m a n = pre ++ old ++ post ->
  o = Z.of_nat (length pre) -> length l = length old -> read (write m (a + o) l) a n = pre ++ l ++ post.
Proof.
  intros E -> Hl. pose proof (f_equal (@length Z) E) as El. rewrite length_read, !length_app in El.
  destruct (Z.leb_spec n 0) as [Hn|Hn].
  { replace (Z.to_nat n) with 0%nat in El by lia. rewrite read_0 by lia.
    destruct pre, old, post; try (cbn in El; lia). destruct l; done. }
  pose proof (read_field m a n [] pre (old ++ post) 0 (Z.of_nat (length pre)) E eq_refl eq_refl) as H1.
  assert (read m a n = (pre ++ old) ++ post ++ []) as E2 by (rewrite app_nil_r, <-app_assoc; exact E).
  pose proof (read_field m a n (pre ++ old) post [] _ _ E2 eq_refl eq_refl) as H2.
  rewrite (read_split _ a n (Z.of_nat (length pre))) by lia. f_equal.
  - rewrite read_write_disj by lia. rewrite Z.add_0_r in H1. exact H1.
  - rewrite (read_split _ _ _ (Z.of_nat (length l))) by lia. f_equal; [apply read_write_same; done|].
    rewrite read_write_disj by lia. rewrite length_app, Nat2Z.inj_add in H2. rewrite <-H2 at 1.
    rewrite Hl. f_equal; lia.
Qed.

Lemma load_field `{Platform} m a n pre k z post o : read m a n = pre ++ store k z ++ post ->
  o = Z.of_nat (length pre) -> load k m (a + o) = z mod 2 ^ (8 * Z.of_nat k).
Proof.
  intros E Ho. rewrite <-(load_write_store k z scratch 0). apply load_read.
  rewrite (read_field m a n pre (store k z) post o (Z.of_nat k) E Ho) by (rewrite length_store; done).
  rewrite read_write_same by (rewrite length_store; done). done.
Qed.

(** Memory cut into pieces of given sizes. *)
Fixpoint pieces (m : mem) (a : Z) (ns : list Z) : list (list Z) :=
  match ns with [] => [] | n :: ns => read m a n :: pieces m (a + n) ns end.

Lemma read_pieces m ns : forall a, List.Forall (fun n => 0 <= n) ns ->
  read m a (fold_right Z.add 0 ns) = concat (pieces m a ns).
Proof.
  induction ns as [|n ns IH]; intros a Hns; cbn [fold_right pieces concat]; [done|].
  apply Forall_cons_iff in Hns as [Hn Hns]. rewrite <-IH by done. apply read_app; [done|].
  clear IH. induction Hns; cbn [fold_right]; lia.
Qed.

(** The same for the list of all the fields. *)
Section fields.
  Variables (m : mem) (a n : Z) (fs : list (list Z)).
  Hypothesis Hfs : read m a n = concat fs.

Lemma fields_split k x : fs !! k = Some x ->
  concat fs = concat (take k fs) ++ x ++ concat (drop (S k) fs).
Proof. intros Hk. rewrite <-(take_drop_middle fs k x Hk) at 1. rewrite concat_app. done. Qed.

Lemma read_fields k x o len : fs !! k = Some x -> o = Z.of_nat (length (concat (take k fs))) ->
  len = Z.of_nat (length x) -> read m (a + o) len = x.
Proof. intros Hk. apply (read_field m a n _ x (concat (drop (S k) fs))). rewrite Hfs. by apply fields_split. Qed.

Lemma load_fields `{Platform} k (w : nat) z o : fs !! k = Some (store w z) ->
  o = Z.of_nat (length (concat (take k fs))) -> load w m (a + o) = z mod 2 ^ (8 * Z.of_nat w).
Proof. intros Hk. apply (load_field m a n _ w z (concat (drop (S k) fs))). rewrite Hfs. by apply fields_split. Qed.

Lemma write_fields k old l o : fs !! k = Some old -> o = Z.of_nat (length (concat (take k fs))) ->
  length l = length old -> read (write m (a + o) l) a n = concat (<[k:=l]> fs).
Proof.
  intros Hk Ho Hl. pose proof (lookup_lt_Some _ _ _ Hk) as Hlt.
  rewrite insert_take_drop, concat_app by done. cbn [concat].
  apply (read_write_field m a n _ old); [|done|done]. rewrite Hfs. by apply fields_split.
Qed.
End fields.

(** A single byte set is a list of one written. *)
Lemma read_set m x b a n : read (set m x b) a n = read (write m x [b]) a n.
Proof.
  apply read_ext. intros i _. unfold set. destruct (Z.eqb_spec (a + i) x) as [->|].
  - rewrite write_in by (cbn; lia). rewrite Z.sub_diag. done.
  - rewrite write_out by (cbn; lia). done.
Qed.

(** Offsets and lengths of fields. *)
Ltac field_length :=
  cbn [take concat app];
  repeat (progress (cbn [length]; rewrite ?length_app, ?length_store, ?length_read, ?repeat_length)); lia.

(** [set_field E k l o E']: from [E], memory that holds a list of fields, [E']:
    the memory after field [k], at offset [o], was overwritten with [l]. *)
Ltac set_field E k l o E' :=
  lazymatch type of E with
  | read ?m ?a ?n = concat ?fs =>
      assert (read (write m (a + o) l) a n = concat (<[k := l]> fs)) as E'
        by (eapply write_fields; [exact E|reflexivity|field_length|field_length]);
      cbn [insert list_insert] in E'
  end.

(** The same after a single byte was set. *)
Ltac set_byte E k b o E' :=
  lazymatch type of E with
  | read ?m ?a ?n = concat ?fs =>
      assert (read (set m (a + o) b) a n = concat (<[k := [b]]> fs)) as E'
        by (rewrite read_set; eapply write_fields; [exact E|reflexivity|field_length|field_length]);
      cbn [insert list_insert] in E'
  end.

Lemma testbit_le_combine l i :
  bytes_ok l -> 0 <= i ->
  Z.testbit (le_combine l) i = Z.testbit (nth (Z.to_nat (i / 8)) l 0) (i mod 8).
Proof.
  intros Hl. revert i. induction Hl as [|b l Hb _ IH]; intros i Hi.
  - cbn [le_combine]. rewrite Z.testbit_0_l. destruct (Z.to_nat (i / 8)); simpl; rewrite Z.testbit_0_l; done.
  - cbn [le_combine]. unfold is_byte in Hb.
    replace (b + 256 * le_combine l) with (b .| (le_combine l << 8))
      by (rewrite lor_shiftl_add by lia; change (2 ^ 8) with 256; lia).
    rewrite Z.lor_spec. destruct (Z.ltb_spec i 8).
    + rewrite Z.shiftl_spec_low, orb_false_r by lia.
      rewrite Z.div_small, Z.mod_small by lia. done.
    + rewrite Z.shiftl_spec_high by lia. rewrite (testbit_high b 8) by lia.
      rewrite orb_false_l, IH by lia.
      replace ((i - 8) mod 8) with (i mod 8) by (rewrite <-(Z.mod_add (i - 8) 1 8) by lia; f_equal; lia).
      replace (i / 8) with ((i - 8) / 8 + 1) by (rewrite <-Z.div_add by lia; f_equal; lia).
      rewrite Z2Nat.inj_add by (try apply Z.div_pos; lia).
      rewrite Nat.add_comm. done.
Qed.

Lemma nth_le_split n k z :
  (k < n)%nat -> nth k (le_split n z) 0 = u8 (z >> (8 * Z.of_nat k)).
Proof.
  revert k z. induction n as [|n IH]; intros k z Hk; [lia|].
  destruct k as [|k]; cbn [nth le_split].
  - rewrite Z.shiftr_0_r. done.
  - rewrite IH by lia. f_equal.
    replace (8 * Z.of_nat (S k)) with (8 + 8 * Z.of_nat k) by lia.
    rewrite <-Z.shiftr_shiftr by lia. f_equal. rewrite Z.shiftr_div_pow2 by lia. done.
Qed.

#[export] Hint Resolve le_split_ok be_split_ok read_ok write_ok set_ok of_list_ok : cjdns.
Create Rewrite HintDb lengths.
#[export] Hint Rewrite length_read length_le_split length_be_split @length_app @length_rev : lengths.
