(* ===== verification/Endian.v ===== *)
(** * Byte order conversion (util/Endian.h)

    The portable byte swaps and the host/network conversions built on them.
    [host_is_big_endian] of the class [Platform] is the program's
    [Endian_isBigEndian()]; the conversions are the identity or a swap
    accordingly. The theorems relate them to the byte orders of [Memory]: a
    value converted to big endian and stored by the host lies in memory in
    network order, whatever the host is. *)
From S2P Require Import Prelude Memory.

(** One step of the swap network: [((x >> r) & mask) | ((x & mask) << r)] in
    words of [w] bits. *)
Definition Endian_rotateAndMask (w mask r x : Z) : Z :=
  ((x >> r) .& mask) .| (((x .& mask) << r) mod 2 ^ w).

Definition Endian_byteSwap16_manual (input : Z) : Z :=
  u16 ((input << 8) .| (input >> 8)).

Definition Endian_byteSwap32_manual (input : Z) : Z :=
  let input := Endian_rotateAndMask 32 0x00FF00FF 8 input in
  Endian_rotateAndMask 32 0x0000FFFF 16 input.

Definition Endian_byteSwap64_manual (input : Z) : Z :=
  let input := Endian_rotateAndMask 64 0x00FF00FF00FF00FF 8 input in
  let input := Endian_rotateAndMask 64 0x0000FFFF0000FFFF 16 input in
  Endian_rotateAndMask 64 0x00000000FFFFFFFF 32 input.

Definition Endian_byteSwap16 (x : Z) : Z := u16 (Endian_byteSwap16_manual (u16 x)).
Definition Endian_byteSwap32 (x : Z) : Z := u32 (Endian_byteSwap32_manual (u32 x)).
Definition Endian_byteSwap64 (x : Z) : Z := u64 (Endian_byteSwap64_manual (u64 x)).

Section conversions.
  Context {P : Platform}.

Definition Endian_hostToBigEndian16 (x : Z) : Z :=
  if host_is_big_endian then x else Endian_byteSwap16 x.
Definition Endian_hostToBigEndian32 (x : Z) : Z :=
  if host_is_big_endian then x else Endian_byteSwap32 x.
Definition Endian_hostToBigEndian64 (x : Z) : Z :=
  if host_is_big_endian then x else Endian_byteSwap64 x.
Definition Endian_hostToLittleEndian16 (x : Z) : Z :=
  if host_is_big_endian then Endian_byteSwap16 x else x.
Definition Endian_hostToLittleEndian32 (x : Z) : Z :=
  if host_is_big_endian then Endian_byteSwap32 x else x.
Definition Endian_hostToLittleEndian64 (x : Z) : Z :=
  if host_is_big_endian then Endian_byteSwap64 x else x.

Definition Endian_bigEndianToHost16 (x : Z) : Z := Endian_hostToBigEndian16 x.
Definition Endian_bigEndianToHost32 (x : Z) : Z := Endian_hostToBigEndian32 x.
Definition Endian_bigEndianToHost64 (x : Z) : Z := Endian_hostToBigEndian64 x.
Definition Endian_littleEndianToHost32 (x : Z) : Z := Endian_hostToLittleEndian32 x.
End conversions.

(** ** The swap network *)

(** [mask] selects, of each pair of blocks of [r] bits, the lower one. *)
Definition mask_check (w : nat) (mask r : Z) : bool :=
  forall_below w (fun i =>
    (Z.lxor i r <? Z.of_nat w) &&
    (if Z.land i r =? 0
     then (Z.lxor i r =? i + r) && Z.testbit mask i && ((i <? r) || negb (Z.testbit mask (i - r)))
     else (Z.lxor i r =? i - r) && negb (Z.testbit mask i) && Z.testbit mask (i - r))).

Lemma rotateAndMask_bit (w : nat) mask r x i :
  mask_check w mask r = true -> 0 <= r -> 0 <= i < Z.of_nat w ->
  Z.testbit (Endian_rotateAndMask (Z.of_nat w) mask r x) i = Z.testbit x (Z.lxor i r).
Proof.
  intros Hc Hr Hi. pose proof (forall_below_spec _ _ Hc i Hi) as H. cbv beta in H.
  unfold Endian_rotateAndMask.
  rewrite Z.lor_spec, Z.land_spec, Z.shiftr_spec, testbit_mod by lia.
  replace (i <? Z.of_nat w) with true by (symmetry; apply Z.ltb_lt; lia).
  rewrite andb_true_l. apply andb_prop in H as [_ H].
  destruct (Z.land i r =? 0).
  - apply andb_prop in H as [[H1 H2]%andb_prop H3]. apply Z.eqb_eq in H1. rewrite H1, H2, andb_true_r.
    apply orb_prop in H3 as [H3%Z.ltb_lt|H3%negb_true_iff].
    + rewrite Z.shiftl_spec_low by lia. apply orb_false_r.
    + rewrite Z.shiftl_spec, Z.land_spec, H3, andb_false_r by lia. apply orb_false_r.
  - apply andb_prop in H as [[H1 H2%negb_true_iff]%andb_prop H3]. apply Z.eqb_eq in H1.
    rewrite H1, H2, andb_false_r, orb_false_l.
    rewrite Z.shiftl_spec, Z.land_spec, H3 by lia. apply andb_true_r.
Qed.

Lemma rotateAndMask_range (w mask r x : Z) :
  0 <= w -> 0 <= mask < 2 ^ w -> 0 <= Endian_rotateAndMask w mask r x < 2 ^ w.
Proof.
  intros Hw Hm. apply lor_range; [done| |].
  - rewrite Z.land_comm. apply land_range_l, Hm.
  - apply Z.mod_pos_bound. lia.
Qed.

Lemma mask_lxor_range (w : nat) mask r i :
  mask_check w mask r = true -> 0 <= r -> 0 <= i < Z.of_nat w -> 0 <= Z.lxor i r < Z.of_nat w.
Proof.
  intros Hc Hr Hi. pose proof (forall_below_spec _ _ Hc i Hi) as H. cbv beta in H.
  apply andb_prop in H as [H _]. apply Z.ltb_lt in H. split; [|done].
  apply Z.lxor_nonneg. lia.
Qed.

(** A sequence of swaps, first to last. *)
Definition swap_network (w : Z) (steps : list (Z * Z)) (x : Z) : Z :=
  fold_left (fun x '(mask, r) => Endian_rotateAndMask w mask r x) steps x.

Lemma swap_network_bit (w : nat) steps x i :
  forallb (fun '(mask, r) => mask_check w mask r && (0 <=? r)) steps = true ->
  0 <= i < Z.of_nat w ->
  Z.testbit (swap_network (Z.of_nat w) steps x) i
  = Z.testbit x (Z.lxor i (fold_right (fun s acc => Z.lxor (snd s) acc) 0 steps)).
Proof.
  intros Hc. revert x i. induction steps as [|[mask r] steps IH] using rev_ind; intros x i Hi.
  - simpl. rewrite Z.lxor_0_r. done.
  - rewrite forallb_app in Hc. apply andb_prop in Hc as [Hs Hc]. simpl in Hc.
    rewrite andb_true_r in Hc. apply andb_prop in Hc as [Hc Hr%Z.leb_le].
    unfold swap_network. rewrite fold_left_app. cbn [fold_left].
    rewrite rotateAndMask_bit by done.
    fold (swap_network (Z.of_nat w) steps x). rewrite IH by eauto using mask_lxor_range.
    f_equal. rewrite fold_right_app. cbn [fold_right snd]. rewrite Z.lxor_0_r.
    clear. revert i r. induction steps as [|[m s] steps IH]; intros i r; cbn [fold_right snd].
    + rewrite Z.lxor_0_r. done.
    + rewrite <-Z.lxor_assoc, (Z.lxor_comm (Z.lxor i r)), <-Z.lxor_assoc.
      rewrite (Z.lxor_comm s i). rewrite IH. rewrite !Z.lxor_assoc. done.
Qed.

Definition steps32 := [(0x00FF00FF, 8); (0x0000FFFF, 16)].
Definition steps64 := [(0x00FF00FF00FF00FF, 8); (0x0000FFFF0000FFFF, 16); (0x00000000FFFFFFFF, 32)].

Lemma byteSwap32_bit x i :
  0 <= i < 32 -> Z.testbit (Endian_byteSwap32_manual x) i = Z.testbit x (Z.lxor i 24).
Proof. apply (swap_network_bit 32 steps32). vm_compute. done. Qed.

Lemma byteSwap64_bit x i :
  0 <= i < 64 -> Z.testbit (Endian_byteSwap64_manual x) i = Z.testbit x (Z.lxor i 56).
Proof. apply (swap_network_bit 64 steps64). vm_compute. done. Qed.

(** Flipping the byte index: [i lxor 8*(n-1)] for [n] a power of two. *)
Lemma be_combine_bit (n : nat) (k : Z) l i :
  forall_below (8 * n) (fun i =>
    (Z.lxor i k / 8 =? Z.of_nat n - 1 - i / 8) && (Z.lxor i k mod 8 =? i mod 8)
    && (0 <=? Z.lxor i k)) = true ->
  bytes_ok l -> length l = n -> 0 <= i < Z.of_nat (8 * n) ->
  Z.testbit (be_combine l) i = Z.testbit (le_combine l) (Z.lxor i k).
Proof.
  intros Hc Hl Hn Hi. pose proof (forall_below_spec _ _ Hc i Hi) as H. cbv beta in H.
  apply andb_prop in H as [[H1%Z.eqb_eq H2%Z.eqb_eq]%andb_prop H3%Z.leb_le].
  unfold be_combine. rewrite !testbit_le_combine by (try apply Forall_rev; lia || done).
  rewrite H1, H2. rewrite rev_nth.
  - do 2 f_equal. pose proof (Z.div_pos i 8). pose proof (Z.div_lt_upper_bound i 8 (Z.of_nat n)). lia.
  - rewrite Hn. pose proof (Z.div_lt_upper_bound i 8 (Z.of_nat n)). pose proof (Z.div_pos i 8). lia.
Qed.

Lemma be_combine_swap32 l :
  bytes_ok l -> length l = 4%nat -> be_combine l = Endian_byteSwap32 (le_combine l).
Proof.
  intros Hl Hn. pose proof (le_combine_range l Hl) as Hle. pose proof (be_combine_range l Hl) as Hbe.
  rewrite Hn in Hle, Hbe. change (2 ^ (8 * Z.of_nat 4)) with (2 ^ 32) in *.
  unfold Endian_byteSwap32. rewrite (u32_small (le_combine l)) by done.
  rewrite u32_small by (apply rotateAndMask_range; lia).
  apply (bits_inj_bounded 32); [done|apply rotateAndMask_range; lia|].
  intros i Hi. rewrite byteSwap32_bit by done.
  apply (be_combine_bit 4); [vm_compute; done|done|done|lia].
Qed.

Lemma be_combine_swap64 l :
  bytes_ok l -> length l = 8%nat -> be_combine l = Endian_byteSwap64 (le_combine l).
Proof.
  intros Hl Hn. pose proof (le_combine_range l Hl) as Hle. pose proof (be_combine_range l Hl) as Hbe.
  rewrite Hn in Hle, Hbe. change (2 ^ (8 * Z.of_nat 8)) with (2 ^ 64) in *.
  unfold Endian_byteSwap64. rewrite (u64_small (le_combine l)) by done.
  rewrite u64_small by (apply rotateAndMask_range; lia).
  apply (bits_inj_bounded 64); [done|apply rotateAndMask_range; lia|].
  intros i Hi. rewrite byteSwap64_bit by done.
  apply (be_combine_bit 8); [vm_compute; done|done|done|lia].
Qed.

Lemma be_combine_swap16 l :
  bytes_ok l -> length l = 2%nat -> be_combine l = Endian_byteSwap16 (le_combine l).
Proof.
  intros Hl Hn. destruct l as [|a [|b [|]]]; try discriminate.
  inversion Hl as [|? ? Ha Hl']; subst. inversion Hl' as [|? ? Hb _]; subst. unfold is_byte in *.
  unfold Endian_byteSwap16, Endian_byteSwap16_manual, be_combine. cbn [rev app le_combine].
  rewrite (u16_small (a + _)) by lia.
  replace (u16 (u16 _)) with (b + 256 * a); [lia|].
  rewrite (u16_small (u16 _)) by apply u16_range. unfold u16.
  rewrite <-Z.land_ones, Z.land_lor_distr_l by lia. rewrite !Z.land_ones by lia.
  rewrite Z.shiftl_mul_pow2, Z.shiftr_div_pow2 by lia. change (2 ^ 8) with 256.
  replace ((a + 256 * (b + 256 * 0)) / 256) with b
    by (rewrite Z.mul_comm, Z.div_add, Z.div_small; lia).
  replace ((a + 256 * (b + 256 * 0)) * 256) with (256 * a + b * 2 ^ 16) by lia.
  rewrite Z.mod_add, !Z.mod_small by lia.
  replace (256 * a) with (a << 8) by (rewrite Z.shiftl_mul_pow2 by lia; lia).
  rewrite Z.lor_comm, lor_shiftl_add, Z.shiftl_mul_pow2 by lia. lia.
Qed.

(** ** Loading and storing in network order *)
Section network_order.
  Context {P : Platform}.

Lemma be_load32 m a : mem_ok m ->
  Endian_bigEndianToHost32 (load 4 m a) = be_combine (read m a 4).
Proof.
  intros Hm. unfold Endian_bigEndianToHost32, Endian_hostToBigEndian32, load.
  destruct host_is_big_endian; [done|]. symmetry.
  apply be_combine_swap32; [apply read_ok, Hm|apply length_read].
Qed.

Lemma be_load64 m a : mem_ok m ->
  Endian_bigEndianToHost64 (load 8 m a) = be_combine (read m a 8).
Proof.
  intros Hm. unfold Endian_bigEndianToHost64, Endian_hostToBigEndian64, load.
  destruct host_is_big_endian; [done|]. symmetry.
  apply be_combine_swap64; [apply read_ok, Hm|apply length_read].
Qed.

Lemma be_load16 m a : mem_ok m ->
  Endian_bigEndianToHost16 (load 2 m a) = be_combine (read m a 2).
Proof.
  intros Hm. unfold Endian_bigEndianToHost16, Endian_hostToBigEndian16, load.
  destruct host_is_big_endian; [done|]. symmetry.
  apply be_combine_swap16; [apply read_ok, Hm|apply length_read].
Qed.

Lemma le_split_rev_swap (n : nat) swap z :
  (forall l, bytes_ok l -> length l = n -> be_combine l = swap (le_combine l)) ->
  0 <= z < 2 ^ (8 * Z.of_nat n) ->
  le_split n (swap z) = be_split n z.
Proof.
  intros Hs Hz. pose proof (le_split_ok n z) as Hok.
  assert (le_combine (le_split n z) = z) as E by (rewrite le_combine_split, Z.mod_small; done).
  rewrite <-E at 1. rewrite <-Hs by (done || apply length_le_split).
  unfold be_combine, be_split.
  rewrite <-(length_le_split n z) at 1. rewrite <-length_rev.
  apply le_split_combine, Forall_rev, Hok.
Qed.

Lemma store_be32 z : 0 <= z < 2 ^ 32 -> store 4 (Endian_hostToBigEndian32 z) = be_split 4 z.
Proof.
  intros Hz. unfold Endian_hostToBigEndian32, store. destruct host_is_big_endian; [done|].
  apply (le_split_rev_swap 4); [apply be_combine_swap32|done].
Qed.

Lemma store_be64 z : 0 <= z < 2 ^ 64 -> store 8 (Endian_hostToBigEndian64 z) = be_split 8 z.
Proof.
  intros Hz. unfold Endian_hostToBigEndian64, store. destruct host_is_big_endian; [done|].
  apply (le_split_rev_swap 8); [apply be_combine_swap64|done].
Qed.

Lemma store_be16 z : 0 <= z < 2 ^ 16 -> store 2 (Endian_hostToBigEndian16 z) = be_split 2 z.
Proof.
  intros Hz. unfold Endian_hostToBigEndian16, store. destruct host_is_big_endian; [done|].
  apply (le_split_rev_swap 2); [apply be_combine_swap16|done].
Qed.

(** The conversions are their own inverses. *)
Lemma byteSwap_involutive n swap z :
  (forall l, bytes_ok l -> length l = n -> be_combine l = swap (le_combine l)) ->
  0 <= z < 2 ^ (8 * Z.of_nat n) -> swap (swap z) = z.
Proof.
  intros Hs Hz.
  assert (forall y, 0 <= y < 2 ^ (8 * Z.of_nat n) -> swap y = le_combine (be_split n y)) as Hy.
  { intros y Hy. assert (le_combine (le_split n y) = y) as E
      by (rewrite le_combine_split, Z.mod_small; done).
    rewrite <-E at 1. rewrite <-Hs by (auto using le_split_ok, length_le_split). done. }
  rewrite (Hy (swap z)).
  - unfold be_split. rewrite (le_split_rev_swap n swap) by done.
    unfold be_split. rewrite rev_involutive, le_combine_split, Z.mod_small; done.
  - rewrite (Hy z Hz). pose proof (le_combine_range (be_split n z) (be_split_ok n z)) as H.
    rewrite length_be_split in H. done.
Qed.

Lemma bigEndianToHost32_host z : 0 <= z < 2 ^ 32 ->
  Endian_bigEndianToHost32 (Endian_hostToBigEndian32 z) = z.
Proof.
  intros Hz. unfold Endian_bigEndianToHost32, Endian_hostToBigEndian32.
  destruct host_is_big_endian; [done|]. apply (byteSwap_involutive 4); [apply be_combine_swap32|done].
Qed.

Lemma bigEndianToHost64_host z : 0 <= z < 2 ^ 64 ->
  Endian_bigEndianToHost64 (Endian_hostToBigEndian64 z) = z.
Proof.
  intros Hz. unfold Endian_bigEndianToHost64, Endian_hostToBigEndian64.
  destruct host_is_big_endian; [done|]. apply (byteSwap_involutive 8); [apply be_combine_swap64|done].
Qed.

Lemma bigEndianToHost16_host z : 0 <= z < 2 ^ 16 ->
  Endian_bigEndianToHost16 (Endian_hostToBigEndian16 z) = z.
Proof.
  intros Hz. unfold Endian_bigEndianToHost16, Endian_hostToBigEndian16.
  destruct host_is_big_endian; [done|]. apply (byteSwap_involutive 2); [apply be_combine_swap16|done].
Qed.

Lemma hostToBigEndian32_range z : 0 <= z < 2 ^ 32 -> 0 <= Endian_hostToBigEndian32 z < 2 ^ 32.
Proof. intros Hz. unfold Endian_hostToBigEndian32. destruct host_is_big_endian; [done|apply u32_range]. Qed.
Lemma hostToBigEndian64_range z : 0 <= z < 2 ^ 64 -> 0 <= Endian_hostToBigEndian64 z < 2 ^ 64.
Proof. intros Hz. unfold Endian_hostToBigEndian64. destruct host_is_big_endian; [done|apply u64_range]. Qed.
Lemma hostToBigEndian16_range z : 0 <= z < 2 ^ 16 -> 0 <= Endian_hostToBigEndian16 z < 2 ^ 16.
Proof. intros Hz. unfold Endian_hostToBigEndian16. destruct host_is_big_endian; [done|apply u16_range]. Qed.
(** A conversion permutes bits, so it commutes with the bitwise operators. *)
Lemma byteSwap16_bit x i : 0 <= i < 16 -> Z.testbit (Endian_byteSwap16 x) i = Z.testbit x (Z.lxor i 8).
Proof.
  intros Hi. unfold Endian_byteSwap16, Endian_byteSwap16_manual, u16.
  rewrite !testbit_mod, Z.lor_spec, Z.shiftr_spec by lia.
  assert (Z.lxor i 8 = if i <? 8 then i + 8 else i - 8) as ->.
  { apply Z.eqb_eq. apply (forall_below_spec 16 (fun i => Z.lxor i 8 =? if i <? 8 then i + 8 else i - 8));
      [vm_compute; done|lia]. }
  replace (i <? 16) with true by (symmetry; apply Z.ltb_lt; lia). cbn [andb].
  destruct (Z.ltb_spec i 8).
  - rewrite Z.shiftl_spec_low, testbit_mod by lia.
    replace (i + 8 <? 16) with true by (symmetry; apply Z.ltb_lt; lia). done.
  - rewrite Z.shiftl_spec, !testbit_mod by lia.
    replace (i - 8 <? 16) with true by (symmetry; apply Z.ltb_lt; lia).
    replace (i + 8 <? 16) with false by (symmetry; apply Z.ltb_ge; lia). apply orb_false_r.
Qed.

Definition swap16_index : Z := if host_is_big_endian then 0 else 8.

Lemma swap16_index_range i : 0 <= i < 16 -> 0 <= Z.lxor i swap16_index < 16.
Proof.
  intros Hi. unfold swap16_index. destruct host_is_big_endian; [rewrite Z.lxor_0_r; lia|].
  assert (in16 : (0 <=? Z.lxor i 8) && (Z.lxor i 8 <? 16) = true).
  { apply (forall_below_spec 16 (fun i => (0 <=? Z.lxor i 8) && (Z.lxor i 8 <? 16))); [vm_compute; done|lia]. }
  apply andb_prop in in16 as [H1%Z.leb_le H2%Z.ltb_lt]. lia.
Qed.

Lemma hostToBigEndian16_bit x i : 0 <= i < 16 ->
  Z.testbit (Endian_hostToBigEndian16 x) i = Z.testbit x (Z.lxor i swap16_index).
Proof.
  intros Hi. unfold Endian_hostToBigEndian16, swap16_index.
  destruct host_is_big_endian; [rewrite Z.lxor_0_r; done|apply byteSwap16_bit, Hi].
Qed.

Lemma hostToBigEndian16_land x y : 0 <= x < 2 ^ 16 -> 0 <= y < 2 ^ 16 ->
  Endian_hostToBigEndian16 (x .& y) = Endian_hostToBigEndian16 x .& Endian_hostToBigEndian16 y.
Proof.
  intros Hx Hy. apply (bits_inj_bounded 16).
  - apply hostToBigEndian16_range, land_range_l, Hx.
  - apply land_range_l, hostToBigEndian16_range, Hx.
  - intros i Hi. rewrite Z.land_spec, !hostToBigEndian16_bit, Z.land_spec by lia. done.
Qed.

Lemma hostToBigEndian16_lor x y : 0 <= x < 2 ^ 16 -> 0 <= y < 2 ^ 16 ->
  Endian_hostToBigEndian16 (x .| y) = Endian_hostToBigEndian16 x .| Endian_hostToBigEndian16 y.
Proof.
  intros Hx Hy. apply (bits_inj_bounded 16).
  - apply hostToBigEndian16_range, lor_range; lia.
  - apply lor_range; [lia| |]; apply hostToBigEndian16_range; done.
  - intros i Hi. rewrite Z.lor_spec, !hostToBigEndian16_bit, Z.lor_spec by lia. done.
Qed.

Lemma hostToBigEndian64_bit x i : 0 <= i < 64 ->
  Z.testbit (Endian_hostToBigEndian64 x) i = Z.testbit x (Z.lxor i (if host_is_big_endian then 0 else 56)).
Proof.
  intros Hi. unfold Endian_hostToBigEndian64, Endian_byteSwap64.
  destruct host_is_big_endian; [rewrite Z.lxor_0_r; done|].
  unfold u64. rewrite testbit_mod, byteSwap64_bit, testbit_mod by lia.
  replace (i <? 64) with true by (symmetry; apply Z.ltb_lt; lia).
  assert ((Z.lxor i 56 <? 64) = true) as ->; [|done].
  apply (forall_below_spec 64 (fun i => Z.lxor i 56 <? 64)); [vm_compute; done|lia].
Qed.
End network_order.

#[export] Hint Resolve hostToBigEndian16_range hostToBigEndian32_range hostToBigEndian64_range : cjdns.
