(* ===== verification/Bits.v ===== *)
(** * Bit and byte utilities (util/Bits.h)

    Base-2 logarithm, bit reversal of a 64-bit label, zero test, comparison and
    search in byte buffers, with their functional specifications. *)
From S2P Require Import Prelude Memory Endian.

(** [while (number >>= 1) out++]; a 64-bit number leaves the loop within 64
    rounds. *)
Fixpoint Bits_log2x64_loop (fuel : nat) (number out : Z) : Z :=
  match fuel with
  | O => out
  | S fuel' =>
      let number := number >> 1 in
      if number =? 0 then out else Bits_log2x64_loop fuel' number (out + 1)
  end.

Definition Bits_log2x64 (number : Z) : Z := Bits_log2x64_loop 64 number 0.

Definition Bits_log2x64_be `{Platform} (number : Z) : Z :=
  Bits_log2x64 (Endian_bigEndianToHost64 number).

Definition Bits_rotateAndMask (mask rotateBits toReverse : Z) : Z :=
  ((toReverse >> rotateBits) .& mask) .| u64 ((toReverse .& mask) << rotateBits).

Definition Bits_bitReverse64 (toReverse : Z) : Z :=
  let toReverse := Bits_rotateAndMask 0x5555555555555555 1 toReverse in
  let toReverse := Bits_rotateAndMask 0x3333333333333333 2 toReverse in
  let toReverse := Bits_rotateAndMask 0x0F0F0F0F0F0F0F0F 4 toReverse in
  let toReverse := Bits_rotateAndMask 0x00FF00FF00FF00FF 8 toReverse in
  let toReverse := Bits_rotateAndMask 0x0000FFFF0000FFFF 16 toReverse in
  Bits_rotateAndMask 0x00000000FFFFFFFF 32 toReverse.

(** The loop over [length] bytes from address [a] with its early return. *)
Fixpoint Bits_isZero_loop (n : nat) (m : mem) (a : Z) : bool :=
  match n with
  | O => true
  | S n' => if negb (m a =? 0) then false else Bits_isZero_loop n' m (a + 1)
  end.

Definition Bits_isZero (m : mem) (a length : Z) : bool :=
  Bits_isZero_loop (Z.to_nat length) m a.

Definition Bits_memset (m : mem) (location byte count : Z) : mem :=
  write m location (repeat (u8 byte) (Z.to_nat count)).

(** Copy within one buffer or between two; [memmove] reads before it writes. *)
Definition Bits_memmove (dest : mem) (a : Z) (src : mem) (b length : Z) : mem :=
  write dest a (read src b length).

(** [memcmp] of two byte sequences of the same length: the sign of the first
    difference. *)
Fixpoint Bits_memcmp (l1 l2 : list Z) : Z :=
  match l1, l2 with
  | a :: l1', b :: l2' => if a =? b then Bits_memcmp l1' l2' else a - b
  | _, _ => 0
  end.

(** The search of [Bits_memmem] from [haystackC] on, [n] candidates left. *)
Fixpoint Bits_memmem_loop (n : nat) (haystack : mem) (haystackC : Z) (needle : mem) (needleLen : Z)
    : option Z :=
  match n with
  | O => None
  | S n' =>
      if (haystack haystackC =? needle 0)
         && (Bits_memcmp (read haystack haystackC needleLen) (read needle 0 needleLen) =? 0)
      then Some haystackC
      else Bits_memmem_loop n' haystack (haystackC + 1) needle needleLen
  end.

(** Both buffers are non-null; the result is an offset in the haystack. *)
Definition Bits_memmem (haystack needle : mem) (haystackLen needleLen : Z) : option Z :=
  if (haystackLen =? 0) || (needleLen =? 0) then None
  else Bits_memmem_loop (Z.to_nat (haystackLen - needleLen + 1)) haystack 0 needle needleLen.

(** ** Logarithm *)
Lemma log2_loop_spec fuel n out :
  0 <= n < 2 ^ Z.of_nat fuel -> Bits_log2x64_loop fuel n out = out + Z.log2 n.
Proof.
  revert n out. induction fuel as [|fuel IH]; intros n out Hn.
  - assert (n = 0) as -> by (simpl in Hn; lia). simpl. lia.
  - cbn [Bits_log2x64_loop]. cbv zeta.
    replace (Z.of_nat (S fuel)) with (Z.of_nat fuel + 1) in Hn by lia.
    pose proof (shiftr_range n 1 (Z.of_nat fuel)) as Hr.
    destruct (Z.eqb_spec (n >> 1) 0) as [E|E].
    + rewrite Z.shiftr_div_pow2 in E by lia. change (2 ^ 1) with 2 in E.
      assert (n = 0 \/ n = 1) as [-> | ->] by (pose proof (Z.div_mod n 2); pose proof (Z.mod_pos_bound n 2); lia);
        simpl; lia.
    + rewrite IH by (apply Hr; lia).
      assert (n <> 0) by (intros ->; done).
      rewrite Z.log2_shiftr by lia.
      rewrite Z.shiftr_div_pow2 in E by lia. change (2 ^ 1) with 2 in E.
      assert (2 <= n) by (destruct (decide (n = 1)) as [->|]; [done|lia]).
      pose proof (Z.log2_le_mono 2 n). change (Z.log2 2) with 1 in *. lia.
Qed.

Lemma log2x64_spec n : 0 <= n < 2 ^ 64 -> Bits_log2x64 n = Z.log2 n.
Proof. intros Hn. unfold Bits_log2x64. rewrite log2_loop_spec; done. Qed.

Lemma log2x64_range n : 0 <= n < 2 ^ 64 -> 0 <= Bits_log2x64 n < 64.
Proof.
  intros Hn. rewrite log2x64_spec by done. split; [apply Z.log2_nonneg|].
  destruct (decide (n = 0)) as [->|]; [done|]. apply Z.log2_lt_pow2; lia.
Qed.

(** The position of the highest bit of [n > 0]. *)
Lemma log2x64_bounds n : 0 < n < 2 ^ 64 -> 2 ^ Bits_log2x64 n <= n < 2 ^ (Bits_log2x64 n + 1).
Proof. intros Hn. rewrite log2x64_spec by lia. apply Z.log2_spec. lia. Qed.

(** ** Reversal *)
Definition reverse_steps : list (Z * Z) :=
  [(0x5555555555555555, 1); (0x3333333333333333, 2); (0x0F0F0F0F0F0F0F0F, 4);
   (0x00FF00FF00FF00FF, 8); (0x0000FFFF0000FFFF, 16); (0x00000000FFFFFFFF, 32)].

Lemma bitReverse64_range x : 0 <= Bits_bitReverse64 x < 2 ^ 64.
Proof. apply (rotateAndMask_range 64); lia. Qed.

Lemma bitReverse64_bit x i :
  0 <= i < 64 -> Z.testbit (Bits_bitReverse64 x) i = Z.testbit x (63 - i).
Proof.
  intros Hi. transitivity (Z.testbit (swap_network 64 reverse_steps x) i); [done|].
  rewrite (swap_network_bit 64) by (vm_compute; done || lia).
  f_equal. apply Z.eqb_eq.
  apply (forall_below_spec 64 (fun i => Z.lxor i (fold_right (fun s acc => Z.lxor (snd s) acc) 0 reverse_steps) =? 63 - i));
    [vm_compute; done|lia].
Qed.

Lemma bitReverse64_twice x : 0 <= x < 2 ^ 64 -> Bits_bitReverse64 (Bits_bitReverse64 x) = x.
Proof.
  intros Hx. apply (bits_inj_bounded 64); [apply bitReverse64_range|done|].
  intros i Hi. rewrite !bitReverse64_bit by lia. f_equal. lia.
Qed.

(** Reversal turns a shift towards the low end into one towards the high end. *)
Lemma bitReverse64_shiftr x k :
  0 <= x < 2 ^ 64 -> 0 <= k <= 64 -> Bits_bitReverse64 (x >> k) = u64 (Bits_bitReverse64 x << k).
Proof.
  intros Hx Hk. apply (bits_inj_bounded 64); [apply bitReverse64_range|apply u64_range|].
  intros i Hi. rewrite bitReverse64_bit by done. unfold u64. rewrite testbit_mod by lia.
  replace (i <? 64) with true by (symmetry; apply Z.ltb_lt; lia). rewrite andb_true_l.
  rewrite Z.shiftr_spec, Z.shiftl_spec by lia.
  destruct (decide (i < k)).
  - rewrite (Z.testbit_neg_r _ (i - k)) by lia. apply (testbit_high _ 64); lia.
  - rewrite bitReverse64_bit by lia. f_equal. lia.
Qed.

Lemma bitReverse64_lor x y :
  Bits_bitReverse64 (x .| y) = Bits_bitReverse64 x .| Bits_bitReverse64 y.
Proof.
  apply (bits_inj_bounded 64); [apply bitReverse64_range|apply lor_range; try apply bitReverse64_range; lia|].
  intros i Hi. rewrite Z.lor_spec, !bitReverse64_bit, Z.lor_spec by lia. done.
Qed.

(** Reversing the bits of a label in network order is reversing the label. *)
Lemma bitReverse64_hostToBigEndian `{Platform} x : 0 <= x < 2 ^ 64 ->
  Bits_bitReverse64 (Endian_hostToBigEndian64 x) = Endian_hostToBigEndian64 (Bits_bitReverse64 x).
Proof.
  intros Hx. apply (bits_inj_bounded 64);
    [apply bitReverse64_range|apply hostToBigEndian64_range, bitReverse64_range|].
  intros i Hi. rewrite bitReverse64_bit, !hostToBigEndian64_bit by lia.
  set (k := if host_is_big_endian then 0 else 56).
  assert (forall_below 64 (fun i => let j := Z.lxor i k in
    (0 <=? j) && (j <? 64) && (Z.lxor (63 - i) k =? 63 - j)) = true) as Hc
    by (unfold k; destruct host_is_big_endian; vm_compute; done).
  pose proof (forall_below_spec 64 _ Hc i ltac:(lia)) as Hj. cbv beta zeta in Hj.
  rewrite !andb_true_iff, Z.leb_le, Z.ltb_lt, Z.eqb_eq in Hj. destruct Hj as [Hj ->].
  rewrite bitReverse64_bit by lia. done.
Qed.

(** ** Buffers *)
Lemma isZero_spec m a n :
  Bits_isZero m a n = true <-> read m a n = repeat 0 (Z.to_nat n).
Proof.
  unfold Bits_isZero. destruct (Z.leb_spec n 0) as [Hn|Hn].
  { rewrite read_0 by lia. replace (Z.to_nat n) with 0%nat by lia. done. }
  replace n with (Z.of_nat (Z.to_nat n)) at 2 by lia.
  generalize (Z.to_nat n) as k. clear. intros k. revert a.
  induction k as [|k IH]; intros a; [done|].
  rewrite read_cons by lia. cbn [Bits_isZero_loop repeat].
  replace (Z.of_nat (S k) - 1) with (Z.of_nat k) by lia.
  destruct (Z.eqb_spec (m a) 0) as [E|E]; simpl.
  - rewrite IH, E. split; [intros ->; done|]. intros [= H]. done.
  - split; [done|]. intros [= H _]. done.
Qed.

Lemma memcmp_0 l1 l2 : length l1 = length l2 -> (Bits_memcmp l1 l2 = 0 <-> l1 = l2).
Proof.
  revert l2. induction l1 as [|a l1 IH]; intros [|b l2] Hlen; simpl in *; try done.
  destruct (Z.eqb_spec a b) as [->|Hne].
  - rewrite IH by lia. split; [intros ->; done|]. intros [= ->]. done.
  - split; [lia|]. intros [= -> ]. done.
Qed.

Lemma memmem_loop_spec n hay a ndl k :
  0 < k ->
  match Bits_memmem_loop n hay a ndl k with
  | Some p => a <= p < a + Z.of_nat n /\ read hay p k = read ndl 0 k
              /\ forall q, a <= q < p -> read hay q k <> read ndl 0 k
  | None => forall q, a <= q < a + Z.of_nat n -> read hay q k <> read ndl 0 k
  end.
Proof.
  intros Hk. revert a. induction n as [|n IH]; intros a; cbn [Bits_memmem_loop].
  { intros q Hq. lia. }
  pose proof (memcmp_0 (read hay a k) (read ndl 0 k)) as Hc. rewrite !length_read in Hc.
  specialize (Hc eq_refl).
  destruct ((hay a =? ndl 0) && _) eqn:E.
  - apply andb_prop in E as [_ E%Z.eqb_eq]. split; [lia|]. split; [tauto|]. intros q Hq. lia.
  - assert (read hay a k <> read ndl 0 k) as Hne.
    { intros Heq. apply andb_false_iff in E as [E|E%Z.eqb_neq]; [|tauto].
      rewrite (read_cons hay a), (read_cons ndl 0) in Heq by lia. injection Heq as Heq _.
      apply Z.eqb_neq in E. done. }
    specialize (IH (a + 1)). destruct (Bits_memmem_loop n hay (a + 1) ndl k) as [p|].
    + destruct IH as (Hp & Heq & Hmin). split; [lia|]. split; [done|].
      intros q Hq. destruct (decide (q = a)) as [->|]; [done|]. apply Hmin. lia.
    + intros q Hq. destruct (decide (q = a)) as [->|]; [done|]. apply IH. lia.
Qed.

#[export] Hint Resolve bitReverse64_range : cjdns.
