(* ===== verification/Hex.v ===== *)
(** * Hexadecimal encoding (util/Hex.c, util/Hex.h)

    Encoding and decoding between byte buffers, with the return codes of the
    program. The round trip is proved for every buffer; the decoder's check for
    an odd number of digits never fires, which is stated exactly. *)
From S2P Require Import Prelude Memory.

Definition Hex_BAD_INPUT : Z := -1.
Definition Hex_TOO_BIG : Z := -2.

Definition Hex_numForAscii : list Z :=
  [99;99;99;99;99;99;99;99;99;99;99;99;99;99;99;99;
   99;99;99;99;99;99;99;99;99;99;99;99;99;99;99;99;
   99;99;99;99;99;99;99;99;99;99;99;99;99;99;99;99;
    0; 1; 2; 3; 4; 5; 6; 7; 8; 9;99;99;99;99;99;99;
   99;10;11;12;13;14;15;99;99;99;99;99;99;99;99;99;
   99;99;99;99;99;99;99;99;99;99;99;99;99;99;99;99;
   99;10;11;12;13;14;15;99;99;99;99;99;99;99;99;99;
   99;99;99;99;99;99;99;99;99;99;99;99;99;99;99;99].

Definition hexEntities : list Z := chars "0123456789abcdef".

Definition hex_digit (d : Z) : Z := nth (Z.to_nat d) hexEntities 0.

(** The output buffer after the call, and the return value. *)
Definition Hex_encode (output : mem) (outputLength : Z) (input : mem) (inputLength : Z) : mem * Z :=
  if outputLength <? u32 (inputLength * 2) then (output, Hex_TOO_BIG)
  else
    let output := if u32 (inputLength * 2) <? outputLength
                  then set output (u32 (inputLength * 2)) 0 else output in
    let output :=
      for_loop (Z.to_nat inputLength) 0 (fun i output =>
        let output := set output (u32 (i * 2)) (hex_digit (input i >> 4)) in
        set output (u32 (i * 2 + 1)) (hex_digit (input i .& 15))) output in
    (output, s32 (u32 (inputLength * 2))).

Definition Hex_decodeByte (highNibble lowNibble : Z) : Z :=
  if negb (((highNibble .& 0x80) .| (lowNibble .& 0x80)) =? 0) then -1
  else
    let high := nth (Z.to_nat highNibble) Hex_numForAscii 0 in
    let low := nth (Z.to_nat lowNibble) Hex_numForAscii 0 in
    if high + low <? 31 then (high << 4) .| low else -1.

Definition Hex_isHexEntity (character : Z) : bool :=
  ((character .& 0x80) =? 0) && (nth (Z.to_nat character) Hex_numForAscii 0 <? 99).

(** The loop runs over [i = 0, 2, 4, ...] below [length]: [(length + 1) / 2]
    rounds, for [length] below 2^32 - 1. *)
Definition Hex_decode (output : mem) (outLength : Z) (hex : mem) (length : Z) : mem * Z :=
  if negb (length mod 1 =? 0) then (output, Hex_BAD_INPUT)
  else if outLength <? length / 2 then (output, Hex_TOO_BIG)
  else
    let output := if length / 2 <? outLength then set output (length / 2) 0 else output in
    match for_until (Z.to_nat ((length + 1) / 2)) 0 (fun k output =>
            let i := 2 * k in
            let byte := Hex_decodeByte (hex i) (hex (i + 1)) in
            if byte =? -1 then inr output
            else inl (set output (i / 2) (u8 byte))) output with
    | inl output => (output, s32 (length / 2))
    | inr output => (output, Hex_BAD_INPUT)
    end.

(** ** Digits, by evaluation *)
Lemma decodeByte_digits b :
  is_byte b -> Hex_decodeByte (hex_digit (b >> 4)) (hex_digit (b .& 15)) = b.
Proof.
  intros Hb. apply Z.eqb_eq.
  apply (forall_below_spec 256 (fun b =>
    Hex_decodeByte (hex_digit (b >> 4)) (hex_digit (b .& 15)) =? b)); [vm_compute; done|].
  unfold is_byte in Hb. lia.
Qed.

Lemma hex_digit_entity d : 0 <= d < 16 -> Hex_isHexEntity (hex_digit d) = true.
Proof.
  intros Hd. apply (forall_below_spec 16 (fun d => Hex_isHexEntity (hex_digit d))); [vm_compute; done|lia].
Qed.

(** The pair of characters decodes to a byte exactly when both are digits. *)
Lemma decodeByte_valid h l :
  is_byte h -> is_byte l ->
  (0 <= Hex_decodeByte h l < 256 /\ Hex_isHexEntity h = true /\ Hex_isHexEntity l = true)
  \/ (Hex_decodeByte h l = -1 /\ (Hex_isHexEntity h && Hex_isHexEntity l) = false).
Proof.
  intros Hh Hl. unfold is_byte in *.
  assert (forall_below 256 (fun h => forall_below 256 (fun l =>
    let d := Hex_decodeByte h l in
    let e := Hex_isHexEntity h && Hex_isHexEntity l in
    (e && (0 <=? d) && (d <? 256)) || (negb e && (d =? -1)))) = true) as Hc
    by (vm_compute; done).
  pose proof (forall_below_spec _ _ Hc h ltac:(lia)) as H1. cbv beta in H1.
  pose proof (forall_below_spec _ _ H1 l ltac:(lia)) as H2. cbv beta zeta in H2.
  apply orb_prop in H2 as [H2|H2].
  - left. apply andb_prop in H2 as [[[H3 H4]%andb_prop H5%Z.leb_le]%andb_prop H6%Z.ltb_lt]. auto.
  - right. apply andb_prop in H2 as [H3%negb_true_iff H4%Z.eqb_eq]. auto.
Qed.

(** ** Loops *)
Definition encoded_upto (i : Z) (input output : mem) : Prop :=
  forall j, 0 <= j < i ->
    output (2 * j) = hex_digit (input j >> 4) /\ output (2 * j + 1) = hex_digit (input j .& 15).

Lemma hex_encode_spec output outputLength input n :
  0 <= n < 2 ^ 30 -> 2 * n <= outputLength ->
  let '(output', r) := Hex_encode output outputLength input n in
  r = 2 * n /\ encoded_upto n input output'
  /\ (forall x, x < 0 \/ 2 * n < x -> output' x = output x)
  /\ output' (2 * n) = (if 2 * n <? outputLength then 0 else output (2 * n)).
Proof.
  intros Hn Hout. unfold Hex_encode. rewrite (u32_small (n * 2)) by lia.
  destruct (Z.ltb_spec outputLength (n * 2)); [lia|].
  split; [rewrite s32_small; lia|]. replace (n * 2) with (2 * n) by lia.
  set (o0 := if 2 * n <? outputLength then _ else output).
  match goal with |- context [for_loop _ _ ?f o0] => set (body := f) end.
  pose proof (for_loop_ind (fun i o => encoded_upto i input o
    /\ forall x, x < 0 \/ 2 * i <= x -> o x = o0 x) (Z.to_nat n) 0 body o0) as H0.
  rewrite Z2Nat.id in H0 by lia. rewrite Z.add_0_l in H0.
  destruct H0 as [He Hx].
  - split; [intros j Hj; lia|done].
  - intros i o Hi [He Hx]. unfold body. rewrite !u32_small by lia. split.
    + intros j Hj. destruct (decide (j = i)) as [->|Hne].
      * split; [rewrite set_ne by lia|]; rewrite ?(Z.mul_comm 2 i), set_eq; done.
      * destruct (He j) as [H1 H2]; [lia|]. rewrite !set_ne by lia. done.
    + intros x Hx'. rewrite !set_ne by lia. apply Hx. lia.
  - split; [done|]. unfold o0 in *. split.
    + intros x Hx'. rewrite Hx by lia. destruct (2 * n <? outputLength); [apply set_ne; lia|done].
    + rewrite Hx by lia. destruct (2 * n <? outputLength); [apply set_eq|done].
Qed.

(** The decoding loop on valid digits never leaves early. *)
Lemma decode_loop n hex (o0 : mem) :
  (forall k, 0 <= k < Z.of_nat n -> 0 <= Hex_decodeByte (hex (2 * k)) (hex (2 * k + 1)) < 256) ->
  exists o,
    for_until n 0 (fun k (output : mem) =>
      let i := 2 * k in
      let byte := Hex_decodeByte (hex i) (hex (i + 1)) in
      if byte =? -1 then inr output else inl (set output (i / 2) (u8 byte))) o0 = inl o
    /\ (forall k, 0 <= k < Z.of_nat n -> o k = Hex_decodeByte (hex (2 * k)) (hex (2 * k + 1)))
    /\ (forall x, Z.of_nat n <= x -> o x = o0 x).
Proof.
  intros Hv. apply (for_until_total (fun i (o : mem) =>
      (forall k, 0 <= k < i -> o k = Hex_decodeByte (hex (2 * k)) (hex (2 * k + 1)))
      /\ forall x, i <= x -> o x = o0 x) n 0).
  { split; [intros k Hk; lia|done]. }
  intros i o' Hi [He Hx]. cbv zeta. specialize (Hv i ltac:(lia)).
  destruct (Z.eqb_spec (Hex_decodeByte (hex (2 * i)) (hex (2 * i + 1))) (-1)); [lia|].
  rewrite (Z.mul_comm 2 i), Z.div_mul, <-(Z.mul_comm 2 i), u8_small by lia.
  eexists. split; [done|]. split.
  - intros k Hk. destruct (decide (k = i)) as [->|]; [apply set_eq|]. rewrite set_ne by lia. apply He. lia.
  - intros x Hx'. rewrite set_ne by lia. apply Hx. lia.
Qed.

Lemma hex_decode_spec output outLength hex length :
  0 <= length < 2 ^ 31 -> length / 2 <= outLength ->
  (forall k, 0 <= k < (length + 1) / 2 -> 0 <= Hex_decodeByte (hex (2 * k)) (hex (2 * k + 1)) < 256) ->
  let '(output', r) := Hex_decode output outLength hex length in
  r = length / 2
  /\ (forall k, 0 <= k < (length + 1) / 2 -> output' k = Hex_decodeByte (hex (2 * k)) (hex (2 * k + 1)))
  /\ (forall x, (length + 1) / 2 <= x -> x <> length / 2 -> output' x = output x).
Proof.
  intros Hn Hout Hv. unfold Hex_decode. rewrite Z.mod_1_r. cbn [negb Z.eqb].
  destruct (Z.ltb_spec outLength (length / 2)); [lia|].
  pose proof (Z.div_pos (length + 1) 2).
  edestruct (decode_loop (Z.to_nat ((length + 1) / 2))) as (o & E & He & Hx);
    [|rewrite E; rewrite Z2Nat.id in He, Hx by lia].
  { intros k Hk. apply Hv. lia. }
  split; [apply s32_small; pose proof (Z.div_lt_upper_bound length 2 (2 ^ 31)); pose proof (Z.div_pos length 2); lia|].
  split; [done|]. intros x Hx1 Hx2. rewrite Hx by lia.
  destruct (length / 2 <? outLength); [apply set_ne; lia|done].
Qed.

Lemma decode_encoded out hex input n :
  mem_ok input -> 0 <= n < 2 ^ 30 -> encoded_upto n input hex ->
  let '(bin, r) := Hex_decode out n hex (2 * n) in
  r = n /\ read bin 0 n = read input 0 n.
Proof.
  intros Hin Hn He.
  assert (2 * n / 2 = n) as E by (rewrite Z.mul_comm, Z.div_mul; lia).
  assert ((2 * n + 1) / 2 = n) as E' by (rewrite Z.add_comm, Z.mul_comm, Z.div_add; [rewrite Z.div_small|]; lia).
  assert (forall k, 0 <= k < n -> Hex_decodeByte (hex (2 * k)) (hex (2 * k + 1)) = input k) as Hd.
  { intros k Hk. destruct (He k Hk) as [-> ->]. apply decodeByte_digits, Hin. }
  pose proof (hex_decode_spec out n hex (2 * n) ltac:(lia) ltac:(lia)) as H. rewrite E, E' in H.
  destruct (Hex_decode out n hex (2 * n)) as [bin r].
  destruct H as (-> & Hb & _); [intros k Hk; rewrite Hd by done; apply Hin|].
  split; [done|]. apply read_ext. intros i Hi. rewrite Z.add_0_l, Hb, Hd by lia. done.
Qed.

(** ** Properties *)

(** Whatever the buffers hold, decoding the [2 * n] digits that encoding
    [n] bytes has written gives the bytes back, and both calls return the
    number of bytes they have written. *)
Theorem Hex_decode_encode out1 out2 input n :
  mem_ok input -> 0 <= n < 2 ^ 30 ->
  let '(hex, r1) := Hex_encode out1 (2 * n) input n in
  let '(bin, r2) := Hex_decode out2 n hex (2 * n) in
  r1 = 2 * n /\ r2 = n /\ read bin 0 n = read input 0 n.
Proof.
  intros Hin Hn. pose proof (hex_encode_spec out1 (2 * n) input n Hn ltac:(lia)) as He.
  destruct (Hex_encode out1 (2 * n) input n) as [hex r1]. destruct He as (-> & He & _ & _).
  pose proof (decode_encoded out2 hex input n Hin Hn He) as H.
  destruct (Hex_decode out2 n hex (2 * n)) as [bin r2]. destruct H as [-> Hb]. done.
Qed.

Lemma Hex_decode_encode_witness :
  let input := of_list [0xfc; 0x00; 0x9a] in
  let '(hex, r1) := Hex_encode (of_list []) 6 input 3 in
  let '(bin, r2) := Hex_decode (of_list []) 3 hex 6 in
  r1 = 6 /\ r2 = 3 /\ read bin 0 3 = read input 0 3.
Proof.
  apply (Hex_decode_encode (of_list []) (of_list []) (of_list [0xfc; 0x00; 0x9a]) 3).
  - apply of_list_ok. repeat constructor; unfold is_byte; lia.
  - lia.
Defined.

(** An odd number [2 * k + 1] of digits is not refused: the decoder reads
    the character after the last digit, writes [k + 1] bytes, one more than
    the [k] bytes an output buffer of the size it checks holds, and returns
    [k]. *)
Theorem Hex_decode_odd_overruns output hex k :
  0 <= k < 2 ^ 30 -> mem_ok hex ->
  (forall i, 0 <= i < 2 * k + 2 -> Hex_isHexEntity (hex i) = true) ->
  let '(output', r) := Hex_decode output k hex (2 * k + 1) in
  r = k /\ output' k = Hex_decodeByte (hex (2 * k)) (hex (2 * k + 1)).
Proof.
  intros Hk Hm Hd.
  assert ((2 * k + 1) / 2 = k) as E by (rewrite Z.add_comm, Z.mul_comm, Z.div_add; [rewrite Z.div_small|]; lia).
  assert ((2 * k + 1 + 1) / 2 = k + 1) as E'
    by (replace (2 * k + 1 + 1) with ((k + 1) * 2) by lia; apply Z.div_mul; lia).
  pose proof (hex_decode_spec output k hex (2 * k + 1) ltac:(lia) ltac:(lia)) as H. rewrite E, E' in H.
  destruct (Hex_decode output k hex (2 * k + 1)) as [o r]. destruct H as (-> & Hb & _).
  - intros i Hi. destruct (decodeByte_valid (hex (2 * i)) (hex (2 * i + 1)) (Hm _) (Hm _)) as [[H _]|[_ H]]; [done|].
    rewrite !Hd in H by lia. done.
  - split; [done|]. apply Hb. lia.
Qed.

Lemma Hex_decode_odd_overruns_witness :
  let '(output', r) := Hex_decode (of_list [7]) 0 (of_list (chars "41")) 1 in
  r = 0 /\ output' 0 = 0x41.
Proof.
  apply (Hex_decode_odd_overruns (of_list [7]) (of_list (chars "41")) 0).
  - lia.
  - apply of_list_ok. repeat constructor; unfold is_byte; vm_compute; done.
  - intros i Hi. assert (i = 0 \/ i = 1) as [-> | ->] by lia; reflexivity.
Defined.
