(* ===== verification/Base32.v ===== *)
(** * Base 32 encoding (util/Base32.h)

    The encoder and decoder of the DNSCurve base 32 format, loops and return
    codes included. Both read their input as one little-endian number: the
    encoder writes its digits in base 32, the decoder its digits in base 256.
    These specifications give the round trip. *)
From S2P Require Import Prelude Memory.

Definition Base32_BAD_INPUT : Z := -1.
Definition Base32_TOO_BIG : Z := -2.

Definition Base32_numForAscii : list Z :=
  [99;99;99;99;99;99;99;99;99;99;99;99;99;99;99;99;
   99;99;99;99;99;99;99;99;99;99;99;99;99;99;99;99;
   99;99;99;99;99;99;99;99;99;99;99;99;99;99;99;99;
    0; 1; 2; 3; 4; 5; 6; 7; 8; 9;99;99;99;99;99;99;
   99;99;10;11;12;99;13;14;15;99;16;17;18;19;20;99;
   21;22;23;24;25;26;27;28;29;30;31;99;99;99;99;99;
   99;99;10;11;12;99;13;14;15;99;16;17;18;19;20;99;
   21;22;23;24;25;26;27;28;29;30;31;99;99;99;99;99].

Definition kChars : list Z := chars "0123456789bcdfghjklmnpqrstuvwxyz".
Definition kChar (d : Z) : Z := nth (Z.to_nat d) kChars 0.

(** The local variables of the decoder's loop. *)
Record DecodeState := mkDecode {
  d_output : mem; d_outIndex : Z; d_nextByte : Z; d_bits : Z }.

(** One round of [while (inputIndex < inputLength)]. *)
Definition Base32_decode_step (outLength : Z) (input : mem) (inputIndex : Z) (s : DecodeState)
    : DecodeState + (mem * Z) :=
  if negb ((input inputIndex .& 0x80) =? 0) then inr (d_output s, Base32_BAD_INPUT)
  else
    let b := nth (Z.to_nat (input inputIndex)) Base32_numForAscii 0 in
    if 31 <? b then inr (d_output s, Base32_BAD_INPUT)
    else
      let nextByte := u32 (d_nextByte s .| (b << d_bits s)) in
      let bits := d_bits s + 5 in
      if 8 <=? bits then
        if outLength <=? d_outIndex s then inr (d_output s, Base32_TOO_BIG)
        else inl (mkDecode (set (d_output s) (d_outIndex s) (u8 nextByte)) (d_outIndex s + 1)
                           (nextByte >> 8) (bits - 8))
      else inl (mkDecode (d_output s) (d_outIndex s) nextByte bits).

Definition Base32_decode (output : mem) (outLength : Z) (input : mem) (inputLength : Z) : mem * Z :=
  match for_until (Z.to_nat inputLength) 0 (Base32_decode_step outLength input)
          (mkDecode output 0 0 0) with
  | inr r => r
  | inl s => if (5 <=? d_bits s) || negb (d_nextByte s =? 0) then (d_output s, Base32_BAD_INPUT)
             else (d_output s, d_outIndex s)
  end.

(** The local variables of the encoder's loops. *)
Record EncodeState := mkEncode {
  e_output : mem; e_outIndex : Z; e_work : Z; e_bits : Z }.

(** [while (bits >= 5)]: [bits] is below 13, so three rounds leave the loop. *)
Fixpoint Base32_encode_emit (fuel : nat) (outputLength : Z) (s : EncodeState)
    : EncodeState + (mem * Z) :=
  match fuel with
  | O => inl s
  | S fuel' =>
      if 5 <=? e_bits s then
        if outputLength <=? e_outIndex s then inr (e_output s, Base32_TOO_BIG)
        else Base32_encode_emit fuel' outputLength
               (mkEncode (set (e_output s) (e_outIndex s) (kChar (e_work s .& 31)))
                         (e_outIndex s + 1) (e_work s >> 5) (e_bits s - 5))
      else inl s
  end.

Definition Base32_encode_step (outputLength : Z) (input : mem) (inIndex : Z) (s : EncodeState)
    : EncodeState + (mem * Z) :=
  Base32_encode_emit 3 outputLength
    (mkEncode (e_output s) (e_outIndex s) (u32 (e_work s .| (input inIndex << e_bits s)))
              (e_bits s + 8)).

(** The terminator is written when there is room for it. *)
Definition Base32_encode_finish (outputLength : Z) (output : mem) (outIndex : Z) : mem * Z :=
  (if outIndex <? outputLength then set output outIndex 0 else output, outIndex).

Definition Base32_encode (output : mem) (outputLength : Z) (input : mem) (inputLength : Z) : mem * Z :=
  match for_until (Z.to_nat inputLength) 0 (Base32_encode_step outputLength input)
          (mkEncode output 0 0 0) with
  | inr r => r
  | inl s =>
      if negb (e_bits s =? 0) then
        if outputLength <=? e_outIndex s then (e_output s, Base32_TOO_BIG)
        else Base32_encode_finish outputLength
               (set (e_output s) (e_outIndex s) (kChar (e_work s .& 31))) (e_outIndex s + 1)
      else Base32_encode_finish outputLength (e_output s) (e_outIndex s)
  end.

(** ** The number a buffer stands for, and its digits *)
Definition value (input : mem) (n : Z) : Z := le_combine (read input 0 n).

Lemma value_succ input i :
  mem_ok input -> 0 <= i -> value input (i + 1) = value input i + input i * 2 ^ (8 * i).
Proof.
  intros Hm Hi. unfold value. rewrite read_app by lia.
  assert (forall l1 l2, le_combine (l1 ++ l2)
    = le_combine l1 + le_combine l2 * 2 ^ (8 * Z.of_nat (length l1))) as Happ.
  { clear. intros l1 l2. induction l1 as [|b l1 IH]; cbn [le_combine app length]; [lia|].
    rewrite IH. replace (8 * Z.of_nat (S (length l1))) with (8 + 8 * Z.of_nat (length l1)) by lia.
    rewrite Z.pow_add_r by lia. change (2 ^ 8) with 256. ring. }
  rewrite Happ, length_read, Z2Nat.id by lia. f_equal. f_equal.
  rewrite read_cons, read_0 by lia. cbn [le_combine]. rewrite Z.add_0_l. lia.
Qed.

Lemma value_range input i : mem_ok input -> 0 <= i -> 0 <= value input i < 2 ^ (8 * i).
Proof.
  intros Hm Hi. pose proof (le_combine_range (read input 0 i) (read_ok _ _ _ Hm)) as H.
  rewrite length_read, Z2Nat.id in H by lia. done.
Qed.

(** The digits of [value] below position [k] do not depend on later bytes. *)
Lemma value_prefix input i n :
  mem_ok input -> 0 <= i <= n -> exists q, value input n = value input i + q * 2 ^ (8 * i).
Proof.
  intros Hm Hi. replace n with (i + Z.of_nat (Z.to_nat (n - i))) by lia.
  generalize (Z.to_nat (n - i)). intros k. induction k as [|k [q IH]].
  - exists 0. rewrite Z.add_0_r. lia.
  - replace (i + Z.of_nat (S k)) with (i + Z.of_nat k + 1) by lia.
    rewrite value_succ, IH by (done || lia).
    exists (q + input (i + Z.of_nat k) * 2 ^ (8 * Z.of_nat k)).
    replace (8 * (i + Z.of_nat k)) with (8 * Z.of_nat k + 8 * i) by lia.
    rewrite Z.pow_add_r by lia. ring.
Qed.

Definition digit32 (v k : Z) : Z := (v >> (5 * k)) .& 31.

Lemma digit32_eq v k : 0 <= k -> digit32 v k = (v / 2 ^ (5 * k)) mod 32.
Proof.
  intros Hk. unfold digit32. rewrite Z.shiftr_div_pow2 by lia.
  change 31 with (Z.ones 5). rewrite Z.land_ones by lia. done.
Qed.

Lemma digit32_prefix input i n k :
  mem_ok input -> 0 <= i <= n -> 0 <= k -> 5 * k + 5 <= 8 * i ->
  digit32 (value input n) k = digit32 (value input i) k.
Proof.
  intros Hm Hi Hk Hb. destruct (value_prefix input i n Hm Hi) as [q ->].
  rewrite !digit32_eq by done.
  replace (q * 2 ^ (8 * i)) with (q * 2 ^ (8 * i - 5 * k - 5) * 32 * 2 ^ (5 * k)).
  - rewrite Z.div_add by lia. apply Z.mod_add. lia.
  - change 32 with (2 ^ 5). rewrite <-!Z.mul_assoc, <-!Z.pow_add_r by lia. f_equal. f_equal. lia.
Qed.

Lemma kChar_inverse d : 0 <= d < 32 ->
  0 <= kChar d < 128 /\ (kChar d .& 0x80) = 0 /\ nth (Z.to_nat (kChar d)) Base32_numForAscii 0 = d.
Proof.
  intros Hd.
  pose proof (forall_below_spec 32 (fun d => (0 <=? kChar d) && (kChar d <? 128) && ((kChar d .& 0x80) =? 0)
     && (nth (Z.to_nat (kChar d)) Base32_numForAscii 0 =? d)) ltac:(vm_compute; done) d ltac:(lia)) as H.
  cbv beta in H.
  apply andb_prop in H as [[[H1%Z.leb_le H2%Z.ltb_lt]%andb_prop H3%Z.eqb_eq]%andb_prop H4%Z.eqb_eq].
  auto.
Qed.

(** ** The encoder *)

(** After reading a number [v] of [c] bits: [outIndex] digits are out and
    [work] holds the rest. *)
Record encoded (v c : Z) (o0 : mem) (s : EncodeState) : Prop := {
  enc_index : 0 <= e_outIndex s;
  enc_bits : 5 * e_outIndex s + e_bits s = c;
  enc_bits_pos : 0 <= e_bits s;
  enc_work : e_work s = v >> (5 * e_outIndex s);
  enc_out : forall k, 0 <= k < e_outIndex s -> e_output s k = kChar (digit32 v k);
  enc_same : forall x, x < 0 \/ e_outIndex s <= x -> e_output s x = o0 x }.

Lemma encode_emit_spec fuel outputLength v c o0 s :
  encoded v c o0 s -> e_bits s < 5 * Z.of_nat fuel -> c <= 5 * outputLength + 4 ->
  exists s', Base32_encode_emit fuel outputLength s = inl s' /\ encoded v c o0 s' /\ e_bits s' < 5.
Proof.
  revert s. induction fuel as [|fuel IH]; intros s Hs Hf Hout.
  { pose proof (enc_bits_pos _ _ _ _ Hs). lia. }
  cbn [Base32_encode_emit]. destruct (Z.leb_spec 5 (e_bits s)) as [Hb|Hb]; [|eauto].
  pose proof (enc_bits _ _ _ _ Hs) as E. pose proof (enc_index _ _ _ _ Hs) as Ho.
  destruct (Z.leb_spec outputLength (e_outIndex s)); [lia|].
  apply IH; [|simpl; lia|done]. constructor; cbn [e_output e_outIndex e_work e_bits]; [lia|lia|lia| | |].
  - rewrite (enc_work _ _ _ _ Hs), Z.shiftr_shiftr by lia. f_equal. lia.
  - intros k Hk. destruct (decide (k = e_outIndex s)) as [->|].
    + rewrite set_eq, (enc_work _ _ _ _ Hs). done.
    + rewrite set_ne by done. apply (enc_out _ _ _ _ Hs). lia.
  - intros x Hx. rewrite set_ne by lia. apply (enc_same _ _ _ _ Hs). lia.
Qed.

Lemma encode_step_spec outputLength input i o0 s :
  mem_ok input -> 0 <= i -> encoded (value input i) (8 * i) o0 s -> e_bits s < 5 ->
  8 * (i + 1) <= 5 * outputLength + 4 ->
  exists s', Base32_encode_step outputLength input i s = inl s'
    /\ encoded (value input (i + 1)) (8 * (i + 1)) o0 s' /\ e_bits s' < 5.
Proof.
  intros Hm Hi Hs Hb Hout. apply encode_emit_spec; [|cbn [e_bits]; lia|done].
  pose proof (enc_bits _ _ _ _ Hs) as E. pose proof (enc_index _ _ _ _ Hs) as Ho.
  pose proof (enc_bits_pos _ _ _ _ Hs) as Hp. pose proof (value_range input i Hm Hi) as Hv.
  assert (0 <= value input i >> (5 * e_outIndex s) < 2 ^ e_bits s) as Hw.
  { apply shiftr_range; [lia|lia|]. replace (e_bits s + 5 * e_outIndex s) with (8 * i) by lia. done. }
  pose proof (Hm i) as Hbyte. unfold is_byte in Hbyte.
  constructor; cbn [e_output e_outIndex e_work e_bits]; [lia|lia|lia| | |].
  - rewrite (enc_work _ _ _ _ Hs), lor_shiftl_add by done. rewrite value_succ by done.
    rewrite u32_small.
    + rewrite !(Z.shiftr_div_pow2 _ (5 * e_outIndex s)) by lia.
      replace (2 ^ (8 * i)) with (2 ^ e_bits s * 2 ^ (5 * e_outIndex s)) by (rewrite <-Z.pow_add_r by lia; f_equal; lia).
      rewrite Z.mul_assoc, Z.div_add by lia. lia.
    + assert (2 ^ e_bits s <= 2 ^ 4) by (apply Z.pow_le_mono_r; lia). nia.
  - intros k Hk. rewrite (enc_out _ _ _ _ Hs) by done. f_equal. symmetry.
    apply digit32_prefix; [done|lia|lia|lia].
  - apply (enc_same _ _ _ _ Hs).
Qed.

Definition encoded_length (n : Z) : Z := (8 * n + 4) / 5.

Lemma base32_encode_spec output outputLength input n :
  mem_ok input -> 0 <= n -> encoded_length n <= outputLength ->
  let '(output', r) := Base32_encode output outputLength input n in
  r = encoded_length n
  /\ (forall k, 0 <= k < encoded_length n -> output' k = kChar (digit32 (value input n) k))
  /\ (forall x, x < 0 \/ encoded_length n < x -> output' x = output x)
  /\ output' (encoded_length n) = (if encoded_length n <? outputLength then 0 else output (encoded_length n)).
Proof.
  intros Hm Hn Hout. unfold encoded_length in *.
  pose proof (Z.div_mod (8 * n + 4) 5 ltac:(lia)) as Hd. pose proof (Z.mod_pos_bound (8 * n + 4) 5 ltac:(lia)) as Hr.
  set (L := (8 * n + 4) / 5) in *.
  unfold Base32_encode.
  destruct (for_until_total (fun i s => encoded (value input i) (8 * i) output s /\ e_bits s < 5)
    (Z.to_nat n) 0 (Base32_encode_step outputLength input) (mkEncode output 0 0 0)) as (s & -> & H).
  { split; [|cbn; lia]. constructor; cbn [e_output e_outIndex e_work e_bits]; try done; try lia. }
  { intros i s0 Hi [Hs Hb]. apply encode_step_spec; done || lia. }
  rewrite Z.add_0_l, Z2Nat.id in H by lia.
  destruct H as [Hs Hb]. pose proof (enc_bits _ _ _ _ Hs) as E. pose proof (enc_index _ _ _ _ Hs) as Ho.
  pose proof (enc_bits_pos _ _ _ _ Hs) as Hp. unfold Base32_encode_finish.
  destruct (Z.eqb_spec (e_bits s) 0) as [E0|E0]; cbn [negb].
  - assert (e_outIndex s = L) as EL by lia. rewrite EL. split; [done|]. split; [|split].
    + intros k Hk. destruct (L <? outputLength); [rewrite set_ne by lia|]; apply (enc_out _ _ _ _ Hs); lia.
    + intros x Hx. destruct (L <? outputLength); [rewrite set_ne by lia|]; apply (enc_same _ _ _ _ Hs); lia.
    + destruct (L <? outputLength); [apply set_eq|]. apply (enc_same _ _ _ _ Hs). lia.
  - assert (e_outIndex s + 1 = L) as EL by lia.
    destruct (Z.leb_spec outputLength (e_outIndex s)); [lia|]. rewrite EL.
    split; [done|]. split; [|split].
    + intros k Hk. assert ((if L <? outputLength then set (set (e_output s) (e_outIndex s) (kChar (e_work s .& 31))) L 0
         else set (e_output s) (e_outIndex s) (kChar (e_work s .& 31))) k
         = set (e_output s) (e_outIndex s) (kChar (e_work s .& 31)) k) as ->.
      { destruct (L <? outputLength); [rewrite set_ne by lia|]; done. }
      destruct (decide (k = e_outIndex s)) as [->|].
      * rewrite set_eq, (enc_work _ _ _ _ Hs). done.
      * rewrite set_ne by done. apply (enc_out _ _ _ _ Hs). lia.
    + intros x Hx. destruct (L <? outputLength); [rewrite set_ne by lia|];
        rewrite set_ne by lia; apply (enc_same _ _ _ _ Hs); lia.
    + destruct (L <? outputLength); [apply set_eq|]. rewrite set_ne by lia. apply (enc_same _ _ _ _ Hs). lia.
Qed.

(** ** The encoder when the output is too small: it is filled. *)
Definition filled (o0 : mem) (n : Z) (o : mem) : Prop :=
  (forall k, 0 <= k < n -> exists d, 0 <= d < 32 /\ o k = kChar d) /\ (forall x, x < 0 \/ n <= x -> o x = o0 x).

Lemma filled_set o0 n o d : 0 <= n -> 0 <= d < 32 -> filled o0 n o -> filled o0 (n + 1) (set o n (kChar d)).
Proof.
  intros Hn Hd [H1 H2]. split.
  - intros k Hk. destruct (decide (k = n)) as [->|]; [exists d; by rewrite set_eq|]. rewrite set_ne by done. apply H1. lia.
  - intros x Hx. rewrite set_ne by lia. apply H2. lia.
Qed.

Definition partly (outputLength c : Z) (o0 : mem) (s : EncodeState) : Prop :=
  0 <= e_outIndex s <= outputLength /\ 5 * e_outIndex s + e_bits s = c /\ 0 <= e_bits s /\ filled o0 (e_outIndex s) (e_output s).
Definition stopped (outputLength : Z) (o0 : mem) (r : mem * Z) : Prop := r.2 = Base32_TOO_BIG /\ filled o0 outputLength r.1.

Lemma emit_partly fuel outputLength c o0 s : partly outputLength c o0 s -> e_bits s < 5 * Z.of_nat fuel ->
  match Base32_encode_emit fuel outputLength s with
  | inl s' => partly outputLength c o0 s' /\ e_bits s' < 5
  | inr r => stopped outputLength o0 r
  end.
Proof.
  revert s. induction fuel as [|fuel IH]; intros s (Hi & Hb & Hp & Hf) Hfuel; [lia|]. cbn [Base32_encode_emit].
  destruct (Z.leb_spec 5 (e_bits s)); [|repeat split; try lia; apply Hf].
  destruct (Z.leb_spec outputLength (e_outIndex s)).
  - split; [done|]. cbn [fst]. by replace outputLength with (e_outIndex s) by lia.
  - apply IH; [|cbn [e_bits]; lia]. unfold partly. cbn [e_outIndex e_bits e_output]. split; [lia|]. split; [lia|]. split; [lia|].
    apply filled_set; [lia| |done]. change 31 with (Z.ones 5). rewrite Z.land_ones by lia. apply Z.mod_pos_bound. lia.
Qed.

Lemma base32_encode_full output outputLength input n : 0 <= n -> 0 <= outputLength < encoded_length n ->
  stopped outputLength output (Base32_encode output outputLength input n).
Proof.
  intros Hn Hl. unfold encoded_length in Hl. unfold Base32_encode.
  assert (match for_until (Z.to_nat n) 0 (Base32_encode_step outputLength input) (mkEncode output 0 0 0) with
          | inl s => partly outputLength (8 * (0 + Z.of_nat (Z.to_nat n))) output s /\ e_bits s < 5
          | inr r => stopped outputLength output r end) as H.
  { apply (for_until_inv (fun i s => partly outputLength (8 * i) output s /\ e_bits s < 5)).
    - unfold partly. cbn [e_outIndex e_bits e_output]. split; [|lia]. split; [lia|]. split; [lia|]. split; [lia|]. split; [intros; lia|done].
    - intros i s [(Hi & Hb & Hp & Hf) H5]. replace (8 * (i + 1)) with (8 * i + 8) by lia. apply emit_partly; [|cbn [e_bits]; lia].
      unfold partly. cbn [e_outIndex e_bits e_output]. repeat split; try lia; apply Hf. }
  destruct (for_until _ _ _ _) as [s|r]; [|exact H]. rewrite Z.add_0_l, Z2Nat.id in H by lia. destruct H as [(Hi & Hb & Hp & Hf) H5].
  pose proof (Z.div_mod (8 * n + 4) 5 ltac:(lia)) as Hd. pose proof (Z.mod_pos_bound (8 * n + 4) 5 ltac:(lia)) as Hr.
  destruct (Z.eqb_spec (e_bits s) 0); cbn [negb]; [lia|]. rewrite (proj2 (Z.leb_le _ _)) by lia.
  split; [done|]. cbn [fst]. by replace outputLength with (e_outIndex s) by lia.
Qed.

(** ** The decoder *)

(** After [k] digits of [v]: [outIndex] bytes are out, [nextByte] holds the rest. *)
Record decoded (v k : Z) (s : DecodeState) : Prop := {
  dec_index : 0 <= d_outIndex s;
  dec_bits : 8 * d_outIndex s + d_bits s = 5 * k;
  dec_bits_range : 0 <= d_bits s < 8;
  dec_next : d_nextByte s = (v mod 2 ^ (5 * k)) >> (8 * d_outIndex s);
  dec_out : forall j, 0 <= j < d_outIndex s -> d_output s j = (v >> (8 * j)) mod 256 }.

Lemma mod_digit_succ v k : 0 <= k -> v mod 2 ^ (5 * (k + 1)) = v mod 2 ^ (5 * k) + digit32 v k * 2 ^ (5 * k).
Proof.
  intros Hk. rewrite digit32_eq by done. replace (5 * (k + 1)) with (5 * k + 5) by lia.
  rewrite Z.pow_add_r by lia. rewrite Z.rem_mul_r by lia. change (2 ^ 5) with 32. lia.
Qed.

Lemma decode_step_spec outLength input v k s :
  0 <= k -> decoded v k s -> 5 * (k + 1) <= 8 * outLength + 7 ->
  input k = kChar (digit32 v k) ->
  exists s', Base32_decode_step outLength input k s = inl s' /\ decoded v (k + 1) s'.
Proof.
  intros Hk Hs Hout Hc.
  assert (0 <= digit32 v k < 32) as Hd by (rewrite digit32_eq by done; apply Z.mod_pos_bound; lia).
  destruct (kChar_inverse _ Hd) as (_ & Hhi & Hinv). unfold Base32_decode_step.
  rewrite Hc, Hhi, Hinv. cbn [negb Z.eqb]. destruct (Z.ltb_spec 31 (digit32 v k)); [lia|].
  pose proof (dec_bits _ _ _ Hs) as E. pose proof (dec_bits_range _ _ _ Hs) as Hb.
  pose proof (dec_index _ _ _ Hs) as Ho.
  pose proof (Z.mod_pos_bound v (2 ^ (5 * k)) ltac:(lia)) as Hv.
  assert (0 <= d_nextByte s < 2 ^ d_bits s) as Hn.
  { rewrite (dec_next _ _ _ Hs). apply shiftr_range; [lia|lia|].
    replace (d_bits s + 8 * d_outIndex s) with (5 * k) by lia. done. }
  set (w := u32 _).
  assert (w = (v mod 2 ^ (5 * (k + 1))) >> (8 * d_outIndex s)) as Ew.
  { unfold w. rewrite lor_shiftl_add by lia. rewrite mod_digit_succ by done.
    rewrite u32_small.
    - rewrite (dec_next _ _ _ Hs). rewrite !(Z.shiftr_div_pow2 _ (8 * d_outIndex s)) by lia.
      replace (2 ^ (5 * k)) with (2 ^ d_bits s * 2 ^ (8 * d_outIndex s)) at 3
        by (rewrite <-Z.pow_add_r by lia; f_equal; lia).
      rewrite Z.mul_assoc, Z.div_add by lia. lia.
    - assert (2 ^ d_bits s <= 2 ^ 7) by (apply Z.pow_le_mono_r; lia). nia. }
  clearbody w. destruct (Z.leb_spec 8 (d_bits s + 5)) as [H8|H8].
  - destruct (Z.leb_spec outLength (d_outIndex s)); [lia|].
    eexists. split; [done|].
    constructor; cbn [d_output d_outIndex d_nextByte d_bits]; [lia|lia|lia| |].
    + rewrite Ew, Z.shiftr_shiftr by lia. f_equal. lia.
    + intros j Hj. destruct (decide (j = d_outIndex s)) as [->|].
      * rewrite set_eq, Ew. unfold u8.
        apply Z.bits_inj'. intros i Hi. change 256 with (2 ^ 8). rewrite !testbit_mod by lia.
        destruct (Z.ltb_spec i 8); [|done]. rewrite !andb_true_l, !Z.shiftr_spec by lia.
        rewrite testbit_mod by lia.
        destruct (Z.ltb_spec (i + 8 * d_outIndex s) (5 * (k + 1))); [done|lia].
      * rewrite set_ne by done. apply (dec_out _ _ _ Hs). lia.
  - eexists. split; [done|].
    constructor; cbn [d_output d_outIndex d_nextByte d_bits]; [lia|lia|lia|done|].
    apply (dec_out _ _ _ Hs).
Qed.

Lemma base32_decode_spec output outLength input v n :
  0 <= v < 2 ^ (8 * n) -> 0 <= n <= outLength ->
  (forall k, 0 <= k < encoded_length n -> input k = kChar (digit32 v k)) ->
  let '(output', r) := Base32_decode output outLength input (encoded_length n) in
  r = n /\ forall j, 0 <= j < n -> output' j = (v >> (8 * j)) mod 256.
Proof.
  intros Hv Hn Hc. unfold encoded_length in *.
  pose proof (Z.div_mod (8 * n + 4) 5 ltac:(lia)) as Hd. pose proof (Z.mod_pos_bound (8 * n + 4) 5 ltac:(lia)) as Hr.
  set (L := (8 * n + 4) / 5) in *. unfold Base32_decode.
  destruct (for_until_total (decoded v) (Z.to_nat L) 0 (Base32_decode_step outLength input)
    (mkDecode output 0 0 0)) as (s & -> & Hs).
  { constructor; cbn [d_output d_outIndex d_nextByte d_bits]; try lia. rewrite Z.mod_1_r. done. }
  { intros k s0 Hk Hs. apply (decode_step_spec outLength input v); [lia|done|lia|apply Hc; lia]. }
  rewrite Z.add_0_l, Z2Nat.id in Hs by lia.
  pose proof (dec_bits _ _ _ Hs) as E. pose proof (dec_bits_range _ _ _ Hs) as Hb.
  assert (d_outIndex s = n) as En by lia. pose proof (dec_next _ _ _ Hs) as Enext. rewrite En in Enext.
  rewrite Z.shiftr_div_pow2 in Enext by lia.
  assert (2 ^ (8 * n) <= 2 ^ (5 * L)) by (apply Z.pow_le_mono_r; lia).
  rewrite Z.mod_small, Z.div_small in Enext by lia. rewrite Enext.
  destruct (Z.leb_spec 5 (d_bits s)); [lia|]. cbn [orb negb Z.eqb]. split; [done|].
  intros j Hj. apply (dec_out _ _ _ Hs). lia.
Qed.

(** ** Properties *)

(** For every buffer of [n] bytes, decoding what the encoder wrote gives
    the [n] bytes back; the encoder writes [ceil (8 n / 5)] characters. *)
Theorem Base32_decode_encode out1 out2 input n :
  mem_ok input -> 0 <= n ->
  let '(text, r1) := Base32_encode out1 (encoded_length n) input n in
  let '(bin, r2) := Base32_decode out2 n text r1 in
  r1 = encoded_length n /\ r2 = n /\ read bin 0 n = read input 0 n.
Proof.
  intros Hm Hn. pose proof (base32_encode_spec out1 (encoded_length n) input n Hm Hn ltac:(lia)) as He.
  destruct (Base32_encode out1 (encoded_length n) input n) as [text r1].
  destruct He as (-> & He & _ & _).
  pose proof (base32_decode_spec out2 n text (value input n) n (value_range input n Hm Hn) ltac:(lia) He) as H.
  destruct (Base32_decode out2 n text (encoded_length n)) as [bin r2]. destruct H as (-> & H).
  split; [done|]. split; [done|].
  rewrite <-(le_split_combine (read input 0 n)) by (apply read_ok, Hm).
  rewrite length_read. fold (value input n).
  apply (nth_ext _ _ 0 0); [rewrite length_read, length_le_split; done|].
  rewrite length_read. intros i Hi. rewrite nth_read, nth_le_split by lia.
  rewrite H by lia. rewrite Z.add_0_l. done.
Qed.

Lemma Base32_decode_encode_witness :
  let input := of_list [0x64; 0x88; 0xff] in
  let '(text, r1) := Base32_encode (of_list []) 5 input 3 in
  let '(bin, r2) := Base32_decode (of_list []) 3 text r1 in
  r1 = 5 /\ r2 = 3 /\ read bin 0 3 = read input 0 3.
Proof.
  apply (Base32_decode_encode (of_list []) (of_list []) (of_list [0x64; 0x88; 0xff]) 3).
  - apply of_list_ok. repeat constructor; unfold is_byte; lia.
  - lia.
Defined.
