(* ===== verification/Checksum.v ===== *)
(** * Internet checksums (util/Checksum.h)

    The one's complement sum over native 16-bit words, its folding loop, and
    the checksums of packets under an IPv6 header. The main results are those
    the protocol relies on: the checksums are those of RFC 1071 on hosts of
    either byte order, and a packet that carries its own sums to zero. *)
From S2P Require Import Prelude Memory Endian.

Section checksum.
  Context {P : Platform}.

(** [((uint16_t* ) buffer)[i]], then the odd byte. *)
Definition Checksum_step (buffer : mem) (a length state : Z) : Z :=
  let state := for_loop (Z.to_nat (length / 2)) 0
                 (fun i state => u32 (state + load 2 buffer (a + 2 * i))) state in
  if negb (length mod 2 =? 0)
  then u32 (state + (if host_is_big_endian then buffer (a + length - 1) << 8
                     else buffer (a + length - 1)))
  else state.

Definition Checksum_step32 (content state : Z) : Z :=
  u32 (state + (content >> 16) + (content .& 0xFFFF)).

(** [while (state > 0xFFFF)]: the state shrinks each round, and a 32-bit state
    fits in 16 bits after two. *)
Fixpoint Checksum_fold (fuel : nat) (state : Z) : Z :=
  match fuel with
  | O => state
  | S fuel' =>
      if 0xFFFF <? state then Checksum_fold fuel' (u32 ((state >> 16) + (state .& 0xFFFF)))
      else state
  end.

Definition Checksum_complete (state : Z) : Z := u16 (Z.lnot (Checksum_fold 3 state)).

(** The buffer is 2-byte aligned ([Assert_true] of the code). *)
Definition Checksum_engine (buffer : mem) (a length : Z) : Z :=
  Checksum_complete (Checksum_step buffer a length 0).

Definition Checksum_Ip6 (sourceAndDestAddrs : mem) (a : Z) (packet : mem) (b length packetType_be : Z) : Z :=
  let sum := Checksum_step sourceAndDestAddrs a 32 0 in
  let length_be := Endian_hostToBigEndian32 length in
  let sum := Checksum_step32 length_be sum in
  let sum := Checksum_step32 packetType_be sum in
  let sum := Checksum_step packet b length sum in
  Checksum_complete sum.

Definition Checksum_udpIp6 (sourceAndDestAddrs : mem) (a : Z) (packet : mem) (b length : Z) : Z :=
  Checksum_Ip6 sourceAndDestAddrs a packet b length (Endian_hostToBigEndian32 17).

Definition Checksum_icmp6 (sourceAndDestAddrs : mem) (a : Z) (packet : mem) (b length : Z) : Z :=
  Checksum_Ip6 sourceAndDestAddrs a packet b length (Endian_hostToBigEndian32 58).

(** ** The sum without machine words *)
Fixpoint word_sum (n : nat) (buffer : mem) (a : Z) : Z :=
  match n with O => 0 | S n' => load 2 buffer a + word_sum n' buffer (a + 2) end.

Definition odd_byte (buffer : mem) (a length : Z) : Z :=
  if negb (length mod 2 =? 0)
  then (if host_is_big_endian then buffer (a + length - 1) * 256 else buffer (a + length - 1))
  else 0.

Definition buffer_sum (buffer : mem) (a length : Z) : Z :=
  word_sum (Z.to_nat (length / 2)) buffer a + odd_byte buffer a length.

Lemma word_sum_range n buffer a : mem_ok buffer -> 0 <= word_sum n buffer a <= 65535 * Z.of_nat n.
Proof.
  intros Hm. revert a. induction n as [|n IH]; intros a; cbn [word_sum]; [lia|].
  specialize (IH (a + 2)). pose proof (load_range 2 buffer a Hm) as H. change (2 ^ (8 * Z.of_nat 2)) with 65536 in H. lia.
Qed.

Lemma odd_byte_range buffer a length : mem_ok buffer -> 0 <= odd_byte buffer a length <= 65280.
Proof.
  intros Hm. unfold odd_byte. pose proof (Hm (a + length - 1)) as H. unfold is_byte in H.
  destruct (negb _), host_is_big_endian; lia.
Qed.

Lemma buffer_sum_range buffer a length :
  mem_ok buffer -> 0 <= length < 2 ^ 16 -> 0 <= buffer_sum buffer a length < 2 ^ 31.
Proof.
  intros Hm Hl. unfold buffer_sum. pose proof (word_sum_range (Z.to_nat (length / 2)) buffer a Hm).
  pose proof (odd_byte_range buffer a length Hm).
  assert (0 <= length / 2 < 2 ^ 15) by (split; [apply Z.div_pos|apply Z.div_lt_upper_bound]; lia). lia.
Qed.

Lemma step_loop n buffer a i state :
  mem_ok buffer -> 0 <= state -> state + 65535 * Z.of_nat n < 2 ^ 32 ->
  for_loop n i (fun i state => u32 (state + load 2 buffer (a + 2 * i))) state
  = state + word_sum n buffer (a + 2 * i).
Proof.
  intros Hm. revert i state. induction n as [|n IH]; intros i state Hs Hb; cbn [for_loop word_sum]; [lia|].
  pose proof (load_range 2 buffer (a + 2 * i) Hm) as H. change (2 ^ (8 * Z.of_nat 2)) with 65536 in H.
  rewrite u32_small by lia. rewrite IH by lia.
  replace (a + 2 * (i + 1)) with (a + 2 * i + 2) by lia. lia.
Qed.

Lemma step_spec buffer a length state :
  mem_ok buffer -> 0 <= length < 2 ^ 16 -> 0 <= state < 2 ^ 31 ->
  Checksum_step buffer a length state = state + buffer_sum buffer a length.
Proof.
  intros Hm Hl Hs. unfold Checksum_step.
  assert (0 <= length / 2 < 2 ^ 15) by (split; [apply Z.div_pos|apply Z.div_lt_upper_bound]; lia).
  pose proof (buffer_sum_range buffer a length Hm Hl) as Hr.
  rewrite step_loop by (done || lia). rewrite Z.mul_0_r, Z.add_0_r.
  unfold buffer_sum, odd_byte in *. destruct (negb (length mod 2 =? 0)); [|lia].
  assert (buffer (a + length - 1) << 8 = buffer (a + length - 1) * 256) as -> by (apply Z.shiftl_mul_pow2; lia).
  destruct host_is_big_endian; rewrite u32_small; lia.
Qed.

Lemma land_ffff x : x .& 0xFFFF = x mod 65536.
Proof. change 0xFFFF with (Z.ones 16). apply Z.land_ones. lia. Qed.

(** 65536 is 1 modulo 65535: adding the halves keeps the residue. *)
Lemma halves_mod x : (x / 65536 + x mod 65536) mod 65535 = x mod 65535.
Proof.
  rewrite <-(Z.mod_add (x / 65536 + x mod 65536) (x / 65536) 65535) by lia. f_equal.
  pose proof (Z.div_mod x 65536 ltac:(lia)). lia.
Qed.

Lemma step32_spec content state :
  0 <= content < 2 ^ 32 -> 0 <= state < 2 ^ 31 ->
  exists s, Checksum_step32 content state = state + s /\ 0 <= s <= 131070 /\ s mod 65535 = content mod 65535.
Proof.
  intros Hc Hs. unfold Checksum_step32. exists (content / 65536 + content mod 65536).
  rewrite land_ffff, Z.shiftr_div_pow2 by lia.
  change (2 ^ 16) with 65536 in *.
  pose proof (Z.mod_pos_bound content 65536 ltac:(lia)). pose proof (Z.div_pos content 65536 ltac:(lia) ltac:(lia)).
  pose proof (Z.div_lt_upper_bound content 65536 65536 ltac:(lia) ltac:(lia)).
  rewrite u32_small by lia. split; [lia|]. split; [lia|].
  apply halves_mod.
Qed.

(** ** Folding *)
Lemma fold_round state :
  0 <= state < 2 ^ 32 ->
  let s := u32 ((state >> 16) + (state .& 0xFFFF)) in
  s mod 65535 = state mod 65535 /\ 0 <= s <= state / 65536 + 65535 /\ (0 < state -> 0 < s).
Proof.
  intros Hs s. subst s. rewrite land_ffff, Z.shiftr_div_pow2 by lia. change (2 ^ 16) with 65536.
  pose proof (Z.mod_pos_bound state 65536 ltac:(lia)). pose proof (Z.div_pos state 65536 ltac:(lia) ltac:(lia)).
  pose proof (Z.div_lt_upper_bound state 65536 65536 ltac:(lia) ltac:(lia)). pose proof (Z.div_mod state 65536 ltac:(lia)).
  rewrite u32_small by lia. split; [apply halves_mod|lia].
Qed.

(** The folded state is the representative of [state] modulo 65535 in
    [1 .. 65535], or 0 for 0. *)
Lemma fold_spec state :
  0 <= state < 2 ^ 32 ->
  let f := Checksum_fold 3 state in
  0 <= f <= 65535 /\ f mod 65535 = state mod 65535 /\ (0 < state -> 0 < f).
Proof.
  intros Hs. cbn [Checksum_fold].
  destruct (Z.ltb_spec 0xFFFF state) as [H1|H1]; [|cbv zeta; lia].
  destruct (fold_round state Hs) as (E1 & R1 & P1). set (s1 := u32 _) in *.
  assert (s1 <= 131070) by (pose proof (Z.div_lt_upper_bound state 65536 65536 ltac:(lia) ltac:(lia)); lia).
  destruct (Z.ltb_spec 0xFFFF s1) as [H2|H2]; [|cbv zeta; lia].
  destruct (fold_round s1 ltac:(lia)) as (E2 & R2 & P2). set (s2 := u32 ((s1 >> 16) + _)) in *.
  assert (s1 / 65536 = 1) as D1 by (symmetry; apply Z.div_unique with (s1 - 65536); lia).
  assert (s2 <= 65535).
  { subst s2. rewrite land_ffff, Z.shiftr_div_pow2 by lia.
    change (2 ^ 16) with 65536. rewrite D1. rewrite Z.mod_eq, D1 by lia. rewrite u32_small; lia. }
  destruct (Z.ltb_spec 0xFFFF s2); [lia|]. cbv zeta. lia.
Qed.

Lemma complete_spec state :
  0 <= state < 2 ^ 32 -> Checksum_complete state = 65535 - Checksum_fold 3 state.
Proof.
  intros Hs. destruct (fold_spec state Hs) as (H & _). unfold Checksum_complete, u16.
  unfold Z.lnot. replace (Z.pred (- Checksum_fold 3 state)) with (65535 - Checksum_fold 3 state + (-1) * 2 ^ 16) by lia.
  rewrite Z.mod_add by lia. apply Z.mod_small. lia.
Qed.

Lemma complete_range state : 0 <= Checksum_complete state < 2 ^ 16.
Proof. apply u16_range. Qed.

(** Adding the complement of a sum makes the sum fold to zero. *)
Lemma complete_self s : 0 <= s -> s + 65535 < 2 ^ 32 -> Checksum_complete (s + Checksum_complete s) = 0.
Proof.
  intros Hs Hb. rewrite (complete_spec s) by lia.
  destruct (fold_spec s ltac:(lia)) as (Hf & Em & Hp).
  set (f := Checksum_fold 3 s) in *.
  rewrite complete_spec by lia.
  destruct (fold_spec (s + (65535 - f)) ltac:(lia)) as (Hf' & Em' & Hp').
  assert ((s + (65535 - f)) mod 65535 = 0) as E0.
  { replace (s + (65535 - f)) with (s - f + 1 * 65535) by lia. rewrite Z.mod_add by lia.
    rewrite Zminus_mod, Em, Z.sub_diag. done. }
  rewrite E0 in Em'.
  assert (0 < s + (65535 - f)) by (destruct (decide (s = 0)) as [->|]; [unfold f; vm_compute; done|lia]).
  specialize (Hp' ltac:(lia)). set (g := Checksum_fold 3 (s + _)) in *.
  pose proof (Z.div_mod g 65535 ltac:(lia)). lia.
Qed.

(** ** Storing a checksum in a buffer whose checksum field is zero *)
Lemma word_sum_set n buffer a k c :
  0 <= k < Z.of_nat n -> load 2 buffer (a + 2 * k) = 0 -> 0 <= c < 2 ^ 16 ->
  word_sum n (write buffer (a + 2 * k) (store 2 c)) a = word_sum n buffer a + c.
Proof.
  revert a k. induction n as [|n IH]; intros a k Hk H0 Hc; [lia|]. cbn [word_sum].
  destruct (decide (k = 0)) as [->|Hne].
  - rewrite Z.mul_0_r, Z.add_0_r in *. rewrite load_write_store, Z.mod_small by lia.
    rewrite H0. rewrite Z.add_comm, Z.add_0_l. f_equal.
    assert (forall m b, a + 2 <= b -> word_sum m (write buffer a (store 2 c)) b = word_sum m buffer b) as Hrest.
    { intros m. induction m as [|m IHm]; intros b Hb; cbn [word_sum]; [done|]. rewrite IHm by lia. f_equal.
      apply load_read, read_write_disj. rewrite length_store. lia. }
    apply Hrest. lia.
  - rewrite (load_read 2 _ buffer a a) by (apply read_write_disj; lia).
    specialize (IH (a + 2) (k - 1)). replace (a + 2 + 2 * (k - 1)) with (a + 2 * k) in IH by lia.
    rewrite IH by (done || lia). lia.
Qed.

Lemma buffer_sum_set buffer a length k c :
  0 <= length -> 0 <= 2 * k -> 2 * k + 2 <= length ->
  load 2 buffer (a + 2 * k) = 0 -> 0 <= c < 2 ^ 16 ->
  buffer_sum (write buffer (a + 2 * k) (store 2 c)) a length = buffer_sum buffer a length + c.
Proof.
  intros Hl Hk Hk' H0 Hc. unfold buffer_sum.
  pose proof (Z.div_mod length 2 ltac:(lia)). pose proof (Z.mod_pos_bound length 2 ltac:(lia)).
  rewrite word_sum_set by (done || lia).
  assert (odd_byte (write buffer (a + 2 * k) (store 2 c)) a length = odd_byte buffer a length) as ->; [|lia].
  unfold odd_byte. destruct (Z.eqb_spec (length mod 2) 0); cbn [negb]; [done|].
  rewrite write_out by (rewrite length_store; lia). done.
Qed.

(** Only the bytes summed matter. *)
Lemma step_read_at m m' a b length state :
  0 <= length -> read m a length = read m' b length -> Checksum_step m a length state = Checksum_step m' b length state.
Proof.
  intros Hl E. assert (forall i, 0 <= i < length -> m (a + i) = m' (b + i)) as Hx by (intros i; apply (read_inj m m' a b length i E)).
  unfold Checksum_step.
  pose proof (Z.div_mod length 2 ltac:(lia)). pose proof (Z.mod_pos_bound length 2 ltac:(lia)).
  rewrite (for_loop_ext _ 0 _ (fun i state => u32 (state + load 2 m' (b + 2 * i)))).
  2: { intros i s Hi. do 2 f_equal. apply load_read, read_ext. intros j Hj. rewrite <-!Z.add_assoc. apply Hx.
       rewrite Z2Nat.id in Hi by lia. lia. }
  destruct (Z.eqb_spec (length mod 2) 0); cbn [negb]; [done|]. rewrite <-!Z.add_sub_assoc, Hx by lia. done.
Qed.

Lemma engine_read_at m m' a b length :
  0 <= length -> read m a length = read m' b length -> Checksum_engine m a length = Checksum_engine m' b length.
Proof. intros Hl E. unfold Checksum_engine. f_equal. apply step_read_at; done. Qed.

Lemma Ip6_read_at addrs addrs' a a' packet packet' b b' length packetType_be :
  0 <= length -> read addrs a 32 = read addrs' a' 32 -> read packet b length = read packet' b' length ->
  Checksum_Ip6 addrs a packet b length packetType_be = Checksum_Ip6 addrs' a' packet' b' length packetType_be.
Proof.
  intros Hl Ea Ep. unfold Checksum_Ip6. rewrite (step_read_at addrs addrs' a a' 32 0 ltac:(lia) Ea).
  f_equal. apply step_read_at; done.
Qed.

Lemma engine_read m m' a length :
  0 <= length -> read m a length = read m' a length -> Checksum_engine m a length = Checksum_engine m' a length.
Proof. apply engine_read_at. Qed.

(** A buffer with a zero checksum field, and its own checksum stored there. *)
Lemma engine_verifies buffer a length k :
  mem_ok buffer -> 0 <= length < 2 ^ 16 -> 0 <= 2 * k -> 2 * k + 2 <= length ->
  load 2 buffer (a + 2 * k) = 0 ->
  Checksum_engine (write buffer (a + 2 * k) (store 2 (Checksum_engine buffer a length))) a length = 0.
Proof.
  intros Hm Hl Hk Hk' H0. pose proof (buffer_sum_range buffer a length Hm Hl).
  unfold Checksum_engine. rewrite (step_spec buffer) by (done || lia). rewrite Z.add_0_l.
  set (c := Checksum_complete (buffer_sum buffer a length)).
  assert (0 <= c < 2 ^ 16) as Hc by apply complete_range.
  rewrite step_spec by (try apply write_ok; auto using store_ok; lia).
  rewrite Z.add_0_l, buffer_sum_set by (done || lia). apply complete_self; lia.
Qed.

(** ** The reference: RFC 1071

    The sum of the buffer's bytes in pairs, the first of each the high one, an
    odd byte padded with zero; its representative modulo 65535, complemented. *)
Fixpoint rfc_words (n : nat) (m : mem) (a : Z) : Z :=
  match n with O => 0 | S n => m a * 256 + m (a + 1) + rfc_words n m (a + 2) end.

Definition rfc_sum (m : mem) (a length : Z) : Z :=
  rfc_words (Z.to_nat (length / 2)) m a + (if negb (length mod 2 =? 0) then m (a + length - 1) * 256 else 0).

Definition rfc_complement (s : Z) : Z := 65535 - (if s =? 0 then 0 else 1 + (s - 1) mod 65535).

Definition rfc_halves (x : Z) : Z := x / 65536 + x mod 65536.

(** A sum [s] of native words stands for the sum [r] of the reference. *)
Definition native (s r : Z) : Prop :=
  0 <= s /\ 0 <= r /\ (s = 0 <-> r = 0) /\
  exists k, (if host_is_big_endian then s else 256 * s) = r + 65535 * k.

Lemma native_add s r s' r' : native s r -> native s' r' -> native (s + s') (r + r').
Proof.
  intros (H1 & H2 & H3 & k & Hk) (H1' & H2' & H3' & k' & Hk'). unfold native. do 3 (split; [lia|]).
  exists (k + k'). destruct host_is_big_endian; lia.
Qed.

Lemma native_word m a : mem_ok m -> native (load 2 m a) (m a * 256 + m (a + 1)).
Proof.
  intros Hm. pose proof (Hm a) as H0. pose proof (Hm (a + 1)) as H1. unfold is_byte in *. unfold native, load.
  change (Z.of_nat 2) with 2. rewrite !read_cons, read_0 by lia. replace (2 - 1) with 1 by lia.
  unfold be_combine. destruct host_is_big_endian; cbn [rev app le_combine].
  - split; [lia|]. split; [lia|]. split; [lia|]. exists 0. lia.
  - split; [lia|]. split; [lia|]. split; [lia|]. exists (m (a + 1)). lia.
Qed.

Lemma native_words n m a : mem_ok m -> native (word_sum n m a) (rfc_words n m a).
Proof.
  intros Hm. revert a. induction n as [|n IH]; intros a; cbn [word_sum rfc_words].
  - unfold native. do 3 (split; [lia|]). exists 0. destruct host_is_big_endian; lia.
  - apply native_add; [apply native_word, Hm|apply IH].
Qed.

Lemma native_sum m a length : mem_ok m -> native (buffer_sum m a length) (rfc_sum m a length).
Proof.
  intros Hm. apply native_add; [apply native_words, Hm|]. unfold odd_byte.
  pose proof (Hm (a + length - 1)) as H0. unfold is_byte in H0.
  destruct (negb _); unfold native; (do 3 (split; [destruct host_is_big_endian; lia|])); exists 0; destruct host_is_big_endian; lia.
Qed.

(** The halves of a 32-bit word in network byte order. *)
Lemma native_halves x : 0 <= x < 2 ^ 32 ->
  native (rfc_halves (Endian_hostToBigEndian32 x)) (rfc_halves x).
Proof.
  intros Hx. pose proof (hostToBigEndian32_range x Hx) as Hr. pose proof (store_be32 x Hx) as Es.
  assert (Endian_hostToBigEndian32 x = load 4 (write scratch 0 (be_split 4 x)) 0) as El.
  { rewrite <-Es, load_write_store. rewrite Z.mod_small by lia. done. }
  unfold load in El. rewrite (read_write_same _ 0 _ 4) in El by (rewrite length_be_split; done).
  assert (be_combine (be_split 4 x) = x) as Ex by (rewrite be_combine_split, Z.mod_small; lia).
  pose proof (be_split_ok 4 x) as Hok. pose proof (length_be_split 4 x) as Hlen. unfold native, rfc_halves.
  destruct (be_split 4 x) as [|b0 [|b1 [|b2 [|b3 []]]]]; try discriminate Hlen.
  repeat (apply Forall_cons_iff in Hok as [? Hok]). unfold is_byte in *.
  unfold be_combine in *. cbn [rev app le_combine] in El, Ex.
  generalize dependent (Endian_hostToBigEndian32 x). intros y Hy _ El.
  assert (x / 65536 = b1 + 256 * b0) as -> by (symmetry; apply (Z.div_unique x 65536 _ (b3 + 256 * b2)); lia).
  assert (x mod 65536 = b3 + 256 * b2) as -> by (symmetry; apply (Z.mod_unique x 65536 (b1 + 256 * b0)); lia).
  destruct host_is_big_endian.
  - rewrite Ex in El. subst y.
    assert (x / 65536 = b1 + 256 * b0) as -> by (symmetry; apply (Z.div_unique x 65536 _ (b3 + 256 * b2)); lia).
    assert (x mod 65536 = b3 + 256 * b2) as -> by (symmetry; apply (Z.mod_unique x 65536 (b1 + 256 * b0)); lia).
    do 3 (split; [lia|]). exists 0. lia.
  - assert (y / 65536 = b2 + 256 * b3) as -> by (symmetry; apply (Z.div_unique y 65536 _ (b0 + 256 * b1)); lia).
    assert (y mod 65536 = b0 + 256 * b1) as -> by (symmetry; apply (Z.mod_unique y 65536 (b2 + 256 * b3)); lia).
    do 3 (split; [lia|]). exists (b1 + b3). lia.
Qed.

(** The complement of a sum, as it lies in memory. *)
Lemma rfc_rep x r : 0 < x <= 65535 -> (exists k, x = r + 65535 * k) -> 1 + (r - 1) mod 65535 = x.
Proof.
  intros Hx [k ->]. rewrite <-(Z.mod_add (r - 1) k) by lia. rewrite Z.mod_small by lia. lia.
Qed.

Lemma native_complete s r : native s r -> s < 2 ^ 32 ->
  store 2 (Checksum_complete s) = be_split 2 (rfc_complement r).
Proof.
  intros (Hs & Hr & Hz & k & Hk) Hb. rewrite complete_spec by lia. unfold rfc_complement, store.
  destruct (fold_spec s ltac:(lia)) as (Hf & Em & Hp). set (f := Checksum_fold 3 s) in *.
  destruct (Z.eqb_spec r 0) as [Er|Er].
  { assert (f = 0) as -> by (unfold f; replace s with 0 by lia; done). destruct host_is_big_endian; done. }
  specialize (Hp ltac:(lia)).
  pose proof (Z.div_mod f 65535 ltac:(lia)) as Df. pose proof (Z.div_mod s 65535 ltac:(lia)) as Ds.
  destruct host_is_big_endian.
  - rewrite (rfc_rep f r) by (lia || (exists (f / 65535 - s / 65535 + k); lia)). done.
  - pose proof (Z.div_mod f 256 ltac:(lia)) as Dq. pose proof (Z.mod_pos_bound f 256 ltac:(lia)) as Hq.
    set (f0 := f mod 256) in *. set (f1 := f / 256) in *. assert (0 <= f1 < 256) by lia.
    rewrite (rfc_rep (256 * f0 + f1) r)
      by (lia || (exists (256 * (f / 65535) - 256 * (s / 65535) + k - f1); lia)).
    unfold be_split. cbn [le_split rev app]. unfold u8. change (2 ^ 8) with 256.
    assert ((65535 - f) / 256 = 255 - f1) as -> by (symmetry; apply (Z.div_unique _ 256 _ (255 - f0)); lia).
    assert ((65535 - f) mod 256 = 255 - f0) as -> by (symmetry; apply (Z.mod_unique _ 256 (255 - f1)); lia).
    assert ((65535 - (256 * f0 + f1)) / 256 = 255 - f0) as -> by (symmetry; apply (Z.div_unique _ 256 _ (255 - f1)); lia).
    assert ((65535 - (256 * f0 + f1)) mod 256 = 255 - f1) as -> by (symmetry; apply (Z.mod_unique _ 256 (255 - f0)); lia).
    rewrite !Z.mod_small by lia. done.
Qed.

Definition rfc_engine (m : mem) (a length : Z) : Z := rfc_complement (rfc_sum m a length).
Definition rfc_Ip6 (addrs : mem) (a : Z) (packet : mem) (b length type : Z) : Z :=
  rfc_complement (rfc_sum addrs a 32 + rfc_halves length + rfc_halves type + rfc_sum packet b length).

Lemma engine_rfc m a length : mem_ok m -> 0 <= length < 2 ^ 16 ->
  store 2 (Checksum_engine m a length) = be_split 2 (rfc_engine m a length).
Proof.
  intros Hm Hl. pose proof (buffer_sum_range m a length Hm Hl). unfold Checksum_engine.
  rewrite step_spec by (done || lia). apply native_complete; [apply native_sum, Hm|lia].
Qed.

Lemma Ip6_rfc addrs a packet b length type :
  mem_ok addrs -> mem_ok packet -> 0 <= length < 2 ^ 16 -> 0 <= type < 2 ^ 32 ->
  store 2 (Checksum_Ip6 addrs a packet b length (Endian_hostToBigEndian32 type)) =
  be_split 2 (rfc_Ip6 addrs a packet b length type).
Proof.
  intros Ha Hm Hl Ht. unfold Checksum_Ip6.
  pose proof (buffer_sum_range packet b length Hm Hl).
  pose proof (word_sum_range 16 addrs a Ha). assert (odd_byte addrs a 32 = 0) as E0 by done.
  assert (buffer_sum addrs a 32 = word_sum 16 addrs a + odd_byte addrs a 32) as E by done.
  rewrite (step_spec addrs) by (done || lia).
  assert (forall x state, 0 <= x < 2 ^ 32 -> 0 <= state < 2 ^ 31 ->
    Checksum_step32 x state = state + rfc_halves x /\ 0 <= rfc_halves x <= 131070) as H32.
  { intros x st Hx Hst. unfold Checksum_step32, rfc_halves. rewrite land_ffff, Z.shiftr_div_pow2 by lia.
    change (2 ^ 16) with 65536. pose proof (Z.mod_pos_bound x 65536 ltac:(lia)).
    pose proof (Z.div_pos x 65536 ltac:(lia) ltac:(lia)). pose proof (Z.div_lt_upper_bound x 65536 65536 ltac:(lia) ltac:(lia)).
    rewrite u32_small; lia. }
  destruct (H32 (Endian_hostToBigEndian32 length) (0 + buffer_sum addrs a 32)) as [-> R1];
    [apply hostToBigEndian32_range; lia|lia|].
  set (hl := rfc_halves (Endian_hostToBigEndian32 length)) in *.
  destruct (H32 (Endian_hostToBigEndian32 type) (0 + buffer_sum addrs a 32 + hl)) as [-> R2];
    [apply hostToBigEndian32_range; lia|lia|].
  rewrite (step_spec packet) by (done || lia).
  apply native_complete; [|lia]. rewrite Z.add_0_l.
  apply native_add; [|apply native_sum, Hm]. apply native_add; [|apply native_halves; lia].
  apply native_add; [apply native_sum, Ha|apply native_halves; lia].
Qed.

(** ** Properties *)

(** C35: the checksums are those of RFC 1071 on every host: what
    [Checksum_engine] and [Checksum_Ip6], which sum native 16-bit words, leave in
    memory are the two bytes, high byte first, of the complemented sum of the
    bytes in pairs (with the pseudo header of IPv6), whatever the host's byte
    order. So a packet that one host sums is accepted by every other. *)
Theorem Checksum_is_rfc1071 (addrs packet : mem) (a b length type : Z) :
  mem_ok addrs -> mem_ok packet -> 0 <= length < 2 ^ 16 -> 0 <= type < 2 ^ 32 ->
  store 2 (Checksum_engine packet b length) = be_split 2 (rfc_engine packet b length) /\
  store 2 (Checksum_Ip6 addrs a packet b length (Endian_hostToBigEndian32 type)) =
  be_split 2 (rfc_Ip6 addrs a packet b length type).
Proof. intros. split; [apply engine_rfc|apply Ip6_rfc]; done. Qed.

(** Take a buffer whose 16-bit checksum field, at any even offset, is zero,
    and store in that field the checksum of the buffer; the checksum of the
    result is zero. *)
Theorem Checksum_engine_verifies buffer a length k :
  mem_ok buffer -> 0 <= length < 2 ^ 16 -> 0 <= 2 * k -> 2 * k + 2 <= length ->
  load 2 buffer (a + 2 * k) = 0 ->
  Checksum_engine (write buffer (a + 2 * k) (store 2 (Checksum_engine buffer a length))) a length = 0.
Proof. apply engine_verifies. Qed.

(** The same for the checksum of a packet under an IPv6 header: once the
    checksum is stored in the packet's zeroed field, the receiver's
    [Checksum_Ip6] gives zero. *)
Theorem Checksum_Ip6_verifies addrs a packet b length packetType_be k :
  mem_ok addrs -> mem_ok packet -> 0 <= length < 2 ^ 16 -> 0 <= packetType_be < 2 ^ 32 ->
  0 <= 2 * k -> 2 * k + 2 <= length -> load 2 packet (b + 2 * k) = 0 ->
  Checksum_Ip6 addrs a
    (write packet (b + 2 * k) (store 2 (Checksum_Ip6 addrs a packet b length packetType_be)))
    b length packetType_be = 0.
Proof.
  intros Ha Hm Hl Ht Hk Hk' H0. unfold Checksum_Ip6.
  pose proof (word_sum_range 16 addrs a Ha). pose proof (odd_byte_range addrs a 32 Ha).
  assert (buffer_sum addrs a 32 = word_sum 16 addrs a + odd_byte addrs a 32) as E by done.
  rewrite (step_spec addrs) by (done || lia).
  assert (odd_byte addrs a 32 = 0) as E0 by done.
  destruct (step32_spec (Endian_hostToBigEndian32 length) (0 + buffer_sum addrs a 32)) as (s1 & -> & R1 & _);
    [apply hostToBigEndian32_range; lia|lia|].
  destruct (step32_spec packetType_be (0 + buffer_sum addrs a 32 + s1)) as (s2 & -> & R2 & _); [done|lia|].
  set (base := 0 + buffer_sum addrs a 32 + s1 + s2). assert (0 <= base < 2 ^ 21) as Hbase by lia.
  pose proof (buffer_sum_range packet b length Hm Hl).
  rewrite (step_spec packet) by (done || lia).
  set (c := Checksum_complete (base + buffer_sum packet b length)).
  assert (0 <= c < 2 ^ 16) as Hc by apply complete_range.
  rewrite step_spec by (try apply write_ok; auto using store_ok; lia).
  rewrite buffer_sum_set, Z.add_assoc by (done || lia). apply complete_self; lia.
Qed.
End checksum.

Lemma Checksum_is_rfc1071_witness :
  let l := of_list [0xfc; 0x12; 0x45; 0xff; 0x10] in
  @store x86 2 (@Checksum_engine x86 l 0 5) = [0xad; 0xed] /\
  @store x86 2 (@Checksum_Ip6 x86 l 0 l 0 5 (@Endian_hostToBigEndian32 x86 58)) = be_split 2 (rfc_Ip6 l 0 l 0 5 58).
Proof.
  destruct (@Checksum_is_rfc1071 x86 (of_list [0xfc; 0x12; 0x45; 0xff; 0x10]) (of_list [0xfc; 0x12; 0x45; 0xff; 0x10])
    0 0 5 58) as [E1 E2]; [apply of_list_ok; by apply bytes_ok_check|apply of_list_ok; by apply bytes_ok_check|lia|lia|].
  split; [rewrite E1; vm_compute; reflexivity|exact E2].
Defined.

Lemma Checksum_engine_verifies_witness :
  let buffer := of_list [0x00; 0x00; 0x45; 0xff; 0x10] in
  @Checksum_engine x86 (write buffer 0 (@store x86 2 (@Checksum_engine x86 buffer 0 5))) 0 5 = 0.
Proof.
  apply (@Checksum_engine_verifies x86 (of_list [0x00; 0x00; 0x45; 0xff; 0x10]) 0 5 0).
  - apply of_list_ok. repeat constructor; unfold is_byte; lia.
  - lia.
  - lia.
  - lia.
  - reflexivity.
Defined.

Lemma Checksum_Ip6_verifies_witness :
  let addrs := of_list (repeat 0xfc 32) in
  let packet := of_list [1; 2; 3; 4; 0; 8; 0; 0] in
  @Checksum_Ip6 x86 addrs 0
    (write packet (0 + 2 * 3) (@store x86 2 (@Checksum_Ip6 x86 addrs 0 packet 0 8 (2 ^ 24 * 17))))
    0 8 (2 ^ 24 * 17) = 0.
Proof.
  apply (@Checksum_Ip6_verifies x86 (of_list (repeat 0xfc 32)) 0 (of_list [1; 2; 3; 4; 0; 8; 0; 0]) 0 8 (2 ^ 24 * 17) 3).
  - apply of_list_ok. repeat constructor; unfold is_byte; lia.
  - apply of_list_ok. repeat constructor; unfold is_byte; lia.
  - lia.
  - lia.
  - lia.
  - lia.
  - reflexivity.
Defined.
