(* ===== verification/AddrTools.v ===== *)
(** * Printed addresses (util/AddrTools.h)

    Switch labels as "0000.1111.2222.3333", IPv6 addresses in full form and
    Ethernet MAC addresses. Labels and MAC addresses are parsed here too; IPv6
    parsing goes through the Sockaddr library of the platform and is not
    modelled. *)
From S2P Require Import Prelude Memory Endian Hex.

(** Consecutive assignments [out[0] = ...; out[1] = ...; ...] are one [write]. *)
Section addrtools.
  Context {P : Platform}.

Definition AddrTools_printPath (out : mem) (path : Z) : mem :=
  let path_be := Endian_hostToBigEndian64 path in
  let '(bytes, _) := Hex_encode scratch 16 (write scratch 0 (store 8 path_be)) 8 in
  write out 0
    ([bytes 0; bytes 1; bytes 2; bytes 3] ++ chars "." ++
     [bytes 4; bytes 5; bytes 6; bytes 7] ++ chars "." ++
     [bytes 8; bytes 9; bytes 10; bytes 11] ++ chars "." ++
     [bytes 12; bytes 13; bytes 14; bytes 15] ++ [0]).

(** [None] is the return value -1, [Some path] is 0 with [*out = path]. *)
Definition AddrTools_parsePath (netAddr : mem) : option Z :=
  if negb (netAddr 4 =? 46) || negb (netAddr 9 =? 46) || negb (netAddr 14 =? 46) then None
  else
    let hex := of_list
      [netAddr 0; netAddr 1; netAddr 2; netAddr 3;
       netAddr 5; netAddr 6; netAddr 7; netAddr 8;
       netAddr 10; netAddr 11; netAddr 12; netAddr 13;
       netAddr 15; netAddr 16; netAddr 17; netAddr 18] in
    let '(numberBytes, r) := Hex_decode scratch 8 hex 16 in
    if negb (r =? 8) then None
    else
      let out_be := load 8 numberBytes 0 in
      Some (Endian_bigEndianToHost64 out_be).

Definition AddrTools_printIp (output : mem) (binIp : mem) : mem :=
  let '(hex, _) := Hex_encode scratch 32 binIp 16 in
  write output 0
    ([hex 0; hex 1; hex 2; hex 3] ++ chars ":" ++
     [hex 4; hex 5; hex 6; hex 7] ++ chars ":" ++
     [hex 8; hex 9; hex 10; hex 11] ++ chars ":" ++
     [hex 12; hex 13; hex 14; hex 15] ++ chars ":" ++
     [hex 16; hex 17; hex 18; hex 19] ++ chars ":" ++
     [hex 20; hex 21; hex 22; hex 23] ++ chars ":" ++
     [hex 24; hex 25; hex 26; hex 27] ++ chars ":" ++
     [hex 28; hex 29; hex 30; hex 31] ++ [0]).

(** The first loop tests [i = 2, 5, 8, 11, 14]; the second copies two digits
    and skips one character, from [i = 0, 3, ..., 15]. The output buffer is
    returned with the result code, since a failed decode may have written to
    it. *)
Definition AddrTools_parseMac (out : mem) (hexAddr : mem) : mem * Z :=
  match for_until 5 0 (fun k (_ : unit) =>
          let i := 2 + 3 * k in
          if negb (hexAddr i =? 58) then inr tt else inl tt) tt with
  | inr _ => (out, -1)
  | inl _ =>
      let hex := for_loop 6 0 (fun k hex =>
        let i := 3 * k in
        let j := 2 * k in
        let hex := set hex j (hexAddr i) in
        set hex (j + 1) (hexAddr (i + 1))) scratch in
      let '(out, r) := Hex_decode out 6 hex 12 in
      if negb (r =? 6) then (out, -1) else (out, 0)
  end.

Definition AddrTools_printMac (output : mem) (binMac : mem) : mem :=
  let '(hex, _) := Hex_encode scratch 12 binMac 6 in
  write output 0
    ([hex 0; hex 1] ++ chars ":" ++ [hex 2; hex 3] ++ chars ":" ++
     [hex 4; hex 5] ++ chars ":" ++ [hex 6; hex 7] ++ chars ":" ++
     [hex 8; hex 9] ++ chars ":" ++ [hex 10; hex 11] ++ [0]).

(** ** Lemmas *)

(** What [Hex_encode] gives for a buffer of exactly the right size. *)
Lemma encode_fits input n hex r :
  0 <= n < 2 ^ 30 -> Hex_encode scratch (2 * n) input n = (hex, r) -> encoded_upto n input hex.
Proof.
  intros Hn E. pose proof (hex_encode_spec scratch (2 * n) input n Hn ltac:(lia)) as H.
  rewrite E in H. tauto.
Qed.

Lemma encoded_ext n input hex hex' :
  (forall i, 0 <= i < 2 * n -> hex' i = hex i) -> encoded_upto n input hex -> encoded_upto n input hex'.
Proof.
  intros Hx He k Hk. rewrite !Hx by lia. apply He, Hk.
Qed.
End addrtools.

(** ** Properties *)
Section properties.
  Context {P : Platform}.

(** A printed label parses to the same label, whatever was in the output
    buffer; the text is NUL-terminated. *)
Theorem AddrTools_parsePath_printPath out path :
  0 <= path < 2 ^ 64 ->
  AddrTools_parsePath (AddrTools_printPath out path) = Some path
  /\ AddrTools_printPath out path 19 = 0.
Proof.
  intros Hp. unfold AddrTools_printPath.
  destruct (Hex_encode _ _ _ _) as [bytes r] eqn:E. apply (encode_fits _ 8) in E; [|lia].
  set (input := write scratch 0 _) in E.
  assert (mem_ok input) as Hin.
  { apply write_ok; [apply of_list_ok; constructor|apply store_ok]. }
  split; [|reflexivity]. unfold AddrTools_parsePath.
  match goal with |- context [Hex_decode _ _ ?h _] => set (hex := h) end.
  assert (encoded_upto 8 input hex) as He.
  { apply (encoded_ext 8 _ bytes); [|done].
    apply (forall_list_spec 16 0). repeat split. }
  pose proof (decode_encoded scratch hex input 8 Hin ltac:(lia) He) as H.
  change (2 * 8) with 16 in H. destruct (Hex_decode _ _ _ _) as [numberBytes r'].
  destruct H as [-> Hr]. cbn -[Endian_bigEndianToHost64 load].
  rewrite (load_read 8 _ input 0 0) by done. unfold input.
  rewrite load_write_store, Z.mod_small by (apply hostToBigEndian64_range; done).
  rewrite bigEndianToHost64_host by done. done.
Qed.

(** A printed MAC address parses to the same six bytes. *)
Theorem AddrTools_parseMac_printMac out1 out2 binMac :
  mem_ok binMac ->
  let '(mac, r) := AddrTools_parseMac out2 (AddrTools_printMac out1 binMac) in
  r = 0 /\ read mac 0 6 = read binMac 0 6.
Proof.
  intros Hin. unfold AddrTools_printMac.
  destruct (Hex_encode _ _ _ _) as [hex r] eqn:E. apply (encode_fits _ 6) in E; [|lia].
  unfold AddrTools_parseMac. cbn [for_until].
  match goal with |- context [write out1 0 ?l] => set (text := write out1 0 l) end.
  change (text (2 + 3 * 0)) with 58. change (text (2 + 3 * (0 + 1))) with 58.
  change (text (2 + 3 * (0 + 1 + 1))) with 58. change (text (2 + 3 * (0 + 1 + 1 + 1))) with 58.
  change (text (2 + 3 * (0 + 1 + 1 + 1 + 1))) with 58. cbn [Z.eqb Pos.eqb negb].
  match goal with |- context [Hex_decode _ _ ?h _] => set (hex' := h) end.
  assert (encoded_upto 6 binMac hex') as He.
  { apply (encoded_ext 6 _ hex); [|done]. apply (forall_list_spec 12 0). repeat split. }
  pose proof (decode_encoded out2 hex' binMac 6 Hin ltac:(lia) He) as H.
  change (2 * 6) with 12 in H. destruct (Hex_decode _ _ _ _) as [mac r'].
  destruct H as [-> Hr]. done.
Qed.
End properties.

Lemma AddrTools_parsePath_printPath_witness :
  @AddrTools_parsePath x86 (@AddrTools_printPath x86 scratch 0x15) = Some 0x15
  /\ @AddrTools_printPath x86 scratch 0x15 19 = 0.
Proof. apply (@AddrTools_parsePath_printPath x86 scratch 0x15). lia. Defined.

Lemma AddrTools_parseMac_printMac_witness :
  let '(mac, r) := AddrTools_parseMac scratch (AddrTools_printMac scratch (of_list [0; 17; 34; 51; 68; 255])) in
  r = 0 /\ read mac 0 6 = read (of_list [0; 17; 34; 51; 68; 255]) 0 6.
Proof.
  apply (AddrTools_parseMac_printMac scratch scratch (of_list [0; 17; 34; 51; 68; 255])).
  apply of_list_ok. repeat constructor; unfold is_byte; lia.
Defined.
