(* ===== verification/ReplayProtector.v ===== *)
(** * Replay protection (crypto/ReplayProtector.h)

    A sliding window over counter nonces: [baseOffset] is the lowest nonce the
    window still tracks and bit [i] of [bitfield] says that [baseOffset + i] was
    seen. The abstract specification remembers every accepted nonce; the window
    is proved to give the same answers for every sequence of nonces. *)
From S2P Require Import Prelude.

Record ReplayProtector := { baseOffset : Z; bitfield : Z }.

(** The answer and the context after the call. *)
Definition ReplayProtector_checkNonce (nonce : Z) (context : ReplayProtector) : bool * ReplayProtector :=
  if nonce <? context.(baseOffset) then (false, context)
  else
    let offset := u32 (nonce - context.(baseOffset)) in
    if 20 <? offset then
      (true, {| baseOffset := u32 (context.(baseOffset) + (offset - 20));
                bitfield := (if 51 <? offset then 0 else context.(bitfield) >> (offset - 20)) .| (1 << 20) |})
    else if negb (context.(bitfield) .& (1 << offset) =? 0) then (false, context)
    else (true, {| baseOffset := context.(baseOffset);
                   bitfield := context.(bitfield) .| (1 << offset) |}).

(** The context of a new session (CryptoAuth.c zeroes it). *)
Definition ReplayProtector_new : ReplayProtector := {| baseOffset := 0; bitfield := 0 |}.

(** Check the nonces one after the other; the answers, in order. *)
Fixpoint checkNonces (nonces : list Z) (context : ReplayProtector) : list bool :=
  match nonces with
  | [] => []
  | nonce :: rest =>
      let '(ok, context) := ReplayProtector_checkNonce nonce context in
      ok :: checkNonces rest context
  end.

(** ** Specification: the set of accepted nonces, and the highest of them *)
Definition spec_check (nonce : Z) (accepted : list Z) : bool :=
  let highest := foldr Z.max 0 accepted in
  (highest - 20 <=? nonce) && negb (bool_decide (nonce ∈ accepted)).

Fixpoint spec_checks (nonces : list Z) (accepted : list Z) : list bool :=
  match nonces with
  | [] => []
  | nonce :: rest =>
      let ok := spec_check nonce accepted in
      ok :: spec_checks rest (if ok then nonce :: accepted else accepted)
  end.

(** The window represents the accepted nonces. *)
Record tracks (accepted : list Z) (c : ReplayProtector) : Prop := {
  tracks_base : c.(baseOffset) = Z.max 0 (foldr Z.max 0 accepted - 20);
  tracks_bound : 0 <= c.(bitfield);
  tracks_u32 : forall n, n ∈ accepted -> 0 <= n < 2 ^ 32;
  tracks_bit : forall i, 0 <= i -> Z.testbit c.(bitfield) i = bool_decide (c.(baseOffset) + i ∈ accepted)
}.

Lemma foldr_max_le accepted n : n ∈ accepted -> n <= foldr Z.max 0 accepted.
Proof. induction 1 as [n l|n m l _ IH]; cbn [foldr]; lia. Qed.

Lemma foldr_max_pos accepted : 0 <= foldr Z.max 0 accepted.
Proof. induction accepted; cbn [foldr]; lia. Qed.

Lemma foldr_max_u32 accepted :
  (forall n, n ∈ accepted -> 0 <= n < 2 ^ 32) -> foldr Z.max 0 accepted < 2 ^ 32.
Proof.
  induction accepted as [|n l IH]; intros H; cbn [foldr]; [lia|].
  specialize (IH (fun m Hm => H m (list_elem_of_further m n l Hm))).
  specialize (H n (list_elem_of_here n l)). lia.
Qed.

Lemma and_bit_zero b offset : 0 <= offset -> (b .& (1 << offset) =? 0) = negb (Z.testbit b offset).
Proof.
  intros Ho. destruct (Z.testbit b offset) eqn:E; cbn [negb].
  - apply Z.eqb_neq. intros H. apply (f_equal (fun z => Z.testbit z offset)) in H.
    rewrite Z.land_spec, Z.shiftl_spec, Z.sub_diag, E, Z.bits_0 in H by lia. done.
  - apply Z.eqb_eq. apply Z.bits_inj'. intros i Hi. rewrite Z.land_spec, Z.shiftl_spec, Z.bits_0 by lia.
    destruct (decide (i = offset)) as [->|]; [rewrite E; done|].
    destruct (decide (i < offset)); [rewrite (Z.testbit_neg_r 1) by lia; apply andb_false_r|].
    rewrite (testbit_high 1 1) by lia. apply andb_false_r.
Qed.

Lemma lor_bit_spec b offset i : 0 <= i -> 0 <= offset ->
  Z.testbit (b .| (1 << offset)) i = Z.testbit b i || (i =? offset).
Proof.
  intros Hi Ho. rewrite Z.lor_spec, Z.shiftl_spec by lia. f_equal.
  destruct (Z.eqb_spec i offset) as [->|]; [rewrite Z.sub_diag; done|].
  destruct (decide (i < offset)); [apply Z.testbit_neg_r; lia|]. apply (testbit_high 1 1); lia.
Qed.

Lemma tracks_new : tracks [] ReplayProtector_new.
Proof.
  split; cbn; try done; intros.
  - inversion H.
  - rewrite Z.testbit_0_l. symmetry. apply bool_decide_eq_false. intros H'. inversion H'.
Qed.

(** One call answers as the specification, and keeps the correspondence. *)
Lemma checkNonce_refines nonce accepted c :
  0 <= nonce < 2 ^ 32 -> tracks accepted c ->
  let '(ok, c') := ReplayProtector_checkNonce nonce c in
  ok = spec_check nonce accepted /\ tracks (if ok then nonce :: accepted else accepted) c'.
Proof.
  intros Hn [Hbase Hb0 Hu32 Hbit]. unfold ReplayProtector_checkNonce, spec_check.
  pose proof (foldr_max_pos accepted) as Hpos. pose proof (foldr_max_u32 accepted Hu32) as Hmax.
  set (highest := foldr Z.max 0 accepted) in *.
  destruct (Z.ltb_spec nonce c.(baseOffset)) as [Hlt|Hge].
  { destruct (Z.leb_spec (highest - 20) nonce); [lia|]. split; [done|]. split; done. }
  rewrite (u32_small (nonce - _)) by lia. set (offset := nonce - c.(baseOffset)).
  assert (nonce = c.(baseOffset) + offset) as En by lia.
  destruct (Z.leb_spec (highest - 20) nonce) as [Hh|]; [|lia]. cbn [andb].
  destruct (Z.ltb_spec 20 offset) as [Hfar|Hnear].
  - assert (nonce ∉ accepted) as Hnew by (intros Hin%foldr_max_le; lia).
    rewrite bool_decide_eq_false_2 by done. split; [done|].
    rewrite u32_small by lia. split; cbn [baseOffset bitfield foldr].
    + lia.
    + apply Z.lor_nonneg. split; [|done]. destruct (51 <? offset); [lia|apply Z.shiftr_nonneg; done].
    + intros n [->|Hin]%elem_of_cons; auto.
    + intros i Hi. rewrite lor_bit_spec by lia.
      assert (Z.testbit (if 51 <? offset then 0 else c.(bitfield) >> (offset - 20)) i
              = bool_decide (c.(baseOffset) + (offset - 20) + i ∈ accepted)) as ->.
      { destruct (Z.ltb_spec 51 offset).
        - rewrite Z.bits_0. symmetry. apply bool_decide_eq_false. intros Hin%foldr_max_le. lia.
        - rewrite Z.shiftr_spec, Hbit by lia. apply bool_decide_ext. f_equiv. lia. }
      apply eq_true_iff_eq. rewrite orb_true_iff, !bool_decide_eq_true, elem_of_cons, Z.eqb_eq.
      split; [intros [H|H]; [right|left; lia]; exact H|intros [H|H]; [right; lia|left; exact H]].
  - rewrite and_bit_zero, negb_involutive, Hbit by lia. rewrite <-En.
    case_bool_decide as Hin; cbn [negb]; (split; [done|]); split; try done; cbn [baseOffset bitfield foldr].
    + lia.
    + apply Z.lor_nonneg. split; [done|apply Z.shiftl_nonneg; lia].
    + intros n [->|Hn']%elem_of_cons; auto.
    + intros i Hi. rewrite lor_bit_spec, Hbit by lia.
      apply eq_true_iff_eq. rewrite orb_true_iff, !bool_decide_eq_true, elem_of_cons, Z.eqb_eq.
      split; [intros [H|H]; [right; exact H|left; lia]|intros [H|H]; [right; lia|left; exact H]].
Qed.

(** ** Properties *)

(** C28: for every sequence of 32-bit nonces the window of a new session gives
    the answers of the specification, which remembers every accepted nonce: a
    nonce passes exactly when it was not accepted before and is at most 20
    below the highest accepted one. *)
Theorem checkNonces_spec nonces :
  Forall (fun n => 0 <= n < 2 ^ 32) nonces ->
  checkNonces nonces ReplayProtector_new = spec_checks nonces [].
Proof.
  generalize tracks_new. generalize ReplayProtector_new as c. generalize (@nil Z) as accepted.
  induction nonces as [|n rest IH]; intros accepted c Ht Hall; [done|]. cbn [checkNonces spec_checks].
  inversion Hall as [|? ? Hn Hrest]; subst. pose proof (checkNonce_refines n accepted c Hn Ht) as H.
  destruct (ReplayProtector_checkNonce n c) as [ok c']. destruct H as [<- Ht'].
  f_equal. apply IH; done.
Qed.

(** No nonce is accepted twice in a session. *)
Theorem checkNonces_no_replay nonces i j n :
  Forall (fun n => 0 <= n < 2 ^ 32) nonces -> (i < j)%nat ->
  nonces !! i = Some n -> nonces !! j = Some n ->
  checkNonces nonces ReplayProtector_new !! i = Some true ->
  checkNonces nonces ReplayProtector_new !! j = Some false.
Proof.
  generalize tracks_new. generalize ReplayProtector_new as c. generalize (@nil Z) as accepted.
  assert (forall rest accepted c j, Forall (fun n => 0 <= n < 2 ^ 32) rest -> tracks accepted c ->
    n ∈ accepted -> rest !! j = Some n -> checkNonces rest c !! j = Some false) as Hseen.
  { clear. induction rest as [|m rest IH]; intros accepted c j Hall Ht Hin Hj; [done|].
    inversion Hall as [|? ? Hm Hrest]; subst. cbn [checkNonces].
    pose proof (checkNonce_refines m accepted c Hm Ht) as H.
    destruct (ReplayProtector_checkNonce m c) as [ok c']. destruct H as [Hok Ht'].
    destruct j as [|j]; cbn [lookup list_lookup] in *.
    - injection Hj as ->. rewrite Hok. unfold spec_check. rewrite bool_decide_eq_true_2 by done.
      rewrite andb_false_r. done.
    - apply (IH _ _ j Hrest Ht'); [|done]. destruct ok; [right|]; done. }
  revert i j. induction nonces as [|m rest IH]; intros i j accepted c Ht Hall Hij Hi Hj; [done|].
  inversion Hall as [|? ? Hm Hrest]; subst. cbn [checkNonces].
  pose proof (checkNonce_refines m accepted c Hm Ht) as H.
  destruct (ReplayProtector_checkNonce m c) as [ok c']. destruct H as [_ Ht'].
  destruct j as [|j]; [lia|]. destruct i as [|i]; cbn [lookup list_lookup] in *; intros Hacc.
  - injection Hi as ->. injection Hacc as ->. apply (Hseen rest _ c' j Hrest Ht'); [left|done].
  - apply (IH i j _ c' Ht'); [done|lia|done..].
Qed.

Lemma checkNonces_spec_witness :
  checkNonces [4; 70; 50; 49; 50; 4294967295] ReplayProtector_new
  = spec_checks [4; 70; 50; 49; 50; 4294967295] [].
Proof. apply (checkNonces_spec [4; 70; 50; 49; 50; 4294967295]). repeat constructor; lia. Defined.

Lemma checkNonces_no_replay_witness :
  checkNonces [4; 70; 50; 49; 50] ReplayProtector_new !! 4%nat = Some false.
Proof.
  apply (checkNonces_no_replay [4; 70; 50; 49; 50] 2 4 50);
    [repeat constructor; lia|lia|reflexivity|reflexivity|reflexivity].
Defined.
