(* ===== verification/NumberCompress.v ===== *)
(** * Compressed interface numbers (switch/NumberCompress.h)

    The three encodings of an interface number in the low bits of a label, and
    the one the build selects from CJDNS_MAX_PEERS. A [Scheme] is the public
    interface of the header; [SchemeLaws] is what the switch and the label
    splicer rely on, proved of the three encodings and so of the selected one. *)
From S2P Require Import Prelude.

(** ** Fixed 4 bit scheme *)
Definition NumberCompress_4_INTERFACES : Z := 16.
Definition NumberCompress_4_bitsUsedForLabel (label : Z) : Z := 4.
Definition NumberCompress_4_bitsUsedForNumber (number : Z) : Z := 4.
Definition NumberCompress_4_getCompressed (number bitsUsed : Z) : Z := number.
Definition NumberCompress_4_getDecompressed (label bitsUsed : Z) : Z := label .& 0xf.

(** ** 8 bit scheme *)
Definition NumberCompress_8_INTERFACES : Z := 241.
Definition NumberCompress_8_bitsUsedForLabel (label : Z) : Z :=
  if 1 =? (label .& 0xf) then 4 else 8.
Definition NumberCompress_8_bitsUsedForNumber (number : Z) : Z :=
  if 1 =? number then 4 else 8.

Definition NumberCompress_8_getCompressed (number bitsUsed : Z) : Z :=
  if 1 =? number then 1
  else if 240 =? number then 0x10
  else
    let low := number .& 0xf in
    let high := (number >> 4) .& 0xf in
    let high := if 0 <? high then high + 1 else high in
    u32 ((low << 4) + high).

Definition NumberCompress_8_getDecompressed (label bitsUsed : Z) : Z :=
  let low := label .& 0xf in
  if 1 =? low then 1
  else if 0x10 =? (label .& 0xff) then 240
  else
    let high := (label >> 4) .& 0xf in
    let low := if 0 <? low then low - 1 else low in
    u32 ((low << 4) + high).

(** ** Dynamic scheme: 4, 7 or 10 bits *)
Definition NumberCompress_dyn_INTERFACES : Z := 257.

Definition NumberCompress_dyn_bitsUsedForLabel (label : Z) : Z :=
  if negb (0 =? (label .& 0x1)) then 4
  else if negb (0 =? (label .& 0x2)) then 7
  else 10.

Definition NumberCompress_dyn_bitsUsedForNumber (number : Z) : Z :=
  if number <? 8 then 4 else if number <? 33 then 7 else 10.

Definition NumberCompress_dyn_getCompressed (number bitsUsed : Z) : Z :=
  if 1 =? number then 1
  else if bitsUsed =? 4 then
    if 0 =? number then 3 else u32 (number << 1) .| 1
  else if bitsUsed =? 7 then
    if 0 =? number then 2 else u32 (u32 (number - 1) << 2) .| 2
  else if bitsUsed =? 10 then
    if 0 =? number then 0 else u32 (u32 (number - 1) << 2)
  else 0.

Definition NumberCompress_dyn_getDecompressed (label bitsUsed : Z) : Z :=
  if bitsUsed =? 4 then
    let number := (label >> 1) .& 0x7 in
    if 0 =? number then 1 else if 1 =? number then 0 else number
  else if bitsUsed =? 7 then
    let number := (label >> 2) .& 0x1f in
    if negb (0 =? number) then number + 1 else number
  else if bitsUsed =? 10 then
    let number := (label >> 2) .& 0xff in
    if negb (0 =? number) then number + 1 else number
  else 0.

(** ** The selected implementation *)
Record Scheme := {
  INTERFACES : Z;
  bitsUsedForLabel : Z -> Z;
  bitsUsedForNumber : Z -> Z;
  getCompressed : Z -> Z -> Z;
  getDecompressed : Z -> Z -> Z
}.

Definition NumberCompress_4 : Scheme :=
  {| INTERFACES := NumberCompress_4_INTERFACES;
     bitsUsedForLabel := NumberCompress_4_bitsUsedForLabel;
     bitsUsedForNumber := NumberCompress_4_bitsUsedForNumber;
     getCompressed := NumberCompress_4_getCompressed;
     getDecompressed := NumberCompress_4_getDecompressed |}.

Definition NumberCompress_8 : Scheme :=
  {| INTERFACES := NumberCompress_8_INTERFACES;
     bitsUsedForLabel := NumberCompress_8_bitsUsedForLabel;
     bitsUsedForNumber := NumberCompress_8_bitsUsedForNumber;
     getCompressed := NumberCompress_8_getCompressed;
     getDecompressed := NumberCompress_8_getDecompressed |}.

Definition NumberCompress_dyn : Scheme :=
  {| INTERFACES := NumberCompress_dyn_INTERFACES;
     bitsUsedForLabel := NumberCompress_dyn_bitsUsedForLabel;
     bitsUsedForNumber := NumberCompress_dyn_bitsUsedForNumber;
     getCompressed := NumberCompress_dyn_getCompressed;
     getDecompressed := NumberCompress_dyn_getDecompressed |}.

Section selected.
  Context {P : Platform}.

Definition NumberCompress : Scheme :=
  if CJDNS_MAX_PEERS <? 16 then NumberCompress_4
  else if CJDNS_MAX_PEERS <? 241 then NumberCompress_8
  else NumberCompress_dyn.

Definition NumberCompress_INTERFACES : Z := INTERFACES NumberCompress.
Definition NumberCompress_bitsUsedForLabel (label : Z) : Z := bitsUsedForLabel NumberCompress label.
Definition NumberCompress_bitsUsedForNumber (number : Z) : Z := bitsUsedForNumber NumberCompress number.
Definition NumberCompress_getCompressed (number bitsUsed : Z) : Z :=
  getCompressed NumberCompress number bitsUsed.
Definition NumberCompress_getDecompressed (label bitsUsed : Z) : Z :=
  getDecompressed NumberCompress label bitsUsed.
End selected.

(** ** What a scheme promises

    A label is any number; only its low bits matter. *)
Class SchemeLaws (s : Scheme) : Prop := {
  interfaces_range : 16 <= INTERFACES s <= 257;
  (** The width found in a label. *)
  bits_range : forall label, 4 <= bitsUsedForLabel s label <= 10;
  decompressed_range : forall label,
    0 <= getDecompressed s label (bitsUsedForLabel s label) < INTERFACES s;
  (** Compressing what a label says gives back the label's low bits. *)
  compress_decompress : forall label,
    let bits := bitsUsedForLabel s label in
    getCompressed s (getDecompressed s label bits) bits = label mod 2 ^ bits;
  (** A compressed number in the low bits of a label is found there. *)
  decompress_compress : forall number label,
    0 <= number < INTERFACES s ->
    let bits := bitsUsedForNumber s number in
    label mod 2 ^ bits = getCompressed s number bits ->
    bitsUsedForLabel s label = bits /\ getDecompressed s label bits = number;
  compressed_range : forall number,
    0 <= number < INTERFACES s ->
    0 <= getCompressed s number (bitsUsedForNumber s number) < 2 ^ bitsUsedForNumber s number;
  number_bits_range : forall number, 4 <= bitsUsedForNumber s number <= 10;
  (** Number 1 is the label 0001 and no other. *)
  one_iff : forall label,
    getDecompressed s label (bitsUsedForLabel s label) = 1 <-> label mod 16 = 1;
  one_bits : forall label, label mod 16 = 1 -> bitsUsedForLabel s label = 4;
  one_compressed : forall bits, getCompressed s 1 bits = 1;
  (** A number other than 1 can be written with the width of any label that is
      not narrower than the number needs, and a label is never narrower than the
      number it names needs. *)
  number_bits_min : forall label,
    bitsUsedForNumber s (getDecompressed s label (bitsUsedForLabel s label)) <= bitsUsedForLabel s label;
  fits : forall number asking label,
    let bits := bitsUsedForLabel s asking in
    0 <= number < INTERFACES s -> bitsUsedForNumber s number <= bits -> number <> 1 ->
    0 <= getCompressed s number bits < 2 ^ bits
    /\ (label mod 2 ^ bits = getCompressed s number bits ->
        bitsUsedForLabel s label = bits /\ getDecompressed s label bits = number)
}.

(** ** Checking a scheme by evaluation

    Every function of a scheme reads only the low ten bits of a label. *)
Record low_bits_only (s : Scheme) : Prop := {
  low_bits : forall label, bitsUsedForLabel s label = bitsUsedForLabel s (label mod 1024);
  low_number : forall label bits, getDecompressed s label bits = getDecompressed s (label mod 1024) bits
}.

Lemma land_low n label mask :
  0 <= n -> 0 <= mask < 2 ^ n -> label .& mask = (label mod 2 ^ n) .& mask.
Proof.
  intros Hn Hm. rewrite <-Z.land_ones, <-Z.land_assoc by done. f_equal.
  rewrite Z.land_comm, Z.land_ones, Z.mod_small by done. done.
Qed.

Lemma shiftr_land_low k label mask :
  0 <= k <= 10 -> 0 <= mask < 2 ^ (10 - k) ->
  (label >> k) .& mask = ((label mod 1024) >> k) .& mask.
Proof.
  intros Hk Hm. rewrite (land_low (10 - k)), (land_low (10 - k) (_ mod 1024 >> k)) by lia. f_equal.
  apply Z.bits_inj'. intros i Hi. rewrite !testbit_mod, !Z.shiftr_spec by lia.
  change 1024 with (2 ^ 10). rewrite testbit_mod by lia.
  destruct (Z.ltb_spec i (10 - k)), (Z.ltb_spec (i + k) 10); lia || done.
Qed.

Lemma low_bits_4 : low_bits_only NumberCompress_4.
Proof. split; intros; [done|]. apply (land_low 10); lia. Qed.
Lemma low_bits_8 : low_bits_only NumberCompress_8.
Proof.
  split; intros; cbn; unfold NumberCompress_8_bitsUsedForLabel, NumberCompress_8_getDecompressed;
    change 1024 with (2 ^ 10);
    rewrite (land_low 10 label 0xf), ?(land_low 10 label 0xff), ?(shiftr_land_low 4 label 0xf) by lia; done.
Qed.
Lemma low_bits_dyn : low_bits_only NumberCompress_dyn.
Proof.
  split; intros; cbn; unfold NumberCompress_dyn_bitsUsedForLabel, NumberCompress_dyn_getDecompressed;
    change 1024 with (2 ^ 10).
  - rewrite (land_low 10 label 1), (land_low 10 label 2) by lia. done.
  - rewrite (shiftr_land_low 1 label 7), (shiftr_land_low 2 label 0x1f), (shiftr_land_low 2 label 0xff) by lia. done.
Qed.

Definition in_range (lo x hi : Z) : bool := (lo <=? x) && (x <=? hi).

(** The laws about one label. *)
Definition label_check (s : Scheme) (label : Z) : bool :=
  let bits := bitsUsedForLabel s label in
  let number := getDecompressed s label bits in
  in_range 4 bits 10 && in_range 0 number (INTERFACES s - 1)
  && (getCompressed s number bits =? label mod 2 ^ bits)
  && Bool.eqb (number =? 1) (label mod 16 =? 1)
  && (negb (label mod 16 =? 1) || (bits =? 4)) && (bitsUsedForNumber s number <=? bits).

(** [compressed] of [bits] bits is read as [number] whatever is above it. *)
Definition found_check (s : Scheme) (number bits compressed : Z) : bool :=
  in_range 0 compressed (2 ^ bits - 1)
  && forall_below (Z.to_nat (2 ^ (10 - bits))) (fun rest =>
       let label := compressed + rest * 2 ^ bits in
       (bitsUsedForLabel s label =? bits) && (getDecompressed s label bits =? number)).

Definition number_check (s : Scheme) (number : Z) : bool :=
  let bits := bitsUsedForNumber s number in
  in_range 4 bits 10 && found_check s number bits (getCompressed s number bits).

Definition widths (s : Scheme) : list Z :=
  filter (fun bits => existsb (fun l => bitsUsedForLabel s (Z.of_nat l) =? bits) (seq 0 1024)) [4; 5; 6; 7; 8; 9; 10].

Definition fits_check (s : Scheme) (bits number : Z) : bool :=
  (bits <? bitsUsedForNumber s number) || (number =? 1)
  || found_check s number bits (getCompressed s number bits).

Definition scheme_check (s : Scheme) : bool :=
  in_range 16 (INTERFACES s) 257 && forall_below 1024 (label_check s)
  && forall_below (Z.to_nat (INTERFACES s)) (number_check s)
  && forallb (fun bits => forall_below (Z.to_nat (INTERFACES s)) (fits_check s bits)) (widths s).

Lemma in_range_spec lo x hi : in_range lo x hi = true <-> lo <= x <= hi.
Proof. unfold in_range. rewrite andb_true_iff, !Z.leb_le. done. Qed.

Section check.
  Context (s : Scheme) (Hlow : low_bits_only s) (Hcheck : scheme_check s = true).

Lemma found_spec number bits compressed label :
  4 <= bits <= 10 -> found_check s number bits compressed = true ->
  label mod 2 ^ bits = compressed ->
  bitsUsedForLabel s label = bits /\ getDecompressed s label bits = number.
Proof.
  intros Hb Hf <-. apply andb_prop in Hf as [_ Hf].
  assert (0 <= label mod 1024 / 2 ^ bits < Z.of_nat (Z.to_nat (2 ^ (10 - bits)))) as Hr.
  { rewrite Z2Nat.id by (apply Z.pow_nonneg; lia). pose proof (Z.mod_pos_bound label 1024 ltac:(lia)).
    split; [apply Z.div_pos; lia|]. apply Z.div_lt_upper_bound; [lia|].
    rewrite <-Z.pow_add_r by lia. replace (bits + (10 - bits)) with 10 by lia. lia. }
  pose proof (forall_below_spec _ _ Hf _ Hr) as H. cbv beta zeta in H.
  replace (label mod 2 ^ bits + label mod 1024 / 2 ^ bits * 2 ^ bits) with (label mod 1024) in H.
  { apply andb_prop in H as [H1%Z.eqb_eq H2%Z.eqb_eq].
    rewrite (low_bits s Hlow), (low_number s Hlow). done. }
  rewrite (Z.div_mod (label mod 1024) (2 ^ bits)) at 1 by lia.
  assert ((label mod 1024) mod 2 ^ bits = label mod 2 ^ bits) as ->; [|lia].
  apply Z.bits_inj'. intros i Hi. change 1024 with (2 ^ 10). rewrite !testbit_mod by lia.
  destruct (Z.ltb_spec i bits), (Z.ltb_spec i 10); lia || done.
Qed.

Lemma label_checked label : label_check s (label mod 1024) = true.
Proof.
  pose proof Hcheck as H. unfold scheme_check in H. rewrite !andb_true_iff in H.
  destruct H as [[[_ H] _] _]. apply (forall_below_spec 1024 _ H).
  pose proof (Z.mod_pos_bound label 1024). lia.
Qed.

Lemma number_checked number : 0 <= number < INTERFACES s -> number_check s number = true.
Proof.
  intros Hn. pose proof Hcheck as H. unfold scheme_check in H. rewrite !andb_true_iff in H.
  destruct H as [[_ H] _]. apply (forall_below_spec _ _ H). lia.
Qed.

Lemma mod_1024 label bits : 0 <= bits <= 10 -> (label mod 1024) mod 2 ^ bits = label mod 2 ^ bits.
Proof.
  intros Hb. apply Z.bits_inj'. intros i Hi. change 1024 with (2 ^ 10). rewrite !testbit_mod by lia.
  destruct (Z.ltb_spec i bits), (Z.ltb_spec i 10); lia || done.
Qed.

Lemma label_laws label :
  let bits := bitsUsedForLabel s label in
  let number := getDecompressed s label bits in
  4 <= bits <= 10 /\ 0 <= number < INTERFACES s
  /\ getCompressed s number bits = label mod 2 ^ bits
  /\ (number = 1 <-> label mod 16 = 1) /\ (label mod 16 = 1 -> bits = 4)
  /\ bitsUsedForNumber s number <= bits.
Proof.
  pose proof (label_checked label) as H. unfold label_check in H.
  rewrite <-(low_bits s Hlow), <-(low_number s Hlow) in H. cbv zeta in *.
  change 16 with (2 ^ 4) in *. rewrite (mod_1024 label 4) in H by lia.
  set (bits := bitsUsedForLabel s label) in *. set (number := getDecompressed s label bits) in *.
  rewrite !andb_true_iff, !in_range_spec, orb_true_iff, negb_true_iff, Z.eqb_eq, Z.leb_le in H.
  destruct H as [[[[[Hb Hn] Hc] H1] H4] H5]. rewrite mod_1024 in Hc by lia.
  rewrite Bool.eqb_true_iff in H1.
  split; [done|]. split; [lia|]. split; [done|]. split; [|split; [|done]].
  - rewrite <-!Z.eqb_eq, H1. done.
  - intros E. destruct H4 as [H4|H4]; [|apply Z.eqb_eq, H4]. apply Z.eqb_neq in H4. done.
Qed.

Lemma width_in label : bitsUsedForLabel s label ∈ widths s.
Proof.
  destruct (label_laws label) as (Hb & _). unfold widths. apply list_elem_of_filter. split.
  - apply Is_true_eq_left, existsb_exists. exists (Z.to_nat (label mod 1024)).
    pose proof (Z.mod_pos_bound label 1024). split; [apply in_seq; lia|].
    rewrite Z2Nat.id by lia. rewrite <-(low_bits s Hlow). apply Z.eqb_refl.
  - set (b := bitsUsedForLabel s label) in *.
    assert (b = 4 \/ b = 5 \/ b = 6 \/ b = 7 \/ b = 8 \/ b = 9 \/ b = 10) as H by lia.
    rewrite !elem_of_cons. lia.
Qed.

Lemma scheme_laws : (forall bits, getCompressed s 1 bits = 1) ->
  (forall number, 4 <= bitsUsedForNumber s number <= 10) -> SchemeLaws s.
Proof.
  intros Hone Hnb. split; try done.
  - pose proof Hcheck as H. unfold scheme_check in H. rewrite !andb_true_iff in H.
    destruct H as [[[H _] _] _]. apply in_range_spec, H.
  - intros label. apply label_laws.
  - intros label. apply label_laws.
  - intros label. apply label_laws.
  - intros number label Hn bits Hl. pose proof (number_checked number Hn) as H.
    apply andb_prop in H as [Hb H]. apply in_range_spec in Hb.
    apply (found_spec number bits _ label Hb H Hl).
  - intros number Hn. pose proof (number_checked number Hn) as H.
    apply andb_prop in H as [_ [H _]%andb_prop]. apply in_range_spec in H. lia.
  - intros label. apply label_laws.
  - intros label. apply label_laws.
  - intros label. apply label_laws.
  - intros number asking label bits Hn Hle H1.
    pose proof Hcheck as H. unfold scheme_check in H. rewrite !andb_true_iff in H.
    destruct H as [_ H]. rewrite forallb_forall in H.
    specialize (H bits). rewrite <-list_elem_of_In in H. specialize (H (width_in asking)).
    pose proof (forall_below_spec _ _ H number ltac:(lia)) as Hw. unfold fits_check in Hw.
    rewrite !orb_true_iff, Z.ltb_lt, Z.eqb_eq in Hw. destruct Hw as [[Hw|Hw]|Hw]; [lia|done|].
    destruct (label_laws asking) as (Hb & _). fold bits in Hb. split.
    + apply andb_prop in Hw as [Hw _]. apply in_range_spec in Hw. lia.
    + intros Hl. apply (found_spec number bits _ label Hb Hw Hl).
Qed.
End check.

(** Each scheme is checked by evaluating it on every label of ten bits and on
    every number. *)
#[export] Instance laws_4 : SchemeLaws NumberCompress_4.
Proof.
  apply scheme_laws; [apply low_bits_4|vm_compute; reflexivity|done|].
  intros number. cbn. unfold NumberCompress_4_bitsUsedForNumber. lia.
Qed.

#[export] Instance laws_8 : SchemeLaws NumberCompress_8.
Proof.
  apply scheme_laws; [apply low_bits_8|vm_compute; reflexivity|done|].
  intros number. cbn. unfold NumberCompress_8_bitsUsedForNumber. destruct (1 =? number); lia.
Qed.

#[export] Instance laws_dyn : SchemeLaws NumberCompress_dyn.
Proof.
  apply scheme_laws; [apply low_bits_dyn|vm_compute; reflexivity|done|].
  intros number. cbn. unfold NumberCompress_dyn_bitsUsedForNumber.
  destruct (number <? 8), (number <? 33); lia.
Qed.

#[export] Instance laws_selected `{Platform} : SchemeLaws NumberCompress.
Proof.
  unfold NumberCompress. destruct (CJDNS_MAX_PEERS <? 16); [apply laws_4|].
  destruct (CJDNS_MAX_PEERS <? 241); [apply laws_8|apply laws_dyn].
Qed.

(** A number other than 1 read from a label can be written wider. *)
Lemma widen {s} `{SchemeLaws s} target asking label :
  let bits := bitsUsedForLabel s asking in
  let number := getDecompressed s target (bitsUsedForLabel s target) in
  bitsUsedForLabel s target < bits -> number <> 1 ->
  0 <= getCompressed s number bits < 2 ^ bits
  /\ (label mod 2 ^ bits = getCompressed s number bits ->
      bitsUsedForLabel s label = bits /\ getDecompressed s label bits = number).
Proof.
  intros bits number Hlt Hn. apply fits; [apply decompressed_range| |done].
  pose proof (number_bits_min target). unfold bits in Hlt. unfold number. lia.
Qed.

Lemma one_number_bits {s} `{SchemeLaws s} : bitsUsedForNumber s 1 = 4.
Proof.
  rewrite <-(one_bits 1) by done. symmetry. pose proof interfaces_range. pose proof (number_bits_range 1).
  apply (decompress_compress 1 1); [lia|]. rewrite one_compressed. apply Z.mod_small.
  assert (2 ^ 4 <= 2 ^ bitsUsedForNumber s 1) by (apply Z.pow_le_mono_r; lia). lia.
Qed.

(** ** Properties *)

(** Whatever the build's limit on peers, an interface number below
    NumberCompress_INTERFACES fits in the bits it is said to use, and any label
    with it in the low bits is read as that width and that number. *)
Theorem NumberCompress_roundtrip `{Platform} number rest :
  0 <= number < NumberCompress_INTERFACES -> 0 <= rest ->
  let bits := NumberCompress_bitsUsedForNumber number in
  let label := NumberCompress_getCompressed number bits .| (rest << bits) in
  NumberCompress_bitsUsedForLabel label = bits
  /\ NumberCompress_getDecompressed label bits = number /\ label >> bits = rest.
Proof.
  intros Hn Hr bits label. pose proof (compressed_range number Hn) as Hc. fold bits in Hc.
  pose proof (number_bits_range number) as Hb.
  fold bits (NumberCompress_bitsUsedForNumber number) in Hb. fold bits in Hb.
  change (0 <= NumberCompress_getCompressed number bits < 2 ^ bits) in Hc.
  assert (label = NumberCompress_getCompressed number bits + rest * 2 ^ bits) as El
    by (apply lor_shiftl_add; lia).
  assert (label mod 2 ^ bits = NumberCompress_getCompressed number bits) as Em
    by (rewrite El, Z.mod_add, Z.mod_small by lia; done).
  destruct (decompress_compress number label Hn Em) as [E1 E2].
  split; [exact E1|]. split; [exact E2|].
  rewrite Z.shiftr_div_pow2, El, Z.div_add, Z.div_small by lia. done.
Qed.

(** Every label names an interface below NumberCompress_INTERFACES in 4 to
    10 bits, compressing that number gives the label's bits back, and exactly
    the labels ending in 0001 name interface 1, the router, in 4 bits. *)
Theorem NumberCompress_label `{Platform} label :
  let bits := NumberCompress_bitsUsedForLabel label in
  let number := NumberCompress_getDecompressed label bits in
  4 <= bits <= 10 /\ 0 <= number < NumberCompress_INTERFACES
  /\ NumberCompress_getCompressed number bits = label mod 2 ^ bits
  /\ (number = 1 <-> label mod 16 = 1) /\ (number = 1 -> bits = 4).
Proof.
  cbv zeta. split; [apply bits_range|]. split; [apply decompressed_range|].
  split; [apply compress_decompress|]. split; [apply one_iff|].
  intros E1. apply one_bits, one_iff, E1.
Qed.

Lemma NumberCompress_roundtrip_witness :
  @NumberCompress_bitsUsedForLabel x86 (@NumberCompress_getCompressed x86 200 10 .| (21 << 10)) = 10
  /\ @NumberCompress_getDecompressed x86 (@NumberCompress_getCompressed x86 200 10 .| (21 << 10)) 10 = 200
  /\ (@NumberCompress_getCompressed x86 200 10 .| (21 << 10)) >> 10 = 21.
Proof. apply (@NumberCompress_roundtrip x86 200 21); [vm_compute; split; [discriminate|reflexivity]|lia]. Defined.
