(* ===== verification/LabelSplicer.v ===== *)
(** * Splicing labels (switch/LabelSplicer.h)

    A label is a path through switches, first hop in the low bits, ended by a
    1 bit above the last hop. Splicing joins two paths; the theorems give it its
    arithmetic meaning, its algebra, and relate the tests on labels to it. *)
From S2P Require Import Prelude Bits NumberCompress.

Definition LabelSplicer_splice (goHere viaHere : Z) : Z :=
  let log2ViaHere := Bits_log2x64 viaHere in
  if 60 <? Bits_log2x64 goHere + log2ViaHere then UINT64_MAX
  else u64 ((goHere .^ 1) << log2ViaHere) .^ viaHere.

(** A 64-bit shift; [None] is the undefined behaviour of a shift by 64 or more. *)
Definition shift_right64 (x k : Z) : option Z :=
  if (0 <=? k) && (k <? 64) then Some (x >> k) else None.

Definition LabelSplicer_routesThrough (destination midPath : Z) : option bool :=
  if destination <? midPath then Some false
  else
    mask ← shift_right64 UINT64_MAX (64 - Bits_log2x64 midPath);
    Some ((destination .& mask) =? (midPath .& mask)).

Section scheme.
  Context {P : Platform}.

Definition LabelSplicer_getLabelFor (target whoIsAsking : Z) : Z :=
  let targetBits := NumberCompress_bitsUsedForLabel target in
  let whoIsAskingBits := NumberCompress_bitsUsedForLabel whoIsAsking in
  if whoIsAskingBits <=? targetBits then target
  else
    let targetIfaceNum := NumberCompress_getDecompressed target targetBits in
    u64 ((target .& u64 (UINT64_MAX << targetBits)) << (whoIsAskingBits - targetBits))
      .| NumberCompress_getCompressed targetIfaceNum whoIsAskingBits.

Definition LabelSplicer_isOneHop (label : Z) : bool :=
  NumberCompress_bitsUsedForLabel label =? Bits_log2x64 label.
End scheme.

(** ** Arithmetic of splicing *)
Definition is_label (l : Z) : Prop := 0 < l < 2 ^ 64.

Lemma label_split l : is_label l ->
  l = 2 ^ Bits_log2x64 l + l mod 2 ^ Bits_log2x64 l.
Proof.
  intros Hl. destruct (log2x64_bounds l Hl) as [H1 H2]. pose proof (log2x64_range l ltac:(unfold is_label in Hl; lia)).
  rewrite Z.pow_add_r in H2 by lia. pose proof (Z.div_mod l (2 ^ Bits_log2x64 l) ltac:(lia)) as E.
  assert (l / 2 ^ Bits_log2x64 l = 1) as E1
    by (symmetry; apply Z.div_unique with (l - 2 ^ Bits_log2x64 l); lia).
  lia.
Qed.

Lemma lxor_shifted g k r : 0 <= g -> 0 <= k -> 0 <= r < 2 ^ k ->
  ((g .^ 1) << k) .^ (2 ^ k + r) = g * 2 ^ k + r.
Proof.
  intros Hg Hk Hr.
  replace (2 ^ k + r) with (r .| (1 << k)) by (rewrite lor_shiftl_add by lia; lia).
  replace (g * 2 ^ k + r) with (r .| (g << k)) by (rewrite lor_shiftl_add by lia; lia).
  apply Z.bits_inj'. intros i Hi. rewrite Z.lxor_spec, !Z.lor_spec, !Z.shiftl_spec by lia.
  destruct (decide (i < k)).
  - rewrite !(Z.testbit_neg_r _ (i - k)) by lia. destruct (Z.testbit r i); done.
  - rewrite Z.lxor_spec, (testbit_high r k i) by lia.
    destruct (Z.testbit g (i - k)), (Z.testbit 1 (i - k)); done.
Qed.

Lemma log2_splice g k r : 0 < g -> 0 <= k -> 0 <= r < 2 ^ k -> Z.log2 (g * 2 ^ k + r) = Z.log2 g + k.
Proof.
  intros Hg Hk Hr. pose proof (Z.log2_spec g Hg) as [H1 H2]. pose proof (Z.log2_nonneg g).
  apply Z.log2_unique; [lia|]. rewrite Z.pow_succ_r in H2 by lia. rewrite Z.pow_succ_r, Z.pow_add_r by lia.
  split; [nia|]. assert ((g + 1) * 2 ^ k <= 2 * 2 ^ Z.log2 g * 2 ^ k) by (apply Z.mul_le_mono_nonneg_r; lia). lia.
Qed.

Lemma lxor_1_bound g : 0 <= g -> 0 <= g .^ 1 <= g + 1.
Proof.
  intros Hg. destruct g as [|[p|p|]|]; [done| | |done|done].
  - change (Z.pos p~1 .^ 1) with (Z.pos p~0). lia.
  - change (Z.pos p~0 .^ 1) with (Z.pos p~1). lia.
Qed.

(** A splice that fits is [goHere] above the bits of [viaHere] below its end
    mark. *)
Lemma splice_fits g v : is_label g -> is_label v -> Bits_log2x64 g + Bits_log2x64 v <= 60 ->
  LabelSplicer_splice g v = g * 2 ^ Bits_log2x64 v + v mod 2 ^ Bits_log2x64 v
  /\ is_label (LabelSplicer_splice g v)
  /\ Bits_log2x64 (LabelSplicer_splice g v) = Bits_log2x64 g + Bits_log2x64 v.
Proof.
  intros Hg Hv Hfit. unfold LabelSplicer_splice. cbv zeta.
  destruct (Z.ltb_spec 60 (Bits_log2x64 g + Bits_log2x64 v)); [lia|].
  pose proof (label_split v Hv) as Ev. pose proof (log2x64_range v ltac:(unfold is_label in Hv; lia)) as Hk.
  pose proof (log2x64_range g ltac:(unfold is_label in Hg; lia)) as Hkg.
  destruct (log2x64_bounds g Hg) as [_ Hg2].
  set (k := Bits_log2x64 v) in *. pose proof (Z.mod_pos_bound v (2 ^ k) ltac:(lia)) as Hr.
  assert (g * 2 ^ k + v mod 2 ^ k < 2 ^ 61) as Hlt.
  { assert ((g + 1) * 2 ^ k <= 2 ^ (Bits_log2x64 g + 1) * 2 ^ k) by (apply Z.mul_le_mono_nonneg_r; lia).
    rewrite <-Z.pow_add_r in * by lia.
    pose proof (Z.pow_le_mono_r 2 (Bits_log2x64 g + 1 + k) 61 ltac:(lia) ltac:(lia)). lia. }
  assert (u64 ((g .^ 1) << k) .^ v = g * 2 ^ k + v mod 2 ^ k) as E.
  { rewrite u64_small; [rewrite Ev at 1; apply lxor_shifted; unfold is_label in Hg; lia|].
    assert (0 <= g .^ 1 <= g + 1) as Hx.
    { apply lxor_1_bound. unfold is_label in Hg. lia. }
    rewrite Z.shiftl_mul_pow2 by lia.
    assert ((g .^ 1) * 2 ^ k <= (g + 1) * 2 ^ k) by (apply Z.mul_le_mono_nonneg_r; lia).
    assert (2 ^ k <= 2 ^ 60) by (apply Z.pow_le_mono_r; lia).
    split; [apply Z.mul_nonneg_nonneg; lia|]. lia. }
  rewrite E. unfold is_label in *. split; [done|].
  assert (0 < g * 2 ^ k + v mod 2 ^ k) by (assert (0 < g * 2 ^ k) by (apply Z.mul_pos_pos; lia); lia).
  split; [lia|]. rewrite (log2x64_spec (_ + _)) by lia. rewrite log2_splice by lia.
  rewrite (log2x64_spec g) by lia. done.
Qed.

Lemma splice_too_big g v : 60 < Bits_log2x64 g + Bits_log2x64 v -> LabelSplicer_splice g v = UINT64_MAX.
Proof.
  intros H. unfold LabelSplicer_splice. cbv zeta.
  destruct (Z.ltb_spec 60 (Bits_log2x64 g + Bits_log2x64 v)); [done|lia].
Qed.

Lemma log2_max : Bits_log2x64 UINT64_MAX = 63.
Proof. reflexivity. Qed.

Lemma is_label_max : is_label UINT64_MAX.
Proof. unfold is_label. by vm_compute. Qed.

(** Splicing adds lengths, up to the limit. *)
Lemma splice_log2 g v : is_label g -> is_label v ->
  is_label (LabelSplicer_splice g v)
  /\ Bits_log2x64 (LabelSplicer_splice g v)
     = (if 60 <? Bits_log2x64 g + Bits_log2x64 v then 63 else Bits_log2x64 g + Bits_log2x64 v).
Proof.
  intros Hg Hv. destruct (Z.ltb_spec 60 (Bits_log2x64 g + Bits_log2x64 v)).
  - rewrite splice_too_big by lia. split; [apply is_label_max|apply log2_max].
  - destruct (splice_fits g v Hg Hv) as (_ & H1 & H2); [lia|]. done.
Qed.

(** ** Properties *)

(** Splicing two labels whose lengths add up to at most 60 bits gives a
    label of the added length that first goes via [viaHere] (the same low bits)
    and then takes [goHere] (what is left once those bits are shifted out); when
    the lengths add up to more it gives UINT64_MAX. *)
Theorem LabelSplicer_splice_spec g v :
  is_label g -> is_label v ->
  let k := Bits_log2x64 v in
  let s := LabelSplicer_splice g v in
  if 60 <? Bits_log2x64 g + k then s = UINT64_MAX
  else s >> k = g /\ s mod 2 ^ k = v mod 2 ^ k /\ Bits_log2x64 s = Bits_log2x64 g + k.
Proof.
  intros Hg Hv k s. subst s k. destruct (Z.ltb_spec 60 (Bits_log2x64 g + Bits_log2x64 v)).
  - apply splice_too_big. lia.
  - destruct (splice_fits g v Hg Hv) as (E & _ & Hl); [lia|]. rewrite E at 1 2.
    pose proof (log2x64_range v ltac:(unfold is_label in Hv; lia)).
    pose proof (Z.mod_pos_bound v (2 ^ Bits_log2x64 v) ltac:(lia)).
    rewrite Z.shiftr_div_pow2 by lia. split; [|split; [|done]].
    + rewrite Z.add_comm, Z.div_add, Z.div_small by lia. lia.
    + rewrite Z.add_comm, Z.mod_add, Z.mod_small by lia. done.
Qed.

(** Splicing is associative, also when something on the way is too long:
    it does not matter in which order a path is put together. *)
Theorem LabelSplicer_splice_assoc a b c :
  is_label a -> is_label b -> is_label c ->
  LabelSplicer_splice (LabelSplicer_splice a b) c = LabelSplicer_splice a (LabelSplicer_splice b c).
Proof.
  intros Ha Hb Hc. pose proof (splice_log2 a b Ha Hb) as [Hab Lab]. pose proof (splice_log2 b c Hb Hc) as [Hbc Lbc].
  pose proof (log2x64_range a ltac:(unfold is_label in Ha; lia)).
  pose proof (log2x64_range b ltac:(unfold is_label in Hb; lia)).
  pose proof (log2x64_range c ltac:(unfold is_label in Hc; lia)).
  destruct (Z.ltb_spec 60 (Bits_log2x64 a + Bits_log2x64 b)).
  { rewrite (splice_too_big _ c) by lia. rewrite splice_too_big; [done|].
    destruct (60 <? Bits_log2x64 b + Bits_log2x64 c); lia. }
  destruct (Z.ltb_spec 60 (Bits_log2x64 b + Bits_log2x64 c)).
  { rewrite (splice_too_big _ c), (splice_too_big a (LabelSplicer_splice b c)) by lia. done. }
  destruct (Z.ltb_spec 60 (Bits_log2x64 a + Bits_log2x64 b + Bits_log2x64 c)).
  { rewrite (splice_too_big _ c), (splice_too_big a (LabelSplicer_splice b c)) by lia. done. }
  destruct (splice_fits _ c Hab Hc ltac:(lia)) as (E1 & _). destruct (splice_fits a _ Ha Hbc ltac:(lia)) as (E2 & _).
  destruct (splice_fits a b Ha Hb ltac:(lia)) as (E3 & _). destruct (splice_fits b c Hb Hc ltac:(lia)) as (E4 & _).
  rewrite E1, E2, E3, Lbc, E4. rewrite Z.pow_add_r by lia.
  set (kb := Bits_log2x64 b) in *. set (kc := Bits_log2x64 c) in *.
  pose proof (label_split b Hb) as Eb. fold kb in Eb.
  pose proof (Z.mod_pos_bound b (2 ^ kb) ltac:(lia)) as Hrb. pose proof (Z.mod_pos_bound c (2 ^ kc) ltac:(lia)) as Hrc.
  set (rb := b mod 2 ^ kb) in *. set (rc := c mod 2 ^ kc) in *.
  assert ((b * 2 ^ kc + rc) mod (2 ^ kb * 2 ^ kc) = rb * 2 ^ kc + rc) as ->; [|lia].
  rewrite Eb. replace ((2 ^ kb + rb) * 2 ^ kc + rc) with (rb * 2 ^ kc + rc + 1 * (2 ^ kb * 2 ^ kc)) by lia.
  rewrite Z.mod_add by (assert (0 < 2 ^ kb * 2 ^ kc) by (apply Z.mul_pos_pos; lia); lia).
  apply Z.mod_small. assert ((rb + 1) * 2 ^ kc <= 2 ^ kb * 2 ^ kc) by (apply Z.mul_le_mono_nonneg_r; lia).
  assert (0 <= rb * 2 ^ kc) by (apply Z.mul_nonneg_nonneg; lia). lia.
Qed.

(** For labels of at most 60 bits and a middle that is not the empty path,
    a path routes through [midPath] exactly when it is some path spliced onto
    [midPath]. *)
Theorem LabelSplicer_routesThrough_spec d m :
  0 < d < 2 ^ 61 -> 2 <= m < 2 ^ 64 ->
  LabelSplicer_routesThrough d m = Some true
  <-> exists g, is_label g /\ LabelSplicer_splice g m = d.
Proof.
  intros Hd Hm. unfold LabelSplicer_routesThrough, shift_right64.
  assert (is_label m) as Hm' by (unfold is_label; lia).
  assert (0 < Bits_log2x64 m < 64) as Hk.
  { pose proof (log2x64_range m ltac:(lia)). rewrite log2x64_spec in * by lia. split; [apply Z.log2_pos|]; lia. }
  pose proof (label_split m Hm') as Em. set (k := Bits_log2x64 m) in *.
  pose proof (Z.mod_pos_bound m (2 ^ k) ltac:(lia)) as Hrm.
  pose proof (Z.mod_pos_bound d (2 ^ k) ltac:(lia)) as Hrd. pose proof (Z.div_mod d (2 ^ k) ltac:(lia)) as Ed.
  replace ((0 <=? 64 - k) && (64 - k <? 64)) with true
    by (symmetry; apply andb_true_iff; rewrite Z.leb_le, Z.ltb_lt; lia).
  assert (UINT64_MAX >> (64 - k) = Z.ones k) as Emask.
  { change UINT64_MAX with (Z.ones 64). rewrite Z.ones_equiv. apply Z.bits_inj'. intros i Hi.
    rewrite Z.shiftr_spec by lia. rewrite <-Z.ones_equiv, !Z.testbit_ones by lia. lia. }
  cbn [mbind option_bind]. rewrite Emask, !Z.land_ones by lia. split.
  - destruct (Z.ltb_spec d m); [done|]. intros [= E%Z.eqb_eq].
    exists (d / 2 ^ k). assert (0 < d / 2 ^ k) as Hq.
    { apply Z.div_str_pos. lia. }
    assert (d / 2 ^ k <= d) by (apply Z.div_le_upper_bound; [lia|nia]).
    assert (is_label (d / 2 ^ k)) as Hg by (unfold is_label; lia). split; [done|].
    assert (Bits_log2x64 d = Bits_log2x64 (d / 2 ^ k) + k) as Hl.
    { rewrite !log2x64_spec by lia. rewrite Ed at 1. rewrite Z.mul_comm. apply log2_splice; lia. }
    assert (Bits_log2x64 d <= 60).
    { rewrite log2x64_spec by lia. assert (Z.log2 d < 61); [apply Z.log2_lt_pow2; lia|lia]. }
    destruct (splice_fits _ m Hg Hm' ltac:(fold k; lia)) as (-> & _). fold k. lia.
  - intros (g & Hg & E). destruct (decide (60 < Bits_log2x64 g + Bits_log2x64 m)).
    { rewrite splice_too_big in E by done. unfold UINT64_MAX in E. lia. }
    destruct (splice_fits g m Hg Hm') as (E' & _); [lia|]. fold k in E'. rewrite E' in E. subst d.
    unfold is_label in Hg. assert (1 * 2 ^ k <= g * 2 ^ k) by (apply Z.mul_le_mono_nonneg_r; lia).
    destruct (Z.ltb_spec (g * 2 ^ k + m mod 2 ^ k) m); [lia|].
    rewrite (Z.add_comm (g * _)), Z.mod_add, (Z.mod_small (m mod _)) by lia. rewrite Z.eqb_refl. done.
Qed.

(** A label is one hop exactly when nothing but the end mark is left above
    its first interface number. *)
Theorem LabelSplicer_isOneHop_spec `{Platform} label :
  is_label label ->
  LabelSplicer_isOneHop label = true <-> label >> NumberCompress_bitsUsedForLabel label = 1.
Proof.
  intros Hl. unfold LabelSplicer_isOneHop. rewrite Z.eqb_eq. pose proof (label_split label Hl) as E.
  pose proof (bits_range (s := NumberCompress) label) as Hb.
  change (bitsUsedForLabel _ label) with (NumberCompress_bitsUsedForLabel label) in Hb.
  set (b := NumberCompress_bitsUsedForLabel label) in *. set (k := Bits_log2x64 label) in *.
  pose proof (log2x64_range label ltac:(unfold is_label in Hl; lia)) as Hk. fold k in Hk.
  pose proof (Z.mod_pos_bound label (2 ^ k) ltac:(lia)). rewrite Z.shiftr_div_pow2 by lia. split.
  - intros ->. symmetry. apply Z.div_unique with (label mod 2 ^ k); lia.
  - intros E1. unfold is_label in Hl. pose proof (Z.div_mod label (2 ^ b) ltac:(lia)) as E2.
    pose proof (Z.mod_pos_bound label (2 ^ b) ltac:(lia)). rewrite E1 in E2. subst k.
    rewrite log2x64_spec by lia. symmetry. apply Z.log2_unique; [lia|].
    rewrite Z.pow_succ_r by lia. lia.
Qed.

(** A label handed to a node that uses wider numbers still leads to the
    same interface and onwards along the same path, and now has the width of
    the asker's label. A label whose first hop is the router itself (number 1,
    which has one width only) is out of this statement, and so is one that does
    not have the spare bits. *)
Theorem LabelSplicer_getLabelFor_spec `{Platform} target whoIsAsking :
  let targetBits := NumberCompress_bitsUsedForLabel target in
  let askingBits := NumberCompress_bitsUsedForLabel whoIsAsking in
  let number := NumberCompress_getDecompressed target targetBits in
  is_label target -> target * 2 ^ Z.max 0 (askingBits - targetBits) < 2 ^ 64 -> number <> 1 ->
  let label := LabelSplicer_getLabelFor target whoIsAsking in
  let bits := NumberCompress_bitsUsedForLabel label in
  bits = Z.max targetBits askingBits
  /\ NumberCompress_getDecompressed label bits = number
  /\ label >> bits = target >> targetBits.
Proof.
  intros tb ab number Ht Hfit Hn label bits. subst label bits. unfold LabelSplicer_getLabelFor.
  fold tb ab. fold number.
  pose proof (bits_range (s := NumberCompress) target) as Htb. pose proof (bits_range (s := NumberCompress) whoIsAsking) as Hab.
  change (4 <= tb <= 10) in Htb. change (4 <= ab <= 10) in Hab.
  destruct (Z.leb_spec ab tb) as [Hle|Hlt]; [fold tb; split; [lia|done]|].
  destruct (widen (s := NumberCompress) target whoIsAsking
    (u64 ((target .& u64 (UINT64_MAX << tb)) << (ab - tb)) .| NumberCompress_getCompressed number ab) Hlt Hn) as [Hc Hw].
  change (0 <= NumberCompress_getCompressed number ab < 2 ^ ab) in Hc.
  rewrite Z.max_r in Hfit by lia. unfold is_label in Ht.
  assert (target .& u64 (UINT64_MAX << tb) = (target >> tb) << tb) as Emask.
  { apply (bits_inj_bounded 64).
    - apply land_range_l. lia.
    - rewrite <-Z.ldiff_ones_r by lia. split; [apply Z.ldiff_nonneg; lia|].
      rewrite Z.ldiff_ones_r, Z.shiftr_div_pow2, Z.shiftl_mul_pow2 by lia.
      pose proof (Z.mul_div_le target (2 ^ tb)). lia.
    - intros i Hi. rewrite Z.land_spec. unfold u64. rewrite testbit_mod by lia.
      change UINT64_MAX with (Z.ones 64). rewrite !Z.shiftl_spec by lia.
      replace (i <? 64) with true by (symmetry; apply Z.ltb_lt; lia). cbn [andb].
      destruct (decide (i < tb)).
      + rewrite !(Z.testbit_neg_r _ (i - tb)) by lia. apply andb_false_r.
      + rewrite Z.testbit_ones_nonneg, Z.shiftr_spec by lia.
        replace (i - tb <? 64) with true by (symmetry; apply Z.ltb_lt; lia).
        replace (i - tb + tb) with i by lia. apply andb_true_r. }
  rewrite Emask in *. rewrite Z.shiftl_shiftl in * by lia. replace (tb + (ab - tb)) with ab in * by lia.
  assert (u64 ((target >> tb) << ab) = (target >> tb) << ab) as Eu.
  { apply u64_small. split; [apply Z.shiftl_nonneg, Z.shiftr_nonneg; lia|].
    rewrite Z.shiftr_div_pow2, Z.shiftl_mul_pow2 by lia.
    replace ab with (tb + (ab - tb)) by lia. rewrite Z.pow_add_r by lia.
    rewrite Z.mul_assoc. eapply Z.le_lt_trans; [|exact Hfit].
    apply Z.mul_le_mono_nonneg_r; [lia|]. rewrite Z.mul_comm. apply Z.mul_div_le. lia. }
  rewrite Eu in *. rewrite Z.lor_comm in *. rewrite lor_shiftl_add in * by lia.
  set (label := NumberCompress_getCompressed number ab + _) in *.
  assert (label mod 2 ^ ab = NumberCompress_getCompressed number ab) as Em
    by (unfold label; rewrite Z.mod_add, Z.mod_small by lia; done).
  destruct (Hw Em) as [E1 E2]. change (NumberCompress_bitsUsedForLabel label = ab) in E1.
  rewrite E1. split; [lia|]. split; [exact E2|].
  rewrite Z.shiftr_div_pow2 by lia. unfold label. rewrite Z.div_add, Z.div_small by lia. lia.
Qed.

Lemma LabelSplicer_splice_spec_witness :
  let k := Bits_log2x64 0x1013 in
  let s := LabelSplicer_splice 0x15 0x1013 in
  if 60 <? Bits_log2x64 0x15 + k then s = UINT64_MAX
  else s >> k = 0x15 /\ s mod 2 ^ k = 0x1013 mod 2 ^ k /\ Bits_log2x64 s = Bits_log2x64 0x15 + k.
Proof. apply (LabelSplicer_splice_spec 0x15 0x1013); unfold is_label; lia. Defined.

Lemma LabelSplicer_splice_assoc_witness :
  LabelSplicer_splice (LabelSplicer_splice 0x15 0x13) 0x17
  = LabelSplicer_splice 0x15 (LabelSplicer_splice 0x13 0x17).
Proof. apply (LabelSplicer_splice_assoc 0x15 0x13 0x17); unfold is_label; lia. Defined.

Lemma LabelSplicer_routesThrough_spec_witness :
  LabelSplicer_routesThrough 0x153 0x13 = Some true
  <-> exists g, is_label g /\ LabelSplicer_splice g 0x13 = 0x153.
Proof. apply (LabelSplicer_routesThrough_spec 0x153 0x13); lia. Defined.

Lemma LabelSplicer_isOneHop_spec_witness :
  @LabelSplicer_isOneHop x86 0x13 = true <-> 0x13 >> @NumberCompress_bitsUsedForLabel x86 0x13 = 1.
Proof. apply (@LabelSplicer_isOneHop_spec x86 0x13). unfold is_label. lia. Defined.

Lemma LabelSplicer_getLabelFor_spec_witness :
  let label := @LabelSplicer_getLabelFor x86 0x15 0x46 in
  let bits := @NumberCompress_bitsUsedForLabel x86 label in
  bits = Z.max 4 7 /\ @NumberCompress_getDecompressed x86 label bits = 2 /\ label >> bits = 0x15 >> 4.
Proof.
  apply (@LabelSplicer_getLabelFor_spec x86 0x15 0x46);
    [unfold is_label; lia|vm_compute; reflexivity|vm_compute; discriminate].
Defined.
