(* ===== verification/Headers.v ===== *)
(** * Wire headers (wire/Headers.h, wire/Control.h, wire/Error.h)

    A header lies in a message's memory; its fields are at the offsets of the C
    structure, whose size the source asserts at compile time. Accessors read
    and write the fields in memory. *)
From S2P Require Import Prelude Memory Endian.

(** ** Layout *)
Definition Headers_SwitchHeader_TYPE_DATA : Z := 0.
Definition Headers_SwitchHeader_TYPE_CONTROL : Z := 1.

(** Offsets in [struct Headers_SwitchHeader] (packed to 4). *)
Definition SwitchHeader_label_be : Z := 0.
Definition SwitchHeader_lowBits_be : Z := 8.
Definition Headers_SwitchHeader_SIZE : Z := 12.

(** Offsets in [union Headers_AuthChallenge]. *)
Definition AuthChallenge_type : Z := 0.
Definition AuthChallenge_lookup : Z := 1.
Definition AuthChallenge_requirePacketAuthAndDerivationCount : Z := 8.
Definition AuthChallenge_additional : Z := 10.
Definition Headers_AuthChallenge_SIZE : Z := 12.
Definition Headers_AuthChallenge_KEYSIZE : Z := 8.

(** Offsets in [union Headers_CryptoAuth]; the data packet's [nonce] is the
    handshake's [handshakeStage]. *)
Definition CryptoAuth_handshakeStage : Z := 0.
Definition CryptoAuth_auth : Z := 4.
Definition CryptoAuth_nonce : Z := 16.
Definition CryptoAuth_publicKey : Z := 40.
Definition CryptoAuth_authenticator : Z := 72.
Definition CryptoAuth_encryptedTempKey : Z := 88.
Definition Headers_CryptoAuth_SIZE : Z := 120.

(** Offsets in [struct Headers_IP6Header]. *)
Definition IP6Header_versionClassAndFlowLabel : Z := 0.
Definition IP6Header_flowLabelLow_be : Z := 2.
Definition IP6Header_payloadLength_be : Z := 4.
Definition IP6Header_nextHeader : Z := 6.
Definition IP6Header_hopLimit : Z := 7.
Definition IP6Header_sourceAddr : Z := 8.
Definition IP6Header_destinationAddr : Z := 24.
Definition Headers_IP6Header_SIZE : Z := 40.

(** Offsets in [struct Headers_IP6Fragment]. *)
Definition IP6Fragment_fragmentOffsetAndMoreFragments_be : Z := 2.
Definition Headers_IP6Fragment_SIZE : Z := 8.
Definition Headers_IP6Fragment_TYPE : Z := 44.

(** Offsets in [struct Headers_IP4Header]. *)
Definition IP4Header_versionAndHeaderLength : Z := 0.
Definition IP4Header_totalLength_be : Z := 2.
Definition IP4Header_sourceAddr : Z := 12.
Definition IP4Header_destAddr : Z := 16.
Definition Headers_IP4Header_SIZE : Z := 20.

Definition Headers_UDPHeader_SIZE : Z := 8.
Definition Headers_ICMP6Header_SIZE : Z := 8.
Definition Headers_Beacon_PASSWORD_LEN : Z := 20.
Definition Headers_Beacon_SIZE : Z := 56.

(** Error codes (wire/Error.h). *)
Definition Error_NONE : Z := 0.
Definition Error_MALFORMED_ADDRESS : Z := 1.
Definition Error_FLOOD : Z := 2.
Definition Error_LINK_LIMIT_EXCEEDED : Z := 3.
Definition Error_OVERSIZE_MESSAGE : Z := 4.
Definition Error_UNDERSIZE_MESSAGE : Z := 5.
Definition Error_AUTHENTICATION : Z := 6.
Definition Error_INVALID : Z := 7.
Definition Error_UNDELIVERABLE : Z := 8.

(** Control packets (wire/Control.h): offsets in [struct Control] and
    [struct Control_Error]. *)
Definition Control_checksum_be : Z := 0.
Definition Control_type_be : Z := 2.
Definition Control_content : Z := 4.
Definition Control_HEADER_SIZE : Z := 4.
Definition Control_Error_errorType_be : Z := 0.
Definition Control_Error_HEADER_SIZE : Z := 4.
Definition Control_Error_MIN_SIZE : Z := Control_Error_HEADER_SIZE + Headers_SwitchHeader_SIZE.
Definition Control_Error_MAX_SIZE : Z := 256.
Definition Control_Ping_HEADER_SIZE : Z := 8.
Definition Control_Ping_MIN_SIZE : Z := 8.
Definition Control_Ping_MAX_SIZE : Z := 256.

Section headers.
  Context {P : Platform}.

Definition Control_ERROR_be : Z := Endian_hostToBigEndian16 2.
Definition Control_PING_be : Z := Endian_hostToBigEndian16 3.
Definition Control_PONG_be : Z := Endian_hostToBigEndian16 4.
Definition Control_Ping_MAGIC : Z := Endian_hostToBigEndian32 0x09f91102.
Definition Control_Pong_MAGIC : Z := Endian_hostToBigEndian32 0x9d74e35b.

Definition Control_typeString (type_be : Z) : list Z :=
  if type_be =? Control_ERROR_be then chars "error"
  else if type_be =? Control_PING_be then chars "ping"
  else if type_be =? Control_PONG_be then chars "pong"
  else chars "unknown".

(** ** Switch header *)
Definition Headers_getMessageType (m : mem) (header : Z) : Z :=
  Endian_bigEndianToHost32 (load 4 m (header + SwitchHeader_lowBits_be)) >> 24.

Definition Headers_getPriority (m : mem) (header : Z) : Z :=
  Endian_bigEndianToHost32 (load 4 m (header + SwitchHeader_lowBits_be)) .& ((1 << 24) - 1).

Definition Headers_setPriorityAndMessageType (m : mem) (header priority messageType : Z) : mem :=
  write m (header + SwitchHeader_lowBits_be)
    (store 4 (Endian_hostToBigEndian32 ((priority .& ((1 << 24) - 1)) .| u32 (messageType << 24)))).

(** ** Auth challenge *)
Definition auth_field (m : mem) (ac : Z) : Z :=
  load 2 m (ac + AuthChallenge_requirePacketAuthAndDerivationCount).
Definition set_auth_field (m : mem) (ac v : Z) : mem :=
  write m (ac + AuthChallenge_requirePacketAuthAndDerivationCount) (store 2 v).

Definition Headers_isPacketAuthRequired (m : mem) (ac : Z) : bool :=
  negb (auth_field m ac .& Endian_hostToBigEndian16 (1 << 15) =? 0).

Definition Headers_setPacketAuthRequired (m : mem) (ac : Z) (require : bool) : mem :=
  if require
  then set_auth_field m ac (auth_field m ac .| Endian_hostToBigEndian16 (1 << 15))
  else set_auth_field m ac (auth_field m ac .& Endian_hostToBigEndian16 (u16 (Z.lnot (1 << 15)))).

Definition Headers_getAuthChallengeDerivations (m : mem) (ac : Z) : Z :=
  Endian_hostToBigEndian16 (auth_field m ac) .& (u16 (Z.lnot 0) >> 1).

Definition Headers_setAuthChallengeDerivations (m : mem) (ac derivations : Z) : mem :=
  let m := set_auth_field m ac (auth_field m ac .& Endian_hostToBigEndian16 (1 << 15)) in
  set_auth_field m ac
    (auth_field m ac .| Endian_hostToBigEndian16 (derivations .& Z.lnot (1 << 15))).

(** ** IPv6 fragment header *)
Definition frag_field (m : mem) (frag : Z) : Z :=
  load 2 m (frag + IP6Fragment_fragmentOffsetAndMoreFragments_be).
Definition set_frag_field (m : mem) (frag v : Z) : mem :=
  write m (frag + IP6Fragment_fragmentOffsetAndMoreFragments_be) (store 2 v).

Definition Headers_IP6Fragment_getOffset (m : mem) (frag : Z) : Z :=
  Endian_bigEndianToHost16 (frag_field m frag) >> 3.

Definition Headers_IP6Fragment_setOffset (m : mem) (frag offset : Z) : mem :=
  let m := set_frag_field m frag (frag_field m frag .& Endian_hostToBigEndian16 7) in
  set_frag_field m frag (frag_field m frag .| Endian_hostToBigEndian16 (u16 (offset << 3))).

Definition Headers_IP6Fragment_hasMoreFragments (m : mem) (frag : Z) : bool :=
  negb (frag_field m frag .& Endian_hostToBigEndian16 1 =? 0).

Definition Headers_IP6Fragment_setMoreFragments (m : mem) (frag : Z) (more : bool) : mem :=
  if more
  then set_frag_field m frag (frag_field m frag .| Endian_hostToBigEndian16 1)
  else set_frag_field m frag (frag_field m frag .& Endian_hostToBigEndian16 (u16 (0xFFFF << 1))).

Definition Headers_getIpVersion (m : mem) (header : Z) : Z := (m header .& 0xF0) >> 4.

(** The macro: 4 for a header of the size of an IPv4 header, else 6. *)
Definition Headers_setIpVersion (m : mem) (header size : Z) : mem :=
  set m header (m header .| u8 ((if size =? Headers_IP4Header_SIZE then 4 else 6) << 4)).

(** ** Fields of 16 bits: bit arithmetic through the byte order *)
Lemma auth_field_range m ac : mem_ok m -> 0 <= auth_field m ac < 2 ^ 16.
Proof. apply (load_range 2). Qed.
Lemma frag_field_range m f : mem_ok m -> 0 <= frag_field m f < 2 ^ 16.
Proof. apply (load_range 2). Qed.
Lemma auth_field_set m ac v : 0 <= v < 2 ^ 16 -> auth_field (set_auth_field m ac v) ac = v.
Proof. intros Hv. unfold auth_field, set_auth_field. rewrite load_write_store. apply Z.mod_small, Hv. Qed.
Lemma frag_field_set m ac v : 0 <= v < 2 ^ 16 -> frag_field (set_frag_field m ac v) ac = v.
Proof. intros Hv. unfold frag_field, set_frag_field. rewrite load_write_store. apply Z.mod_small, Hv. Qed.

Lemma and_be_zero x c : 0 <= x < 2 ^ 16 -> 0 <= c < 2 ^ 16 ->
  (x .& Endian_hostToBigEndian16 c =? 0) = (Endian_hostToBigEndian16 x .& c =? 0).
Proof.
  intros Hx Hc. assert (0 <= x .& Endian_hostToBigEndian16 c < 2 ^ 16) as Hr by (apply land_range_l, Hx).
  assert (Endian_hostToBigEndian16 (x .& Endian_hostToBigEndian16 c) = Endian_hostToBigEndian16 x .& c) as E.
  { rewrite hostToBigEndian16_land by auto with cjdns. f_equal. apply (bigEndianToHost16_host c Hc). }
  rewrite <-E. apply eq_true_iff_eq. rewrite !Z.eqb_eq. split.
  - intros ->. unfold Endian_hostToBigEndian16. destruct host_is_big_endian; reflexivity.
  - intros H. apply (f_equal Endian_hostToBigEndian16) in H.
    change (Endian_bigEndianToHost16 (Endian_hostToBigEndian16 (x .& Endian_hostToBigEndian16 c))
            = Endian_hostToBigEndian16 0) in H.
    rewrite bigEndianToHost16_host in H by done. rewrite H.
    unfold Endian_hostToBigEndian16. destruct host_is_big_endian; reflexivity.
Qed.

Lemma be_or_set x c : 0 <= x < 2 ^ 16 -> 0 <= c < 2 ^ 16 ->
  Endian_hostToBigEndian16 (x .| Endian_hostToBigEndian16 c) = Endian_hostToBigEndian16 x .| c.
Proof.
  intros Hx Hc. rewrite hostToBigEndian16_lor by auto with cjdns. f_equal. apply (bigEndianToHost16_host c Hc).
Qed.
Lemma be_and_set x c : 0 <= x < 2 ^ 16 -> 0 <= c < 2 ^ 16 ->
  Endian_hostToBigEndian16 (x .& Endian_hostToBigEndian16 c) = Endian_hostToBigEndian16 x .& c.
Proof.
  intros Hx Hc. rewrite hostToBigEndian16_land by auto with cjdns. f_equal. apply (bigEndianToHost16_host c Hc).
Qed.
End headers.
#[export] Hint Resolve auth_field_range frag_field_range : cjdns.

Section properties.
  Context {P : Platform}.

(** The value the header's low word decodes to, after it is set. *)
Lemma lowBits_set m h priority messageType :
  0 <= messageType ->
  Endian_bigEndianToHost32 (load 4 (Headers_setPriorityAndMessageType m h priority messageType) (h + SwitchHeader_lowBits_be))
  = priority mod 2 ^ 24 + (messageType mod 2 ^ 8) * 2 ^ 24.
Proof.
  intros Ht. unfold Headers_setPriorityAndMessageType.
  change ((1 << 24) - 1) with (Z.ones 24). rewrite Z.land_ones by lia.
  pose proof (Z.mod_pos_bound priority (2 ^ 24) ltac:(lia)).
  pose proof (Z.mod_pos_bound messageType (2 ^ 8) ltac:(lia)).
  assert (u32 (messageType << 24) = (messageType mod 2 ^ 8) << 24) as ->.
  { unfold u32. rewrite !Z.shiftl_mul_pow2 by lia. change (2 ^ 32) with (2 ^ 8 * 2 ^ 24).
    rewrite Z.mul_mod_distr_r by lia. done. }
  rewrite lor_shiftl_add by lia. rewrite load_write_store, Z.mod_small by (apply hostToBigEndian32_range; lia).
  apply bigEndianToHost32_host. lia.
Qed.

(** Setting the priority and the type of a switch header stores the
    priority's low 24 bits and the type's low 8 bits and leaves the label and
    every other byte of the message alone. *)
Theorem Headers_switchHeader_fields m h priority messageType :
  0 <= messageType ->
  let m' := Headers_setPriorityAndMessageType m h priority messageType in
  Headers_getPriority m' h = priority mod 2 ^ 24
  /\ Headers_getMessageType m' h = messageType mod 2 ^ 8
  /\ forall x, x < h + 8 \/ h + 12 <= x -> m' x = m x.
Proof.
  intros Ht m'. unfold Headers_getPriority, Headers_getMessageType. subst m'.
  rewrite lowBits_set by done. pose proof (Z.mod_pos_bound priority (2 ^ 24) ltac:(lia)).
  change ((1 << 24) - 1) with (Z.ones 24). rewrite Z.land_ones, Z.shiftr_div_pow2 by lia.
  rewrite Z.mod_add, Z.div_add, Z.div_small by lia. rewrite Z.mod_small by lia.
  split; [done|]. split; [lia|]. intros x Hx. apply write_out. rewrite length_store.
  unfold SwitchHeader_lowBits_be. lia.
Qed.

Lemma authChallenge_fields m ac require derivations :
  mem_ok m -> 0 <= derivations < 2 ^ 16 ->
  let m1 := Headers_setPacketAuthRequired m ac require in
  let m2 := Headers_setAuthChallengeDerivations m ac derivations in
  Headers_isPacketAuthRequired m1 ac = require
  /\ Headers_getAuthChallengeDerivations m1 ac = Headers_getAuthChallengeDerivations m ac
  /\ Headers_isPacketAuthRequired m2 ac = Headers_isPacketAuthRequired m ac
  /\ Headers_getAuthChallengeDerivations m2 ac = derivations mod 2 ^ 15.
Proof.
  intros Hm Hd. pose proof (auth_field_range m ac Hm) as Hf.
  change (u16 (Z.lnot 0) >> 1) with (Z.ones 15).
  unfold Headers_isPacketAuthRequired, Headers_getAuthChallengeDerivations, Headers_setPacketAuthRequired,
    Headers_setAuthChallengeDerivations.
  change (u16 (Z.lnot 0) >> 1) with (Z.ones 15). change (u16 (Z.lnot (1 << 15))) with (Z.ones 15).
  change (1 << 15) with (2 ^ 15) in *.
  assert (derivations .& Z.lnot (2 ^ 15) = derivations mod 2 ^ 15) as ->.
  { apply Z.bits_inj'. intros i Hi. rewrite testbit_mod, Z.land_spec, Z.lnot_spec, Z.pow2_bits_eqb by lia.
    destruct (Z.eqb_spec 15 i) as [<-|]; [rewrite Z.ltb_irrefl; apply andb_false_r|]. rewrite andb_true_r.
    destruct (Z.ltb_spec i 15); [done|]. apply (testbit_high _ 16); lia. }
  pose proof (Z.mod_pos_bound derivations (2 ^ 15) ltac:(lia)).
  set (d := derivations mod 2 ^ 15) in *.
  assert (0 <= Endian_hostToBigEndian16 (2 ^ 15) < 2 ^ 16) as Hc by (apply hostToBigEndian16_range; lia).
  assert (0 <= Endian_hostToBigEndian16 d < 2 ^ 16) as Hdr by (apply hostToBigEndian16_range; lia).
  assert (0 <= Endian_hostToBigEndian16 (auth_field m ac) < 2 ^ 16) as Hv by auto with cjdns.
  set (f := auth_field m ac) in *. set (v := Endian_hostToBigEndian16 f) in *.
  assert (forall x, 0 <= x < 2 ^ 15 -> x .& 2 ^ 15 = 0) as Hlow.
  { intros x Hx. apply Z.bits_inj'. intros i Hi. rewrite Z.land_spec, Z.pow2_bits_eqb, Z.bits_0 by lia.
    destruct (Z.eqb_spec 15 i) as [<-|]; [rewrite (testbit_high x 15) by lia|]; rewrite ?andb_false_r; done. }
  split; [|split; [|split]].
  - destruct require; rewrite auth_field_set by (auto using lor_range with cjdns || apply land_range_l, Hf || (apply lor_range; done || lia)).
    + rewrite and_be_zero by (done || lia || (apply lor_range; done || lia)). rewrite be_or_set by lia. fold v.
      rewrite Z.land_lor_distr_l, Z.land_diag. destruct (Z.eqb_spec ((v .& 2 ^ 15) .| 2 ^ 15) 0) as [E|]; [|done].
      apply Z.lor_eq_0_iff in E as [_ E]. done.
    + rewrite and_be_zero by (done || lia || apply land_range_l, Hf). rewrite be_and_set by (vm_compute; done || lia). fold v.
      rewrite <-Z.land_assoc. change (Z.ones 15 .& 2 ^ 15) with 0. rewrite Z.land_0_r. done.
  - destruct require; rewrite auth_field_set by (apply land_range_l, Hf || (apply lor_range; done || lia)).
    + rewrite be_or_set by lia. fold v. rewrite Z.land_lor_distr_l. change (2 ^ 15 .& Z.ones 15) with 0. apply Z.lor_0_r.
    + rewrite be_and_set by (vm_compute; done || lia). fold v. rewrite <-Z.land_assoc, Z.land_diag. done.
  - rewrite (auth_field_set _ _ (_ .& _)) by apply land_range_l, Hf.
    assert (0 <= f .& Endian_hostToBigEndian16 (2 ^ 15) < 2 ^ 16) as Hfc by apply land_range_l, Hf.
    rewrite auth_field_set by (apply lor_range; done || lia).
    rewrite !and_be_zero by (done || lia || (apply lor_range; done || lia)).
    rewrite be_or_set, be_and_set by lia. fold v. rewrite Z.land_lor_distr_l, (Hlow d), Z.lor_0_r by lia.
    rewrite <-Z.land_assoc, Z.land_diag. done.
  - rewrite (auth_field_set _ _ (_ .& _)) by apply land_range_l, Hf.
    assert (0 <= f .& Endian_hostToBigEndian16 (2 ^ 15) < 2 ^ 16) as Hfc by apply land_range_l, Hf.
    rewrite auth_field_set by (apply lor_range; done || lia).
    rewrite be_or_set, be_and_set by lia. fold v. rewrite Z.land_lor_distr_l, <-Z.land_assoc.
    change (2 ^ 15 .& Z.ones 15) with 0. rewrite Z.land_0_r, Z.lor_0_l, Z.land_ones, Z.mod_small by lia. done.
Qed.

(** The "packet auth required" flag and the 15-bit derivation count share a
    field but do not disturb each other: setting one is read back, the other
    keeps its value. *)
Theorem Headers_authChallenge_fields m ac require derivations :
  mem_ok m -> 0 <= derivations < 2 ^ 16 ->
  let m1 := Headers_setPacketAuthRequired m ac require in
  let m2 := Headers_setAuthChallengeDerivations m ac derivations in
  Headers_isPacketAuthRequired m1 ac = require
  /\ Headers_getAuthChallengeDerivations m1 ac = Headers_getAuthChallengeDerivations m ac
  /\ Headers_isPacketAuthRequired m2 ac = Headers_isPacketAuthRequired m ac
  /\ Headers_getAuthChallengeDerivations m2 ac = derivations mod 2 ^ 15.
Proof. apply authChallenge_fields. Qed.
End properties.

Lemma Headers_switchHeader_fields_witness :
  let m' := @Headers_setPriorityAndMessageType x86 (of_list []) 3 0x7FFFFFFF 0x101 in
  @Headers_getPriority x86 m' 3 = 0x7FFFFFFF mod 2 ^ 24
  /\ @Headers_getMessageType x86 m' 3 = 0x101 mod 2 ^ 8
  /\ forall x, x < 3 + 8 \/ 3 + 12 <= x -> m' x = of_list [] x.
Proof. apply (@Headers_switchHeader_fields x86 (of_list []) 3 0x7FFFFFFF 0x101). lia. Defined.

Lemma Headers_authChallenge_fields_witness :
  let m := of_list (repeat 0xff 12) in
  let m2 := @Headers_setAuthChallengeDerivations x86 m 0 2 in
  @Headers_isPacketAuthRequired x86 m2 0 = true /\ @Headers_getAuthChallengeDerivations x86 m2 0 = 2.
Proof.
  refine (let H := @Headers_authChallenge_fields x86 (of_list (repeat 0xff 12)) 0 true 2 _ _ in
    conj (proj1 (proj2 (proj2 H))) (proj2 (proj2 (proj2 H)))).
  - apply of_list_ok. repeat constructor; unfold is_byte; lia.
  - lia.
Defined.
