(* ===== verification/Message.v ===== *)
(** * Messages (wire/Message.h)

    A message is a window in a buffer: [length] bytes at address [bytes], with
    [padding] bytes of the buffer before it. Headers are pushed into the padding
    and popped back into it. [Message_shift] aborts the program (the assertion)
    rather than leave the buffer; that is [None]. *)
From S2P Require Import Prelude Memory.

Record Message := {
  length : Z;
  padding : Z;
  bytes : Z;
  buffer : mem
}.

Definition with_buffer (msg : Message) (m : mem) : Message :=
  {| length := msg.(length); padding := msg.(padding); bytes := msg.(bytes); buffer := m |}.

Definition with_length (msg : Message) (n : Z) : Message :=
  {| length := n; padding := msg.(padding); bytes := msg.(bytes); buffer := msg.(buffer) |}.

(** The allocator hands out fresh memory at address [allocation]. *)
Definition Message_clone (toClone : Message) (allocation : Z) (fresh : mem) : Message :=
  let fresh := write fresh allocation
    (read toClone.(buffer) (toClone.(bytes) - toClone.(padding)) (toClone.(length) + toClone.(padding))) in
  {| length := toClone.(length); padding := toClone.(padding);
     bytes := allocation + toClone.(padding); buffer := fresh |}.

(** [realloc] gives the allocation and the memory it lies in when the output's
    buffer is too small. *)
Definition Message_copyOver (output input : Message) (realloc : Z * mem) : Message :=
  let inTotalLength := input.(length) + input.(padding) in
  let outTotalLength := output.(length) + output.(padding) in
  let '(allocation, m) :=
    if outTotalLength <? inTotalLength then realloc
    else (output.(bytes) - output.(padding), output.(buffer)) in
  let m := write m allocation (read input.(buffer) (input.(bytes) - input.(padding)) inTotalLength) in
  {| bytes := allocation + input.(padding); length := input.(length);
     padding := input.(padding); buffer := m |}.

Definition Message_shift (toShift : Message) (amount : Z) : option Message :=
  if (if 0 <? amount then amount <=? toShift.(padding) else - amount <=? toShift.(length))
  then Some {| length := toShift.(length) + amount;
               padding := toShift.(padding) - amount;
               bytes := toShift.(bytes) - amount;
               buffer := toShift.(buffer) |}
  else None.

Definition Message_push (msg : Message) (object : list Z) : option Message :=
  msg ← Message_shift msg (Z.of_nat (List.length object));
  Some (with_buffer msg (write msg.(buffer) msg.(bytes) object)).

(** The bytes popped, and the message after it. *)
Definition Message_pop (msg : Message) (size : Z) : option (list Z * Message) :=
  let object := read msg.(buffer) msg.(bytes) size in
  msg ← Message_shift msg (- size);
  Some (object, msg).

(** The content, and the well-formedness every operation keeps. *)
Definition content (msg : Message) : list Z := read msg.(buffer) msg.(bytes) msg.(length).
Definition message_ok (msg : Message) : Prop :=
  0 <= msg.(length) < 2 ^ 31 /\ 0 <= msg.(padding) /\ msg.(length) + msg.(padding) < 2 ^ 31
  /\ mem_ok msg.(buffer).

Lemma shift_some msg amount msg' :
  message_ok msg -> Message_shift msg amount = Some msg' ->
  message_ok msg' /\ msg'.(length) = msg.(length) + amount /\ msg'.(padding) = msg.(padding) - amount
  /\ msg'.(bytes) = msg.(bytes) - amount /\ msg'.(buffer) = msg.(buffer).
Proof.
  unfold message_ok, Message_shift. intros (Hl & Hp & Ht & Hm) E.
  destruct (Z.ltb_spec 0 amount).
  - destruct (Z.leb_spec amount msg.(padding)); [|done]. injection E as <-. cbn. split_and!; lia || done.
  - destruct (Z.leb_spec (- amount) msg.(length)); [|done]. injection E as <-. cbn. split_and!; lia || done.
Qed.

Lemma shift_up msg amount :
  0 < amount <= msg.(padding) ->
  Message_shift msg amount = Some {| length := msg.(length) + amount; padding := msg.(padding) - amount;
                                     bytes := msg.(bytes) - amount; buffer := msg.(buffer) |}.
Proof.
  intros H. unfold Message_shift. destruct (Z.ltb_spec 0 amount); [|lia].
  destruct (Z.leb_spec amount msg.(padding)); [done|lia].
Qed.

Lemma shift_down msg amount :
  0 <= amount <= msg.(length) ->
  Message_shift msg (- amount) = Some {| length := msg.(length) - amount; padding := msg.(padding) + amount;
                                         bytes := msg.(bytes) + amount; buffer := msg.(buffer) |}.
Proof.
  intros H. unfold Message_shift. destruct (Z.ltb_spec 0 (- amount)); [lia|].
  destruct (Z.leb_spec (- - amount) msg.(length)); [|lia]. f_equal. f_equal; lia.
Qed.

(** Reading inside the content. *)
Lemma content_length msg : 0 <= length msg -> Z.of_nat (List.length (content msg)) = length msg.
Proof. intros H. unfold content. rewrite length_read. lia. Qed.

Lemma content_ok msg : mem_ok msg.(buffer) -> bytes_ok (content msg).
Proof. apply read_ok. Qed.

Lemma content_eq_at p q i : content q = content p -> length q = length p -> 0 <= i < length p ->
  buffer q (bytes q + i) = buffer p (bytes p + i).
Proof. unfold content. intros E El Hi. rewrite El in E. apply (read_inj _ _ _ _ _ i E Hi). Qed.

Lemma content_eq_read p q o n : content q = content p -> length q = length p -> 0 <= o -> o + n <= length p ->
  read (buffer q) (bytes q + o) n = read (buffer p) (bytes p + o) n.
Proof.
  intros E El Ho Hn. apply read_ext. intros i Hi. rewrite <-!Z.add_assoc. apply content_eq_at; done || lia.
Qed.

Lemma push_some msg object : 0 <= length msg -> 0 < Z.of_nat (List.length object) <= padding msg ->
  exists msg', Message_push msg object = Some msg' /\ content msg' = object ++ content msg /\
    length msg' = length msg + Z.of_nat (List.length object) /\
    padding msg' = padding msg - Z.of_nat (List.length object) /\
    bytes msg' = bytes msg - Z.of_nat (List.length object).
Proof.
  intros Hl Hn. unfold Message_push. set (n := Z.of_nat (List.length object)) in *.
  rewrite shift_up by lia. cbn [mbind option_bind]. eexists. split; [done|]. unfold content, with_buffer. cbn.
  split; [|done].
  rewrite (read_split _ _ _ n), read_write_same by lia. f_equal.
  replace (bytes msg - n + n) with (bytes msg) by lia. replace (length msg + n - n) with (length msg) by lia.
  apply read_write_disj. lia.
Qed.

(** ** Properties *)

(** Pushing an object succeeds exactly when the padding can hold it; the
    message then reads as the object followed by the old content, popping the
    object's size gives the object back and restores length, padding, position
    and content. *)
Theorem Message_push_pop msg object :
  message_ok msg -> object <> [] ->
  match Message_push msg object with
  | None => msg.(padding) < Z.of_nat (List.length object)
  | Some msg' =>
      Z.of_nat (List.length object) <= msg.(padding)
      /\ content msg' = object ++ content msg
      /\ exists msg'', Message_pop msg' (Z.of_nat (List.length object)) = Some (object, msg'')
         /\ msg''.(length) = msg.(length) /\ msg''.(padding) = msg.(padding)
         /\ msg''.(bytes) = msg.(bytes) /\ content msg'' = content msg
  end.
Proof.
  intros (Hl & Hp & Ht & Hm) Hne. unfold Message_push.
  assert (0 < Z.of_nat (List.length object)) as Hn by (destruct object; [done|cbn; lia]).
  set (n := Z.of_nat (List.length object)) in *.
  destruct (decide (n <= msg.(padding))) as [Hle|Hgt].
  - rewrite shift_up by lia. cbn [mbind option_bind]. unfold content, Message_pop, with_buffer. cbn.
    assert (read (write (buffer msg) (bytes msg - n) object) (bytes msg) (length msg)
            = read (buffer msg) (bytes msg) (length msg)) as Erest by (apply read_write_disj; lia).
    split; [done|]. split.
    + rewrite (read_split _ _ _ n) by lia. rewrite read_write_same by done.
      replace (bytes msg - n + n) with (bytes msg) by lia.
      replace (length msg + n - n) with (length msg) by lia. rewrite Erest. done.
    + rewrite shift_down by (cbn; lia). cbn. eexists. split; [rewrite read_write_same by done; done|]. cbn.
      replace (bytes msg - n + n) with (bytes msg) by lia. replace (length msg + n - n) with (length msg) by lia.
      split_and!; lia || done.
  - unfold Message_shift. destruct (Z.ltb_spec 0 n); [|lia]. destruct (Z.leb_spec n (padding msg)); [lia|].
    cbn. lia.
Qed.

Lemma Message_push_pop_witness :
  let msg := {| length := 3; padding := 8; bytes := 8; buffer := of_list (repeat 7 11) |} in
  match Message_push msg [1; 2] with
  | None => 8 < 2
  | Some msg' =>
      2 <= 8 /\ content msg' = [1; 2] ++ content msg
      /\ exists msg'', Message_pop msg' 2 = Some ([1; 2], msg'')
         /\ msg''.(length) = 3 /\ msg''.(padding) = 8 /\ msg''.(bytes) = 8 /\ content msg'' = content msg
  end.
Proof.
  apply (Message_push_pop {| length := 3; padding := 8; bytes := 8; buffer := of_list (repeat 7 11) |} [1; 2]).
  - unfold message_ok. cbn [length padding buffer]. split_and!; try lia.
    all: apply of_list_ok; repeat constructor; unfold is_byte; lia.
  - done.
Defined.
