(* ===== verification/SwitchCore.v ===== *)
(** * The switch (switch/SwitchCore.c)

    A switch is a table of interfaces, indexed by the numbers that labels carry.
    A message arriving on an interface is forwarded to the interface its label
    names; on the way the label loses that number and gains, reversed at the
    other end, the number of the interface it came from, so that the reversed
    label of a received message is the way back.

    An interface is identified by a number (its address in the C program). What
    an interface does with a message given to its [sendMessage], and the error
    code it returns, belongs to other code: it is the parameter [iface_send]. The
    handlers return the messages given to interfaces, in order; [None] is an
    aborted program (a failed assertion or a NULL dereference). *)
From stdpp Require Import gmap.
From S2P Require Import Prelude Memory Endian Bits Checksum NumberCompress Headers Message LabelSplicer.

Definition Iface : Type := Z.

Record SwitchInterface := {
  si_iface : option Iface;
  (** The interface whose allocator holds the job that empties this slot. *)
  si_onFree : option Iface;
  si_buffer : Z;
  si_bufferMax : Z;
  si_congestion : Z
}.

(** A slot of zero bytes. *)
Definition vacant : SwitchInterface :=
  {| si_iface := None; si_onFree := None; si_buffer := 0; si_bufferMax := 0; si_congestion := 0 |}.

Record SwitchCore := {
  interfaces : gmap Z SwitchInterface;
  (** A [uint32_t]. *)
  interfaceCount : Z;
  routerAdded : bool;
  (** The slot each attached interface's [receiverContext] points to. *)
  receiverContext : gmap Iface Z
}.

Definition slot (core : SwitchCore) (i : Z) : SwitchInterface :=
  default vacant (core.(interfaces) !! i).

Definition SwitchCore_new : SwitchCore :=
  {| interfaces := ∅; interfaceCount := 0; routerAdded := false; receiverContext := ∅ |}.

(** ** Attaching and detaching interfaces *)
Definition set_slot (core : SwitchCore) (i : Z) (si : SwitchInterface) : SwitchCore :=
  {| interfaces := <[i := si]> core.(interfaces); interfaceCount := core.(interfaceCount);
     routerAdded := core.(routerAdded); receiverContext := core.(receiverContext) |}.

Definition set_context (core : SwitchCore) (iface : Iface) (i : Z) : SwitchCore :=
  {| interfaces := core.(interfaces); interfaceCount := core.(interfaceCount);
     routerAdded := core.(routerAdded); receiverContext := <[iface := i]> core.(receiverContext) |}.

Definition removeInterface (core : SwitchCore) (i : Z) : SwitchCore := set_slot core i vacant.

(** Freeing an interface's allocator runs the jobs it holds. *)
Definition free_interface (core : SwitchCore) (iface : Iface) : SwitchCore :=
  {| interfaces := (fun si => if decide (si.(si_onFree) = Some iface) then vacant else si) <$> core.(interfaces);
     interfaceCount := core.(interfaceCount); routerAdded := core.(routerAdded);
     receiverContext := core.(receiverContext) |}.

Definition with_onFree (si : SwitchInterface) (job : option Iface) : SwitchInterface :=
  {| si_iface := si.(si_iface); si_onFree := job; si_buffer := si.(si_buffer);
     si_bufferMax := si.(si_bufferMax); si_congestion := si.(si_congestion) |}.

(** [notOnFree(job, alloc)]: the job is found in, and removed from, the
    allocator of [iface]. *)
Definition notOnFree (core : SwitchCore) (i : Z) (iface : Iface) : option SwitchCore :=
  if decide ((slot core i).(si_onFree) = Some iface)
  then Some (set_slot core i (with_onFree (slot core i) None)) else None.

Definition SwitchCore_swapInterfaces (core : SwitchCore) (if1 if2 : Iface) : option SwitchCore :=
  si1 ← core.(receiverContext) !! if1;
  si2 ← core.(receiverContext) !! if2;
  core ← notOnFree core si1 if1;
  core ← notOnFree core si2 if2;
  let si3 := slot core si1 in
  let core := set_slot core si1 (slot core si2) in
  let core := set_slot core si2 si3 in
  let core := set_slot core si1 (with_onFree (slot core si1) (Some if2)) in
  let core := set_slot core si2 (with_onFree (slot core si2) (Some if1)) in
  let core := set_context core if1 si2 in
  Some (set_context core if2 si1).

Section switch.
  Context {P : Platform}.

Inductive AddResult :=
  | Added (core : SwitchCore) (labelOut : Z)
  | OutOfSpace
  (** An access past the end of the table. *)
  | OutOfBounds.

(** Where the scan for a vacant slot looks first, and where the new interface
    goes if there is none. *)
Definition next_index (core : SwitchCore) : Z :=
  let ifIndex := core.(interfaceCount) in
  if (0 <? ifIndex) && negb core.(routerAdded) then u32 (ifIndex + 1)
  else if ifIndex =? 1 then ifIndex - 1
  else ifIndex.

Definition vacant_index (core : SwitchCore) (ifIndex : Z) : unit + option Z :=
  for_until (Z.to_nat ifIndex) 0 (fun i _ =>
    if NumberCompress_INTERFACES <=? i then inr None
    else if bool_decide ((slot core i).(si_iface) = None) && negb (i =? 1) then inr (Some i)
    else inl tt) tt.

Definition place_interface (core : SwitchCore) (iface : Iface) (trust ifIndex : Z) : AddResult :=
  if ifIndex =? NumberCompress_INTERFACES then OutOfSpace
  else if NumberCompress_INTERFACES <? ifIndex then OutOfBounds
  else
    let core := set_slot core ifIndex
      {| si_iface := Some iface; si_onFree := Some iface; si_buffer := 0;
         si_bufferMax := s64 trust; si_congestion := 0 |} in
    let core := set_context core iface ifIndex in
    let bits := NumberCompress_bitsUsedForNumber ifIndex in
    let labelOut := NumberCompress_getCompressed ifIndex bits .| (1 << bits) in
    Added {| interfaces := core.(interfaces); interfaceCount := u32 (core.(interfaceCount) + 1);
             routerAdded := core.(routerAdded); receiverContext := core.(receiverContext) |} labelOut.

Definition SwitchCore_addInterface (iface : Iface) (trust : Z) (core : SwitchCore) : AddResult :=
  let ifIndex := next_index core in
  match vacant_index core ifIndex with
  | inr None => OutOfBounds
  | inr (Some i) => place_interface core iface trust i
  | inl _ => place_interface core iface trust ifIndex
  end.

Definition SwitchCore_setRouterInterface (iface : Iface) (core : SwitchCore) : SwitchCore :=
  let core := set_slot core 1
    {| si_iface := Some iface; si_onFree := None; si_buffer := 0;
       si_bufferMax := INT64_MAX; si_congestion := 0 |} in
  let core := set_context core iface 1 in
  {| interfaces := core.(interfaces); interfaceCount := u32 (core.(interfaceCount) + 1);
     routerAdded := true; receiverContext := core.(receiverContext) |}.

(** ** Forwarding *)

(** What an interface does with a message given to it: the message as it leaves
    it, and the error code. *)
Context (iface_send : Iface -> Message -> Message * Z).

Definition Sent : Type := Iface * Message.

Definition with_label (msg : Message) (header label_be : Z) : Message :=
  with_buffer msg (write msg.(buffer) (header + SwitchHeader_label_be) (store 8 label_be)).

(** The message after the call, the error, and what was given to the interface. *)
Definition sendMessage (switchIf : SwitchInterface) (toSend : Message) : option (Message * Z * list Sent) :=
  let switchHeader := toSend.(bytes) in
  let priority := Headers_getPriority toSend.(buffer) switchHeader in
  let toSend :=
    if switchIf.(si_bufferMax) <? switchIf.(si_buffer) + priority then
      let messageType := Headers_getMessageType toSend.(buffer) switchHeader in
      with_buffer toSend (Headers_setPriorityAndMessageType toSend.(buffer) switchHeader 0 messageType)
    else toSend in
  iface ← switchIf.(si_iface);
  let '(after, err) := iface_send iface toSend in
  Some (after, (if negb (err =? 0) then err else Error_NONE), [(iface, toSend)]).

(** [struct ErrorPacket]: a switch header, then a control packet with the error
    type and, where the original header already is, the cause. *)
Definition ErrorPacket_ctrl : Z := Headers_SwitchHeader_SIZE.

Definition sendError (iface : SwitchInterface) (cause : Message) (code : Z) : option (list Sent) :=
  let header := cause.(bytes) in
  if (Headers_getMessageType cause.(buffer) header =? Headers_SwitchHeader_TYPE_CONTROL)
     && (load 2 cause.(buffer) (cause.(bytes) + ErrorPacket_ctrl + Control_type_be) =? Control_ERROR_be)
  then Some []
  else
    let cause := with_length cause
      (if length cause <? Control_Error_MAX_SIZE then length cause else Control_Error_MAX_SIZE) in
    cause ← Message_shift cause (Headers_SwitchHeader_SIZE + Control_HEADER_SIZE + Control_Error_HEADER_SIZE);
    let err := cause.(bytes) in
    let ctrl := err + ErrorPacket_ctrl in
    let m := cause.(buffer) in
    let m := write m (err + SwitchHeader_label_be)
               (store 8 (Bits_bitReverse64 (load 8 m (header + SwitchHeader_label_be)))) in
    let m := Headers_setPriorityAndMessageType m err (Headers_getPriority m header)
               Headers_SwitchHeader_TYPE_CONTROL in
    let m := write m (ctrl + Control_type_be) (store 2 Control_ERROR_be) in
    let m := write m (ctrl + Control_content + Control_Error_errorType_be)
               (store 4 (Endian_hostToBigEndian32 code)) in
    let m := write m (ctrl + Control_checksum_be) (store 2 0) in
    let m := write m (ctrl + Control_checksum_be)
               (store 2 (Checksum_engine m ctrl (length cause - Headers_SwitchHeader_SIZE))) in
    '(_, _, sent) ← sendMessage iface (with_buffer cause m);
    Some sent.

(** [receiveMessage] for a message arriving on the interface in slot
    [sourceIndex]. It always returns Error_NONE, and leaves the table alone. *)
Definition receiveMessage (core : SwitchCore) (sourceIndex : Z) (message : Message) : option (list Sent) :=
  let sourceIf := slot core sourceIndex in
  if sourceIf.(si_bufferMax) <? sourceIf.(si_buffer) then Some []
  else if length message <? Headers_SwitchHeader_SIZE then Some []
  else
    let header := message.(bytes) in
    let label := Endian_bigEndianToHost64 (load 8 message.(buffer) (header + SwitchHeader_label_be)) in
    let bits := NumberCompress_bitsUsedForLabel label in
    let destIndex := NumberCompress_getDecompressed label bits in
    let sourceBits := NumberCompress_bitsUsedForNumber sourceIndex in
    if negb (destIndex <? NumberCompress_INTERFACES) then None
    else if negb (sourceIndex <? NumberCompress_INTERFACES) then None
    else if (1 =? destIndex) && negb (1 =? (label .& 0xf)) then
      sendError sourceIf message Error_MALFORMED_ADDRESS
    else if (1 =? destIndex) && negb (bits =? 4) then None
    else
      let forward bits :=
        if bool_decide ((slot core destIndex).(si_iface) = None) then
          sendError sourceIf message Error_MALFORMED_ADDRESS
        else
          let sourceLabel := Bits_bitReverse64 (NumberCompress_getCompressed sourceIndex bits) in
          let targetLabel := (label >> bits) .| sourceLabel in
          let message := with_label message header (Endian_hostToBigEndian64 targetLabel) in
          '(message, err, sent) ← sendMessage (slot core destIndex) message;
          if negb (err =? 0) then
            let message := with_label message header (Endian_bigEndianToHost64 label) in
            sent' ← sendError sourceIf message err;
            Some (sent ++ sent')
          else Some sent in
      if bits <? sourceBits then
        if destIndex =? 1 then
          if negb (0 =? ((label .^ 1) .& (UINT64_MAX >> (64 - sourceBits)))) then
            sendError sourceIf message Error_MALFORMED_ADDRESS
          else forward sourceBits
        else if 1 =? sourceIndex then
          if negb (0 =? label >> (bits + 64 - sourceBits)) then
            sendError sourceIf message Error_MALFORMED_ADDRESS
          else forward bits
        else sendError sourceIf message Error_MALFORMED_ADDRESS
      else forward bits.
End switch.

(** ** What the handler does with a label: the specification of forwarding *)
Section route.
  Context {P : Platform}.

(** The destination and the new label, or [None] if the label is malformed
    there. *)
Definition route (core : SwitchCore) (sourceIndex label : Z) : option (Z * Z) :=
  let bits := NumberCompress_bitsUsedForLabel label in
  let destIndex := NumberCompress_getDecompressed label bits in
  let sourceBits := NumberCompress_bitsUsedForNumber sourceIndex in
  width ← (if sourceBits <=? bits then Some bits
           else if (destIndex =? 1) && ((label .^ 1) mod 2 ^ sourceBits =? 0) then Some sourceBits
           else None);
  if bool_decide ((slot core destIndex).(si_iface) = None) then None
  else Some (destIndex, (label >> width) .| Bits_bitReverse64 (NumberCompress_getCompressed sourceIndex width)).

Definition label_of (msg : Message) : Z :=
  Endian_bigEndianToHost64 (load 8 msg.(buffer) (msg.(bytes) + SwitchHeader_label_be)).

Lemma label_of_range msg : mem_ok msg.(buffer) -> 0 <= label_of msg < 2 ^ 64.
Proof. intros Hm. apply hostToBigEndian64_range, (load_range 8), Hm. Qed.

Lemma label_of_with_label msg T : 0 <= T < 2 ^ 64 ->
  label_of (with_label msg msg.(bytes) (Endian_hostToBigEndian64 T)) = T.
Proof.
  intros HT. unfold label_of, with_label, with_buffer. cbn [buffer bytes].
  rewrite load_write_store, Z.mod_small by (apply hostToBigEndian64_range; done).
  apply bigEndianToHost64_host, HT.
Qed.

Lemma label_of_set_priority msg p t :
  label_of (with_buffer msg (Headers_setPriorityAndMessageType msg.(buffer) msg.(bytes) p t)) = label_of msg.
Proof.
  unfold label_of, with_buffer. cbn [buffer bytes]. f_equal. apply load_read, read_write_disj.
  unfold SwitchHeader_label_be, SwitchHeader_lowBits_be. lia.
Qed.

(** *** Reversed labels *)
Lemma reverse_low L w c : 0 <= L < 2 ^ 64 -> 0 <= w <= 64 -> 0 <= c < 2 ^ w ->
  Bits_bitReverse64 ((L >> w) .| Bits_bitReverse64 c) mod 2 ^ w = c.
Proof.
  intros HL Hw Hc. assert (2 ^ w <= 2 ^ 64) by (apply Z.pow_le_mono_r; lia).
  rewrite bitReverse64_lor, bitReverse64_shiftr, bitReverse64_twice by lia.
  apply Z.bits_inj'. intros i Hi. rewrite testbit_mod, Z.lor_spec by lia.
  destruct (Z.ltb_spec i w); [|symmetry; apply (testbit_high c w); lia].
  unfold u64. rewrite testbit_mod, Z.shiftl_spec_low by lia. rewrite andb_false_r. done.
Qed.

Lemma reverse_back L w w' c d :
  0 <= L < 2 ^ 64 -> 0 <= w -> w <= 64 -> 0 <= w' <= 64 -> 0 <= c < 2 ^ w' -> 0 <= d < 2 ^ 64 ->
  (L >> w) << w' < 2 ^ 64 ->
  Bits_bitReverse64 ((Bits_bitReverse64 ((L >> w) .| Bits_bitReverse64 c) >> w') .| Bits_bitReverse64 d)
  = ((L >> w) << w') .| d.
Proof.
  intros HL Hw0 Hw Hw' Hc Hd Hfit. assert (2 ^ w' <= 2 ^ 64) by (apply Z.pow_le_mono_r; lia).
  assert (0 <= L >> w < 2 ^ 64) as HLw.
  { rewrite Z.shiftr_div_pow2 by lia. split; [apply Z.div_pos; lia|].
    apply Z.div_lt_upper_bound; [lia|]. assert (1 <= 2 ^ w) by lia. nia. }
  rewrite bitReverse64_lor, bitReverse64_shiftr, !bitReverse64_twice;
    [|done|apply lor_range; [lia|done|apply bitReverse64_range]|apply bitReverse64_range|done].
  f_equal. rewrite Z.shiftl_lor. unfold u64. rewrite <-Z.land_ones, Z.land_lor_distr_l, !Z.land_ones by lia.
  change ((Bits_bitReverse64 c << w') mod 2 ^ 64) with (u64 (Bits_bitReverse64 c << w')).
  rewrite <-bitReverse64_shiftr by lia.
  assert (c >> w' = 0) as -> by (rewrite Z.shiftr_div_pow2, Z.div_small by lia; done).
  change (Bits_bitReverse64 0) with 0. rewrite Z.lor_0_r. apply Z.mod_small.
  split; [apply Z.shiftl_nonneg; lia|done].
Qed.

Lemma shift_back L w : 0 <= L -> 0 <= w -> ((L >> w) << w) .| (L mod 2 ^ w) = L.
Proof.
  intros HL Hw. apply Z.bits_inj'. intros i Hi. rewrite Z.lor_spec, testbit_mod by lia.
  rewrite Z.shiftl_spec by lia. destruct (Z.ltb_spec i w).
  - rewrite Z.testbit_neg_r by lia. done.
  - rewrite Z.shiftr_spec by lia. rewrite orb_false_r. f_equal. lia.
Qed.

Lemma lxor_1_mod L w : 0 < w -> (L .^ 1) mod 2 ^ w = 0 <-> L mod 2 ^ w = 1.
Proof.
  intros Hw. assert (1 = 1 mod 2 ^ w) as E1 by (rewrite Z.mod_small; [done|]; pose proof (Z.pow_gt_1 2 w); lia).
  assert ((L .^ 1) mod 2 ^ w = (L mod 2 ^ w) .^ 1) as ->.
  { apply Z.bits_inj'. intros i Hi. rewrite testbit_mod, !Z.lxor_spec, testbit_mod by lia.
    destruct (Z.ltb_spec i w); [done|]. rewrite (testbit_high 1 1) by lia. done. }
  split; [intros H; apply Z.lxor_eq, H|intros ->; done].
Qed.

(** *** The return path, on labels *)

(** The width a forwarded message's numbers have: wide enough for both ends,
    and one at which the label names the destination. *)
Lemma route_width core s L d T :
  0 <= s < NumberCompress_INTERFACES -> 0 <= L ->
  route core s L = Some (d, T) ->
  d = NumberCompress_getDecompressed L (NumberCompress_bitsUsedForLabel L)
  /\ 0 <= d < NumberCompress_INTERFACES /\ (slot core d).(si_iface) <> None
  /\ exists w, 4 <= w <= 10
    /\ T = (L >> w) .| Bits_bitReverse64 (NumberCompress_getCompressed s w)
    /\ NumberCompress_bitsUsedForNumber s <= w /\ NumberCompress_bitsUsedForNumber d <= w
    /\ L mod 2 ^ w = NumberCompress_getCompressed d w
    /\ (s = 1 -> w = NumberCompress_bitsUsedForLabel L)
    /\ (s <> 1 -> 0 <= NumberCompress_getCompressed s w < 2 ^ w
        /\ forall l, l mod 2 ^ w = NumberCompress_getCompressed s w ->
             NumberCompress_bitsUsedForLabel l = w /\ NumberCompress_getDecompressed l w = s).
Proof.
  intros Hs HL. unfold route. cbv zeta.
  pose proof (bits_range (s := NumberCompress) L) as Hb. pose proof (decompressed_range (s := NumberCompress) L) as Hd.
  pose proof (number_bits_min (s := NumberCompress) L) as Hmin. pose proof (compress_decompress (s := NumberCompress) L) as Hcd.
  pose proof (one_number_bits (s := NumberCompress)) as H1. cbv zeta in Hcd.
  unfold NumberCompress_bitsUsedForLabel, NumberCompress_getDecompressed, NumberCompress_bitsUsedForNumber,
    NumberCompress_getCompressed, NumberCompress_INTERFACES in *.
  set (b := bitsUsedForLabel NumberCompress L) in *. set (dd := getDecompressed NumberCompress L b) in *.
  set (sb := bitsUsedForNumber NumberCompress s) in *.
  destruct (Z.leb_spec sb b) as [Hle|Hgt]; cbn [mbind option_bind].
  - case_bool_decide as Hv; [done|]. intros [= <- <-]. split; [done|]. split; [done|]. split; [done|].
    exists b. split_and!; try done; try lia. intros Hs1. apply (fits s L 0 Hs Hle) || idtac. split.
    + apply (fits s L 0); done.
    + intros l. apply (fits s L l); done.
  - destruct ((dd =? 1) && _) eqn:E; [|done]. apply andb_prop in E as [E1%Z.eqb_eq E2%Z.eqb_eq]. cbn [mbind option_bind].
    pose proof (number_bits_range (s := NumberCompress) s) as Hsb. fold sb in Hsb.
    case_bool_decide as Hv; [done|]. intros [= <- <-]. split; [done|]. split; [done|]. split; [done|].
    exists sb. rewrite E1, one_compressed. apply lxor_1_mod in E2; [|lia].
    split_and!; try done; try lia.
    + intros ->. unfold sb in Hgt. lia.
    + intros Hs1. split; [apply (compressed_range s Hs)|]. intros l. apply (decompress_compress s l Hs).
Qed.

(** The reply to the router: its label ends in 0001, and the number of the
    interface it comes from is written with the width that number needs. *)
Lemma route_back_router core L d w :
  0 <= L < 2 ^ 64 -> 4 <= w <= 10 -> 0 <= d < NumberCompress_INTERFACES ->
  (slot core 1).(si_iface) <> None ->
  d = NumberCompress_getDecompressed L (NumberCompress_bitsUsedForLabel L) ->
  w = NumberCompress_bitsUsedForLabel L -> NumberCompress_bitsUsedForNumber d <= w ->
  exists T', route core d (Bits_bitReverse64 ((L >> w) .| Bits_bitReverse64 (NumberCompress_getCompressed 1 w))) = Some (1, T')
    /\ (let L' := Bits_bitReverse64 T' in
        let bits' := NumberCompress_bitsUsedForLabel L' in
        (1 <> 1 -> L' = L)
        /\ NumberCompress_getDecompressed L' bits' = d
        /\ L' >> bits' = L >> NumberCompress_bitsUsedForLabel L).
Proof.
  intros HL Hw Hd Hatt Ed Ew Hdw.
  pose proof (one_compressed (s := NumberCompress) w) as Hc. change (NumberCompress_getCompressed 1 w = 1) in Hc.
  rewrite Hc. pose proof (Z.pow_gt_1 2 w ltac:(lia)) as Hpw.
  pose proof (reverse_low L w 1 HL ltac:(lia) ltac:(lia)) as El.
  set (R := Bits_bitReverse64 ((L >> w) .| Bits_bitReverse64 1)) in *.
  assert (forall k, 0 < k <= w -> R mod 2 ^ k = 1) as Hk.
  { intros k Hk. rewrite <-(mod_pow2_le R k w), El by lia. apply Z.mod_small. pose proof (Z.pow_gt_1 2 k). lia. }
  pose proof (Hk 4 ltac:(lia)) as H4. change (2 ^ 4) with 16 in H4.
  pose proof (one_bits (s := NumberCompress) R H4) as Eb. apply (one_iff (s := NumberCompress)) in H4 as En. rewrite Eb in En.
  change (NumberCompress_bitsUsedForLabel R = 4) in Eb. change (NumberCompress_getDecompressed R 4 = 1) in En.
  pose proof (number_bits_range (s := NumberCompress) d) as Hdb.
  change (4 <= NumberCompress_bitsUsedForNumber d <= 10) in Hdb.
  set (v := NumberCompress_bitsUsedForNumber d) in *.
  exists ((R >> v) .| Bits_bitReverse64 (NumberCompress_getCompressed d v)). split.
  - unfold route. cbv zeta. rewrite Eb, En. fold v.
    assert ((if v <=? 4 then Some 4 else if (1 =? 1) && ((R .^ 1) mod 2 ^ v =? 0) then Some v else None) = Some v) as ->.
    { destruct (Z.leb_spec v 4); [f_equal; lia|].
      assert ((R .^ 1) mod 2 ^ v = 0) as -> by (apply lxor_1_mod; [lia|apply Hk; lia]). done. }
    cbn [mbind option_bind]. rewrite bool_decide_eq_false_2 by done. done.
  - cbv zeta. pose proof (compressed_range d Hd) as Hcd.
    change (0 <= NumberCompress_getCompressed d v < 2 ^ v) in Hcd.
    assert (2 ^ v <= 2 ^ 64) by (apply Z.pow_le_mono_r; lia).
    pose proof (Z.pow_gt_1 2 v ltac:(lia)).
    assert ((L >> w) << v < 2 ^ 64) as Hfit.
    { rewrite Z.shiftr_div_pow2, Z.shiftl_mul_pow2 by lia. pose proof (Z.mul_div_le L (2 ^ w) ltac:(lia)).
      assert (L / 2 ^ w * 2 ^ v <= L / 2 ^ w * 2 ^ w); [|lia].
      apply Z.mul_le_mono_nonneg_l; [apply Z.div_pos; lia|apply Z.pow_le_mono_r; lia]. }
    unfold R. rewrite reverse_back by (done || lia). rewrite Z.lor_comm, lor_shiftl_add by lia.
    set (L' := NumberCompress_getCompressed d v + (L >> w) * 2 ^ v).
    assert (L' mod 2 ^ v = NumberCompress_getCompressed d v) as Em
      by (unfold L'; rewrite Z.mod_add, Z.mod_small by lia; done).
    destruct (decompress_compress d L' Hd Em) as [E1 E2].
    change (NumberCompress_bitsUsedForLabel L' = v) in E1. change (NumberCompress_getDecompressed L' v = d) in E2. rewrite E1.
    split; [done|]. split; [exact E2|]. rewrite <-Ew. rewrite Z.shiftr_div_pow2 by lia.
    unfold L'. rewrite Z.div_add, Z.div_small by lia. lia.
Qed.

Lemma route_back core s L d T :
  0 <= s < NumberCompress_INTERFACES -> 0 <= L < 2 ^ 64 ->
  (slot core s).(si_iface) <> None ->
  route core s L = Some (d, T) ->
  exists T', route core d (Bits_bitReverse64 T) = Some (s, T')
    /\ (let L' := Bits_bitReverse64 T' in
        let bits' := NumberCompress_bitsUsedForLabel L' in
        (s <> 1 -> L' = L)
        /\ NumberCompress_getDecompressed L' bits' = d
        /\ L' >> bits' = L >> NumberCompress_bitsUsedForLabel L).
Proof.
  intros Hs HL Hatt Hr. destruct (route_width core s L d T Hs ltac:(lia) Hr)
    as (Hd & Hdr & Hdatt & w & Hw & -> & Hsw & Hdw & Hlow & Hw1 & Hns).
  assert (0 <= NumberCompress_getCompressed d w < 2 ^ 64) as Hcd.
  { rewrite <-Hlow. pose proof (Z.mod_pos_bound L (2 ^ w) ltac:(lia)).
    assert (2 ^ w <= 2 ^ 64) by (apply Z.pow_le_mono_r; lia). lia. }
  destruct (decide (s = 1)) as [->|Hs1]; [apply (route_back_router core L d w); try done; auto|].
  unfold route at 1. cbv zeta.
  { destruct (Hns Hs1) as [Hc Hfound]. pose proof (reverse_low L w _ HL ltac:(lia) Hc) as El.
    destruct (Hfound _ El) as [-> ->].
    destruct (Z.leb_spec (NumberCompress_bitsUsedForNumber d) w); [|lia]. cbn [mbind option_bind].
    rewrite bool_decide_eq_false_2 by done. eexists. split; [done|]. cbv zeta.
    pose proof (shift_back L w ltac:(lia) ltac:(lia)) as Esb.
    assert ((L >> w) << w < 2 ^ 64) as Hfit.
    { rewrite Z.shiftr_div_pow2, Z.shiftl_mul_pow2, Z.mul_comm by lia. pose proof (Z.mul_div_le L (2 ^ w)). lia. }
    rewrite reverse_back by (done || lia). rewrite <-Hlow, Esb. done. }
Qed.

(** ** The handler *)
Context (iface_send : Iface -> Message -> Message * Z).

(** The message [sendMessage] gives to the interface: its priority is zeroed
    when the interface's buffer would overflow. *)
Definition outgoing (switchIf : SwitchInterface) (toSend : Message) : Message :=
  let priority := Headers_getPriority toSend.(buffer) toSend.(bytes) in
  if switchIf.(si_bufferMax) <? switchIf.(si_buffer) + priority
  then with_buffer toSend (Headers_setPriorityAndMessageType toSend.(buffer) toSend.(bytes) 0
         (Headers_getMessageType toSend.(buffer) toSend.(bytes)))
  else toSend.

Lemma sendMessage_eq switchIf toSend f :
  switchIf.(si_iface) = Some f ->
  sendMessage iface_send switchIf toSend
  = let '(after, err) := iface_send f (outgoing switchIf toSend) in
    Some (after, err, [(f, outgoing switchIf toSend)]).
Proof.
  intros Hf. unfold sendMessage, outgoing. rewrite Hf. cbn [mbind option_bind]. cbv zeta.
  destruct (iface_send f _) as [after err]. destruct (Z.eqb_spec err 0) as [->|]; done.
Qed.

Lemma outgoing_label switchIf msg : label_of (outgoing switchIf msg) = label_of msg.
Proof. unfold outgoing. destruct (_ <? _); [apply label_of_set_priority|done]. Qed.

Lemma outgoing_shape switchIf msg :
  length (outgoing switchIf msg) = length msg /\ padding (outgoing switchIf msg) = padding msg
  /\ bytes (outgoing switchIf msg) = bytes msg
  /\ forall x, x < bytes msg + 8 \/ bytes msg + 12 <= x -> buffer (outgoing switchIf msg) x = buffer msg x.
Proof.
  unfold outgoing. destruct (_ <? _); [|done]. cbn [with_buffer length padding bytes buffer].
  split_and!; try done. intros x Hx. apply write_out. rewrite length_store. unfold SwitchHeader_lowBits_be. lia.
Qed.

Lemma outgoing_mem switchIf msg : mem_ok msg.(buffer) -> mem_ok (outgoing switchIf msg).(buffer).
Proof. intros Hm. unfold outgoing. destruct (_ <? _); [|done]. apply write_ok; [done|apply store_ok]. Qed.

Lemma low_mask k : 0 < k <= 64 -> UINT64_MAX >> (64 - k) = Z.ones k.
Proof.
  intros Hk. change UINT64_MAX with (Z.ones 64). apply Z.bits_inj'. intros i Hi.
  rewrite Z.shiftr_spec, !Z.testbit_ones by lia. lia.
Qed.

(** The handler follows [route] on every branch. *)
Lemma receiveMessage_follows_route core s msg :
  0 <= s < NumberCompress_INTERFACES ->
  (slot core s).(si_buffer) <= (slot core s).(si_bufferMax) -> 12 <= length msg ->
  receiveMessage iface_send core s msg
  = match route core s (label_of msg) with
    | None => sendError iface_send (slot core s) msg Error_MALFORMED_ADDRESS
    | Some (d, T) =>
        '(after, err, sent) ← sendMessage iface_send (slot core d)
                               (with_label msg msg.(bytes) (Endian_hostToBigEndian64 T));
        if negb (err =? 0) then
          sent' ← sendError iface_send (slot core s)
                    (with_label after msg.(bytes) (Endian_bigEndianToHost64 (label_of msg))) err;
          Some (sent ++ sent')
        else Some sent
    end.
Proof.
  intros Hs Hbuf Hlen. unfold receiveMessage, route. cbv zeta. fold (label_of msg).
  pose proof (decompressed_range (s := NumberCompress) (label_of msg)) as Hd.
  pose proof (one_iff (s := NumberCompress) (label_of msg)) as H1.
  pose proof (one_bits (s := NumberCompress) (label_of msg)) as H4.
  pose proof (bits_range (s := NumberCompress) (label_of msg)) as Hb.
  pose proof (number_bits_range (s := NumberCompress) s) as Hsb.
  pose proof (one_number_bits (s := NumberCompress)) as H1b.
  change (bitsUsedForLabel NumberCompress) with NumberCompress_bitsUsedForLabel in *.
  change (getDecompressed NumberCompress) with NumberCompress_getDecompressed in *.
  change (bitsUsedForNumber NumberCompress) with NumberCompress_bitsUsedForNumber in *.
  change (INTERFACES NumberCompress) with NumberCompress_INTERFACES in *.
  set (b := NumberCompress_bitsUsedForLabel (label_of msg)) in *.
  set (d := NumberCompress_getDecompressed (label_of msg) b) in *.
  destruct (Z.ltb_spec (si_bufferMax (slot core s)) (si_buffer (slot core s))); [lia|].
  unfold Headers_SwitchHeader_SIZE. destruct (Z.ltb_spec (length msg) 12); [lia|].
  destruct (Z.ltb_spec d NumberCompress_INTERFACES); [|lia]. cbn [negb].
  destruct (Z.ltb_spec s NumberCompress_INTERFACES); [|lia]. cbn [negb].
  change 0xf with (Z.ones 4). rewrite Z.land_ones by lia. change (2 ^ 4) with 16.
  rewrite (Z.eqb_sym 1 d), (Z.eqb_sym 1 (_ mod _)).
  rewrite low_mask by lia. rewrite Z.land_ones by lia.
  rewrite (Z.eqb_sym 0 (_ mod 2 ^ _)).
  destruct (Z.eqb_spec d 1) as [E1|E1]; cbn [andb].
  - rewrite (proj2 (Z.eqb_eq (label_of msg mod 16) 1)) by tauto. cbn [negb].
    rewrite (proj2 (Z.eqb_eq b 4)) by tauto. cbn [negb].
    destruct (Z.ltb_spec b (NumberCompress_bitsUsedForNumber s)), (Z.leb_spec (NumberCompress_bitsUsedForNumber s) b);
      try lia; [destruct (_ mod 2 ^ _ =? 0)|]; cbn [negb mbind option_bind]; try done;
      case_bool_decide; done.
  - destruct (Z.ltb_spec b (NumberCompress_bitsUsedForNumber s)), (Z.leb_spec (NumberCompress_bitsUsedForNumber s) b);
      try lia; cbn [mbind option_bind].
    + destruct (Z.eqb_spec 1 s) as [<-|]; [lia|done].
    + case_bool_decide; done.
Qed.
End route.

(** ** Error packets *)
Section errors.
  Context {P : Platform}.
  Context (iface_send : Iface -> Message -> Message * Z).

(** A control packet that reports an error. *)
Definition is_error (msg : Message) : bool :=
  (Headers_getMessageType msg.(buffer) msg.(bytes) =? Headers_SwitchHeader_TYPE_CONTROL)
  && (load 2 msg.(buffer) (msg.(bytes) + ErrorPacket_ctrl + Control_type_be) =? Control_ERROR_be).

(** The bytes [sendError] leaves in memory below the cause, [err] being the
    packet's first byte. *)
Definition error_memory (m : mem) (err code : Z) : mem :=
  let header := err + 20 in
  let m := write m (err + 0) (store 8 (Bits_bitReverse64 (load 8 m (header + 0)))) in
  let m := Headers_setPriorityAndMessageType m err (Headers_getPriority m header) Headers_SwitchHeader_TYPE_CONTROL in
  let m := write m (err + 12 + 2) (store 2 Control_ERROR_be) in
  let m := write m (err + 12 + 4 + 0) (store 4 (Endian_hostToBigEndian32 code)) in
  write m (err + 12 + 0) (store 2 0).

Lemma error_memory_spec m err code :
  mem_ok m -> 0 <= code < 2 ^ 32 ->
  let m' := error_memory m err code in
  mem_ok m'
  /\ load 8 m' err = Bits_bitReverse64 (load 8 m (err + 20))
  /\ Headers_getMessageType m' err = Headers_SwitchHeader_TYPE_CONTROL
  /\ load 2 m' (err + 12) = 0 /\ load 2 m' (err + 14) = Control_ERROR_be
  /\ Endian_bigEndianToHost32 (load 4 m' (err + 16)) = code
  /\ forall x, err + 20 <= x -> m' x = m x.
Proof.
  intros Hm Hc. unfold error_memory. cbv zeta. rewrite !Z.add_0_r.
  set (m1 := write m err _). unfold Headers_setPriorityAndMessageType. unfold SwitchHeader_lowBits_be.
  set (p := Headers_getPriority m1 (err + 20)). set (m2 := write m1 (err + 8) _).
  set (m3 := write m2 (err + 12 + 2) _). set (m4 := write m3 (err + 12 + 4) _). set (m5 := write m4 (err + 12) _).
  assert (forall n a, a + n <= err + 12 \/ err + 14 <= a -> read m5 a n = read m4 a n) as R5
    by (intros; apply read_write_disj; rewrite length_store; lia).
  assert (forall n a, a + n <= err + 16 \/ err + 20 <= a -> read m4 a n = read m3 a n) as R4
    by (intros; apply read_write_disj; rewrite length_store; lia).
  assert (forall n a, a + n <= err + 14 \/ err + 16 <= a -> read m3 a n = read m2 a n) as R3
    by (intros; apply read_write_disj; rewrite length_store; lia).
  assert (forall n a, a + n <= err + 8 \/ err + 12 <= a -> read m2 a n = read m1 a n) as R2
    by (intros; apply read_write_disj; rewrite length_store; lia).
  assert (mem_ok m5) as Hok by (unfold m5, m4, m3, m2, m1; repeat apply write_ok; auto using store_ok).
  split; [done|]. split; [|split; [|split; [|split; [|split]]]].
  - rewrite (load_read 8 m5 m1 err err) by (change (Z.of_nat 8) with 8; rewrite R5, R4, R3, R2 by lia; done).
    unfold m1. rewrite load_write_store. apply Z.mod_small, bitReverse64_range.
  - unfold Headers_getMessageType, SwitchHeader_lowBits_be.
    rewrite (load_read 4 m5 m2 (err + 8) (err + 8)) by (change (Z.of_nat 4) with 4; rewrite R5, R4, R3 by lia; done).
    change m2 with (Headers_setPriorityAndMessageType m1 err p Headers_SwitchHeader_TYPE_CONTROL).
    rewrite (lowBits_set m1 err p 1) by lia. rewrite Z.shiftr_div_pow2, Z.div_add, Z.div_small; [done| |lia|lia].
    apply Z.mod_pos_bound. lia.
  - unfold m5. rewrite load_write_store. done.
  - rewrite (load_read 2 m5 m3 (err + 14) (err + 14)) by (change (Z.of_nat 2) with 2; rewrite R5, R4 by lia; done).
    unfold m3. replace (err + 12 + 2) with (err + 14) by lia. rewrite load_write_store.
    apply Z.mod_small, hostToBigEndian16_range. lia.
  - rewrite (load_read 4 m5 m4 (err + 16) (err + 16)) by (change (Z.of_nat 4) with 4; rewrite R5 by lia; done).
    unfold m4. replace (err + 12 + 4) with (err + 16) by lia. rewrite load_write_store.
    rewrite Z.mod_small by (apply hostToBigEndian32_range, Hc). apply bigEndianToHost32_host, Hc.
  - intros x Hx. unfold m5, m4, m3, m2, m1. rewrite !write_out by (rewrite length_store; lia). done.
Qed.

Lemma sendError_eq si f cause code :
  si.(si_iface) = Some f -> 20 <= padding cause -> is_error cause = false ->
  let n := Z.min (length cause) 256 in
  let err := bytes cause - 20 in
  let m := error_memory (buffer cause) err code in
  sendError iface_send si cause code
  = Some [(f, outgoing si
      {| length := n + 20; padding := padding cause - 20; bytes := err;
         buffer := write m (err + 12) (store 2 (Checksum_engine m (err + 12) (n + 8))) |})].
Proof.
  intros Hf Hp He n err m. unfold sendError. fold (is_error cause). rewrite He.
  assert ((if length cause <? Control_Error_MAX_SIZE then length cause else Control_Error_MAX_SIZE) = n) as ->.
  { unfold Control_Error_MAX_SIZE, n. destruct (Z.ltb_spec (length cause) 256); lia. }
  change (Headers_SwitchHeader_SIZE + Control_HEADER_SIZE + Control_Error_HEADER_SIZE) with 20.
  rewrite shift_up by (cbn; lia). cbn [mbind option_bind with_length length bytes buffer padding with_buffer]. cbv zeta.
  rewrite (sendMessage_eq iface_send si _ f Hf).
  assert (bytes cause = err + 20) as Eb by (unfold err; lia).
  destruct (iface_send f _) as [after e] eqn:E. cbn [mbind option_bind]. clear E.
  unfold m, error_memory, ErrorPacket_ctrl, SwitchHeader_label_be, Control_checksum_be, Headers_SwitchHeader_SIZE,
    Control_content, Control_Error_errorType_be, Control_type_be. cbv zeta.
  replace (n + 20 - 12) with (n + 8) by lia. rewrite ?Z.add_0_r.
  replace (err + 20) with (bytes cause) by lia. done.
Qed.
End errors.

(** ** Invariants of the table *)
Section table.
  Context {P : Platform}.

(** Every attached interface sits in one slot of the table, which its
    [receiverContext] names and whose removal job it holds (the router's is
    never removed); slot 1 is kept for the router. *)
Record core_ok (core : SwitchCore) : Prop := {
  ok_range : forall i f, (slot core i).(si_iface) = Some f -> 0 <= i < NumberCompress_INTERFACES;
  ok_context : forall i f, (slot core i).(si_iface) = Some f -> core.(receiverContext) !! f = Some i;
  ok_job : forall i, i <> 1 -> (slot core i).(si_onFree) = (slot core i).(si_iface);
  ok_router_job : (slot core 1).(si_onFree) = None;
  ok_router : (slot core 1).(si_iface) <> None -> core.(routerAdded) = true;
  ok_count : 0 <= core.(interfaceCount) < 2 ^ 32 - 1 /\ (core.(routerAdded) = true -> 1 <= core.(interfaceCount));
  ok_next : forall i, i <> 1 -> (slot core i).(si_iface) <> None -> i < next_index core
}.

Definition attached (core : SwitchCore) (f : Iface) : Prop := exists i, (slot core i).(si_iface) = Some f.

Lemma slot_set_slot core i si j : slot (set_slot core i si) j = if decide (j = i) then si else slot core j.
Proof.
  unfold slot, set_slot. cbn [interfaces]. destruct (decide (j = i)) as [->|Hne].
  - rewrite lookup_insert_eq. done.
  - rewrite lookup_insert_ne by auto. done.
Qed.

Lemma slot_set_context core f i j : slot (set_context core f i) j = slot core j.
Proof. done. Qed.

Lemma slot_free core f j :
  slot (free_interface core f) j
  = if decide ((slot core j).(si_onFree) = Some f) then vacant else slot core j.
Proof.
  unfold slot, free_interface. cbn [interfaces]. rewrite lookup_fmap.
  destruct (interfaces core !! j) as [si|]; cbn [fmap option_fmap option_map default]; done.
Qed.

(** The count of interfaces, which is never lowered, is not about to wrap. *)
Definition can_count (core : SwitchCore) : Prop := core.(interfaceCount) < 2 ^ 32 - 2.

(** The operations the rest of the program performs on the table. *)
Inductive core_step (core : SwitchCore) : SwitchCore -> Prop :=
  | step_add f trust core' labelOut :
      can_count core -> ~ attached core f -> SwitchCore_addInterface f trust core = Added core' labelOut -> core_step core core'
  | step_router f :
      can_count core -> ~ attached core f -> core_step core (SwitchCore_setRouterInterface f core)
  | step_free f : core_step core (free_interface core f)
  | step_swap f1 f2 core' :
      f1 <> f2 -> attached core f1 -> attached core f2 ->
      SwitchCore_swapInterfaces core f1 f2 = Some core' -> core_step core core'.

(** The scan for a vacant slot, from slot [lo] on. *)
Lemma scan_spec core n lo :
  match for_until n lo (fun i _ =>
      if NumberCompress_INTERFACES <=? i then inr None
      else if bool_decide ((slot core i).(si_iface) = None) && negb (i =? 1) then inr (Some i)
      else inl tt) tt with
  | inr (Some i) =>
      lo <= i < lo + Z.of_nat n /\ i < NumberCompress_INTERFACES /\ i <> 1 /\ (slot core i).(si_iface) = None
      /\ forall j, lo <= j < i -> j <> 1 -> (slot core j).(si_iface) <> None
  | inr None =>
      NumberCompress_INTERFACES < lo + Z.of_nat n
      /\ forall j, lo <= j < NumberCompress_INTERFACES -> j <> 1 -> (slot core j).(si_iface) <> None
  | inl _ => forall j, lo <= j < lo + Z.of_nat n -> j <> 1 -> (slot core j).(si_iface) <> None
  end.
Proof.
  revert lo. induction n as [|n IH]; intros lo; cbn [for_until]; [intros j Hj; lia|].
  destruct (Z.leb_spec NumberCompress_INTERFACES lo).
  { split; [lia|]. intros j Hj. lia. }
  assert (forall j, lo <= j -> (bool_decide ((slot core lo).(si_iface) = None) && negb (lo =? 1)) = false ->
    j = lo -> j <> 1 -> (slot core j).(si_iface) <> None) as Hlo.
  { intros j _ E -> H1. case_bool_decide; [|done]. destruct (Z.eqb_spec lo 1); done. }
  destruct (bool_decide _ && _) eqn:E.
  - apply andb_prop in E as [E1%bool_decide_eq_true E2%negb_true_iff]. apply Z.eqb_neq in E2.
    split; [lia|]. split; [lia|]. split; [done|]. split; [done|]. intros j Hj. lia.
  - specialize (IH (lo + 1)). destruct (for_until _ _ _ _) as [u|[i|]].
    + intros j Hj. destruct (decide (j = lo)); [apply Hlo; lia || done|apply IH; lia].
    + destruct IH as (H1 & H2 & H3 & H4 & H5). split; [lia|]. split; [done|]. split; [done|]. split; [done|].
      intros j Hj. destruct (decide (j = lo)); [apply Hlo; lia || done|apply H5; lia].
    + destruct IH as [H1 H2]. split; [lia|]. intros j Hj.
      destruct (decide (j = lo)); [apply Hlo; lia || done|apply H2; lia].
Qed.

Lemma next_index_not_1 core : core_ok core -> 0 <= next_index core /\ next_index core <> 1.
Proof.
  intros H. destruct (ok_count core H) as [Hc Hr]. unfold next_index. rewrite u32_small by lia.
  destruct (routerAdded core); [specialize (Hr eq_refl)|]; rewrite ?andb_true_r, ?andb_false_r; bcase; lia.
Qed.

(** Where a new interface goes, if it goes anywhere. *)
Lemma add_cases core f trust :
  core_ok core ->
  match SwitchCore_addInterface f trust core with
  | Added core' labelOut => exists i,
      0 <= i <= next_index core /\ i < NumberCompress_INTERFACES /\ i <> 1
      /\ (slot core i).(si_iface) = None
      /\ (forall j, 0 <= j < i -> j <> 1 -> (slot core j).(si_iface) <> None)
      /\ place_interface core f trust i = Added core' labelOut
  | _ => forall j, 0 <= j < NumberCompress_INTERFACES -> j <> 1 -> (slot core j).(si_iface) <> None
  end.
Proof.
  intros Hok. destruct (next_index_not_1 core Hok) as [Hn0 Hn1]. unfold SwitchCore_addInterface, vacant_index.
  pose proof (scan_spec core (Z.to_nat (next_index core)) 0) as Hs.
  destruct (for_until _ _ _ _) as [u|[i|]]; rewrite ?Z2Nat.id in Hs by lia.
  - assert (forall j, (slot core j).(si_iface) <> None -> j <> 1 -> j < next_index core) as Hnext
      by (intros; apply (ok_next core Hok); done).
    assert ((slot core (next_index core)).(si_iface) = None) as Hv.
    { destruct (si_iface (slot core (next_index core))) eqn:E; [|done].
      specialize (Hnext (next_index core)). rewrite E in Hnext. specialize (Hnext ltac:(done) Hn1). lia. }
    unfold place_interface at 1.
    destruct (Z.eqb_spec (next_index core) NumberCompress_INTERFACES) as [E|E]; [intros j Hj; apply Hs; lia|].
    destruct (Z.ltb_spec NumberCompress_INTERFACES (next_index core)); [intros j Hj; apply Hs; lia|].
    exists (next_index core). split_and!; try lia; try done.
    unfold place_interface. destruct (Z.eqb_spec (next_index core) NumberCompress_INTERFACES); [lia|].
    destruct (Z.ltb_spec NumberCompress_INTERFACES (next_index core)); [lia|]. done.
  - destruct Hs as (H1 & H2 & H3 & H4 & H5). unfold place_interface at 1.
    destruct (Z.eqb_spec i NumberCompress_INTERFACES); [lia|].
    destruct (Z.ltb_spec NumberCompress_INTERFACES i); [lia|].
    exists i. split_and!; try lia; try done.
    unfold place_interface. destruct (Z.eqb_spec i NumberCompress_INTERFACES); [lia|].
    destruct (Z.ltb_spec NumberCompress_INTERFACES i); [lia|]. done.
  - apply Hs.
Qed.

(** The table and the label after placing an interface in slot [i]. *)
Lemma placed core f trust i core' labelOut :
  place_interface core f trust i = Added core' labelOut ->
  (forall j, slot core' j = if decide (j = i)
     then {| si_iface := Some f; si_onFree := Some f; si_buffer := 0; si_bufferMax := s64 trust; si_congestion := 0 |}
     else slot core j)
  /\ core'.(receiverContext) = <[f := i]> core.(receiverContext)
  /\ core'.(interfaceCount) = u32 (core.(interfaceCount) + 1) /\ core'.(routerAdded) = core.(routerAdded)
  /\ labelOut = NumberCompress_getCompressed i (NumberCompress_bitsUsedForNumber i)
                 .| (1 << NumberCompress_bitsUsedForNumber i).
Proof.
  unfold place_interface. destruct (i =? _); [done|]. destruct (_ <? _); [done|]. intros [= <- <-].
  split; [|done]. intros j. apply slot_set_slot.
Qed.

Lemma next_index_grows core core' :
  core_ok core -> can_count core -> core'.(interfaceCount) = u32 (core.(interfaceCount) + 1) ->
  core'.(routerAdded) = core.(routerAdded) -> next_index core < next_index core'.
Proof.
  unfold can_count. intros H Hcan Ec Er. destruct (ok_count core H) as [Hc Hr]. unfold next_index. rewrite Ec, Er, !u32_small by (rewrite ?u32_small; lia).
  destruct (routerAdded core); [specialize (Hr eq_refl)|]; rewrite ?andb_true_r, ?andb_false_r; bcase; lia.
Qed.

Lemma add_ok core f trust core' labelOut :
  core_ok core -> can_count core -> ~ attached core f -> SwitchCore_addInterface f trust core = Added core' labelOut -> core_ok core'.
Proof.
  intros Hok Hcan Hnew E. pose proof (add_cases core f trust Hok) as H. rewrite E in H.
  destruct H as (i & Hi & Hi' & Hi1 & Hv & _ & Hp).
  destruct (placed core f trust i core' labelOut Hp) as (Hslot & Hctx & Hcount & Hr & _).
  assert (forall j g, (slot core j).(si_iface) = Some g -> g <> f) as Hne
    by (intros j g Hg ->; apply Hnew; exists j; done).
  split.
  - intros j g. rewrite Hslot. destruct (decide (j = i)) as [->|]; [lia|]. apply (ok_range core Hok).
  - intros j g. rewrite Hslot, Hctx. destruct (decide (j = i)) as [->|].
    + intros [= ->]. apply lookup_insert_eq.
    + intros Hg. rewrite lookup_insert_ne by (intros ->; exact (Hne j g Hg eq_refl)). apply (ok_context core Hok), Hg.
  - intros j Hj. rewrite Hslot. destruct (decide (j = i)); [done|]. apply (ok_job core Hok), Hj.
  - rewrite Hslot. destruct (decide (1 = i)); [lia|]. apply (ok_router_job core Hok).
  - rewrite Hslot, Hr. destruct (decide (1 = i)); [lia|]. apply (ok_router core Hok).
  - rewrite Hcount, Hr. pose proof (ok_count core Hok). unfold can_count in Hcan. rewrite u32_small; lia.
  - pose proof (next_index_grows core core' Hok Hcan Hcount Hr). intros j Hj. rewrite Hslot.
    destruct (decide (j = i)) as [->|]; [lia|]. intros Ho. pose proof (ok_next core Hok j Hj Ho). lia.
Qed.

Lemma router_ok core f : core_ok core -> can_count core -> ~ attached core f -> core_ok (SwitchCore_setRouterInterface f core).
Proof.
  unfold can_count. intros Hok Hcan Hnew. set (core' := SwitchCore_setRouterInterface f core).
  assert (forall j, slot core' j = if decide (j = 1)
     then {| si_iface := Some f; si_onFree := None; si_buffer := 0; si_bufferMax := INT64_MAX; si_congestion := 0 |}
     else slot core j) as Hslot by (intros j; apply slot_set_slot).
  assert (forall j g, (slot core j).(si_iface) = Some g -> g <> f) as Hne
    by (intros j g Hg ->; apply Hnew; exists j; done).
  pose proof (ok_count core Hok) as [Hc Hr]. pose proof (interfaces_range (s := NumberCompress)) as Hi.
  change (16 <= NumberCompress_INTERFACES <= 257) in Hi.
  split; cbn [routerAdded receiverContext interfaceCount core' SwitchCore_setRouterInterface set_context set_slot].
  - intros j g. rewrite Hslot. destruct (decide (j = 1)) as [->|]; [lia|]. apply (ok_range core Hok).
  - intros j g. rewrite Hslot. destruct (decide (j = 1)) as [->|].
    + intros [= ->]. apply lookup_insert_eq.
    + intros Hg. rewrite lookup_insert_ne by (intros ->; exact (Hne j g Hg eq_refl)). apply (ok_context core Hok), Hg.
  - intros j Hj. rewrite Hslot. destruct (decide (j = 1)); [done|]. apply (ok_job core Hok), Hj.
  - rewrite Hslot. done.
  - done.
  - rewrite u32_small; lia.
  - intros j Hj. rewrite Hslot. destruct (decide (j = 1)); [done|]. intros Ho.
    pose proof (ok_next core Hok j Hj Ho) as Hlt. pose proof (ok_range core Hok j) as Hrg.
    revert Hlt. unfold next_index. cbn [routerAdded interfaceCount core' SwitchCore_setRouterInterface set_context set_slot].
    destruct (si_iface (slot core j)); [|done]. specialize (Hrg _ eq_refl). rewrite !u32_small by lia.
    destruct (routerAdded core); [specialize (Hr eq_refl)|]; rewrite ?andb_true_r, ?andb_false_r; bcase; lia.
Qed.

Lemma free_ok core f : core_ok core -> core_ok (free_interface core f).
Proof.
  intros Hok. split; cbn [routerAdded receiverContext interfaceCount free_interface].
  - intros j g. rewrite slot_free. destruct (decide _); [done|]. apply (ok_range core Hok).
  - intros j g. rewrite slot_free. destruct (decide _); [done|]. apply (ok_context core Hok).
  - intros j Hj. rewrite slot_free. destruct (decide _); [done|]. apply (ok_job core Hok), Hj.
  - rewrite slot_free. destruct (decide _); [done|]. apply (ok_router_job core Hok).
  - rewrite slot_free. destruct (decide _); [done|]. apply (ok_router core Hok).
  - apply (ok_count core Hok).
  - intros j Hj. rewrite slot_free. destruct (decide _); [done|]. apply (ok_next core Hok j Hj).
Qed.

Lemma with_onFree_eta si job : si.(si_onFree) = job -> with_onFree (with_onFree si None) job = si.
Proof. destruct si. cbn. intros ->. done. Qed.

(** Swapping exchanges two slots and the interfaces' contexts. *)
Lemma swap_slots core f1 f2 :
  core_ok core -> f1 <> f2 -> attached core f1 -> attached core f2 ->
  exists a b, (slot core a).(si_iface) = Some f1 /\ (slot core b).(si_iface) = Some f2 /\ a <> b /\
  match SwitchCore_swapInterfaces core f1 f2 with
  | None => a = 1 \/ b = 1
  | Some core' =>
      a <> 1 /\ b <> 1
      /\ (forall j, slot core' j = if decide (j = a) then slot core b else if decide (j = b) then slot core a else slot core j)
      /\ core'.(receiverContext) = <[f2 := a]> (<[f1 := b]> core.(receiverContext))
      /\ core'.(interfaceCount) = core.(interfaceCount) /\ core'.(routerAdded) = core.(routerAdded)
  end.
Proof.
  intros Hok Hne [a Ha] [b Hb]. exists a, b. split; [done|]. split; [done|].
  assert (a <> b) as Hab by (intros ->; congruence). split; [done|].
  unfold SwitchCore_swapInterfaces. rewrite (ok_context core Hok a f1 Ha), (ok_context core Hok b f2 Hb).
  cbn [mbind option_bind]. unfold notOnFree. destruct (decide (si_onFree (slot core a) = Some f1)) as [Ja|Ja]; cbn [mbind option_bind].
  2: { left. destruct (decide (a = 1)); [done|]. rewrite (ok_job core Hok), Ha in Ja by done. done. }
  assert (a <> 1) as Ha1 by (intros ->; rewrite (ok_router_job core Hok) in Ja; done).
  rewrite slot_set_slot. destruct (decide (b = a)); [congruence|].
  case_decide as Jb; cbn [mbind option_bind].
  2: { right. destruct (decide (b = 1)); [done|]. rewrite (ok_job core Hok), Hb in Jb by done. done. }
  assert (b <> 1) as Hb1 by (intros ->; rewrite (ok_router_job core Hok) in Jb; done).
  split; [done|]. split; [done|]. split; [|done].
  intros j. rewrite !slot_set_context, !slot_set_slot.
  repeat case_decide; subst; try congruence; apply with_onFree_eta; done.
Qed.

Lemma swap_ok core f1 f2 core' :
  core_ok core -> f1 <> f2 -> attached core f1 -> attached core f2 ->
  SwitchCore_swapInterfaces core f1 f2 = Some core' -> core_ok core'.
Proof.
  intros Hok Hne H1 H2 E. destruct (swap_slots core f1 f2 Hok Hne H1 H2) as (a & b & Ha & Hb & Hab & H).
  rewrite E in H. destruct H as (Ha1 & Hb1 & Hslot & Hctx & Hcount & Hr).
  split.
  - intros j g. rewrite Hslot. destruct (decide (j = a)) as [->|]; [intros _; apply (ok_range core Hok a f1 Ha)|].
    destruct (decide (j = b)) as [->|]; [intros _; apply (ok_range core Hok b f2 Hb)|]. apply (ok_range core Hok).
  - intros j g. rewrite Hslot, Hctx. destruct (decide (j = a)) as [->|].
    + rewrite Hb. intros [= <-]. apply lookup_insert_eq.
    + destruct (decide (j = b)) as [->|].
      * rewrite Ha. intros [= <-]. rewrite lookup_insert_ne by done. apply lookup_insert_eq.
      * intros Hg. pose proof (ok_context core Hok j g Hg) as Hj.
        assert (g <> f1) by (intros ->; rewrite (ok_context core Hok a f1 Ha) in Hj; congruence).
        assert (g <> f2) by (intros ->; rewrite (ok_context core Hok b f2 Hb) in Hj; congruence).
        rewrite !lookup_insert_ne by done. done.
  - intros j Hj. rewrite Hslot. repeat (destruct (decide _); [apply (ok_job core Hok); done|]). apply (ok_job core Hok), Hj.
  - rewrite Hslot. destruct (decide (1 = a)); [lia|]. destruct (decide (1 = b)); [lia|]. apply (ok_router_job core Hok).
  - rewrite Hslot, Hr. destruct (decide (1 = a)); [lia|]. destruct (decide (1 = b)); [lia|]. apply (ok_router core Hok).
  - rewrite Hcount, Hr. apply (ok_count core Hok).
  - assert (next_index core' = next_index core) as -> by (unfold next_index; rewrite Hcount, Hr; done).
    intros j Hj. rewrite Hslot. destruct (decide (j = a)) as [->|]; [intros _; apply (ok_next core Hok a); [done|congruence]|].
    destruct (decide (j = b)) as [->|]; [intros _; apply (ok_next core Hok b); [done|congruence]|]. apply (ok_next core Hok j Hj).
Qed.

Lemma new_ok : core_ok SwitchCore_new.
Proof. split; try done; intros; cbn in *; lia || done. Qed.

Lemma step_ok core core' : core_ok core -> core_step core core' -> core_ok core'.
Proof.
  intros Hok [f trust core1 L Hc Hn E|f Hc Hn|f|f1 f2 core1 Hne H1 H2 E].
  - apply (add_ok core f trust core1 L Hok Hc Hn E).
  - apply (router_ok core f Hok Hc Hn).
  - apply free_ok, Hok.
  - apply (swap_ok core f1 f2 core1 Hok Hne H1 H2 E).
Qed.

(** The label of a slot is one hop long and names the slot. *)
Definition slot_label (i : Z) : Z :=
  let bits := NumberCompress_bitsUsedForNumber i in NumberCompress_getCompressed i bits .| (1 << bits).

Lemma slot_label_spec i : 0 <= i < NumberCompress_INTERFACES ->
  LabelSplicer_isOneHop (slot_label i) = true /\
  NumberCompress_getDecompressed (slot_label i) (NumberCompress_bitsUsedForLabel (slot_label i)) = i.
Proof.
  intros Hi. assert (0 <= i < INTERFACES NumberCompress) as Hir by (change (0 <= i < NumberCompress_INTERFACES); lia).
  pose proof (compressed_range i Hir) as Hc. pose proof (number_bits_range (s := NumberCompress) i) as Hb.
  change (4 <= NumberCompress_bitsUsedForNumber i <= 10) in Hb. unfold slot_label.
  set (b := NumberCompress_bitsUsedForNumber i) in *. change (0 <= NumberCompress_getCompressed i b < 2 ^ b) in Hc. cbv zeta.
  rewrite lor_shiftl_add by lia. set (L := NumberCompress_getCompressed i b + 1 * 2 ^ b).
  assert (L mod 2 ^ b = NumberCompress_getCompressed i b) as Em
    by (unfold L; rewrite Z.mod_add, Z.mod_small by lia; done).
  destruct (decompress_compress i L Hir Em) as [E1 E2].
  change (NumberCompress_bitsUsedForLabel L = b) in E1. change (NumberCompress_getDecompressed L b = i) in E2.
  assert (2 ^ (b + 1) <= 2 ^ 11) by (apply Z.pow_le_mono_r; lia). rewrite Z.pow_add_r in * by lia.
  rewrite E1. split; [|exact E2]. unfold LabelSplicer_isOneHop. rewrite E1. apply Z.eqb_eq. rewrite log2x64_spec by lia.
  symmetry. apply Z.log2_unique; [lia|]. rewrite Z.pow_succ_r by lia. lia.
Qed.

Definition reachable (core : SwitchCore) : Prop := rtc core_step SwitchCore_new core.

Lemma reachable_ok core : reachable core -> core_ok core.
Proof.
  intros H. unfold reachable in H. revert H. generalize new_ok. generalize SwitchCore_new as c.
  intros c Hc H. revert Hc. induction H as [|c1 c2 c3 Hs _ IH]; [done|]. intros H1. apply IH, (step_ok c1 c2 H1 Hs).
Qed.
End table.

(** ** Properties *)
Section properties.
  Context {P : Platform}.

(** C4: the return path. A message from slot [s] is forwarded with a label whose
    reversal, used on a reply from the destination, leads back to slot [s]; and
    the label the reply then carries, reversed, names the destination of the
    first message in its low bits and its remaining path above them, so the
    source can go on using it. When [s] is not the router it is exactly the
    label the source used. *)
Theorem SwitchCore_return_path iface_send core s fs msg reply d T :
  (forall f m, snd (iface_send f m) = 0) ->
  0 <= s < NumberCompress_INTERFACES -> (slot core s).(si_iface) = Some fs ->
  (forall i, (slot core i).(si_buffer) <= (slot core i).(si_bufferMax)) ->
  mem_ok msg.(buffer) -> 12 <= length msg -> 12 <= length reply ->
  route core s (label_of msg) = Some (d, T) ->
  exists fd out, receiveMessage iface_send core s msg = Some [(fd, out)]
    /\ (slot core d).(si_iface) = Some fd /\ label_of out = T
    /\ (label_of reply = Bits_bitReverse64 (label_of out) ->
        exists out', receiveMessage iface_send core d reply = Some [(fs, out')]
          /\ let L' := Bits_bitReverse64 (label_of out') in
             let bits' := NumberCompress_bitsUsedForLabel L' in
             (s <> 1 -> L' = label_of msg)
             /\ NumberCompress_getDecompressed L' bits' = d
             /\ L' >> bits' = label_of msg >> NumberCompress_bitsUsedForLabel (label_of msg)).
Proof.
  intros Hsend Hs Hfs Hbuf Hm Hlen Hlen' Hr. pose proof (label_of_range msg Hm) as HL.
  assert ((slot core s).(si_iface) <> None) as Hatt by congruence.
  destruct (route_width core s (label_of msg) d T Hs (proj1 HL) Hr) as (_ & Hd & Hda & w & Hw & ET & _).
  destruct (si_iface (slot core d)) as [fd|] eqn:Efd; [|done].
  assert (forall m i f, (slot core i).(si_iface) = Some f -> exists after,
    sendMessage iface_send (slot core i) m = Some (after, 0, [(f, outgoing (slot core i) m)])) as Hsm.
  { intros m i f Hf. rewrite (sendMessage_eq iface_send _ m f Hf). specialize (Hsend f (outgoing (slot core i) m)).
    destruct (iface_send f _) as [after err]. cbn in Hsend. subst err. eauto. }
  assert (0 <= T < 2 ^ 64) as HT.
  { rewrite ET. apply lor_range; [lia|apply shiftr_small; lia|apply bitReverse64_range]. }
  rewrite receiveMessage_follows_route, Hr by (apply Hbuf || done).
  destruct (Hsm (with_label msg (bytes msg) (Endian_hostToBigEndian64 T)) d fd Efd) as [after ->].
  cbn [mbind option_bind Z.eqb negb]. eexists fd, _. split; [done|]. split; [done|].
  rewrite outgoing_label, label_of_with_label by done. split; [done|]. intros Hreply.
  destruct (route_back core s (label_of msg) d T Hs HL Hatt Hr) as (T' & Hr' & Hback).
  rewrite receiveMessage_follows_route, Hreply, Hr' by (apply Hbuf || done).
  destruct (Hsm (with_label reply (bytes reply) (Endian_hostToBigEndian64 T')) s fs Hfs) as [after' ->].
  cbn [mbind option_bind Z.eqb negb]. eexists. split; [done|].
  rewrite outgoing_label, label_of_with_label; [exact Hback|].
  destruct (route_width core d (Bits_bitReverse64 T) s T' Hd (proj1 (bitReverse64_range T)) Hr') as (_ & _ & _ & w' & Hw' & -> & _).
  apply lor_range; [lia|apply shiftr_small; [lia|apply bitReverse64_range]|apply bitReverse64_range].
Qed.

(** What an error packet does, given to the interface [f] because of [cause]:
    [result] is what is sent, [None] when the program aborts. *)
Definition reports (f : Iface) (cause : Message) (code : Z) (result : option (list Sent)) : Prop :=
  if is_error cause then result = Some []
  else if padding cause <? 20 then result = None
  else exists out, result = Some [(f, out)]
    /\ label_of out = Bits_bitReverse64 (label_of cause)
    /\ is_error out = true
    /\ Endian_bigEndianToHost32 (load 4 out.(buffer) (out.(bytes) + 16)) = code
    /\ Checksum_engine out.(buffer) (out.(bytes) + 12) (length out - 12) = 0
    /\ length out = Z.min (length cause) 256 + 20
    /\ read out.(buffer) (out.(bytes) + 20) (Z.min (length cause) 256)
       = read cause.(buffer) cause.(bytes) (Z.min (length cause) 256).

(** The error packet. When there is room in front of the message, exactly
    one packet goes out, on the same interface, under the reversed label: a
    control packet of type error with the given code, a checksum that verifies,
    and up to 256 bytes of the message that caused it, label included. A
    message that itself is an error packet causes none, so an error never
    causes another; without 20 bytes of padding the program aborts. *)
Theorem SwitchCore_sendError_packet iface_send si f cause code :
  si.(si_iface) = Some f -> message_ok cause -> 0 <= code < 2 ^ 32 ->
  reports f cause code (sendError iface_send si cause code).
Proof.
  unfold reports. intros Hf (Hl & Hp & Ht & Hm) Hc. destruct (is_error cause) eqn:He.
  { unfold sendError. fold (is_error cause). rewrite He. done. }
  destruct (Z.ltb_spec (padding cause) 20) as [Hpad|Hpad].
  { unfold sendError. fold (is_error cause). rewrite He. unfold Message_shift.
    change (Headers_SwitchHeader_SIZE + Control_HEADER_SIZE + Control_Error_HEADER_SIZE) with 20.
    cbn [with_length padding Z.ltb Z.compare]. destruct (Z.leb_spec 20 (padding cause)); [lia|done]. }
  rewrite (sendError_eq iface_send si f cause code Hf Hpad He).
  set (n := Z.min (length cause) 256). set (err := bytes cause - 20).
  destruct (error_memory_spec (buffer cause) err code Hm Hc) as (Hok & El & Et & Ec0 & Ety & Ecode & Erest).
  set (m := error_memory (buffer cause) err code) in *. set (c := Checksum_engine m (err + 12) (n + 8)).
  eexists. split; [done|]. set (raw := {| length := n + 20; padding := _; bytes := _; buffer := _ |}).
  destruct (outgoing_shape si raw) as (Eln & _ & Eby & Ebuf). rewrite Eln, Eby. cbn [raw length bytes].
  cbn [raw length bytes buffer] in Ebuf.
  assert (forall a k, err + 12 <= a -> read (buffer (outgoing si raw)) a k = read (buffer raw) a k) as Eread.
  { intros a k Ha. apply read_ext. intros i Hi. apply Ebuf. lia. }
  split_and!.
  - rewrite outgoing_label. unfold label_of, raw. cbn [buffer bytes]. unfold SwitchHeader_label_be. rewrite !Z.add_0_r.
    rewrite (load_read 8 _ m err err) by (apply read_write_disj; lia). rewrite El.
    replace (err + 20) with (bytes cause) by lia.
    pose proof (load_range 8 (buffer cause) (bytes cause) Hm) as Hr. change (2 ^ (8 * Z.of_nat 8)) with (2 ^ 64) in Hr.
    unfold Endian_bigEndianToHost64. rewrite bitReverse64_hostToBigEndian by done. done.
  - unfold is_error. rewrite Eby. cbn [raw bytes]. apply andb_true_iff. split.
    + apply Z.eqb_eq. unfold outgoing. destruct (_ <? _); cbn [with_buffer buffer raw bytes].
      * unfold Headers_getMessageType at 1. rewrite lowBits_set.
        2: { unfold Headers_getMessageType. apply Z.shiftr_nonneg.
             apply hostToBigEndian32_range, (load_range 4), write_ok; [done|apply store_ok]. }
        change (0 mod 2 ^ 24) with 0. rewrite Z.add_0_l, Z.shiftr_div_pow2, Z.div_mul by lia.
        unfold Headers_getMessageType. rewrite (load_read 4 _ m (err + 8) (err + 8)) by (apply read_write_disj; lia).
        change (Endian_bigEndianToHost32 (load 4 m (err + 8)) >> 24) with (Headers_getMessageType m err). rewrite Et. done.
      * unfold Headers_getMessageType. rewrite (load_read 4 _ m (err + 8) (err + 8)) by (apply read_write_disj; lia).
        exact Et.
    + apply Z.eqb_eq. unfold ErrorPacket_ctrl, Headers_SwitchHeader_SIZE, Control_type_be.
      replace (err + 12 + 2) with (err + 14) by lia. rewrite <-Ety. apply load_read. rewrite Eread by lia.
      cbn [raw buffer]. apply read_write_disj. rewrite length_store. lia.
  - rewrite <-Ecode. f_equal. apply load_read. rewrite Eread by lia. apply read_write_disj. rewrite length_store. lia.
  - replace (n + 20 - 12) with (n + 8) by lia.
    transitivity (Checksum_engine (buffer raw) (err + 12) (n + 8)).
    + apply engine_read; [unfold n; lia|]. rewrite Eread by lia. done.
    + cbn [raw buffer]. replace (err + 12) with (err + 12 + 2 * 0) at 1 by lia.
      apply engine_verifies; [done|unfold n; lia|lia|unfold n; lia|]. rewrite Z.mul_0_r, Z.add_0_r. exact Ec0.
  - done.
  - rewrite Eread by lia. cbn [raw buffer]. rewrite read_write_disj by (rewrite length_store; lia).
    apply read_ext. intros i Hi. rewrite Erest by lia. f_equal. lia.
Qed.

(** [after] is [before] with the label [L] in the header at [header], and nothing
    else changed. *)
Definition relabelled (before : Message) (header L : Z) (after : Message) : Prop :=
  length after = length before /\ padding after = padding before /\ bytes after = bytes before /\
  Endian_bigEndianToHost64 (load 8 after.(buffer) header) = L /\
  forall x, x < header \/ header + 8 <= x -> after.(buffer) x = before.(buffer) x.

Lemma with_label_relabelled msg header L : 0 <= L < 2 ^ 64 ->
  relabelled msg header L (with_label msg header (Endian_hostToBigEndian64 L)).
Proof.
  intros HL. unfold with_label, SwitchHeader_label_be. rewrite Z.add_0_r. split_and!; try done; cbn [with_buffer buffer].
  - rewrite load_write_store, Z.mod_small by (apply hostToBigEndian64_range; done). by apply bigEndianToHost64_host.
  - intros x Hx. apply write_out. rewrite length_store. lia.
Qed.

(** What an interface is given for [msg], under the label [T]: its priority is
    cleared when the interface's buffer would overflow. *)
Definition forwarded (si : SwitchInterface) (msg : Message) (T : Z) (out : Message) : Prop :=
  length out = length msg /\ padding out = padding msg /\ bytes out = bytes msg /\ label_of out = T /\
  (forall x, x < bytes msg \/ bytes msg + 12 <= x -> out.(buffer) x = msg.(buffer) x) /\
  Headers_getMessageType out.(buffer) out.(bytes) = Headers_getMessageType msg.(buffer) msg.(bytes) /\
  Headers_getPriority out.(buffer) out.(bytes) =
    (let priority := Headers_getPriority msg.(buffer) msg.(bytes) in
     if si.(si_bufferMax) <? si.(si_buffer) + priority then 0 else priority).

Lemma outgoing_forwarded si msg T : mem_ok msg.(buffer) -> 0 <= T < 2 ^ 64 ->
  forwarded si msg T (outgoing si (with_label msg msg.(bytes) (Endian_hostToBigEndian64 T))).
Proof.
  intros Hm HT. set (m := with_label _ _ _). destruct (outgoing_shape si m) as (E1 & E2 & E3 & E4).
  assert (load 4 m.(buffer) (bytes msg + SwitchHeader_lowBits_be) = load 4 msg.(buffer) (bytes msg + SwitchHeader_lowBits_be)) as Elow.
  { apply load_read, read_write_disj. rewrite length_store. unfold SwitchHeader_lowBits_be, SwitchHeader_label_be. lia. }
  assert (Headers_getMessageType m.(buffer) (bytes msg) = Headers_getMessageType msg.(buffer) (bytes msg)) as Et
    by (unfold Headers_getMessageType; by rewrite Elow).
  assert (Headers_getPriority m.(buffer) (bytes msg) = Headers_getPriority msg.(buffer) (bytes msg)) as Ep
    by (unfold Headers_getPriority; by rewrite Elow).
  assert (0 <= Headers_getMessageType msg.(buffer) (bytes msg) < 2 ^ 8) as Hr.
  { unfold Headers_getMessageType. pose proof (hostToBigEndian32_range _ (load_range 4 msg.(buffer) (bytes msg + SwitchHeader_lowBits_be) Hm)) as Hr.
    unfold Endian_bigEndianToHost32. rewrite Z.shiftr_div_pow2 by lia. split; [apply Z.div_pos; lia|apply Z.div_lt_upper_bound; lia]. }
  unfold forwarded. rewrite E1, E2, E3. change (bytes m) with (bytes msg) in *. split; [done|]. split; [done|]. split; [done|].
  split; [rewrite outgoing_label; by apply label_of_with_label|]. split.
  { intros x Hx. rewrite E4 by lia. apply write_out. rewrite length_store. unfold SwitchHeader_label_be. lia. }
  unfold outgoing. change (bytes m) with (bytes msg). rewrite Ep. destruct (_ <? _); [|by rewrite Et, Ep].
  destruct (Headers_switchHeader_fields m.(buffer) (bytes msg) 0 (Headers_getMessageType m.(buffer) (bytes msg))) as (F1 & F2 & _); [lia|].
  cbn [with_buffer buffer]. rewrite F1, F2, Et, Z.mod_small by done. done.
Qed.

(** C22: what the handler does with a well-formed message, on every branch. A
    flooding interface and a runt are dropped in silence. A label that leads nowhere
    is answered with an error packet to the source: under the reversed label, with
    the code, a right checksum and up to 256 bytes of the message. Otherwise the
    destination's interface gets the message under its new label, with its priority
    cleared if the buffer would overflow and no other byte changed; and if that
    interface refuses it, the source gets an error packet with the interface's code
    for the message as the interface left it, with its old label put back. A message
    that is an error packet itself causes no error packet, and where 20 bytes of
    padding are missing for one, the program aborts. *)
Theorem SwitchCore_receiveMessage_spec iface_send core s f msg :
  0 <= s < NumberCompress_INTERFACES -> (slot core s).(si_iface) = Some f -> message_ok msg ->
  (forall g m, message_ok m -> message_ok (iface_send g m).1 /\ 0 <= (iface_send g m).2 < 2 ^ 32) ->
  let result := receiveMessage iface_send core s msg in
  if (slot core s).(si_bufferMax) <? (slot core s).(si_buffer) then result = Some []
  else if length msg <? 12 then result = Some []
  else match route core s (label_of msg) with
  | None => reports f msg Error_MALFORMED_ADDRESS result
  | Some (d, T) => exists fd out, (slot core d).(si_iface) = Some fd /\ forwarded (slot core d) msg T out /\
      let '(after, err) := iface_send fd out in
      if err =? 0 then result = Some [(fd, out)]
      else exists cause report, relabelled after msg.(bytes) (label_of msg) cause /\ reports f cause err report /\
        result = (fun sent => (fd, out) :: sent) <$> report
  end.
Proof.
  intros Hs Hf Hmsg Hsend result. pose proof Hmsg as (Hl & Hp & Hlp & Hm). unfold result; clear result.
  destruct (Z.ltb_spec (si_bufferMax (slot core s)) (si_buffer (slot core s))) as [H|H].
  { unfold receiveMessage. cbv zeta. by rewrite (proj2 (Z.ltb_lt _ _)) by lia. }
  destruct (Z.ltb_spec (length msg) 12) as [Hl12|Hl12].
  { unfold receiveMessage. cbv zeta. rewrite (proj2 (Z.ltb_ge _ _)) by lia. unfold Headers_SwitchHeader_SIZE. by rewrite (proj2 (Z.ltb_lt _ _)) by lia. }
  rewrite receiveMessage_follows_route by done. pose proof (label_of_range msg Hm) as HL.
  destruct (route core s (label_of msg)) as [[d T]|] eqn:Hr; [|by apply SwitchCore_sendError_packet].
  destruct (route_width core s (label_of msg) d T Hs (proj1 HL) Hr) as (_ & _ & Hda & w & Hw & ET & _).
  assert (0 <= T < 2 ^ 64) as HT by (rewrite ET; apply lor_range; [lia|apply shiftr_small; lia|apply bitReverse64_range]).
  destruct (si_iface (slot core d)) as [fd|] eqn:Efd; [|done]. rewrite (sendMessage_eq iface_send _ _ fd Efd).
  set (out := outgoing _ _). exists fd, out. split; [done|]. split; [by apply outgoing_forwarded|].
  assert (message_ok out) as Hout.
  { destruct (outgoing_shape (slot core d) (with_label msg (bytes msg) (Endian_hostToBigEndian64 T))) as (E1 & E2 & _).
    unfold message_ok, out. rewrite E1, E2. do 3 (split; [done|]). apply outgoing_mem. apply write_ok; [done|apply store_ok]. }
  destruct (Hsend fd out Hout) as [Hafter Herr]. destruct (iface_send fd out) as [after err]. cbn [fst snd] in *. cbn [mbind option_bind].
  destruct (Z.eqb_spec err 0); cbn [negb]; [done|]. exists (with_label after (bytes msg) (Endian_hostToBigEndian64 (label_of msg))),
    (sendError iface_send (slot core s) (with_label after (bytes msg) (Endian_hostToBigEndian64 (label_of msg))) err).
  split; [by apply with_label_relabelled|]. split.
  - apply SwitchCore_sendError_packet; [exact Hf| |lia]. destruct Hafter as (A1 & A2 & A3 & A4). unfold message_ok, with_label.
    cbn [with_buffer length padding buffer]. do 3 (split; [lia|]). apply write_ok; [done|apply store_ok].
  - change Endian_bigEndianToHost64 with Endian_hostToBigEndian64. destruct (sendError _ _ _ _); done.
Qed.

(** C29: in every table the operations can build, as long as interfaces have been
    added fewer than 2^32 - 2 times (the count of them is 32 bits wide and is never
    lowered), each attached interface's
    context names the slot it is in, that slot is inside the table, no two slots
    hold the same interface, and slot 1 is empty until a router is set. *)
Theorem SwitchCore_reachable_table core :
  reachable core ->
  (forall i f, (slot core i).(si_iface) = Some f ->
     0 <= i < NumberCompress_INTERFACES /\ core.(receiverContext) !! f = Some i)
  /\ (forall i j f, (slot core i).(si_iface) = Some f -> (slot core j).(si_iface) = Some f -> i = j)
  /\ (core.(routerAdded) = false -> (slot core 1).(si_iface) = None).
Proof.
  intros Hr%reachable_ok. split; [|split].
  - intros i f Hf. split; [apply (ok_range core Hr i f Hf)|apply (ok_context core Hr i f Hf)].
  - intros i j f Hi Hj. apply (ok_context core Hr) in Hi, Hj. congruence.
  - intros E. destruct (si_iface (slot core 1)) eqn:E1; [|done].
    rewrite (ok_router core Hr) in E by congruence. done.
Qed.

(** Adding an interface to any table the operations can build uses a vacant
    slot other than the router's, the lowest, and changes no other slot; the
    label given out is one hop long and names that slot. It is refused only when
    every slot but the router's is taken. *)
Theorem SwitchCore_addInterface_spec core f trust :
  reachable core -> ~ attached core f ->
  match SwitchCore_addInterface f trust core with
  | Added core' labelOut => exists i,
      0 <= i < NumberCompress_INTERFACES /\ i <> 1 /\ (slot core i).(si_iface) = None
      /\ (forall j, 0 <= j < i -> j <> 1 -> (slot core j).(si_iface) <> None)
      /\ (slot core' i).(si_iface) = Some f /\ (slot core' i).(si_bufferMax) = s64 trust
      /\ core'.(receiverContext) !! f = Some i
      /\ (forall j, j <> i -> slot core' j = slot core j)
      /\ LabelSplicer_isOneHop labelOut = true
      /\ NumberCompress_getDecompressed labelOut (NumberCompress_bitsUsedForLabel labelOut) = i
      /\ (can_count core -> reachable core')
  | _ => forall j, 0 <= j < NumberCompress_INTERFACES -> j <> 1 -> (slot core j).(si_iface) <> None
  end.
Proof.
  intros Hr Hnew. pose proof (add_cases core f trust (reachable_ok core Hr)) as H.
  destruct (SwitchCore_addInterface f trust core) as [core' L| |] eqn:E; [|exact H|exact H].
  destruct H as (i & Hi & Hi' & Hi1 & Hv & Hlow & Hp).
  destruct (placed core f trust i core' L Hp) as (Hslot & Hctx & _ & _ & ->). exists i. fold (slot_label i).
  destruct (slot_label_spec i) as [E1 E2]; [lia|]. split_and!; try lia; try done.
  - rewrite Hslot. destruct (decide (i = i)); done.
  - rewrite Hslot. destruct (decide (i = i)); done.
  - rewrite Hctx. apply lookup_insert_eq.
  - intros j Hj. rewrite Hslot. destruct (decide (j = i)); done.
  - intros Hc. eapply rtc_r; [exact Hr|]. apply (step_add core f trust core' _ Hc Hnew E).
Qed.
End properties.

(** ** A run of the operations, executed *)
Section runs.
  Context {P : Platform}.

Inductive core_op :=
  | OpAdd (f : Iface) (trust : Z)
  | OpRouter (f : Iface)
  | OpFree (f : Iface).

Definition is_attached (core : SwitchCore) (f : Iface) : bool :=
  existsb (fun i => bool_decide ((slot core (Z.of_nat i)).(si_iface) = Some f))
    (seq 0 (Z.to_nat NumberCompress_INTERFACES)).

Definition do_op (core : SwitchCore) (op : core_op) : option SwitchCore :=
  match op with
  | OpAdd f trust =>
      if is_attached core f || (2 ^ 32 - 2 <=? core.(interfaceCount)) then None
      else match SwitchCore_addInterface f trust core with Added core' _ => Some core' | _ => None end
  | OpRouter f => if is_attached core f || (2 ^ 32 - 2 <=? core.(interfaceCount)) then None else Some (SwitchCore_setRouterInterface f core)
  | OpFree f => Some (free_interface core f)
  end.

Fixpoint do_ops (core : SwitchCore) (ops : list core_op) : option SwitchCore :=
  match ops with
  | [] => Some core
  | op :: ops' => core' ← do_op core op; do_ops core' ops'
  end.

Lemma is_attached_spec core f : core_ok core -> is_attached core f = false -> ~ attached core f.
Proof.
  intros Hok E [i Hi]. pose proof (ok_range core Hok i f Hi) as Hr.
  assert (is_attached core f = true); [|congruence]. unfold is_attached. apply existsb_exists.
  exists (Z.to_nat i). split; [apply in_seq; lia|]. rewrite Z2Nat.id by lia. apply bool_decide_eq_true, Hi.
Qed.

Lemma do_op_step core op core' : core_ok core -> do_op core op = Some core' -> core_step core core'.
Proof.
  intros Hok. destruct op as [f trust|f|f]; cbn [do_op].
  - destruct (is_attached core f) eqn:Ea; [done|]. cbn [orb]. destruct (Z.leb_spec (2 ^ 32 - 2) core.(interfaceCount)); [done|].
    destruct (SwitchCore_addInterface f trust core) as [core1 L| |] eqn:E; [|done..]. intros [= <-].
    apply (step_add core f trust core1 L); [done|apply is_attached_spec; done|done].
  - destruct (is_attached core f) eqn:Ea; [done|]. cbn [orb]. destruct (Z.leb_spec (2 ^ 32 - 2) core.(interfaceCount)); [done|].
    intros [= <-]. apply step_router; [done|]. apply is_attached_spec; done.
  - intros [= <-]. apply step_free.
Qed.

Lemma do_ops_reachable core ops core' : reachable core -> do_ops core ops = Some core' -> reachable core'.
Proof.
  revert core. induction ops as [|op ops IH]; intros core Hr; cbn [do_ops]; [intros [= <-]; done|].
  destruct (do_op core op) as [core1|] eqn:E; [|done]. cbn [mbind option_bind]. apply IH.
  eapply rtc_r; [exact Hr|]. apply (do_op_step core op core1 (reachable_ok core Hr) E).
Qed.
End runs.

(** Fill the table of the default build, detach one interface, attach another. *)
Definition churn : list core_op :=
  OpRouter 1000 :: map (fun i => OpAdd (Z.of_nat i) 1) (seq 0 256) ++ [OpFree 7; OpAdd 500 1].

(** The scan for a slot can leave the table. [interfaceCount] only ever
    grows, so after an interface has been detached and another attached to a
    full table, adding one more does not meet the test for a full table: in the
    default build the scan reads past the last slot. *)
Theorem SwitchCore_addInterface_leaves_table :
  exists core f, @reachable x86 core /\ ~ attached core f /\ @SwitchCore_addInterface x86 f 1 core = OutOfBounds.
Proof.
  assert (match @do_ops x86 SwitchCore_new churn with
          | Some c => negb (@is_attached x86 c 501) && (match @SwitchCore_addInterface x86 501 1 c with OutOfBounds => true | _ => false end)
          | None => false end = true) as H by (vm_compute; reflexivity).
  destruct (@do_ops x86 SwitchCore_new churn) as [core|] eqn:E; [|done].
  assert (@reachable x86 core) as Hr by (apply (@do_ops_reachable x86 SwitchCore_new churn core); [apply rtc_refl|done]).
  apply andb_prop in H as [H1%negb_true_iff H2].
  exists core, 501. split; [exact Hr|]. split; [apply (@is_attached_spec x86 core 501 (@reachable_ok x86 core Hr) H1)|].
  destruct (SwitchCore_addInterface 501 1 core); done.
Qed.

(** ** Witnesses: a switch with a router and two interfaces *)
Definition demo_if (f : Iface) : SwitchInterface :=
  {| si_iface := Some f; si_onFree := Some f; si_buffer := 0; si_bufferMax := 1000; si_congestion := 0 |}.
Definition demo_core : SwitchCore :=
  set_slot (set_slot (set_slot SwitchCore_new 1 (demo_if 100)) 0 (demo_if 10)) 2 (demo_if 12).
Definition demo_msg (label : Z) : Message :=
  {| length := 16; padding := 32; bytes := 0; buffer := of_list [0; 0; 0; 0; 0; 0; 0; label; 0; 0; 0; 9; 1; 2; 3; 4] |}.
Definition accept (f : Iface) (m : Message) : Message * Z := (m, 0).

Lemma demo_mem label : 0 <= label < 256 -> mem_ok (demo_msg label).(buffer).
Proof. intros H. apply of_list_ok. repeat constructor; unfold is_byte; lia. Qed.

Lemma demo_buffers i : (slot demo_core i).(si_buffer) <= (slot demo_core i).(si_bufferMax).
Proof. unfold demo_core. rewrite !slot_set_slot. repeat case_decide; cbn; lia || done. Qed.

Lemma SwitchCore_return_path_witness :
  exists fd out, @receiveMessage x86 accept demo_core 2 (demo_msg 0x13) = Some [(fd, out)]
    /\ @label_of x86 out = (1 .| Bits_bitReverse64 5).
Proof.
  destruct (@SwitchCore_return_path x86 accept demo_core 2 12 (demo_msg 0x13) (demo_msg 0x15) 0 (1 .| Bits_bitReverse64 5))
    as (fd & out & H1 & _ & H2 & _).
  - done.
  - vm_compute. split; [discriminate|reflexivity].
  - reflexivity.
  - apply demo_buffers.
  - apply demo_mem. lia.
  - cbn. lia.
  - cbn. lia.
  - vm_compute. reflexivity.
  - exists fd, out. split; [exact H1|exact H2].
Defined.

(** Nothing is behind slot 3; the interface of slot 2 is answered. *)
Lemma SwitchCore_receiveMessage_spec_witness :
  exists out, @receiveMessage x86 accept demo_core 2 (demo_msg 0x17) = Some [(12, out)] /\ @is_error x86 out = true /\
    length out = 36 /\ read out.(buffer) (out.(bytes) + 20) 16 = read (demo_msg 0x17).(buffer) 0 16.
Proof.
  assert (message_ok (demo_msg 0x17)) as Hok by (split_and!; [done|done|done|done|apply demo_mem; lia]).
  pose proof (@SwitchCore_receiveMessage_spec x86 accept demo_core 2 12 (demo_msg 0x17) ltac:(vm_compute; split; [discriminate|reflexivity])
    eq_refl Hok (fun g m Hm => conj Hm (conj (Z.le_refl 0) eq_refl))) as H. cbv zeta in H.
  assert (@route x86 demo_core 2 (@label_of x86 (demo_msg 0x17)) = None) as Er by (vm_compute; reflexivity). rewrite Er in H.
  destruct H as (out & E & _ & He & _ & _ & Hl & Hq). exists out. split; [exact E|]. split; [exact He|]. split; [exact Hl|exact Hq].
Defined.

Lemma SwitchCore_sendError_packet_witness :
  exists out, @sendError x86 accept (slot demo_core 2) (demo_msg 0x17) Error_MALFORMED_ADDRESS = Some [(12, out)]
    /\ @is_error x86 out = true.
Proof.
  assert (message_ok (demo_msg 0x17)) as Hok.
  { unfold message_ok. split_and!; [done|done|done|done|apply demo_mem; lia]. }
  pose proof (@SwitchCore_sendError_packet x86 accept (slot demo_core 2) 12 (demo_msg 0x17) Error_MALFORMED_ADDRESS
    eq_refl Hok ltac:(unfold Error_MALFORMED_ADDRESS; lia)) as H.
  assert (@is_error x86 (demo_msg 0x17) = false) as E by (vm_compute; reflexivity). unfold reports in H. rewrite E in H.
  destruct H as (out & H1 & _ & H2 & _). exists out. split; [exact H1|exact H2].
Defined.

Lemma SwitchCore_reachable_table_witness :
  match @do_ops x86 SwitchCore_new [OpAdd 10 1; OpAdd 20 1; OpFree 10; OpAdd 30 1] with
  | Some core => core.(receiverContext) !! 20 = Some 2 /\ (slot core 1).(si_iface) = None
  | None => False
  end.
Proof.
  destruct (@do_ops x86 SwitchCore_new [OpAdd 10 1; OpAdd 20 1; OpFree 10; OpAdd 30 1]) as [core|] eqn:E;
    [|vm_compute in E; discriminate].
  assert (@reachable x86 core) as Hr by (apply (@do_ops_reachable x86 _ _ _ (rtc_refl _ _) E)).
  destruct (@SwitchCore_reachable_table x86 core Hr) as (H1 & _ & H3).
  vm_compute in E. injection E as <-. split; [apply (H1 2 20); reflexivity|apply H3; reflexivity].
Defined.

Lemma SwitchCore_addInterface_spec_witness :
  match @SwitchCore_addInterface x86 10 1000 SwitchCore_new with
  | Added core' labelOut => exists i, (slot core' i).(si_iface) = Some 10
  | _ => False
  end.
Proof.
  pose proof (@SwitchCore_addInterface_spec x86 SwitchCore_new 10 1000) as H.
  assert (@reachable x86 SwitchCore_new) as Hr by apply rtc_refl.
  assert (~ attached SwitchCore_new 10) as Hn by (intros [i Hi]; discriminate Hi).
  specialize (H Hr Hn). destruct (@SwitchCore_addInterface x86 10 1000 SwitchCore_new) as [c L| |] eqn:E.
  - destruct H as (i & _ & _ & _ & _ & H & _). exists i. exact H.
  - vm_compute in E. discriminate.
  - vm_compute in E. discriminate.
Defined.
