(* ===== verification/NaCl.v ===== *)
(** * Cryptographic primitives and addresses (crypto/AddressCalc.c, NaCl)

    The primitives come from the NaCl library, which is not part of the
    repository: they are the operations of a class, and what the program relies
    on is its laws. A toy instance shows that the laws can hold. Random bytes
    come from a source with a state of its own. *)
From S2P Require Import Prelude Memory.

(** The functions of NaCl the program calls, on lists of bytes. [afternm] and
    [open_afternm] work on the padded forms of the C interface: 32 zero bytes
    before the plain text, 16 before the cipher text. *)
Class NaCl : Type := {
  crypto_scalarmult_curve25519_base : list Z -> list Z;
  crypto_scalarmult_curve25519 : list Z -> list Z -> list Z;
  crypto_box_beforenm : list Z -> list Z -> list Z;
  crypto_box_afternm : list Z -> list Z -> list Z -> list Z;
  crypto_box_open_afternm : list Z -> list Z -> list Z -> option (list Z);
  crypto_stream_salsa20_xor : list Z -> list Z -> list Z -> list Z;
  crypto_hash_sha256 : list Z -> list Z;
  crypto_hash_sha512 : list Z -> list Z
}.

(** [crypto_box_beforenm] takes the public key first, the secret key second;
    [crypto_scalarmult_curve25519] the other way around. *)
Class NaClLaws (N : NaCl) : Prop := {
  base_length : forall sk, length sk = 32%nat -> length (crypto_scalarmult_curve25519_base sk) = 32%nat;
  base_ok : forall sk, bytes_ok sk -> bytes_ok (crypto_scalarmult_curve25519_base sk);
  beforenm_agree : forall a b, length a = 32%nat -> length b = 32%nat ->
    crypto_box_beforenm (crypto_scalarmult_curve25519_base a) b
    = crypto_box_beforenm (crypto_scalarmult_curve25519_base b) a;
  scalarmult_agree : forall a b, length a = 32%nat -> length b = 32%nat ->
    crypto_scalarmult_curve25519 a (crypto_scalarmult_curve25519_base b)
    = crypto_scalarmult_curve25519 b (crypto_scalarmult_curve25519_base a);
  afternm_length : forall m n k, length (crypto_box_afternm m n k) = length m;
  afternm_ok : forall m n k, bytes_ok m -> bytes_ok (crypto_box_afternm m n k);
  afternm_zeros : forall p n k,
    take 16 (crypto_box_afternm (repeat 0 32 ++ p) n k) = repeat 0 16;
  open_afternm_agree : forall p n k,
    crypto_box_open_afternm (crypto_box_afternm (repeat 0 32 ++ p) n k) n k = Some (repeat 0 32 ++ p);
  open_length : forall c n k m, crypto_box_open_afternm c n k = Some m -> length m = length c;
  open_ok : forall c n k m, bytes_ok c -> crypto_box_open_afternm c n k = Some m -> bytes_ok m;
  stream_length : forall m n k, length (crypto_stream_salsa20_xor m n k) = length m;
  stream_ok : forall m n k, bytes_ok m -> bytes_ok (crypto_stream_salsa20_xor m n k);
  stream_twice : forall m n k, bytes_ok m ->
    crypto_stream_salsa20_xor (crypto_stream_salsa20_xor m n k) n k = m;
  sha256_length : forall m, length (crypto_hash_sha256 m) = 32%nat;
  sha256_ok : forall m, bytes_ok (crypto_hash_sha256 m);
  sha512_length : forall m, length (crypto_hash_sha512 m) = 64%nat;
  sha512_ok : forall m, bytes_ok (crypto_hash_sha512 m)
}.

(** Random_bytes: [count] bytes and the source after them. *)
Class RandomSource : Type := {
  Rand : Type;
  Random_bytes : Rand -> Z -> list Z * Rand
}.
Class RandomLaws (R : RandomSource) : Prop := {
  random_length : forall r n, 0 <= n -> Z.of_nat (length (fst (Random_bytes r n))) = n;
  random_ok : forall r n, bytes_ok (fst (Random_bytes r n))
}.

(** ** Addresses of public keys *)
Section addresscalc.
  Context {N : NaCl}.

(** The address written, and whether it is in the network's range. *)
Definition AddressCalc_addressForPublicKey (key : list Z) : list Z * bool :=
  let hash := crypto_hash_sha512 (take 32 key) in
  let hash := crypto_hash_sha512 hash in
  (take 16 hash, nth 0 hash 0 =? 0xFC).

Definition AddressCalc_validKey (key : list Z) : bool :=
  let hash := crypto_hash_sha512 (take 32 key) in
  let hash := crypto_hash_sha512 hash in
  nth 0 hash 0 =? 0xFC.

Definition AddressCalc_validAddress (address : list Z) : bool := nth 0 address 0 =? 0xFC.
End addresscalc.

(** ** A toy instance: keys are their own public keys, a shared secret is the
    exclusive or, the authenticator is the start of the key. *)
Definition xor_bytes (a b : list Z) : list Z := zip_with (fun x y => x .^ y) a b.
Definition pad (n : nat) (l : list Z) : list Z := take n (map u8 l ++ repeat 0 n).

#[export] Instance toy_nacl : NaCl := {|
  crypto_scalarmult_curve25519_base sk := sk;
  crypto_scalarmult_curve25519 sk pk := xor_bytes sk pk;
  crypto_box_beforenm pk sk := xor_bytes pk sk;
  crypto_box_afternm m n k := take (length m) (repeat 0 16 ++ pad 16 k ++ drop 32 m);
  crypto_box_open_afternm c n k :=
    if decide (take 16 (drop 16 c) = take (length c - 16) (pad 16 k))
    then Some (take (length c) (repeat 0 32 ++ drop 32 c)) else None;
  crypto_stream_salsa20_xor m n k := m;
  crypto_hash_sha256 m := pad 32 m;
  crypto_hash_sha512 m := pad 64 (252 :: m)
|}.

Lemma pad_length n l : length (pad n l) = n.
Proof. unfold pad. rewrite length_take, length_app, length_map, repeat_length. lia. Qed.

Lemma pad_ok n l : bytes_ok (pad n l).
Proof.
  apply Forall_take, Forall_app. split.
  - apply List.Forall_forall. intros x (y & <- & _)%in_map_iff. apply u8_range.
  - apply List.Forall_forall. intros x ->%repeat_spec. unfold is_byte. lia.
Qed.

Lemma zeros_ok n : bytes_ok (repeat 0 n).
Proof. apply List.Forall_forall. intros x ->%repeat_spec. unfold is_byte. lia. Qed.

#[export] Instance toy_laws : NaClLaws toy_nacl.
Proof.
  split; cbn [crypto_scalarmult_curve25519_base crypto_scalarmult_curve25519 crypto_box_beforenm crypto_box_afternm
    crypto_box_open_afternm crypto_stream_salsa20_xor crypto_hash_sha256 crypto_hash_sha512 toy_nacl]; try done.
  - intros a b _ _. unfold xor_bytes. revert b. induction a as [|x a IH]; intros [|y b]; cbn; try done.
    rewrite IH, Z.lxor_comm. done.
  - intros a b _ _. unfold xor_bytes. revert b. induction a as [|x a IH]; intros [|y b]; cbn; try done.
    rewrite IH, Z.lxor_comm. done.
  - intros m n k. rewrite length_take, !length_app, repeat_length, pad_length, length_drop. lia.
  - intros m n k Hm. apply Forall_take, Forall_app. split; [apply zeros_ok|].
    apply Forall_app. split; [apply pad_ok|apply Forall_drop, Hm].
  - intros p n k.
    set (c := take (length (repeat 0 32 ++ p)) _).
    assert (c = repeat 0 16 ++ pad 16 k ++ p) as ->.
    { unfold c. rewrite drop_app_length' by (rewrite repeat_length; done).
      rewrite take_ge; [done|]. rewrite !length_app, !repeat_length, pad_length. lia. }
    rewrite !length_app, !repeat_length, pad_length.
    rewrite decide_True.
    2: { rewrite drop_app_length' by (rewrite repeat_length; done).
         rewrite take_app_length' by (rewrite pad_length; done).
         rewrite take_ge; [done|]. rewrite pad_length. lia. }
    do 2 f_equal. rewrite (app_assoc (repeat 0 16)). rewrite drop_app_length'
      by (rewrite length_app, repeat_length, pad_length; done).
    apply take_ge. rewrite length_app, repeat_length. lia.
  - intros c n k m. case_decide; [|done]. intros E%(inj Some). rewrite <-E.
    rewrite length_take, length_app, repeat_length, length_drop. lia.
  - intros c n k m Hc. case_decide; [|done]. intros E%(inj Some). rewrite <-E.
    apply Forall_take, Forall_app. split; [apply zeros_ok|apply Forall_drop, Hc].
  - intros m. apply pad_length.
  - intros m. apply pad_ok.
  - intros m. apply pad_length.
  - intros m. apply pad_ok.
Qed.

(** A counter as a source of bytes. *)
#[export] Instance toy_random : RandomSource := {|
  Rand := Z;
  Random_bytes r n := (repeat (u8 (r + 1)) (Z.to_nat n), r + 1)
|}.
#[export] Instance toy_random_laws : RandomLaws toy_random.
Proof.
  split.
  - intros r n Hn. cbn. rewrite repeat_length. lia.
  - intros r n. cbn. apply List.Forall_forall. intros x ->%repeat_spec. apply u8_range.
Qed.
