(* ===== verification/Random.v ===== *)
(** * The random generator (crypto/random/Random.c, Random.h)

    Random bytes are the key stream of a cipher, taken from a buffer that is
    filled again when it is empty. The key is the hash of a seed and of a pool
    that other parts of the program put numbers into; the nonce counts the uses of
    the cipher and is never reset. The seed comes from the operating system and
    is an argument. *)
From S2P Require Import Prelude Memory Base32 NaCl.
Open Scope Z_scope.

Definition BUFFSIZE : Z := 128.

(** The key, the buffer, the seed and the pool are lists of the length of the
    arrays in the code. *)
Record Random := {
  tempSeed : list Z;
  nonce : Z;
  buff : list Z;
  nextByte : Z;
  addRandomCounter : Z;
  seed : list Z;
  collectedEntropy : list Z
}.

Section random.
  Context {P : Platform} {N : NaCl}.

Definition rotl (a b : Z) : Z := u32 (a << b) .| (a >> (32 - b)).

(** [union Random_SeedGen] as bytes. *)
Definition seedGen_buff (seed collectedEntropy : list Z) : list Z := seed ++ flat_map (store 4) collectedEntropy.

Definition Random_addRandom (rand : Random) (randomNumber : Z) : Random :=
  let i := Z.to_nat (rand.(addRandomCounter) mod 8) in
  let entropy := <[i := nth i rand.(collectedEntropy) 0 .^ rotl randomNumber (rand.(addRandomCounter) / 8)]> rand.(collectedEntropy) in
  let counter := rand.(addRandomCounter) + 1 in
  if 256 <=? counter then
    {| tempSeed := crypto_hash_sha256 (seedGen_buff rand.(seed) entropy); nonce := rand.(nonce); buff := rand.(buff);
       nextByte := rand.(nextByte); addRandomCounter := 0; seed := rand.(seed); collectedEntropy := entropy |}
  else
    {| tempSeed := rand.(tempSeed); nonce := rand.(nonce); buff := rand.(buff); nextByte := rand.(nextByte);
       addRandomCounter := counter; seed := rand.(seed); collectedEntropy := entropy |}.

Definition stir (rand : Random) : Random :=
  {| tempSeed := rand.(tempSeed); nonce := u64 (rand.(nonce) + 1);
     buff := crypto_stream_salsa20_xor rand.(buff) (store 8 rand.(nonce)) rand.(tempSeed); nextByte := 0;
     addRandomCounter := rand.(addRandomCounter); seed := rand.(seed); collectedEntropy := rand.(collectedEntropy) |}.

(** What is copied, and the generator after it. *)
Definition randomCopy (rand : Random) (count : Z) : list Z * Random :=
  let num := if BUFFSIZE - rand.(nextByte) <? count then BUFFSIZE - rand.(nextByte) else count in
  (take (Z.to_nat num) (drop (Z.to_nat rand.(nextByte)) rand.(buff)),
   {| tempSeed := rand.(tempSeed); nonce := rand.(nonce); buff := rand.(buff); nextByte := rand.(nextByte) + num;
      addRandomCounter := rand.(addRandomCounter); seed := rand.(seed); collectedEntropy := rand.(collectedEntropy) |}).

Fixpoint Random_bytes_loop (fuel : nat) (rand : Random) (count : Z) : option (list Z * Random) :=
  match fuel with
  | O => None
  | S fuel =>
      let '(copied, rand) := randomCopy rand count in
      let count := count - Z.of_nat (length copied) in
      if count =? 0 then Some (copied, rand)
      else '(rest, rand) ← Random_bytes_loop fuel (stir rand) count; Some (copied ++ rest, rand)
  end.

(** A small request goes round at most twice. [location] is what lies where the
    bytes go: the key stream of a large request is put over it. *)
Definition Random_bytes (rand : Random) (location : list Z) (count : Z) : option (list Z * Random) :=
  if BUFFSIZE <? count then
    Some (crypto_stream_salsa20_xor location (store 8 rand.(nonce)) rand.(tempSeed),
          {| tempSeed := rand.(tempSeed); nonce := u64 (rand.(nonce) + 1); buff := rand.(buff); nextByte := rand.(nextByte);
             addRandomCounter := rand.(addRandomCounter); seed := rand.(seed); collectedEntropy := rand.(collectedEntropy) |})
  else Random_bytes_loop 2 rand count.

(** [index] characters are written; with [length] of them the loop is left. *)
Fixpoint Random_base32_loop (fuel : nat) (rand : Random) (output : mem) (index length : Z) : option (mem * Random) :=
  match fuel with
  | O => None
  | S fuel =>
      '(bin, rand) ← Random_bytes rand [] 16;
      let '(out, ret) := Base32_encode (fun x => output (index + x)) (length - index) (of_list bin) 16 in
      let output x := out (x - index) in
      if (ret =? Base32_TOO_BIG) || (index + ret =? length) then Some (output, rand)
      else Random_base32_loop fuel rand output (index + ret) length
  end.

Definition Random_base32 (fuel : nat) (rand : Random) (output : mem) (length : Z) : option (mem * Random) :=
  '(output, rand) ← Random_base32_loop fuel rand output 0 length;
  Some (set output (length - 1) 0, rand).

(** [seedGen] is what the operating system gave: 64 bytes. *)
Definition Random_newWithSeed (seedGen : list Z) : Random :=
  let rand := {| tempSeed := repeat 0 32; nonce := 0; buff := repeat 0 (Z.to_nat BUFFSIZE); nextByte := BUFFSIZE; addRandomCounter := 255;
                 seed := take 32 seedGen;
                 collectedEntropy := map (fun i => load 4 (of_list seedGen) (32 + 4 * Z.of_nat i)) (seq 0 8) |} in
  stir (Random_addRandom rand 0).
End random.

(** ** The stream of random bytes *)
Record rand_ok (rand : Random) : Prop := {
  ok_tempSeed : length rand.(tempSeed) = 32%nat /\ bytes_ok rand.(tempSeed);
  ok_nonce : 0 <= rand.(nonce) < 2 ^ 64;
  ok_buff : length rand.(buff) = 128%nat /\ bytes_ok rand.(buff);
  ok_nextByte : 0 <= rand.(nextByte) <= BUFFSIZE;
  ok_counter : 0 <= rand.(addRandomCounter) < 256;
  ok_seed : length rand.(seed) = 32%nat /\ bytes_ok rand.(seed);
  ok_entropy : length rand.(collectedEntropy) = 8%nat /\ Forall (fun x => 0 <= x < 2 ^ 32) rand.(collectedEntropy)
}.

Section stream.
  Context {P : Platform} {N : NaCl} {laws : NaClLaws N}.

Lemma rotl_range a b : 0 <= a < 2 ^ 32 -> 0 <= b < 32 -> 0 <= rotl a b < 2 ^ 32.
Proof.
  intros Ha Hb. unfold rotl. apply lor_range; [lia|apply u32_range|]. rewrite Z.shiftr_div_pow2 by lia.
  assert (0 < 2 ^ (32 - b)) by (apply Z.pow_pos_nonneg; lia). split; [apply Z.div_pos; lia|].
  apply Z.div_lt_upper_bound; [done|]. nia.
Qed.

Lemma addRandom_ok rand n : rand_ok rand -> 0 <= n < 2 ^ 32 -> rand_ok (Random_addRandom rand n).
Proof.
  intros [H1 H2 H3 H4 H5 H6 [H7 H8]] Hn. pose proof (Z.mod_pos_bound rand.(addRandomCounter) 8 ltac:(lia)) as Hi.
  unfold Random_addRandom. set (i := Z.to_nat (rand.(addRandomCounter) mod 8)). set (x := nth i rand.(collectedEntropy) 0 .^ _).
  assert (0 <= x < 2 ^ 32) as Hx.
  { assert (0 <= nth i rand.(collectedEntropy) 0 < 2 ^ 32) as Hold by (rewrite List.Forall_forall in H8; apply H8, nth_In; lia).
    pose proof (rotl_range n (rand.(addRandomCounter) / 8) Hn ltac:(split; [apply Z.div_pos; lia|apply Z.div_lt_upper_bound; lia])) as Hr.
    unfold x. split; [apply Z.lxor_nonneg; lia|]. destruct (Z.eq_dec (nth i rand.(collectedEntropy) 0 .^ rotl n (rand.(addRandomCounter) / 8)) 0) as [->|Hne]; [lia|].
    apply Z.log2_lt_pow2; [pose proof (proj2 (Z.lxor_nonneg (nth i rand.(collectedEntropy) 0) (rotl n (rand.(addRandomCounter) / 8))) ltac:(lia)); lia|].
    eapply Z.le_lt_trans; [apply Z.log2_lxor; lia|]. apply Z.max_lub_lt.
    - destruct (Z.eq_dec (nth i rand.(collectedEntropy) 0) 0) as [->|]; [cbn; lia|]. apply Z.log2_lt_pow2; lia.
    - destruct (Z.eq_dec (rotl n (rand.(addRandomCounter) / 8)) 0) as [->|]; [cbn; lia|]. apply Z.log2_lt_pow2; lia. }
  assert (length (<[i:=x]> rand.(collectedEntropy)) = 8%nat /\ Forall (fun x => 0 <= x < 2 ^ 32) (<[i:=x]> rand.(collectedEntropy))) as He.
  { split; [by rewrite length_insert|]. by apply Forall_insert. }
  cbv zeta. destruct (Z.leb_spec 256 (rand.(addRandomCounter) + 1)); split; cbn; try done; try lia. split; [apply sha256_length|apply sha256_ok].
Qed.

Lemma stir_ok rand : rand_ok rand -> rand_ok (stir rand).
Proof.
  intros [H1 H2 [H3 H3'] H4 H5 H6 H7]. split; cbn; try done; try apply u64_range.
  split; [by rewrite stream_length|by apply stream_ok].
Qed.

(** The random bytes as they are meant: a block under every nonce, from [n] on,
    each the key stream of its nonce put over the block before. *)
Fixpoint blocks (k : nat) (key : list Z) (n : Z) (block : list Z) : list Z :=
  match k with
  | O => []
  | S k =>
      let block := crypto_stream_salsa20_xor block (store 8 (n mod 2 ^ 64)) key in
      block ++ blocks k key (n + 1) block
  end.

(** What is left in the buffer, and the next [k] blocks. *)
Definition stream (k : nat) (rand : Random) : list Z :=
  drop (Z.to_nat rand.(nextByte)) rand.(buff) ++ blocks k rand.(tempSeed) rand.(nonce) rand.(buff).

Lemma blocks_mod k key n block : blocks k key (n mod 2 ^ 64) block = blocks k key n block.
Proof.
  revert n block. induction k as [|k IH]; intros n block; cbn [blocks]; [done|]. rewrite Z.mod_mod by lia. f_equal.
  rewrite <-(IH (n mod 2 ^ 64 + 1)), <-(IH (n + 1)). f_equal. rewrite Z.add_mod_idemp_l by lia. done.
Qed.

Lemma copy_spec rand count : rand_ok rand -> 0 <= count ->
  let '(copied, rand') := randomCopy rand count in
  Z.of_nat (length copied) = Z.min count (BUFFSIZE - rand.(nextByte)) /\ bytes_ok copied /\ rand_ok rand' /\
  rand'.(nextByte) = rand.(nextByte) + Z.of_nat (length copied) /\ rand'.(tempSeed) = rand.(tempSeed) /\ rand'.(nonce) = rand.(nonce) /\
  forall k, stream k rand = copied ++ stream k rand'.
Proof.
  intros [H1 H2 [H3 H3'] H4 H5 H6 H7] Hc. unfold randomCopy, BUFFSIZE in *. set (num := if 128 - nextByte rand <? count then 128 - nextByte rand else count).
  assert (num = Z.min count (128 - rand.(nextByte))) as Hnum by (unfold num; destruct (Z.ltb_spec (128 - rand.(nextByte)) count); lia).
  assert (length (take (Z.to_nat num) (drop (Z.to_nat rand.(nextByte)) rand.(buff))) = Z.to_nat num) as Hl
    by (rewrite length_take, length_drop; lia).
  split; [lia|]. split; [by apply Forall_take, Forall_drop|]. split; [split; cbn; try done; unfold BUFFSIZE; lia|]. split; [cbn; lia|]. split; [done|]. split; [done|].
  intros k. unfold stream. cbn [nextByte buff tempSeed nonce]. rewrite app_assoc. f_equal.
  rewrite Z2Nat.inj_add by lia. rewrite <-drop_drop. symmetry. apply take_drop.
Qed.

Lemma stream_stir k rand : rand_ok rand -> rand.(nextByte) = BUFFSIZE -> stream (S k) rand = stream k (stir rand).
Proof.
  intros [H1 H2 [H3 _] H4 H5 H6 H7] Hn. unfold stream. rewrite Hn, drop_ge by (rewrite H3; unfold BUFFSIZE; lia).
  cbn [blocks app stir nextByte buff tempSeed nonce]. rewrite Z.mod_small by done. f_equal. symmetry. apply blocks_mod.
Qed.

(** A small request takes the next bytes of the stream. *)
Lemma small_request rand location count : rand_ok rand -> 0 <= count <= BUFFSIZE ->
  exists out rand' j, Random_bytes rand location count = Some (out, rand') /\ Z.of_nat (length out) = count /\ bytes_ok out /\ rand_ok rand' /\
    (j <= 1)%nat /\ rand'.(tempSeed) = rand.(tempSeed) /\ rand'.(nonce) = (rand.(nonce) + Z.of_nat j) mod 2 ^ 64 /\ forall k, stream (j + k) rand = out ++ stream k rand'.
Proof.
  intros Hr Hc. unfold Random_bytes. rewrite (proj2 (Z.ltb_ge _ _)) by lia. cbn [Random_bytes_loop].
  pose proof (copy_spec rand count Hr ltac:(lia)) as H1. destruct (randomCopy rand count) as [c1 r1]. destruct H1 as (Hl1 & Hb1 & Hr1 & Hn1 & Ht1 & Ho1 & Hs1).
  destruct (Z.eqb_spec (count - Z.of_nat (length c1)) 0) as [E|E].
  { exists c1, r1, 0%nat. split; [done|]. split; [lia|]. split; [done|]. split; [done|]. split; [lia|]. split; [done|].
    split; [rewrite Z.add_0_r, Z.mod_small by (apply Hr); done|exact Hs1]. }
  pose proof (ok_nextByte rand Hr) as Hnb. assert (r1.(nextByte) = BUFFSIZE) as Hfull by (unfold BUFFSIZE in *; lia).
  pose proof (copy_spec (stir r1) (count - Z.of_nat (length c1)) (stir_ok r1 Hr1) ltac:(lia)) as H2.
  destruct (randomCopy (stir r1) (count - Z.of_nat (length c1))) as [c2 r2]. destruct H2 as (Hl2 & Hb2 & Hr2 & Hn2 & Ht2 & Ho2 & Hs2). cbn [nextByte stir] in Hl2. unfold BUFFSIZE in *.
  rewrite (proj2 (Z.eqb_eq _ 0)) by lia. cbn [mbind option_bind]. exists (c1 ++ c2), r2, 1%nat. split; [done|]. split; [rewrite length_app; lia|].
  split; [by apply Forall_app|]. split; [done|]. split; [lia|]. split; [by rewrite Ht2|]. split; [rewrite Ho2, <-Ho1; done|]. intros k. rewrite Hs1, <-app_assoc. f_equal. cbn [Nat.add].
  rewrite stream_stir; [apply Hs2|exact Hr1|exact Hfull].
Qed.

(** Requests, one after the other. *)
Fixpoint requests (rand : Random) (counts : list Z) : option (list (list Z) * Random) :=
  match counts with
  | [] => Some ([], rand)
  | count :: counts =>
      '(out, rand) ← Random_bytes rand [] count; '(outs, rand) ← requests rand counts; Some (out :: outs, rand)
  end.

(** C39: small requests, however they are cut, are answered with the bytes of one
    stream, none twice and none left out: what the buffer still holds, and then one
    block of key stream put over the last one after the other, each with the next
    nonce under the same key; what is left of the stream is left for the next
    request. *)
Theorem Random_bytes_stream rand counts : rand_ok rand -> Forall (fun count => 0 <= count <= BUFFSIZE) counts ->
  exists outs rand' j, requests rand counts = Some (outs, rand') /\ map (fun out => Z.of_nat (length out)) outs = counts /\ rand_ok rand' /\
    (j <= length counts)%nat /\ rand'.(tempSeed) = rand.(tempSeed) /\ rand'.(nonce) = (rand.(nonce) + Z.of_nat j) mod 2 ^ 64 /\
    forall k, stream (j + k) rand = concat outs ++ stream k rand'.
Proof.
  intros Hr Hc. revert rand Hr. induction Hc as [|count counts Hc _ IH]; intros rand Hr; cbn [requests].
  - exists [], rand, 0%nat. split; [done|]. split; [done|]. split; [done|]. split; [cbn; lia|]. split; [done|]. split; [rewrite Z.add_0_r, Z.mod_small by (apply Hr); done|]. done.
  - destruct (small_request rand [] count Hr Hc) as (out & r1 & j1 & -> & Hl & _ & Hr1 & Hj1 & Ht1 & Ho1 & Hs1). cbn [mbind option_bind].
    destruct (IH r1 Hr1) as (outs & r2 & j2 & -> & Hls & Hr2 & Hj2 & Ht2 & Ho2 & Hs2). cbn [mbind option_bind].
    exists (out :: outs), r2, (j1 + j2)%nat. split; [done|]. split; [cbn; by rewrite Hl, Hls|]. split; [done|]. split; [cbn; lia|]. split; [congruence|].
    split; [rewrite Ho2, Ho1, Z.add_mod_idemp_l by lia; f_equal; lia|]. intros k. cbn [concat]. rewrite <-Nat.add_assoc, Hs1, Hs2. by rewrite app_assoc.
Qed.

(** A password of [length - 1] characters. *)
Definition base32_at (from k c : Z) : Prop := exists d, 0 <= d < 32 /\ c = kChar d /\ ((k - from) mod 26 = 25 -> d < 8).

Lemma last_digit input : mem_ok input -> digit32 (value input 16) 25 < 8.
Proof.
  intros Hm. pose proof (value_range input 16 Hm ltac:(lia)) as Hv. rewrite digit32_eq by lia.
  assert (value input 16 / 2 ^ (5 * 25) < 8) by (apply Z.div_lt_upper_bound; lia).
  rewrite Z.mod_small; [done|]. split; [apply Z.div_pos; lia|lia].
Qed.

Lemma base32_round output index length bin : mem_ok (of_list bin) -> 0 <= index < length ->
  let '(out, ret) := Base32_encode (fun x => output (index + x)) (length - index) (of_list bin) 16 in
  ret = (if 26 <=? length - index then 26 else Base32_TOO_BIG) /\
  let n := Z.min 26 (length - index) in
  (forall k, index <= k < index + n -> base32_at index k (out (k - index))) /\
  (forall x, x < index \/ Z.min length (index + 27) <= x -> out (x - index) = output x).
Proof.
  intros Hm Hi. cbv zeta. change (Z.min 26) with (Z.min (encoded_length 16)). destruct (Z.leb_spec 26 (length - index)) as [Hl|Hl].
  - pose proof (base32_encode_spec (fun x => output (index + x)) (length - index) (of_list bin) 16 Hm ltac:(lia) ltac:(exact Hl)) as H.
    destruct (Base32_encode _ _ _ _) as [out ret]. change (encoded_length 16) with 26 in *. destruct H as (-> & H1 & H2 & H3).
    split; [done|]. split.
    + intros k Hk. exists (digit32 (value (of_list bin) 16) (k - index)). split; [rewrite digit32_eq by lia; apply Z.mod_pos_bound; lia|].
      split; [apply H1; lia|]. rewrite Z.mod_small by lia. intros ->. by apply last_digit.
    + intros x Hx. destruct (decide (x = index + 26)) as [->|].
      * replace (index + 26 - index) with 26 by lia. rewrite H3, (proj2 (Z.ltb_ge _ _)) by lia. done.
      * rewrite H2 by lia. f_equal. lia.
  - pose proof (base32_encode_full (fun x => output (index + x)) (length - index) (of_list bin) 16 ltac:(lia) ltac:(change (encoded_length 16) with 26; lia)) as [H1 [H2 H3]].
    destruct (Base32_encode _ _ _ _) as [out ret]. cbn [fst snd] in *. change (encoded_length 16) with 26 in *. split; [done|]. split.
    + intros k Hk. destruct (H2 (k - index) ltac:(lia)) as (d & Hd & E). exists d. split; [done|]. split; [done|]. rewrite Z.mod_small by lia. lia.
    + intros x Hx. rewrite H3 by lia. f_equal. lia.
Qed.

Lemma base32_loop fuel rand output index length : rand_ok rand -> 0 <= index < length -> length - index <= 26 * Z.of_nat fuel -> index mod 26 = 0 ->
  exists out rand', Random_base32_loop fuel rand output index length = Some (out, rand') /\ rand_ok rand' /\
    (forall k, index <= k < length -> base32_at 0 k (out k)) /\ forall x, x < index \/ length <= x -> out x = output x.
Proof.
  revert rand output index. induction fuel as [|fuel IH]; intros rand output index Hr Hi Hf Hd; [lia|]. cbn [Random_base32_loop].
  destruct (small_request rand [] 16 Hr ltac:(unfold BUFFSIZE; lia)) as (bin & r1 & _ & -> & _ & Hb & Hr1 & _). cbn [mbind option_bind].
  pose proof (base32_round output index length bin (of_list_ok bin Hb) Hi) as H.
  destruct (Base32_encode _ _ _ _) as [out ret]. destruct H as (-> & H1 & H2).
  assert (forall k c, base32_at index k c -> base32_at 0 k c) as Hshift.
  { intros k c (d & ? & ? & Hd8). exists d. split; [done|]. split; [done|]. intros E. apply Hd8. rewrite Z.sub_0_r in E. rewrite Zminus_mod, Hd, E. done. }
  destruct (Z.leb_spec 26 (length - index)) as [Hl|Hl]; cbn [orb].
  - cbn [Z.eqb Base32_TOO_BIG orb]. destruct (Z.eqb_spec (index + 26) length) as [E|E].
    + eexists _, r1. split; [done|]. split; [done|]. split; [intros k Hk; apply Hshift, H1; lia|intros x Hx; apply H2; lia].
    + destruct (IH r1 (fun x => out (x - index)) (index + 26) Hr1 ltac:(lia) ltac:(lia)) as (out' & r2 & E2 & Hr2 & Hc & Hs).
      { rewrite Zplus_mod, Hd. done. }
      exists out', r2. split; [exact E2|]. split; [done|]. split.
      * intros k Hk. destruct (Z.lt_ge_cases k (index + 26)); [|apply Hc; lia]. rewrite Hs by lia. apply Hshift, H1. lia.
      * intros x Hx. rewrite Hs by lia. apply H2. lia.
  - eexists _, r1. split; [done|]. split; [done|]. split; [intros k Hk; apply Hshift, H1; lia|intros x Hx; apply H2; lia].
Qed.

(** C40: a password of the given length is written and ended with a zero, and
    nothing else is touched: the loop ends, after one round for every 26
    characters, and every character is one of the 32; the last of every 26 is one of
    the first eight only, since a round has 128 bits and not 130. *)
Theorem Random_base32_password rand output length : rand_ok rand -> 0 < length < 2 ^ 32 ->
  exists out rand', Random_base32 (Z.to_nat (length / 26 + 1)) rand output length = Some (out, rand') /\ rand_ok rand' /\
    (forall k, 0 <= k < length - 1 -> exists d, 0 <= d < 32 /\ out k = kChar d /\ (k mod 26 = 25 -> d < 8)) /\
    out (length - 1) = 0 /\ forall x, x < 0 \/ length <= x -> out x = output x.
Proof.
  intros Hr Hl. pose proof (Z.div_mod length 26 ltac:(lia)) as Hd. pose proof (Z.mod_pos_bound length 26 ltac:(lia)) as Hm.
  destruct (base32_loop (Z.to_nat (length / 26 + 1)) rand output 0 length Hr ltac:(lia) ltac:(lia) eq_refl) as (out & r' & E & Hr' & Hc & Hs).
  unfold Random_base32. rewrite E. cbn [mbind option_bind]. exists (set out (length - 1) 0), r'. split; [done|]. split; [done|]. split.
  - intros k Hk. rewrite set_ne by lia. destruct (Hc k ltac:(lia)) as (d & H1 & H2 & H3). rewrite Z.sub_0_r in H3. eauto.
  - split; [apply set_eq|]. intros x Hx. rewrite set_ne by lia. by apply Hs.
Qed.

(** ** The generator as it is made, and as the source of random bytes of its users *)
Lemma newWithSeed_ok seedGen : List.length seedGen = 64%nat -> bytes_ok seedGen -> rand_ok (Random_newWithSeed seedGen).
Proof.
  intros Hl Hb. apply stir_ok, addRandom_ok; [|lia].
  split; cbn [tempSeed nonce buff nextByte addRandomCounter seed collectedEntropy]; unfold BUFFSIZE; try lia; try (split; [done|apply zeros_ok]).
  - split; [rewrite length_take; lia|by apply Forall_take].
  - split; [done|]. apply List.Forall_forall. intros x (i & <- & _)%in_map_iff. apply (load_range 4 (of_list seedGen)). by apply of_list_ok.
Qed.

Definition next_bytes (r : { rand | rand_ok rand }) (n : Z) : option (list Z * Random) := Random_bytes (`r) (repeat 0 (Z.to_nat n)) (Z.max 0 n).

Lemma next_bytes_ok r n : match next_bytes r n with
  | Some (out, rand) => Z.of_nat (List.length out) = Z.max 0 n /\ bytes_ok out /\ rand_ok rand | None => False end.
Proof.
  unfold next_bytes. destruct (Z.ltb_spec BUFFSIZE (Z.max 0 n)) as [Hn|Hn].
  - unfold Random_bytes. rewrite (proj2 (Z.ltb_lt _ _)) by done. split; [rewrite stream_length, repeat_length; lia|].
    split; [apply stream_ok, zeros_ok|]. destruct (proj2_sig r) as [H1 H2 H3 H4 H5 H6 H7]. split; try done. apply u64_range.
  - destruct (small_request (`r) (repeat 0 (Z.to_nat n)) (Z.max 0 n) (proj2_sig r) ltac:(lia)) as (out & r' & _ & -> & Hl & Hb & Hr & _). done.
Qed.

(** Every client of [RandomSource] is served by the generator. *)
#[local] Instance generator : RandomSource := {|
  Rand := { rand | rand_ok rand };
  NaCl.Random_bytes r n :=
    match next_bytes r n as o return (match o with Some (out, rand) => Z.of_nat (List.length out) = Z.max 0 n /\ bytes_ok out /\ rand_ok rand | None => False end -> _) with
    | Some (out, rand) => fun H => (out, exist _ rand (proj2 (proj2 H)))
    | None => fun H => False_rect _ H
    end (next_bytes_ok r n)
|}.

#[local] Instance generator_laws : RandomLaws generator.
Proof.
  split; intros r n; cbn; generalize (next_bytes_ok r n); destruct (next_bytes r n) as [[out rand]|]; cbn; intros H; try done; [intros Hn|]; [lia|apply H].
Qed.
End stream.

#[local] Existing Instance x86.
Definition demo_generator : Random := Random_newWithSeed (map Z.of_nat (seq 0 64)).

Lemma demo_generator_ok : rand_ok demo_generator.
Proof. apply newWithSeed_ok; [done|]. by apply bytes_ok_check. Qed.

Lemma Random_bytes_stream_witness : exists outs rand' j, requests demo_generator [100; 0; 60; 128] = Some (outs, rand') /\
  map (fun out => Z.of_nat (List.length out)) outs = [100; 0; 60; 128] /\ rand_ok rand' /\ (j <= 4)%nat /\
  rand'.(tempSeed) = demo_generator.(tempSeed) /\ rand'.(nonce) = (demo_generator.(nonce) + Z.of_nat j) mod 2 ^ 64 /\
  forall k, stream (j + k) demo_generator = concat outs ++ stream k rand'.
Proof.
  apply (Random_bytes_stream demo_generator [100; 0; 60; 128]); [exact demo_generator_ok|].
  repeat (apply List.Forall_cons; [unfold BUFFSIZE; lia|]). apply List.Forall_nil.
Defined.

Lemma Random_base32_password_witness : exists out rand', Random_base32 2 demo_generator (fun _ => 7) 32 = Some (out, rand') /\ rand_ok rand' /\
  (forall k, 0 <= k < 31 -> exists d, 0 <= d < 32 /\ out k = kChar d /\ (k mod 26 = 25 -> d < 8)) /\
  out 31 = 0 /\ forall x, x < 0 \/ 32 <= x -> out x = 7.
Proof. apply (Random_base32_password demo_generator (fun _ => 7) 32); [exact demo_generator_ok|lia]. Defined.
