(* ===== verification/CryptoAuth.v ===== *)
(** * CryptoAuth sessions (crypto/CryptoAuth.c, crypto/CryptoAuth_pvt.h)

    A wrapper turns an interface into an encrypted and authenticated one. Its
    state machine is driven by [nextNonce]: 0 before anything is sent, 1 after a
    hello, 2 after receiving one, 3 after sending a key, 4 after receiving one,
    and above that the counter of the data packets. A handler takes the wrapper
    and the source of randomness and returns them with what it gave to its
    neighbours: messages sent through the wrapped interface and messages
    delivered to the user of the external one, in order. [None] is an aborted
    program (a failed assertion). The calls to neighbours are the last thing a
    handler does with the wrapper, except where noted, so a neighbour that calls
    back sees the state the handler returns.

    Key logging (Log_KEYS) and the assertions compiled in with Log_DEBUG only
    are left out. *)
From S2P Require Import Prelude Memory Endian Bits Headers Message ReplayProtector NaCl.

(** ** State *)
Record Wrapper := {
  herPerminentPubKey : list Z;
  user : Z;
  secret : list Z;
  tempKey : list Z;
  bufferedMessage : option Message;
  password : option (list Z);
  replayProtector : ReplayProtector;
  nextNonce : Z;
  timeOfLastPacket : Z;
  authType : Z;
  isInitiator : bool;
  authenticatePackets : bool;
  requireAuth : bool;
  hasBufferedMessage : bool;
  requiredPadding : Z;
  maxMessageLength : Z;
  wrappedRequiredPadding : Z;
  wrappedMaxMessageLength : Z
}.

Definition set_herPerminentPubKey (w : Wrapper) (v : list Z) : Wrapper :=
  {| herPerminentPubKey := v; user := w.(user); secret := w.(secret); tempKey := w.(tempKey);
     bufferedMessage := w.(bufferedMessage); password := w.(password);
     replayProtector := w.(replayProtector); nextNonce := w.(nextNonce);
     timeOfLastPacket := w.(timeOfLastPacket); authType := w.(authType); isInitiator := w.(isInitiator);
     authenticatePackets := w.(authenticatePackets); requireAuth := w.(requireAuth);
     hasBufferedMessage := w.(hasBufferedMessage); requiredPadding := w.(requiredPadding);
     maxMessageLength := w.(maxMessageLength); wrappedRequiredPadding := w.(wrappedRequiredPadding);
     wrappedMaxMessageLength := w.(wrappedMaxMessageLength) |}.
Definition set_user (w : Wrapper) (v : Z) : Wrapper :=
  {| herPerminentPubKey := w.(herPerminentPubKey); user := v; secret := w.(secret);
     tempKey := w.(tempKey); bufferedMessage := w.(bufferedMessage); password := w.(password);
     replayProtector := w.(replayProtector); nextNonce := w.(nextNonce);
     timeOfLastPacket := w.(timeOfLastPacket); authType := w.(authType); isInitiator := w.(isInitiator);
     authenticatePackets := w.(authenticatePackets); requireAuth := w.(requireAuth);
     hasBufferedMessage := w.(hasBufferedMessage); requiredPadding := w.(requiredPadding);
     maxMessageLength := w.(maxMessageLength); wrappedRequiredPadding := w.(wrappedRequiredPadding);
     wrappedMaxMessageLength := w.(wrappedMaxMessageLength) |}.
Definition set_secret (w : Wrapper) (v : list Z) : Wrapper :=
  {| herPerminentPubKey := w.(herPerminentPubKey); user := w.(user); secret := v; tempKey := w.(tempKey);
     bufferedMessage := w.(bufferedMessage); password := w.(password);
     replayProtector := w.(replayProtector); nextNonce := w.(nextNonce);
     timeOfLastPacket := w.(timeOfLastPacket); authType := w.(authType); isInitiator := w.(isInitiator);
     authenticatePackets := w.(authenticatePackets); requireAuth := w.(requireAuth);
     hasBufferedMessage := w.(hasBufferedMessage); requiredPadding := w.(requiredPadding);
     maxMessageLength := w.(maxMessageLength); wrappedRequiredPadding := w.(wrappedRequiredPadding);
     wrappedMaxMessageLength := w.(wrappedMaxMessageLength) |}.
Definition set_tempKey (w : Wrapper) (v : list Z) : Wrapper :=
  {| herPerminentPubKey := w.(herPerminentPubKey); user := w.(user); secret := w.(secret); tempKey := v;
     bufferedMessage := w.(bufferedMessage); password := w.(password);
     replayProtector := w.(replayProtector); nextNonce := w.(nextNonce);
     timeOfLastPacket := w.(timeOfLastPacket); authType := w.(authType); isInitiator := w.(isInitiator);
     authenticatePackets := w.(authenticatePackets); requireAuth := w.(requireAuth);
     hasBufferedMessage := w.(hasBufferedMessage); requiredPadding := w.(requiredPadding);
     maxMessageLength := w.(maxMessageLength); wrappedRequiredPadding := w.(wrappedRequiredPadding);
     wrappedMaxMessageLength := w.(wrappedMaxMessageLength) |}.
Definition set_bufferedMessage (w : Wrapper) (v : option Message) : Wrapper :=
  {| herPerminentPubKey := w.(herPerminentPubKey); user := w.(user); secret := w.(secret);
     tempKey := w.(tempKey); bufferedMessage := v; password := w.(password);
     replayProtector := w.(replayProtector); nextNonce := w.(nextNonce);
     timeOfLastPacket := w.(timeOfLastPacket); authType := w.(authType); isInitiator := w.(isInitiator);
     authenticatePackets := w.(authenticatePackets); requireAuth := w.(requireAuth);
     hasBufferedMessage := w.(hasBufferedMessage); requiredPadding := w.(requiredPadding);
     maxMessageLength := w.(maxMessageLength); wrappedRequiredPadding := w.(wrappedRequiredPadding);
     wrappedMaxMessageLength := w.(wrappedMaxMessageLength) |}.
Definition set_password (w : Wrapper) (v : option (list Z)) : Wrapper :=
  {| herPerminentPubKey := w.(herPerminentPubKey); user := w.(user); secret := w.(secret);
     tempKey := w.(tempKey); bufferedMessage := w.(bufferedMessage); password := v;
     replayProtector := w.(replayProtector); nextNonce := w.(nextNonce);
     timeOfLastPacket := w.(timeOfLastPacket); authType := w.(authType); isInitiator := w.(isInitiator);
     authenticatePackets := w.(authenticatePackets); requireAuth := w.(requireAuth);
     hasBufferedMessage := w.(hasBufferedMessage); requiredPadding := w.(requiredPadding);
     maxMessageLength := w.(maxMessageLength); wrappedRequiredPadding := w.(wrappedRequiredPadding);
     wrappedMaxMessageLength := w.(wrappedMaxMessageLength) |}.
Definition set_replayProtector (w : Wrapper) (v : ReplayProtector) : Wrapper :=
  {| herPerminentPubKey := w.(herPerminentPubKey); user := w.(user); secret := w.(secret);
     tempKey := w.(tempKey); bufferedMessage := w.(bufferedMessage); password := w.(password);
     replayProtector := v; nextNonce := w.(nextNonce); timeOfLastPacket := w.(timeOfLastPacket);
     authType := w.(authType); isInitiator := w.(isInitiator);
     authenticatePackets := w.(authenticatePackets); requireAuth := w.(requireAuth);
     hasBufferedMessage := w.(hasBufferedMessage); requiredPadding := w.(requiredPadding);
     maxMessageLength := w.(maxMessageLength); wrappedRequiredPadding := w.(wrappedRequiredPadding);
     wrappedMaxMessageLength := w.(wrappedMaxMessageLength) |}.
Definition set_nextNonce (w : Wrapper) (v : Z) : Wrapper :=
  {| herPerminentPubKey := w.(herPerminentPubKey); user := w.(user); secret := w.(secret);
     tempKey := w.(tempKey); bufferedMessage := w.(bufferedMessage); password := w.(password);
     replayProtector := w.(replayProtector); nextNonce := v; timeOfLastPacket := w.(timeOfLastPacket);
     authType := w.(authType); isInitiator := w.(isInitiator);
     authenticatePackets := w.(authenticatePackets); requireAuth := w.(requireAuth);
     hasBufferedMessage := w.(hasBufferedMessage); requiredPadding := w.(requiredPadding);
     maxMessageLength := w.(maxMessageLength); wrappedRequiredPadding := w.(wrappedRequiredPadding);
     wrappedMaxMessageLength := w.(wrappedMaxMessageLength) |}.
Definition set_timeOfLastPacket (w : Wrapper) (v : Z) : Wrapper :=
  {| herPerminentPubKey := w.(herPerminentPubKey); user := w.(user); secret := w.(secret);
     tempKey := w.(tempKey); bufferedMessage := w.(bufferedMessage); password := w.(password);
     replayProtector := w.(replayProtector); nextNonce := w.(nextNonce); timeOfLastPacket := v;
     authType := w.(authType); isInitiator := w.(isInitiator);
     authenticatePackets := w.(authenticatePackets); requireAuth := w.(requireAuth);
     hasBufferedMessage := w.(hasBufferedMessage); requiredPadding := w.(requiredPadding);
     maxMessageLength := w.(maxMessageLength); wrappedRequiredPadding := w.(wrappedRequiredPadding);
     wrappedMaxMessageLength := w.(wrappedMaxMessageLength) |}.
Definition set_authType (w : Wrapper) (v : Z) : Wrapper :=
  {| herPerminentPubKey := w.(herPerminentPubKey); user := w.(user); secret := w.(secret);
     tempKey := w.(tempKey); bufferedMessage := w.(bufferedMessage); password := w.(password);
     replayProtector := w.(replayProtector); nextNonce := w.(nextNonce);
     timeOfLastPacket := w.(timeOfLastPacket); authType := v; isInitiator := w.(isInitiator);
     authenticatePackets := w.(authenticatePackets); requireAuth := w.(requireAuth);
     hasBufferedMessage := w.(hasBufferedMessage); requiredPadding := w.(requiredPadding);
     maxMessageLength := w.(maxMessageLength); wrappedRequiredPadding := w.(wrappedRequiredPadding);
     wrappedMaxMessageLength := w.(wrappedMaxMessageLength) |}.
Definition set_isInitiator (w : Wrapper) (v : bool) : Wrapper :=
  {| herPerminentPubKey := w.(herPerminentPubKey); user := w.(user); secret := w.(secret);
     tempKey := w.(tempKey); bufferedMessage := w.(bufferedMessage); password := w.(password);
     replayProtector := w.(replayProtector); nextNonce := w.(nextNonce);
     timeOfLastPacket := w.(timeOfLastPacket); authType := w.(authType); isInitiator := v;
     authenticatePackets := w.(authenticatePackets); requireAuth := w.(requireAuth);
     hasBufferedMessage := w.(hasBufferedMessage); requiredPadding := w.(requiredPadding);
     maxMessageLength := w.(maxMessageLength); wrappedRequiredPadding := w.(wrappedRequiredPadding);
     wrappedMaxMessageLength := w.(wrappedMaxMessageLength) |}.
Definition set_authenticatePackets (w : Wrapper) (v : bool) : Wrapper :=
  {| herPerminentPubKey := w.(herPerminentPubKey); user := w.(user); secret := w.(secret);
     tempKey := w.(tempKey); bufferedMessage := w.(bufferedMessage); password := w.(password);
     replayProtector := w.(replayProtector); nextNonce := w.(nextNonce);
     timeOfLastPacket := w.(timeOfLastPacket); authType := w.(authType); isInitiator := w.(isInitiator);
     authenticatePackets := v; requireAuth := w.(requireAuth);
     hasBufferedMessage := w.(hasBufferedMessage); requiredPadding := w.(requiredPadding);
     maxMessageLength := w.(maxMessageLength); wrappedRequiredPadding := w.(wrappedRequiredPadding);
     wrappedMaxMessageLength := w.(wrappedMaxMessageLength) |}.
Definition set_hasBufferedMessage (w : Wrapper) (v : bool) : Wrapper :=
  {| herPerminentPubKey := w.(herPerminentPubKey); user := w.(user); secret := w.(secret);
     tempKey := w.(tempKey); bufferedMessage := w.(bufferedMessage); password := w.(password);
     replayProtector := w.(replayProtector); nextNonce := w.(nextNonce);
     timeOfLastPacket := w.(timeOfLastPacket); authType := w.(authType); isInitiator := w.(isInitiator);
     authenticatePackets := w.(authenticatePackets); requireAuth := w.(requireAuth);
     hasBufferedMessage := v; requiredPadding := w.(requiredPadding);
     maxMessageLength := w.(maxMessageLength); wrappedRequiredPadding := w.(wrappedRequiredPadding);
     wrappedMaxMessageLength := w.(wrappedMaxMessageLength) |}.
Definition set_requiredPadding (w : Wrapper) (v : Z) : Wrapper :=
  {| herPerminentPubKey := w.(herPerminentPubKey); user := w.(user); secret := w.(secret);
     tempKey := w.(tempKey); bufferedMessage := w.(bufferedMessage); password := w.(password);
     replayProtector := w.(replayProtector); nextNonce := w.(nextNonce);
     timeOfLastPacket := w.(timeOfLastPacket); authType := w.(authType); isInitiator := w.(isInitiator);
     authenticatePackets := w.(authenticatePackets); requireAuth := w.(requireAuth);
     hasBufferedMessage := w.(hasBufferedMessage); requiredPadding := v;
     maxMessageLength := w.(maxMessageLength); wrappedRequiredPadding := w.(wrappedRequiredPadding);
     wrappedMaxMessageLength := w.(wrappedMaxMessageLength) |}.
Definition set_maxMessageLength (w : Wrapper) (v : Z) : Wrapper :=
  {| herPerminentPubKey := w.(herPerminentPubKey); user := w.(user); secret := w.(secret);
     tempKey := w.(tempKey); bufferedMessage := w.(bufferedMessage); password := w.(password);
     replayProtector := w.(replayProtector); nextNonce := w.(nextNonce);
     timeOfLastPacket := w.(timeOfLastPacket); authType := w.(authType); isInitiator := w.(isInitiator);
     authenticatePackets := w.(authenticatePackets); requireAuth := w.(requireAuth);
     hasBufferedMessage := w.(hasBufferedMessage); requiredPadding := w.(requiredPadding);
     maxMessageLength := v; wrappedRequiredPadding := w.(wrappedRequiredPadding);
     wrappedMaxMessageLength := w.(wrappedMaxMessageLength) |}.

(** [struct CryptoAuth_Auth]; [user] is a pointer, 0 is NULL. *)
Record Auth := { challenge : list Z; auth_secret : list Z; auth_user : Z }.

(** [struct CryptoAuth_pvt]; the table of passwords is memory, of which the
    first [passwordCount] entries count. *)
Record Context := {
  publicKey : list Z;
  privateKey : list Z;
  passwords : Z -> Auth;
  passwordCount : Z;
  passwordCapacity : Z;
  resetAfterInactivitySeconds : Z
}.

Definition set_passwords (c : Context) (table : Z -> Auth) (count : Z) : Context :=
  {| publicKey := c.(publicKey); privateKey := c.(privateKey); passwords := table; passwordCount := count;
     passwordCapacity := c.(passwordCapacity); resetAfterInactivitySeconds := c.(resetAfterInactivitySeconds) |}.

Definition zero_auth : Auth := {| challenge := repeat 0 12; auth_secret := repeat 0 32; auth_user := 0 |}.

(** What a handler gave to its neighbours, and what it returns: an error code
    of its own or the result of its last call. A buffered message lies in memory
    of its own; the message that was received when it is sent comes with it. *)
Inductive event :=
  | SendWrapped (m : Message)
  | SendBuffered (m received : Message)
  | Deliver (m : Message).
Inductive ret :=
  | Code (code : Z)
  | FromCallee.

Definition from_buffer (received : Message) (e : event) : event :=
  match e with SendWrapped m => SendBuffered m received | _ => e end.

Definition CryptoAuth_NEW : Z := 0.
Definition CryptoAuth_HANDSHAKE1 : Z := 1.
Definition CryptoAuth_HANDSHAKE2 : Z := 2.
Definition CryptoAuth_HANDSHAKE3 : Z := 3.
Definition CryptoAuth_ESTABLISHED : Z := 4.
Definition CryptoAuth_DEFAULT_RESET_AFTER_INACTIVITY_SECONDS : Z := 60.
Definition CryptoAuth_addUser_INVALID_AUTHTYPE : Z := -1.
Definition CryptoAuth_addUser_OUT_OF_SPACE : Z := -2.
Definition CryptoAuth_addUser_DUPLICATE : Z := -3.

Section cryptoauth.
  Context {P : Platform} {N : NaCl} {R : RandomSource}.

(** ** Secrets and passwords *)
Definition getSharedSecret (myPrivateKey herPublicKey : list Z) (passwordHash : option (list Z)) : list Z :=
  match passwordHash with
  | None => crypto_box_beforenm herPublicKey myPrivateKey
  | Some passwordHash =>
      let key := crypto_scalarmult_curve25519 myPrivateKey herPublicKey in
      crypto_hash_sha256 (key ++ passwordHash)
  end.

(** The challenge is a union of 12 bytes; it is filled in memory. *)
Definition hashPassword_sha256 (password : list Z) : Auth :=
  let secret := crypto_hash_sha256 password in
  let tempBuff := crypto_hash_sha256 secret in
  let m := write scratch 0 (take 12 tempBuff) in
  let m := Headers_setAuthChallengeDerivations m 0 0 in
  let m := set m AuthChallenge_type 1 in
  {| challenge := read m 0 Headers_AuthChallenge_SIZE; auth_secret := secret; auth_user := 0 |}.

Definition hashPassword (password : list Z) (authType : Z) : option Auth :=
  if authType =? 1 then Some (hashPassword_sha256 password) else None.

(** The index of the first password that matches the auth header at [auth]. *)
Definition getAuth (m : mem) (auth : Z) (context : Context) : option Auth :=
  if negb (m (auth + AuthChallenge_type) =? 1) then None
  else
    match for_until (Z.to_nat context.(passwordCount)) 0 (fun i _ =>
            let a := context.(passwords) i in
            if Bits_memcmp (read m auth Headers_AuthChallenge_KEYSIZE)
                 (take (Z.to_nat Headers_AuthChallenge_KEYSIZE) a.(challenge)) =? 0
            then inr a else inl tt) tt with
    | inr a => Some a
    | inl _ => None
    end.

(** The count goes through a byte ([uint8_t asShort]); the union's other byte
    is zero. *)
Definition getPasswordHash_typeOne (derivations : Z) (auth : Auth) : list Z :=
  let output := auth.(auth_secret) in
  if negb (derivations =? 0) then
    let asShort := u8 derivations in
    let output := <[0%nat := nth 0 output 0 .^ asShort]> output in
    let output := <[1%nat := nth 1 output 0 .^ 0]> output in
    crypto_hash_sha256 output
  else output.

(** The password hash, the user (0 is NULL) and the wrapper. *)
Definition tryAuth (m : mem) (cauth : Z) (context : Context) (wrapper : Wrapper)
    : option (list Z) * Z * Wrapper :=
  match getAuth m (cauth + CryptoAuth_auth) context with
  | Some auth =>
      let deriv := Headers_getAuthChallengeDerivations m (cauth + CryptoAuth_auth) in
      let hashOutput := getPasswordHash_typeOne deriv auth in
      (Some hashOutput, (if deriv =? 0 then auth.(auth_user) else 0), wrapper)
  | None =>
      (None, 0, set_authenticatePackets wrapper
         (wrapper.(authenticatePackets) || Headers_isPacketAuthRequired m (cauth + CryptoAuth_auth)))
  end.

(** ** Encryption in place *)

(** [(false, msg)] is the return value -1. *)
Definition decryptRndNonce (nonce : list Z) (msg : Message) (secret : list Z) : option (bool * Message) :=
  if length msg <? 16 then Some (false, msg)
  else if padding msg <? 16 then None
  else
    let startAt := bytes msg - 16 in
    let paddingSpace := read (buffer msg) startAt 16 in
    let m := Bits_memset (buffer msg) startAt 0 16 in
    match crypto_box_open_afternm (read m startAt (length msg + 16)) nonce secret with
    | None => Some (false, with_buffer msg m)
    | Some plain =>
        let m := write m startAt plain in
        let m := write m startAt paddingSpace in
        msg ← Message_shift (with_buffer msg m) (-16);
        Some (true, msg)
    end.

Definition encryptRndNonce (nonce : list Z) (msg : Message) (secret : list Z) : option Message :=
  if padding msg <? 32 then None
  else
    let startAt := bytes msg - 32 in
    let paddingSpace := read (buffer msg) startAt 16 in
    let m := Bits_memset (buffer msg) startAt 0 32 in
    let m := write m startAt (crypto_box_afternm (read m startAt (length msg + 32)) nonce secret) in
    let m := write m startAt paddingSpace in
    Message_shift (with_buffer msg m) 16.

Definition cipher (nonce : list Z) (msg : Message) (secret : list Z) : Message :=
  with_buffer msg (write (buffer msg) (bytes msg)
    (crypto_stream_salsa20_xor (read (buffer msg) (bytes msg) (length msg)) nonce secret)).

(** The union [{ ints[2]; bytes[24] }] with [nonce] stored in one of the words. *)
Definition nonceAs (index : bool) (nonce : Z) : list Z :=
  read (write scratch (if index then 4 else 0) (store 4 (Endian_hostToLittleEndian32 nonce))) 0 24.

Definition decrypt (nonce : Z) (msg : Message) (secret : list Z) (isInitiator authenticate : bool)
    : option (bool * Message) :=
  let nonceAs := nonceAs (negb isInitiator) nonce in
  if authenticate then decryptRndNonce nonceAs msg secret
  else Some (true, cipher (take 8 nonceAs) msg secret).

Definition encrypt (nonce : Z) (msg : Message) (secret : list Z) (isInitiator authenticate : bool)
    : option Message :=
  let nonceAs := nonceAs isInitiator nonce in
  if authenticate then encryptRndNonce nonceAs msg secret
  else Some (cipher (take 8 nonceAs) msg secret).

Definition setRequiredPadding (wrapper : Wrapper) : Wrapper :=
  let padding := if wrapper.(nextNonce) <? 4 then 36 else Headers_CryptoAuth_SIZE + 32 in
  let wrapper := set_requiredPadding wrapper (u16 (wrapper.(wrappedRequiredPadding) + padding)) in
  set_maxMessageLength wrapper (u16 (wrapper.(wrappedMaxMessageLength) - padding)).

Definition knowHerKey (wrapper : Wrapper) : bool :=
  negb (Bits_isZero (of_list wrapper.(herPerminentPubKey)) 0 32).

(** ** The session *)
Definition CryptoAuth_reset (wrapper : Wrapper) : Wrapper :=
  let wrapper := set_nextNonce wrapper 0 in
  let wrapper := set_isInitiator wrapper false in
  set_replayProtector wrapper ReplayProtector_new.

(** [now] is the clock in seconds. *)
Definition CryptoAuth_getState (context : Context) (now : Z) (wrapper : Wrapper) : Wrapper * Z :=
  let wrapper :=
    if context.(resetAfterInactivitySeconds) <? u64 (now - wrapper.(timeOfLastPacket))
    then CryptoAuth_reset (set_timeOfLastPacket wrapper (u32 now)) else wrapper in
  (wrapper,
   if wrapper.(nextNonce) =? 0 then CryptoAuth_NEW
   else if wrapper.(nextNonce) =? 1 then CryptoAuth_HANDSHAKE1
   else if (wrapper.(nextNonce) =? 2) || (wrapper.(nextNonce) =? 3) then CryptoAuth_HANDSHAKE2
   else if wrapper.(nextNonce) =? 4 then CryptoAuth_HANDSHAKE3
   else CryptoAuth_ESTABLISHED).

(** The buffered message is a copy of its own, at an address the allocator
    chooses; only its content and padding are observable. *)
Definition genReverseHandshake (message : Message) (wrapper : Wrapper) (rand : Rand)
    : option (Wrapper * Rand * list event * ret) :=
  let wrapper := set_nextNonce wrapper 0 in
  message ← Message_shift message (- Headers_CryptoAuth_SIZE);
  let wrapper := set_bufferedMessage wrapper
    (Some match wrapper.(bufferedMessage) with
          | None => Message_clone message 0 scratch
          | Some output => Message_copyOver output message (0, scratch)
          end) in
  let wrapper := set_hasBufferedMessage wrapper true in
  message ← Message_shift message Headers_CryptoAuth_SIZE;
  let header := bytes message in
  let m := write (buffer message) (header + CryptoAuth_handshakeStage) (store 4 UINT32_MAX) in
  let message := with_length message Headers_CryptoAuth_SIZE in
  let '(garbage, rand) := Random_bytes rand 48 in
  let m := write m (header + CryptoAuth_authenticator) garbage in
  Some (wrapper, rand, [SendWrapped (with_buffer message m)], FromCallee).

(** The header's address stays the same while the message is shifted. *)
Definition encryptHandshake (context : Context) (message : Message) (wrapper : Wrapper) (rand : Rand)
    : option (Wrapper * Rand * list event * ret) :=
  message ← Message_shift message Headers_CryptoAuth_SIZE;
  let header := bytes message in
  let '(garbage, rand) := Random_bytes rand (Headers_AuthChallenge_SIZE + 24) in
  let m := write (buffer message) (header + CryptoAuth_auth) garbage in
  let m := write m (header + CryptoAuth_publicKey) context.(publicKey) in
  if negb (knowHerKey wrapper) then genReverseHandshake (with_buffer message m) wrapper rand
  else
    '(passwordHash, m) ←
      match wrapper.(password) with
      | None => Some (None, m)
      | Some password =>
          auth ← hashPassword password wrapper.(authType);
          Some (Some auth.(auth_secret), write m (header + CryptoAuth_auth) auth.(challenge))
      end;
    let m := set m (header + CryptoAuth_auth + AuthChallenge_type) wrapper.(authType) in
    let m := Headers_setPacketAuthRequired m (header + CryptoAuth_auth) wrapper.(authenticatePackets) in
    let m := write m (header + CryptoAuth_handshakeStage)
               (store 4 (Endian_hostToBigEndian32 wrapper.(nextNonce))) in
    let '(wrapper, rand, m) :=
      if (wrapper.(nextNonce) =? 0) || (wrapper.(nextNonce) =? 2) then
        let '(temp, rand) := Random_bytes rand 32 in
        let wrapper := set_secret wrapper temp in
        let pub := crypto_scalarmult_curve25519_base wrapper.(secret) in
        let m := write m (header + CryptoAuth_encryptedTempKey) pub in
        let wrapper := if wrapper.(nextNonce) =? 0 then set_tempKey wrapper pub else wrapper in
        (wrapper, rand, m)
      else if wrapper.(nextNonce) =? 3 then
        (wrapper, rand,
         write m (header + CryptoAuth_encryptedTempKey) (crypto_scalarmult_curve25519_base wrapper.(secret)))
      else (wrapper, rand, write m (header + CryptoAuth_encryptedTempKey) wrapper.(tempKey)) in
    let '(sharedSecret, wrapper) :=
      if wrapper.(nextNonce) <? 2 then
        (getSharedSecret context.(privateKey) wrapper.(herPerminentPubKey) passwordHash,
         set_nextNonce (set_isInitiator wrapper true) 1)
      else
        (getSharedSecret context.(privateKey) wrapper.(tempKey) passwordHash,
         set_nextNonce wrapper 3) in
    message ← Message_shift (with_buffer message m) (32 - Headers_CryptoAuth_SIZE);
    message ← encryptRndNonce (read m (header + CryptoAuth_nonce) 24) message sharedSecret;
    message ← Message_shift message (Headers_CryptoAuth_SIZE - 32 - 16);
    Some (wrapper, rand, [SendWrapped message], FromCallee).

Definition encryptMessage (message : Message) (wrapper : Wrapper) (rand : Rand)
    : option (Wrapper * Rand * list event * ret) :=
  if padding message <? 36 then None
  else
    message ← encrypt wrapper.(nextNonce) message wrapper.(secret) wrapper.(isInitiator) wrapper.(authenticatePackets);
    message ← Message_shift message 4;
    let m := write (buffer message) (bytes message + CryptoAuth_handshakeStage)
               (store 4 (Endian_hostToBigEndian32 wrapper.(nextNonce))) in
    let wrapper := set_nextNonce wrapper (u32 (wrapper.(nextNonce) + 1)) in
    Some (wrapper, rand, [SendWrapped (with_buffer message m)], FromCallee).

Definition sendMessage (context : Context) (now : Z) (message : Message) (wrapper : Wrapper) (rand : Rand)
    : option (Wrapper * Rand * list event * ret) :=
  let '(wrapper, _) := CryptoAuth_getState context now wrapper in
  if wrapper.(nextNonce) <? 5 then
    if wrapper.(nextNonce) <? 4 then encryptHandshake context message wrapper rand
    else
      let secret := getSharedSecret wrapper.(secret) wrapper.(tempKey) None in
      encryptMessage message (set_secret wrapper secret) rand
  else encryptMessage message wrapper rand.

(** The user's handler is called last: its result is the handler's. *)
Definition callReceivedMessage (now : Z) (wrapper : Wrapper) (rand : Rand) (message : Message)
    : option (Wrapper * Rand * list event * ret) :=
  let wrapper := if wrapper.(authenticatePackets) then set_timeOfLastPacket wrapper (u32 now) else wrapper in
  Some (wrapper, rand, [Deliver message], FromCallee).

Definition decryptMessage (wrapper : Wrapper) (nonce : Z) (content : Message) (secret : list Z)
    : option (bool * Wrapper * Message) :=
  if wrapper.(authenticatePackets) then
    '(ok, content) ← decrypt nonce content secret wrapper.(isInitiator) true;
    if negb ok then Some (false, wrapper, content)
    else
      let '(fresh, rp) := ReplayProtector_checkNonce nonce wrapper.(replayProtector) in
      let wrapper := set_replayProtector wrapper rp in
      Some (fresh, wrapper, content)
  else
    '(_, content) ← decrypt nonce content secret wrapper.(isInitiator) false;
    Some (true, wrapper, content).

(** After the buffered message is sent the flag is cleared; the wrapped
    interface is called before that. What is left in the memory of a dropped
    message (zeros over its header) and of the buffered one after it is sent is
    not part of the result: neither is read again. *)
Definition decryptHandshake (context : Context) (now : Z) (wrapper : Wrapper) (rand : Rand) (nonce : Z)
    (message : Message) (header : Z) : option (Wrapper * Rand * list event * ret) :=
  if length message <? Headers_CryptoAuth_SIZE then Some (wrapper, rand, [], Code Error_UNDERSIZE_MESSAGE)
  else if (wrapper.(nextNonce) <? 2) && (nonce =? UINT32_MAX) && negb wrapper.(requireAuth) then
    let wrapper :=
      if negb (knowHerKey wrapper)
      then set_herPerminentPubKey wrapper (read (buffer message) (header + CryptoAuth_publicKey) 32)
      else wrapper in
    message ← Message_shift message (- Headers_CryptoAuth_SIZE);
    let message := with_length message 0 in
    let wrapper := set_user (set_nextNonce wrapper 0) 0 in
    '(wrapper, rand, events, _) ← encryptHandshake context message wrapper rand;
    Some (wrapper, rand, events, Code Error_NONE)
  else
    let m := buffer message in
    let '(passwordHash, user, wrapper) := tryAuth m header context wrapper in
    if wrapper.(requireAuth) && (user =? 0) then Some (wrapper, rand, [], Code Error_AUTHENTICATION)
    else if bool_decide (passwordHash = None) && negb (m (header + CryptoAuth_auth + AuthChallenge_type) =? 0) then
      Some (wrapper, rand, [], Code Error_AUTHENTICATION)
    else
      let herKey := read m (header + CryptoAuth_publicKey) 32 in
      let proceed (herPermKey : option (list Z)) (sharedSecret : list Z) (nextNonce' : Z) :=
        message ← Message_shift message (48 - Headers_CryptoAuth_SIZE);
        '(ok, message) ← decryptRndNonce (read m (header + CryptoAuth_nonce) 24) message sharedSecret;
        if negb ok then Some (wrapper, rand, [], Code Error_AUTHENTICATION)
        else
          let wrapper := set_user wrapper user in
          let wrapper := set_tempKey wrapper (read (buffer message) (header + CryptoAuth_encryptedTempKey) 32) in
          message ← Message_shift message (-32);
          let wrapper := set_nextNonce wrapper nextNonce' in
          let wrapper := if nextNonce' =? 2 then set_isInitiator wrapper false else wrapper in
          let wrapper := match herPermKey with
                         | Some key => set_herPerminentPubKey wrapper key
                         | None => wrapper
                         end in
          if wrapper.(hasBufferedMessage) && (length message =? 0) then
            buffered ← wrapper.(bufferedMessage);
            '(wrapper, rand, events, _) ← sendMessage context now buffered wrapper rand;
            Some (set_hasBufferedMessage wrapper false, rand, map (from_buffer message) events, Code Error_NONE)
          else
            let wrapper := set_replayProtector wrapper ReplayProtector_new in
            callReceivedMessage now (setRequiredPadding wrapper) rand message in
      if nonce <? 2 then
        if negb (knowHerKey wrapper) || (wrapper.(nextNonce) =? 0) then
          proceed (Some herKey) (getSharedSecret context.(privateKey) herKey passwordHash) 2
        else if negb (Bits_memcmp herKey wrapper.(herPerminentPubKey) =? 0) then
          Some (wrapper, rand, [], Code Error_AUTHENTICATION)
        else
          proceed None (getSharedSecret context.(privateKey) wrapper.(herPerminentPubKey) passwordHash) 2
      else if negb (Bits_memcmp herKey wrapper.(herPerminentPubKey) =? 0) then
        Some (wrapper, rand, [], Code Error_AUTHENTICATION)
      else
        proceed None (getSharedSecret wrapper.(secret) wrapper.(herPerminentPubKey) passwordHash) 4.

(** The assertion on the padding is always true ([||] with a string). *)
Definition receiveMessage (context : Context) (now : Z) (received : Message) (wrapper : Wrapper) (rand : Rand)
    : option (Wrapper * Rand * list event * ret) :=
  let header := bytes received in
  if length received <? (if wrapper.(authenticatePackets) then 20 else 4) then
    Some (wrapper, rand, [], Code Error_UNDERSIZE_MESSAGE)
  else
    let nonce := Endian_bigEndianToHost32 (load 4 (buffer received) (header + CryptoAuth_handshakeStage)) in
    received ← Message_shift received (-4);
    let handshake wrapper :=
      received ← Message_shift received 4;
      decryptHandshake context now wrapper rand nonce received header in
    if wrapper.(nextNonce) <? 5 then
      if (3 <? nonce) && negb (nonce =? UINT32_MAX) && knowHerKey wrapper then
        let secret := getSharedSecret wrapper.(secret) wrapper.(tempKey) None in
        let wrapper := set_nextNonce wrapper (wrapper.(nextNonce) + 3) in
        '(ok, wrapper, received) ← decryptMessage wrapper nonce received secret;
        if (ok : bool) then callReceivedMessage now (set_secret wrapper secret) rand received
        else Some (CryptoAuth_reset wrapper, rand, [], Code Error_UNDELIVERABLE)
      else handshake wrapper
    else if 4 <? nonce then
      '(ok, wrapper, received) ← decryptMessage wrapper nonce received wrapper.(secret);
      if (ok : bool) then callReceivedMessage now wrapper rand received
      else Some (wrapper, rand, [], Code Error_UNDELIVERABLE)
    else handshake wrapper.

(** ** Users and interfaces *)
Definition CryptoAuth_new (privateKey : option (list Z)) (rand : Rand) : Context * Rand :=
  let '(privateKey, rand) := match privateKey with
                             | Some key => (key, rand)
                             | None => Random_bytes rand 32
                             end in
  ({| publicKey := crypto_scalarmult_curve25519_base privateKey; privateKey := privateKey;
      passwords := fun _ => zero_auth; passwordCount := 0; passwordCapacity := 256;
      resetAfterInactivitySeconds := CryptoAuth_DEFAULT_RESET_AFTER_INACTIVITY_SECONDS |}, rand).

Definition set_entry (table : Z -> Auth) (i : Z) (a : Auth) : Z -> Auth :=
  fun j => if j =? i then a else table j.

Definition CryptoAuth_addUser (password : list Z) (authType user : Z) (context : Context) : Context * Z :=
  if negb (authType =? 1) then (context, CryptoAuth_addUser_INVALID_AUTHTYPE)
  else if context.(passwordCount) =? context.(passwordCapacity) then (context, CryptoAuth_addUser_OUT_OF_SPACE)
  else
    let a := hashPassword_sha256 password in
    match for_until (Z.to_nat context.(passwordCount)) 0 (fun i _ =>
            if Bits_memcmp a.(auth_secret) (context.(passwords) i).(auth_secret) =? 0
            then inr tt else inl tt) tt with
    | inr _ => (context, CryptoAuth_addUser_DUPLICATE)
    | inl _ =>
        let a := {| challenge := a.(challenge); auth_secret := a.(auth_secret); auth_user := user |} in
        (set_passwords context (set_entry context.(passwords) context.(passwordCount) a)
           (context.(passwordCount) + 1), 0)
    end.

(** [while (i < passwordCount)]: each round either advances [i] or lowers the
    count, so [passwordCount] rounds are enough. The entry copied over is the
    one at the old count: [passwordCount--]. *)
Fixpoint removeUsers_loop (fuel : nat) (context : Context) (uid i count : Z) : Context * Z :=
  match fuel with
  | O => (context, count)
  | S fuel' =>
      if i <? context.(passwordCount) then
        if (context.(passwords) i).(auth_user) =? uid then
          removeUsers_loop fuel'
            (set_passwords context
               (set_entry context.(passwords) i (context.(passwords) context.(passwordCount)))
               (context.(passwordCount) - 1)) uid i (count + 1)
        else removeUsers_loop fuel' context uid (i + 1) count
      else (context, count)
  end.

Definition CryptoAuth_removeUsers (context : Context) (uid : Z) : Context * Z :=
  if uid =? 0 then (set_passwords context context.(passwords) 0, context.(passwordCount))
  else removeUsers_loop (Z.to_nat context.(passwordCount)) context uid 0 0.

Definition CryptoAuth_getUser (context : Context) (wrapper : Wrapper) : Wrapper * Z :=
  let user := wrapper.(user) in
  if negb (user =? 0) then
    match for_until (Z.to_nat context.(passwordCount)) 0 (fun i _ =>
            if user =? (context.(passwords) i).(auth_user) then inr tt else inl tt) tt with
    | inr _ => (wrapper, user)
    | inl _ => (set_user wrapper 0, 0)
    end
  else (wrapper, 0).

(** Fields the initializer does not name are zero. *)
Definition CryptoAuth_wrapInterface (wrappedPadding wrappedMax : Z) (herPublicKey : option (list Z))
    (requireAuth authenticatePackets : bool) (now : Z) : Wrapper :=
  {| herPerminentPubKey := match herPublicKey with Some key => key | None => repeat 0 32 end;
     user := 0; secret := repeat 0 32; tempKey := repeat 0 32; bufferedMessage := None; password := None;
     replayProtector := ReplayProtector_new; nextNonce := 0; timeOfLastPacket := u32 now; authType := 0;
     isInitiator := false; authenticatePackets := authenticatePackets; requireAuth := requireAuth;
     hasBufferedMessage := false; requiredPadding := 0; maxMessageLength := 0;
     wrappedRequiredPadding := wrappedPadding; wrappedMaxMessageLength := wrappedMax |}.

Definition CryptoAuth_setAuth (password : option (list Z)) (authType : Z) (wrapper : Wrapper) : Wrapper :=
  let wrapper := set_password wrapper password in
  set_authType wrapper (match password with Some _ => authType | None => 0 end).

Definition CryptoAuth_getHerPublicKey (wrapper : Wrapper) : list Z := wrapper.(herPerminentPubKey).
End cryptoauth.

(** ** Encryption in place: what it does to the content *)
Section inplace.
  Context {P : Platform} {N : NaCl} {L : NaClLaws N}.

(** What is on the wire for a plain text. *)
Definition seal (nonce secret plain : list Z) : list Z :=
  drop 16 (crypto_box_afternm (repeat 0 32 ++ plain) nonce secret).

Definition protect (authenticate : bool) (nonce secret plain : list Z) : list Z :=
  if authenticate then seal nonce secret plain
  else crypto_stream_salsa20_xor plain (take 8 nonce) secret.

Lemma seal_length nonce secret plain : List.length (seal nonce secret plain) = (16 + List.length plain)%nat.
Proof. unfold seal. rewrite length_drop, afternm_length, length_app, repeat_length. lia. Qed.

Lemma protect_length a nonce secret plain :
  List.length (protect a nonce secret plain) = ((if a then 16 else 0) + List.length plain)%nat.
Proof. destruct a; [apply seal_length|]. cbn. rewrite stream_length. done. Qed.

Lemma memset_read m a n k : 0 <= n -> 0 <= k ->
  read (Bits_memset m a 0 n) a (n + k) = repeat 0 (Z.to_nat n) ++ read m (a + n) k.
Proof.
  intros Hn Hk. rewrite read_app by lia. unfold Bits_memset. change (u8 0) with 0. f_equal.
  - apply read_write_same. rewrite repeat_length. lia.
  - apply read_write_disj. rewrite repeat_length. lia.
Qed.

Lemma encryptRndNonce_spec nonce msg secret :
  message_ok msg -> 32 <= padding msg ->
  exists msg', encryptRndNonce nonce msg secret = Some msg' /\ message_ok msg'
    /\ length msg' = length msg + 16 /\ bytes msg' = bytes msg - 16 /\ padding msg' = padding msg - 16
    /\ content msg' = seal nonce secret (content msg)
    /\ forall x, x < bytes msg - 16 -> buffer msg' x = buffer msg x.
Proof.
  intros (Hl & Hp & Ht & Hm) Hpad. unfold encryptRndNonce.
  destruct (Z.ltb_spec (padding msg) 32); [lia|].
  replace (length msg + 32) with (32 + length msg) by lia. rewrite memset_read by lia.
  replace (bytes msg - 32 + 32) with (bytes msg) by lia. fold (content msg). change (Z.to_nat 32) with 32%nat.
  set (c := crypto_box_afternm _ nonce secret).
  set (m1 := Bits_memset _ _ _ _). set (m2 := write m1 _ c). set (ps := read (buffer msg) (bytes msg - 32) 16).
  assert (Z.of_nat (List.length c) = length msg + 32) as Hlc.
  { unfold c. rewrite afternm_length, length_app, repeat_length. pose proof (content_length msg). lia. }
  assert (List.length ps = 16%nat) as Hps by (unfold ps; rewrite length_read; done).
  rewrite shift_up by (cbn; lia). cbn [with_buffer length padding bytes buffer].
  eexists. split; [done|]. cbn [length padding bytes buffer]. split.
  { unfold message_ok. cbn [length padding bytes buffer]. split_and!; try lia.
    apply write_ok; [|apply read_ok, Hm]. apply write_ok; [apply write_ok; [done|apply zeros_ok]|].
    apply afternm_ok, Forall_app. split; [apply zeros_ok|apply content_ok, Hm]. }
  split; [lia|]. split; [lia|]. split; [lia|]. split.
  - unfold content at 1. cbn [length bytes buffer]. rewrite read_write_disj by lia.
    unfold m2. rewrite read_write_sub by lia. rewrite take_ge by (rewrite length_drop; lia).
    unfold seal, c. f_equal. lia.
  - intros x Hx. destruct (decide (bytes msg - 32 <= x)).
    + rewrite write_in by lia. unfold ps. rewrite nth_read by lia. f_equal. lia.
    + rewrite write_out by lia. unfold m2. rewrite write_out by lia. unfold m1, Bits_memset. apply write_out.
      rewrite repeat_length. lia.
Qed.

Lemma decryptRndNonce_spec nonce msg secret plain :
  message_ok msg -> 16 <= padding msg -> content msg = seal nonce secret plain ->
  exists msg', decryptRndNonce nonce msg secret = Some (true, msg') /\ message_ok msg'
    /\ length msg' = length msg - 16 /\ bytes msg' = bytes msg + 16 /\ padding msg' = padding msg + 16
    /\ content msg' = plain
    /\ forall x, x < bytes msg -> buffer msg' x = buffer msg x.
Proof.
  intros (Hl & Hp & Ht & Hm) Hpad Hc. pose proof (content_length msg ltac:(lia)) as Hlen.
  rewrite Hc, seal_length in Hlen. unfold decryptRndNonce.
  destruct (Z.ltb_spec (length msg) 16); [lia|]. destruct (Z.ltb_spec (padding msg) 16); [lia|].
  replace (length msg + 16) with (16 + length msg) by lia. rewrite memset_read by lia.
  replace (bytes msg - 16 + 16) with (bytes msg) by lia. fold (content msg). change (Z.to_nat 16) with 16%nat.
  assert (repeat 0 16 ++ content msg = crypto_box_afternm (repeat 0 32 ++ plain) nonce secret) as ->.
  { rewrite Hc, <-(afternm_zeros plain nonce secret). unfold seal. apply take_drop. }
  rewrite open_afternm_agree. set (m1 := Bits_memset _ _ _ _). set (ps := read (buffer msg) (bytes msg - 16) 16).
  assert (List.length ps = 16%nat) as Hps by (unfold ps; rewrite length_read; done).
  assert (Z.of_nat (List.length (repeat 0 32 ++ plain)) = length msg + 16) as Hlp
    by (rewrite length_app, repeat_length; lia).
  assert (bytes_ok plain) as Hplain.
  { assert (bytes_ok (repeat 0 32 ++ plain)) as Hb; [|apply Forall_app in Hb; tauto].
    eapply open_ok; [|apply (open_afternm_agree plain nonce secret)].
    rewrite <-(take_drop 16 (crypto_box_afternm _ _ _)). rewrite afternm_zeros. apply Forall_app.
    split; [apply zeros_ok|]. fold (seal nonce secret plain). rewrite <-Hc. apply content_ok, Hm. }
  rewrite (shift_down _ 16) by (cbn; lia). cbn [mbind option_bind with_buffer length padding bytes buffer].
  eexists. split; [done|]. cbn [length padding bytes buffer]. split.
  { unfold message_ok. cbn [length padding bytes buffer]. split_and!; try lia.
    apply write_ok; [|apply read_ok, Hm]. apply write_ok; [apply write_ok; [done|apply zeros_ok]|].
    apply Forall_app. split; [apply zeros_ok|done]. }
  split; [lia|]. split; [lia|]. split; [lia|]. split.
  - unfold content at 1. cbn [length bytes buffer]. rewrite read_write_disj by lia.
    rewrite read_write_sub by lia. rewrite take_ge by (rewrite length_drop; lia).
    replace (Z.to_nat (bytes msg + 16 - (bytes msg - 16))) with 32%nat by lia.
    rewrite drop_app_length' by (rewrite repeat_length; done). done.
  - intros x Hx. destruct (decide (bytes msg - 16 <= x)).
    + rewrite write_in by lia. unfold ps. rewrite nth_read by lia. f_equal. lia.
    + rewrite write_out by lia. rewrite write_out by lia. unfold m1, Bits_memset. apply write_out.
      rewrite repeat_length. lia.
Qed.

Lemma encrypt_spec nonce msg secret init authenticate :
  message_ok msg -> 32 <= padding msg ->
  exists msg', encrypt nonce msg secret init authenticate = Some msg' /\ message_ok msg'
    /\ padding msg - 16 <= padding msg'
    /\ content msg' = protect authenticate (nonceAs init nonce) secret (content msg).
Proof.
  intros Hok Hpad. unfold encrypt, protect. destruct authenticate.
  - destruct (encryptRndNonce_spec (nonceAs init nonce) msg secret Hok Hpad) as (m' & E & Hok' & _ & _ & Hp & Hc & _).
    exists m'. split_and!; done || lia.
  - exists (cipher (take 8 (nonceAs init nonce)) msg secret). split; [done|].
    pose proof (content_length msg) as Hcl. unfold message_ok in *. unfold cipher.
    cbn [with_buffer length padding bytes buffer]. fold (content msg).
    split; [|split; [lia|]].
    + split_and!; try lia. apply write_ok; [apply Hok|apply stream_ok, content_ok, Hok].
    + unfold content at 1. cbn [with_buffer length padding bytes buffer]. apply read_write_same.
      rewrite stream_length. lia.
Qed.

Lemma decrypt_spec nonce msg secret init authenticate plain :
  message_ok msg -> 16 <= padding msg -> bytes_ok plain ->
  content msg = protect authenticate (nonceAs (negb init) nonce) secret plain ->
  exists msg', decrypt nonce msg secret init authenticate = Some (true, msg') /\ message_ok msg'
    /\ content msg' = plain.
Proof.
  intros Hok Hpad Hb Hc. unfold decrypt. unfold protect in Hc. destruct authenticate.
  - destruct (decryptRndNonce_spec _ msg secret plain Hok Hpad Hc) as (m' & E & Hok' & _ & _ & _ & Hc' & _).
    exists m'. done.
  - exists (cipher (take 8 (nonceAs (negb init) nonce)) msg secret). split; [done|].
    pose proof (content_length msg) as Hcl. unfold message_ok in *. unfold cipher.
    cbn [with_buffer length padding bytes buffer]. fold (content msg). split.
    + split_and!; try lia. apply write_ok; [apply Hok|apply stream_ok, content_ok, Hok].
    + unfold content at 1. cbn [with_buffer length padding bytes buffer]. rewrite read_write_same.
      * rewrite Hc. apply stream_twice, Hb.
      * rewrite stream_length. lia.
Qed.
End inplace.

(** ** Data packets *)
Section data.
  Context {P : Platform} {N : NaCl} {L : NaClLaws N} {R : RandomSource}.

(** What the network does to a message: it arrives with the same content, in
    another buffer. *)
Definition transmit (p q : Message) : Prop :=
  content q = content p /\ message_ok q /\ 16 <= padding q.

Lemma store_be_read m a n : 0 <= n < 2 ^ 32 ->
  read (write m a (store 4 (Endian_hostToBigEndian32 n))) a 4 = be_split 4 n.
Proof. intros Hn. rewrite store_be32 by done. apply read_write_same. rewrite length_be_split. done. Qed.

Lemma load_be_split m a n : 0 <= n < 2 ^ 32 -> mem_ok m -> read m a 4 = be_split 4 n ->
  Endian_bigEndianToHost32 (load 4 m a) = n.
Proof.
  intros Hn Hm E. rewrite be_load32 by done. rewrite E, be_combine_split. apply Z.mod_small, Hn.
Qed.

Lemma encryptMessage_spec msg w r :
  message_ok msg -> 36 <= padding msg -> 0 <= w.(nextNonce) < 2 ^ 32 ->
  exists p, encryptMessage msg w r
      = Some (set_nextNonce w (u32 (w.(nextNonce) + 1)), r, [SendWrapped p], FromCallee)
    /\ message_ok p /\ length p = 4 + (if w.(authenticatePackets) then 16 else 0) + length msg
    /\ content p = be_split 4 w.(nextNonce)
       ++ protect w.(authenticatePackets) (nonceAs w.(isInitiator) w.(nextNonce)) w.(secret) (content msg).
Proof.
  intros Hok Hpad Hn. unfold encryptMessage. destruct (Z.ltb_spec (padding msg) 36); [lia|].
  destruct (encrypt_spec w.(nextNonce) msg w.(secret) w.(isInitiator) w.(authenticatePackets) Hok ltac:(lia))
    as (m1 & -> & Hok1 & Hp1 & Hc1).
  cbn [mbind option_bind]. rewrite shift_up by lia. cbn [mbind option_bind length padding bytes buffer with_buffer].
  eexists. split; [done|]. unfold CryptoAuth_handshakeStage. rewrite Z.add_0_r.
  destruct Hok1 as (Hl1 & Hpp1 & Ht1 & Hm1).
  pose proof (content_length m1 ltac:(lia)) as Hcl. rewrite Hc1, protect_length in Hcl.
  pose proof (content_length msg ltac:(destruct Hok; lia)) as Hcl'.
  split; [|split].
  - unfold message_ok. cbn [with_buffer length padding bytes buffer].
    split_and!; try lia. apply write_ok; [done|apply store_ok].
  - cbn. destruct (authenticatePackets w); lia.
  - unfold content at 1. cbn [with_buffer length padding bytes buffer].
    rewrite (read_split _ _ _ 4) by lia. rewrite store_be_read by done. f_equal.
    rewrite read_write_disj by (rewrite length_store; lia).
    replace (bytes m1 - 4 + 4) with (bytes m1) by lia. replace (length m1 + 4 - 4) with (length m1) by lia. done.
Qed.

(** The nonce word and the rest of a received packet. *)
Lemma receive_split q nonce c :
  message_ok q -> 0 <= nonce < 2 ^ 32 -> content q = be_split 4 nonce ++ c ->
  length q = 4 + Z.of_nat (List.length c)
  /\ Endian_bigEndianToHost32 (load 4 (buffer q) (bytes q + CryptoAuth_handshakeStage)) = nonce
  /\ exists q', Message_shift q (-4) = Some q' /\ message_ok q' /\ content q' = c
     /\ padding q' = padding q + 4 /\ Message_shift q' 4 = Some q.
Proof.
  intros (Hl & Hp & Ht & Hm) Hn Hc. pose proof (content_length q ltac:(lia)) as Hcl.
  rewrite Hc, length_app, length_be_split in Hcl. unfold content in Hc.
  rewrite (read_split _ _ _ 4) in Hc by lia. apply app_inj_1 in Hc as [Hc1 Hc2].
  2: { rewrite length_read, length_be_split. done. }
  split; [lia|]. split.
  - unfold CryptoAuth_handshakeStage. rewrite Z.add_0_r. apply load_be_split; done.
  - change (-4) with (- (4)). rewrite (shift_down q 4) by lia. eexists. split; [done|]. unfold content, message_ok.
    cbn [length padding bytes buffer]. split; [split_and!; lia || done|]. split; [exact Hc2|]. split; [done|].
    rewrite shift_up by (cbn; lia). cbn [length padding bytes buffer]. destruct q. cbn. do 2 f_equal; lia.
Qed.

(** Two ends of an established session. *)
Record linked (a b : Wrapper) : Prop := {
  linked_secret : a.(secret) = b.(secret);
  linked_role : a.(isInitiator) = negb b.(isInitiator);
  linked_auth : a.(authenticatePackets) = b.(authenticatePackets);
  linked_nonce_a : 5 <= a.(nextNonce) < 2 ^ 32;
  linked_nonce_b : 5 <= b.(nextNonce) < 2 ^ 32
}.

(** The receiver's replay window takes the nonce (it is only asked when packets
    are authenticated). *)
Definition fresh (w : Wrapper) (nonce : Z) : bool :=
  negb w.(authenticatePackets) || fst (ReplayProtector_checkNonce nonce w.(replayProtector)).

Lemma decryptMessage_spec w nonce q s plain :
  message_ok q -> 16 <= padding q -> bytes_ok plain ->
  content q = protect w.(authenticatePackets) (nonceAs (negb w.(isInitiator)) nonce) s plain ->
  exists w' q', decryptMessage w nonce q s = Some (fresh w nonce, w', q') /\ content q' = plain
    /\ w' = (if w.(authenticatePackets)
             then set_replayProtector w (snd (ReplayProtector_checkNonce nonce w.(replayProtector))) else w).
Proof.
  intros Hok Hpad Hb Hc. unfold decryptMessage, fresh. destruct (authenticatePackets w) eqn:Ea.
  - destruct (decrypt_spec nonce q s w.(isInitiator) true plain Hok Hpad Hb Hc) as (q' & -> & _ & Hc').
    cbn [mbind option_bind negb orb]. destruct (ReplayProtector_checkNonce nonce _) as [ok rp]. eauto.
  - destruct (decrypt_spec nonce q s w.(isInitiator) false plain Hok Hpad Hb Hc) as (q' & -> & _ & Hc').
    cbn [mbind option_bind negb orb]. eauto.
Qed.

Lemma no_timeout context now w :
  u64 (now - w.(timeOfLastPacket)) <= context.(resetAfterInactivitySeconds) ->
  fst (CryptoAuth_getState context now w) = w.
Proof.
  intros H. unfold CryptoAuth_getState. cbn [fst].
  destruct (Z.ltb_spec (resetAfterInactivitySeconds context) (u64 (now - timeOfLastPacket w))); [lia|done].
Qed.

Lemma sendMessage_live context now msg w r :
  u64 (now - w.(timeOfLastPacket)) <= context.(resetAfterInactivitySeconds) ->
  sendMessage context now msg w r
  = if w.(nextNonce) <? 5 then
      if w.(nextNonce) <? 4 then encryptHandshake context msg w r
      else encryptMessage msg (set_secret w (getSharedSecret w.(secret) w.(tempKey) None)) r
    else encryptMessage msg w r.
Proof.
  intros H. unfold sendMessage. pose proof (no_timeout context now w H) as E.
  destruct (CryptoAuth_getState context now w) as [w' st]. cbn [fst] in E. subst w'. done.
Qed.
End data.

(** ** Properties of established sessions *)
Section session_properties.
  Context {P : Platform} {N : NaCl} {L : NaClLaws N} {R : RandomSource}.

(** C11: between the two ends of an established session every message sent is
    delivered with the content it was sent with, when its nonce is fresh for the
    receiver's replay window, and dropped with Error_UNDELIVERABLE when it is
    not; either way the two ends stay linked. *)
Theorem CryptoAuth_data_delivered ctxA ctxB nowA nowB a b ra rb msg :
  linked a b -> a.(nextNonce) < UINT32_MAX ->
  u64 (nowA - a.(timeOfLastPacket)) <= ctxA.(resetAfterInactivitySeconds) ->
  message_ok msg -> 36 <= padding msg ->
  exists a' p, sendMessage ctxA nowA msg a ra = Some (a', ra, [SendWrapped p], FromCallee)
    /\ forall q, transmit p q ->
       exists b', linked a' b'
         /\ if fresh b a.(nextNonce)
            then exists d, receiveMessage ctxB nowB q b rb = Some (b', rb, [Deliver d], FromCallee)
                 /\ content d = content msg
            else receiveMessage ctxB nowB q b rb = Some (b', rb, [], Code Error_UNDELIVERABLE).
Proof.
  intros [Hs Hrole Hauth Hna Hnb] Hmax Hlive Hok Hpad.
  rewrite (sendMessage_live ctxA nowA msg a ra Hlive). destruct (Z.ltb_spec (nextNonce a) 5); [lia|].
  destruct (encryptMessage_spec msg a ra Hok Hpad ltac:(lia)) as (p & -> & Hokp & Hlp & Hcp).
  exists (set_nextNonce a (u32 (nextNonce a + 1))), p. split; [done|].
  intros q (Hcq & Hokq & Hpq). rewrite Hcp in Hcq.
  destruct (receive_split q (nextNonce a) _ Hokq ltac:(lia) Hcq) as (Hlq & Hnonce & q4 & Hshift & Hok4 & Hc4 & Hp4 & _).
  rewrite protect_length in Hlq. unfold receiveMessage. rewrite Hnonce, Hshift. cbn [mbind option_bind].
  destruct (Z.ltb_spec (length q) (if authenticatePackets b then 20 else 4)).
  { rewrite Hauth in Hlq. destruct (authenticatePackets b); lia. }
  destruct (Z.ltb_spec (nextNonce b) 5); [lia|]. destruct (Z.ltb_spec 4 (nextNonce a)); [|lia].
  rewrite Hauth, Hrole, Hs in Hc4. rewrite Hs in *.
  destruct (decryptMessage_spec b (nextNonce a) q4 (secret b) (content msg) Hok4 ltac:(lia)
    (content_ok msg (proj2 (proj2 (proj2 Hok)))) Hc4) as (b1 & d & -> & Hcd & ->).
  cbn [mbind option_bind]. unfold UINT32_MAX in Hmax.
  set (b1 := if authenticatePackets b then _ else b).
  assert (forall t, linked (set_nextNonce a (u32 (nextNonce a + 1))) b1
    /\ linked (set_nextNonce a (u32 (nextNonce a + 1))) (set_timeOfLastPacket b1 t)) as Hlinked.
  { intros t. rewrite u32_small by lia.
    unfold b1. destruct (authenticatePackets b) eqn:Ea; (split; split; cbn; try rewrite Ea; done || lia). }
  destruct (fresh b (nextNonce a)).
  - unfold callReceivedMessage. eexists. split; [|exists d; split; [done|exact Hcd]].
    destruct (authenticatePackets b1); apply Hlinked; exact 0.
  - exists b1. split; [apply Hlinked; exact 0|done].
Qed.
End session_properties.

(** ** Handshake packets *)
Section handshake.
  Context {P : Platform} {N : NaCl} {L : NaClLaws N} {R : RandomSource} {RL : RandomLaws R}.

(** The fields of a handshake packet without a password. *)
Record hs_packet (q : Message) (stage : Z) (flag : bool) (nonce pub sealed : list Z) : Prop := {
  hs_length : length q = 72 + Z.of_nat (List.length sealed);
  hs_stage : read (buffer q) (bytes q + 0) 4 = be_split 4 stage;
  hs_type : buffer q (bytes q + 4) = 0;
  hs_flag : Headers_isPacketAuthRequired (buffer q) (bytes q + 4) = flag;
  hs_nonce : read (buffer q) (bytes q + 16) 24 = nonce;
  hs_pub : read (buffer q) (bytes q + 40) 32 = pub;
  hs_sealed : read (buffer q) (bytes q + 72) (Z.of_nat (List.length sealed)) = sealed
}.

Lemma transmit_length p q : 0 <= length p -> transmit p q -> length q = length p.
Proof.
  intros Hp (E & (Hl & _) & _). rewrite <-(content_length q), <-(content_length p), E by lia. done.
Qed.

Lemma hs_transmit p q stage flag nonce pub sealed :
  0 <= length p -> transmit p q -> hs_packet p stage flag nonce pub sealed -> hs_packet q stage flag nonce pub sealed.
Proof.
  intros Hp Ht [H1 H2 H3 H4 H5 H6 H7]. pose proof (transmit_length p q Hp Ht) as Hlen.
  destruct Ht as (Hc & _ & _).
  split; try (rewrite content_eq_read with (p := p); done || lia).
  - lia.
  - rewrite (content_eq_at p q 4) by (done || lia). exact H3.
  - rewrite <-H4. unfold Headers_isPacketAuthRequired, auth_field. do 2 f_equal. f_equal.
    apply load_read. unfold AuthChallenge_requirePacketAuthAndDerivationCount. rewrite <-!Z.add_assoc.
    apply content_eq_read; done || lia.
Qed.

Lemma be_split_range n z : 0 <= z < 2 ^ 32 -> n = 4%nat -> be_combine (be_split n z) = z.
Proof. intros Hz ->. rewrite be_combine_split. apply Z.mod_small, Hz. Qed.

(** Filling in the header and sealing the rest, for whatever key is enclosed. *)
Lemma seal_handshake m0 header len pad garbage pub stage flag temp shared :
  mem_ok m0 -> List.length garbage = 36%nat -> bytes_ok garbage -> List.length pub = 32%nat -> bytes_ok pub ->
  List.length temp = 32%nat -> bytes_ok temp -> 0 <= stage < 2 ^ 32 ->
  0 <= len -> 0 <= pad -> len + 120 + pad < 2 ^ 31 ->
  let m := write m0 (header + CryptoAuth_auth) garbage in
  let m := write m (header + CryptoAuth_publicKey) pub in
  let m := set m (header + CryptoAuth_auth + AuthChallenge_type) 0 in
  let m := Headers_setPacketAuthRequired m (header + CryptoAuth_auth) flag in
  let m := write m (header + CryptoAuth_handshakeStage) (store 4 (Endian_hostToBigEndian32 stage)) in
  let m := write m (header + CryptoAuth_encryptedTempKey) temp in
  exists p, (message ← Message_shift {| length := len + 120; padding := pad; bytes := header; buffer := m |}
                        (32 - Headers_CryptoAuth_SIZE);
      message ← encryptRndNonce (read m (header + CryptoAuth_nonce) 24) message shared;
      Message_shift message (Headers_CryptoAuth_SIZE - 32 - 16)) = Some p
    /\ message_ok p
    /\ hs_packet p stage flag (drop 12 garbage) pub
         (seal (drop 12 garbage) shared (temp ++ read m0 (header + 120) len)).
Proof.
  intros Hm Hg Hgb Hpub Hpubb Htemp Htb Hst Hlen Hpad Htot m1 m2 m3 m4 m5 m6.
  unfold CryptoAuth_auth, CryptoAuth_publicKey, AuthChallenge_type, CryptoAuth_handshakeStage,
    CryptoAuth_encryptedTempKey, CryptoAuth_nonce in *.
  assert (mem_ok m3) as Hm3 by (apply set_ok; [repeat apply write_ok; done|unfold is_byte; lia]).
  assert (forall x, x < header + 12 \/ header + 14 <= x -> m4 x = m3 x) as E4.
  { intros x Hx. unfold m4, Headers_setPacketAuthRequired, set_auth_field, AuthChallenge_requirePacketAuthAndDerivationCount.
    destruct flag; apply write_out; rewrite length_store; lia. }
  assert (mem_ok m4) as Hm4.
  { unfold m4, Headers_setPacketAuthRequired, set_auth_field. destruct flag; apply write_ok; auto using store_ok. }
  assert (forall x, header + 4 <= x -> x < header + 88 \/ header + 120 <= x -> m6 x = m4 x) as E6.
  { intros x H1 H2. unfold m6, m5. rewrite !write_out by (rewrite ?length_store; lia). done. }
  assert (mem_ok m6) as Hm6 by (apply write_ok; [apply write_ok; [done|apply store_ok]|done]).
  change (32 - Headers_CryptoAuth_SIZE) with (- (88)). rewrite shift_down by (cbn; lia).
  cbn [mbind option_bind length padding bytes buffer].
  set (msg := {| length := _; padding := _; bytes := _; buffer := m6 |}).
  assert (message_ok msg) as Hmsg by (unfold message_ok, msg; cbn [length padding bytes buffer]; split_and!; lia || done).
  destruct (encryptRndNonce_spec (read m6 (header + 16) 24) msg shared Hmsg ltac:(cbn; lia))
    as (q & -> & Hq & Hql & Hqb & Hqp & Hqc & Hqm). cbn [msg length padding bytes buffer] in Hql, Hqb, Hqp, Hqm.
  cbn [mbind option_bind]. change (Headers_CryptoAuth_SIZE - 32 - 16) with 72. rewrite shift_up by lia.
  eexists. split; [done|]. destruct Hq as (Hq1 & Hq2 & Hq3 & Hq4).
  assert (read m6 (header + 16) 24 = drop 12 garbage) as En.
  { apply (nth_ext _ _ 0 0); [rewrite length_read, length_drop; lia|]. rewrite length_read. intros i Hi.
    rewrite nth_read, nth_skipn by lia. rewrite E6, E4 by lia. unfold m3. rewrite set_ne by lia.
    unfold m2. rewrite write_out by lia. unfold m1. rewrite write_in by lia. f_equal. lia. }
  assert (content msg = temp ++ read m0 (header + 120) len) as Ec.
  { unfold content, msg. cbn [length bytes buffer]. replace (len + 120 - 88) with (32 + len) by lia.
    rewrite read_app by lia. f_equal; [apply read_write_same; lia|].
    apply read_ext. intros i Hi. rewrite E6, E4 by lia. unfold m3. rewrite set_ne by lia.
    unfold m2, m1. rewrite !write_out by lia. f_equal. lia. }
  split; [unfold message_ok; cbn [length padding bytes buffer]; split_and!; lia || done|].
  rewrite En, Ec in Hqc. pose proof (f_equal (@List.length Z) Hqc) as Hsl. unfold content in Hsl.
  rewrite length_read in Hsl. rewrite Hqb in *. replace (header + 88 - 16) with (header + 72) in * by lia.
  replace (header + 72 - 72) with header by lia.
  assert (forall a n, a + n <= header + 72 -> read (buffer q) a n = read m6 a n) as Erd.
  { intros a n Ha. apply read_ext. intros i Hi. apply Hqm. lia. }
  split; cbn [length padding bytes buffer].
  - lia.
  - rewrite Z.add_0_r, Erd by lia. unfold m6. rewrite read_write_disj by lia. unfold m5. rewrite Z.add_0_r.
    apply store_be_read, Hst.
  - rewrite Hqm by lia. rewrite E6, E4 by lia. unfold m3. rewrite Z.add_0_r. apply set_eq.
  - destruct (authChallenge_fields m3 (header + 4) flag 0 Hm3 ltac:(lia)) as [Hf _]. fold m4 in Hf. rewrite <-Hf.
    unfold Headers_isPacketAuthRequired, auth_field, AuthChallenge_requirePacketAuthAndDerivationCount.
    do 2 f_equal. f_equal. apply load_read. rewrite Erd by lia. apply read_ext. intros i Hi. apply E6; lia.
  - rewrite Erd by lia. exact En.
  - rewrite Erd by lia. apply (nth_ext _ _ 0 0); [rewrite length_read; lia|]. rewrite length_read. intros i Hi.
    rewrite nth_read by lia. rewrite E6, E4 by lia. unfold m3. rewrite set_ne by lia. unfold m2.
    rewrite write_in by lia. f_equal. lia.
  - etransitivity; [|exact Hqc]. unfold content. f_equal; lia.
Qed.

(** A wrapper that authenticates without a password and does not wait for a
    peer's key. *)
Definition plain_wrapper (w : Wrapper) : Prop :=
  w.(password) = None /\ w.(authType) = 0 /\ w.(requireAuth) = false /\ w.(hasBufferedMessage) = false.

Definition live (ctx : Context) (now : Z) (w : Wrapper) : Prop :=
  u64 (now - w.(timeOfLastPacket)) <= ctx.(resetAfterInactivitySeconds).

Definition keys_ok (ctx : Context) : Prop :=
  List.length ctx.(privateKey) = 32%nat /\ bytes_ok ctx.(privateKey)
  /\ ctx.(publicKey) = crypto_scalarmult_curve25519_base ctx.(privateKey).

(** The wrapper after a hello (from 0) and after a key (from 2). *)
Definition after_send (w : Wrapper) (temp : list Z) : Wrapper :=
  if w.(nextNonce) =? 0
  then set_nextNonce (set_isInitiator (set_tempKey (set_secret w temp) (crypto_scalarmult_curve25519_base temp)) true) 1
  else set_nextNonce (set_secret w temp) 3.

Lemma bind3_some {A B C D : Type} (a : option A) (b : A -> option B) (c : B -> option C) (F : C -> D) p :
  (x ← a; y ← b x; c y) = Some p -> (x ← a; y ← b x; z ← c y; Some (F z)) = Some (F p).
Proof. destruct a as [x|]; [|done]. cbn. destruct (b x) as [y|]; [|done]. cbn. intros ->. done. Qed.

Lemma send_handshake ctx now msg w r :
  live ctx now w -> plain_wrapper w -> w.(nextNonce) = 0 \/ w.(nextNonce) = 2 -> knowHerKey w = true ->
  keys_ok ctx -> message_ok msg -> 120 <= padding msg ->
  exists p r' nonce temp,
    sendMessage ctx now msg w r = Some (after_send w temp, r', [SendWrapped p], FromCallee)
    /\ message_ok p /\ List.length temp = 32%nat /\ bytes_ok temp
    /\ hs_packet p w.(nextNonce) w.(authenticatePackets) nonce ctx.(publicKey)
         (seal nonce (crypto_box_beforenm (if w.(nextNonce) =? 0 then w.(herPerminentPubKey) else w.(tempKey)) ctx.(privateKey))
            (crypto_scalarmult_curve25519_base temp ++ content msg)).
Proof.
  intros Hlive (Hpw & Hat & _ & _) Hn Hk (Hsk & Hskb & Epk) Hmsg Hpad. rewrite (sendMessage_live ctx now msg w r Hlive).
  destruct (Z.ltb_spec (nextNonce w) 5); [|lia]. destruct (Z.ltb_spec (nextNonce w) 4); [|lia].
  unfold encryptHandshake. change Headers_CryptoAuth_SIZE with 120. rewrite (shift_up msg 120) by lia.
  cbn [mbind option_bind length padding bytes buffer]. destruct Hmsg as (Hl & Hp & Ht & Hm).
  destruct (Random_bytes r (Headers_AuthChallenge_SIZE + 24)) as [garbage r1] eqn:Eg.
  pose proof (random_length r (Headers_AuthChallenge_SIZE + 24) ltac:(done)) as Hg.
  pose proof (random_ok r (Headers_AuthChallenge_SIZE + 24)) as Hgb. rewrite Eg in Hg, Hgb. cbn [fst] in Hg, Hgb.
  change (Headers_AuthChallenge_SIZE + 24) with 36 in Hg.
  rewrite Hk, Hpw, Hat. cbn [negb mbind option_bind].
  assert (((nextNonce w =? 0) || (nextNonce w =? 2)) = true) as ->
    by (destruct Hn as [-> | ->]; reflexivity).
  destruct (Random_bytes r1 32) as [temp r2] eqn:Et.
  pose proof (random_length r1 32 ltac:(done)) as Htl. pose proof (random_ok r1 32) as Htb. rewrite Et in Htl, Htb.
  cbn [fst] in Htl, Htb.
  assert (List.length temp = 32%nat) as Htemp by lia.
  set (shared := getSharedSecret ctx.(privateKey) (if nextNonce w =? 0 then herPerminentPubKey w else tempKey w) None).
  assert (0 <= nextNonce w < 2 ^ 32) as Hst by lia.
  destruct (seal_handshake (buffer msg) (bytes msg - 120) (length msg) (padding msg - 120) garbage ctx.(publicKey)
    (nextNonce w) (authenticatePackets w) (crypto_scalarmult_curve25519_base temp) shared Hm ltac:(lia) Hgb
    ltac:(rewrite Epk; apply base_length, Hsk) ltac:(rewrite Epk; apply base_ok, Hskb)
    (base_length temp Htemp) (base_ok temp Htb) Hst (proj1 Hl) ltac:(lia) ltac:(lia)) as (p & Ep & Hokp & Hhs).
  replace (bytes msg - 120 + 120) with (bytes msg) in Hhs by lia.
  exists p, r2, (drop 12 garbage), temp. split; [|split_and!; done].
  cbn [secret set_secret with_buffer length padding bytes buffer nextNonce].
  unfold after_send, shared in *. destruct Hn as [Hn|Hn]; rewrite Hn in *; cbn [Z.eqb Z.ltb Z.compare nextNonce set_secret set_tempKey set_isInitiator herPerminentPubKey tempKey] in *.
  - rewrite ?Hn. cbn [Z.ltb Z.compare]. exact (bind3_some _ _ _ (fun z => (_, _, [SendWrapped z], FromCallee)) p Ep).
  - rewrite ?Hn. cbn [Z.ltb Z.compare]. exact (bind3_some _ _ _ (fun z => (_, _, [SendWrapped z], FromCallee)) p Ep).
Qed.

Lemma shift_there_and_back q n :
  0 < n <= length q -> 0 <= padding q ->
  exists q', Message_shift q (- n) = Some q' /\ Message_shift q' n = Some q
    /\ q' = {| length := length q - n; padding := padding q + n; bytes := bytes q + n; buffer := buffer q |}.
Proof.
  intros Hn Hpad. rewrite shift_down by lia. eexists. split; [done|]. split; [|done].
  unfold Message_shift. cbn [length padding bytes buffer]. destruct (Z.ltb_spec 0 n); [|lia].
  destruct (Z.leb_spec n (padding q + n)) ; [|lia]. destruct q. cbn. do 2 f_equal; lia.
Qed.

(** The wrapper after a valid hello (stage 0) or key (stage 2). *)
Definition after_receive (now : Z) (w : Wrapper) (stage : Z) (flag : bool) (pub tpub : list Z) : Wrapper :=
  let w := set_authenticatePackets w (w.(authenticatePackets) || flag) in
  let w := set_tempKey (set_user w 0) tpub in
  let w := if stage =? 0
           then set_herPerminentPubKey (set_isInitiator (set_nextNonce w 2) false) pub
           else set_nextNonce w 4 in
  let w := setRequiredPadding (set_replayProtector w ReplayProtector_new) in
  if w.(authenticatePackets) then set_timeOfLastPacket w (u32 now) else w.

Lemma receive_handshake ctx now w q r stage flag nonce pub tpub plain :
  plain_wrapper w -> message_ok q -> 16 <= padding q -> List.length tpub = 32%nat ->
  (w.(nextNonce) = 0 /\ stage = 0) \/ (w.(nextNonce) = 1 /\ stage = 2 /\ w.(herPerminentPubKey) = pub) ->
  hs_packet q stage flag nonce pub
    (seal nonce (if stage =? 0 then crypto_box_beforenm pub ctx.(privateKey)
                 else crypto_box_beforenm pub w.(secret)) (tpub ++ plain)) ->
  exists d, receiveMessage ctx now q w r
    = Some (after_receive now w stage flag pub tpub, r, [Deliver d], FromCallee)
    /\ content d = plain /\ message_ok d /\ length d = length q - 120 /\ padding d = padding q + 120 /\ bytes d = bytes q + 120
    /\ forall x, x < bytes q + 72 -> buffer d x = buffer q x.
Proof.
  intros (Hpw & Hat & Hra & Hhb) Hok Hpad Htp Hcase [H1 H2 H3 H4 H5 H6 H7].
  set (shared := if stage =? 0 then _ else _) in *.
  rewrite seal_length, length_app, Htp in H1. pose proof Hok as (Hl & Hp & Ht & Hm).
  assert (0 <= stage < 2 ^ 32) as Hst by lia.
  unfold receiveMessage. destruct (Z.ltb_spec (length q) (if authenticatePackets w then 20 else 4)).
  { destruct (authenticatePackets w); lia. }
  rewrite (load_be_split (buffer q) _ stage Hst Hm H2).
  destruct (shift_there_and_back q 4 ltac:(lia) Hp) as (q4 & Es & Eb & _). change (- (4)) with (-4) in Es.
  rewrite Es. cbn [mbind option_bind]. rewrite Eb. cbn [mbind option_bind].
  destruct (Z.ltb_spec (nextNonce w) 5); [|lia]. destruct (Z.ltb_spec 3 stage); [lia|]. cbn [andb].
  unfold decryptHandshake. unfold Headers_CryptoAuth_SIZE. destruct (Z.ltb_spec (length q) 120); [lia|].
  destruct (Z.eqb_spec stage UINT32_MAX); [unfold UINT32_MAX in *; lia|]. rewrite andb_false_r, andb_false_l.
  unfold tryAuth, getAuth, CryptoAuth_auth, AuthChallenge_type. rewrite Z.add_0_r, H3, H4. cbn [Z.eqb negb].
  cbn [requireAuth set_authenticatePackets]. rewrite Hra. cbn [andb negb]. rewrite andb_false_r.
  unfold CryptoAuth_publicKey, CryptoAuth_nonce, CryptoAuth_encryptedTempKey. rewrite H5, H6.
  cbn [nextNonce set_authenticatePackets herPerminentPubKey secret].
  destruct (shift_there_and_back q 72 ltac:(lia) Hp) as (q72 & Es72 & _ & Eq72).
  change (48 - 120) with (- (72)). rewrite Es72. cbn [mbind option_bind].
  assert (content q72 = seal nonce shared (tpub ++ plain)) as Hc72.
  { rewrite Eq72. etransitivity; [|exact H7]. unfold content. cbn [length bytes buffer].
    rewrite seal_length, length_app, Htp. f_equal. lia. }
  assert (message_ok q72) as Hok72 by (rewrite Eq72; unfold message_ok; cbn [length padding bytes buffer]; split_and!; lia || done).
  destruct (decryptRndNonce_spec nonce q72 shared (tpub ++ plain) Hok72 ltac:(rewrite Eq72; cbn; lia) Hc72)
    as (m & Em & Hokm & Hlm & Hbm & Hpm & Hcm & Hfm).
  assert (exists d, Message_shift m (-32) = Some d /\ (content d = plain /\ message_ok d
    /\ length d = length q - 120 /\ padding d = padding q + 120 /\ bytes d = bytes q + 120
    /\ forall x, x < bytes q + 72 -> buffer d x = buffer q x)
    /\ read (buffer m) (bytes q + 88) 32 = tpub) as (d & Ed & Hd & Etk).
  { rewrite Eq72 in Hlm, Hbm, Hpm, Hfm. cbn [length bytes padding buffer] in Hlm, Hbm, Hpm, Hfm.
    pose proof Hokm as (Hml & Hmp & Hmt & Hmm).
    destruct (shift_there_and_back m 32 ltac:(lia) Hmp) as (d & Ed & _ & Eqd). exists d. split; [exact Ed|].
    unfold content in Hcm. rewrite (read_split _ _ _ 32) in Hcm by lia.
    apply app_inj_1 in Hcm as [Hcm1 Hcm2]; [|rewrite length_read, Htp; done].
    rewrite Eqd. unfold content, message_ok. cbn [length padding bytes buffer].
    split; [|rewrite <-Hcm1; f_equal; lia]. split; [exact Hcm2|]. split; [split_and!; lia || done|].
    split; [lia|]. split; [lia|]. split; [lia|]. exact Hfm. }
  destruct Hcase as [[En ->]|(En & -> & Eher)].
  - cbn [Z.ltb Z.compare]. rewrite En. rewrite orb_true_r.
    change (getSharedSecret (privateKey ctx) pub None) with shared. rewrite Em. cbn [mbind option_bind negb].
    rewrite Ed. cbn [mbind option_bind Z.eqb Pos.eqb]. rewrite Etk.
    cbn [hasBufferedMessage set_herPerminentPubKey set_isInitiator set_nextNonce set_tempKey set_user set_authenticatePackets].
    rewrite Hhb. cbn [andb]. exists d. split; [|exact Hd].
    unfold callReceivedMessage, after_receive. cbv zeta. cbn [Z.eqb Pos.eqb]. reflexivity.
  - cbn [Z.ltb Z.compare Pos.compare Pos.compare_cont]. rewrite Eher.
    rewrite (proj2 (memcmp_0 pub pub eq_refl) eq_refl). cbn [Z.eqb negb].
    change (getSharedSecret (secret w) pub None) with shared. rewrite Em. cbn [mbind option_bind negb].
    rewrite Ed. cbn [mbind option_bind Z.eqb Pos.eqb]. rewrite Etk.
    cbn [hasBufferedMessage set_herPerminentPubKey set_isInitiator set_nextNonce set_tempKey set_user set_authenticatePackets].
    rewrite Hhb. cbn [andb]. exists d. split; [|exact Hd].
    unfold callReceivedMessage, after_receive. cbv zeta. cbn [Z.eqb Pos.eqb]. reflexivity.
Qed.

(** The first data packet from the other end finishes the handshake. *)
Lemma receive_final ctx now w q r nonce plain :
  message_ok q -> 16 <= padding q -> bytes_ok plain ->
  0 <= w.(nextNonce) < 5 -> 3 < nonce < UINT32_MAX -> knowHerKey w = true -> fresh w nonce = true ->
  let s := crypto_box_beforenm w.(tempKey) w.(secret) in
  content q = be_split 4 nonce ++ protect w.(authenticatePackets) (nonceAs (negb w.(isInitiator)) nonce) s plain ->
  exists w' d, receiveMessage ctx now q w r = Some (w', r, [Deliver d], FromCallee) /\ content d = plain
    /\ w'.(secret) = s /\ w'.(nextNonce) = w.(nextNonce) + 3 /\ w'.(isInitiator) = w.(isInitiator)
    /\ w'.(authenticatePackets) = w.(authenticatePackets).
Proof.
  intros Hok Hpad Hb Hn Hnonce Hk Hf s Hc. unfold UINT32_MAX in Hnonce.
  destruct (receive_split q nonce _ Hok ltac:(lia) Hc) as (Hlq & Hload & q4 & Hshift & Hok4 & Hc4 & Hp4 & _).
  rewrite protect_length in Hlq. unfold receiveMessage. rewrite Hload, Hshift. cbn [mbind option_bind].
  destruct (Z.ltb_spec (length q) (if authenticatePackets w then 20 else 4)).
  { destruct (authenticatePackets w); lia. }
  destruct (Z.ltb_spec (nextNonce w) 5); [|lia]. destruct (Z.ltb_spec 3 nonce); [|lia].
  unfold UINT32_MAX. destruct (Z.eqb_spec nonce 4294967295); [lia|]. rewrite Hk. cbn [andb negb].
  change (getSharedSecret (secret w) (tempKey w) None) with s.
  destruct (decryptMessage_spec (set_nextNonce w (nextNonce w + 3)) nonce q4 s plain Hok4 ltac:(lia) Hb Hc4)
    as (w1 & d & -> & Hd & Hw1). cbn [mbind option_bind].
  change (fresh (set_nextNonce w (nextNonce w + 3)) nonce) with (fresh w nonce). rewrite Hf.
  unfold callReceivedMessage. eexists _, d. split; [done|]. split; [done|].
  rewrite Hw1. cbn [authenticatePackets set_nextNonce].
  destruct (authenticatePackets w) eqn:Ea; cbn; rewrite ?Ea; done.
Qed.
End handshake.

(** ** The wrappers through a handshake *)
Section stages.
  Context {P : Platform} {N : NaCl} {R : RandomSource}.

(** The initiator after its hello, the responder after receiving it, the
    responder after its key packet, the initiator after receiving that. *)
Record sent_hello (now : Z) (auth : bool) (her temp : list Z) (w : Wrapper) : Prop := {
  sh_plain : plain_wrapper w; sh_time : w.(timeOfLastPacket) = u32 now; sh_nonce : w.(nextNonce) = 1;
  sh_role : w.(isInitiator) = true; sh_secret : w.(secret) = temp; sh_her : w.(herPerminentPubKey) = her;
  sh_auth : w.(authenticatePackets) = auth
}.
Record got_hello (now : Z) (auth : bool) (her tpub : list Z) (w : Wrapper) : Prop := {
  gh_plain : plain_wrapper w; gh_time : w.(timeOfLastPacket) = u32 now; gh_nonce : w.(nextNonce) = 2;
  gh_role : w.(isInitiator) = false; gh_temp : w.(tempKey) = tpub; gh_her : w.(herPerminentPubKey) = her;
  gh_auth : w.(authenticatePackets) = auth; gh_replay : w.(replayProtector) = ReplayProtector_new
}.
Record sent_key (auth : bool) (her tpub temp : list Z) (w : Wrapper) : Prop := {
  sk_nonce : w.(nextNonce) = 3; sk_role : w.(isInitiator) = false; sk_temp : w.(tempKey) = tpub;
  sk_secret : w.(secret) = temp; sk_her : w.(herPerminentPubKey) = her;
  sk_auth : w.(authenticatePackets) = auth; sk_replay : w.(replayProtector) = ReplayProtector_new
}.
Record got_key (now : Z) (auth : bool) (tpub temp : list Z) (w : Wrapper) : Prop := {
  gk_time : w.(timeOfLastPacket) = u32 now; gk_nonce : w.(nextNonce) = 4; gk_role : w.(isInitiator) = true;
  gk_temp : w.(tempKey) = tpub; gk_secret : w.(secret) = temp; gk_auth : w.(authenticatePackets) = auth
}.

Lemma wrap_sends_hello pad max her auth now temp :
  sent_hello now auth her temp (after_send (CryptoAuth_wrapInterface pad max (Some her) false auth now) temp).
Proof. split; done. Qed.

Lemma wrap_gets_hello pad max auth now flag pub tpub :
  got_hello now (auth || flag) pub tpub
    (after_receive now (CryptoAuth_wrapInterface pad max None false auth now) 0 flag pub tpub).
Proof. split; unfold after_receive; cbn; destruct (auth || flag) eqn:E; cbn; rewrite ?E; done. Qed.

Lemma sends_key now auth her tpub temp w :
  got_hello now auth her tpub w -> sent_key auth her tpub temp (after_send w temp).
Proof. intros [H1 H2 H3 H4 H5 H6 H7 H8]. unfold after_send. rewrite H3. split; done. Qed.

Lemma gets_key now auth flag her tpub temp w :
  sent_hello now auth her temp w -> got_key now (auth || flag) tpub temp (after_receive now w 2 flag her tpub).
Proof.
  intros [H1 H2 H3 H4 H5 H6 H7]. split; unfold after_receive; cbn; rewrite ?H7;
    destruct (auth || flag) eqn:E; cbn; rewrite ?E, ?H7, ?E; done.
Qed.

Lemma live_at ctx now w :
  0 <= now < 2 ^ 32 -> 0 <= ctx.(resetAfterInactivitySeconds) -> w.(timeOfLastPacket) = u32 now -> live ctx now w.
Proof. intros Hn Hr E. unfold live. rewrite E, u32_small, Z.sub_diag by lia. done. Qed.
End stages.

Section handshake_properties.
  Context {P : Platform} {N : NaCl} {L : NaClLaws N} {R : RandomSource} {RL : RandomLaws R}.

(** The permanent keys give both ends the same secret. *)
Lemma shared_perm ctxA ctxB : keys_ok ctxA -> keys_ok ctxB ->
  crypto_box_beforenm (publicKey ctxB) (privateKey ctxA) = crypto_box_beforenm (publicKey ctxA) (privateKey ctxB).
Proof.
  intros (HA & _ & ->) (HB & _ & ->). apply beforenm_agree; done.
Qed.

(** From the hello on: the key packet and the first data packet. *)
Lemma handshake_final ctxA ctxB now auth her a2 b2 ra1 rb2 m3 tA tB :
  0 <= now < 2 ^ 32 -> 0 <= ctxA.(resetAfterInactivitySeconds) ->
  Bits_isZero (of_list her) 0 32 = false -> message_ok m3 -> 36 <= padding m3 ->
  List.length tA = 32%nat -> List.length tB = 32%nat ->
  got_key now auth (crypto_scalarmult_curve25519_base tB) tA a2 ->
  sent_key auth her (crypto_scalarmult_curve25519_base tA) tB b2 ->
  exists a3 p3, sendMessage ctxA now m3 a2 ra1 = Some (a3, ra1, [SendWrapped p3], FromCallee)
  /\ forall q3, transmit p3 q3 ->
  exists b3 d3, receiveMessage ctxB now q3 b2 rb2 = Some (b3, rb2, [Deliver d3], FromCallee) /\ content d3 = content m3
  /\ linked a3 b3 /\ a3.(authenticatePackets) = auth.
Proof.
  intros Hnow HrA Hz Hm3 Hp3 HtA HtB [G1 G2 G3 G4 G5 G6] [S1 S2 S3 S4 S5 S6 S7].
  rewrite (sendMessage_live ctxA now m3 a2 ra1 (live_at ctxA now a2 Hnow HrA G1)), G2.
  cbn [Z.ltb Z.compare Pos.compare Pos.compare_cont getSharedSecret].
  set (s := crypto_box_beforenm (tempKey a2) (secret a2)).
  assert (crypto_box_beforenm (tempKey b2) (secret b2) = s) as Es.
  { unfold s. rewrite S3, S4, G4, G5. apply beforenm_agree; done. }
  destruct (encryptMessage_spec m3 (set_secret a2 s) ra1 Hm3 Hp3) as (p3 & E3 & Hok3 & _ & Hc3).
  { change (0 <= nextNonce a2 < 2 ^ 32). rewrite G2. lia. }
  change (nextNonce (set_secret a2 s)) with (nextNonce a2) in *.
  change (authenticatePackets (set_secret a2 s)) with (authenticatePackets a2) in *.
  change (isInitiator (set_secret a2 s)) with (isInitiator a2) in *.
  change (secret (set_secret a2 s)) with s in *. rewrite G2 in *. rewrite G3, G6 in Hc3.
  eexists _, p3. split; [exact E3|]. intros q3 (Hcq3 & Hokq3 & Hpq3). rewrite Hc3 in Hcq3.
  destruct (receive_final ctxB now b2 q3 rb2 4 (content m3) Hokq3 Hpq3) as (b3 & d3 & Er3 & Hd3 & Es3 & En3 & Ei3 & Ea3).
  - apply content_ok, Hm3.
  - rewrite S1. lia.
  - unfold UINT32_MAX. lia.
  - unfold knowHerKey. rewrite S5, Hz. done.
  - unfold fresh. rewrite S7. apply orb_true_r.
  - rewrite Es, S2, S6. exact Hcq3.
  - exists b3, d3. split; [exact Er3|]. split; [exact Hd3|]. split; [|exact G6]. rewrite Es in Es3.
    split; cbn [set_secret set_nextNonce secret isInitiator authenticatePackets nextNonce].
    + congruence.
    + rewrite Ei3, G3, S2. done.
    + congruence.
    + rewrite u32_small; lia.
    + rewrite En3, S1. lia.
Qed.

Lemma handshake_second ctxA ctxB now authA auth a1 b1 ra1 rb m2 m3 tA :
  keys_ok ctxA -> keys_ok ctxB -> 0 <= now < 2 ^ 32 ->
  0 <= ctxA.(resetAfterInactivitySeconds) -> 0 <= ctxB.(resetAfterInactivitySeconds) ->
  Bits_isZero (of_list ctxA.(publicKey)) 0 32 = false -> Bits_isZero (of_list ctxB.(publicKey)) 0 32 = false ->
  message_ok m2 -> message_ok m3 -> 120 <= padding m2 -> 36 <= padding m3 -> List.length tA = 32%nat ->
  authA || auth = auth -> sent_hello now authA ctxB.(publicKey) tA a1 ->
  got_hello now auth ctxA.(publicKey) (crypto_scalarmult_curve25519_base tA) b1 ->
  exists b2 rb2 p2, sendMessage ctxB now m2 b1 rb = Some (b2, rb2, [SendWrapped p2], FromCallee)
  /\ forall q2, transmit p2 q2 ->
  exists a2 d2, receiveMessage ctxA now q2 a1 ra1 = Some (a2, ra1, [Deliver d2], FromCallee) /\ content d2 = content m2
  /\ exists a3 p3, sendMessage ctxA now m3 a2 ra1 = Some (a3, ra1, [SendWrapped p3], FromCallee)
  /\ forall q3, transmit p3 q3 ->
  exists b3 d3, receiveMessage ctxB now q3 b2 rb2 = Some (b3, rb2, [Deliver d3], FromCallee) /\ content d3 = content m3
  /\ linked a3 b3 /\ a3.(authenticatePackets) = auth.
Proof.
  intros HkA HkB Hnow HrA HrB HzA HzB Hm2 Hm3 Hp2 Hp3 HtA Hmono F1 F2. pose proof F1 as [_ _ A3 _ A5 A6 _].
  pose proof F2 as [B1 B2 B3 _ B5 B6 B7 _].
  destruct (send_handshake ctxB now m2 b1 rb) as (p2 & rb2 & n2 & tB & E2 & Hok2 & HtB & _ & Hs2);
    [apply live_at; done|done|right; exact B3|unfold knowHerKey; rewrite B6, HzA; done|done..|].
  pose proof (sends_key _ _ _ _ tB b1 F2) as F3.
  revert E2 F3. generalize (after_send b1 tB) as b2. intros b2 E2 F3.
  exists b2, rb2, p2. split; [exact E2|]. intros q2 Ht2. rewrite B3, B7, B5 in Hs2.
  pose proof (base_length tB HtB) as HtpB. set (tpB := crypto_scalarmult_curve25519_base tB) in *.
  change (2 =? 0) with false in Hs2. cbv iota in Hs2.
  assert (crypto_box_beforenm (crypto_scalarmult_curve25519_base tA) (privateKey ctxB)
          = crypto_box_beforenm (publicKey ctxB) (secret a1)) as Ex.
  { rewrite A5, (proj2 (proj2 HkB)). apply beforenm_agree; [exact HtA|apply HkB]. }
  rewrite Ex in Hs2. apply (hs_transmit p2 q2) in Hs2; [|destruct Hok2; lia|exact Ht2].
  destruct Ht2 as (_ & Hokq2 & Hpq2).
  destruct (receive_handshake ctxA now a1 q2 ra1 2 auth n2 (publicKey ctxB) tpB (content m2))
    as (d2 & Er2 & Hc2 & _); [apply F1|done|done|done|right; done|exact Hs2|].
  pose proof (gets_key now authA auth ctxB.(publicKey) tpB tA a1 F1) as F4. rewrite Hmono in F4.
  revert Er2 F4. generalize (after_receive now a1 2 auth (publicKey ctxB) tpB) as a2. intros a2 Er2 F4.
  exists a2, d2. split; [exact Er2|]. split; [exact Hc2|].
  apply (handshake_final ctxA ctxB now auth ctxA.(publicKey) a2 b2 ra1 rb2 m3 tA tB); done.
Qed.

(** C1: the handshake. A node that knows its peer's key and a peer that knows
    nothing, with any choice of packet authentication on either side, complete
    a handshake in three messages: the hello and the key packet carry their
    content along, the first data packet arrives too, and then the two ends are
    linked: same secret, opposite roles, the same decision to authenticate
    packets (which both make if one of them asks for it). *)
Theorem CryptoAuth_handshake ctxA ctxB now authA authB padA maxA padB maxB ra rb m1 m2 m3 :
  keys_ok ctxA -> keys_ok ctxB -> 0 <= now < 2 ^ 32 ->
  0 <= ctxA.(resetAfterInactivitySeconds) -> 0 <= ctxB.(resetAfterInactivitySeconds) ->
  Bits_isZero (of_list ctxA.(publicKey)) 0 32 = false -> Bits_isZero (of_list ctxB.(publicKey)) 0 32 = false ->
  message_ok m1 -> message_ok m2 -> message_ok m3 ->
  120 <= padding m1 -> 120 <= padding m2 -> 36 <= padding m3 ->
  let a := CryptoAuth_wrapInterface padA maxA (Some ctxB.(publicKey)) false authA now in
  let b := CryptoAuth_wrapInterface padB maxB None false authB now in
  exists a1 ra1 p1, sendMessage ctxA now m1 a ra = Some (a1, ra1, [SendWrapped p1], FromCallee)
  /\ forall q1, transmit p1 q1 ->
  exists b1 d1, receiveMessage ctxB now q1 b rb = Some (b1, rb, [Deliver d1], FromCallee) /\ content d1 = content m1
  /\ exists b2 rb2 p2, sendMessage ctxB now m2 b1 rb = Some (b2, rb2, [SendWrapped p2], FromCallee)
  /\ forall q2, transmit p2 q2 ->
  exists a2 d2, receiveMessage ctxA now q2 a1 ra1 = Some (a2, ra1, [Deliver d2], FromCallee) /\ content d2 = content m2
  /\ exists a3 p3, sendMessage ctxA now m3 a2 ra1 = Some (a3, ra1, [SendWrapped p3], FromCallee)
  /\ forall q3, transmit p3 q3 ->
  exists b3 d3, receiveMessage ctxB now q3 b2 rb2 = Some (b3, rb2, [Deliver d3], FromCallee) /\ content d3 = content m3
  /\ linked a3 b3 /\ a3.(authenticatePackets) = authA || authB.
Proof.
  intros HkA HkB Hnow HrA HrB HzA HzB Hm1 Hm2 Hm3 Hp1 Hp2 Hp3 a b.
  destruct (send_handshake ctxA now m1 a ra) as (p1 & ra1 & n1 & tA & E1 & Hok1 & HtA & _ & Hs1);
    [apply live_at; done|done|left; done|unfold knowHerKey; cbn; rewrite HzB; done|done..|].
  pose proof (wrap_sends_hello padA maxA ctxB.(publicKey) authA now tA) as F1. fold a in F1.
  revert E1 F1. generalize (after_send a tA) as a1. intros a1 E1 F1.
  exists a1, ra1, p1. split; [exact E1|]. intros q1 Ht1.
  pose proof (base_length tA HtA) as HtpA. set (tpA := crypto_scalarmult_curve25519_base tA) in *.
  change (hs_packet p1 0 authA n1 (publicKey ctxA) (seal n1 (crypto_box_beforenm (publicKey ctxB) (privateKey ctxA))
    (tpA ++ content m1))) in Hs1.
  rewrite (shared_perm ctxA ctxB HkA HkB) in Hs1.
  apply (hs_transmit p1 q1) in Hs1; [|destruct Hok1; lia|exact Ht1]. destruct Ht1 as (_ & Hokq1 & Hpq1).
  destruct (receive_handshake ctxB now b q1 rb 0 authA n1 (publicKey ctxA) tpA (content m1)) as (d1 & Er1 & Hc1 & _);
    [done|done|done|done|left; done|exact Hs1|].
  pose proof (wrap_gets_hello padB maxB authB now authA ctxA.(publicKey) tpA) as F2. fold b in F2.
  revert Er1 F2. generalize (after_receive now b 0 authA (publicKey ctxA) tpA) as b1. intros b1 Er1 F2.
  exists b1, d1. split; [exact Er1|]. split; [exact Hc1|].
  destruct (handshake_second ctxA ctxB now authA (authB || authA) a1 b1 ra1 rb m2 m3 tA HkA HkB Hnow HrA HrB HzA HzB
    Hm2 Hm3 Hp2 Hp3 HtA ltac:(destruct authA, authB; done) F1 F2) as (b2 & rb2 & p2 & E2 & Hrest).
  exists b2, rb2, p2. split; [exact E2|]. intros q2 Ht2.
  destruct (Hrest q2 Ht2) as (a2 & d2 & Er2 & Hc2 & a3 & p3 & E3 & Hrest3).
  exists a2, d2. split; [exact Er2|]. split; [exact Hc2|]. exists a3, p3. split; [exact E3|].
  intros q3 Ht3. destruct (Hrest3 q3 Ht3) as (b3 & d3 & Er3 & Hc3 & Hl & Ha).
  exists b3, d3. split; [exact Er3|]. split; [exact Hc3|]. split; [exact Hl|].
  rewrite Ha. destruct authA, authB; done.
Qed.
End handshake_properties.

(** ** Users and safety *)
Section user_properties.
  Context {P : Platform} {N : NaCl} {L : NaClLaws N} {R : RandomSource}.

(** C12: in an established session with packet authentication, a data packet is
    delivered only if NaCl authenticates it under the session's secret and the
    packet's nonce, and the replay window takes that nonce; what is delivered is
    what NaCl decrypted. Otherwise nothing is delivered or sent and, but for the
    replay window, the session does not change. *)
Theorem CryptoAuth_delivers_only_authentic ctx now w q r :
  w.(authenticatePackets) = true -> 5 <= w.(nextNonce) -> message_ok q ->
  let nonce := Endian_bigEndianToHost32 (load 4 (buffer q) (bytes q)) in
  4 < nonce ->
  match receiveMessage ctx now q w r with
  | None => padding q < 12
  | Some (w', r', events, _) => r' = r /\
      match events with
      | [Deliver d] => exists plain,
          crypto_box_open_afternm (repeat 0 16 ++ drop 4 (content q)) (nonceAs (negb w.(isInitiator)) nonce) w.(secret)
          = Some plain /\ content d = drop 32 plain
          /\ fst (ReplayProtector_checkNonce nonce w.(replayProtector)) = true
      | _ => events = [] /\ w' = set_replayProtector w w'.(replayProtector)
      end
  end.
Proof.
  intros Ha Hn Hok nonce Hnonce. destruct Hok as (Hl & Hp & Ht & Hm).
  unfold receiveMessage, CryptoAuth_handshakeStage. rewrite Ha, Z.add_0_r. fold nonce.
  assert (forall x, set_replayProtector x x.(replayProtector) = x) as Heta by (intros []; done).
  destruct (Z.ltb_spec (length q) 20); [rewrite Heta; done|].
  change (-4) with (- (4)). rewrite shift_down by lia. cbn [mbind option_bind].
  destruct (Z.ltb_spec (nextNonce w) 5); [lia|]. destruct (Z.ltb_spec 4 nonce); [|lia].
  unfold decryptMessage. rewrite Ha. unfold decrypt, decryptRndNonce. cbn [length padding bytes buffer with_buffer].
  destruct (Z.ltb_spec (length q - 4) 16); [lia|]. destruct (Z.ltb_spec (padding q + 4) 16); [cbn; lia|].
  replace (length q - 4 + 16) with (16 + (length q - 4)) by lia. rewrite memset_read by lia.
  replace (bytes q + 4 - 16 + 16) with (bytes q + 4) by lia. change (Z.to_nat 16) with 16%nat.
  assert (read (buffer q) (bytes q + 4) (length q - 4) = drop 4 (content q)) as Er.
  { unfold content. rewrite (read_split _ _ (length q) 4) by lia.
    rewrite drop_app_length' by (rewrite length_read; done). done. }
  rewrite Er. destruct (crypto_box_open_afternm _ _ _) as [plain|] eqn:Eo; cbn [mbind option_bind negb].
  2: { split; [done|]. split; [done|]. rewrite Heta. done. }
  change (-16) with (- (16)). rewrite shift_down by (cbn; lia). cbn [mbind option_bind negb length padding bytes buffer].
  destruct (ReplayProtector_checkNonce nonce _) as [ok rp] eqn:Ec. destruct ok; [|split; done].
  unfold callReceivedMessage. split; [done|]. exists plain. split; [done|]. split; [|done].
  pose proof (open_length _ _ _ _ Eo) as Hpl. rewrite length_app, repeat_length, length_drop in Hpl.
  pose proof (content_length q ltac:(lia)) as Hcl.
  unfold content. cbn [length bytes buffer with_buffer]. rewrite read_write_disj by (rewrite length_read; lia).
  rewrite read_write_sub by lia. rewrite take_ge by (rewrite length_drop; lia). f_equal. lia.
Qed.

Lemma removeUsers_skip fuel ctx uid i count :
  (forall j, i <= j < ctx.(passwordCount) -> (ctx.(passwords) j).(auth_user) <> uid) ->
  removeUsers_loop fuel ctx uid i count = (ctx, count).
Proof.
  revert i. induction fuel as [|fuel IH]; intros i H; cbn [removeUsers_loop]; [done|].
  destruct (Z.ltb_spec i (passwordCount ctx)); [|done].
  destruct (Z.eqb_spec (auth_user (passwords ctx i)) uid) as [E|]; [destruct (H i ltac:(lia) E)|].
  apply IH. intros j Hj. apply H. lia.
Qed.

Lemma removeUsers_reach k ctx uid i fuel count :
  (forall j, i <= j < i + Z.of_nat k -> (ctx.(passwords) j).(auth_user) <> uid) ->
  i + Z.of_nat k <= ctx.(passwordCount) ->
  removeUsers_loop (k + fuel) ctx uid i count = removeUsers_loop fuel ctx uid (i + Z.of_nat k) count.
Proof.
  revert i. induction k as [|k IH]; intros i H Hle; [rewrite Z.add_0_r; done|].
  cbn [Nat.add removeUsers_loop]. destruct (Z.ltb_spec i (passwordCount ctx)); [|lia].
  destruct (Z.eqb_spec (auth_user (passwords ctx i)) uid) as [E|]; [destruct (H i ltac:(lia) E)|].
  rewrite IH; [f_equal; lia|intros j Hj; apply H; lia|lia].
Qed.

(** Removing a user loses another one. When exactly one password belongs to
    the user, the table gets one entry shorter, but the entry put in its place
    is the one behind the last ([passwordCount--] after the copy), so the last
    password is no longer in the table unless it was the one to remove. *)
Theorem CryptoAuth_removeUsers_loses_last ctx uid i :
  uid <> 0 -> 0 <= i < ctx.(passwordCount) -> (ctx.(passwords) i).(auth_user) = uid ->
  (forall j, 0 <= j <= ctx.(passwordCount) -> j <> i -> (ctx.(passwords) j).(auth_user) <> uid) ->
  let '(ctx', count) := CryptoAuth_removeUsers ctx uid in
  count = 1 /\ ctx'.(passwordCount) = ctx.(passwordCount) - 1
  /\ ctx'.(passwords) i = ctx.(passwords) ctx.(passwordCount)
  /\ forall j, j <> i -> ctx'.(passwords) j = ctx.(passwords) j.
Proof.
  intros Hu Hi Ei Hother. unfold CryptoAuth_removeUsers. destruct (Z.eqb_spec uid 0) as [|_]; [done|].
  set (n := passwordCount ctx) in *.
  replace (Z.to_nat n) with (Z.to_nat i + S (Z.to_nat (n - 1 - i)))%nat by lia.
  rewrite removeUsers_reach by (fold n; try (intros j Hj; apply Hother); lia).
  rewrite Z2Nat.id, Z.add_0_l by lia. cbn [removeUsers_loop]. fold n.
  destruct (Z.ltb_spec i n); [|lia]. destruct (Z.eqb_spec (auth_user (passwords ctx i)) uid); [|done].
  rewrite removeUsers_skip.
  - split; [done|]. split; [done|]. unfold set_passwords, set_entry. cbn [passwords]. split.
    + rewrite Z.eqb_refl. done.
    + intros j Hj. destruct (Z.eqb_spec j i); done.
  - unfold set_passwords, set_entry. cbn [passwords passwordCount]. intros j Hj.
    destruct (Z.eqb_spec j i) as [->|]; apply Hother; lia.
Qed.

(** A password that was added authenticates: any handshake header that
    carries the lookup bytes of its hash is recognised, and if no earlier entry
    has the same lookup bytes it is recognised as this password, with the user
    it was added for. *)
Theorem CryptoAuth_addUser_getAuth ctx ctx' password uid m a :
  0 <= ctx.(passwordCount) -> (forall i, List.length (ctx.(passwords) i).(challenge) = 12%nat) ->
  CryptoAuth_addUser password 1 uid ctx = (ctx', 0) ->
  let entry := hashPassword_sha256 password in
  m a = 1 -> read m a 8 = take 8 entry.(challenge) ->
  exists found, getAuth m a ctx' = Some found /\ take 8 found.(challenge) = take 8 entry.(challenge)
    /\ ((forall i, 0 <= i < ctx.(passwordCount) -> take 8 (ctx.(passwords) i).(challenge) <> take 8 entry.(challenge)) ->
        found.(auth_secret) = crypto_hash_sha256 password /\ found.(auth_user) = uid).
Proof.
  intros Hn0 Hlen Hadd entry Hm Hread. unfold CryptoAuth_addUser in Hadd. cbn [Z.eqb Pos.eqb negb] in Hadd.
  destruct (_ =? _); [done|]. destruct (for_until _ _ _ _); [|done]. injection Hadd as <-.
  unfold getAuth, AuthChallenge_type, Headers_AuthChallenge_KEYSIZE. rewrite Z.add_0_r, Hm. cbn [Z.eqb Pos.eqb negb].
  cbn [passwordCount passwords set_passwords]. change (Z.to_nat 8) with 8%nat.
  fold entry. set (e := {| challenge := challenge entry; auth_secret := auth_secret entry; auth_user := uid |}).
  set (table := set_entry (passwords ctx) (passwordCount ctx) e).
  pose proof (search_spec (Z.to_nat (passwordCount ctx + 1)) 0
    (fun i => Bits_memcmp (read m a 8) (take 8 (challenge (table i))) =? 0) table) as Hs. cbv beta in Hs.
  assert (List.length (challenge entry) = 12%nat) as Hle by (unfold entry, hashPassword_sha256; cbn [challenge]; rewrite length_read; done).
  assert (forall i, (Bits_memcmp (read m a 8) (take 8 (challenge (table i))) =? 0) = true
    <-> take 8 (challenge (table i)) = take 8 (challenge entry)) as Hcmp.
  { intros i. rewrite Z.eqb_eq, memcmp_0, Hread; [done|]. rewrite length_read, length_take.
    unfold table, set_entry. destruct (i =? passwordCount ctx); cbn [challenge e]; rewrite ?Hle, ?Hlen; done. }
  assert (table (passwordCount ctx) = e) as Hlast by (unfold table, set_entry; rewrite Z.eqb_refl; done).
  destruct (for_until _ _ _ _) as [|found].
  - specialize (Hs (passwordCount ctx) ltac:(lia)). apply not_true_iff_false in Hs. destruct Hs.
    apply Hcmp. rewrite Hlast. done.
  - destruct Hs as (i & Hi & Hp & -> & Hlow). exists (table i). split; [done|].
    apply Hcmp in Hp. split; [exact Hp|]. intros Hnew.
    assert (i = passwordCount ctx) as ->; [|rewrite Hlast; done].
    destruct (decide (i = passwordCount ctx)); [done|]. destruct (Hnew i ltac:(lia)).
    unfold table, set_entry in Hp. destruct (Z.eqb_spec i (passwordCount ctx)); done.
Qed.
End user_properties.

Section padding_property.
  Context {P : Platform} {N : NaCl} {R : RandomSource}.

(** The padding a session asks its user for is the wrong way round: during
    the handshake (below 4) it announces the 36 bytes of a data packet, and a
    message with exactly that padding makes the next handshake packet abort the
    program, for want of the 120 bytes of its header. *)
Theorem CryptoAuth_announced_padding_aborts ctx now w msg r :
  2 <= w.(nextNonce) < 4 -> live ctx now w -> 0 <= w.(wrappedRequiredPadding) < 84 ->
  padding msg = (setRequiredPadding w).(requiredPadding) ->
  (setRequiredPadding w).(requiredPadding) = w.(wrappedRequiredPadding) + 36
  /\ sendMessage ctx now msg w r = None.
Proof.
  intros Hn Hlive Hw Hp. assert ((setRequiredPadding w).(requiredPadding) = w.(wrappedRequiredPadding) + 36) as E.
  { unfold setRequiredPadding. destruct (Z.ltb_spec (nextNonce w) 4); [|lia]. apply u16_small. lia. }
  split; [exact E|]. rewrite (sendMessage_live ctx now msg w r Hlive).
  destruct (Z.ltb_spec (nextNonce w) 5); [|lia]. destruct (Z.ltb_spec (nextNonce w) 4); [|lia].
  assert (Message_shift msg Headers_CryptoAuth_SIZE = None) as Es.
  { unfold Message_shift. change Headers_CryptoAuth_SIZE with 120. destruct (Z.ltb_spec 0 120); [|lia].
    destruct (Z.leb_spec 120 (padding msg)); [lia|done]. }
  unfold encryptHandshake. rewrite Es. done.
Qed.
End padding_property.

(** ** Witnesses: the toy primitives on x86 *)
Definition demo_context (key : Z) : Context :=
  fst (CryptoAuth_new (Some (repeat key 32)) (0 : @Rand toy_random)).
Definition demo_message : Message :=
  {| length := 3; padding := 200; bytes := 0; buffer := of_list [1; 2; 3] |}.

Lemma demo_message_ok : message_ok demo_message.
Proof.
  unfold message_ok. split_and!; try done. apply of_list_ok. repeat constructor; unfold is_byte; lia.
Qed.

Lemma demo_keys key : is_byte key -> keys_ok (demo_context key).
Proof.
  intros Hk. split; [done|]. split; [|done]. change (bytes_ok (repeat key 32)). apply List.Forall_forall. intros x ->%repeat_spec. exact Hk.
Qed.

Definition demo_end (init : bool) : Wrapper :=
  set_nextNonce (set_isInitiator (CryptoAuth_wrapInterface 0 1500 None false true 100) init) 7.

Lemma CryptoAuth_data_delivered_witness :
  exists a' p, @sendMessage x86 toy_nacl toy_random (demo_context 1) 100 demo_message (demo_end true) 0
    = Some (a', 0, [SendWrapped p], FromCallee).
Proof.
  destruct (@CryptoAuth_data_delivered x86 toy_nacl toy_laws toy_random (demo_context 1) (demo_context 2) 100 100
    (demo_end true) (demo_end false) 0 0 demo_message) as (a' & p & H & _).
  - split; done.
  - reflexivity.
  - vm_compute. discriminate.
  - apply demo_message_ok.
  - by vm_compute.
  - exists a', p. exact H.
Defined.

Lemma CryptoAuth_handshake_witness :
  exists a1 ra1 p1, @sendMessage x86 toy_nacl toy_random (demo_context 1) 100 demo_message
    (CryptoAuth_wrapInterface 0 1500 (Some (demo_context 2).(publicKey)) false false 100) 0
    = Some (a1, ra1, [SendWrapped p1], FromCallee).
Proof.
  destruct (@CryptoAuth_handshake x86 toy_nacl toy_laws toy_random toy_random_laws (demo_context 1) (demo_context 2)
    100 false true 0 1500 0 1500 0 0 demo_message demo_message demo_message) as (a1 & ra1 & p1 & H & _).
  - apply demo_keys. unfold is_byte. lia.
  - apply demo_keys. unfold is_byte. lia.
  - lia.
  - by vm_compute.
  - by vm_compute.
  - reflexivity.
  - reflexivity.
  - apply demo_message_ok.
  - apply demo_message_ok.
  - apply demo_message_ok.
  - by vm_compute.
  - by vm_compute.
  - by vm_compute.
  - exists a1, ra1, p1. exact H.
Defined.

(** A packet sealed by the other end. *)
Definition demo_packet : Message :=
  {| length := 23; padding := 40; bytes := 0;
     buffer := of_list ([0; 0; 0; 9] ++ repeat 0 16 ++ [1; 2; 3]) |}.

Lemma CryptoAuth_delivers_only_authentic_witness :
  match @receiveMessage x86 toy_nacl toy_random (demo_context 1) 100 demo_packet (demo_end true) 0 with
  | Some (w', r', [Deliver d], _) =>
      exists plain, @crypto_box_open_afternm toy_nacl (repeat 0 16 ++ drop 4 (content demo_packet))
        (@nonceAs x86 false 9) (repeat 0 32) = Some plain /\ content d = drop 32 plain
  | _ => False
  end.
Proof.
  assert (message_ok demo_packet) as Hok.
  { unfold message_ok. split_and!; try done. apply of_list_ok. repeat constructor; unfold is_byte; lia. }
  pose proof (@CryptoAuth_delivers_only_authentic x86 toy_nacl toy_laws toy_random (demo_context 1) 100
    (demo_end true) demo_packet 0 eq_refl ltac:(by vm_compute) Hok ltac:(by vm_compute)) as H.
  assert (exists w' d rt, @receiveMessage x86 toy_nacl toy_random (demo_context 1) 100 demo_packet (demo_end true) 0
    = Some (w', 0, [Deliver d], rt)) as (w' & d & rt & E) by (do 3 eexists; vm_compute; reflexivity).
  rewrite E in *. destruct H as (_ & plain & H1 & H2 & _). exists plain. split; [exact H1|exact H2].
Defined.

Lemma CryptoAuth_removeUsers_loses_last_witness :
  let ctx := fst (@CryptoAuth_addUser x86 toy_nacl (chars "two") 1 22 (fst (@CryptoAuth_addUser x86 toy_nacl (chars "one") 1 11 (demo_context 1)))) in
  ctx.(passwordCount) = 2 /\ (ctx.(passwords) 1).(auth_user) = 22
  /\ (fst (CryptoAuth_removeUsers ctx 11)).(passwordCount) = 1
  /\ (fst (CryptoAuth_removeUsers ctx 11)).(passwords) 0 = zero_auth.
Proof.
  intros ctx. pose proof (CryptoAuth_removeUsers_loses_last ctx 11 0) as H.
  assert (CryptoAuth_removeUsers ctx 11 = (fst (CryptoAuth_removeUsers ctx 11), snd (CryptoAuth_removeUsers ctx 11))) as E
    by (destruct (CryptoAuth_removeUsers ctx 11); done).
  rewrite E in H. destruct H as (_ & H1 & H2 & _).
  - done.
  - vm_compute. split; [discriminate|reflexivity].
  - reflexivity.
  - intros j Hj Hne. assert (j = 1 \/ j = 2) as [-> | ->] by (change (passwordCount ctx) with 2 in Hj; lia); vm_compute; discriminate.
  - split; [reflexivity|]. split; [reflexivity|]. split; [exact H1|exact H2].
Defined.

Lemma CryptoAuth_addUser_getAuth_witness :
  let ctx' := fst (@CryptoAuth_addUser x86 toy_nacl (chars "one") 1 11 (demo_context 1)) in
  let m := of_list (@hashPassword_sha256 x86 toy_nacl (chars "one")).(challenge) in
  exists found, getAuth m 0 ctx' = Some found.
Proof.
  intros ctx' m. destruct (@CryptoAuth_addUser_getAuth x86 toy_nacl (demo_context 1) ctx' (chars "one") 11 m 0)
    as (found & H & _).
  - by vm_compute.
  - done.
  - reflexivity.
  - reflexivity.
  - reflexivity.
  - exists found. exact H.
Defined.

Lemma CryptoAuth_announced_padding_aborts_witness :
  let w := set_nextNonce (demo_end false) 2 in
  let msg := {| length := 3; padding := 36; bytes := 0; buffer := of_list [1; 2; 3] |} in
  @sendMessage x86 toy_nacl toy_random (demo_context 1) 100 msg w 0 = None.
Proof.
  intros w msg. apply (@CryptoAuth_announced_padding_aborts x86 toy_nacl toy_random (demo_context 1) 100 w msg 0).
  - by vm_compute.
  - vm_compute. discriminate.
  - by vm_compute.
  - reflexivity.
Defined.
