(* ===== verification/Benc.v ===== *)
(** * Bencoded objects (benc/Object.h, String.c, List.c, Dict.c)

    The tree of integers, strings, lists and dictionaries which the daemon's
    messages and its configuration are made of. A String is the list of its
    [len] bytes (the NUL the code keeps behind them is not part of it); lists
    and dictionaries are the chains of their entries, first entry first. A
    [NULL] pointer the code tests for is [None]; an entry's own key and value are
    never NULL here. Allocation never fails: Allocator aborts the process then.

    A dictionary kept by [Dict_put*] is sorted by String_compare and implements
    a finite map from keys to objects. *)
From Stdlib Require Import Sorting.Sorted.
From stdpp Require Import gmap.
From S2P Require Import Prelude Memory Bits.
Open Scope Z_scope.

(** ** Strings *)
Definition String : Type := list Z.

(** Objects. *)
#[warnings="-register-all"]
Inductive Object : Type :=
  | Object_INTEGER (number : Z)
  | Object_STRING (string : String)
  | Object_LIST (elements : list Object)
  | Object_DICT (dictionary : list (String * Object))
  | Object_UNPARSABLE.

Definition List : Type := list Object.
Definition Dict : Type := list (String * Object).

(** [bytes = None] is the NULL pointer: a string of NULs is made. *)
Definition String_newBinary (bytes : option mem) (length : Z) : String :=
  match bytes with
  | Some bytes => read bytes 0 length
  | None => repeat 0 (Z.to_nat length)
  end.

Section strings.
  Context {P : Platform}.

(** A byte as the [char] the comparison subtracts. *)
Definition as_char (b : Z) : Z :=
  if char_is_signed then (if b <? 128 then b else b - 256) else b.

(** The loop of [String_compare]; [lens] is what it returns after the loop. *)
Fixpoint compare_loop (a b : String) (lens : Z) : Z :=
  match a, b with
  | x :: a', y :: b' =>
      let d := as_char x - as_char y in
      if negb (d =? 0) then d else compare_loop a' b' lens
  | _, _ => lens
  end.

Definition String_compare (a b : option String) : Z :=
  match a, b with
  | Some a, Some b =>
      compare_loop a b (s32 (u64 (Z.of_nat (length a) - Z.of_nat (length b))))
  | None, None => 0
  | None, Some _ => 1
  | Some _, None => -1
  end.

Definition String_equals (a b : option String) : bool :=
  match a, b with
  | Some a, Some b => (length a =? length b)%nat && (Bits_memcmp a b =? 0)
  | None, None => true
  | _, _ => false
  end.

(** ** Dictionaries *)
Definition Dict_new : Dict := [].

Definition Dict_size (dictionary : option Dict) : Z :=
  match dictionary with
  | Some d => s32 (Z.of_nat (length d))
  | None => -1
  end.

Fixpoint lookup_loop (curr : Dict) (key : String) : option Object :=
  match curr with
  | [] => None
  | (k, val) :: next => if String_equals (Some key) (Some k) then Some val else lookup_loop next key
  end.

Definition lookupObject (dictionary : option Dict) (key : option String) : option Object :=
  match dictionary, key with
  | Some dictionary, Some key => lookup_loop dictionary key
  | _, _ => None
  end.

Definition Dict_getInt (dictionary : option Dict) (key : option String) : option Z :=
  match lookupObject dictionary key with Some (Object_INTEGER number) => Some number | _ => None end.
Definition Dict_getString (dictionary : option Dict) (key : option String) : option String :=
  match lookupObject dictionary key with Some (Object_STRING string) => Some string | _ => None end.
Definition Dict_getDict (dictionary : option Dict) (key : option String) : option Dict :=
  match lookupObject dictionary key with Some (Object_DICT d) => Some d | _ => None end.
Definition Dict_getList (dictionary : option Dict) (key : option String) : option List :=
  match lookupObject dictionary key with Some (Object_LIST l) => Some l | _ => None end.

(** The dictionary after the put, and the displaced object. *)
Fixpoint putObject (dictionary : Dict) (key : String) (value : Object) : Dict * option Object :=
  match dictionary with
  | [] => ([(key, value)], None)
  | (k, val) :: next =>
      let cmp := String_compare (Some key) (Some k) in
      if cmp <? 0 then ((key, value) :: (k, val) :: next, None)
      else if cmp =? 0 then ((k, value) :: next, Some val)
      else let '(next', out) := putObject next key value in ((k, val) :: next', out)
  end.

Definition Dict_putInt (dictionary : Dict) (key : String) (value : Z) : Dict * option Object :=
  putObject dictionary key (Object_INTEGER value).

Definition Dict_putString (dictionary : Dict) (key value : option String) : Dict * option Object :=
  match key, value with
  | Some key, Some value => putObject dictionary key (Object_STRING value)
  | _, _ => (dictionary, None)
  end.
Definition Dict_putList (dictionary : Dict) (key : option String) (value : option List)
    : Dict * option Object :=
  match key, value with
  | Some key, Some value => putObject dictionary key (Object_LIST value)
  | _, _ => (dictionary, None)
  end.
Definition Dict_putDict (dictionary : Dict) (key : option String) (value : option Dict)
    : Dict * option Object :=
  match key, value with
  | Some key, Some value => putObject dictionary key (Object_DICT value)
  | _, _ => (dictionary, None)
  end.

Fixpoint Dict_remove (dictionary : Dict) (key : String) : Dict * Z :=
  match dictionary with
  | [] => ([], 0)
  | (k, val) :: next =>
      if String_equals (Some key) (Some k) then (next, 1)
      else let '(next', r) := Dict_remove next key in ((k, val) :: next', r)
  end.
End strings.

(** ** Lists *)
Definition List_size (list : option List) : Z :=
  match list with
  | Some l => s32 (Z.of_nat (length l))
  | None => -1
  end.

(** A new entry goes to the head of the list. *)
Definition addObject (list : option List) (item : Object) : List :=
  match list with
  | None => [item]
  | Some l => item :: l
  end.
Definition List_addInt (list : option List) (toAdd : Z) : List := addObject list (Object_INTEGER toAdd).
Definition List_addString (list : option List) (toAdd : String) : List := addObject list (Object_STRING toAdd).
Definition List_addDict (list : option List) (toAdd : Dict) : List := addObject list (Object_DICT toAdd).
Definition List_addList (list : option List) (toAdd : List) : List := addObject list (Object_LIST toAdd).

Fixpoint getObject_loop (entry : List) (i index : Z) : option Object :=
  match entry with
  | [] => None
  | elem :: next => if i =? index then Some elem else getObject_loop next (u32 (i + 1)) index
  end.
Definition getObject (list : option List) (index : Z) : option Object :=
  match list with
  | Some l => getObject_loop l 0 index
  | None => None
  end.

Definition List_getInt (list : option List) (index : Z) : option Z :=
  match getObject list index with Some (Object_INTEGER number) => Some number | _ => None end.
Definition List_getString (list : option List) (index : Z) : option String :=
  match getObject list index with Some (Object_STRING string) => Some string | _ => None end.
Definition List_getDict (list : option List) (index : Z) : option Dict :=
  match getObject list index with Some (Object_DICT d) => Some d | _ => None end.
Definition List_getList (list : option List) (index : Z) : option List :=
  match getObject list index with Some (Object_LIST l) => Some l | _ => None end.

(** ** The order of keys *)
Section order.
  Context {P : Platform}.

(** A key the properties speak about: bytes, fewer than 2^31 of them (the
    difference of two lengths is returned as an [int]). *)
Definition key_ok (k : String) : Prop := bytes_ok k /\ Z.of_nat (length k) < 2 ^ 31.

Definition precedes (e1 e2 : String * Object) : Prop := String_compare (Some e1.1) (Some e2.1) < 0.

Lemma as_char_inj x y : is_byte x -> is_byte y -> as_char x = as_char y -> x = y.
Proof.
  unfold is_byte, as_char. intros Hx Hy. destruct char_is_signed; [|done].
  destruct (Z.ltb_spec x 128), (Z.ltb_spec y 128); lia.
Qed.

(** The order without widths: lexicographic on [char]s, a prefix first. *)
Fixpoint lex (a b : String) : Z :=
  match a, b with
  | [], [] => 0
  | [], _ :: _ => -1
  | _ :: _, [] => 1
  | x :: a', y :: b' => if as_char x =? as_char y then lex a' b' else as_char x - as_char y
  end.

Lemma compare_loop_sgn a b lens :
  Z.sgn lens = Z.sgn (Z.of_nat (length a) - Z.of_nat (length b)) ->
  Z.sgn (compare_loop a b lens) = Z.sgn (lex a b).
Proof.
  revert b. induction a as [|x a IH]; intros [|y b] H; cbn [compare_loop lex length] in *; try lia.
  destruct (Z.eqb_spec (as_char x - as_char y) 0), (Z.eqb_spec (as_char x) (as_char y)); cbn [negb]; try lia.
  apply IH. lia.
Qed.

Lemma s32_u64 z : - 2 ^ 31 <= z < 2 ^ 31 -> s32 (u64 z) = z.
Proof.
  intros Hz. destruct (Z.ltb_spec z 0).
  - replace (u64 z) with (z + 2 ^ 64).
    + unfold s32. replace (z + 2 ^ 64 + 2 ^ 31) with (z + 2 ^ 31 + 2 ^ 32 * 2 ^ 32) by lia.
      rewrite Z.mod_add by lia. rewrite Z.mod_small by lia. lia.
    + unfold u64. rewrite <-(Z.mod_add z 1) by lia. rewrite Z.mod_small by lia. lia.
  - rewrite u64_small by lia. apply s32_small. lia.
Qed.

Lemma compare_sgn a b : key_ok a -> key_ok b ->
  Z.sgn (String_compare (Some a) (Some b)) = Z.sgn (lex a b).
Proof.
  intros [_ La] [_ Lb]. apply compare_loop_sgn. rewrite s32_u64 by lia. done.
Qed.

Lemma lex_refl a : lex a a = 0.
Proof. induction a as [|x a IH]; cbn [lex]; [done|]. rewrite Z.eqb_refl. exact IH. Qed.

Lemma lex_eq a b : bytes_ok a -> bytes_ok b -> lex a b = 0 -> a = b.
Proof.
  intros Ha. revert b. induction Ha as [|x a Hx _ IH]; intros b Hb; destruct Hb as [|y b Hy Hb];
    cbn [lex]; try lia; [done|].
  destruct (Z.eqb_spec (as_char x) (as_char y)) as [E|]; [|lia].
  intros H. f_equal; [exact (as_char_inj x y Hx Hy E)|exact (IH b Hb H)].
Qed.

Lemma lex_antisym a b : Z.sgn (lex b a) = - Z.sgn (lex a b).
Proof.
  revert b. induction a as [|x a IH]; intros [|y b]; cbn [lex]; try done.
  destruct (Z.eqb_spec (as_char x) (as_char y)), (Z.eqb_spec (as_char y) (as_char x)); try lia.
  apply IH.
Qed.

Lemma lex_trans a b c : lex a b < 0 -> lex b c < 0 -> lex a c < 0.
Proof.
  revert b c. induction a as [|x a IH]; intros [|y b] [|z c]; cbn [lex]; try lia.
  destruct (Z.eqb_spec (as_char x) (as_char y)), (Z.eqb_spec (as_char y) (as_char z)),
    (Z.eqb_spec (as_char x) (as_char z)); try lia. apply IH.
Qed.

Lemma compare_eq a b : key_ok a -> key_ok b -> String_compare (Some a) (Some b) = 0 <-> a = b.
Proof.
  intros Ha Hb. pose proof (compare_sgn a b Ha Hb) as E. split.
  - intros H. apply lex_eq; [apply Ha|apply Hb|]. lia.
  - intros ->. rewrite lex_refl in E. lia.
Qed.

Lemma compare_lt a b : key_ok a -> key_ok b ->
  String_compare (Some a) (Some b) < 0 <-> lex a b < 0.
Proof. intros Ha Hb. pose proof (compare_sgn a b Ha Hb). lia. Qed.

Lemma String_equals_spec a b : String_equals (Some a) (Some b) = true <-> a = b.
Proof.
  cbn [String_equals]. rewrite andb_true_iff, Nat.eqb_eq, Z.eqb_eq. split.
  - intros [L E]. apply memcmp_0; done.
  - intros ->. split; [done|]. apply memcmp_0; done.
Qed.

Lemma String_equals_decide a b : String_equals (Some a) (Some b) = bool_decide (a = b).
Proof.
  destruct (String_equals (Some a) (Some b)) eqn:E; symmetry.
  - apply bool_decide_eq_true. apply String_equals_spec. exact E.
  - apply bool_decide_eq_false. intros H%String_equals_spec. congruence.
Qed.

(** ** Dictionaries as finite maps *)
Definition dict_map (d : Dict) : gmap String Object := list_to_map d.

(** What [Dict_put*] keeps: keys in strictly ascending order. *)
Definition dict_ok (d : Dict) : Prop :=
  StronglySorted precedes d /\ Forall (fun e => key_ok e.1) d.

Lemma lookup_loop_map d key : lookup_loop d key = dict_map d !! key.
Proof.
  induction d as [|[k v] d IH]; cbn [lookup_loop]; [done|].
  rewrite String_equals_decide. unfold dict_map. cbn [list_to_map foldr]. simpl.
  destruct (bool_decide_reflect (key = k)) as [->|Hne].
  - rewrite lookup_insert_eq. done.
  - rewrite lookup_insert_ne by done. exact IH.
Qed.

Lemma dict_ok_cons k v d :
  dict_ok ((k, v) :: d) <->
  key_ok k /\ dict_ok d /\ Forall (fun e => lex k e.1 < 0) d.
Proof.
  unfold dict_ok. split.
  - intros [Hs Hk]. inversion Hs as [|? ? Hs' Hp]; subst. inversion Hk as [|? ? Hk0 Hk']; subst.
    split; [done|]. split; [done|]. simpl in *. rewrite List.Forall_forall in *. intros e He.
    apply compare_lt; auto. apply (Hp e He).
  - intros (Hk0 & [Hs Hk] & Hp). split; [|constructor; done]. constructor; [done|].
    rewrite List.Forall_forall in *. intros e He. apply compare_lt; auto.
Qed.

(** Keys before the whole dictionary are not in it. *)
Lemma below_not_in key d : Forall (fun e => lex key e.1 < 0) d -> dict_map d !! key = None.
Proof.
  intros H. apply not_elem_of_list_to_map_1. intros Hin.
  apply list_elem_of_In, in_map_iff in Hin as ([k v] & <- & Hin).
  rewrite List.Forall_forall in H. specialize (H _ Hin). simpl in H. rewrite lex_refl in H. lia.
Qed.

Lemma putObject_keys k d key value :
  lex k key < 0 -> Forall (fun e => lex k e.1 < 0) d ->
  Forall (fun e => lex k e.1 < 0) (putObject d key value).1.
Proof.
  intros Hk Hd. induction Hd as [|[k' v'] d Hk' Hd IH]; cbn [putObject]; [repeat constructor; done|].
  destruct (_ <? 0); [repeat constructor; done|]. destruct (_ =? 0); [repeat constructor; done|].
  destruct (putObject d key value) as [d' o]. constructor; done.
Qed.

Lemma putObject_spec d key value :
  dict_ok d -> key_ok key ->
  dict_ok (putObject d key value).1 /\
  dict_map (putObject d key value).1 = <[key := value]> (dict_map d) /\
  (putObject d key value).2 = dict_map d !! key.
Proof.
  intros Hd Hkey. induction d as [|[k v] d IH]; cbn [putObject].
  { split; [split; repeat constructor; apply Hkey|]. done. }
  apply dict_ok_cons in Hd as (Hk & Hd & Hbelow).
  destruct (Z.ltb_spec (String_compare (Some key) (Some k)) 0) as [Hlt|Hge].
  { apply compare_lt in Hlt; [|done..].
    assert (Forall (fun e => lex key e.1 < 0) ((k, v) :: d)) as Hall.
    { constructor; [done|]. eapply Forall_impl; [|exact Hbelow]. intros e He. exact (lex_trans _ _ _ Hlt He). }
    split; [|split; [done|symmetry; apply below_not_in, Hall]].
    apply dict_ok_cons. split; [done|]. split; [|done]. apply dict_ok_cons. done. }
  destruct (Z.eqb_spec (String_compare (Some key) (Some k)) 0) as [E|Hne].
  { apply compare_eq in E as ->; [|done..]. unfold dict_map. simpl.
    split; [apply dict_ok_cons; done|]. rewrite insert_insert_eq, lookup_insert_eq. done. }
  assert (lex k key < 0) as Hgt.
  { pose proof (lex_antisym key k). pose proof (compare_sgn key k Hkey Hk). lia. }
  assert (k <> key) as Hneq by (intros ->; rewrite lex_refl in Hgt; lia).
  specialize (IH Hd). pose proof (putObject_keys k d key value Hgt Hbelow) as Hkeys.
  destruct (putObject d key value) as [d' o]. cbn [fst snd] in *. destruct IH as (Hok & Hmap & Ho).
  split; [apply dict_ok_cons; done|]. unfold dict_map in *. simpl. rewrite Hmap.
  rewrite insert_insert_ne by done. rewrite lookup_insert_ne by done. done.
Qed.

Lemma Dict_remove_keys k d key :
  Forall (fun e => lex k e.1 < 0) d -> Forall (fun e => lex k e.1 < 0) (Dict_remove d key).1.
Proof.
  intros Hd. induction Hd as [|[k' v'] d Hk' Hd IH]; cbn [Dict_remove]; [constructor|].
  destruct (String_equals _ _); [done|]. destruct (Dict_remove d key). constructor; done.
Qed.

Lemma Dict_remove_spec d key :
  dict_ok d ->
  dict_ok (Dict_remove d key).1 /\
  dict_map (Dict_remove d key).1 = delete key (dict_map d) /\
  (Dict_remove d key).2 = (match dict_map d !! key with Some _ => 1 | None => 0 end).
Proof.
  intros Hd. induction d as [|[k v] d IH]; cbn [Dict_remove].
  { unfold dict_map. simpl. rewrite delete_empty. done. }
  apply dict_ok_cons in Hd as (Hk & Hd & Hbelow). rewrite String_equals_decide.
  unfold dict_map. simpl. destruct (bool_decide_reflect (key = k)) as [->|Hne]; cbn [fst snd].
  { rewrite delete_insert_id by (apply below_not_in, Hbelow). rewrite lookup_insert_eq. done. }
  specialize (IH Hd). pose proof (Dict_remove_keys k d key Hbelow) as Hkeys.
  destruct (Dict_remove d key) as [d' r]. cbn [fst snd] in *. destruct IH as (Hok & Hmap & Hr).
  split; [apply dict_ok_cons; done|]. unfold dict_map in *. simpl. rewrite Hmap.
  rewrite delete_insert_ne by done. rewrite lookup_insert_ne by done. done.
Qed.
End order.

(** ** Properties *)
Section properties.
  Context {P : Platform}.

(** The operations a client performs on one dictionary. *)
Inductive dict_op :=
  | Put (key : String) (value : Object)
  | Remove (key : String).

Definition do_dict_op (d : Dict) (op : dict_op) : Dict :=
  match op with
  | Put key value => (putObject d key value).1
  | Remove key => (Dict_remove d key).1
  end.

Definition map_op (m : gmap String Object) (op : dict_op) : gmap String Object :=
  match op with
  | Put key value => <[key := value]> m
  | Remove key => delete key m
  end.

Definition op_ok (op : dict_op) : Prop :=
  match op with Put key _ => key_ok key | Remove _ => True end.

(** A dictionary is a finite map: after any sequence of puts and removals
    on a new dictionary, looking a key up gives what the same sequence of
    insertions and deletions leaves under that key in a map, a put returns the
    object it displaces, removing says whether the key was there, and the
    entries are sorted by key, one for each key. *)
Theorem Dict_refines_map (ops : list dict_op) (key : String) :
  Forall op_ok ops -> key_ok key ->
  let d := fold_left do_dict_op ops Dict_new in
  let m := fold_left map_op ops ∅ in
  lookupObject (Some d) (Some key) = m !! key /\
  (forall value, (putObject d key value).2 = m !! key) /\
  (Dict_remove d key).2 = (match m !! key with Some _ => 1 | None => 0 end) /\
  StronglySorted (fun e1 e2 => String_compare (Some e1.1) (Some e2.1) < 0) d /\
  List.length d = size m.
Proof.
  intros Hops Hkey d m.
  assert (dict_ok d /\ dict_map d = m) as [Hd <-].
  { unfold d, m. change (∅ : gmap String Object) with (dict_map Dict_new).
    assert (dict_ok Dict_new) as Hnew by (split; constructor). revert Hnew.
    generalize Dict_new. induction Hops as [|op ops Hop _ IH]; intros d0 H0; cbn [fold_left]; [done|].
    destruct op as [k v|k]; cbn [do_dict_op map_op].
    - destruct (putObject_spec d0 k v H0 Hop) as (H1 & <- & _). apply IH, H1.
    - destruct (Dict_remove_spec d0 k H0) as (H1 & <- & _). apply IH, H1. }
  cbn [lookupObject]. rewrite lookup_loop_map. split; [done|].
  split; [intros value; apply (putObject_spec d key value Hd Hkey)|].
  split; [apply (Dict_remove_spec d key Hd)|]. split; [apply Hd|].
  clear -Hd. induction d as [|[k v] d IH]; [done|].
  apply dict_ok_cons in Hd as (Hk & Hd & Hbelow). unfold dict_map. simpl.
  rewrite map_size_insert_None by (apply below_not_in, Hbelow). rewrite IH by exact Hd. done.
Qed.

(** The typed accessors: what was put under a key is found under that key
    by the accessor of its type and by no other, and every other key reads as
    before. *)
Lemma Dict_get_put (d : Dict) (key key' : String) (value : Object) :
  dict_ok d -> key_ok key -> key' <> key ->
  let d' := (putObject d key value).1 in
  Dict_getInt (Some d') (Some key) = (match value with Object_INTEGER n => Some n | _ => None end) /\
  Dict_getString (Some d') (Some key) = (match value with Object_STRING s => Some s | _ => None end) /\
  Dict_getList (Some d') (Some key) = (match value with Object_LIST l => Some l | _ => None end) /\
  Dict_getDict (Some d') (Some key) = (match value with Object_DICT x => Some x | _ => None end) /\
  Dict_getInt (Some d') (Some key') = Dict_getInt (Some d) (Some key') /\
  Dict_getString (Some d') (Some key') = Dict_getString (Some d) (Some key') /\
  Dict_getList (Some d') (Some key') = Dict_getList (Some d) (Some key') /\
  Dict_getDict (Some d') (Some key') = Dict_getDict (Some d) (Some key').
Proof.
  intros Hd Hkey Hne d'.
  destruct (putObject_spec d key value Hd Hkey) as (_ & Hmap & _). fold d' in Hmap.
  unfold Dict_getInt, Dict_getString, Dict_getList, Dict_getDict, lookupObject.
  rewrite !lookup_loop_map, Hmap, lookup_insert_eq, lookup_insert_ne by congruence.
  split_and!; done.
Qed.

Lemma getObject_loop_spec (l : List) (i n : Z) :
  0 <= i -> i + Z.of_nat (List.length l) <= 2 ^ 32 -> i <= n < 2 ^ 32 ->
  getObject_loop l i n = l !! Z.to_nat (n - i).
Proof.
  revert i. induction l as [|x l IH]; intros i Hi Hlen Hn; cbn [getObject_loop List.length] in *; [done|].
  destruct (Z.eqb_spec i n) as [->|Hne]; [rewrite Z.sub_diag; done|].
  destruct l as [|y l'].
  { cbn [getObject_loop]. symmetry. apply lookup_ge_None_2. cbn. lia. }
  cbn [List.length] in Hlen. rewrite u32_small by lia.
  rewrite IH by (cbn [List.length]; lia).
  replace (Z.to_nat (n - i)) with (S (Z.to_nat (n - (i + 1)))) by lia. done.
Qed.

(** A list reads back in the reverse of the order its entries were added,
    each by its own type's accessor, and no index behind the last entry gives
    anything. *)
Theorem List_get_add (items : list Z) (l : List) (n : Z) :
  Z.of_nat (List.length l + List.length items) <= 2 ^ 31 - 1 -> 0 <= n < 2 ^ 32 ->
  let l' := fold_left (fun l z => List_addInt (Some l) z) items l in
  List_size (Some l') = List_size (Some l) + Z.of_nat (List.length items) /\
  (n < Z.of_nat (List.length items) ->
   List_getInt (Some l') n = rev items !! Z.to_nat n /\ List_getString (Some l') n = None) /\
  (Z.of_nat (List.length items) <= n ->
   getObject (Some l') n = getObject (Some l) (n - Z.of_nat (List.length items))).
Proof.
  intros Hlen Hn l'.
  assert (l' = map Object_INTEGER (rev items) ++ l) as ->.
  { unfold l'. clear. revert l. induction items as [|z items IH]; intros l; [done|].
    cbn [fold_left rev]. rewrite IH, map_app, <-app_assoc. done. }
  assert (List.length (map Object_INTEGER (rev items)) = List.length items) as Hm
    by (rewrite length_map, length_rev; done).
  assert (forall k, 0 <= k < 2 ^ 32 ->
    getObject (Some (map Object_INTEGER (rev items) ++ l)) k =
    (map Object_INTEGER (rev items) ++ l) !! Z.to_nat k) as Hget.
  { intros k Hk. cbn [getObject]. rewrite getObject_loop_spec; [f_equal; lia|lia| |lia].
    rewrite length_app, Hm. lia. }
  split_and!.
  - cbn [List_size]. rewrite length_app, Hm. rewrite !s32_small by lia. lia.
  - intros Hk. unfold List_getInt, List_getString. rewrite Hget by lia.
    rewrite lookup_app_l by lia. rewrite list_lookup_fmap.
    destruct (rev items !! Z.to_nat n); done.
  - intros Hk. rewrite Hget by lia. rewrite lookup_app_r by lia. cbn [getObject].
    rewrite getObject_loop_spec by lia. f_equal. lia.
Qed.

End properties.

(** ** Witnesses *)
Definition demo_ops : list dict_op :=
  [Put (chars "q") (Object_STRING (chars "ping")); Put (chars "a") (Object_INTEGER 1);
   Put (chars "txid") (Object_STRING []); Put (chars "a") (Object_INTEGER 2); Remove (chars "q")].

Lemma demo_key_ok (k : String) :
  forallb (fun b => (0 <=? b) && (b <? 256)) k && (Z.of_nat (List.length k) <? 2 ^ 31) = true -> key_ok k.
Proof.
  intros [H1 H2]%andb_true_iff. split; [|lia]. apply List.Forall_forall. intros b Hb.
  rewrite forallb_forall in H1. specialize (H1 b Hb). unfold is_byte. lia.
Qed.

Lemma Dict_refines_map_witness :
  let d := fold_left (@do_dict_op x86) demo_ops Dict_new in
  @lookupObject (Some d) (Some (chars "a")) = Some (Object_INTEGER 2) /\ List.length d = 2%nat.
Proof.
  assert (Forall op_ok demo_ops) as H1 by (do 5 (constructor; [first [exact I|by apply demo_key_ok]|]); constructor).
  assert (key_ok (chars "a")) as H2 by (by apply demo_key_ok).
  destruct (@Dict_refines_map x86 demo_ops (chars "a") H1 H2) as (E1 & _ & _ & _ & E2).
  intros d. split; [etrans; [exact E1|reflexivity]|etrans; [exact E2|reflexivity]].
Defined.

Lemma Dict_get_put_witness :
  @Dict_getInt (Some (@putObject x86 [(chars "b", Object_INTEGER 7)] (chars "a") (Object_INTEGER 3)).1)
    (Some (chars "b")) = Some 7.
Proof.
  assert (@dict_ok x86 [(chars "b", Object_INTEGER 7)]) as Hd.
  { split; [repeat constructor|]. constructor; [by apply demo_key_ok|constructor]. }
  assert (key_ok (chars "a")) as Hk by (by apply demo_key_ok).
  assert (chars "b" <> chars "a") as Hne by (vm_compute; congruence).
  destruct (@Dict_get_put x86 _ (chars "a") (chars "b") (Object_INTEGER 3) Hd Hk Hne)
    as (_ & _ & _ & _ & E & _).
  etrans; [exact E|reflexivity].
Defined.

Lemma List_get_add_witness :
  let l := fold_left (fun l z => List_addInt (Some l) z) [10; 20; 30] [Object_STRING []] in
  List_getInt (Some l) 0 = Some 30 /\ List_getString (Some l) 3 = Some [].
Proof.
  intros l.
  destruct (List_get_add [10; 20; 30] [Object_STRING []] 0 ltac:(simpl; lia) ltac:(lia)) as (_ & E & _).
  destruct (E ltac:(simpl; lia)) as [E1 _]. split; [etrans; [exact E1|reflexivity]|].
  destruct (List_get_add [10; 20; 30] [Object_STRING []] 3 ltac:(simpl; lia) ltac:(lia)) as (_ & _ & E3).
  unfold List_getString, l. rewrite E3 by (simpl; lia). reflexivity.
Defined.
