(* ===== verification/ArrayIO.v ===== *)
(** * Readers and writers (io/Reader.h, Writer.h, ArrayReader.c, ArrayWriter.c)

    [Reader] and [Writer] are the interfaces of the header files: records of
    function pointers in C, classes here. [ReaderLaws] and [WriterLaws] are what
    the headers promise; the serializer is proved against them. ArrayReader and
    ArrayWriter, over a buffer in memory, are the implementations: their
    instances discharge the laws. Pointers are 64-bit addresses and wrap. *)
From S2P Require Import Prelude Memory.

(** ** The interfaces *)

(** [read] returns the code, the bytes put in [readInto] and the reader after
    the call. *)
Class Reader (R : Type) : Type := {
  reader_read : R -> Z -> Z * list Z * R;
  reader_skip : R -> Z -> R;
  reader_bytesRead : R -> Z
}.

(** [remaining] is what the source still holds, [budget] bounds what can still
    be read. A [read] of length 0 gives the next byte and moves nothing; at the
    end of the content the header says nothing about that byte. *)
Class ReaderLaws (R : Type) {ops : Reader R} : Type := {
  valid : R -> Prop;
  remaining : R -> list Z;
  budget : R -> nat;
  read_code r n : valid r -> 0 <= n < 2 ^ 64 ->
    (reader_read r n).1.1 = 0 \/ (reader_read r n).1.1 = -1;
  read_valid r n : valid r -> 0 <= n < 2 ^ 64 -> valid (reader_read r n).2;
  read_budget r n : valid r -> 0 <= n < 2 ^ 64 ->
    (budget (reader_read r n).2 +
     (if ((reader_read r n).1.1 =? 0)%Z then Z.to_nat n else 0) <= budget r)%nat;
  peek_skip r : valid r -> (reader_read r 0).1.1 = 0 ->
    valid (reader_skip (reader_read r 0).2 1) /\
    (budget (reader_skip (reader_read r 0).2 1) <= budget r)%nat;
  read_some r n : valid r -> 0 < n <= Z.of_nat (length (remaining r)) -> n < 2 ^ 64 ->
    exists r', reader_read r n = (0, take (Z.to_nat n) (remaining r), r') /\ valid r' /\
      remaining r' = drop (Z.to_nat n) (remaining r);
  read_peek r c l : valid r -> remaining r = c :: l ->
    exists r', reader_read r 0 = (0, [c], r') /\ valid r' /\ remaining r' = c :: l;
  skip_one r c l : valid r -> remaining r = c :: l ->
    valid (reader_skip r 1) /\ remaining (reader_skip r 1) = l
}.

Class Writer (W : Type) : Type := {
  writer_write : W -> list Z -> Z * W;
  writer_bytesWritten : W -> Z
}.

(** [view w] is what has been written and how many more bytes fit, [None] after
    a failed write: "if a write fails then all subsequent writes will fail". *)
Definition view_after (v : option (list Z * Z)) (l : list Z) : option (list Z * Z) :=
  match v with
  | Some (out, room) =>
      if Z.of_nat (length l) <=? room then Some (out ++ l, room - Z.of_nat (length l)) else None
  | None => None
  end.

Class WriterLaws (W : Type) {ops : Writer W} : Type := {
  writer_valid : W -> Prop;
  view : W -> option (list Z * Z);
  write_view w l : writer_valid w -> Z.of_nat (length l) < 2 ^ 64 ->
    writer_valid (writer_write w l).2 /\
    view (writer_write w l).2 = view_after (view w) l /\
    (writer_write w l).1 = match view_after (view w) l with Some _ => 0 | None => -1 end;
  bytesWritten_view w out room : writer_valid w -> view w = Some (out, room) ->
    writer_bytesWritten w = Z.of_nat (length out);
  room_nonneg w out room : writer_valid w -> view w = Some (out, room) -> 0 <= room
}.

(** ** ArrayReader *)
Record ArrayReader := {
  r_memory : mem;
  r_pointer : Z;
  r_endPointer : Z;
  r_bytesRead : Z
}.

Definition ArrayReader_new (m : mem) (bufferToRead length : Z) : ArrayReader :=
  {| r_memory := m; r_pointer := bufferToRead; r_endPointer := u64 (bufferToRead + length);
     r_bytesRead := 0 |}.

(** A length of 0 peeks, also when the pointer is at the end of the buffer. *)
Definition ArrayReader_read (context : ArrayReader) (length : Z) : Z * list Z * ArrayReader :=
  let past := u64 (context.(r_pointer) + length) in
  if (context.(r_endPointer) <? past) || (past <? context.(r_pointer)) then (-1, [], context)
  else if length =? 0 then (0, [context.(r_memory) context.(r_pointer)], context)
  else (0, read context.(r_memory) context.(r_pointer) length,
        {| r_memory := context.(r_memory); r_pointer := past; r_endPointer := context.(r_endPointer);
           r_bytesRead := u64 (context.(r_bytesRead) + length) |}).

Definition ArrayReader_skip (context : ArrayReader) (byteCount : Z) : ArrayReader :=
  {| r_memory := context.(r_memory); r_pointer := u64 (context.(r_pointer) + byteCount);
     r_endPointer := context.(r_endPointer);
     r_bytesRead := u64 (context.(r_bytesRead) + byteCount) |}.

#[export] Instance ArrayReader_reader : Reader ArrayReader := {|
  reader_read := ArrayReader_read;
  reader_skip := ArrayReader_skip;
  reader_bytesRead := r_bytesRead
|}.

(** ** ArrayWriter *)
Record ArrayWriter := {
  w_memory : mem;
  w_beginPointer : Z;
  w_pointer : Z;
  w_endPointer : Z;
  w_returnCode : Z
}.

Definition ArrayWriter_new (m : mem) (writeToBuffer length : Z) : ArrayWriter :=
  {| w_memory := m; w_beginPointer := writeToBuffer; w_pointer := writeToBuffer;
     w_endPointer := u64 (writeToBuffer + length); w_returnCode := 0 |}.

Definition ArrayWriter_write (context : ArrayWriter) (toWrite : list Z) : Z * ArrayWriter :=
  if negb (context.(w_returnCode) =? 0) then (context.(w_returnCode), context)
  else
    let past := u64 (context.(w_pointer) + Z.of_nat (length toWrite)) in
    if (context.(w_endPointer) <? past) || (past <? context.(w_pointer)) then
      (-1, {| w_memory := context.(w_memory); w_beginPointer := context.(w_beginPointer);
              w_pointer := context.(w_pointer); w_endPointer := context.(w_endPointer);
              w_returnCode := -1 |})
    else
      (0, {| w_memory := write context.(w_memory) context.(w_pointer) toWrite;
             w_beginPointer := context.(w_beginPointer);
             w_pointer := past; w_endPointer := context.(w_endPointer);
             w_returnCode := context.(w_returnCode) |}).

Definition ArrayWriter_bytesWritten (context : ArrayWriter) : Z :=
  u64 (context.(w_pointer) - context.(w_beginPointer)).

#[export] Instance ArrayWriter_writer : Writer ArrayWriter := {|
  writer_write := ArrayWriter_write;
  writer_bytesWritten := ArrayWriter_bytesWritten
|}.

(** ** The laws of ArrayReader *)

(** One step past the end is where a [skip] after a peek at the end leaves it. *)
Definition reader_ok (r : ArrayReader) : Prop :=
  0 <= r.(r_pointer) <= r.(r_endPointer) + 1 /\
  0 <= r.(r_endPointer) < 2 ^ 64 - 1.

Definition reader_left (r : ArrayReader) : Z := r.(r_endPointer) - r.(r_pointer).

(** A read succeeds exactly when the bytes are there. *)
Lemma ArrayReader_test r n : reader_ok r -> 0 <= n < 2 ^ 64 ->
  let past := u64 (r.(r_pointer) + n) in
  (r.(r_endPointer) <? past) || (past <? r.(r_pointer)) = (reader_left r <? n) /\
  (n <= reader_left r -> past = r.(r_pointer) + n).
Proof.
  intros (Hp & He) Hn past. unfold reader_left, past.
  destruct (Z.ltb_spec (r.(r_pointer) + n) (2 ^ 64)).
  - rewrite u64_small by lia. split; [|done]. apply eq_iff_eq_true. lia.
  - assert (u64 (r.(r_pointer) + n) = r.(r_pointer) + n - 2 ^ 64) as ->.
    { unfold u64. rewrite <-(Z.mod_add _ (-1)) by lia. rewrite Z.mod_small by lia. lia. }
    split; [|lia]. apply eq_iff_eq_true. lia.
Qed.

Lemma ArrayReader_read_spec r n : reader_ok r -> 0 <= n < 2 ^ 64 ->
  ArrayReader_read r n =
  if reader_left r <? n then (-1, [], r)
  else if n =? 0 then (0, [r.(r_memory) r.(r_pointer)], r)
  else (0, read r.(r_memory) r.(r_pointer) n,
        {| r_memory := r.(r_memory); r_pointer := r.(r_pointer) + n;
           r_endPointer := r.(r_endPointer); r_bytesRead := u64 (r.(r_bytesRead) + n) |}).
Proof.
  intros Hr Hn. unfold ArrayReader_read. destruct (ArrayReader_test r n Hr Hn) as [-> Hpast].
  destruct (Z.ltb_spec (reader_left r) n); [done|]. rewrite Hpast by lia. done.
Qed.

Lemma ArrayReader_skip_spec r : reader_ok r -> 0 <= reader_left r ->
  ArrayReader_skip r 1 =
  {| r_memory := r.(r_memory); r_pointer := r.(r_pointer) + 1; r_endPointer := r.(r_endPointer);
     r_bytesRead := u64 (r.(r_bytesRead) + 1) |}.
Proof.
  intros (Hp & He) Hl. unfold ArrayReader_skip, reader_left in *.
  rewrite (u64_small (r_pointer r + 1)) by lia. done.
Qed.

#[local] Obligation Tactic := idtac.
#[export] Program Instance ArrayReader_laws : ReaderLaws ArrayReader := {|
  valid := reader_ok;
  remaining r := read r.(r_memory) r.(r_pointer) (reader_left r);
  budget r := Z.to_nat (reader_left r)
|}.
Next Obligation.
  cbv beta. intros r n Hr Hn. cbn [reader_read ArrayReader_reader]. rewrite ArrayReader_read_spec by done.
  destruct (_ <? _); [by right|]. destruct (_ =? _); by left.
Qed.
Next Obligation.
  cbv beta. intros r n Hr Hn. cbn [reader_read ArrayReader_reader]. rewrite ArrayReader_read_spec by done.
  destruct (Z.ltb_spec (reader_left r) n) as [|Hle]; [done|]. destruct (_ =? _); [done|].
  destruct Hr as (Hp & He). unfold reader_left in Hle. unfold reader_ok. cbn. lia.
Qed.
Next Obligation.
  cbv beta. intros r n Hr Hn. cbn [reader_read ArrayReader_reader]. rewrite ArrayReader_read_spec by done.
  destruct (Z.ltb_spec (reader_left r) n); [cbn; lia|].
  destruct (Z.eqb_spec n 0) as [->|]; [cbn; lia|]. unfold reader_left in *. cbn. lia.
Qed.
Next Obligation.
  cbv beta. intros r Hr. cbn [reader_read reader_skip ArrayReader_reader].
  rewrite ArrayReader_read_spec by (done || lia).
  destruct (Z.ltb_spec (reader_left r) 0); [done|]. intros _. cbn [Z.eqb snd].
  rewrite ArrayReader_skip_spec by done. destruct Hr as (Hp & He).
  unfold reader_ok, reader_left in *. cbn. split; lia.
Qed.
Next Obligation.
  cbv beta. intros r n Hr Hn Hn'. cbn [reader_read ArrayReader_reader]. rewrite length_read in Hn.
  rewrite ArrayReader_read_spec by (done || lia). destruct (Z.ltb_spec (reader_left r) n); [lia|].
  destruct (Z.eqb_spec n 0); [lia|].
  rewrite (read_split _ _ (reader_left r) n) by lia.
  eexists. rewrite take_app_length', drop_app_length' by (rewrite length_read; done).
  split; [done|]. destruct Hr as (Hp & He). unfold reader_ok, reader_left in *. cbn.
  split; [lia|]. f_equal. lia.
Qed.
Next Obligation.
  cbv beta. intros r c l Hr Hl. cbn [reader_read ArrayReader_reader].
  destruct (Z.leb_spec (reader_left r) 0) as [|Hpos]; [rewrite read_0 in Hl by lia; done|].
  rewrite ArrayReader_read_spec by (done || lia). destruct (Z.ltb_spec (reader_left r) 0); [lia|].
  cbn [Z.eqb]. rewrite read_cons in Hl by lia. injection Hl as Hc Htl. rewrite Hc.
  exists r. split; [done|]. split; [done|]. rewrite read_cons by lia. congruence.
Qed.
Next Obligation.
  cbv beta. intros r c l Hr Hl. cbn [reader_skip ArrayReader_reader].
  destruct (Z.leb_spec (reader_left r) 0) as [|Hpos]; [rewrite read_0 in Hl by lia; done|].
  rewrite ArrayReader_skip_spec by (done || lia).
  rewrite read_cons in Hl by lia. injection Hl as _ Htl. destruct Hr as (Hp & He).
  unfold reader_ok, reader_left in *. cbn. split; [lia|].
  rewrite <-Htl. f_equal. lia.
Qed.

(** ** A reader that keeps an invariant *)

(** The laws hold with what every read and every skip keeps. *)
Section with_invariant.
  Context {R : Type} {ops : Reader R} (laws : ReaderLaws R) (I : R -> Prop).
  Hypothesis I_read : forall r n, valid r -> 0 <= n < 2 ^ 64 -> I r -> I (reader_read r n).2.
  Hypothesis I_skip : forall r, valid r -> I r -> I (reader_skip r 1).

#[local] Obligation Tactic := idtac.
Program Definition ReaderLaws_with : ReaderLaws R :=
  {| valid := fun r => valid r /\ I r; remaining := remaining; budget := budget |}.
Next Obligation. intros r n [Hr _]. by apply read_code. Qed.
Next Obligation. intros r n [Hr HI] Hn. split; [by apply read_valid|by apply I_read]. Qed.
Next Obligation. intros r n [Hr _]. by apply read_budget. Qed.
Next Obligation.
  intros r [Hr HI] E. destruct (peek_skip r Hr E) as [H1 H2]. split; [|done]. split; [done|].
  apply I_skip; [apply read_valid; [done|lia]|]. apply I_read; [done|lia|done].
Qed.
Next Obligation.
  intros r n [Hr HI] Hn Hn'. destruct (read_some r n Hr Hn Hn') as (r' & E & Hr' & Hrem). exists r'.
  pose proof (I_read r n Hr ltac:(lia) HI) as HI'. rewrite E in HI'. done.
Qed.
Next Obligation.
  intros r c l [Hr HI] Hl. destruct (read_peek r c l Hr Hl) as (r' & E & Hr' & Hrem). exists r'.
  pose proof (I_read r 0 Hr ltac:(lia) HI) as HI'. rewrite E in HI'. done.
Qed.
Next Obligation. intros r c l [Hr HI] Hl. destruct (skip_one r c l Hr Hl) as [H1 H2]. split; [|done]. split; [done|by apply I_skip]. Qed.
End with_invariant.

(** An ArrayReader keeps to its buffer, from [a] to [e] in the memory [m], and
    counts what it has read. *)
Record reads_within (m : mem) (a e : Z) (r : ArrayReader) : Prop := {
  within_memory : r.(r_memory) = m;
  within_end : r.(r_endPointer) = e;
  within_start : a <= r.(r_pointer);
  within_count : r.(r_bytesRead) = r.(r_pointer) - a
}.

Program Definition ArrayReader_laws_within (m : mem) (a e : Z) (Ha : 0 <= a) (He : e < 2 ^ 64 - 2) : ReaderLaws ArrayReader :=
  ReaderLaws_with ArrayReader_laws (reads_within m a e) _ _.
Next Obligation.
  cbv beta. intros m a e Ha He r n Hr Hn [H1 H2 H3 H4]. cbn [reader_read ArrayReader_reader]. rewrite ArrayReader_read_spec by done.
  destruct (Z.ltb_spec (reader_left r) n); [done|]. destruct (n =? 0); [done|]. destruct Hr as [Hp Hend]. unfold reader_left in *.
  split; cbn; [done|done|lia|]. rewrite u64_small by lia. lia.
Qed.
Next Obligation.
  cbv beta. intros m a e Ha He r Hr [H1 H2 H3 H4]. cbn [reader_skip ArrayReader_reader]. unfold ArrayReader_skip.
  destruct Hr as [Hp Hend]. split; cbn; [done|done|rewrite u64_small; lia|rewrite !u64_small; lia].
Qed.

(** ** The laws of ArrayWriter *)
Definition writer_ok (w : ArrayWriter) : Prop :=
  0 <= w.(w_beginPointer) <= w.(w_pointer) /\ w.(w_pointer) <= w.(w_endPointer) < 2 ^ 64 /\
  (w.(w_returnCode) = 0 \/ w.(w_returnCode) = -1).

Definition writer_room (w : ArrayWriter) : Z := w.(w_endPointer) - w.(w_pointer).

Lemma ArrayWriter_write_spec w l : writer_ok w -> Z.of_nat (length l) < 2 ^ 64 ->
  ArrayWriter_write w l =
  if negb (w.(w_returnCode) =? 0) then (-1, w)
  else if Z.of_nat (length l) <=? writer_room w then
    (0, {| w_memory := write w.(w_memory) w.(w_pointer) l; w_beginPointer := w.(w_beginPointer);
           w_pointer := w.(w_pointer) + Z.of_nat (length l); w_endPointer := w.(w_endPointer);
           w_returnCode := 0 |})
  else
    (-1, {| w_memory := w.(w_memory); w_beginPointer := w.(w_beginPointer);
            w_pointer := w.(w_pointer); w_endPointer := w.(w_endPointer); w_returnCode := -1 |}).
Proof.
  intros (Hb & He & Hc) Hl. unfold ArrayWriter_write, writer_room.
  destruct (Z.eqb_spec w.(w_returnCode) 0) as [E|E]; cbn [negb]; [|f_equal; lia].
  destruct (Z.ltb_spec (w.(w_pointer) + Z.of_nat (length l)) (2 ^ 64)).
  - rewrite u64_small by lia.
    destruct (Z.leb_spec (Z.of_nat (length l)) (w.(w_endPointer) - w.(w_pointer))),
      (Z.ltb_spec w.(w_endPointer) (w.(w_pointer) + Z.of_nat (length l))),
      (Z.ltb_spec (w.(w_pointer) + Z.of_nat (length l)) w.(w_pointer)); try lia; cbn [orb]; [|done].
    rewrite E. done.
  - assert (u64 (w.(w_pointer) + Z.of_nat (length l)) = w.(w_pointer) + Z.of_nat (length l) - 2 ^ 64) as ->.
    { unfold u64. rewrite <-(Z.mod_add _ (-1)) by lia. rewrite Z.mod_small by lia. lia. }
    destruct (Z.leb_spec (Z.of_nat (length l)) (w.(w_endPointer) - w.(w_pointer))); [lia|].
    rewrite (proj2 (Z.ltb_lt _ w.(w_pointer))) by lia. rewrite orb_true_r. done.
Qed.

Definition writer_view (w : ArrayWriter) : option (list Z * Z) :=
  if w.(w_returnCode) =? 0
  then Some (read w.(w_memory) w.(w_beginPointer) (w.(w_pointer) - w.(w_beginPointer)), writer_room w)
  else None.

(** The bytes an ArrayWriter changes are those of its buffer that were free. *)
Lemma ArrayWriter_write_frame w l x : writer_ok w -> Z.of_nat (length l) < 2 ^ 64 ->
  x < w.(w_pointer) \/ w.(w_endPointer) <= x ->
  (ArrayWriter_write w l).2.(w_memory) x = w.(w_memory) x.
Proof.
  intros Hw Hl Hx. rewrite ArrayWriter_write_spec by done.
  destruct (negb _); [done|]. destruct (Z.leb_spec (Z.of_nat (length l)) (writer_room w)); [|done].
  apply write_out. unfold writer_room in *. lia.
Qed.

#[export] Program Instance ArrayWriter_laws : WriterLaws ArrayWriter := {|
  writer_valid := writer_ok;
  view := writer_view
|}.
Next Obligation.
  cbv beta. intros w l Hw Hl. cbn [writer_write ArrayWriter_writer].
  rewrite ArrayWriter_write_spec by done. destruct Hw as (Hb & He & Hc).
  unfold writer_view. destruct (Z.eqb_spec w.(w_returnCode) 0) as [E|E]; cbn [negb fst snd view_after].
  - destruct (Z.leb_spec (Z.of_nat (length l)) (writer_room w)) as [Hfit|Hno]; cbn [fst snd view_after].
    + unfold writer_ok, writer_room in *. cbn. split; [lia|]. split; [|done]. do 2 f_equal; [|lia].
      rewrite (read_split _ _ _ (w_pointer w - w_beginPointer w)) by lia. f_equal.
      * apply read_write_disj. lia.
      * replace (w_beginPointer w + (w_pointer w - w_beginPointer w)) with (w_pointer w) by lia.
        apply read_write_same. lia.
    + split; [|done]. unfold writer_ok. cbn. lia.
  - destruct (Z.eqb_spec w.(w_returnCode) 0); [done|]. split; [|done]. unfold writer_ok. lia.
Qed.
Next Obligation.
  cbv beta. intros w out room (Hb & He & Hc). unfold writer_view.
  destruct (_ =? 0); [|done]. intros [= <- _]. rewrite length_read.
  cbn [writer_bytesWritten ArrayWriter_writer]. unfold ArrayWriter_bytesWritten.
  rewrite u64_small by lia. lia.
Qed.

Next Obligation.
  cbv beta. intros w out room (Hb & He & Hc). unfold writer_view, writer_room.
  destruct (_ =? 0); [|done]. intros [= _ <-]. lia.
Qed.

(** ** A sequence of writes *)
Fixpoint write_all (w : ArrayWriter) (chunks : list (list Z)) : list Z * ArrayWriter :=
  match chunks with
  | [] => ([], w)
  | l :: rest =>
      let '(code, w') := ArrayWriter_write w l in
      let '(codes, w'') := write_all w' rest in (code :: codes, w'')
  end.

(** The chunks that are taken when [room] bytes are free: those before the
    first that does not fit. *)
Fixpoint taken (room : Z) (chunks : list (list Z)) : list (list Z) :=
  match chunks with
  | [] => []
  | l :: rest => if Z.of_nat (length l) <=? room then l :: taken (room - Z.of_nat (length l)) rest else []
  end.

Lemma write_all_failed w chunks : writer_ok w -> w.(w_returnCode) = -1 ->
  write_all w chunks = (repeat (-1) (length chunks), w).
Proof.
  intros Hw Hc. induction chunks as [|l rest IH]; cbn [write_all length repeat]; [done|].
  unfold ArrayWriter_write. rewrite Hc. cbn [Z.eqb negb]. rewrite IH. done.
Qed.

Lemma write_all_spec w chunks : writer_ok w -> w.(w_returnCode) = 0 ->
  Forall (fun l => Z.of_nat (length l) < 2 ^ 64) chunks ->
  let ok := taken (writer_room w) chunks in
  let '(codes, w') := write_all w chunks in
  codes = repeat 0 (length ok) ++ repeat (-1) (length chunks - length ok) /\
  read w'.(w_memory) w.(w_beginPointer) (ArrayWriter_bytesWritten w') =
    read w.(w_memory) w.(w_beginPointer) (ArrayWriter_bytesWritten w) ++ concat ok /\
  ArrayWriter_bytesWritten w' = ArrayWriter_bytesWritten w + Z.of_nat (length (concat ok)) /\
  (forall x, x < w.(w_pointer) \/ w.(w_endPointer) <= x -> w'.(w_memory) x = w.(w_memory) x).
Proof.
  intros Hw H0 Hl. revert w Hw H0. induction Hl as [|l rest Hl Hrest IH]; intros w Hw H0; cbn [taken write_all].
  { split; [done|]. cbn [concat]. rewrite app_nil_r. split; [done|]. split; [cbn; lia|done]. }
  rewrite ArrayWriter_write_spec by done. rewrite H0. cbn [Z.eqb negb].
  destruct Hw as (Hb & He & Hc). destruct (Z.leb_spec (Z.of_nat (length l)) (writer_room w)) as [Hfit|Hno].
  - set (w1 := {| w_memory := _ |}).
    assert (writer_ok w1) as H1 by (unfold writer_ok, writer_room in *; cbn; lia).
    specialize (IH w1 H1 eq_refl).
    assert (writer_room w1 = writer_room w - Z.of_nat (length l)) as Er by (unfold writer_room; cbn; lia).
    rewrite Er in IH. destruct (write_all w1 rest) as [codes w']. cbv zeta in IH.
    destruct IH as (-> & Eread & Ebytes & Hframe).
    assert (ArrayWriter_bytesWritten w = w_pointer w - w_beginPointer w) as Ebw
      by (unfold ArrayWriter_bytesWritten; apply u64_small; lia).
    assert (ArrayWriter_bytesWritten w1 = w_pointer w + Z.of_nat (length l) - w_beginPointer w) as Eb1
      by (unfold ArrayWriter_bytesWritten, writer_room in *; cbn; apply u64_small; lia).
    split; [done|]. cbn [concat]. split; [|split].
    + change (w_beginPointer w) with (w_beginPointer w1) at 1. rewrite Eread. rewrite app_assoc. f_equal. rewrite Eb1, Ebw.
      rewrite (read_split _ _ _ (w_pointer w - w_beginPointer w)) by lia. cbn [w_memory w_beginPointer w1].
      f_equal; [apply read_write_disj; lia|].
      replace (w_beginPointer w + (w_pointer w - w_beginPointer w)) with (w_pointer w) by lia.
      apply read_write_same. lia.
    + rewrite Ebytes, Eb1, Ebw, length_app. lia.
    + intros x Hx. rewrite Hframe by (cbn; lia). cbn. apply write_out. unfold writer_room in *. lia.
  - rewrite write_all_failed by (done || (unfold writer_ok; cbn; lia)). cbn [length Nat.sub repeat app concat].
    split; [done|]. cbn. rewrite app_nil_r. split; [done|]. split; [|done]. unfold ArrayWriter_bytesWritten. cbn. lia.
Qed.

(** Whatever is written, an ArrayWriter takes whole writes while they fit;
    the first that does not fit and all after it return -1, even those that
    would fit. The buffer then holds the writes that were taken, one after the
    other, [bytesWritten] is their length, and no byte outside the buffer has
    changed. *)
Theorem ArrayWriter_writes (m : mem) (a n : Z) (chunks : list (list Z)) :
  0 <= a -> 0 <= n -> a + n < 2 ^ 64 -> Forall (fun l => Z.of_nat (length l) < 2 ^ 64) chunks ->
  let ok := taken n chunks in
  let '(codes, w) := write_all (ArrayWriter_new m a n) chunks in
  codes = repeat 0 (length ok) ++ repeat (-1) (length chunks - length ok) /\
  ArrayWriter_bytesWritten w = Z.of_nat (length (concat ok)) /\
  read w.(w_memory) a (ArrayWriter_bytesWritten w) = concat ok /\
  (forall x, x < a \/ a + n <= x -> w.(w_memory) x = m x).
Proof.
  intros Ha Hn Han Hl. set (w0 := ArrayWriter_new m a n).
  assert (u64 (a + n) = a + n) as Eend by (apply u64_small; lia).
  assert (writer_ok w0) as H0 by (unfold writer_ok, w0; cbn; lia).
  assert (ArrayWriter_bytesWritten w0 = 0) as Ew by (unfold ArrayWriter_bytesWritten; cbn; rewrite Z.sub_diag; done).
  pose proof (write_all_spec w0 chunks H0 eq_refl Hl) as H. cbv zeta in H |- *.
  replace (writer_room w0) with n in H by (unfold writer_room, w0; cbn; lia).
  destruct (write_all w0 chunks) as [codes w]. rewrite Ew in H. cbn [w0 w_beginPointer ArrayWriter_new] in H.
  destruct H as (Hc & Hr & Hb & Hf). split; [exact Hc|]. split; [lia|]. split; [exact Hr|].
  intros x Hx. apply Hf. cbn. lia.
Qed.

Lemma ArrayWriter_writes_witness :
  let '(codes, w) := write_all (ArrayWriter_new scratch 8 5) [chars "d"; chars "1:a"; chars "i1e"; chars "e"] in
  codes = [0; 0; -1; -1] /\ read w.(w_memory) 8 4 = chars "d1:a".
Proof.
  pose proof (ArrayWriter_writes scratch 8 5 [chars "d"; chars "1:a"; chars "i1e"; chars "e"]
    ltac:(lia) ltac:(lia) ltac:(lia) ltac:(repeat (constructor; [simpl; lia|]); constructor)) as H.
  cbv zeta in H. destruct (write_all _ _) as [codes w]. destruct H as (Hc & Hb & Hr & _).
  split; [exact Hc|]. rewrite Hb in Hr. exact Hr.
Defined.

(** ** A sequence of reads *)
Fixpoint read_all (r : ArrayReader) (lengths : list Z) : list (Z * list Z) * ArrayReader :=
  match lengths with
  | [] => ([], r)
  | n :: rest =>
      let '(code, l, r') := ArrayReader_read r n in
      let '(results, r'') := read_all r' rest in ((code, l) :: results, r'')
  end.

(** Reads of a list: each takes the next bytes if there are enough of them. *)
Fixpoint reads_of (l : list Z) (lengths : list Z) : list (Z * list Z) :=
  match lengths with
  | [] => []
  | n :: rest =>
      if Z.of_nat (length l) <? n then (-1, []) :: reads_of l rest
      else (0, take (Z.to_nat n) l) :: reads_of (drop (Z.to_nat n) l) rest
  end.

(** Whatever sequence of (non-empty) reads is asked for, an ArrayReader
    gives the buffer's bytes in order, refuses with -1 each read that asks for
    more than is left, without moving, and never depends on a byte outside the
    buffer. *)
Theorem ArrayReader_reads (m : mem) (a n : Z) (lengths : list Z) :
  0 <= a -> 0 <= n -> a + n < 2 ^ 64 - 1 -> Forall (fun k => 0 < k < 2 ^ 64) lengths ->
  (read_all (ArrayReader_new m a n) lengths).1 = reads_of (read m a n) lengths.
Proof.
  intros Ha Hn Han Hk.
  assert (reader_ok (ArrayReader_new m a n)) as Hr.
  { unfold reader_ok. cbn. rewrite u64_small by lia. lia. }
  assert (read m a n = remaining (ArrayReader_new m a n)) as ->.
  { cbn. unfold reader_left. cbn. rewrite u64_small by lia. f_equal. lia. }
  revert Hr. generalize (ArrayReader_new m a n) as r.
  induction Hk as [|k rest Hk _ IH]; intros r Hr; cbn [read_all reads_of]; [done|].
  assert (Z.of_nat (length (remaining r)) = Z.max 0 (reader_left r)) as Elen by (cbn; rewrite length_read; lia).
  destruct (Z.ltb_spec (Z.of_nat (length (remaining r))) k).
  - rewrite ArrayReader_read_spec by (done || lia). rewrite (proj2 (Z.ltb_lt _ _)) by lia.
    specialize (IH r Hr). destruct (read_all r rest). cbn [fst] in *. congruence.
  - destruct (@read_some _ _ ArrayReader_laws r k Hr ltac:(lia) ltac:(lia)) as (r' & E & Hr' & Er').
    cbn [reader_read ArrayReader_reader] in E. rewrite E. rewrite <-Er'.
    specialize (IH r' Hr'). destruct (read_all r' rest). cbn [fst] in *. congruence.
Qed.

Lemma ArrayReader_reads_witness :
  (read_all (ArrayReader_new (of_list (chars "4:spam")) 0 6) [2; 5; 4; 1]).1 =
  [(0, chars "4:"); (-1, []); (0, chars "spam"); (-1, [])].
Proof.
  etrans; [apply (ArrayReader_reads (of_list (chars "4:spam")) 0 6 [2; 5; 4; 1])|reflexivity]; try lia.
  repeat (constructor; [lia|]). constructor.
Defined.
