(* ===== verification/BencSerializer.v ===== *)
(** * The bencode serializer (benc/serialization/standard/StandardBencSerializer.c)

    Integers are [i<decimal>e], strings [<length>:<bytes>], lists [l...e],
    dictionaries [d<key><value>...e]. The serializer writes through the Writer
    interface, the parser reads through the Reader interface and returns 0 with
    an object, -2 when the content ran out or -3 when it does not parse. It asks
    the allocator for a string's bytes, as many as the content says, before it
    reads them; an allocator that has not got them does not return
    ([OUT_OF_MEMORY]).

    The parser's recursion and its loops over entries take fuel; more than the
    bytes that are left is enough ([parse_total]). *)
From stdpp Require Import gmap.
From S2P Require Import Prelude Memory Benc ArrayIO.
Open Scope Z_scope.

(** ** Decimal numbers: [snprintf] with PRId64, [strtoul] and [strtol] in base 10 *)
Fixpoint decimal (fuel : nat) (n : Z) : list Z :=
  match fuel with
  | O => []
  | S fuel => if n <? 10 then [48 + n] else decimal fuel (n / 10) ++ [48 + n mod 10]
  end.

Definition print_int64 (n : Z) : list Z :=
  if n <? 0 then chars "-" ++ decimal 20 (- n) else decimal 20 n.

Definition number_of (digits : list Z) : Z := fold_left (fun v c => 10 * v + (c - 48)) digits 0.

Definition strtoul (number : list Z) : Z := Z.min (number_of number) UINT64_MAX.

(** The value and whether the call sets [errno] to ERANGE. *)
Definition strtol (buffer : list Z) : Z * bool :=
  let v := match buffer with
           | [] => 0
           | c :: digits => if c =? 45 then - number_of digits else number_of buffer
           end in
  (Z.max INT64_MIN (Z.min v INT64_MAX), (v <? INT64_MIN) || (INT64_MAX <? v)).

(** ** Serializing *)
Section serializer.
  Context {W : Type} {ops : Writer W}.

Definition writeint64_t (writer : W) (integer : Z) : Z * W := writer_write writer (print_int64 integer).

Definition serializeString (writer : W) (string : String) : Z * W :=
  let '(_, writer) := writeint64_t writer (s64 (Z.of_nat (length string))) in
  let '(_, writer) := writer_write writer (chars ":") in
  writer_write writer string.

Definition serializeint64_t (writer : W) (integer : Z) : Z * W :=
  let '(_, writer) := writer_write writer (chars "i") in
  let '(_, writer) := writeint64_t writer integer in
  writer_write writer (chars "e").

(** The list and the dictionary, given the function for their elements. *)
Section elements.
  Variable serializeGeneric : Object -> W -> Z * W.

Fixpoint serializeList_loop (entry : List) (ret : Z) (writer : W) : Z * W :=
  match entry with
  | [] => (ret, writer)
  | elem :: next =>
      if ret =? 0 then let '(ret, writer) := serializeGeneric elem writer in serializeList_loop next ret writer
      else (ret, writer)
  end.

Definition serializeList_with (writer : W) (list : option List) : Z * W :=
  let '(ret, writer) := writer_write writer (chars "l") in
  let '(ret, writer) :=
    match list with
    | None => (ret, writer)
    | Some list => serializeList_loop list ret writer
    end in
  if ret =? 0 then writer_write writer (chars "e") else (ret, writer).

Fixpoint serializeDictionary_loop (entry : Dict) (writer : W) : W :=
  match entry with
  | [] => writer
  | (key, val) :: next =>
      let '(_, writer) := serializeString writer key in
      let '(_, writer) := serializeGeneric val writer in
      serializeDictionary_loop next writer
  end.

Definition serializeDictionary_with (writer : W) (dictionary : Dict) : Z * W :=
  let '(_, writer) := writer_write writer (chars "d") in
  let writer := serializeDictionary_loop dictionary writer in
  writer_write writer (chars "e").
End elements.

Fixpoint serializeGeneric (obj : Object) (writer : W) : Z * W :=
  match obj with
  | Object_STRING string => serializeString writer string
  | Object_DICT dictionary => serializeDictionary_with serializeGeneric writer dictionary
  | Object_LIST list => serializeList_with serializeGeneric writer (Some list)
  | Object_INTEGER number => serializeint64_t writer number
  | Object_UNPARSABLE => (-2, writer)
  end.

Definition serializeList (writer : W) (list : option List) : Z * W :=
  serializeList_with serializeGeneric writer list.
Definition serializeDictionary (writer : W) (dictionary : Dict) : Z * W :=
  serializeDictionary_with serializeGeneric writer dictionary.
End serializer.

(** ** Parsing *)

(** A parser is a function of the reader: [None] when the fuel has run out, the
    code of a failed parse on the left, the object on the right. *)
Definition Parser (R A : Type) : Type := R -> option ((Z + A) * R).

Definition OUT_OF_CONTENT_TO_READ : Z := -2.
Definition UNPARSABLE : Z := -3.

(** Not a code, and no [int32_t]: the parser did not return, because its
    allocator had no block as large as it asked for. What becomes of the
    process is the caller's to say. *)
Definition OUT_OF_MEMORY : Z := 2 ^ 31.

(** What the parser finds in its process: whether [errno] is ERANGE when it is
    called (nothing on the way to a successful [strtol] changes it), and how
    large a block its allocator has to give. *)
Record Process : Type := { stale_ERANGE : bool; largest_block : Z }.

Definition NUMBER_MAXLENGTH : nat := 21.

Section monad.
  Context {R : Type} {ops : Reader R}.

Definition ret {A} (a : A) : Parser R A := fun r => Some (inr a, r).
Definition fail {A} (code : Z) : Parser R A := fun r => Some (inl code, r).
Definition out_of_fuel {A} : Parser R A := fun _ => None.
Definition bind {A B} (p : Parser R A) (k : A -> Parser R B) : Parser R B := fun r =>
  match p r with
  | None => None
  | Some (inl code, r) => Some (inl code, r)
  | Some (inr a, r) => k a r
  end.

(** [reader->read(into, n, reader)], leaving with [code] when it fails. *)
Definition read_or (code n : Z) : Parser R (list Z) := fun r =>
  let '(c, l, r) := reader_read r n in
  if negb (c =? 0) then Some (inl code, r) else Some (inr l, r).

(** The same where the code tests for a negative result. *)
Definition read_or_neg (code n : Z) : Parser R (list Z) := fun r =>
  let '(c, l, r) := reader_read r n in
  if c <? 0 then Some (inl code, r) else Some (inr l, r).

Definition skip (n : Z) : Parser R unit := fun r => Some (inr tt, reader_skip r n).
End monad.

Notation "x <- p ;; k" := (bind p (fun x => k)) (at level 100, p at next level, right associativity).

Section parser.
  Context {R : Type} {ops : Reader R}.
  Variable process : Process.

Definition first_char (l : list Z) : Z := nth 0 l 0.
Definition is_digit (c : Z) : bool := negb ((c <? 48) || (57 <? c)).

(** The digits up to the colon; [n] more fit in the buffer. *)
Fixpoint length_loop (n : nat) (number : list Z) : Parser R (list Z) :=
  nextChar <- read_or OUT_OF_CONTENT_TO_READ 1 ;;
  let nextChar := first_char nextChar in
  if nextChar =? 58 then ret number
  else if negb (is_digit nextChar) then fail UNPARSABLE
  else match n with
       | O => fail UNPARSABLE
       | S n => length_loop n (number ++ [nextChar])
       end.

Definition parseString : Parser R String :=
  number <- length_loop NUMBER_MAXLENGTH [] ;;
  let length := strtoul number in
  if process.(largest_block) <? u64 (length + 1) then fail OUT_OF_MEMORY
  else
    bytes <- read_or OUT_OF_CONTENT_TO_READ length ;;
    ret (take (Z.to_nat length) bytes).

(** The characters between ['i'] and ['e'], from index [i = 22 - n] on. *)
Fixpoint int_loop (n : nat) (buffer : list Z) : Parser R (list Z) :=
  c <- read_or OUT_OF_CONTENT_TO_READ 1 ;;
  let c := first_char c in
  if c =? 101 then ret buffer
  else if match buffer with [] => c =? 45 | _ => false end then
    match n with O => fail UNPARSABLE | S n => int_loop n (buffer ++ [c]) end
  else if negb (is_digit c) then fail UNPARSABLE
  else match n with O => fail UNPARSABLE | S n => int_loop n (buffer ++ [c]) end.

Definition parseint64_t : Parser R Z :=
  c <- read_or OUT_OF_CONTENT_TO_READ 1 ;;
  if negb (first_char c =? 105) then fail UNPARSABLE
  else
    digits <- int_loop 21 [] ;;
    let buffer := digits ++ chars "e" in
    let '(out, overflow) := strtol digits in
    if (out =? 0) && negb (nth 0 buffer 0 =? 48) && (negb (nth 0 buffer 0 =? 45) || negb (nth 1 buffer 0 =? 48))
    then fail UNPARSABLE
    else if ((out =? INT64_MAX) || (out =? INT64_MIN)) && (process.(stale_ERANGE) || overflow) then fail UNPARSABLE
    else ret out.

Section elements.
  Variable parseGeneric : Parser R Object.

(** The loop of [parseList]: [acc] are the elements read, in order. *)
Fixpoint list_loop (fuel : nat) (acc : List) : Parser R List :=
  nextChar <- read_or OUT_OF_CONTENT_TO_READ 0 ;;
  if first_char nextChar =? 101 then (_ <- skip 1 ;; ret acc)
  else
    element <- parseGeneric ;;
    match fuel with
    | O => out_of_fuel
    | S fuel => list_loop fuel (acc ++ [element])
    end.

Definition parseList_with (fuel : nat) : Parser R List :=
  nextChar <- read_or OUT_OF_CONTENT_TO_READ 1 ;;
  if negb (first_char nextChar =? 108) then fail UNPARSABLE else list_loop fuel [].

(** The loop of [parseDictionary]: each entry is put in front of [acc], the
    entries read before. *)
Fixpoint dict_loop (fuel : nat) (acc : Dict) : Parser R Dict :=
  nextChar <- read_or_neg OUT_OF_CONTENT_TO_READ 0 ;;
  if first_char nextChar =? 101 then (_ <- skip 1 ;; ret acc)
  else
    key <- parseString ;;
    value <- parseGeneric ;;
    match fuel with
    | O => out_of_fuel
    | S fuel => dict_loop fuel ((key, value) :: acc)
    end.

Definition parseDictionary_with (fuel : nat) : Parser R Dict :=
  nextChar <- read_or_neg OUT_OF_CONTENT_TO_READ 1 ;;
  if negb (first_char nextChar =? 100) then fail UNPARSABLE else dict_loop fuel [].
End elements.

Fixpoint parseGeneric (fuel : nat) : Parser R Object :=
  match fuel with
  | O => out_of_fuel
  | S fuel =>
      firstChar <- read_or OUT_OF_CONTENT_TO_READ 0 ;;
      let firstChar := first_char firstChar in
      if (firstChar <=? 57) && (48 <=? firstChar) then string <- parseString ;; ret (Object_STRING string)
      else if firstChar =? 105 then bint <- parseint64_t ;; ret (Object_INTEGER bint)
      else if firstChar =? 108 then
        list <- parseList_with (parseGeneric fuel) fuel ;; ret (Object_LIST list)
      else if firstChar =? 100 then
        dict <- parseDictionary_with (parseGeneric fuel) fuel ;; ret (Object_DICT dict)
      else fail UNPARSABLE
  end.

Definition parseList (fuel : nat) : Parser R List := parseList_with (parseGeneric fuel) fuel.
Definition parseDictionary (fuel : nat) : Parser R Dict := parseDictionary_with (parseGeneric fuel) fuel.
End parser.

Example parse_example :
  option_map fst (parseDictionary {| stale_ERANGE := false; largest_block := 100 |} 40 (ArrayReader_new (of_list (chars "d1:ai-7e1:bl0:4:spamee!")) 0 23)) =
  Some (inr [(chars "b", Object_LIST [Object_STRING []; Object_STRING (chars "spam")]);
             (chars "a", Object_INTEGER (-7))]).
Proof. reflexivity. Qed.

(** ** The format: what an object is written as *)
Definition encode_string (s : String) : list Z := print_int64 (Z.of_nat (length s)) ++ chars ":" ++ s.

Fixpoint encode (o : Object) : list Z :=
  match o with
  | Object_INTEGER n => chars "i" ++ print_int64 n ++ chars "e"
  | Object_STRING s => encode_string s
  | Object_LIST l => chars "l" ++ flat_map encode l ++ chars "e"
  | Object_DICT d => chars "d" ++ flat_map (fun '(k, v) => encode_string k ++ encode v) d ++ chars "e"
  | Object_UNPARSABLE => []
  end.

Definition encode_dict (d : Dict) : list Z := encode (Object_DICT d).

(** Every integer is an [int64_t], every string's length prints as one, and
    every object has a type. *)
Definition string_ok (s : String) : Prop := Z.of_nat (length s) < 2 ^ 63.

Fixpoint serializable (o : Object) : Prop :=
  match o with
  | Object_INTEGER n => INT64_MIN <= n <= INT64_MAX
  | Object_STRING s => string_ok s
  | Object_LIST l => foldr (fun o rest => serializable o /\ rest) True l
  | Object_DICT d => foldr (fun '(k, v) rest => string_ok k /\ serializable v /\ rest) True d
  | Object_UNPARSABLE => False
  end.

(** Induction over objects, with the hypothesis for every element. *)
Lemma Object_rect_elements (Q : Object -> Prop) :
  (forall n, Q (Object_INTEGER n)) -> (forall s, Q (Object_STRING s)) ->
  (forall l, Forall Q l -> Q (Object_LIST l)) ->
  (forall d : Dict, Forall (fun e => Q e.2) d -> Q (Object_DICT d)) ->
  Q Object_UNPARSABLE -> forall o, Q o.
Proof.
  intros Hi Hs Hl Hd Hu. fix IH 1. intros [n|s|l|d|]; [apply Hi|apply Hs| | |apply Hu].
  - apply Hl. induction l; constructor; [apply IH|assumption].
  - apply Hd. induction d as [|[k v] d IHd]; constructor; [apply IH|assumption].
Qed.

Lemma serializable_list l : serializable (Object_LIST l) <-> Forall serializable l.
Proof.
  cbn [serializable]. induction l as [|o l IH]; cbn [foldr]; [split; [constructor|done]|].
  rewrite IH, Forall_cons_iff. done.
Qed.

Lemma serializable_dict d :
  serializable (Object_DICT d) <-> Forall (fun e => string_ok e.1 /\ serializable e.2) d.
Proof.
  cbn [serializable]. induction d as [|[k v] d IH]; cbn [foldr]; [split; [constructor|done]|].
  rewrite IH, Forall_cons_iff. cbn [fst snd]. tauto.
Qed.

(** ** Decimal numbers *)
Lemma length_decimal fuel n : (length (decimal fuel n) <= fuel)%nat.
Proof.
  revert n. induction fuel as [|fuel IH]; intros n; cbn [decimal]; [done|].
  destruct (n <? 10); [cbn; lia|]. rewrite length_app. cbn. specialize (IH (n / 10)). lia.
Qed.

Lemma decimal_digits fuel n : 0 <= n -> Forall (fun c => is_digit c = true) (decimal fuel n).
Proof.
  revert n. induction fuel as [|fuel IH]; intros n Hn; cbn [decimal]; [constructor|].
  assert (forall k, 0 <= k < 10 -> is_digit (48 + k) = true) as Hd by (unfold is_digit; intros k Hk; lia).
  destruct (Z.ltb_spec n 10); [repeat constructor; apply Hd; lia|].
  pose proof (Z.div_pos n 10 ltac:(lia) ltac:(lia)). pose proof (Z.mod_pos_bound n 10 ltac:(lia)).
  apply Forall_app. split; [apply IH; lia|]. repeat constructor. apply Hd. lia.
Qed.

Lemma number_of_app l c : number_of (l ++ [c]) = 10 * number_of l + (c - 48).
Proof. unfold number_of. rewrite fold_left_app. done. Qed.

Lemma number_of_decimal fuel n : 0 <= n < 10 ^ Z.of_nat fuel -> number_of (decimal fuel n) = n.
Proof.
  revert n. induction fuel as [|fuel IH]; intros n Hn; cbn [decimal].
  { cbn in Hn. cbn. lia. }
  destruct (Z.ltb_spec n 10); [cbn; lia|]. rewrite Nat2Z.inj_succ, Z.pow_succ_r in Hn by lia.
  pose proof (Z.div_mod n 10 ltac:(lia)). pose proof (Z.mod_pos_bound n 10 ltac:(lia)).
  rewrite number_of_app, IH by lia. lia.
Qed.

Lemma decimal_head fuel n : 0 <= n -> exists c l, decimal (S fuel) n = c :: l /\ is_digit c = true.
Proof.
  intros Hn. pose proof (decimal_digits (S fuel) n Hn) as Hd.
  destruct (decimal (S fuel) n) as [|c l] eqn:E.
  - cbn [decimal] in E. destruct (n <? 10); [done|]. apply app_eq_nil in E as [_ E]. done.
  - inversion Hd; subst. eauto.
Qed.

Lemma length_print_int64 n : (length (print_int64 n) <= 21)%nat.
Proof.
  unfold print_int64. destruct (n <? 0); [rewrite length_app|].
  - pose proof (length_decimal 20 (- n)). change (length (chars "-")) with 1%nat. lia.
  - pose proof (length_decimal 20 n). lia.
Qed.

(** The length and the bytes of a string as it is written. *)
Lemma length_encode_string s : (length (encode_string s) <= 22 + length s)%nat.
Proof.
  unfold encode_string. rewrite !length_app. pose proof (length_print_int64 (Z.of_nat (length s))).
  change (length (chars ":")) with 1%nat. lia.
Qed.

Lemma encode_string_ok s : bytes_ok s -> bytes_ok (encode_string s).
Proof.
  intros Hs. unfold encode_string, print_int64. rewrite (proj2 (Z.ltb_ge _ _)) by lia.
  apply Forall_app. split; [|apply Forall_app; split; [by apply bytes_ok_check|done]].
  eapply Forall_impl; [|apply decimal_digits; lia]. unfold is_digit, is_byte. cbn beta. intros c Hc.
  destruct (Z.ltb_spec c 48), (Z.ltb_spec 57 c); try discriminate Hc. lia.
Qed.

(** ** The serializer writes the format *)
Section serialize.
  Context {W : Type} {ops : Writer W} {laws : WriterLaws W}.

  (** Anything else about the writer that every write keeps. *)
  Context (Inv : W -> Prop).
  Context (Inv_write : forall w l, writer_valid w -> Inv w -> Z.of_nat (length l) < 2 ^ 64 ->
    Inv (writer_write w l).2).

Definition ok (w : W) : Prop := writer_valid w /\ Inv w.

(** [f] writes [l]: all of it when it fits, and fails otherwise. *)
Definition emits (f : W -> Z * W) (l : list Z) : Prop := forall w, ok w ->
  ok (f w).2 /\ view (f w).2 = view_after (view w) l /\
  (f w).1 = match view (f w).2 with Some _ => 0 | None => -1 end.

Lemma view_after_app v l1 l2 : view_after (view_after v l1) l2 = view_after v (l1 ++ l2).
Proof.
  destruct v as [[out room]|]; cbn [view_after]; [|done]. rewrite length_app.
  destruct (Z.leb_spec (Z.of_nat (length l1)) room); cbn [view_after].
  - destruct (Z.leb_spec (Z.of_nat (length l2)) (room - Z.of_nat (length l1))),
      (Z.leb_spec (Z.of_nat (length l1 + length l2)) room); try lia; [|done].
    rewrite app_assoc. do 2 f_equal. lia.
  - destruct (Z.leb_spec (Z.of_nat (length l1 + length l2)) room); [lia|done].
Qed.

Lemma emits_write l : Z.of_nat (length l) < 2 ^ 64 -> emits (fun w => writer_write w l) l.
Proof.
  intros Hl w [Hw Hi]. destruct (write_view w l Hw Hl) as (Hv & E & Ec). rewrite E.
  split; [|done]. split; [done|]. apply Inv_write; done.
Qed.

(** One after the other; the first return code is not looked at. *)
Lemma emits_seq f g l1 l2 : emits f l1 -> emits g l2 ->
  emits (fun w => let '(_, w) := f w in g w) (l1 ++ l2).
Proof.
  intros Hf Hg w Hw. destruct (Hf w Hw) as (Hv & E & _). destruct (f w) as [c w1]. cbn [fst snd] in *.
  destruct (Hg w1 Hv) as (Hv' & E' & Ec). rewrite E, view_after_app in E'. done.
Qed.

Lemma emits_string s : string_ok s -> emits (fun w => serializeString w s) (encode_string s).
Proof.
  intros Hs. unfold string_ok in Hs. unfold serializeString, writeint64_t, encode_string.
  rewrite s64_small by lia. pose proof (length_print_int64 (Z.of_nat (length s))).
  apply (emits_seq (fun w => writer_write w _)); [apply emits_write; lia|].
  apply (emits_seq (fun w => writer_write w _)); apply emits_write; [done|lia].
Qed.

Lemma emits_int n : emits (fun w => serializeint64_t w n) (chars "i" ++ print_int64 n ++ chars "e").
Proof.
  pose proof (length_print_int64 n). unfold serializeint64_t, writeint64_t.
  apply (emits_seq (fun w => writer_write w _)); [apply emits_write; done|].
  apply (emits_seq (fun w => writer_write w _)); apply emits_write; [lia|done].
Qed.

Lemma view_after_nil w : ok w -> view_after (view w) [] = view w.
Proof.
  intros Hw. destruct (view w) as [[out room]|] eqn:E; cbn [view_after length]; [|done].
  pose proof (room_nonneg w out room (proj1 Hw) E). destruct (Z.leb_spec (Z.of_nat 0) room); [|lia].
  rewrite app_nil_r. do 2 f_equal. lia.
Qed.

(** A loop that stops after a failed write, as a failed writer would. *)
Lemma serializeList_loop_spec l : Forall (fun o => emits (serializeGeneric o) (encode o)) l ->
  forall ret w, ok w -> ret = (match view w with Some _ => 0 | None => -1 end) ->
  let '(ret', w') := serializeList_loop serializeGeneric l ret w in
  ok w' /\ view w' = view_after (view w) (flat_map encode l) /\
  ret' = match view w' with Some _ => 0 | None => -1 end.
Proof.
  induction 1 as [|o l Ho _ IH]; intros ret w Hv Hret; cbn [serializeList_loop flat_map].
  - rewrite view_after_nil by done. done.
  - rewrite Hret. destruct (view w) as [v|] eqn:E; cbn [Z.eqb].
    + destruct (Ho w Hv) as (Hv1 & E1 & Ec1). destruct (serializeGeneric o w) as [c w1]. cbn [fst snd] in *.
      specialize (IH c w1 Hv1 Ec1). rewrite E1, view_after_app, E in IH. exact IH.
    + rewrite E. done.
Qed.

Lemma emits_list l : Forall (fun o => emits (serializeGeneric o) (encode o)) l ->
  emits (fun w => serializeList_with serializeGeneric w (Some l)) (encode (Object_LIST l)).
Proof.
  intros Hl w Hw. unfold serializeList_with. cbn [encode]. rewrite <-!view_after_app.
  destruct (emits_write (chars "l") ltac:(done) w Hw) as (Hv & <- & Hc).
  destruct (writer_write w (chars "l")) as [c w1]. cbn [fst snd] in *.
  pose proof (serializeList_loop_spec l Hl c w1 Hv Hc) as H.
  destruct (serializeList_loop serializeGeneric l c w1) as [c2 w2]. destruct H as (Hv2 & <- & Hc2).
  rewrite Hc2. destruct (view w2) as [v|] eqn:E; cbn [Z.eqb].
  - rewrite <-E. apply emits_write; done.
  - cbn [fst snd]. rewrite E. done.
Qed.

Lemma serializeDictionary_loop_spec (d : Dict) :
  Forall (fun e => string_ok e.1 /\ emits (serializeGeneric e.2) (encode e.2)) d ->
  forall w, ok w ->
  ok (serializeDictionary_loop serializeGeneric d w) /\
  view (serializeDictionary_loop serializeGeneric d w) =
    view_after (view w) (flat_map (fun '(k, v) => encode_string k ++ encode v) d).
Proof.
  induction 1 as [|[k v] d [Hk Ho] _ IH]; intros w Hw; cbn [serializeDictionary_loop flat_map].
  - rewrite view_after_nil by done. done.
  - cbn [fst snd] in *. rewrite <-(view_after_app (view w) (encode_string k ++ encode v)),
      <-(view_after_app (view w) (encode_string k) (encode v)).
    destruct (emits_string k Hk w Hw) as (Hv1 & <- & _). destruct (serializeString w k) as [c w1].
    cbn [snd] in *. destruct (Ho w1 Hv1) as (Hv2 & <- & _). destruct (serializeGeneric v w1) as [c2 w2]. apply IH, Hv2.
Qed.

Lemma emits_dict (d : Dict) :
  Forall (fun e => string_ok e.1 /\ emits (serializeGeneric e.2) (encode e.2)) d ->
  emits (fun w => serializeDictionary_with serializeGeneric w d) (encode_dict d).
Proof.
  intros Hd w Hw. unfold serializeDictionary_with, encode_dict. cbn [encode]. rewrite <-!view_after_app.
  destruct (emits_write (chars "d") ltac:(done) w Hw) as (Hv & <- & _).
  destruct (writer_write w (chars "d")) as [c w1]. cbn [fst snd] in *.
  destruct (serializeDictionary_loop_spec d Hd w1 Hv) as (Hv2 & <-). apply emits_write; done.
Qed.

Lemma serializeGeneric_emits o : serializable o -> emits (serializeGeneric o) (encode o).
Proof.
  induction o as [n|s|l IH|d IH|] using Object_rect_elements; intros Ho.
  - apply emits_int.
  - apply emits_string, Ho.
  - apply emits_list. apply serializable_list in Ho. rewrite List.Forall_forall in *. auto.
  - apply emits_dict. apply serializable_dict in Ho. rewrite List.Forall_forall in *.
    intros e He. split; [apply (Ho e He)|]. apply IH; [done|apply (Ho e He)].
  - done.
Qed.
End serialize.

(** ** The parser reads the format back *)

(** What a parsed object is: dictionaries come out with their entries in the
    opposite order. *)
Fixpoint parsed (o : Object) : Object :=
  match o with
  | Object_LIST l => Object_LIST (map parsed l)
  | Object_DICT d => Object_DICT (rev (map (fun '(k, v) => (k, parsed v)) d))
  | o => o
  end.

Definition parsed_dict (d : Dict) : Dict := rev (map (fun '(k, v) => (k, parsed v)) d).

Lemma encode_head o : serializable o -> exists c l, encode o = c :: l /\ c <> 101.
Proof.
  destruct o as [n|s|l|d|]; cbn [encode serializable]; intros Ho; [eexists _, _; done| |eexists _, _; done..|done].
  unfold encode_string, print_int64. destruct (Z.ltb_spec (Z.of_nat (length s)) 0); [lia|].
  destruct (decimal_head 19 (Z.of_nat (length s)) ltac:(lia)) as (c & l & -> & Hc).
  eexists _, _. split; [done|]. unfold is_digit in Hc. lia.
Qed.

Section parse.
  Context {R : Type} {ops : Reader R} {laws : ReaderLaws R}.

(** [p] parses the bytes [l] to [a], whatever follows them with [Q]. *)
Definition parses {A} (Q : list Z -> Prop) (p : Parser R A) (l : list Z) (a : A) : Prop :=
  forall r rest, valid r -> remaining r = l ++ rest -> Q rest ->
  exists r', p r = Some (inr a, r') /\ valid r' /\ remaining r' = rest.

Definition any (_ : list Z) : Prop := True.
Definition more (l : list Z) : Prop := l <> [].

Lemma parses_ret {A} Q (a : A) : parses Q (ret a) [] a.
Proof. intros r rest Hr E _. exists r. done. Qed.

Lemma parses_bind {A B} (Q Q' : list Z -> Prop) (p : Parser R A) (k : A -> Parser R B) l1 l2 a b :
  parses Q' p l1 a -> parses Q (k a) l2 b -> (forall rest, Q rest -> Q' (l2 ++ rest)) ->
  parses Q (bind p k) (l1 ++ l2) b.
Proof.
  intros Hp Hk HQ r rest Hr E HQr. rewrite <-app_assoc in E.
  destruct (Hp r (l2 ++ rest) Hr E (HQ rest HQr)) as (r1 & E1 & Hr1 & Erest).
  unfold bind. rewrite E1. apply Hk; done.
Qed.

Lemma parses_weaken {A} (Q Q' : list Z -> Prop) (p : Parser R A) l a :
  (forall rest, Q' rest -> Q rest) -> parses Q p l a -> parses Q' p l a.
Proof. intros HQ Hp r rest Hr E Hrest. apply Hp; auto. Qed.

(** One character. *)
Lemma parses_char code c Q : parses Q (read_or code 1) [c] [c].
Proof.
  intros r rest Hr E _.
  destruct (read_some r 1 Hr ltac:(rewrite E; cbn; lia) ltac:(lia)) as (r' & Er & Hr' & Erest).
  exists r'. unfold read_or. rewrite Er, E. cbn. rewrite Erest, E. done.
Qed.

Lemma parses_char_neg code c Q : parses Q (read_or_neg code 1) [c] [c].
Proof.
  intros r rest Hr E _.
  destruct (read_some r 1 Hr ltac:(rewrite E; cbn; lia) ltac:(lia)) as (r' & Er & Hr' & Erest).
  exists r'. unfold read_or_neg. rewrite Er, E. cbn. rewrite Erest, E. done.
Qed.

Lemma parses_peek {B} Q code (k : list Z -> Parser R B) c l b :
  parses Q (k [c]) (c :: l) b -> parses Q (bind (read_or code 0) k) (c :: l) b.
Proof.
  intros Hk r rest Hr E HQ. destruct (read_peek r c (l ++ rest) Hr E) as (r' & Er & Hr' & E').
  unfold bind, read_or. rewrite Er. cbn [Z.eqb negb]. apply Hk; done.
Qed.

Lemma parses_peek_neg {B} Q code (k : list Z -> Parser R B) c l b :
  parses Q (k [c]) (c :: l) b -> parses Q (bind (read_or_neg code 0) k) (c :: l) b.
Proof.
  intros Hk r rest Hr E HQ. destruct (read_peek r c (l ++ rest) Hr E) as (r' & Er & Hr' & E').
  unfold bind, read_or_neg. rewrite Er. cbn. apply Hk; done.
Qed.

Lemma parses_skip {A} Q c (a : A) : parses Q (_ <- skip 1 ;; ret a) [c] a.
Proof.
  intros r rest Hr E _. destruct (skip_one r c rest Hr E) as [Hr' E'].
  eexists. unfold bind, skip, ret. done.
Qed.

(** Numbers. *)
Lemma parses_length n ds acc : (length ds <= n)%nat -> Forall (fun c => is_digit c = true) ds ->
  parses any (length_loop n acc) (ds ++ chars ":") (acc ++ ds).
Proof.
  intros Hn Hd. revert n acc Hn. induction Hd as [|c ds Hc Hd IH]; intros n acc Hn; cbn [app length] in *.
  - rewrite app_nil_r. destruct n; cbn [length_loop];
      apply (parses_bind any any _ _ [58] [] [58]); done || apply parses_char || apply parses_ret.
  - destruct n as [|n]; [lia|]. cbn [length_loop].
    apply (parses_bind any any _ _ [c] (ds ++ chars ":") [c]); [apply parses_char| |done].
    cbn [first_char nth]. rewrite Hc. replace (c =? 58) with false by (unfold is_digit in Hc; lia).
    cbn [negb]. rewrite (cons_middle c acc ds), app_assoc. apply IH. lia.
Qed.

Lemma parses_int_digits n ds acc : (length ds <= n)%nat -> Forall (fun c => is_digit c = true) ds ->
  parses any (int_loop n acc) (ds ++ chars "e") (acc ++ ds).
Proof.
  intros Hn Hd. revert n acc Hn. induction Hd as [|c ds Hc Hd IH]; intros n acc Hn; cbn [app length] in *.
  - rewrite app_nil_r. destruct n; cbn [int_loop];
      apply (parses_bind any any _ _ [101] [] [101]); done || apply parses_char || apply parses_ret.
  - destruct n as [|n]; [lia|]. cbn [int_loop].
    apply (parses_bind any any _ _ [c] (ds ++ chars "e") [c]); [apply parses_char| |done].
    cbn [first_char nth]. rewrite Hc. unfold is_digit in Hc.
    replace (c =? 101) with false by lia. replace (c =? 45) with false by lia.
    replace (match acc with [] => false | _ => false end) with false by (destruct acc; done).
    cbn [negb]. rewrite (cons_middle c acc ds), app_assoc. apply IH. lia.
Qed.

Lemma strtoul_decimal n : 0 <= n < 2 ^ 63 -> strtoul (decimal 20 n) = n.
Proof. intros Hn. unfold strtoul, UINT64_MAX. rewrite number_of_decimal by lia. lia. Qed.

(** The allocator has blocks as large as the bencoding [l], in which every
    string is longer than what the parser asks for it. *)
Definition room_for (process : Process) (l : list Z) : Prop := Z.of_nat (length l) <= process.(largest_block).

Lemma length_encode_string_lower s : (length s + 2 <= length (encode_string s))%nat.
Proof.
  unfold encode_string, print_int64. rewrite (proj2 (Z.ltb_ge _ _)) by lia.
  destruct (decimal_head 19 (Z.of_nat (length s)) ltac:(lia)) as (c & l & -> & _).
  rewrite !length_app. change (length (chars ":")) with 1%nat. cbn [length]. lia.
Qed.

Lemma parses_string process s : string_ok s -> room_for process (encode_string s) ->
  parses more (parseString process) (encode_string s) s.
Proof.
  unfold string_ok, room_for. intros Hs Hroom. pose proof (length_encode_string_lower s).
  assert (process.(largest_block) <? u64 (Z.of_nat (length s) + 1) = false) as Hmalloc
    by (rewrite u64_small by lia; lia).
  clear Hroom. unfold parseString, encode_string, print_int64.
  destruct (Z.ltb_spec (Z.of_nat (length s)) 0); [lia|]. rewrite app_assoc.
  apply (parses_bind more any _ _ _ _ ([] ++ decimal 20 (Z.of_nat (length s)))).
  - apply parses_length; [|apply decimal_digits; lia].
    pose proof (length_decimal 20 (Z.of_nat (length s))). unfold NUMBER_MAXLENGTH. lia.
  - cbv zeta. cbn [app]. rewrite strtoul_decimal, Hmalloc by lia. intros r rest Hr E Hrest.
    destruct s as [|c s].
    + cbn [length Z.of_nat app] in *. destruct rest as [|c rest]; [done|].
      destruct (read_peek r c rest Hr E) as (r' & Er & Hr' & E').
      unfold bind, read_or. change (Z.of_nat 0) with 0. rewrite Er. cbn. exists r'. done.
    + destruct (read_some r (Z.of_nat (length (c :: s))) Hr) as (r' & Er & Hr' & E').
      { rewrite E, length_app. cbn [length]. lia. } { lia. }
      rewrite E, Nat2Z.id in Er. rewrite E, Nat2Z.id in E'.
      rewrite take_app_length in Er. rewrite drop_app_length in E'.
      unfold bind, read_or. rewrite Er. cbn [Z.eqb negb]. exists r'.
      rewrite Nat2Z.id, firstn_all. done.
  - done.
Qed.

(** ** Integers *)
Lemma chars_minus : chars "-" = [45].
Proof. done. Qed.

Lemma strtol_print n : INT64_MIN <= n <= INT64_MAX -> strtol (print_int64 n) = (n, false).
Proof.
  unfold INT64_MIN, INT64_MAX. intros Hn. unfold print_int64. destruct (Z.ltb_spec n 0).
  - rewrite chars_minus. cbn [app]. unfold strtol. cbn [Z.eqb Pos.eqb].
    rewrite number_of_decimal by lia. unfold INT64_MIN, INT64_MAX. f_equal; lia.
  - destruct (decimal_head 19 n ltac:(lia)) as (c & l & E & Hc).
    assert (number_of (c :: l) = n) as Ev by (rewrite <-E; apply number_of_decimal; lia).
    rewrite E. unfold strtol. unfold is_digit in Hc. destruct (Z.eqb_spec c 45); [lia|].
    rewrite Ev. unfold INT64_MIN, INT64_MAX. f_equal; lia.
Qed.

Lemma parses_int_sign n ds : (length ds <= n)%nat -> Forall (fun c => is_digit c = true) ds ->
  parses any (int_loop (S n) []) ([45] ++ (ds ++ chars "e")) ([45] ++ ds).
Proof.
  intros Hn Hd. cbn [int_loop].
  apply (parses_bind any any _ _ [45] _ [45]); [apply parses_char| |done].
  cbn [first_char nth Z.eqb Pos.eqb]. apply (parses_int_digits n ds [45]); done.
Qed.

(** What stands between ['i'] and ['e'] is read in whole. *)
Lemma parses_int_body n : parses any (int_loop 21 []) (print_int64 n ++ chars "e") (print_int64 n).
Proof.
  unfold print_int64. destruct (Z.ltb_spec n 0).
  - rewrite chars_minus, <-app_assoc.
    apply parses_int_sign; [apply length_decimal|apply decimal_digits; lia].
  - pose proof (length_decimal 20 n).
    apply (parses_int_digits 21 (decimal 20 n) []); [lia|apply decimal_digits; lia].
Qed.

(** The extreme numbers are refused when [errno] was ERANGE before the call. *)
Definition int_passes (erange : bool) (n : Z) : bool :=
  negb (erange && ((n =? INT64_MAX) || (n =? INT64_MIN))).

Lemma parses_int process n : INT64_MIN <= n <= INT64_MAX -> int_passes process.(stale_ERANGE) n = true ->
  parses any (parseint64_t process) (chars "i" ++ print_int64 n ++ chars "e") n.
Proof.
  intros Hn Hp. apply (parses_bind any any _ _ (chars "i") _ [105]); [apply parses_char| |done].
  cbn [first_char nth Z.eqb Pos.eqb negb]. rewrite <-(app_nil_r (print_int64 n ++ chars "e")).
  apply (parses_bind any any _ _ _ [] (print_int64 n)); [apply parses_int_body| |done].
  rewrite strtol_print by done. cbv zeta beta iota. rewrite orb_false_r.
  replace ((n =? 0) && _ && _) with false.
  - rewrite andb_comm. unfold int_passes in Hp. apply negb_true_iff in Hp. rewrite Hp. apply parses_ret.
  - destruct (Z.eqb_spec n 0) as [->|]; done.
Qed.

(** ** Lists, dictionaries and objects *)
Section elements.
  Context (generic : Parser R Object).

Lemma parses_list_loop l fuel acc : (length l <= fuel)%nat ->
  Forall (fun o => serializable o /\ parses more generic (encode o) (parsed o)) l ->
  parses any (list_loop generic fuel acc) (flat_map encode l ++ chars "e") (acc ++ map parsed l).
Proof.
  intros Hf Hl. revert fuel acc Hf.
  induction Hl as [|o l [Ho Hp] _ IH]; intros fuel acc Hf; cbn [flat_map map app length] in *.
  - rewrite app_nil_r. destruct fuel; cbn [list_loop]; apply parses_peek, parses_skip.
  - destruct fuel as [|fuel]; [lia|]. cbn [list_loop].
    destruct (encode_head o Ho) as (c & t & E & Hc). rewrite E in *. cbn [app].
    apply parses_peek. cbn [first_char nth]. destruct (Z.eqb_spec c 101); [lia|].
    rewrite <-app_assoc. change (c :: t ++ ?x) with ((c :: t) ++ x).
    apply (parses_bind any more _ _ _ _ (parsed o)); [exact Hp| |].
    + rewrite (cons_middle (parsed o) acc (map parsed l)), app_assoc. apply IH. lia.
    + intros rest _. destruct (flat_map encode l); done.
Qed.

Lemma encode_string_head s : string_ok s -> exists c l, encode_string s = c :: l /\ c <> 101.
Proof. intros Hs. apply (encode_head (Object_STRING s) Hs). Qed.

Lemma parses_dict_loop process (d : Dict) fuel acc : (length d <= fuel)%nat ->
  Forall (fun e => string_ok e.1 /\ room_for process (encode_string e.1) /\
    serializable e.2 /\ parses more generic (encode e.2) (parsed e.2)) d ->
  parses any (dict_loop process generic fuel acc)
    (flat_map (fun '(k, v) => encode_string k ++ encode v) d ++ chars "e") (parsed_dict d ++ acc).
Proof.
  intros Hf Hd. revert fuel acc Hf.
  induction Hd as [|[k v] d (Hk & Hroom & Hv & Hp) _ IH]; intros fuel acc Hf; cbn [flat_map app length fst snd] in *.
  - destruct fuel; cbn [dict_loop]; apply parses_peek_neg, parses_skip.
  - destruct fuel as [|fuel]; [lia|]. cbn [dict_loop].
    destruct (encode_string_head k Hk) as (c & t & E & Hc). pose proof (parses_string process k Hk Hroom) as Hs.
    rewrite E in *. rewrite <-!app_assoc. cbn [app].
    apply parses_peek_neg. cbn [first_char nth]. destruct (Z.eqb_spec c 101); [lia|].
    change (c :: t ++ ?x) with ((c :: t) ++ x).
    destruct (encode_head v Hv) as (c' & t' & E' & _).
    apply (parses_bind any more _ _ _ _ k); [exact Hs| |intros rest _; rewrite E'; done].
    apply (parses_bind any more _ _ _ _ (parsed v)); [exact Hp| |].
    + unfold parsed_dict. cbn [map rev]. rewrite <-app_assoc. apply (IH fuel ((k, parsed v) :: acc)). lia.
    + intros rest _. destruct (flat_map _ d); done.
Qed.
End elements.

Lemma flat_map_le {A} (f : A -> list Z) l x : In x l -> (length (f x) <= length (flat_map f l))%nat.
Proof.
  induction l as [|y l IH]; intros []; cbn [flat_map]; rewrite length_app; [subst; lia|]. specialize (IH H). lia.
Qed.

Lemma flat_map_count {A} (f : A -> list Z) l : (forall x, In x l -> f x <> []) -> (length l <= length (flat_map f l))%nat.
Proof.
  induction l as [|y l IH]; intros H; cbn [flat_map length]; [lia|]. rewrite length_app.
  specialize (IH (fun x Hx => H x (or_intror Hx))). pose proof (H y (or_introl eq_refl)) as Hy.
  destruct (f y); [done|]. cbn [length]. lia.
Qed.

(** The integers of an object that [errno] does not spoil. *)
Fixpoint ints_pass (erange : bool) (o : Object) : Prop :=
  match o with
  | Object_INTEGER n => int_passes erange n = true
  | Object_LIST l => foldr (fun o rest => ints_pass erange o /\ rest) True l
  | Object_DICT d => foldr (fun '(_, v) rest => ints_pass erange v /\ rest) True d
  | _ => True
  end.

Lemma ints_pass_list erange l : ints_pass erange (Object_LIST l) <-> Forall (ints_pass erange) l.
Proof.
  cbn [ints_pass]. induction l as [|o l IH]; cbn [foldr]; [split; [constructor|done]|].
  rewrite IH, Forall_cons_iff. done.
Qed.

Lemma ints_pass_dict erange d : ints_pass erange (Object_DICT d) <-> Forall (fun e => ints_pass erange e.2) d.
Proof.
  cbn [ints_pass]. induction d as [|[k v] d IH]; cbn [foldr]; [split; [constructor|done]|].
  rewrite IH, Forall_cons_iff. done.
Qed.

(** The statement of [parses_generic], for use as an induction hypothesis. *)
Definition parses_back (process : Process) (o : Object) : Prop := forall fuel,
  serializable o -> ints_pass process.(stale_ERANGE) o -> room_for process (encode o) ->
  (length (encode o) < fuel)%nat ->
  parses more (parseGeneric process fuel) (encode o) (parsed o).

Lemma parses_list process l fuel : Forall (parses_back process) l ->
  serializable (Object_LIST l) -> ints_pass process.(stale_ERANGE) (Object_LIST l) ->
  room_for process (encode (Object_LIST l)) -> (length (encode (Object_LIST l)) <= fuel)%nat ->
  parses any (parseList process fuel) (encode (Object_LIST l)) (map parsed l).
Proof.
  intros IH Ho%serializable_list Hi%ints_pass_list Hm Hf. unfold room_for in Hm. cbn [encode] in *.
  rewrite !length_app in Hf, Hm. cbn [length chars] in Hf, Hm. rewrite List.Forall_forall in IH, Ho, Hi.
  apply (parses_bind any any _ _ (chars "l") _ [108]); [apply parses_char| |done].
  cbn [first_char nth Z.eqb Pos.eqb negb]. apply (parses_list_loop _ l fuel []).
  - pose proof (flat_map_count encode l) as Hc. etrans; [apply Hc|lia].
    intros o Hin. destruct (encode_head o (Ho o Hin)) as (c & t & -> & _). done.
  - apply List.Forall_forall. intros o Hin. split; [auto|].
    pose proof (flat_map_le encode l o Hin). unfold room_for. apply IH; auto; unfold room_for; cbn in Hf, Hm; lia.
Qed.

Lemma parses_dict process (d : Dict) fuel : Forall (fun e => parses_back process e.2) d ->
  serializable (Object_DICT d) -> ints_pass process.(stale_ERANGE) (Object_DICT d) ->
  room_for process (encode_dict d) -> (length (encode_dict d) <= fuel)%nat ->
  parses any (parseDictionary process fuel) (encode_dict d) (parsed_dict d).
Proof.
  intros IH Ho%serializable_dict Hi%ints_pass_dict Hm Hf. unfold room_for, encode_dict in *. cbn [encode] in *.
  rewrite !length_app in Hf, Hm. rewrite List.Forall_forall in IH, Ho, Hi.
  apply (parses_bind any any _ _ (chars "d") _ [100]); [apply parses_char_neg| |done].
  cbn [first_char nth Z.eqb Pos.eqb negb]. rewrite <-(app_nil_r (parsed_dict d)).
  set (f := fun '(k, v) => _) in Hf, Hm |- *. apply (parses_dict_loop _ process d fuel []).
  - pose proof (flat_map_count f d) as Hc. etrans; [apply Hc|lia].
    intros [k v] Hin. destruct (encode_string_head k) as (c & t & E & _); [apply (Ho _ Hin)|].
    cbn. rewrite E. done.
  - apply List.Forall_forall. intros [k v] Hin. specialize (Ho _ Hin) as [Hk Hv]. cbn [fst snd] in *.
    pose proof (flat_map_le f d _ Hin) as Hle. cbn [f] in Hle. rewrite length_app in Hle.
    change (length (chars "d")) with 1%nat in Hf, Hm.
    split; [done|]. split; [unfold room_for; lia|]. split; [done|].
    apply (IH _ Hin); [done|apply (Hi _ Hin)|unfold room_for; cbn [snd]; lia|cbn [snd]; lia].
Qed.

Lemma parses_generic process o : parses_back process o.
Proof.
  unfold parses_back.
  induction o as [n|s|l IH|d IH|] using Object_rect_elements; intros [|fuel] Ho Hi Hm Hf; try lia;
    cbn [parseGeneric parsed].
  - cbn [encode]. apply parses_peek. cbn [first_char nth Z.leb Z.compare Pos.compare Pos.compare_cont andb Z.eqb Pos.eqb].
    rewrite <-(app_nil_r (105 :: _)). apply (parses_bind more any _ _ _ [] n); [|apply parses_ret|done].
    apply parses_int; done.
  - pose proof (parses_string process s Ho Hm) as Hs. clear Hm.
    cbn [encode] in *. unfold encode_string, print_int64 in *.
    destruct (Z.ltb_spec (Z.of_nat (length s)) 0); [lia|].
    destruct (decimal_head 19 (Z.of_nat (length s)) ltac:(lia)) as (c & l & E & Hc).
    rewrite E in *. cbn [app] in *. apply parses_peek. cbn [first_char nth].
    unfold is_digit in Hc. replace ((c <=? 57) && (48 <=? c)) with true by lia.
    rewrite <-(app_nil_r (c :: _)). apply (parses_bind more more _ _ _ [] s); [done|apply parses_ret|done].
  - pose proof (parses_list process l fuel IH Ho Hi Hm ltac:(lia)) as Hl. cbn [encode] in *.
    apply parses_peek. cbn [first_char nth Z.leb Z.compare Pos.compare Pos.compare_cont andb Z.eqb Pos.eqb].
    rewrite <-(app_nil_r (108 :: _)). apply (parses_bind more any _ _ _ [] (map parsed l)); [exact Hl|apply parses_ret|done].
  - pose proof (parses_dict process d fuel IH Ho Hi Hm ltac:(unfold encode_dict; lia)) as Hl.
    unfold encode_dict in Hl. cbn [encode] in *.
    apply parses_peek. cbn [first_char nth Z.leb Z.compare Pos.compare Pos.compare_cont andb Z.eqb Pos.eqb].
    rewrite <-(app_nil_r (100 :: _)). apply (parses_bind more any _ _ _ [] (parsed_dict d)); [exact Hl|apply parses_ret|done].
  - done.
Qed.
End parse.

(** ** The parser terminates on every input *)
Section total.
  Context {R : Type} {ops : Reader R} {laws : ReaderLaws R}.

(** With at most [b] bytes left, [p] returns; when it succeeds it has read at
    least [k], and otherwise the code is one of the two, or the allocator did not return. *)
Definition total {A} (b : nat) (p : Parser R A) (k : nat) : Prop := forall r, valid r -> (budget r <= b)%nat ->
  exists res r', p r = Some (res, r') /\ valid r' /\
    match res with
    | inr _ => (budget r' + k <= budget r)%nat
    | inl code => (code = -2 \/ code = -3 \/ code = OUT_OF_MEMORY) /\ (budget r' <= budget r)%nat
    end.

Lemma total_ret {A} b (a : A) : total b (ret a) 0.
Proof. intros r Hr Hb. eexists _, _. split; [done|]. cbn. split; [done|lia]. Qed.

Lemma total_fail {A} b k : total b (@fail R A UNPARSABLE) k.
Proof. intros r Hr Hb. eexists _, _. split; [done|]. cbn. unfold UNPARSABLE. split; [done|lia]. Qed.

Lemma total_memory {A} b k : total b (@fail R A OUT_OF_MEMORY) k.
Proof. intros r Hr Hb. eexists _, _. split; [done|]. cbn. split; [done|]. split; [auto|lia]. Qed.

Lemma total_bind_read {A B} b (p : Parser R A) (f : A -> Parser R B) k k' :
  total b p k -> ((k <= b)%nat -> forall a, total (b - k) (f a) k') -> total b (bind p f) (k + k').
Proof.
  intros Hp Hf r Hr Hb. destruct (Hp r Hr Hb) as (res & r1 & E & Hr1 & Hb1).
  unfold bind. rewrite E. destruct res as [c|a].
  - eexists _, _. split; [done|]. split; [done|lia].
  - destruct (Hf ltac:(lia) a r1 Hr1 ltac:(lia)) as (res & r2 & E2 & Hr2 & Hb2).
    eexists _, _. split; [exact E2|]. split; [done|]. destruct res; lia.
Qed.

Lemma total_bind {A B} b (p : Parser R A) (f : A -> Parser R B) k k' :
  total b p k -> (forall a, total (b - k) (f a) k') -> total b (bind p f) (k + k').
Proof. intros Hp Hf. apply total_bind_read; auto. Qed.

Lemma total_weaken {A} b b' (p : Parser R A) k k' : total b p k -> (b' <= b)%nat -> (k' <= k)%nat -> total b' p k'.
Proof.
  intros Hp Hb Hk r Hr Hbr. destruct (Hp r Hr ltac:(lia)) as (res & r1 & E & Hr1 & Hb1).
  exists res, r1. split; [done|]. split; [done|]. destruct res; lia.
Qed.

Lemma total_read b n : 0 <= n < 2 ^ 64 -> total b (read_or OUT_OF_CONTENT_TO_READ n) (Z.to_nat n).
Proof.
  intros Hn r Hr Hb. pose proof (read_valid r n Hr Hn) as Hv. pose proof (read_budget r n Hr Hn) as Hbd.
  unfold read_or. destruct (reader_read r n) as [[c l] r']. cbn [fst snd] in *.
  unfold OUT_OF_CONTENT_TO_READ. destruct (c =? 0); eexists _, _; (split; [done|]); cbn; (split; [done|lia]).
Qed.

(** [read_or_neg] is the same parser: the only failure is -1. *)
Lemma read_or_neg_eq code n r : valid r -> 0 <= n < 2 ^ 64 -> read_or_neg code n r = read_or code n r.
Proof.
  intros Hr Hn. pose proof (read_code r n Hr Hn) as Hc. unfold read_or_neg, read_or.
  destruct (reader_read r n) as [[c l] r']. cbn in Hc. destruct Hc as [-> | ->]; done.
Qed.

Lemma total_read_neg b n : 0 <= n < 2 ^ 64 -> total b (read_or_neg OUT_OF_CONTENT_TO_READ n) (Z.to_nat n).
Proof. intros Hn r Hr Hb. rewrite read_or_neg_eq by done. apply (total_read b); done. Qed.

(** The end of a list: the peek that saw ['e'] allows the skip. *)
Lemma total_peek_skip {A} b (a : A) (k : list Z -> Parser R A) m :
  (forall l, first_char l <> 101 -> total b (k l) m) ->
  total b (bind (read_or OUT_OF_CONTENT_TO_READ 0) (fun l => if first_char l =? 101 then (_ <- skip 1 ;; ret a) else k l)) 0.
Proof.
  intros Hk r Hr Hb. pose proof (read_valid r 0 Hr ltac:(lia)) as Hv.
  pose proof (read_budget r 0 Hr ltac:(lia)) as Hbd. pose proof (peek_skip r Hr) as Hs.
  unfold bind, read_or, OUT_OF_CONTENT_TO_READ. destruct (reader_read r 0) as [[c l] r']. cbn [fst snd] in *.
  destruct (Z.eqb_spec c 0) as [->|]; cbn [negb].
  - destruct (Z.eqb_spec (first_char l) 101) as [|Hne].
    + destruct (Hs eq_refl) as [Hv' Hb']. eexists _, _. unfold skip, ret. split; [done|]. split; [done|lia].
    + destruct (Hk l Hne r' Hv ltac:(lia)) as (res & r2 & E & Hr2 & Hb2).
      exists res, r2. split; [done|]. split; [done|]. destruct res; lia.
  - eexists _, _. split; [done|]. split; [done|lia].
Qed.

Lemma total_length_loop b n acc : total b (length_loop n acc) 1.
Proof.
  revert b acc. induction n as [|n IH]; intros b acc; cbn [length_loop];
    (apply (total_bind b _ _ 1 0); [apply (total_read b 1); lia|]); intros a;
    (destruct (first_char a =? 58); [apply total_ret|]); (destruct (negb _); [apply total_fail|]).
  - apply total_fail.
  - apply (total_weaken (b - 1) (b - 1) _ 1 0); [apply IH|lia..].
Qed.

Lemma number_of_nonneg ds : Forall (fun c => is_digit c = true) ds -> 0 <= number_of ds.
Proof.
  intros Hd. unfold number_of. assert (forall v, 0 <= v -> 0 <= fold_left (fun v c => 10 * v + (c - 48)) ds v) as H.
  { induction Hd as [|c ds Hc _ IH]; intros v Hv; cbn [fold_left]; [done|]. apply IH. unfold is_digit in Hc. lia. }
  apply H. lia.
Qed.

(** The length that is read is a [size_t]. *)
Lemma length_loop_digits n acc r l r' : Forall (fun c => is_digit c = true) acc ->
  length_loop n acc r = Some (inr l, r') -> Forall (fun c => is_digit c = true) l.
Proof.
  revert acc r. induction n as [|n IH]; intros acc r Hacc; cbn [length_loop]; unfold bind;
    (destruct (read_or _ 1 r) as [[[c|a] r1]|]; [done| |done]);
    (destruct (first_char a =? 58); [by intros [= <- _]|]);
    (destruct (is_digit (first_char a)) eqn:Ed; cbn [negb]; [|done]); [done|].
  apply IH. apply Forall_app. split; [done|]. repeat constructor. exact Ed.
Qed.

Lemma total_string process b : total b (parseString process) 1.
Proof.
  intros r Hr Hb. destruct (total_length_loop b NUMBER_MAXLENGTH [] r Hr Hb) as (res & r1 & E & Hr1 & Hb1).
  unfold parseString, bind at 1. rewrite E. destruct res as [c|ds].
  { eexists _, _. split; [done|]. split; [done|lia]. }
  pose proof (length_loop_digits _ [] _ _ _ ltac:(constructor) E) as Hd. pose proof (number_of_nonneg ds Hd).
  cbv zeta. destruct (_ <? _).
  { destruct (total_memory (A := String) b 0 r1 Hr1 ltac:(lia)) as (res & r2 & E2 & Hr2 & Hb2).
    exists res, r2. split; [exact E2|]. split; [done|]. destruct res; lia. }
  destruct (total_bind (budget r1) (read_or OUT_OF_CONTENT_TO_READ (strtoul ds))
    (fun bytes => ret (take (Z.to_nat (strtoul ds)) bytes)) (Z.to_nat (strtoul ds)) 0) with (r := r1)
    as (res & r2 & E2 & Hr2 & Hb2); [apply total_read|intros; apply total_ret|done|lia|].
  { unfold strtoul, UINT64_MAX. lia. }
  exists res, r2. split; [exact E2|]. split; [done|]. destruct res; lia.
Qed.

Lemma total_int_loop b n acc : total b (int_loop n acc) 1.
Proof.
  revert b acc. induction n as [|n IH]; intros b acc; cbn [int_loop];
    (apply (total_bind b _ _ 1 0); [apply (total_read b 1); lia|]); intros a;
    (destruct (first_char a =? 101); [apply total_ret|]).
  - destruct (match acc with [] => _ | _ => _ end); [apply total_fail|]. destruct (negb _); apply total_fail.
  - pose proof (total_weaken (b - 1) (b - 1) _ 1 0 (IH (b - 1)%nat (acc ++ [first_char a])) ltac:(lia) ltac:(lia)).
    destruct (match acc with [] => _ | _ => _ end); [done|]. destruct (negb _); [apply total_fail|done].
Qed.

Lemma total_int process b : total b (parseint64_t process) 1.
Proof.
  apply (total_bind b _ _ 1 0); [apply (total_read b 1); lia|]. intros a.
  destruct (negb _); [apply total_fail|].
  apply (total_weaken (b - 1) (b - 1) _ (1 + 0) 0); [|lia..].
  apply total_bind; [apply total_int_loop|]. intros ds. cbv zeta.
  destruct (strtol ds) as [out overflow]. destruct (_ && _ && _); [apply total_fail|].
  destruct (_ && _); [apply total_fail|apply total_ret].
Qed.

Section elements.
  Context (generic : Parser R Object) (b : nat) (Hgeneric : total b generic 1).

Lemma total_list_loop fuel acc : (b <= fuel)%nat -> total b (list_loop generic fuel acc) 0.
Proof.
  intros Hf. assert (forall b', (b' <= b)%nat -> forall fuel acc, (b' <= fuel)%nat ->
    total b' (list_loop generic fuel acc) 0) as H; [|by apply H].
  clear fuel acc Hf. intros b'. induction b' as [b' IH] using lt_wf_ind. intros Hb' fuel acc Hf.
  destruct fuel as [|fuel]; cbn [list_loop]; apply (total_peek_skip b' _ _ 0); intros l _ r Hr Hbr;
    destruct (Hgeneric r Hr ltac:(lia)) as (res & r1 & E & Hr1 & Hb1); unfold bind; rewrite E;
    (destruct res as [c|o]; [eexists _, _; split; [done|]; split; [done|lia]|]); [lia|].
  destruct (IH (b' - 1)%nat ltac:(lia) ltac:(lia) fuel (acc ++ [o]) ltac:(lia) r1 Hr1 ltac:(lia))
    as (res & r2 & E2 & Hr2 & Hb2).
  exists res, r2. split; [done|]. split; [done|]. destruct res; lia.
Qed.

Lemma total_peek_skip_neg {A} b' (a : A) (k : list Z -> Parser R A) m :
  (forall l, first_char l <> 101 -> total b' (k l) m) ->
  total b' (bind (read_or_neg OUT_OF_CONTENT_TO_READ 0) (fun l => if first_char l =? 101 then (_ <- skip 1 ;; ret a) else k l)) 0.
Proof.
  intros Hk r Hr Hb. unfold bind at 1. rewrite read_or_neg_eq by (done || lia).
  exact (total_peek_skip b' a k m Hk r Hr Hb).
Qed.

Lemma total_dict_loop process fuel acc : (b <= fuel)%nat -> total b (dict_loop process generic fuel acc) 0.
Proof.
  intros Hf. assert (forall b', (b' <= b)%nat -> forall fuel acc, (b' <= fuel)%nat ->
    total b' (dict_loop process generic fuel acc) 0) as H; [|by apply H].
  clear fuel acc Hf. intros b'. induction b' as [b' IH] using lt_wf_ind. intros Hb' fuel acc Hf.
  destruct fuel as [|fuel]; cbn [dict_loop]; apply (total_peek_skip_neg b' _ _ 0); intros l _ r Hr Hbr;
    destruct (total_string process b' r Hr Hbr) as (res & r1 & E & Hr1 & Hb1); unfold bind; rewrite E;
    (destruct res as [c|key]; [eexists _, _; split; [done|]; split; [done|lia]|]);
    destruct (Hgeneric r1 Hr1 ltac:(lia)) as (res & r2 & E2 & Hr2 & Hb2); rewrite E2;
    (destruct res as [c|o]; [eexists _, _; split; [done|]; split; [done|lia]|]); [lia|].
  destruct (IH (b' - 1)%nat ltac:(lia) ltac:(lia) fuel ((key, o) :: acc) ltac:(lia) r2 Hr2 ltac:(lia))
    as (res & r3 & E3 & Hr3 & Hb3).
  exists res, r3. split; [done|]. split; [done|]. destruct res; lia.
Qed.

End elements.

Lemma total_list_with generic b fuel :
  ((1 <= b)%nat -> total (b - 1) generic 1) -> (b <= S fuel)%nat -> total b (parseList_with generic fuel) 1.
Proof.
  intros Hg Hf. apply (total_bind_read b _ _ 1 0); [apply (total_read b 1); lia|]. intros Hb a.
  destruct (negb _); [apply total_fail|]. apply total_list_loop; [auto|lia].
Qed.

Lemma total_dict_with process generic b fuel :
  ((1 <= b)%nat -> total (b - 1) generic 1) -> (b <= S fuel)%nat -> total b (parseDictionary_with process generic fuel) 1.
Proof.
  intros Hg Hf. apply (total_bind_read b _ _ 1 0); [apply (total_read_neg b 1); lia|]. intros Hb a.
  destruct (negb _); [apply total_fail|]. apply total_dict_loop; [auto|lia].
Qed.

(** More fuel than bytes: the parser of an object returns. *)
Lemma parse_total process fuel b : (b < fuel)%nat -> total b (parseGeneric process fuel) 1.
Proof.
  revert b. induction fuel as [|fuel IH]; intros b Hf; [lia|]. cbn [parseGeneric].
  apply (total_bind b _ _ 0 1); [apply (total_read b 0); lia|]. intros l. cbv zeta. rewrite Nat.sub_0_r.
  assert (forall A (p : Parser R A) (f : A -> Object), total b p 1 ->
    total b (x <- p ;; ret (f x)) 1) as Hwrap.
  { intros A p f Hp. apply (total_bind b _ _ 1 0); [exact Hp|]. intros a. apply total_ret. }
  destruct (_ && _); [apply Hwrap, total_string|].
  destruct (_ =? 105); [apply Hwrap, total_int|].
  destruct (_ =? 108); [|destruct (_ =? 100); [|apply total_fail]]; apply Hwrap.
  - apply total_list_with; [|lia]. intros Hb. apply IH. lia.
  - apply total_dict_with; [|lia]. intros Hb. apply IH. lia.
Qed.

Lemma parseDictionary_total process fuel b : (b <= fuel)%nat -> total b (parseDictionary process fuel) 1.
Proof. intros Hf. apply total_dict_with; [|lia]. intros Hb. apply parse_total. lia. Qed.
Lemma parseList_total process fuel b : (b <= fuel)%nat -> total b (parseList process fuel) 1.
Proof. intros Hf. apply total_list_with; [|lia]. intros Hb. apply parse_total. lia. Qed.
End total.

(** ** Properties *)

(** An ArrayWriter keeps to its buffer, from [a] to [b], in a memory that was [m]. *)
Definition within (m : mem) (a b : Z) (w : ArrayWriter) : Prop :=
  w.(w_beginPointer) = a /\ w.(w_endPointer) = b /\
  forall x, x < a \/ b <= x -> w.(w_memory) x = m x.

Lemma within_write m a b w l : writer_ok w -> within m a b w -> Z.of_nat (length l) < 2 ^ 64 ->
  within m a b (ArrayWriter_write w l).2.
Proof.
  intros Hw (Ha & Hb & Hm) Hl. split; [|split].
  1-2: rewrite ArrayWriter_write_spec by done; destruct (negb _); [done|]; destruct (_ <=? _); done.
  intros x Hx. rewrite ArrayWriter_write_frame; [auto|done..|]. destruct Hw as (H1 & H2 & _). lia.
Qed.

(** Writing to a buffer, and reading a buffer that holds what was written. *)
Lemma serializeDictionary_spec (m : mem) (a n : Z) (d : Dict) :
  0 <= a -> 0 <= n -> a + n < 2 ^ 64 - 1 -> serializable (Object_DICT d) ->
  let '(ret, w) := serializeDictionary (ArrayWriter_new m a n) d in
  (forall x, x < a \/ a + n <= x -> w.(w_memory) x = m x) /\
  if Z.of_nat (length (encode_dict d)) <=? n then
    ret = 0 /\ ArrayWriter_bytesWritten w = Z.of_nat (length (encode_dict d)) /\
    read w.(w_memory) a (ArrayWriter_bytesWritten w) = encode_dict d
  else ret = -1.
Proof.
  intros Ha Hn Han Hd. set (w0 := ArrayWriter_new m a n).
  assert (u64 (a + n) = a + n) as Eend by (apply u64_small; lia).
  assert (writer_ok w0 /\ within m a (a + n) w0) as H0 by (unfold writer_ok, within, w0; cbn; split; [lia|done]).
  destruct (serializeGeneric_emits (laws := ArrayWriter_laws) _ (within_write m a (a + n)) (Object_DICT d) Hd w0 H0)
    as ((Hv & Ebegin & _ & Hframe) & Eview & Ecode).
  cbn [serializeGeneric] in Hv, Ebegin, Hframe, Eview, Ecode.
  fold (serializeDictionary w0 d) in Hv, Ebegin, Hframe, Eview, Ecode.
  change (encode (Object_DICT d)) with (encode_dict d) in Eview.
  destruct (serializeDictionary w0 d) as [ret w]. cbn [fst snd] in *. rewrite Eview in Ecode.
  assert (view w0 = Some ([], n)) as Ev0.
  { cbn. unfold writer_view, writer_room, w0. cbn. rewrite Z.sub_diag, read_0 by lia. do 2 f_equal. lia. }
  rewrite Ev0 in Eview, Ecode. cbn [view_after] in Eview, Ecode. cbn [app] in Eview.
  split; [exact Hframe|].
  destruct (Z.leb_spec (Z.of_nat (length (encode_dict d))) n) as [Hfit|]; [|done].
  split; [done|]. pose proof (bytesWritten_view w _ _ Hv Eview) as Eb.
  split; [exact Eb|].
  cbn [view ArrayWriter_laws] in Eview. unfold writer_view in Eview. destruct (_ =? 0); [|done]. injection Eview as Er _.
  unfold ArrayWriter_bytesWritten. destruct Hv as (H1 & H2 & _). rewrite u64_small by lia.
  rewrite <-Er, Ebegin. done.
Qed.

Lemma parseDictionary_prefix (m : mem) (a n : Z) (d : Dict) (process : Process) (fuel : nat) (rest : list Z) :
  0 <= a -> 0 <= n -> a + n < 2 ^ 64 - 1 ->
  serializable (Object_DICT d) -> ints_pass process.(stale_ERANGE) (Object_DICT d) ->
  room_for process (encode_dict d) -> (length (encode_dict d) <= fuel)%nat -> read m a n = encode_dict d ++ rest ->
  exists r, parseDictionary process fuel (ArrayReader_new m a n) = Some (inr (parsed_dict d), r).
Proof.
  intros Ha Hn Han Hd Hi Hm Hf Er. set (r := ArrayReader_new m a n).
  assert (u64 (a + n) = a + n) as Ee by (apply u64_small; lia).
  assert (reader_ok r) as Hr by (unfold reader_ok, r; cbn; lia).
  assert (remaining r = encode_dict d ++ rest) as Erem.
  { cbn. unfold reader_left, r. cbn. rewrite Ee. replace (a + n - a) with n by lia. exact Er. }
  destruct (parses_dict (laws := ArrayReader_laws) process d fuel) with (r := r) (rest := rest)
    as (r' & E & _); [|done..|].
  { apply List.Forall_forall. intros e _. apply parses_generic. }
  exists r'. exact E.
Qed.

Lemma parseDictionary_encoded (m : mem) (a n : Z) (d : Dict) (process : Process) (fuel : nat) :
  0 <= a -> 0 <= n -> a + n < 2 ^ 64 - 1 ->
  serializable (Object_DICT d) -> ints_pass process.(stale_ERANGE) (Object_DICT d) ->
  room_for process (encode_dict d) -> (length (encode_dict d) <= fuel)%nat -> read m a n = encode_dict d ->
  exists r, parseDictionary process fuel (ArrayReader_new m a n) = Some (inr (parsed_dict d), r).
Proof. intros. apply (parseDictionary_prefix m a n d process fuel []); try done. by rewrite app_nil_r. Qed.

(** C36: an object written to a buffer by an ArrayWriter and read back from it
    by an ArrayReader. When its bencoding fits, the serializer returns 0, has
    written exactly the bencoding, and the parser, given as much fuel as there
    are bytes and an allocator with blocks as large as the buffer, returns 0 and
    the same dictionary with the entries of every dictionary in it in the
    opposite order; when it does not fit the serializer returns -1. No byte
    outside the buffer changes. The two extreme [int64_t] numbers are excluded
    if [errno] is ERANGE before the call, as the parser then refuses them. *)
Theorem BencSerializer_roundtrip (m : mem) (a n : Z) (d : Dict) (process : Process) (fuel : nat) :
  0 <= a -> 0 <= n -> a + n < 2 ^ 64 - 1 ->
  serializable (Object_DICT d) -> ints_pass process.(stale_ERANGE) (Object_DICT d) ->
  n <= process.(largest_block) -> (length (encode_dict d) <= fuel)%nat ->
  let '(ret, w) := serializeDictionary (ArrayWriter_new m a n) d in
  (forall x, x < a \/ a + n <= x -> w.(w_memory) x = m x) /\
  if Z.of_nat (length (encode_dict d)) <=? n then
    ret = 0 /\ ArrayWriter_bytesWritten w = Z.of_nat (length (encode_dict d)) /\
    read w.(w_memory) a (ArrayWriter_bytesWritten w) = encode_dict d /\
    exists r, parseDictionary process fuel (ArrayReader_new w.(w_memory) a (ArrayWriter_bytesWritten w))
              = Some (inr (parsed_dict d), r)
  else ret = -1.
Proof.
  intros Ha Hn Han Hd Hi Hm Hf. pose proof (serializeDictionary_spec m a n d Ha Hn Han Hd) as H.
  destruct (serializeDictionary _ d) as [ret w]. destruct H as [Hframe H]. split; [exact Hframe|].
  destruct (Z.leb_spec (Z.of_nat (length (encode_dict d))) n) as [Hfit|]; [|exact H].
  destruct H as (Hret & Eb & Er). do 3 (split; [done|]). apply parseDictionary_encoded; try done; [lia..|unfold room_for; lia].
Qed.

(** The parser terminates on every buffer, well-formed or not: given as
    much fuel as the buffer has bytes it returns, with a dictionary or with one
    of the two documented error codes, unless its allocator runs out. *)
Theorem BencSerializer_terminates (m : mem) (a n : Z) (process : Process) (fuel : nat) :
  0 <= a -> 0 <= n -> a + n < 2 ^ 64 - 1 -> (Z.to_nat n <= fuel)%nat ->
  exists result r, parseDictionary process fuel (ArrayReader_new m a n) = Some (result, r) /\
    match result with
    | inr _ => True
    | inl code => code = OUT_OF_CONTENT_TO_READ \/ code = UNPARSABLE \/ code = OUT_OF_MEMORY
    end.
Proof.
  intros Ha Hn Han Hf. set (r := ArrayReader_new m a n).
  assert (u64 (a + n) = a + n) as Eend by (apply u64_small; lia).
  assert (reader_ok r) as Hr by (unfold reader_ok, r; cbn; lia).
  assert ((budget r <= fuel)%nat) as Hb by (cbn; unfold reader_left, r; cbn; lia).
  destruct (parseDictionary_total (laws := ArrayReader_laws) process fuel fuel ltac:(lia) r Hr Hb)
    as (res & r' & E & Hr' & Hres).
  exists res, r'. split; [exact E|].
destruct res as [code|]; [apply Hres|done].
Qed.

(** A parsed dictionary is in descending order, which [Dict_put*] does not
    expect. Putting a key that is there already, and is not the last in order,
    does not replace its entry: NULL is returned as for a new key, and the
    dictionary has two entries for the key. *)
Theorem Dict_put_duplicates_parsed `{Platform} (d : Dict) (key last : String) (v vlast : Object) :
  dict_ok (d ++ [(last, vlast)]) -> In key (map fst d) ->
  putObject (parsed_dict (d ++ [(last, vlast)])) key v =
    ((key, v) :: parsed_dict (d ++ [(last, vlast)]), None) /\
  In key (map fst (parsed_dict (d ++ [(last, vlast)]))).
Proof.
  intros [Hs Hk] Hin. apply in_map_iff in Hin as ([k0 v0] & Ek & Hin). cbn in Ek. subst k0.
  split.
  - unfold parsed_dict. rewrite map_app, rev_app_distr. cbn [map rev app putObject].
    assert (String_compare (Some key) (Some last) < 0) as Hlt.
    { clear Hk. induction d as [|e d IH]; [done|]. inversion Hs as [|? ? Hs' Hall]; subst.
      destruct Hin as [->|Hin]; [|auto]. rewrite List.Forall_forall in Hall.
      apply (Hall (last, vlast)). apply in_or_app. right. left. done. }
    destruct (Z.ltb_spec (String_compare (Some key) (Some last)) 0); [done|lia].
  - apply in_map_iff. exists (key, parsed v0). split; [done|]. unfold parsed_dict. apply in_rev.
    rewrite rev_involutive. apply in_map_iff. exists (key, v0). split; [done|]. apply in_or_app. by left.
Qed.

(** The parser can look one byte past the end of the content: a list cut
    off before its ['e'] is accepted when the byte behind the buffer happens to
    be an ['e']; with any other byte there it is refused. *)
Theorem parseList_reads_past_end (m : mem) (a : Z) (process : Process) (fuel : nat) :
  0 <= a -> a + 1 < 2 ^ 64 - 1 -> m a = 108 ->
  (m (a + 1) = 101 -> exists r, parseList process fuel (ArrayReader_new m a 1) = Some (inr [], r) /\
                                r.(r_pointer) = a + 2) /\
  (m (a + 1) <> 101 -> (2 <= fuel)%nat -> exists r code,
     parseList process fuel (ArrayReader_new m a 1) = Some (inl code, r)).
Proof.
  intros Ha Hlim Hl. set (r := ArrayReader_new m a 1).
  assert (u64 (a + 1) = a + 1) as Eend by (apply u64_small; lia).
  assert (reader_ok r) as Hr by (unfold reader_ok, r; cbn; lia).
  set (r1 := {| r_memory := m; r_pointer := a + 1; r_endPointer := a + 1; r_bytesRead := 1 |}).
  assert (reader_ok r1) as Hr1 by (unfold reader_ok, r1; cbn; lia).
  assert (ArrayReader_read r 1 = (0, [m a], r1)) as E1.
  { rewrite ArrayReader_read_spec by (done || lia).
    unfold reader_left, r. cbn [r_endPointer r_pointer r_memory r_bytesRead ArrayReader_new].
    rewrite Eend. replace (a + 1 - a) with 1 by lia. cbn [Z.ltb Z.compare Pos.compare Pos.compare_cont Z.eqb].
    rewrite read_cons by lia. done. }
  assert (ArrayReader_read r1 0 = (0, [m (a + 1)], r1)) as E0.
  { rewrite ArrayReader_read_spec by (done || lia). unfold reader_left, r1.
    cbn [r_endPointer r_pointer r_memory]. rewrite Z.sub_diag. done. }
  assert (parseList process fuel r = list_loop (parseGeneric process fuel) fuel [] r1) as ->.
  { unfold parseList, parseList_with, bind at 1, read_or. cbn [reader_read ArrayReader_reader].
    rewrite E1, Hl. done. }
  split.
  - intros He. exists (ArrayReader_skip r1 1).
    destruct fuel; cbn [list_loop]; unfold bind at 1, read_or; cbn [reader_read ArrayReader_reader];
      rewrite E0, He; (split; [done|]); rewrite ArrayReader_skip_spec by (unfold reader_left, r1; cbn; done || lia);
      cbn; lia.
  - intros Hne Hf. destruct (parse_total (laws := ArrayReader_laws) process fuel 0 ltac:(lia) r1 Hr1)
      as (res & r2 & E & _ & Hres); [cbn; unfold reader_left, r1; cbn; lia|].
    destruct res as [code|o].
    + exists r2, code. destruct fuel as [|fuel]; [lia|]. cbn [list_loop]. unfold bind, read_or.
      cbn [reader_read ArrayReader_reader]. rewrite E0. cbn [Z.eqb negb first_char nth].
      destruct (Z.eqb_spec (m (a + 1)) 101); [done|]. rewrite E. done.
    + exfalso. cbn in Hres. unfold reader_left, r1 in Hres. cbn in Hres. lia.
Qed.

(** ** Witnesses *)
Definition demo_dict : Dict :=
  [(chars "a", Object_INTEGER (-7)); (chars "q", Object_LIST [Object_STRING []; Object_STRING (chars "ping")])].

(** The allocator of the daemon has 4 MB. *)
Definition demo_process : Process := {| stale_ERANGE := false; largest_block := 2 ^ 22 |}.

Lemma BencSerializer_roundtrip_witness :
  let '(ret, w) := serializeDictionary (ArrayWriter_new scratch 16 64) demo_dict in
  ret = 0 /\ read w.(w_memory) 16 27 = chars "d1:ai-7e1:ql0:4:pingee" ++ repeat 0 5 /\
  exists r, parseDictionary demo_process 64 (ArrayReader_new w.(w_memory) 16 (ArrayWriter_bytesWritten w))
    = Some (inr (rev demo_dict), r).
Proof.
  pose proof (BencSerializer_roundtrip scratch 16 64 demo_dict demo_process 64 ltac:(lia) ltac:(lia) ltac:(lia)
    ltac:(cbn; unfold string_ok, INT64_MIN, INT64_MAX; cbn; lia) ltac:(cbn; done) ltac:(cbn; lia) ltac:(vm_compute; lia)) as H.
  destruct (serializeDictionary (ArrayWriter_new scratch 16 64) demo_dict) as [ret w] eqn:E.
  destruct H as (_ & H). replace (Z.of_nat (length (encode_dict demo_dict)) <=? 64) with true in H by reflexivity.
  destruct H as (Hret & _ & _ & Hparse). split; [exact Hret|]. split; [|exact Hparse].
  vm_compute in E. injection E as _ <-. vm_compute. reflexivity.
Defined.

Lemma BencSerializer_terminates_witness :
  exists code r, parseDictionary demo_process 6 (ArrayReader_new (of_list (chars "d1:ai7")) 0 6) = Some (inl code, r).
Proof.
  destruct (BencSerializer_terminates (of_list (chars "d1:ai7")) 0 6 demo_process 6 ltac:(lia) ltac:(lia) ltac:(lia) ltac:(lia))
    as ([code|d] & r & E & _); [by exists code, r|]. vm_compute in E. discriminate E.
Defined.

Lemma Dict_put_duplicates_parsed_witness :
  let d := [(chars "a", Object_INTEGER 1); (chars "b", Object_INTEGER 2)] in
  @putObject x86 (parsed_dict d) (chars "a") (Object_INTEGER 9) =
    ([(chars "a", Object_INTEGER 9); (chars "b", Object_INTEGER 2); (chars "a", Object_INTEGER 1)], None).
Proof.
  assert (@dict_ok x86 ([(chars "a", Object_INTEGER 1)] ++ [(chars "b", Object_INTEGER 2)])) as Hd.
  { split; [repeat constructor|]. constructor; [by apply demo_key_ok|]. constructor; [by apply demo_key_ok|constructor]. }
  destruct (@Dict_put_duplicates_parsed x86 [(chars "a", Object_INTEGER 1)] (chars "a") (chars "b")
    (Object_INTEGER 9) (Object_INTEGER 2) Hd (or_introl eq_refl)) as [E _].
  exact E.
Defined.

Lemma parseList_reads_past_end_witness :
  exists r, parseList demo_process 2 (ArrayReader_new (of_list (chars "le")) 0 1) = Some (inr [], r) /\ r.(r_pointer) = 2.
Proof. apply (parseList_reads_past_end (of_list (chars "le")) 0 demo_process 2); [lia|lia|done|done]. Defined.
