(* ===== verification/JsonBencSerializer.v ===== *)
(** * The JSON form of objects (benc/serialization/json/JsonBencSerializer.c)

    The configuration file is written and read in this form. A parser or
    serializer gives [None] when its fuel has run out, or where C leaves what
    happens undefined (the counter of PAD overflows). A read that fails does not
    change the character it was to set: where the code looks at that character all
    the same, the loops carry it along; [garbage] is what it is at first. What is
    printed on the way is left out. *)
From S2P Require Import Prelude Memory Bits Hex Benc ArrayIO BencSerializer.
Open Scope Z_scope.

Definition thirtyTwoSpaces : list Z := repeat 32 32.
Definition BUFF_MAX : Z := 2 ^ 20.
Definition quote : list Z := [34].

(** A digit of [%.2X]. *)
Definition hex_upper (d : Z) : Z := if d <? 10 then 48 + d else 55 + d.

(** What is in a buffer of [size] characters after [snprintf]: what there is room
    for, and a terminator. *)
Definition snprintf (size : nat) (text : list Z) : list Z := take (size - 1) text ++ [0].

Section serializer.
  Context {W : Type} {ops : Writer W}.
  (** How often the loop of PAD may go round. *)
  Variable fuel : nat.

Fixpoint PAD_loop (fuel : nat) (padSpaces padCounter : Z) (writer : W) : option (Z * W) :=
  if 32 <? u64 (padSpaces + padCounter) then
    match fuel with
    | O => None
    | S fuel =>
        let '(_, writer) := writer_write writer thirtyTwoSpaces in
        if INT32_MAX <? padCounter + 32 then None else PAD_loop fuel padSpaces (padCounter + 32) writer
    end
  else Some (padCounter, writer).

Definition PAD (padSpaces : Z) (writer : W) : option W :=
  '(padCounter, writer) ← PAD_loop fuel padSpaces 0 writer;
  Some (snd (writer_write writer (take (Z.to_nat (padSpaces - padCounter)) thirtyTwoSpaces))).

Definition plain_char (chr : Z) : bool := (chr <? 126) && (31 <? chr) && negb (chr =? 92) && negb (chr =? 34).

Fixpoint serializeString_loop (string : list Z) (writer : W) : W :=
  match string with
  | [] => writer
  | chr :: string =>
      let '(_, writer) :=
        if plain_char chr then writer_write writer [chr]
        else writer_write writer (snprintf 4 (chars "\x" ++ [hex_upper (chr >> 4); hex_upper (chr .& 15)])) in
      serializeString_loop string writer
  end.

Definition serializeString (writer : W) (string : String) : Z * W :=
  let '(_, writer) := writer_write writer quote in
  writer_write (serializeString_loop string writer) quote.

Definition serializeint64_t (writer : W) (integer : Z) : Z * W := writer_write writer (print_int64 integer).

Section elements.
  Variable serializeGeneric : Z -> Object -> W -> option (Z * W).

Fixpoint serializeList_loop (entry : List) (padSpaceCount : Z) (writer : W) : option W :=
  match entry with
  | [] => Some writer
  | elem :: entry =>
      writer ← PAD (u64 (padSpaceCount + 2)) writer;
      '(_, writer) ← serializeGeneric (u64 (padSpaceCount + 2)) elem writer;
      let writer := match entry with [] => writer | _ => snd (writer_write writer (chars "," ++ [10])) end in
      serializeList_loop entry padSpaceCount writer
  end.

Definition serializeListWithPadding_with (writer : W) (padSpaceCount : Z) (list : List) : option (Z * W) :=
  let '(_, writer) := writer_write writer (chars "[" ++ [10]) in
  writer ← serializeList_loop list padSpaceCount writer;
  let '(_, writer) := writer_write writer [10] in
  writer ← PAD padSpaceCount writer;
  Some (writer_write writer (chars "]")).

Fixpoint serializeDictionary_loop (entry : Dict) (padSpaceCount : Z) (writer : W) : option W :=
  match entry with
  | [] => Some writer
  | (key, val) :: entry =>
      writer ← PAD (u64 (padSpaceCount + 2)) writer;
      let '(_, writer) := serializeString writer key in
      let '(_, writer) := writer_write writer (chars " : ") in
      '(_, writer) ← serializeGeneric (u64 (padSpaceCount + 2)) val writer;
      let writer := match entry with [] => writer | _ => snd (writer_write writer (chars "," ++ [10])) end in
      serializeDictionary_loop entry padSpaceCount writer
  end.

Definition serializeDictionaryWithPadding_with (writer : W) (padSpaceCount : Z) (dictionary : Dict) : option (Z * W) :=
  let '(_, writer) := writer_write writer (chars "{" ++ [10]) in
  writer ← serializeDictionary_loop dictionary padSpaceCount writer;
  let '(_, writer) := writer_write writer [10] in
  writer ← PAD padSpaceCount writer;
  Some (writer_write writer (chars "}")).
End elements.

Fixpoint serializeGenericWithPadding (padSpaceCount : Z) (obj : Object) (writer : W) : option (Z * W) :=
  match obj with
  | Object_STRING string => Some (serializeString writer string)
  | Object_DICT dictionary => serializeDictionaryWithPadding_with serializeGenericWithPadding writer padSpaceCount dictionary
  | Object_LIST list => serializeListWithPadding_with serializeGenericWithPadding writer padSpaceCount list
  | Object_INTEGER number => Some (serializeint64_t writer number)
  | Object_UNPARSABLE => Some (-2, writer)
  end.

Definition serializeList (writer : W) (list : List) : option (Z * W) :=
  serializeListWithPadding_with serializeGenericWithPadding writer 0 list.
Definition serializeDictionary (writer : W) (dictionary : Dict) : option (Z * W) :=
  serializeDictionaryWithPadding_with serializeGenericWithPadding writer 0 dictionary.
End serializer.

(** ** Parsing *)
Section parser.
  Context {R : Type} {ops : Reader R}.
  Variables (erange : bool) (garbage : Z).

(** A result that the code does not look at. *)
Definition unchecked {A} (p : Parser R A) : Parser R unit := fun r =>
  match p r with Some (_, r) => Some (inr tt, r) | None => None end.

(** A read of length 0 into a variable that holds [before]. *)
Definition peek (before : Z) : Parser R (Z * Z) := fun r =>
  let '(ret, l, r) := reader_read r 0 in
  Some (inr (ret, match l with c :: _ => c | [] => before end), r).

Fixpoint readUntil (fuel : nat) (target : Z) : Parser R unit :=
  nextChar <- read_or OUT_OF_CONTENT_TO_READ 1 ;;
  if first_char nextChar =? target then ret tt
  else match fuel with O => out_of_fuel | S fuel => readUntil fuel target end.

(** [n] more rounds; [buffer] are the characters before the last one that was read, [c]. *)
Fixpoint parseString_loop (n : nat) (buffer : list Z) (c : Z) : Parser R String :=
  match n with
  | O => fail UNPARSABLE
  | S n =>
      let next b :=
        c <- read_or OUT_OF_CONTENT_TO_READ 1 ;; parseString_loop n (buffer ++ [b]) (first_char c) in
      if c =? 92 then
        _ <- skip 1 ;;
        hex <- read_or OUT_OF_CONTENT_TO_READ 2 ;;
        let byte := Hex_decodeByte (nth 0 hex 0) (nth 1 hex 0) in
        if byte =? -1 then fail UNPARSABLE else next (u8 byte)
      else if c =? 34 then ret buffer
      else next c
  end.

Definition parseString (fuel : nat) : Parser R String :=
  _ <- readUntil fuel 34 ;;
  c <- read_or OUT_OF_CONTENT_TO_READ 1 ;;
  parseString_loop (Z.to_nat (BUFF_MAX - 1)) [] (first_char c).

Fixpoint parseint64_t_loop (n : nat) (buffer : list Z) : Parser R Z :=
  match n with
  | O => fail UNPARSABLE
  | S n =>
      peeked <- peek 0 ;;
      let '(status, c) := peeked in
      if match buffer with [] => (c =? 45) && (status =? 0) | _ => false end then parseint64_t_loop n (buffer ++ [c])
      else if (c <? 48) || (57 <? c) || negb (status =? 0) then
        let '(out, overflow) := strtol buffer in
        if (out =? 0) && negb (nth 0 buffer 0 =? 48) && (negb (nth 0 buffer 0 =? 45) || negb (nth 1 buffer 0 =? 48))
        then fail UNPARSABLE
        else if ((out =? INT64_MAX) || (out =? INT64_MIN)) && (erange || overflow) then fail UNPARSABLE
        else ret out
      else _ <- skip 1 ;; parseint64_t_loop n (buffer ++ [c])
  end.
Definition parseint64_t : Parser R Z := parseint64_t_loop 21 [].

Fixpoint parseComment_loop (fuel : nat) : Parser R unit :=
  _ <- unchecked (readUntil fuel 42) ;;
  c <- read_or OUT_OF_CONTENT_TO_READ 1 ;;
  if first_char c =? 47 then ret tt
  else match fuel with O => out_of_fuel | S fuel => parseComment_loop fuel end.

Definition parseComment (fuel : nat) : Parser R unit :=
  chars <- read_or OUT_OF_CONTENT_TO_READ 2 ;;
  if negb (nth 0 chars 0 =? 47) then fail UNPARSABLE
  else if nth 1 chars 0 =? 42 then parseComment_loop fuel
  else if nth 1 chars 0 =? 47 then readUntil fuel 10
  else fail UNPARSABLE.

(** Whether an element comes next, or the end of the list. *)
Definition starts_element (c : Z) : bool := is_digit c || (c =? 91) || (c =? 123) || (c =? 34).
Fixpoint next_element (fuel : nat) : Parser R bool :=
  let again := match fuel with O => out_of_fuel | S fuel => next_element fuel end in
  nextChar <- read_or OUT_OF_CONTENT_TO_READ 0 ;;
  let c := first_char nextChar in
  if c =? 47 then _ <- parseComment fuel ;; again
  else if starts_element c then ret true
  else if c =? 93 then _ <- skip 1 ;; ret false
  else _ <- skip 1 ;; again.

(** Whether a key comes next, or the end of the dictionary; [nextChar] is what the
    last read gave. *)
Fixpoint next_key (fuel : nat) (nextChar : Z) : Parser R bool :=
  peeked <- peek nextChar ;;
  let '(code, c) := peeked in
  let again :=
    if negb (code =? 0) then fail OUT_OF_CONTENT_TO_READ
    else match fuel with O => out_of_fuel | S fuel => next_key fuel c end in
  if c =? 34 then (if negb (code =? 0) then fail OUT_OF_CONTENT_TO_READ else ret true)
  else if c =? 125 then _ <- skip 1 ;; ret false
  else if c =? 47 then _ <- unchecked (parseComment fuel) ;; again
  else _ <- skip 1 ;; again.

(** The first character of the next object. *)
Fixpoint next_object (fuel : nat) (firstChar : Z) : Parser R Z :=
  peeked <- peek firstChar ;;
  let '(code, c) := peeked in
  let again := match fuel with O => out_of_fuel | S fuel => next_object fuel c end in
  if (c =? 32) || (c =? 13) || (c =? 10) || (c =? 9) then _ <- skip 1 ;; again
  else if c =? 47 then _ <- parseComment fuel ;; again
  else if negb (code =? 0) then fail OUT_OF_CONTENT_TO_READ
  else ret c.

Section elements.
  Variable parseGeneric : Parser R Object.

Fixpoint parseList_loop (fuel : nat) (acc : List) : Parser R List :=
  more <- next_element fuel ;;
  if negb more then ret acc
  else
    element <- parseGeneric ;;
    match fuel with O => out_of_fuel | S fuel => parseList_loop fuel (acc ++ [element]) end.

Definition parseList_with (fuel : nat) : Parser R List :=
  _ <- unchecked (readUntil fuel 91) ;; parseList_loop fuel [].

(** Entries are put in front of those that were read before. *)
Fixpoint parseDictionary_loop (fuel : nat) (nextChar : Z) (acc : Dict) : Parser R Dict :=
  more <- next_key fuel nextChar ;;
  if negb more then ret acc
  else
    key <- parseString fuel ;;
    _ <- unchecked (readUntil fuel 58) ;;
    value <- parseGeneric ;;
    match fuel with O => out_of_fuel | S fuel => parseDictionary_loop fuel 34 ((key, value) :: acc) end.

Definition parseDictionary_with (fuel : nat) : Parser R Dict :=
  _ <- unchecked (readUntil fuel 123) ;; parseDictionary_loop fuel garbage [].
End elements.

Fixpoint parseGeneric (fuel : nat) : Parser R Object :=
  match fuel with
  | O => out_of_fuel
  | S fuel =>
      firstChar <- next_object fuel garbage ;;
      if is_digit firstChar then bint <- parseint64_t ;; ret (Object_INTEGER bint)
      else if firstChar =? 91 then list <- parseList_with (parseGeneric fuel) fuel ;; ret (Object_LIST list)
      else if firstChar =? 123 then dict <- parseDictionary_with (parseGeneric fuel) fuel ;; ret (Object_DICT dict)
      else if firstChar =? 34 then string <- parseString fuel ;; ret (Object_STRING string)
      else fail UNPARSABLE
  end.

Definition parseList (fuel : nat) : Parser R List := parseList_with (parseGeneric fuel) fuel.
Definition parseDictionary (fuel : nat) : Parser R Dict := parseDictionary_with (parseGeneric fuel) fuel.
End parser.
