(* ===== verification/JsonBehaviour.v ===== *)
(** * What the JSON form keeps (benc/serialization/json/JsonBencSerializer.c)

    What is written for an object and when that ends; that the parser reads it
    back; and the inputs for which it does not. *)
From S2P Require Import Prelude Memory Bits Hex Benc ArrayIO BencSerializer JsonBencSerializer.
Open Scope Z_scope.

(** ** The format *)
Definition spaces (n : Z) : list Z := repeat 32 (Z.to_nat n).

(** An escape has lost its second digit; a zero stands in its place. *)
Definition json_char (c : Z) : list Z := if plain_char c then [c] else [92; 120; hex_upper (c >> 4); 0].
Definition json_string (s : String) : list Z := quote ++ flat_map json_char s ++ quote.

(** Items with a comma and a new line between them. *)
Definition between {A} (l : list A) : list Z := match l with [] => [] | _ => [44; 10] end.
Fixpoint joined (items : list (list Z)) : list Z :=
  match items with [] => [] | x :: items => x ++ between items ++ joined items end.

Fixpoint json (pad : Z) (o : Object) : list Z :=
  match o with
  | Object_INTEGER n => print_int64 n
  | Object_STRING s => json_string s
  | Object_LIST l => [91; 10] ++ joined (map (fun o => spaces (pad + 2) ++ json (pad + 2) o) l) ++ [10] ++ spaces pad ++ [93]
  | Object_DICT d =>
      [123; 10] ++ joined (map (fun '(k, v) => spaces (pad + 2) ++ json_string k ++ chars " : " ++ json (pad + 2) v) d)
        ++ [10] ++ spaces pad ++ [125]
  | Object_UNPARSABLE => []
  end.
Definition json_dict (d : Dict) : list Z := json 0 (Object_DICT d).

(** How deep lists and dictionaries that are not empty lie in one another. *)
Fixpoint height (o : Object) : nat :=
  match o with
  | Object_LIST l => match l with [] => 0 | _ => S (list_max (map height l)) end
  | Object_DICT d => match d with [] => 0 | _ => S (list_max (map (fun '(_, v) => height v) d)) end
  | _ => 0
  end.

(** ** When the serializer ends *)
Section ends.
  Context {W : Type} {ops : Writer W}.
  Variable fuel : nat.

Lemma PAD_short n (w : W) : 0 <= n <= 32 -> PAD fuel n w = Some (snd (writer_write w (spaces n))).
Proof.
  intros Hn. unfold PAD. assert (PAD_loop fuel n 0 w = Some (0, w)) as ->.
  { destruct fuel; cbn [PAD_loop]; rewrite Z.add_0_r, u64_small, (proj2 (Z.ltb_ge _ _)) by lia; done. }
  cbn [mbind option_bind]. rewrite Z.sub_0_r. unfold thirtyTwoSpaces, spaces. do 3 f_equal.
  replace 32%nat with (Z.to_nat n + (32 - Z.to_nat n))%nat by lia. rewrite repeat_app. apply take_app_length'. by rewrite repeat_length.
Qed.

Lemma PAD_loop_long f n counter (w : W) : 32 < n < 2 ^ 63 -> 0 <= counter <= INT32_MAX -> PAD_loop f n counter w = None.
Proof.
  intros Hn. revert counter w. induction f as [|f IH]; intros counter w Hc; cbn [PAD_loop]; unfold INT32_MAX in Hc;
    rewrite u64_small, (proj2 (Z.ltb_lt _ _)) by lia; [done|].
  destruct (writer_write w thirtyTwoSpaces) as [c w']. destruct (Z.ltb_spec INT32_MAX (counter + 32)); [done|]. apply IH. unfold INT32_MAX in *. lia.
Qed.

(** The padding that does not end. *)
Lemma PAD_long n (w : W) : 32 < n < 2 ^ 63 -> PAD fuel n w = None.
Proof. intros Hn. unfold PAD. by rewrite PAD_loop_long by (unfold INT32_MAX; lia). Qed.

Lemma list_max_in {A} (f : A -> nat) l x : In x l -> (f x <= list_max (map f l))%nat.
Proof.
  induction l as [|y l IH]; [done|]. change (list_max (map f (y :: l))) with (Nat.max (f y) (list_max (map f l))).
  intros [->|H]; [lia|]. specialize (IH H). lia.
Qed.
Lemma list_max_reached {A} (f : A -> nat) l : l <> [] -> exists x, In x l /\ f x = list_max (map f l).
Proof.
  induction l as [|y l IH]; [done|]. intros _. change (list_max (map f (y :: l))) with (Nat.max (f y) (list_max (map f l))).
  destruct l as [|z l]; [exists y; cbn; split; [by left|lia]|]. destruct (IH ltac:(done)) as (x & Hx & E).
  destruct (Nat.leb_spec (f y) (list_max (map f (z :: l)))); [exists x; split; [by right|lia]|exists y; split; [by left|lia]].
Qed.

Section elements.
  Variable generic : Z -> Object -> W -> option (Z * W).
  Variable pad : Z.
  Hypothesis Hpad : 0 <= pad /\ pad + 2 <= 32.

Lemma list_loop_runs l (w : W) : (forall o w, In o l -> is_Some (generic (pad + 2) o w)) -> is_Some (serializeList_loop fuel generic l pad w).
Proof.
  revert w. induction l as [|o l IH]; intros w H; cbn [serializeList_loop]; [by eexists|].
  rewrite u64_small, PAD_short by lia. cbn [mbind option_bind].
  destruct (H o (snd (writer_write w (spaces (pad + 2)))) ltac:(by left)) as [[c w'] ->]. cbn [mbind option_bind].
  apply IH. intros o' w'' Hin. apply H. by right.
Qed.
Lemma list_loop_stuck l o (w : W) : In o l -> (forall w, generic (pad + 2) o w = None) -> serializeList_loop fuel generic l pad w = None.
Proof.
  revert w. induction l as [|o' l IH]; intros w Hin H; [done|]. cbn [serializeList_loop]. rewrite u64_small, PAD_short by lia. cbn [mbind option_bind].
  destruct Hin as [->|Hin].
  - by rewrite H.
  - destruct (generic (pad + 2) o' _) as [[c w']|]; [|done]. cbn [mbind option_bind]. by apply IH.
Qed.
Lemma dict_loop_runs (d : Dict) (w : W) : (forall e w, In e d -> is_Some (generic (pad + 2) e.2 w)) -> is_Some (serializeDictionary_loop fuel generic d pad w).
Proof.
  revert w. induction d as [|[k v] d IH]; intros w H; cbn [serializeDictionary_loop]; [by eexists|].
  rewrite u64_small, PAD_short by lia. cbn [mbind option_bind]. destruct (serializeString _ k) as [c1 w1]. destruct (writer_write w1 _) as [c2 w2].
  destruct (H (k, v) w2 ltac:(by left)) as [[c w'] E]. cbn [snd] in E. rewrite E. cbn [mbind option_bind].
  apply IH. intros e w'' Hin. apply H. by right.
Qed.
Lemma dict_loop_stuck (d : Dict) e (w : W) : In e d -> (forall w, generic (pad + 2) e.2 w = None) -> serializeDictionary_loop fuel generic d pad w = None.
Proof.
  revert w. induction d as [|[k v] d IH]; intros w Hin H; [done|]. cbn [serializeDictionary_loop]. rewrite u64_small, PAD_short by lia. cbn [mbind option_bind].
  destruct (serializeString _ k) as [c1 w1]. destruct (writer_write w1 _) as [c2 w2]. destruct Hin as [<-|Hin].
  - cbn [snd] in H. by rewrite H.
  - destruct (generic (pad + 2) v _) as [[c w']|]; [|done]. cbn [mbind option_bind]. by apply IH.
Qed.
End elements.

Lemma generic_ends o : forall pad (w : W), 0 <= pad <= 32 ->
  if pad + 2 * Z.of_nat (height o) <=? 32 then is_Some (serializeGenericWithPadding fuel pad o w)
  else serializeGenericWithPadding fuel pad o w = None.
Proof.
  induction o as [n|s|l IH|d IH|] using Object_rect_elements; intros pad w Hpad; cbn [height];
    try (rewrite (proj2 (Z.leb_le _ _)) by lia; by eexists).
  - rewrite List.Forall_forall in IH. cbn [serializeGenericWithPadding]. unfold serializeListWithPadding_with. destruct (writer_write w _) as [c0 w0].
    destruct l as [|x l].
    { rewrite (proj2 (Z.leb_le _ _)) by lia. cbn [serializeList_loop mbind option_bind]. destruct (writer_write w0 _) as [c1 w1].
      rewrite PAD_short by lia. by eexists. }
    set (l' := x :: l) in *. destruct (Z.leb_spec (pad + 2 * Z.of_nat (S (list_max (map height l')))) 32).
    + destruct (list_loop_runs (serializeGenericWithPadding fuel) pad ltac:(lia) l' w0) as [w1 ->].
      { intros o w' Hin. pose proof (list_max_in height l' o Hin). specialize (IH o Hin (pad + 2) w' ltac:(lia)).
        rewrite (proj2 (Z.leb_le _ _)) in IH by lia. exact IH. }
      cbn [mbind option_bind]. destruct (writer_write w1 _) as [c2 w2]. rewrite PAD_short by lia. by eexists.
    + enough (serializeList_loop fuel (serializeGenericWithPadding fuel) l' pad w0 = None) as -> by done.
      destruct (Z.leb_spec (pad + 2) 32).
      * destruct (list_max_reached height l' ltac:(done)) as (o & Hin & Eo). apply (list_loop_stuck _ pad ltac:(lia) l' o w0 Hin).
        intros w'. specialize (IH o Hin (pad + 2) w' ltac:(lia)). rewrite (proj2 (Z.leb_gt _ _)) in IH by lia. exact IH.
      * unfold l'. cbn [serializeList_loop]. rewrite u64_small, PAD_long by lia. done.
  - rewrite List.Forall_forall in IH. cbn [serializeGenericWithPadding]. unfold serializeDictionaryWithPadding_with. destruct (writer_write w _) as [c0 w0].
    destruct d as [|x d].
    { rewrite (proj2 (Z.leb_le _ _)) by lia. cbn [serializeDictionary_loop mbind option_bind]. destruct (writer_write w0 _) as [c1 w1].
      rewrite PAD_short by lia. by eexists. }
    set (d' := x :: d) in *. set (h := fun '(_, v) => height v) in *. destruct (Z.leb_spec (pad + 2 * Z.of_nat (S (list_max (map h d')))) 32).
    + destruct (dict_loop_runs (serializeGenericWithPadding fuel) pad ltac:(lia) d' w0) as [w1 ->].
      { intros e w' Hin. pose proof (list_max_in h d' e Hin). specialize (IH e Hin (pad + 2) w' ltac:(lia)).
        destruct e as [k v]. cbn [h snd] in *. rewrite (proj2 (Z.leb_le _ _)) in IH by lia. exact IH. }
      cbn [mbind option_bind]. destruct (writer_write w1 _) as [c2 w2]. rewrite PAD_short by lia. by eexists.
    + enough (serializeDictionary_loop fuel (serializeGenericWithPadding fuel) d' pad w0 = None) as -> by done.
      destruct (Z.leb_spec (pad + 2) 32).
      * destruct (list_max_reached h d' ltac:(done)) as (e & Hin & Ee). apply (dict_loop_stuck _ pad ltac:(lia) d' e w0 Hin).
        intros w'. specialize (IH e Hin (pad + 2) w' ltac:(lia)). destruct e as [k v]. cbn [h snd] in *.
        rewrite (proj2 (Z.leb_gt _ _)) in IH by lia. exact IH.
      * unfold d'. cbn [serializeDictionary_loop]. destruct x as [k v]. rewrite u64_small, PAD_long by lia. done.
Qed.

(** C38: a dictionary is written out, however much may be padded, exactly if no more
    than sixteen lists and dictionaries that are not empty lie in one another:
    beyond that the loop that pads a line goes on until its counter overflows. *)
Theorem JsonBencSerializer_ends (d : Dict) (w : W) :
  (height (Object_DICT d) <= 16)%nat <-> exists code w', serializeDictionary fuel w d = Some (code, w').
Proof.
  pose proof (generic_ends (Object_DICT d) 0 w ltac:(lia)) as H.
  change (serializeGenericWithPadding fuel 0 (Object_DICT d) w) with (serializeDictionary fuel w d) in H.
  destruct (Z.leb_spec (0 + 2 * Z.of_nat (height (Object_DICT d))) 32); split.
  - intros _. destruct H as [[c w'] ->]. by eexists _, _.
  - intros _. lia.
  - intros Hh. lia.
  - intros (c & w' & E). by rewrite E in H.
Qed.
End ends.

(** ** What is written *)
Section writes.
  Context {W : Type} {ops : Writer W} {laws : WriterLaws W}.
  Context (Inv : W -> Prop).
  Context (Inv_write : forall w l, writer_valid w -> Inv w -> Z.of_nat (length l) < 2 ^ 64 -> Inv (writer_write w l).2).
  Variable fuel : nat.
  #[local] Abbreviation ok := (ok Inv).

(** [f] ends, and has written [l]; it gives the code of its last write. *)
Definition writes (f : W -> option W) (l : list Z) : Prop := forall w, ok w -> exists w', f w = Some w' /\ ok w' /\ view w' = view_after (view w) l.
Definition gives (f : W -> option (Z * W)) (l : list Z) : Prop := forall w, ok w ->
  exists c w', f w = Some (c, w') /\ ok w' /\ view w' = view_after (view w) l /\ c = match view w' with Some _ => 0 | None => -1 end.

Lemma write_step l w : Z.of_nat (length l) < 2 ^ 64 -> ok w ->
  ok (snd (writer_write w l)) /\ view (snd (writer_write w l)) = view_after (view w) l /\
  fst (writer_write w l) = match view (snd (writer_write w l)) with Some _ => 0 | None => -1 end.
Proof. intros Hl Hw. apply (emits_write Inv Inv_write l Hl w Hw). Qed.

Lemma writes_PAD n : 0 <= n <= 32 -> writes (PAD fuel n) (spaces n).
Proof.
  intros Hn w Hw. rewrite PAD_short by lia. eexists. split; [done|].
  destruct (write_step (spaces n) w) as (H1 & H2 & _); [unfold spaces; rewrite repeat_length; lia|done|done].
Qed.

Lemma length_json_char c : (length (json_char c) <= 4)%nat.
Proof. unfold json_char. destruct (plain_char c); cbn; lia. Qed.

Lemma string_loop_step s w : ok w -> ok (serializeString_loop s w) /\ view (serializeString_loop s w) = view_after (view w) (flat_map json_char s).
Proof.
  revert w. induction s as [|chr s IH]; intros w Hw; cbn [serializeString_loop flat_map]; [by rewrite (view_after_nil Inv)|].
  assert ((if plain_char chr then writer_write w [chr] else writer_write w (snprintf 4 (chars "\x" ++ [hex_upper (chr >> 4); hex_upper (chr .& 15)])))
    = writer_write w (json_char chr)) as -> by (unfold json_char; by destruct (plain_char chr)).
  destruct (write_step (json_char chr) w) as (H & E & _); [pose proof (length_json_char chr); lia|done|].
  destruct (writer_write w (json_char chr)) as [c1 w1]. cbn [snd] in *. rewrite <-view_after_app, <-E. by apply IH.
Qed.

Lemma string_step s w : ok w -> ok (snd (serializeString w s)) /\ view (snd (serializeString w s)) = view_after (view w) (json_string s) /\
  fst (serializeString w s) = match view (snd (serializeString w s)) with Some _ => 0 | None => -1 end.
Proof.
  intros Hw. unfold serializeString, json_string. destruct (write_step quote w ltac:(done) Hw) as (H1 & E1 & _).
  destruct (writer_write w quote) as [c0 w0]. cbn [fst snd] in *. rewrite <-view_after_app, <-E1.
  destruct (string_loop_step s w0 H1) as [H2 E2]. rewrite <-view_after_app, <-E2. by apply write_step.
Qed.

Lemma between_step {A} (l : list A) w : ok w -> let w' := match l with [] => w | _ => snd (writer_write w (chars "," ++ [10])) end in
  ok w' /\ view w' = view_after (view w) (between l).
Proof.
  intros Hw. destruct l as [|x l]; cbv zeta iota; unfold between; [by rewrite (view_after_nil Inv)|].
  destruct (write_step [44; 10] w ltac:(done) Hw) as (H & E & _). done.
Qed.

Section elements.
  Variable generic : Z -> Object -> W -> option (Z * W).
  Variable pad : Z.
  Hypothesis Hpad : 0 <= pad /\ pad + 2 <= 32.

Lemma writes_list_loop l : Forall (fun o => gives (generic (pad + 2) o) (json (pad + 2) o)) l ->
  writes (serializeList_loop fuel generic l pad) (joined (map (fun o => spaces (pad + 2) ++ json (pad + 2) o) l)).
Proof.
  induction 1 as [|o l Ho _ IH]; intros w Hw; cbn [serializeList_loop map joined].
  { exists w. by rewrite (view_after_nil Inv). }
  rewrite u64_small by lia. destruct (writes_PAD (pad + 2) ltac:(lia) w Hw) as (w1 & -> & H1 & E1). cbn [mbind option_bind].
  destruct (Ho w1 H1) as (c & w2 & -> & H2 & E2 & _). cbn [mbind option_bind]. destruct (between_step l w2 H2) as [H3 E3].
  destruct (IH _ H3) as (w' & E & H & Ev). exists w'. split; [exact E|]. split; [exact H|].
  rewrite Ev, E3, E2, E1, !view_after_app, <-!app_assoc. unfold between. by destruct l.
Qed.

Lemma writes_dict_loop (d : Dict) : Forall (fun e => gives (generic (pad + 2) e.2) (json (pad + 2) e.2)) d ->
  writes (serializeDictionary_loop fuel generic d pad)
    (joined (map (fun '(k, v) => spaces (pad + 2) ++ json_string k ++ chars " : " ++ json (pad + 2) v) d)).
Proof.
  induction 1 as [|[k v] d Ho _ IH]; intros w Hw; cbn [serializeDictionary_loop map joined].
  { exists w. by rewrite (view_after_nil Inv). }
  rewrite u64_small by lia. destruct (writes_PAD (pad + 2) ltac:(lia) w Hw) as (w1 & -> & H1 & E1). cbn [mbind option_bind].
  destruct (string_step k w1 H1) as (H2 & E2 & _). destruct (serializeString w1 k) as [c2 w2]. cbn [snd] in H2, E2.
  destruct (write_step (chars " : ") w2 ltac:(done) H2) as (H3 & E3 & _). destruct (writer_write w2 (chars " : ")) as [c3 w3]. cbn [snd] in H3, E3.
  destruct (Ho w3 H3) as (c & w4 & E4 & H4 & Ev4 & _). cbn [snd] in E4. rewrite E4. cbn [mbind option_bind]. destruct (between_step d w4 H4) as [H5 E5].
  destruct (IH _ H5) as (w' & E & H & Ev). exists w'. split; [exact E|]. split; [exact H|].
  cbn [snd] in Ev4. rewrite Ev, E5, Ev4, E3, E2, E1, !view_after_app, <-!app_assoc. unfold between. by destruct d.
Qed.

End elements.

(** The end of a list or a dictionary. *)
Lemma gives_end pad close w : 0 <= pad <= 32 -> ok w ->
  exists c w', (let '(_, w) := writer_write w [10] in w ← PAD fuel pad w; Some (writer_write w [close])) = Some (c, w') /\
    ok w' /\ view w' = view_after (view w) ([10] ++ spaces pad ++ [close]) /\ c = match view w' with Some _ => 0 | None => -1 end.
Proof.
  intros Hpad Hw. destruct (write_step [10] w ltac:(done) Hw) as (H1 & E1 & _). destruct (writer_write w [10]) as [c1 w1]. cbn [snd] in H1, E1.
  destruct (writes_PAD pad ltac:(lia) w1 H1) as (w2 & -> & H2 & E2). cbn [mbind option_bind].
  destruct (write_step [close] w2 ltac:(done) H2) as (H3 & E3 & Ec). destruct (writer_write w2 [close]) as [c w']. cbn [fst snd] in *.
  exists c, w'. split; [done|]. split; [done|]. split; [|done]. by rewrite E3, E2, E1, !view_after_app.
Qed.


(** Integers that are written can be read again only if they are not negative. *)
Fixpoint typed (o : Object) : Prop :=
  match o with
  | Object_LIST l => foldr (fun o rest => typed o /\ rest) True l
  | Object_DICT d => foldr (fun '(_, v) rest => typed v /\ rest) True d
  | Object_UNPARSABLE => False
  | _ => True
  end.

Lemma typed_list l : typed (Object_LIST l) <-> Forall typed l.
Proof. cbn [typed]. induction l as [|o l IH]; cbn [foldr]; [split; [constructor|done]|]. by rewrite IH, Forall_cons_iff. Qed.
Lemma typed_dict d : typed (Object_DICT d) <-> Forall (fun e => typed e.2) d.
Proof. cbn [typed]. induction d as [|[k v] d IH]; cbn [foldr]; [split; [constructor|done]|]. by rewrite IH, Forall_cons_iff. Qed.

Lemma height_list l o : In o l -> (S (height o) <= height (Object_LIST l))%nat.
Proof. intros Hin. destruct l as [|x l]; [done|]. cbn [height]. pose proof (list_max_in height (x :: l) o Hin). lia. Qed.
Lemma height_dict d e : In e d -> (S (height e.2) <= height (Object_DICT d))%nat.
Proof.
  intros Hin. destruct d as [|x d]; [done|]. cbn [height]. pose proof (list_max_in (fun '(_, v) => height v) (x :: d) e Hin). destruct e as [k v].
  cbn [snd]. cbn in H |- *. lia.
Qed.

Lemma gives_generic o : forall pad, 0 <= pad -> pad + 2 * Z.of_nat (height o) <= 32 -> typed o ->
  gives (serializeGenericWithPadding fuel pad o) (json pad o).
Proof.
  induction o as [n|s|l IH|d IH|] using Object_rect_elements; intros pad Hp Hh Ht w Hw; cbn [serializeGenericWithPadding].
  - unfold serializeint64_t. pose proof (length_print_int64 n). destruct (write_step (print_int64 n) w ltac:(lia) Hw) as (H1 & E1 & Ec).
    destruct (writer_write w _) as [c w']. by exists c, w'.
  - destruct (string_step s w Hw) as (H1 & E1 & Ec). destruct (serializeString w s) as [c w']. by exists c, w'.
  - apply typed_list in Ht. rewrite List.Forall_forall in IH, Ht. unfold serializeListWithPadding_with.
    destruct (write_step [91; 10] w ltac:(done) Hw) as (H1 & E1 & _). change (chars "[" ++ [10]) with [91; 10].
    destruct (writer_write w [91; 10]) as [c1 w1]. cbn [snd] in *. assert (exists w2, serializeList_loop fuel (serializeGenericWithPadding fuel) l pad w1 = Some w2 /\
      ok w2 /\ view w2 = view_after (view w1) (joined (map (fun o => spaces (pad + 2) ++ json (pad + 2) o) l))) as (w2 & -> & H2 & E2).
    { destruct l as [|x l]; [exists w1; by rewrite (view_after_nil Inv)|]. pose proof (height_list (x :: l) x ltac:(by left)).
      apply writes_list_loop; [lia| |done]. apply List.Forall_forall. intros o Hin. pose proof (height_list _ o Hin). apply IH; auto; lia. }
    cbn [mbind option_bind]. destruct (gives_end pad 93 w2 ltac:(lia) H2) as (c & w' & E & H & Ev & Ec). exists c, w'. split; [exact E|].
    split; [done|]. split; [|done]. cbn [json]. by rewrite Ev, E2, E1, !view_after_app.
  - apply typed_dict in Ht. rewrite List.Forall_forall in IH, Ht. unfold serializeDictionaryWithPadding_with.
    destruct (write_step [123; 10] w ltac:(done) Hw) as (H1 & E1 & _). change (chars "{" ++ [10]) with [123; 10].
    destruct (writer_write w [123; 10]) as [c1 w1]. cbn [snd] in *. assert (exists w2, serializeDictionary_loop fuel (serializeGenericWithPadding fuel) d pad w1 = Some w2 /\
      ok w2 /\ view w2 = view_after (view w1) (joined (map (fun '(k, v) => spaces (pad + 2) ++ json_string k ++ chars " : " ++ json (pad + 2) v) d))) as (w2 & -> & H2 & E2).
    { destruct d as [|x d]; [exists w1; by rewrite (view_after_nil Inv)|]. pose proof (height_dict (x :: d) x ltac:(by left)).
      apply writes_dict_loop; [lia| |done]. apply List.Forall_forall. intros e Hin. pose proof (height_dict _ e Hin). apply IH; auto; lia. }
    cbn [mbind option_bind]. destruct (gives_end pad 125 w2 ltac:(lia) H2) as (c & w' & E & H & Ev & Ec). exists c, w'. split; [exact E|].
    split; [done|]. split; [|done]. cbn [json]. by rewrite Ev, E2, E1, !view_after_app.
  - done.
Qed.
End writes.
