(* ===== verification/JsonParsing.v ===== *)
(** * The JSON form is read back (benc/serialization/json/JsonBencSerializer.c)

    What the parser makes of the text that the serializer writes: the same object,
    with the entries of its dictionaries in the opposite order. And the objects
    and texts for which it does not. *)
From S2P Require Import Prelude Memory Bits Hex Benc ArrayIO BencSerializer JsonBencSerializer JsonBehaviour.
Open Scope Z_scope.

Lemma joined_le {A} (f : A -> list Z) l x : In x l -> (length (f x) <= length (joined (map f l)))%nat.
Proof.
  induction l as [|y l IH]; intros []; cbn [map joined]; rewrite !length_app; [subst; lia|]. specialize (IH H). lia.
Qed.

(** What the parser can take: strings of bytes of less than a mebibyte and integers
    without a sign. *)
Definition json_string_ok (s : String) : Prop := bytes_ok s /\ Z.of_nat (length s) <= 2 ^ 20 - 2.
Fixpoint printable (erange : bool) (o : Object) : Prop :=
  match o with
  | Object_INTEGER n => 0 <= n <= INT64_MAX /\ int_passes erange n = true
  | Object_STRING s => json_string_ok s
  | Object_LIST l => foldr (fun o rest => printable erange o /\ rest) True l
  | Object_DICT d => foldr (fun '(k, v) rest => json_string_ok k /\ printable erange v /\ rest) True d
  | Object_UNPARSABLE => False
  end.

Lemma printable_list erange l : printable erange (Object_LIST l) <-> Forall (printable erange) l.
Proof. cbn [printable]. induction l as [|o l IH]; cbn [foldr]; [split; [constructor|done]|]. by rewrite IH, Forall_cons_iff. Qed.
Lemma printable_dict erange d : printable erange (Object_DICT d) <-> Forall (fun e => json_string_ok e.1 /\ printable erange e.2) d.
Proof. cbn [printable]. induction d as [|[k v] d IH]; cbn [foldr]; [split; [constructor|done]|]. rewrite IH, Forall_cons_iff. cbn [fst snd]. tauto. Qed.

Lemma printable_typed erange o : printable erange o -> typed o.
Proof.
  induction o as [n|s|l IH|d IH|] using Object_rect_elements; intros H; try done.
  - apply typed_list. apply printable_list in H. rewrite List.Forall_forall in *. auto.
  - apply typed_dict. apply printable_dict in H. rewrite List.Forall_forall in *. intros e He. apply IH, H; done.
Qed.

(** Without characters that are escaped. *)
Definition plain_string (s : String) : bool := forallb plain_char s.
Fixpoint plain_object (o : Object) : bool :=
  match o with
  | Object_STRING s => plain_string s
  | Object_LIST l => forallb plain_object l
  | Object_DICT d => forallb (fun '(k, v) => plain_string k && plain_object v) d
  | _ => true
  end.

(** The digit that is left of an escape and the zero behind it are no byte. *)
Lemma hex_upper_lost b : is_byte b -> Hex_decodeByte (hex_upper (b >> 4)) 0 = -1.
Proof.
  intros Hb. apply Z.eqb_eq. apply (forall_below_spec 256 (fun b => Hex_decodeByte (hex_upper (b >> 4)) 0 =? -1));
    [vm_compute; done|unfold is_byte in Hb; lia].
Qed.

(** A following text that starts with [c], or with a character that ends a number. *)
Definition next_is (c : Z) (rest : list Z) : Prop := exists l, rest = c :: l.
Definition no_digit (rest : list Z) : Prop := exists c l, rest = c :: l /\ is_digit c = false.

Section parse.
  Context {R : Type} {ops : Reader R} {laws : ReaderLaws R}.
  Variables (erange : bool) (garbage : Z).

Lemma parses_unchecked {A} Q (p : Parser R A) l a : parses Q p l a -> parses Q (unchecked p) l tt.
Proof. intros Hp r rest Hr E HQ. destruct (Hp r rest Hr E HQ) as (r' & Ep & H). exists r'. unfold unchecked. by rewrite Ep. Qed.

(** A look at the next character, in the text or behind it. *)
Lemma parses_look {B} Q before (k : Z * Z -> Parser R B) c l b :
  parses Q (k (0, c)) (c :: l) b -> parses Q (bind (peek before) k) (c :: l) b.
Proof.
  intros Hk r rest Hr E HQ. destruct (read_peek r c (l ++ rest) Hr E) as (r' & Er & Hr' & E').
  unfold bind, peek. rewrite Er. apply Hk; done.
Qed.
Lemma parses_look_ahead {B} before (k : Z * Z -> Parser R B) c b :
  parses (next_is c) (k (0, c)) [] b -> parses (next_is c) (bind (peek before) k) [] b.
Proof.
  intros Hk r rest Hr E [l Hl]. cbn [app] in E. rewrite Hl in E. destruct (read_peek r c l Hr E) as (r' & Er & Hr' & E').
  unfold bind, peek. rewrite Er. apply Hk; [done|by rewrite E', Hl|by exists l].
Qed.
Lemma parses_peek_ahead {B} code (k : list Z -> Parser R B) c b :
  parses (next_is c) (k [c]) [] b -> parses (next_is c) (bind (read_or code 0) k) [] b.
Proof.
  intros Hk r rest Hr E [l Hl]. cbn [app] in E. rewrite Hl in E. destruct (read_peek r c l Hr E) as (r' & Er & Hr' & E').
  unfold bind, read_or. rewrite Er. cbn [Z.eqb negb]. apply Hk; [done|by rewrite E', Hl|by exists l].
Qed.

(** One character is skipped. *)
Lemma parses_drop {B} Q (p : Parser R B) c l b : parses Q p l b -> parses Q (_ <- skip 1 ;; p) (c :: l) b.
Proof.
  intros Hp r rest Hr E HQ. destruct (skip_one r c (l ++ rest) Hr E) as [Hr' E']. unfold bind, skip. apply Hp; done.
Qed.

Lemma parses_readUntil fuel target l : Forall (fun c => c <> target) l -> (length l <= fuel)%nat ->
  parses any (readUntil fuel target) (l ++ [target]) tt.
Proof.
  intros Hl. revert fuel. induction Hl as [|c l Hc _ IH]; intros fuel Hf; cbn [app length] in *.
  - destruct fuel; cbn [readUntil]; apply (parses_bind any any _ _ [target] [] [target]); try done;
      try apply parses_char; cbn [first_char nth]; rewrite Z.eqb_refl; apply parses_ret.
  - destruct fuel as [|fuel]; [lia|]. cbn [readUntil]. apply (parses_bind any any _ _ [c] (l ++ [target]) [c]); [apply parses_char| |done].
    cbn [first_char nth]. rewrite (proj2 (Z.eqb_neq _ _)) by done. apply IH. lia.
Qed.

(** What may stand before an element, a key or an object. *)
Definition skipped_element (c : Z) : Prop := c <> 47 /\ c <> 93 /\ starts_element c = false.
Definition skipped_key (c : Z) : Prop := c <> 34 /\ c <> 125 /\ c <> 47.

Lemma next_element_found fuel l c : Forall skipped_element l -> (length l <= fuel)%nat -> starts_element c = true ->
  parses (next_is c) (next_element fuel) l true.
Proof.
  intros Hl. revert fuel. induction Hl as [|x l (H1 & H2 & H3) _ IH]; intros fuel Hf Hc; cbn [length] in *.
  - assert (c <> 47) as Hn by (intros ->; done). destruct fuel; cbn [next_element]; apply parses_peek_ahead; cbn [first_char nth];
      rewrite (proj2 (Z.eqb_neq _ _)) by done; rewrite Hc; apply parses_ret.
  - destruct fuel as [|fuel]; [lia|]. cbn [next_element]. apply parses_peek. cbn [first_char nth].
    rewrite (proj2 (Z.eqb_neq _ _)), H3, (proj2 (Z.eqb_neq _ _)) by done. apply parses_drop, IH; [lia|done].
Qed.
Lemma next_element_end fuel l : Forall skipped_element l -> (length l <= fuel)%nat -> parses any (next_element fuel) (l ++ [93]) false.
Proof.
  intros Hl. revert fuel. induction Hl as [|x l (H1 & H2 & H3) _ IH]; intros fuel Hf; cbn [length app] in *.
  - destruct fuel; cbn [next_element]; apply parses_peek; apply parses_skip.
  - destruct fuel as [|fuel]; [lia|]. cbn [next_element]. apply parses_peek. cbn [first_char nth].
    rewrite (proj2 (Z.eqb_neq _ _)), H3, (proj2 (Z.eqb_neq _ _)) by done. apply parses_drop, IH. lia.
Qed.

Lemma next_key_found fuel before l : Forall skipped_key l -> (length l <= fuel)%nat -> parses (next_is 34) (next_key fuel before) l true.
Proof.
  intros Hl. revert fuel before. induction Hl as [|x l (H1 & H2 & H3) _ IH]; intros fuel before Hf; cbn [length] in *.
  - destruct fuel; cbn [next_key]; apply parses_look_ahead, parses_ret.
  - destruct fuel as [|fuel]; [lia|]. cbn [next_key]. apply parses_look. cbv beta iota zeta. cbn [Z.eqb negb].
    rewrite !(proj2 (Z.eqb_neq x _)) by done. apply parses_drop, IH. lia.
Qed.
Lemma next_key_end fuel before l : Forall skipped_key l -> (length l <= fuel)%nat -> parses any (next_key fuel before) (l ++ [125]) false.
Proof.
  intros Hl. revert fuel before. induction Hl as [|x l (H1 & H2 & H3) _ IH]; intros fuel before Hf; cbn [length app] in *.
  - destruct fuel; cbn [next_key]; apply parses_look, parses_skip.
  - destruct fuel as [|fuel]; [lia|]. cbn [next_key]. apply parses_look. cbv beta iota zeta. cbn [Z.eqb negb].
    rewrite !(proj2 (Z.eqb_neq x _)) by done. apply parses_drop, IH. lia.
Qed.

Lemma next_object_found fuel before l c : Forall (fun x => x = 32) l -> (length l <= fuel)%nat ->
  c <> 32 -> c <> 13 -> c <> 10 -> c <> 9 -> c <> 47 -> parses (next_is c) (next_object fuel before) l c.
Proof.
  intros Hl. revert fuel before. induction Hl as [|x l -> _ IH]; intros fuel before Hf H1 H2 H3 H4 H5; cbn [length] in *.
  - destruct fuel; cbn [next_object]; apply parses_look_ahead; cbv beta iota zeta; rewrite !(proj2 (Z.eqb_neq c _)) by done; apply parses_ret.
  - destruct fuel as [|fuel]; [lia|]. cbn [next_object]. apply parses_look. cbv beta iota zeta. cbn [Z.eqb Pos.eqb orb]. apply parses_drop, IH; lia || done.
Qed.

(** ** Strings and numbers *)
Lemma parses_two code a b Q : parses Q (read_or code 2) [a; b] [a; b].
Proof.
  intros r rest Hr E _. destruct (read_some r 2 Hr ltac:(rewrite E; cbn; lia) ltac:(lia)) as (r' & Er & Hr' & Erest).
  exists r'. unfold read_or. rewrite Er, E. cbn. rewrite Erest, E. done.
Qed.

(** [p] does not take a text that starts with [l]. *)
Definition refuses {A} (p : Parser R A) (l : list Z) : Prop :=
  forall r rest, valid r -> remaining r = l ++ rest -> exists r', p r = Some (inl UNPARSABLE, r').

Lemma refuses_app {A} (p : Parser R A) l l' : refuses p l -> refuses p (l ++ l').
Proof. intros Hp r rest Hr E. apply (Hp r (l' ++ rest) Hr). by rewrite app_assoc. Qed.
Lemma refuses_first {A B} (p : Parser R A) (k : A -> Parser R B) l : refuses p l -> refuses (bind p k) l.
Proof. intros Hp r rest Hr E. destruct (Hp r rest Hr E) as (r' & Ep). exists r'. unfold bind. by rewrite Ep. Qed.
Lemma refuses_bind {A B} (Q : list Z -> Prop) (p : Parser R A) (k : A -> Parser R B) l1 l2 a :
  parses Q p l1 a -> refuses (k a) l2 -> (forall rest, Q (l2 ++ rest)) -> refuses (bind p k) (l1 ++ l2).
Proof.
  intros Hp Hk HQ r rest Hr E. rewrite <-app_assoc in E. destruct (Hp r (l2 ++ rest) Hr E (HQ rest)) as (r1 & Ep & Hr1 & E1).
  destruct (Hk r1 rest Hr1 E1) as (r2 & Ek). exists r2. unfold bind. by rewrite Ep.
Qed.
Lemma refuses_fail {A} l : refuses (A := A) (fail UNPARSABLE) l.
Proof. intros r rest _ _. by exists r. Qed.
Lemma refuses_drop {B} (p : Parser R B) c l : refuses p l -> refuses (_ <- skip 1 ;; p) (c :: l).
Proof.
  intros Hp r rest Hr E. destruct (skip_one r c (l ++ rest) Hr E) as [Hr' E']. unfold bind, skip. apply (Hp _ rest); done.
Qed.

(** Text that is taken, or is not. *)
Definition reads {A} (taken : bool) (Q : list Z -> Prop) (p : Parser R A) (l : list Z) (a : A) : Prop :=
  if taken then parses Q p l a else refuses p l.
Lemma reads_bind {A B} taken taken' (Q Q' : list Z -> Prop) (p : Parser R A) (k : A -> Parser R B) l1 l2 a b :
  reads taken Q' p l1 a -> reads taken' Q (k a) l2 b -> (forall rest, Q' (l2 ++ rest)) -> reads (taken && taken') Q (bind p k) (l1 ++ l2) b.
Proof.
  destruct taken; cbn [andb reads]; [|intros Hp _ _; by apply refuses_app, refuses_first].
  destruct taken'; cbn [reads]; intros Hp Hk HQ; [by apply (parses_bind Q Q' _ _ _ _ a)|by apply (refuses_bind Q' _ _ _ _ a)].
Qed.
Lemma reads_drop {B} taken Q (p : Parser R B) c l b : reads taken Q p l b -> reads taken Q (_ <- skip 1 ;; p) (c :: l) b.
Proof. destruct taken; cbn [reads]; [apply parses_drop|apply refuses_drop]. Qed.
Lemma reads_then {A B} taken (Q Q' : list Z -> Prop) (p : Parser R A) (k : A -> Parser R B) l1 l2 a b :
  parses Q' p l1 a -> reads taken Q (k a) l2 b -> (forall rest, Q' (l2 ++ rest)) -> reads taken Q (bind p k) (l1 ++ l2) b.
Proof. intros Hp. apply (reads_bind true). exact Hp. Qed.

Lemma json_chars_more s : exists c t, flat_map json_char s ++ [34] = c :: t.
Proof. destruct (flat_map json_char s); by eexists _, _. Qed.

(** A string is read up to its end, or up to the first escape. *)
Lemma string_loop n s acc c t : bytes_ok s -> (length s < n)%nat -> flat_map json_char s ++ [34] = c :: t ->
  reads (plain_string s) any (parseString_loop n acc c) t (acc ++ s).
Proof.
  intros Hs. revert n acc c t. induction Hs as [|b s Hb _ IH]; intros n acc c t Hn E; (destruct n as [|n]; [cbn in Hn; lia|]); cbn [length flat_map app plain_string forallb] in *.
  - injection E as <- <-. cbn. rewrite app_nil_r. apply parses_ret.
  - destruct (json_chars_more s) as (c' & t' & E').
    specialize (IH n (acc ++ [b]) c' t' ltac:(lia) E'). rewrite <-app_assoc in IH. rewrite <-app_assoc, E' in E. cbn [parseString_loop].
    unfold json_char in E. destruct (plain_char b) eqn:Eb; cbn [andb].
    + cbn [app] in E. injection E as <- <-. unfold plain_char in Eb. rewrite (proj2 (Z.eqb_neq b 92)), (proj2 (Z.eqb_neq b 34)) by lia.
      apply (reads_then _ any any _ _ [c'] t' [c']); [apply parses_char|exact IH|done].
    + cbn [app] in E. injection E as <- <-. cbn [Z.eqb Pos.eqb]. apply refuses_drop.
      apply (refuses_bind any _ _ [hex_upper (b >> 4); 0] (c' :: t') [hex_upper (b >> 4); 0]); [apply parses_two| |done].
      cbn [nth]. rewrite hex_upper_lost by done. apply refuses_fail.
Qed.

Lemma reads_string fuel s : json_string_ok s -> reads (plain_string s) any (parseString fuel) (json_string s) s.
Proof.
  intros [Hs Hl]. unfold parseString, json_string, quote. destruct (json_chars_more s) as (c & t & E). rewrite E.
  apply (reads_then _ any any _ _ [34] _ tt); [apply (parses_readUntil fuel 34 []); [constructor|cbn; lia]| |done].
  apply (reads_then _ any any _ _ [c] t [c]); [apply parses_char| |done].
  apply (string_loop (Z.to_nat (BUFF_MAX - 1)) s []); [done|unfold BUFF_MAX; lia|done].
Qed.

Lemma parses_no_digit {A} (p : Parser R A) l a : (forall c, is_digit c = false -> parses (next_is c) p l a) -> parses no_digit p l a.
Proof. intros H r rest Hr E (c & t & -> & Hc). apply (H c Hc r (c :: t) Hr E). by exists t. Qed.

Lemma parses_number_loop n v ds acc : Forall (fun c => is_digit c = true) ds -> (length ds < n)%nat -> acc ++ ds = print_int64 v ->
  0 <= v <= INT64_MAX -> int_passes erange v = true -> parses no_digit (parseint64_t_loop erange n acc) ds v.
Proof.
  intros Hd. revert n acc. induction Hd as [|d ds Hd _ IH]; intros n acc Hn E Hv Hp; (destruct n as [|n]; [cbn in Hn; lia|]); cbn [parseint64_t_loop length] in *.
  - apply parses_no_digit. intros c Hc. apply parses_look_ahead. cbv beta iota zeta. rewrite app_nil_r in E.
    assert (match acc with [] => (c =? 45) && (0 =? 0) | _ => false end = false) as ->.
    { destruct acc; [|done]. unfold print_int64 in E. destruct (Z.ltb_spec v 0); [lia|]. by destruct (decimal_head 19 v ltac:(lia)) as (x & l & Ed & _); rewrite Ed in E. }
    replace ((c <? 48) || (57 <? c) || negb (0 =? 0)) with true by (unfold is_digit in Hc; cbn; lia).
    rewrite E, strtol_print by (unfold INT64_MIN; lia). cbv zeta beta iota. rewrite orb_false_r.
    replace ((v =? 0) && _ && _) with false by (by destruct (Z.eqb_spec v 0) as [->|]).
    rewrite andb_comm. unfold int_passes in Hp. apply negb_true_iff in Hp. rewrite Hp. apply parses_ret.
  - apply parses_look. cbv beta iota zeta. unfold is_digit in Hd.
    replace (match acc with [] => (d =? 45) && (0 =? 0) | _ => false end) with false by (destruct acc; [cbn; lia|done]).
    replace ((d <? 48) || (57 <? d) || negb (0 =? 0)) with false by (cbn; lia).
    apply parses_drop, IH; [lia|by rewrite <-app_assoc|done|done].
Qed.

Lemma parses_number v : 0 <= v <= INT64_MAX -> int_passes erange v = true -> parses no_digit (parseint64_t erange) (print_int64 v) v.
Proof.
  intros Hv Hp. unfold parseint64_t. apply parses_number_loop; [| |done|done|done]; unfold print_int64; destruct (Z.ltb_spec v 0); try lia.
  - apply decimal_digits. lia.
  - pose proof (length_decimal 20 v). lia.
Qed.

(** ** Lists and dictionaries *)
Lemma print_head v : 0 <= v -> exists c l, print_int64 v = c :: l /\ is_digit c = true.
Proof. intros Hv. unfold print_int64. destruct (Z.ltb_spec v 0); [lia|]. destruct (decimal_head 19 v Hv) as (c & l & E & Hc). by exists c, l. Qed.

Lemma json_head pad o : printable erange o -> exists c l, json pad o = c :: l /\ starts_element c = true.
Proof.
  destruct o as [n|s|l|d|]; intros H; cbn [json].
  - destruct H as [Hn _]. destruct (print_head n ltac:(lia)) as (c & l & E & Hc). exists c, l. split; [done|]. unfold starts_element. by rewrite Hc.
  - by exists 34, (flat_map json_char s ++ quote).
  - by eexists 91, _.
  - by eexists 123, _.
  - done.
Qed.

Lemma spaces_are (Q : Z -> Prop) n : Q 32 -> Forall Q (spaces n).
Proof. intros H. apply List.Forall_forall. by intros x ->%repeat_spec. Qed.

Definition list_items (pad : Z) (l : List) : list Z := joined (map (fun o => spaces (pad + 2) ++ json (pad + 2) o) l).
Definition dict_items (pad : Z) (d : Dict) : list Z :=
  joined (map (fun '(k, v) => spaces (pad + 2) ++ json_string k ++ chars " : " ++ json (pad + 2) v) d).

Lemma between_skipped {A} (Q : Z -> Prop) (l : list A) : Q 44 -> Q 10 -> Forall Q (between l).
Proof. intros H1 H2. destruct l; repeat constructor; done. Qed.

Section elements.
  Context (generic : Parser R Object).

Lemma reads_list_loop pad l fuel acc j :
  Forall (fun o => printable erange o /\ reads (plain_object o) no_digit generic (json (pad + 2) o) (parsed o)) l -> Forall skipped_element j ->
  (length (j ++ list_items pad l ++ [10%Z] ++ spaces pad) <= fuel)%nat ->
  reads (forallb plain_object l) any (parseList_loop generic fuel acc) (j ++ list_items pad l ++ [10] ++ spaces pad ++ [93]) (acc ++ map parsed l).
Proof.
  intros Hl. revert fuel acc j. induction Hl as [|o l [Ho Hp] _ IH]; intros fuel acc j Hj Hf; unfold list_items in *; cbn [map joined app] in *.
  - rewrite app_nil_r. replace (j ++ 10 :: spaces pad ++ [93]) with (((j ++ [10] ++ spaces pad) ++ [93]) ++ []) by (rewrite app_nil_r, <-!app_assoc; done).
    destruct fuel; cbn [parseList_loop]; (apply (parses_bind any any _ _ _ [] false); [|apply parses_ret|done]); apply next_element_end; try exact Hf;
      (apply Forall_app; split; [done|]; constructor; [done|apply spaces_are; done]).
  - destruct (json_head (pad + 2) o Ho) as (c & t & E & Hc). rewrite !length_app, E in Hf. cbn [length] in Hf. destruct fuel as [|fuel]; [lia|]. cbn [parseList_loop].
    cbn [forallb]. rewrite <-!app_assoc. rewrite (app_assoc j). apply (reads_then _ any (next_is c) _ _ _ _ true).
    + apply next_element_found; [apply Forall_app; split; [done|apply spaces_are; done]|rewrite length_app; lia|done].
    + cbn [negb]. apply (reads_bind _ _ any no_digit _ _ _ _ (parsed o)); [exact Hp| |].
      * rewrite (cons_middle (parsed o) acc (map parsed l)), (app_assoc acc). apply IH; [by apply between_skipped|].
        rewrite !length_app. cbn [length]. lia.
      * intros rest. destruct l; by eexists _, _.
    + intros rest. rewrite E. by eexists.
Qed.

Lemma reads_dict_loop pad (d : Dict) fuel before acc j :
  Forall (fun e => json_string_ok e.1 /\ reads (plain_object e.2) no_digit generic ([32] ++ json (pad + 2) e.2) (parsed e.2)) d -> Forall skipped_key j ->
  (length (j ++ dict_items pad d ++ [10%Z] ++ spaces pad) <= fuel)%nat ->
  reads (forallb (fun '(k, v) => plain_string k && plain_object v) d) any (parseDictionary_loop generic fuel before acc) (j ++ dict_items pad d ++ [10] ++ spaces pad ++ [125]) (parsed_dict d ++ acc).
Proof.
  intros Hd. revert fuel before acc j. induction Hd as [|[k v] d [Hk Hp] _ IH]; intros fuel before acc j Hj Hf; unfold dict_items in *; cbn [map joined app fst snd] in *.
  - replace (j ++ 10 :: spaces pad ++ [125]) with (((j ++ [10] ++ spaces pad) ++ [125]) ++ []) by (rewrite app_nil_r, <-!app_assoc; done).
    destruct fuel; cbn [parseDictionary_loop]; (apply (parses_bind any any _ _ _ [] false); [|apply parses_ret|done]); apply next_key_end; try exact Hf;
      (apply Forall_app; split; [done|]; constructor; [done|apply spaces_are; done]).
  - rewrite !length_app in Hf. change (length (chars " : ")) with 3%nat in Hf. cbn [length] in Hf. destruct fuel as [|fuel]; [lia|]. cbn [parseDictionary_loop].
    cbn [forallb]. rewrite <-andb_assoc, <-!app_assoc. rewrite (app_assoc j). apply (reads_then _ any (next_is 34) _ _ _ _ true).
    + apply next_key_found; [apply Forall_app; split; [done|apply spaces_are; done]|rewrite length_app; lia].
    + cbn [negb]. apply (reads_bind _ _ any any _ _ _ _ k); [by apply reads_string| |done].
      change (chars " : " ++ json (pad + 2) v ++ ?t) with ([32; 58] ++ [32] ++ json (pad + 2) v ++ t).
      apply (reads_then _ any any _ _ _ _ tt); [apply (parses_unchecked _ _ _ tt), (parses_readUntil (S fuel) 58 [32]); [repeat constructor; done|cbn; lia]| |done].
      rewrite (app_assoc [32]). apply (reads_bind _ _ any no_digit _ _ _ _ (parsed v)); [exact Hp| |].
      * unfold parsed_dict. cbn [map rev]. rewrite <-app_assoc. apply (IH fuel 34 ((k, parsed v) :: acc)); [by apply between_skipped|].
        rewrite !length_app. cbn [length]. lia.
      * intros rest. destruct d; by eexists _, _.
    + intros rest. by eexists.
Qed.
End elements.

(** ** Objects *)
Definition json_parses_back (o : Object) : Prop := forall pad fuel ws, printable erange o -> Forall (fun x => x = 32) ws ->
  (length (ws ++ json pad o) < fuel)%nat -> reads (plain_object o) no_digit (parseGeneric erange garbage fuel) (ws ++ json pad o) (parsed o).

Lemma reads_json_list pad l fuel : Forall json_parses_back l -> printable erange (Object_LIST l) -> (length (json pad (Object_LIST l)) <= fuel)%nat ->
  reads (plain_object (Object_LIST l)) any (parseList erange garbage fuel) (json pad (Object_LIST l)) (map parsed l).
Proof.
  intros IH Ho%printable_list Hf. unfold parseList, parseList_with. cbn [json] in *. fold (list_items pad l) in *.
  cbn [plain_object]. apply (reads_then _ any any _ _ [91] ([10] ++ list_items pad l ++ [10] ++ spaces pad ++ [93]) tt);
    [apply (parses_unchecked _ _ _ tt), (parses_readUntil fuel 91 []); [constructor|cbn; lia]| |done].
  repeat (cbn [length app] in Hf; rewrite ?length_app in Hf).
  apply (reads_list_loop _ pad l fuel [] [10]); [|repeat constructor; done|rewrite !length_app; cbn [length]; lia].
  rewrite List.Forall_forall in IH, Ho. apply List.Forall_forall. intros o Hin. split; [auto|].
  apply (IH o Hin (pad + 2) fuel []); [auto|constructor|]. pose proof (joined_le (fun o => spaces (pad + 2) ++ json (pad + 2) o) l o Hin) as Hle.
  fold (list_items pad l) in Hle. cbv beta in Hle. rewrite length_app in Hle. cbn [app]. lia.
Qed.

Lemma reads_json_dict pad (d : Dict) fuel : Forall (fun e => json_parses_back e.2) d -> printable erange (Object_DICT d) ->
  (length (json pad (Object_DICT d)) <= fuel)%nat ->
  reads (plain_object (Object_DICT d)) any (parseDictionary erange garbage fuel) (json pad (Object_DICT d)) (parsed_dict d).
Proof.
  intros IH Ho%printable_dict Hf. unfold parseDictionary, parseDictionary_with. cbn [json] in *. fold (dict_items pad d) in *.
  cbn [plain_object]. apply (reads_then _ any any _ _ [123] ([10] ++ dict_items pad d ++ [10] ++ spaces pad ++ [125]) tt);
    [apply (parses_unchecked _ _ _ tt), (parses_readUntil fuel 123 []); [constructor|cbn; lia]| |done].
  repeat (cbn [length app] in Hf; rewrite ?length_app in Hf).
  rewrite <-(app_nil_r (parsed_dict d)). apply (reads_dict_loop _ pad d fuel garbage [] [10]); [|repeat constructor; done|rewrite !length_app; cbn [length]; lia].
  rewrite List.Forall_forall in IH, Ho. apply List.Forall_forall. intros [k v] Hin. destruct (Ho _ Hin) as [Hk Hv]. cbn [fst snd] in *. split; [done|].
  apply (IH _ Hin (pad + 2) fuel [32]); [done|by repeat constructor|].
  pose proof (joined_le (fun '(k, v) => spaces (pad + 2) ++ json_string k ++ chars " : " ++ json (pad + 2) v) d _ Hin) as Hle.
  fold (dict_items pad d) in Hle. cbv beta iota in Hle. rewrite !length_app in Hle. change (length (chars " : ")) with 3%nat in Hle. cbn [app length snd]. lia.
Qed.

Lemma json_back o : json_parses_back o.
Proof.
  induction o as [n|s|l IH|d IH|] using Object_rect_elements; intros pad [|fuel] ws Ho Hws Hf; try lia; rewrite length_app in Hf; cbn [parseGeneric parsed].
  - destruct Ho as [Hn Hp]. cbn [json] in *. destruct (print_head n ltac:(lia)) as (c & t & E & Hc). pose proof Hc as Hc'. unfold is_digit in Hc'.
    apply (reads_then _ no_digit (next_is c) _ _ _ _ c); [apply next_object_found; [done|lia|lia..]| |intros rest; rewrite E; by eexists].
    rewrite Hc. rewrite <-(app_nil_r (print_int64 n)). apply (parses_bind no_digit no_digit _ _ _ [] n); [by apply parses_number|apply parses_ret|done].
  - cbn [json] in *. apply (reads_then _ no_digit (next_is 34) _ _ _ _ 34); [apply next_object_found; [done|lia|lia..]| |intros rest; by eexists].
    cbn [is_digit Z.ltb Z.compare Pos.compare Pos.compare_cont orb negb Z.eqb Pos.eqb].
    rewrite <-(andb_true_r (plain_object _)), <-(app_nil_r (json_string s)). apply (reads_bind _ true no_digit any _ _ _ [] s); [by apply reads_string|apply parses_ret|done].
  - apply (reads_then _ no_digit (next_is 91) _ _ _ _ 91); [apply next_object_found; [done|lia|lia..]| |intros rest; by eexists].
    cbn [is_digit Z.ltb Z.compare Pos.compare Pos.compare_cont orb negb Z.eqb Pos.eqb].
    rewrite <-(andb_true_r (plain_object _)), <-(app_nil_r (json pad (Object_LIST l))). apply (reads_bind _ true no_digit any _ _ _ [] (map parsed l)); [apply reads_json_list; [done|done|lia]|apply parses_ret|done].
  - apply (reads_then _ no_digit (next_is 123) _ _ _ _ 123); [apply next_object_found; [done|lia|lia..]| |intros rest; by eexists].
    cbn [is_digit Z.ltb Z.compare Pos.compare Pos.compare_cont orb negb Z.eqb Pos.eqb].
    rewrite <-(andb_true_r (plain_object _)), <-(app_nil_r (json pad (Object_DICT d))). apply (reads_bind _ true no_digit any _ _ _ [] (parsed_dict d)); [apply reads_json_dict; [done|done|lia]|apply parses_ret|done].
  - done.
Qed.
End parse.

(** ** On a buffer *)
Lemma json_written (m : mem) (a n : Z) (d : Dict) (pads : nat) : 0 <= a -> 0 <= n -> a + n < 2 ^ 64 - 1 ->
  typed (Object_DICT d) -> (height (Object_DICT d) <= 16)%nat ->
  exists ret w, serializeDictionary pads (ArrayWriter_new m a n) d = Some (ret, w) /\
  (forall x, x < a \/ a + n <= x -> w.(w_memory) x = m x) /\
  if Z.of_nat (length (json_dict d)) <=? n then
    ret = 0 /\ ArrayWriter_bytesWritten w = Z.of_nat (length (json_dict d)) /\ read w.(w_memory) a (ArrayWriter_bytesWritten w) = json_dict d
  else ret = -1.
Proof.
  intros Ha Hn Han Ht Hh. set (w0 := ArrayWriter_new m a n). assert (u64 (a + n) = a + n) as Eend by (apply u64_small; lia).
  assert (writer_ok w0 /\ within m a (a + n) w0) as H0 by (unfold writer_ok, within, w0; cbn; split; [lia|done]).
  destruct (gives_generic (laws := ArrayWriter_laws) _ (within_write m a (a + n)) pads (Object_DICT d) 0 ltac:(lia) ltac:(lia) Ht w0 H0)
    as (ret & w & E & (Hv & Ebegin & _ & Hframe) & Eview & Ecode).
  exists ret, w. split; [exact E|]. split; [exact Hframe|]. fold (json_dict d) in Eview. rewrite Eview in Ecode.
  assert (view w0 = Some ([], n)) as Ev0.
  { cbn. unfold writer_view, writer_room, w0. cbn. rewrite Z.sub_diag, read_0 by lia. do 2 f_equal. lia. }
  rewrite Ev0 in Eview, Ecode. cbn [view_after app] in Eview, Ecode. destruct (Z.leb_spec (Z.of_nat (length (json_dict d))) n) as [Hfit|]; [|done].
  split; [done|]. pose proof (bytesWritten_view w _ _ Hv Eview) as Eb. split; [exact Eb|].
  cbn [view ArrayWriter_laws] in Eview. unfold writer_view in Eview. destruct (_ =? 0); [|done]. injection Eview as Er _.
  unfold ArrayWriter_bytesWritten. destruct Hv as (H1 & H2 & _). rewrite u64_small by lia. rewrite <-Er, Ebegin. done.
Qed.

Lemma json_read erange garbage (m : mem) (a n : Z) (d : Dict) (fuel : nat) : 0 <= a -> 0 <= n -> a + n < 2 ^ 64 - 1 ->
  printable erange (Object_DICT d) -> (length (json_dict d) <= fuel)%nat -> read m a n = json_dict d ->
  exists r, parseDictionary erange garbage fuel (ArrayReader_new m a n) =
    Some (if plain_object (Object_DICT d) then inr (parsed_dict d) else inl UNPARSABLE, r).
Proof.
  intros Ha Hn Han Hd Hf Er. set (r := ArrayReader_new m a n). assert (u64 (a + n) = a + n) as Ee by (apply u64_small; lia).
  assert (reader_ok r) as Hr by (unfold reader_ok, r; cbn; lia). assert (remaining r = json_dict d ++ []) as Erem.
  { rewrite app_nil_r. cbn. unfold reader_left, r. cbn. rewrite Ee. replace (a + n - a) with n by lia. exact Er. }
  pose proof (reads_json_dict (laws := ArrayReader_laws) erange garbage 0 d fuel) as H. revert H. unfold reads.
  destruct (plain_object _); intros H; (destruct H with (r := r) (rest := @nil Z) as (r' & E); [|done..|]);
    try (apply List.Forall_forall; intros e _; apply json_back); exists r'; apply E.
Qed.

(** C37: what is written as JSON into a buffer where it fits is read back from it
    if no string or key in it has a character that is escaped (a quote, a
    backslash, or one that does not print or is a tilde): the parser gives the same
    dictionary, with the entries of every dictionary in it in the opposite order.
    If one has, the parser refuses the text, since the second digit of an escape is
    not written. This is for strings below a mebibyte and integers that are not
    negative, nested as deep as the serializer can pad. No byte outside the buffer
    changes. *)
Theorem JsonBencSerializer_roundtrip (m : mem) (a n : Z) (d : Dict) (erange : bool) (garbage : Z) (pads fuel : nat) :
  0 <= a -> 0 <= n -> a + n < 2 ^ 64 - 1 -> printable erange (Object_DICT d) -> (height (Object_DICT d) <= 16)%nat ->
  (length (json_dict d) <= fuel)%nat ->
  exists ret w, serializeDictionary pads (ArrayWriter_new m a n) d = Some (ret, w) /\
  (forall x, x < a \/ a + n <= x -> w.(w_memory) x = m x) /\
  if Z.of_nat (length (json_dict d)) <=? n then
    ret = 0 /\ read w.(w_memory) a (ArrayWriter_bytesWritten w) = json_dict d /\
    exists r, parseDictionary erange garbage fuel (ArrayReader_new w.(w_memory) a (ArrayWriter_bytesWritten w)) =
      Some (if plain_object (Object_DICT d) then inr (parsed_dict d) else inl UNPARSABLE, r)
  else ret = -1.
Proof.
  intros Ha Hn Han Hp Hh Hf. destruct (json_written m a n d pads Ha Hn Han (printable_typed _ _ Hp) Hh) as (ret & w & E & Hframe & H).
  exists ret, w. split; [exact E|]. split; [exact Hframe|]. destruct (Z.leb_spec (Z.of_nat (length (json_dict d))) n); [|exact H].
  destruct H as (Hret & Eb & Er). split; [done|]. split; [exact Er|]. apply json_read; [lia..|done|done|exact Er].
Qed.

(** ** What is not read back *)

(** The last byte of the buffer is a slash: the comment is not there, the reader
    stays where it is, and the result is not looked at. *)
Lemma slash_stays garbage fuel (r : ArrayReader) : 0 <= r.(r_pointer) -> r.(r_pointer) + 1 = r.(r_endPointer) -> r.(r_endPointer) < 2 ^ 64 - 2 ->
  r.(r_memory) r.(r_pointer) = 47 -> next_key fuel garbage r = None.
Proof.
  intros H0 He Hend Hm. revert garbage. induction fuel as [|fuel IH]; intros garbage; cbn [next_key]; unfold bind at 1, peek at 1;
    cbn [reader_read ArrayReader_reader]; unfold ArrayReader_read; rewrite Z.add_0_r, u64_small by lia;
    rewrite (proj2 (Z.ltb_ge r.(r_endPointer) r.(r_pointer))), Z.ltb_irrefl by lia; cbn [orb Z.eqb]; rewrite Hm; cbn [Z.eqb Pos.eqb negb];
    unfold bind at 1, unchecked, parseComment; unfold bind at 1, read_or; cbn [reader_read ArrayReader_reader]; unfold ArrayReader_read;
    rewrite u64_small by lia; rewrite (proj2 (Z.ltb_lt r.(r_endPointer) _)) by lia; cbn [orb negb Z.eqb]; [done|apply IH].
Qed.

Lemma slash_behind garbage fuel junk (r : ArrayReader) : Forall skipped_key junk -> 0 <= r.(r_pointer) ->
  r.(r_pointer) + Z.of_nat (length junk) + 1 = r.(r_endPointer) -> r.(r_endPointer) < 2 ^ 64 - 2 ->
  read r.(r_memory) r.(r_pointer) (Z.of_nat (length junk) + 1) = junk ++ [47] -> next_key fuel garbage r = None.
Proof.
  intros Hj. revert garbage fuel r. induction Hj as [|c junk (H1 & H2 & H3) _ IH]; intros garbage fuel r H0 He Hend Hm.
  - cbn [length app] in *. apply slash_stays; [done|lia|done|]. rewrite read_cons in Hm by lia. by injection Hm.
  - cbn [length app] in *. rewrite read_cons in Hm by lia. injection Hm as Hc Hm.
    destruct fuel as [|fuel]; cbn [next_key]; unfold bind at 1, peek at 1; cbn [reader_read ArrayReader_reader]; unfold ArrayReader_read;
      rewrite Z.add_0_r, u64_small by lia; rewrite (proj2 (Z.ltb_ge r.(r_endPointer) r.(r_pointer))), Z.ltb_irrefl by lia; cbn [orb Z.eqb];
      rewrite Hc, !(proj2 (Z.eqb_neq c _)) by done; unfold bind at 1, skip; cbn [negb]; [done|].
    apply IH; cbn [reader_skip ArrayReader_reader]; unfold ArrayReader_skip; cbn [r_pointer r_endPointer r_memory]; rewrite ?u64_small by lia; try lia.
    rewrite <-Hm. f_equal. lia.
Qed.

(** A slash as the last character of a dictionary that is not closed, as when the
    file was cut off in front of a comment: the parser looks at it for ever. *)
Theorem JsonBencSerializer_hangs_on_slash (m : mem) (a n : Z) junk erange garbage fuel : 0 <= a -> a + n < 2 ^ 64 - 2 ->
  Forall skipped_key junk -> n = Z.of_nat (length junk) + 2 -> read m a n = [123] ++ junk ++ [47] ->
  parseDictionary erange garbage fuel (ArrayReader_new m a n) = None.
Proof.
  intros Ha Han Hj -> Hr. assert (0 <= Z.of_nat (length junk)) by lia. rewrite read_cons in Hr by lia. injection Hr as Hc Hr.
  unfold parseDictionary, parseDictionary_with. unfold bind at 1, unchecked at 1.
  assert (exists r, readUntil fuel 123 (ArrayReader_new m a (Z.of_nat (length junk) + 2)) = Some (inr tt, r) /\
    r.(r_memory) = m /\ r.(r_pointer) = a + 1 /\ r.(r_endPointer) = a + (Z.of_nat (length junk) + 2)) as (r & -> & Hm & Hp & He).
  { eexists. split; [|split; [|split]].
    - destruct fuel; cbn [readUntil]; unfold bind at 1, read_or, ArrayReader_new; cbn [reader_read ArrayReader_reader]; unfold ArrayReader_read;
        cbn [r_pointer r_endPointer r_memory]; rewrite !u64_small by lia; rewrite (proj2 (Z.ltb_ge _ _)) by lia; rewrite (proj2 (Z.ltb_ge _ _)) by lia;
        cbn [orb Z.eqb negb]; rewrite (read_cons m a 1), Hc by lia; cbn [first_char nth Z.eqb Pos.eqb]; reflexivity.
    - done.
    - done.
    - done. }
  assert (next_key fuel garbage r = None) as E.
  { apply (slash_behind garbage fuel junk); [done|lia|lia|lia|]. rewrite Hm, Hp, <-Hr. f_equal; lia. }
  destruct fuel; cbn [parseDictionary_loop]; unfold bind at 1; by rewrite E.
Qed.

(** A negative number in a list loses its sign: it is written with it, and the
    parser skips it like any character that it does not know. *)
Theorem JsonBencSerializer_loses_sign (m : mem) (a n v : Z) erange garbage fuel : 0 <= a -> 0 <= n -> a + n < 2 ^ 64 - 1 ->
  INT64_MIN < v < 0 -> int_passes erange (- v) = true -> (length (json 0 (Object_LIST [Object_INTEGER v])) <= fuel)%nat ->
  read m a n = json 0 (Object_LIST [Object_INTEGER v]) ->
  exists r, parseList erange garbage fuel (ArrayReader_new m a n) = Some (inr [Object_INTEGER (- v)], r).
Proof.
  intros Ha Hn Han Hv Hp Hf Er. set (r := ArrayReader_new m a n). assert (u64 (a + n) = a + n) as Ee by (apply u64_small; lia).
  assert (reader_ok r) as Hr by (unfold reader_ok, r; cbn; lia).
  assert (json 0 (Object_LIST [Object_INTEGER v]) = [91] ++ [10; 32; 32; 45] ++ print_int64 (- v) ++ [] ++ [] ++ [10] ++ [] ++ [93]) as Ej.
  { cbn [json map joined between]. unfold print_int64. rewrite (proj2 (Z.ltb_lt v 0)), (proj2 (Z.ltb_ge (- v) 0)) by lia. rewrite chars_minus.
    rewrite !app_nil_r. done. }
  assert (remaining r = json 0 (Object_LIST [Object_INTEGER v]) ++ []) as Erem.
  { rewrite app_nil_r. cbn. unfold reader_left, r. cbn. rewrite Ee. replace (a + n - a) with n by lia. exact Er. }
  rewrite Ej in Erem, Hf. repeat (cbn [length app] in Hf; rewrite ?length_app in Hf).
  assert (printable erange (Object_INTEGER (- v))) as Hpr by (unfold INT64_MIN, INT64_MAX in *; cbn [printable]; split; [unfold INT64_MAX; lia|done]).
  destruct (print_head (- v) ltac:(lia)) as (c & t & Et & Hc).
  assert (parses (laws := ArrayReader_laws) any (parseList erange garbage fuel)
    ([91] ++ [10; 32; 32; 45] ++ print_int64 (- v) ++ [] ++ [] ++ [10] ++ [] ++ [93]) [Object_INTEGER (- v)]) as Hparse.
  { unfold parseList, parseList_with. apply (parses_bind any any _ _ [91] _ tt);
      [apply (parses_unchecked _ _ _ tt), (parses_readUntil fuel 91 []); [constructor|cbn; lia]| |done].
    destruct fuel as [|fuel]; [lia|]. cbn [parseList_loop]. apply (parses_bind any (next_is c) _ _ _ _ true).
    - apply next_element_found; [by repeat constructor|cbn; lia|unfold starts_element; by rewrite Hc].
    - cbn [negb]. apply (parses_bind any no_digit _ _ _ _ (Object_INTEGER (- v))).
      + apply (json_back erange garbage (Object_INTEGER (- v)) 0 (S fuel) []); [done|constructor|cbn [json app]; lia].
      + apply (reads_list_loop erange _ 0 [] fuel [Object_INTEGER (- v)] []); [apply Forall_nil; done|apply Forall_nil; done|change (1 <= fuel)%nat; lia].
      + intros rest _. by eexists _, _.
    - intros rest _. rewrite Et. by eexists. }
  destruct (Hparse r [] Hr Erem I) as (r' & E & _). by exists r'.
Qed.

(** ** Examples *)
Definition demo_config : Dict :=
  [(chars "router", Object_DICT [(chars "interface", Object_DICT [(chars "type", Object_STRING (chars "TUN"))])]);
   (chars "ports", Object_LIST [Object_INTEGER 11234; Object_INTEGER 0])].
Definition demo_password : Dict := [(chars "password", Object_STRING (chars "a\b"))].

Lemma JsonBencSerializer_roundtrip_witness :
  let written d := serializeDictionary 0 (ArrayWriter_new (fun _ => 0) 1000 200) d in
  let parsed d := match written d with
    | Some (ret, w) => '(result, _) ← parseDictionary false 7 400 (ArrayReader_new w.(w_memory) 1000 (ArrayWriter_bytesWritten w)); Some (ret, result)
    | None => None end in
  parsed demo_config = Some (0, inr (parsed_dict demo_config)) /\ parsed demo_password = Some (0, inl UNPARSABLE).
Proof.
  cbv zeta. split.
  - destruct (JsonBencSerializer_roundtrip (fun _ => 0) 1000 200 demo_config false 7 0 400) as (ret & w & E & _ & H);
      [lia|lia|lia| |vm_compute; lia|vm_compute; lia|].
    { apply printable_dict. unfold demo_config, json_string_ok. repeat constructor; vm_compute; discriminate. }
    rewrite (proj2 (Z.leb_le _ _)) in H by (vm_compute; discriminate). destruct H as (-> & _ & r & Er). rewrite E, Er. reflexivity.
  - destruct (JsonBencSerializer_roundtrip (fun _ => 0) 1000 200 demo_password false 7 0 400) as (ret & w & E & _ & H);
      [lia|lia|lia| |vm_compute; lia|vm_compute; lia|].
    { apply printable_dict. unfold demo_password, json_string_ok. repeat constructor; vm_compute; discriminate. }
    rewrite (proj2 (Z.leb_le _ _)) in H by (vm_compute; discriminate). destruct H as (-> & _ & r & Er). rewrite E, Er. reflexivity.
Defined.

Lemma JsonBencSerializer_hangs_on_slash_witness : parseDictionary false 0 1000 (ArrayReader_new (of_list (chars "{  /")) 0 4) = None.
Proof.
  apply (JsonBencSerializer_hangs_on_slash _ 0 4 (chars "  ")); [lia|lia|by repeat constructor|done|done].
Defined.

Lemma JsonBencSerializer_loses_sign_witness : exists r,
  parseList false 0 100 (ArrayReader_new (of_list (json 0 (Object_LIST [Object_INTEGER (-5)]))) 0 8) = Some (inr [Object_INTEGER 5], r).
Proof. apply (JsonBencSerializer_loses_sign _ 0 8 (-5)); [lia|lia|lia|unfold INT64_MIN; lia|done|vm_compute; lia|vm_compute; reflexivity]. Defined.
