(* ===== verification/Address.v ===== *)
(** * Node addresses (dht/Address.h) and protocol versions (util/version/Version.h)

    An address is the node's IPv6 address, its public key and a switch label.
    The IPv6 address is a cache of a hash of the key: all zero until it is asked
    for. The wire form is the key and the label in network byte order. *)
From S2P Require Import Prelude Memory Endian Bits Hex AddrTools NaCl.

Definition Address_KEY_SIZE : Z := 32.
Definition Address_NETWORK_ADDR_SIZE : Z := 8.
Definition Address_SEARCH_TARGET_SIZE : Z := 16.
Definition Address_SERIALIZED_SIZE : Z := 40.

(** The [ip6] union as its 16 bytes; [ints.one] and [ints.two] are the last two
    of its four words. *)
Record Address := { ip6 : list Z; key : list Z; path : Z }.

Section address.
  Context {P : Platform} {N : NaCl}.

Definition ip6_unset (addr : Address) : bool :=
  let ints i := load 4 (of_list addr.(ip6)) (4 * i) in
  (ints 2 =? 0) && (ints 3 =? 0) && (ints 0 =? 0) && (ints 1 =? 0).

(** The functions that fill the cache return the address as they leave it. *)
Definition Address_getPrefix (addr : Address) : Z * Address :=
  let addr :=
    if ip6_unset addr
    then {| ip6 := fst (AddressCalc_addressForPublicKey addr.(key)); key := addr.(key); path := addr.(path) |}
    else addr in
  (Endian_bigEndianToHost32 (load 4 (of_list addr.(ip6)) 8), addr).

Definition Address_prefixForSearchTarget (searchTarget : list Z) : Z :=
  let prefix_be := load 4 (of_list searchTarget) 8 in
  Endian_bigEndianToHost32 prefix_be.

(** [key] and [path] are next to each other in the structure. *)
Definition key_and_path (addr : Address) : list Z := addr.(key) ++ store 8 addr.(path).

Definition Address_serialize (output : mem) (addr : Address) : mem :=
  let output := write output 0 (take 40 (key_and_path addr)) in
  if negb host_is_big_endian then
    let path_be := Endian_hostToBigEndian64 addr.(path) in
    write output Address_KEY_SIZE (store 8 path_be)
  else output.

Definition Address_parse (input : mem) : Address :=
  {| ip6 := repeat 0 16;
     key := read input 0 Address_KEY_SIZE;
     path := Endian_bigEndianToHost64 (load 8 input Address_KEY_SIZE) |}.

Definition Address_isSame (addr addr2 : Address) : bool :=
  Bits_memcmp (key_and_path addr) (key_and_path addr2) =? 0.

Definition Address_isSameIp (addr addr2 : Address) : bool :=
  Bits_memcmp (take 32 addr.(key)) (take 32 addr2.(key)) =? 0.

(** The result of [memcmp] as a [bool]: true when they differ. *)
Definition Address_equalsSearchTarget (addr : Address) (searchTarget : list Z) : bool :=
  let '(_, addr) := Address_getPrefix addr in
  negb (Bits_memcmp addr.(ip6) searchTarget =? 0).

Definition Address_forKey (out : Address) (key : list Z) : Address :=
  {| ip6 := fst (AddressCalc_addressForPublicKey key); key := take 32 key; path := out.(path) |}.

Definition Address_printIp (output : mem) (addr : Address) : mem :=
  let '(_, addr) := Address_getPrefix addr in
  AddrTools_printIp output (of_list addr.(ip6)).

Definition Address_print (output : mem) (addr : Address) : mem :=
  let output := Address_printIp output addr in
  let output := set output 39 64 in
  let path := AddrTools_printPath scratch addr.(path) in
  write output 40 (read path 0 20).
End address.

(** ** Protocol versions *)
Definition Version_CURRENT_PROTOCOL : Z := 2.
Definition Version_isCompat0 (x y : Z) : bool := x =? y.
Definition Version_isCompat1 (x y : Z) : bool := Version_isCompat0 x y || (x =? 1).
Definition Version_isCompat2 (x y : Z) : bool := Version_isCompat1 x y || ((x =? 2) && (0 <? y)).
Definition Version_isCompatConst (x y : Z) : bool :=
  if y <? x then Version_isCompat2 x y else Version_isCompat2 y x.

(** The table has a row and a column for each of 0, 1 and 2. *)
Definition Version_isCompatible (version1 version2 : Z) : bool :=
  let version2 := if 3 <=? version2 then 2 else version2 in
  let version1 := if 3 <=? version1 then 2 else version1 in
  Version_isCompatConst version1 version2.

(** ** Lemmas *)
Section lemmas.
  Context {P : Platform} {N : NaCl}.

Record address_ok (a : Address) : Prop := {
  ip6_length : length a.(ip6) = 16%nat;
  key_length : length a.(key) = 32%nat;
  path_range : 0 <= a.(path) < 2 ^ 64
}.

Lemma getPrefix_key a : (Address_getPrefix a).2.(key) = a.(key).
Proof. unfold Address_getPrefix. cbn [snd]. destruct (ip6_unset a); done. Qed.

Lemma getPrefix_path a : (Address_getPrefix a).2.(path) = a.(path).
Proof. unfold Address_getPrefix. cbn [snd]. destruct (ip6_unset a); done. Qed.

Lemma getPrefix_prefix a :
  (Address_getPrefix a).1 = Endian_bigEndianToHost32 (load 4 (of_list (Address_getPrefix a).2.(ip6)) 8).
Proof. done. Qed.

Lemma getPrefix_snd a : (Address_getPrefix a).2 =
  if ip6_unset a
  then {| ip6 := fst (AddressCalc_addressForPublicKey a.(key)); key := a.(key); path := a.(path) |} else a.
Proof. done. Qed.

(** Asking again changes nothing. *)
Lemma getPrefix_twice a : Address_getPrefix (Address_getPrefix a).2 = Address_getPrefix a.
Proof.
  set (b := (Address_getPrefix a).2).
  assert ((Address_getPrefix b).2 = b) as E.
  { unfold b. rewrite !getPrefix_snd. destruct (ip6_unset a) eqn:Ea; [|rewrite Ea; done].
    match goal with |- context [ip6_unset ?x] => destruct (ip6_unset x) end; reflexivity. }
  rewrite (surjective_pairing (Address_getPrefix b)), (surjective_pairing (Address_getPrefix a)).
  fold b. rewrite E, (getPrefix_prefix b), E. done.
Qed.

Lemma getPrefix_ip6_length (L : NaClLaws N) a : length a.(ip6) = 16%nat -> length (Address_getPrefix a).2.(ip6) = 16%nat.
Proof.
  intros Ha. unfold Address_getPrefix. cbn [snd]. destruct (ip6_unset a); [|done].
  cbn [ip6 AddressCalc_addressForPublicKey fst]. rewrite length_take, sha512_length. done.
Qed.

Lemma isSameIp_spec a b : length a.(key) = 32%nat -> length b.(key) = 32%nat ->
  Address_isSameIp a b = true <-> a.(key) = b.(key).
Proof.
  intros Ha Hb. unfold Address_isSameIp. rewrite !take_ge by lia. rewrite Z.eqb_eq. apply memcmp_0. lia.
Qed.

(** The wire form of an address: parsing what was serialized gives the same
    key and label, with the IPv6 address to be computed again, whatever was in
    the output buffer and whichever byte order the host has; the label is sent
    in network byte order. *)
Theorem Address_parse_serialize (output : mem) (a : Address) :
  address_ok a ->
  let wire := Address_serialize output a in
  Address_parse wire = {| ip6 := repeat 0 16; key := a.(key); path := a.(path) |} /\
  Address_isSame (Address_parse wire) a = true /\
  read wire 0 40 = a.(key) ++ be_split 8 a.(path).
Proof.
  intros [_ Hk Hp] wire.
  assert (read wire 0 40 = a.(key) ++ be_split 8 a.(path)) as Hw.
  { unfold wire, Address_serialize, key_and_path.
    assert (length (store 8 (path a)) = 8%nat) as Hs by apply length_store.
    rewrite take_ge by (rewrite length_app; lia). destruct host_is_big_endian eqn:Hh; cbn [negb].
    - rewrite read_write_same by (rewrite length_app; lia). unfold store. rewrite Hh. done.
    - rewrite (read_split _ 0 40 32) by lia. f_equal.
      + rewrite read_write_disj by (unfold Address_KEY_SIZE; lia).
        rewrite read_write_sub by (rewrite ?length_app; lia). change (Z.to_nat (0 - 0)) with 0%nat. rewrite skipn_O.
        rewrite take_app_length' by lia. done.
      + rewrite store_be64 by done. apply read_write_same. rewrite length_be_split. done. }
  assert (Address_parse wire = {| ip6 := repeat 0 16; key := a.(key); path := a.(path) |}) as Hparse.
  { unfold Address_parse. f_equal.
    - rewrite (read_split _ 0 40 32) in Hw by lia. apply app_inj_1 in Hw as [Hw _]; [done|].
      rewrite length_read. lia.
    - rewrite (read_split _ 0 40 32) in Hw by lia. apply app_inj_1 in Hw as [_ Hw]; [|rewrite length_read; lia].
      change (read wire (0 + 32) (40 - 32)) with (read wire 32 8) in Hw.
      transitivity (Endian_bigEndianToHost64 (load 8 (of_list (be_split 8 (path a))) 0)).
      + f_equal. apply load_read. etrans; [exact Hw|]. symmetry. apply read_of_list. rewrite length_be_split. done.
      + rewrite be_load64 by (apply of_list_ok, be_split_ok). rewrite read_of_list by (rewrite length_be_split; done).
        rewrite be_combine_split. apply Z.mod_small. lia. }
  split; [exact Hparse|]. split; [|exact Hw]. rewrite Hparse. unfold Address_isSame, key_and_path. cbn [key path].
  apply Z.eqb_eq, memcmp_0; done.
Qed.
End lemmas.

Definition demo_address (k p : Z) : Address :=
  {| ip6 := repeat 0 16; key := repeat k 32; path := p |}.

Lemma Address_parse_serialize_witness :
  @Address_parse x86 (@Address_serialize x86 scratch (demo_address 7 0x13)) = demo_address 7 0x13.
Proof.
  assert (address_ok (demo_address 7 0x13)) as H by (split; [done|done|cbn; lia]).
  apply (@Address_parse_serialize x86 scratch (demo_address 7 0x13) H).
Defined.
