(* ===== verification/NodeCollector.v ===== *)
(** * Collecting the best nodes for a target (dht/dhtcore/NodeCollector.h,
    DistanceNodeCollector.h, LinkStateNodeCollector.h, Node.h, NodeHeader.h)

    A collector is an array of the best nodes seen so far, worst first. Three
    ways of filtering a node through it share its layout. A pointer to a node of
    the store is its index there, together with what it points at. *)
From Stdlib Require Import Sorting.Sorted.
From S2P Require Import Prelude Memory Endian Bits NaCl Address.

Record Node := { node_reach : Z; node_version : Z; address : Address }.

Record NodeHeader := { addressPrefix : Z; reach : Z; switchIndex : Z; version : Z }.

(** [el_node] is the pointer to the header; [el_body] what [body] points at. *)
Record NodeCollector_Element := {
  el_node : option Z;
  el_body : option Node;
  el_value : Z;
  el_distance : Z
}.

Record NodeCollector := {
  capacity : Z;
  targetPrefix : Z;
  targetAddress : Address;
  thisNodeDistance : Z;
  nodes : list NodeCollector_Element
}.

Definition empty_element : NodeCollector_Element :=
  {| el_node := None; el_body := None; el_value := 0; el_distance := UINT32_MAX |}.

Definition with_nodes (c : NodeCollector) (l : list NodeCollector_Element) : NodeCollector :=
  {| capacity := c.(capacity); targetPrefix := c.(targetPrefix); targetAddress := c.(targetAddress);
     thisNodeDistance := c.(thisNodeDistance); nodes := l |}.

Section collector.
  Context {P : Platform} {N : NaCl}.

Definition NodeCollector_new (targetAddress : Address) (capacity : Z) (thisNodeAddress : Address)
    (allowNodesFartherThanUs : bool) : NodeCollector :=
  let '(targetPrefix, targetAddress) := Address_getPrefix targetAddress in
  {| capacity := capacity; targetPrefix := targetPrefix; targetAddress := targetAddress;
     thisNodeDistance :=
       if allowNodesFartherThanUs then UINT32_MAX
       else fst (Address_getPrefix thisNodeAddress) .^ targetPrefix;
     nodes := repeat empty_element (Z.to_nat capacity) |}.
End collector.

(** The first lines of the three filters: the distance, one more if only the
    prefix matches. *)
Definition node_distance (header : NodeHeader) (body : Node) (collector : NodeCollector) : Z :=
  let nodeDistance := header.(addressPrefix) .^ collector.(targetPrefix) in
  if (nodeDistance =? 0)
     && negb (Bits_memcmp body.(address).(ip6) collector.(targetAddress).(ip6) =? 0)
  then nodeDistance + 1 else nodeDistance.

(** The last lines: shift the worse elements out and put the new one in at
    [i - 1]; or replace the element of the same node. *)
Definition collect (l : list NodeCollector_Element) (i matched : Z) (new : NodeCollector_Element)
    : list NodeCollector_Element :=
  if 0 <? i then
    if 0 <? matched then <[Z.to_nat (matched - 1) := new]> l
    else take (Z.to_nat (i - 1)) (drop 1 l) ++ [new] ++ drop (Z.to_nat i) l
  else l.

(** The scan of NodeCollector and LinkStateNodeCollector; [stops] is the
    comparison that ends it. Gives [i], [match] and [value] after the loop. *)
Section scan.
  Variables (stops : Z -> Z -> bool) (getValue : Z -> Z) (body : Node) (nodeDistance : Z).

Fixpoint collector_scan (l : list NodeCollector_Element) (i matched value : Z) : Z * Z * Z :=
  match l with
  | [] => (i, matched, value)
  | el :: rest =>
      if Bool.eqb (el.(el_distance) =? 0) (nodeDistance =? 0) then
        let value := getValue value in
        if stops value el.(el_value) then (i, matched, value)
        else
          let matched :=
            if (0 <? i)
               && match el.(el_body) with
                  | Some b => Bits_memcmp body.(address).(ip6) b.(address).(ip6) =? 0
                  | None => false
                  end
            then i + 1 else matched in
          collector_scan rest (i + 1) matched value
      else if negb (nodeDistance =? 0) then (i, matched, value)
      else collector_scan rest (i + 1) matched value
  end.
End scan.

Definition NodeCollector_getValue (header : NodeHeader) (body : Node) (nodeDistance value : Z) : Z :=
  if value =? 0 then
    let value := u64 (64 - Bits_log2x64 body.(address).(path)) in
    value .| u64 (u64 (u64 (UINT32_MAX - nodeDistance) * header.(reach)) * value)
  else value.

Definition NodeCollector_addNode (index : Z) (header : NodeHeader) (body : Node)
    (collector : NodeCollector) : NodeCollector :=
  let nodeDistance := node_distance header body collector in
  if nodeDistance <? collector.(thisNodeDistance) then
    let getValue := NodeCollector_getValue header body nodeDistance in
    let '(i, matched, value) := collector_scan Z.leb getValue body nodeDistance collector.(nodes) 0 0 0 in
    with_nodes collector (collect collector.(nodes) i matched
      {| el_node := Some index; el_body := Some body; el_value := getValue value;
         el_distance := nodeDistance |})
  else collector.

Definition LinkStateNodeCollector_getValue (header : NodeHeader) (body : Node) (value : Z) : Z :=
  if value =? 0 then
    (if negb (header.(reach) =? 0) then u64 (64 - Bits_log2x64 body.(address).(path)) else 0)
  else value.

Definition LinkStateNodeCollector_addNode (index : Z) (header : NodeHeader) (body : Node)
    (collector : NodeCollector) : NodeCollector :=
  let nodeDistance := node_distance header body collector in
  if nodeDistance <? collector.(thisNodeDistance) then
    let getValue := LinkStateNodeCollector_getValue header body in
    let '(i, matched, value) := collector_scan Z.ltb getValue body nodeDistance collector.(nodes) 0 0 0 in
    with_nodes collector (collect collector.(nodes) i matched
      {| el_node := Some index; el_body := Some body; el_value := getValue value;
         el_distance := nodeDistance |})
  else collector.

Definition reach_and_path (header : NodeHeader) (body : Node) : Z :=
  u32 (u32 (header.(reach) << 7) .| (64 - Bits_log2x64 body.(address).(path))).

(** The scan of DistanceNodeCollector: [i] and [reachAndPath] after the loop. *)
Fixpoint distance_scan (header : NodeHeader) (body : Node) (nodeDistance : Z)
    (l : list NodeCollector_Element) (i reachAndPath : Z) : Z * Z :=
  match l with
  | [] => (i, reachAndPath)
  | el :: rest =>
      if el.(el_distance) <? nodeDistance then (i, reachAndPath)
      else
        let reachAndPath := if i =? 0 then reach_and_path header body else reachAndPath in
        if nodeDistance <? el.(el_distance) then
          distance_scan header body nodeDistance rest (i + 1) reachAndPath
        else if el.(el_value) <? reachAndPath then
          distance_scan header body nodeDistance rest (i + 1) reachAndPath
        else (i, reachAndPath)
  end.

Definition DistanceNodeCollector_addNode (index : Z) (header : NodeHeader) (body : Node)
    (collector : NodeCollector) : NodeCollector :=
  let nodeDistance := node_distance header body collector in
  if nodeDistance <? collector.(thisNodeDistance) then
    let '(i, reachAndPath) := distance_scan header body nodeDistance collector.(nodes) 0 0 in
    with_nodes collector (collect collector.(nodes) i 0
      {| el_node := Some index; el_body := Some body; el_value := reachAndPath;
         el_distance := nodeDistance |})
  else collector.

(** ** The distance collector keeps the best *)

(** Closer, or as close with more reach or a shorter label. *)
Definition better (x y : NodeCollector_Element) : bool :=
  (x.(el_distance) <? y.(el_distance))
  || ((x.(el_distance) =? y.(el_distance)) && (y.(el_value) <? x.(el_value))).

Lemma better_trans x y z : better x y = true -> better y z = true -> better x z = true.
Proof. unfold better. lia. Qed.
Lemma better_neg_trans x y z : better x y = false -> better y z = false -> better x z = false.
Proof. unfold better. lia. Qed.
Lemma better_asym x y : better x y = true -> better y x = false.
Proof. unfold better. lia. Qed.

(** Insertion into a list that is sorted worst first. *)
Fixpoint insert_better (x : NodeCollector_Element) (l : list NodeCollector_Element) : list NodeCollector_Element :=
  match l with
  | [] => [x]
  | y :: l' => if better x y then y :: insert_better x l' else x :: l
  end.

Definition worst_first : list NodeCollector_Element -> Prop :=
  StronglySorted (fun x y => better x y = false).

Lemma insert_better_perm x l : Permutation (insert_better x l) (x :: l).
Proof.
  induction l as [|y l IH]; cbn [insert_better]; [done|]. destruct (better x y); [|done].
  rewrite IH. apply perm_swap.
Qed.

Lemma insert_better_sorted x l : worst_first l -> worst_first (insert_better x l).
Proof.
  induction 1 as [|y l Hl IH Hy]; cbn [insert_better]; [repeat constructor|].
  destruct (better x y) eqn:E.
  - constructor; [exact IH|]. rewrite insert_better_perm. constructor; [apply better_asym, E|done].
  - constructor; [constructor; done|]. constructor; [done|].
    eapply Forall_impl; [|exact Hy]. intros z Hz. apply (better_neg_trans x y z); done.
Qed.

(** The element that a node which is close enough becomes. *)
Definition distance_element (c : NodeCollector) (cand : Z * NodeHeader * Node) : NodeCollector_Element :=
  let '(index, header, body) := cand in
  {| el_node := Some index; el_body := Some body; el_value := reach_and_path header body;
     el_distance := node_distance header body c |}.

Lemma distance_scan_spec header body d l i rap new :
  0 <= i -> (0 < i -> rap = reach_and_path header body) ->
  el_distance new = d -> el_value new = reach_and_path header body ->
  let '(i', rap') := distance_scan header body d l i rap in
  exists k, i' = i + Z.of_nat k /\ (k <= length l)%nat /\
    insert_better new l = take k l ++ [new] ++ drop k l /\
    (0 < i' -> rap' = reach_and_path header body).
Proof.
  intros Hi Hrap Hd Hv. revert i rap Hi Hrap. induction l as [|el l IH]; intros i rap Hi Hrap; cbn [distance_scan].
  { exists 0%nat. split; [lia|]. done. }
  set (rap1 := if i =? 0 then reach_and_path header body else rap).
  assert (rap1 = reach_and_path header body) as Hrap1.
  { unfold rap1. destruct (Z.eqb_spec i 0); [done|]. apply Hrap. lia. }
  assert (better new el = false -> forall rap', (0 < i -> rap' = reach_and_path header body) ->
    exists k, i = i + Z.of_nat k /\ (k <= length (el :: l))%nat /\
      insert_better new (el :: l) = take k (el :: l) ++ [new] ++ drop k (el :: l) /\
      (0 < i -> rap' = reach_and_path header body)) as Hstop.
  { intros Hb rap' Hr. exists 0%nat. cbn [insert_better]. rewrite Hb. split; [lia|]. split; [lia|done]. }
  assert (better new el = true ->
    let '(i', rap') := distance_scan header body d l (i + 1) rap1 in
    exists k, i' = i + Z.of_nat k /\ (k <= length (el :: l))%nat /\
      insert_better new (el :: l) = take k (el :: l) ++ [new] ++ drop k (el :: l) /\
      (0 < i' -> rap' = reach_and_path header body)) as Hgo.
  { intros Hb. specialize (IH (i + 1) rap1 ltac:(lia) (fun _ => Hrap1)).
    destruct (distance_scan header body d l (i + 1) rap1) as [i' rap']. destruct IH as (k & Hi' & Hk & Hins & Hr).
    exists (S k). cbn [length insert_better take drop]. rewrite Hb, Hins. split; [lia|]. split; [lia|]. done. }
  unfold better in Hstop, Hgo. rewrite Hd, Hv in Hstop, Hgo.
  destruct (Z.ltb_spec (el_distance el) d); [apply Hstop; [lia|done]|].
  destruct (Z.ltb_spec d (el_distance el)); [apply Hgo; lia|].
  rewrite Hrap1 in *. destruct (Z.ltb_spec (el_value el) (reach_and_path header body)); [apply Hgo; lia|].
  apply Hstop; [lia|done].
Qed.

(** Adding a node that is close enough inserts it and drops the worst. *)
Lemma distance_add_spec cand c :
  let '(index, header, body) := cand in
  nodes (DistanceNodeCollector_addNode index header body c) =
    (if node_distance header body c <? thisNodeDistance c
     then drop 1 (insert_better (distance_element c cand) (nodes c)) else nodes c) /\
  forall cand', distance_element (DistanceNodeCollector_addNode index header body c) cand' = distance_element c cand'.
Proof.
  destruct cand as [[index header] body]. unfold DistanceNodeCollector_addNode.
  destruct (Z.ltb_spec (node_distance header body c) (thisNodeDistance c)); [|done].
  pose proof (distance_scan_spec header body (node_distance header body c) (nodes c) 0 0
    (distance_element c (index, header, body)) ltac:(lia) ltac:(lia) eq_refl eq_refl) as Hs.
  destruct (distance_scan _ _ _ _ _ _) as [i rap]. destruct Hs as (k & -> & Hk & Hins & Hr).
  split; [|intros [[? ?] ?]; done]. cbn [nodes with_nodes]. rewrite Hins. unfold collect.
  destruct k as [|k]; [done|]. rewrite Hr by lia.
  destruct (Z.ltb_spec 0 (0 + Z.of_nat (S k))); [|lia]. cbn [Z.ltb Z.compare].
  replace (Z.to_nat (0 + Z.of_nat (S k) - 1)) with k by lia.
  replace (Z.to_nat (0 + Z.of_nat (S k))) with (S k) by lia.
  destruct (nodes c) as [|el l]; [cbn in Hk; lia|]. done.
Qed.

(** All candidates through one collector. *)
Definition distance_collect (c : NodeCollector) (cands : list (Z * NodeHeader * Node)) : NodeCollector :=
  fold_left (fun c '(index, header, body) => DistanceNodeCollector_addNode index header body c) cands c.

Definition close_enough (c : NodeCollector) (cand : Z * NodeHeader * Node) : bool :=
  el_distance (distance_element c cand) <? c.(thisNodeDistance).

(** What was dropped so far is no better than what is kept. *)
Definition drops (l dropped : list NodeCollector_Element) : Prop :=
  worst_first l /\ forall x y, In x dropped -> In y l -> better x y = false.

Lemma insert_drops x l dropped : drops l dropped -> exists h,
  insert_better x l = h :: drop 1 (insert_better x l) /\
  drops (drop 1 (insert_better x l)) (h :: dropped).
Proof.
  intros [Hs Hd]. pose proof (insert_better_sorted x l Hs) as Hi.
  assert (forall h t, insert_better x l = h :: t ->
    (forall y, In y t -> In y l \/ y = x /\ better x h = true /\ In h l) -> exists h0,
      insert_better x l = h0 :: drop 1 (insert_better x l) /\
      drops (drop 1 (insert_better x l)) (h0 :: dropped)) as H.
  { intros h t E Ht. rewrite E in *. exists h. split; [done|]. inversion Hi as [|? ? Ht' Hh]; subst.
    split; [done|]. rewrite List.Forall_forall in Hh. intros z y [<-|Hz] Hy; [by apply Hh|].
    destruct (Ht y Hy) as [Hyl|(-> & Hxh & Hhl)]; [by apply Hd|].
    destruct (better z x) eqn:Ezx; [|done]. rewrite <-(Hd z h Hz Hhl). symmetry.
    apply (better_trans z x h); done. }
  destruct l as [|y l]; cbn [insert_better] in H |- *; [apply (H x []); [done|intros ? []]|].
  destruct (better x y) eqn:E.
  - apply (H y (insert_better x l)); [done|]. intros z Hz.
    apply (Permutation_in _ (insert_better_perm x l)) in Hz as [<-|Hz]; [right|left; by right].
    split; [done|]. split; [done|by left].
  - apply (H x (y :: l)); [done|]. auto.
Qed.

Lemma distance_collect_keeps c cands dropped : drops (nodes c) dropped ->
  exists dropped', drops (nodes (distance_collect c cands)) dropped' /\
    List.length (nodes (distance_collect c cands)) = List.length (nodes c) /\
    Permutation (nodes (distance_collect c cands) ++ dropped')
      ((nodes c ++ dropped) ++ map (distance_element c) (List.filter (close_enough c) cands)).
Proof.
  unfold distance_collect. revert c dropped.
  induction cands as [|[[index header] body] cands IH]; intros c dropped Hd; cbn [fold_left List.filter].
  { exists dropped. cbn [map]. rewrite app_nil_r. done. }
  set (c' := DistanceNodeCollector_addNode index header body c).
  destruct (distance_add_spec (index, header, body) c) as [En Ee]. fold c' in En, Ee.
  assert (thisNodeDistance c' = thisNodeDistance c) as Et.
  { unfold c', DistanceNodeCollector_addNode. destruct (_ <? _); [|done]. destruct (distance_scan _ _ _ _ _ _). done. }
  assert (forall l, map (distance_element c') (List.filter (close_enough c') l) =
                    map (distance_element c) (List.filter (close_enough c) l)) as Emap.
  { intros l. erewrite map_ext by exact Ee. f_equal. apply filter_ext. intros cand.
    unfold close_enough. rewrite Ee, Et. done. }
  change (close_enough c (index, header, body)) with (node_distance header body c <? thisNodeDistance c).
  destruct (node_distance header body c <? thisNodeDistance c).
  - destruct (insert_drops (distance_element c (index, header, body)) (nodes c) dropped Hd) as (h & Ei & Hd').
    rewrite <-En in Hd', Ei. destruct (IH c' (h :: dropped) Hd') as (dropped' & H1 & H2 & H3).
    pose proof (insert_better_perm (distance_element c (index, header, body)) (nodes c)) as Hp.
    rewrite Ei in Hp. exists dropped'. split; [exact H1|]. split.
    + rewrite H2. apply Permutation_length in Hp. cbn [List.length] in Hp. lia.
    + rewrite H3, Emap. cbn [map]. rewrite <-Permutation_middle, app_comm_cons, Hp.
      cbn [app]. rewrite <-Permutation_middle. done.
  - destruct (IH c' dropped) as (dropped' & H1 & H2 & H3); [rewrite En; done|].
    exists dropped'. rewrite Emap, En in H3. rewrite En in H2. done.
Qed.

(** Of any sequence of nodes, the ones that are closer to the target than
    this node, and the empty elements a new collector starts with, a distance
    collector keeps the best: it holds them worst first, and nothing that was
    dropped is closer than anything kept, or as close with more reach, or as
    close with the same reach and a shorter label. *)
Theorem DistanceNodeCollector_best (c : NodeCollector) (cands : list (Z * NodeHeader * Node)) :
  c.(nodes) = repeat empty_element (Z.to_nat c.(capacity)) ->
  let kept := (distance_collect c cands).(nodes) in
  List.length kept = Z.to_nat c.(capacity) /\
  worst_first kept /\
  exists dropped,
    Permutation (kept ++ dropped)
      (c.(nodes) ++ map (distance_element c) (List.filter (close_enough c) cands)) /\
    forall x y, In x dropped -> In y kept -> better x y = false.
Proof.
  intros Hc.
  assert (worst_first (nodes c)) as Hs.
  { rewrite Hc. clear Hc. induction (Z.to_nat (capacity c)) as [|n IH]; cbn [repeat]; constructor; [exact IH|].
    apply List.Forall_forall. intros x ->%repeat_spec. done. }
  destruct (distance_collect_keeps c cands []) as (dropped & [H1 H2] & H3 & H4); [done|].
  rewrite app_nil_r in H4. cbn zeta. rewrite H3, Hc, repeat_length. split; [done|]. split; [done|].
  exists dropped. rewrite Hc in H4. done.
Qed.

(** ** A link state collector with room for one *)
Definition linkstate_collect (c : NodeCollector) (cands : list (Z * NodeHeader * Node)) : NodeCollector :=
  fold_left (fun c '(index, header, body) => LinkStateNodeCollector_addNode index header body c) cands c.

Definition linkstate_element (c : NodeCollector) (cand : Z * NodeHeader * Node) : NodeCollector_Element :=
  let '(index, header, body) := cand in
  {| el_node := Some index; el_body := Some body;
     el_value := LinkStateNodeCollector_getValue header body 0;
     el_distance := node_distance header body c |}.

(** An exact match before everything else, then the shorter label of a node
    with reach. *)
Definition preferred (x y : NodeCollector_Element) : bool :=
  ((x.(el_distance) =? 0) && negb (y.(el_distance) =? 0))
  || (Bool.eqb (x.(el_distance) =? 0) (y.(el_distance) =? 0) && (y.(el_value) <? x.(el_value))).

Definition candidate_near (c : NodeCollector) (cand : Z * NodeHeader * Node) : bool :=
  el_distance (linkstate_element c cand) <? c.(thisNodeDistance).

Lemma getValue_idem header body v : v = 0 \/ v = LinkStateNodeCollector_getValue header body 0 ->
  LinkStateNodeCollector_getValue header body v = LinkStateNodeCollector_getValue header body 0.
Proof.
  intros [->|E]; [done|]. unfold LinkStateNodeCollector_getValue at 1. destruct (Z.eqb_spec v 0); [|done].
  done.
Qed.

Lemma linkstate_add_one cand c el : nodes c = [el] ->
  let '(index, header, body) := cand in
  nodes (LinkStateNodeCollector_addNode index header body c) =
    [if candidate_near c cand && negb (preferred el (linkstate_element c cand))
     then linkstate_element c cand else el] /\
  thisNodeDistance (LinkStateNodeCollector_addNode index header body c) = thisNodeDistance c /\
  forall cand', linkstate_element (LinkStateNodeCollector_addNode index header body c) cand' = linkstate_element c cand'.
Proof.
  destruct cand as [[index header] body]. intros Hn. unfold LinkStateNodeCollector_addNode, candidate_near.
  cbn [linkstate_element el_distance].
  destruct (Z.ltb_spec (node_distance header body c) (thisNodeDistance c)); [|done].
  rewrite Hn. unfold preferred. cbn [collector_scan el_distance el_value andb].
  set (d := node_distance header body c). set (v := LinkStateNodeCollector_getValue header body 0).
  assert (forall v', v' = 0 \/ v' = v -> LinkStateNodeCollector_getValue header body v' = v) as Hv
    by (apply getValue_idem).
  destruct (Z.eqb_spec (el_distance el) 0), (Z.eqb_spec d 0); cbn [Bool.eqb andb orb negb];
    try (destruct (Z.ltb_spec v (el_value el)); cbn [negb]);
    (split; [|split; [done|intros [[? ?] ?]; done]]); cbn [nodes with_nodes collect Z.ltb Z.compare Z.add];
    unfold collect; cbn; rewrite ?Hv by auto; done.
Qed.

Lemma preferred_neg_trans x y z : preferred x y = false -> preferred y z = false -> preferred x z = false.
Proof.
  unfold preferred. destruct (el_distance x =? 0), (el_distance y =? 0), (el_distance z =? 0); cbn; lia.
Qed.
Lemma preferred_asym x y : preferred x y = true -> preferred y x = false.
Proof. unfold preferred. destruct (el_distance x =? 0), (el_distance y =? 0); cbn; lia. Qed.

(** Nothing near enough that went through the collector is preferred to what it
    holds, which is one of them or what it held before. *)
Lemma linkstate_collect_best c cands el : nodes c = [el] ->
  exists r, nodes (linkstate_collect c cands) = [r] /\
    preferred el r = false /\
    (r = el \/ exists cand, In cand cands /\ candidate_near c cand = true /\ r = linkstate_element c cand) /\
    (forall cand, In cand cands -> candidate_near c cand = true -> preferred (linkstate_element c cand) r = false).
Proof.
  unfold linkstate_collect. revert c el.
  induction cands as [|[[index header] body] cands IH]; intros c el Hn; cbn [fold_left].
  { exists el. split_and!; [done| |by left|intros ? []].
    unfold preferred. destruct (el_distance el =? 0); cbn; lia. }
  destruct (linkstate_add_one (index, header, body) c el Hn) as (Hn' & Ht & He).
  set (c' := LinkStateNodeCollector_addNode index header body c) in *. set (new := linkstate_element c (index, header, body)) in *.
  destruct (IH c' _ Hn') as (r & Hr & Hpref & Hfrom & Hbest).
  assert (forall cand, candidate_near c' cand = candidate_near c cand) as Hnear
    by (intros cand; unfold candidate_near; rewrite He, Ht; done).
  set (cond := candidate_near c (index, header, body) && negb (preferred el new)) in *.
  assert (preferred el (if cond then new else el) = false /\
          (candidate_near c (index, header, body) = true -> preferred new (if cond then new else el) = false)) as [H1 H2].
  { unfold cond. assert (forall x, preferred x x = false) as Hirr
      by (intros x; unfold preferred; destruct (el_distance x =? 0); cbn; lia).
    destruct (candidate_near _ _), (preferred el new) eqn:E; cbn [andb negb];
      (split; [|intros ?; try discriminate]); auto using preferred_asym. }
  exists r. split; [exact Hr|]. split; [exact (preferred_neg_trans _ _ _ H1 Hpref)|]. split.
  - destruct Hfrom as [->|(cand & Hin & Hc & ->)].
    + unfold cond. destruct (candidate_near c (index, header, body)) eqn:En; cbn [andb]; [|by left].
      destruct (preferred el new); cbn [negb]; [by left|]. right. exists (index, header, body). split; [by left|done].
    + right. exists cand. rewrite Hnear in Hc. rewrite He. split; [by right|done].
  - intros cand [<-|Hin] Hc.
    + apply (preferred_neg_trans _ _ _ (H2 Hc) Hpref).
    + rewrite <-He. apply Hbest; [done|]. rewrite Hnear. done.
Qed.

(** ** Witness: three nodes through a collector with room for two *)
Definition demo_header (prefix r : Z) : NodeHeader :=
  {| addressPrefix := prefix; reach := r; switchIndex := 0; version := 2 |}.
Definition demo_node (k p : Z) : Node :=
  {| node_reach := 0; node_version := 2; address := demo_address k p |}.
Definition demo_collector : NodeCollector :=
  {| capacity := 2; targetPrefix := 0xFC00; targetAddress := demo_address 1 0x13;
     thisNodeDistance := UINT32_MAX; nodes := repeat empty_element 2 |}.

Lemma DistanceNodeCollector_best_witness :
  let cands := [(0, demo_header 0xFC10 5, demo_node 1 0x13); (1, demo_header 0xFC01 1, demo_node 2 0x15);
                (2, demo_header 0xFC01 9, demo_node 3 0x17)] in
  map el_node (distance_collect demo_collector cands).(nodes) = [Some 1; Some 2] /\
  List.length (distance_collect demo_collector cands).(nodes) = 2%nat.
Proof.
  intros cands. destruct (DistanceNodeCollector_best demo_collector cands eq_refl) as (H & _).
  split; [vm_compute; reflexivity|exact H].
Defined.
