(* ===== verification/NodeStore.v ===== *)
(** * The node store (dht/dhtcore/NodeStore.c, NodeStore_pvt.h)

    The routing table: two parallel arrays of headers and nodes, the first
    [size] entries in use, several entries for a node that is known by several
    labels. The arrays are functions of the index; the invariant keeps every
    index the code uses below the capacity. A node pointer is its index. [None]
    is an abort by an assertion, or a shift by 64 in LabelSplicer_routesThrough.

    Addresses given by pointer have their IPv6 cache filled in place by
    Address_getPrefix; the caller's copy is not part of the results, and this
    node's own address is one that has been filled in (RouterModule uses
    Address_forKey). Logging and the table dump for the administrator
    are left out. *)
From S2P Require Import Prelude Memory Endian Bits NumberCompress LabelSplicer NaCl Address NodeCollector.

Record NodeStore := {
  thisNodeAddress : Address;
  headers : Z -> NodeHeader;
  store_nodes : Z -> Node;
  store_capacity : Z;
  size : Z;
  labelSum : Z
}.

Definition set_header (s : NodeStore) (i : Z) (h : NodeHeader) : NodeStore :=
  {| thisNodeAddress := s.(thisNodeAddress);
     headers := fun j => if j =? i then h else s.(headers) j;
     store_nodes := s.(store_nodes); store_capacity := s.(store_capacity);
     size := s.(size); labelSum := s.(labelSum) |}.

Definition set_node (s : NodeStore) (i : Z) (n : Node) : NodeStore :=
  {| thisNodeAddress := s.(thisNodeAddress); headers := s.(headers);
     store_nodes := fun j => if j =? i then n else s.(store_nodes) j;
     store_capacity := s.(store_capacity); size := s.(size); labelSum := s.(labelSum) |}.

Definition set_size (s : NodeStore) (n : Z) : NodeStore :=
  {| thisNodeAddress := s.(thisNodeAddress); headers := s.(headers); store_nodes := s.(store_nodes);
     store_capacity := s.(store_capacity); size := n; labelSum := s.(labelSum) |}.

Definition set_labelSum (s : NodeStore) (n : Z) : NodeStore :=
  {| thisNodeAddress := s.(thisNodeAddress); headers := s.(headers); store_nodes := s.(store_nodes);
     store_capacity := s.(store_capacity); size := s.(size); labelSum := n |}.

Definition set_reach (h : NodeHeader) (r : Z) : NodeHeader :=
  {| addressPrefix := h.(addressPrefix); reach := r; switchIndex := h.(switchIndex); version := h.(version) |}.
Definition set_version (h : NodeHeader) (v : Z) : NodeHeader :=
  {| addressPrefix := h.(addressPrefix); reach := h.(reach); switchIndex := h.(switchIndex); version := v |}.
Definition set_path (n : Node) (p : Z) : Node :=
  {| node_reach := n.(node_reach); node_version := n.(node_version);
     address := {| ip6 := n.(address).(ip6); key := n.(address).(key); path := p |} |}.

Definition zero_header : NodeHeader := {| addressPrefix := 0; reach := 0; switchIndex := 0; version := 0 |}.
Definition zero_node : Node :=
  {| node_reach := 0; node_version := 0; address := {| ip6 := repeat 0 16; key := repeat 0 32; path := 0 |} |}.

Section nodestore.
  Context {P : Platform} {N : NaCl}.

Definition NodeStore_new (myAddress : Address) (capacity : Z) : NodeStore :=
  {| thisNodeAddress := myAddress; headers := fun _ => zero_header; store_nodes := fun _ => zero_node;
     store_capacity := capacity; size := 0; labelSum := 0 |}.

(** The node's reach and version are brought up to date with its header. *)
Definition nodeForIndex (store : NodeStore) (index : Z) : NodeStore :=
  let h := store.(headers) index in
  set_node store index
    {| node_reach := h.(reach); node_version := h.(version); address := (store.(store_nodes) index).(address) |}.

(** The loop keeps the best index and its reach. *)
Definition NodeStore_getNode (store : NodeStore) (addr : Address) : NodeStore * option Z :=
  let '(pfx, addr) := Address_getPrefix addr in
  let '(bestIndex, _) :=
    for_loop (Z.to_nat store.(size)) 0 (fun i '(bestIndex, bestReach) =>
      let h := store.(headers) i in
      if (pfx =? h.(addressPrefix))
         && (Bits_memcmp (take 32 addr.(key)) (take 32 (store.(store_nodes) i).(address).(key)) =? 0)
         && (bestReach <=? h.(reach))
      then (i, h.(reach)) else (bestIndex, bestReach)) (-1, 0) in
  if bestIndex =? -1 then (store, None) else (nodeForIndex store bestIndex, Some bestIndex).

Definition getSwitchIndex (addr : Address) : Z :=
  let bits := NumberCompress_bitsUsedForLabel addr.(path) in
  NumberCompress_getDecompressed addr.(path) bits.

Definition replaceNode (store : NodeStore) (index : Z) (addr : Address) : option NodeStore :=
  let '(pfx, addr) := Address_getPrefix addr in
  let old := store.(store_nodes) index in
  let store := set_header store index
    {| addressPrefix := pfx; reach := 0; switchIndex := getSwitchIndex addr; version := 0 |} in
  let store := set_labelSum store (s32 (store.(labelSum) - Bits_log2x64 old.(address).(path))) in
  let store := set_labelSum store (s32 (store.(labelSum) + Bits_log2x64 addr.(path))) in
  if negb (0 <? store.(labelSum)) then None
  else Some (set_node store index
    {| node_reach := old.(node_reach); node_version := old.(node_version); address := addr |}).

Definition adjustReach (header : NodeHeader) (reachDiff : Z) : NodeHeader :=
  if reachDiff =? 0 then header
  else
    let newReach := s64 (reachDiff + header.(reach)) in
    if newReach <=? 0 then set_reach header 0
    else if INT32_MAX <? newReach then set_reach header INT32_MAX
    else set_reach header newReach.

Definition NodeStore_remove (node : Z) (store : NodeStore) : option NodeStore :=
  if negb ((0 <=? node) && (node <? store.(size))) then None
  else
    let store := set_size store (store.(size) - 1) in
    let store :=
      if negb (node =? store.(size)) then
        let store := set_node store node (store.(store_nodes) store.(size)) in
        set_header store node (store.(headers) store.(size))
      else store in
    Some (set_node store store.(size) (set_path (store.(store_nodes) store.(size)) 0)).

(** The first loop of [NodeStore_addNode] from index [i] on, with [n] entries
    left: each round either moves on or removes an entry. [inl] is a return out
    of the loop, [inr] the store and the worst node after it. *)
Fixpoint addNode_loop (n : nat) (addr : Address) (pfx reachDifference version : Z)
    (store : NodeStore) (i worstNode worstPath : Z)
    : option ((NodeStore * option Z) + (NodeStore * Z)) :=
  match n with
  | O => Some (inr (store, worstNode))
  | S n =>
      let header := store.(headers) i in
      let node := store.(store_nodes) i in
      let next store worstNode worstPath :=
        addNode_loop n addr pfx reachDifference version store (i + 1) worstNode worstPath in
      let found :=
        let store := set_header store i (set_version (adjustReach header reachDifference) version) in
        Some (inl (nodeForIndex store i, Some i)) in
      if (header.(addressPrefix) =? pfx) && Address_isSameIp node.(address) addr then
        if node.(address).(path) =? addr.(path) then found
        else
          better ← LabelSplicer_routesThrough node.(address).(path) addr.(path);
          if (better : bool) then
            store ← NodeStore_remove i store;
            addNode_loop n addr pfx reachDifference version store i worstNode worstPath
          else
            worse ← LabelSplicer_routesThrough addr.(path) node.(address).(path);
            if negb worse then next store worstNode worstPath else found
      else if node.(address).(path) =? addr.(path) then
        if 0 <? reachDifference then
          store ← replaceNode store i addr;
          let store := set_header store i
            (set_version (set_reach (store.(headers) i) (u32 reachDifference)) version) in
          Some (inl (nodeForIndex store i, Some i))
        else Some (inl (store, None))
      else if (store.(store_capacity) <=? store.(size)) && (worstPath <? node.(address).(path))
      then next store i node.(address).(path)
      else next store worstNode worstPath
  end.

(** The assertions of the second loop. *)
Definition addNode_asserts (addr : Address) (store : NodeStore) : bool :=
  forallb (fun k =>
    let i := Z.of_nat k in
    let a := (store.(store_nodes) i).(address) in
    ((store.(headers) i).(addressPrefix) =? fst (Address_getPrefix a))
    && negb ((Bits_memcmp a.(ip6) addr.(ip6) =? 0) && (a.(path) =? addr.(path))))
    (seq 0 (Z.to_nat store.(size))).

Definition NodeStore_addNode (store : NodeStore) (addr : Address) (reachDifference version : Z)
    : option (NodeStore * option Z) :=
  if negb (Version_isCompatible Version_CURRENT_PROTOCOL version) then Some (store, None)
  else
    let '(pfx, addr) := Address_getPrefix addr in
    if Bits_memcmp addr.(ip6) store.(thisNodeAddress).(ip6) =? 0 then Some (store, None)
    else if negb (AddressCalc_validAddress addr.(ip6)) then None
    else
      r ← addNode_loop (Z.to_nat store.(size)) addr pfx reachDifference version store 0 0 0;
      match r with
      | inl result => Some result
      | inr (store, worstNode) =>
          if negb (addNode_asserts addr store) then None
          else
            let '(insertionIndex, store) :=
              if store.(store_capacity) <=? store.(size) then (worstNode, store)
              else (store.(size), set_size store (store.(size) + 1)) in
            store ← replaceNode store insertionIndex addr;
            let store := set_header store insertionIndex
              (set_version (adjustReach (store.(headers) insertionIndex) reachDifference) version) in
            Some (nodeForIndex store insertionIndex, Some insertionIndex)
      end.

(** The nodes of the store in order, as a collector is given them. *)
Definition candidates (store : NodeStore) : list (Z * NodeHeader * Node) :=
  map (fun k => let i := Z.of_nat k in (i, store.(headers) i, store.(store_nodes) i))
    (seq 0 (Z.to_nat store.(size))).

Definition getBest_collector (targetAddress : Address) (store : NodeStore) : NodeCollector :=
  let '(targetPrefix, targetAddress) := Address_getPrefix targetAddress in
  {| capacity := 1; targetPrefix := targetPrefix; targetAddress := targetAddress;
     thisNodeDistance := fst (Address_getPrefix store.(thisNodeAddress)) .^ targetPrefix;
     nodes := [empty_element] |}.

Definition NodeStore_getBest (targetAddress : Address) (store : NodeStore) : NodeStore * option Z :=
  let collector :=
    fold_left (fun c '(i, header, node) =>
      if negb (header.(reach) =? 0) then LinkStateNodeCollector_addNode i header node c else c)
      (candidates store) (getBest_collector targetAddress store) in
  match (hd empty_element collector.(nodes)).(el_node) with
  | Some i => (nodeForIndex store i, Some i)
  | None => (store, None)
  end.

Definition NodeStore_getNodesByAddr (address' : Address) (max : Z) (store : NodeStore) : list Z :=
  let collector := NodeCollector_new address' max store.(thisNodeAddress) true in
  let collector :=
    fold_left (fun c '(i, header, node) => DistanceNodeCollector_addNode i header node c)
      (candidates store) collector in
  omap (fun el =>
    match el.(el_node), el.(el_body) with
    | Some i, Some body =>
        if Bits_memcmp body.(address).(ip6) (snd (Address_getPrefix address')).(ip6) =? 0
        then Some i else None
    | _, _ => None
    end) collector.(nodes).

Definition NodeStore_getClosestNodes (store : NodeStore) (targetAddress : Address)
    (requestorsAddress : option Address) (count : Z) (versionOfRequestingNode : Z)
    : NodeStore * list Z :=
  let collector := NodeCollector_new targetAddress count store.(thisNodeAddress) true in
  let index := match requestorsAddress with Some a => getSwitchIndex a | None => 0 end in
  let collector :=
    fold_left (fun c '(i, header, node) =>
      if match requestorsAddress with Some _ => header.(switchIndex) =? index | None => false end then c
      else if negb (Version_isCompatible header.(version) versionOfRequestingNode) then c
      else LinkStateNodeCollector_addNode i header node c)
      (candidates store) collector in
  let out := omap el_node collector.(nodes) in
  (fold_left nodeForIndex out store, out).

(** One round of the loop of [NodeStore_updateReach]; the node's label and
    reach are read before the loop. *)
Definition updateReach_step (newReach nodePath : Z) (i : Z) (store : option NodeStore) : option NodeStore :=
  store ← store;
  let dest := (store.(store_nodes) i).(address).(path) in
  let h := store.(headers) i in
  behind ← LabelSplicer_routesThrough dest nodePath;
  if (behind : bool) then
    if newReach <? h.(reach) then Some (set_header store i (set_reach h newReach)) else Some store
  else
    before ← LabelSplicer_routesThrough nodePath dest;
    if (before : bool) then
      if (h.(reach) <? newReach) && negb (h.(reach) =? 0)
      then Some (set_header store i (set_reach h newReach)) else Some store
    else Some store.

Definition NodeStore_updateReach (node : Z) (store : NodeStore) : option NodeStore :=
  let n := store.(store_nodes) node in
  let store := set_header store node (set_reach (store.(headers) node) n.(node_reach)) in
  for_loop (Z.to_nat store.(size)) 0 (updateReach_step n.(node_reach) n.(address).(path)) (Some store).

Definition NodeStore_size (store : NodeStore) : Z := u32 store.(size).

(** [random] is the result of [rand()]. *)
Definition NodeStore_getNodeByNetworkAddr (path' : Z) (store : NodeStore) (random : Z)
    : NodeStore * option Z :=
  if path' =? 0 then
    (store, if 0 <? store.(size) then Some (random mod store.(size)) else None)
  else
    match for_until (Z.to_nat store.(size)) 0 (fun i _ =>
            if path' =? (store.(store_nodes) i).(address).(path) then inr i else inl tt) tt with
    | inr i => (nodeForIndex store i, Some i)
    | inl _ => (store, None)
    end.

(** The loop of [NodeStore_brokenPath] from the last entry down, [n] left. *)
Fixpoint brokenPath_loop (n : nat) (path' : Z) (store : NodeStore) (out : Z) : option (NodeStore * Z) :=
  match n with
  | O => Some (store, out)
  | S n =>
      let i := Z.of_nat n in
      let p := (store.(store_nodes) i).(address).(path) in
      behind ← LabelSplicer_routesThrough p path';
      if (behind : bool) then
        if negb (LabelSplicer_isOneHop p) then
          store ← NodeStore_remove i store;
          brokenPath_loop n path' store (out + 1)
        else
          brokenPath_loop n path' (set_header store i (set_reach (store.(headers) i) 0)) out
      else brokenPath_loop n path' store out
  end.

Definition NodeStore_brokenPath (path' : Z) (store : NodeStore) : option (NodeStore * Z) :=
  brokenPath_loop (Z.to_nat store.(size)) path' store 0.
End nodestore.

(** ** Sums over the entries in use *)
Fixpoint sum_below (n : nat) (f : Z -> Z) : Z :=
  match n with O => 0 | S n => sum_below n f + f (Z.of_nat n) end.

Lemma sum_below_ext n f g : (forall i, 0 <= i < Z.of_nat n -> f i = g i) -> sum_below n f = sum_below n g.
Proof.
  induction n as [|n IH]; intros H; cbn [sum_below]; [done|]. rewrite IH by (intros; apply H; lia).
  rewrite H by lia. done.
Qed.

Lemma sum_below_nonneg n f : (forall i, 0 <= i < Z.of_nat n -> 0 <= f i) -> 0 <= sum_below n f.
Proof.
  induction n as [|n IH]; intros H; cbn [sum_below]; [done|].
  pose proof (IH ltac:(intros; apply H; lia)). pose proof (H (Z.of_nat n) ltac:(lia)). lia.
Qed.

Lemma sum_below_le n f i : (forall j, 0 <= j < Z.of_nat n -> 0 <= f j) -> 0 <= i < Z.of_nat n -> f i <= sum_below n f.
Proof.
  induction n as [|n IH]; intros H Hi; cbn [sum_below]; [lia|].
  destruct (decide (i = Z.of_nat n)) as [->|Hne].
  - pose proof (sum_below_nonneg n f ltac:(intros; apply H; lia)). lia.
  - pose proof (IH ltac:(intros; apply H; lia) ltac:(lia)). pose proof (H (Z.of_nat n) ltac:(lia)). lia.
Qed.

Lemma sum_below_set n f i v : 0 <= i < Z.of_nat n ->
  sum_below n (fun j => if j =? i then v else f j) = sum_below n f - f i + v.
Proof.
  induction n as [|n IH]; intros Hi; cbn [sum_below]; [lia|].
  destruct (Z.eqb_spec (Z.of_nat n) i) as [<-|Hne]; [|rewrite IH by lia; lia].
  rewrite (sum_below_ext n _ f); [lia|]. intros j Hj. destruct (Z.eqb_spec j (Z.of_nat n)); [lia|done].
Qed.

(** ** The invariant of the store *)
Definition label_ok (p : Z) : Prop := 2 <= p < 2 ^ 64.
Definition npath (s : NodeStore) (i : Z) : Z := (s.(store_nodes) i).(address).(path).

Section invariant.
  Context {P : Platform} {N : NaCl}.

(** An entry: the header agrees with the node, which is another node than this
    one and has its address filled in. *)
Record entry_ok (self : Address) (h : NodeHeader) (a : Address) : Prop := {
  entry_label : label_ok a.(path);
  entry_prefix : h.(addressPrefix) = fst (Address_getPrefix a);
  entry_switch : h.(switchIndex) = getSwitchIndex a;
  entry_filled : snd (Address_getPrefix a) = a;
  entry_key : length a.(key) = 32%nat;
  entry_ip6 : length a.(ip6) = 16%nat;
  entry_other : a.(ip6) <> self.(ip6);
  entry_valid : AddressCalc_validAddress a.(ip6) = true
}.

Record store_ok (s : NodeStore) : Prop := {
  ok_self : length s.(thisNodeAddress).(ip6) = 16%nat;
  ok_size : 0 <= s.(size) <= s.(store_capacity);
  ok_free : forall i, s.(size) <= i -> npath s i = 0;
  ok_entry : forall i, 0 <= i < s.(size) ->
    entry_ok s.(thisNodeAddress) (s.(headers) i) (s.(store_nodes) i).(address);
  ok_unique : forall i j, 0 <= i < s.(size) -> 0 <= j < s.(size) -> npath s i = npath s j -> i = j;
  ok_sum : sum_below (Z.to_nat s.(size)) (fun i => Bits_log2x64 (npath s i)) <= s.(labelSum) < 2 ^ 31
}.

Lemma label_log2 p : label_ok p -> 1 <= Bits_log2x64 p < 64.
Proof.
  unfold label_ok. intros Hp. pose proof (log2x64_range p ltac:(lia)). rewrite log2x64_spec in * by lia.
  pose proof (Z.log2_pos p). lia.
Qed.

Lemma routesThrough_defined d m : label_ok m -> exists b, LabelSplicer_routesThrough d m = Some b.
Proof.
  intros Hm. unfold LabelSplicer_routesThrough, shift_right64. destruct (d <? m); [by exists false|].
  pose proof (label_log2 m Hm). replace ((0 <=? 64 - Bits_log2x64 m) && (64 - Bits_log2x64 m <? 64)) with true by lia.
  eexists. done.
Qed.

Lemma store_label s i : store_ok s -> 0 <= i < s.(size) -> label_ok (npath s i).
Proof. intros Hs Hi. apply (ok_entry s Hs i Hi). Qed.

Lemma log2_nonneg s i : store_ok s -> 0 <= i < s.(size) -> 0 <= Bits_log2x64 (npath s i).
Proof. intros Hs Hi. pose proof (label_log2 _ (store_label s i Hs Hi)). lia. Qed.

(** Changing an entry's header without its prefix or switch index. *)
Lemma set_header_ok s i h : store_ok s ->
  (0 <= i < s.(size) -> h.(addressPrefix) = (s.(headers) i).(addressPrefix) /\
                        h.(switchIndex) = (s.(headers) i).(switchIndex)) ->
  store_ok (set_header s i h).
Proof.
  intros [H1 H2 H3 H4 H5 H6] Hh. split; try done. cbn [set_header size headers store_nodes thisNodeAddress].
  intros j Hj. destruct (Z.eqb_spec j i) as [E|]; [subst i|by apply H4]. destruct (Hh Hj) as [Ep Es].
  destruct (H4 j Hj) as [A1 A2 A3 A4 A5 A6 A7 A8]. split; try done; congruence.
Qed.

(** A node's copy of reach and version is not part of the invariant. *)
Lemma nodeForIndex_ok s i : store_ok s -> store_ok (nodeForIndex s i).
Proof.
  intros [H1 H2 H3 H4 H5 H6].
  assert (forall j, npath (nodeForIndex s i) j = npath s j) as Ep.
  { intros j. unfold npath, nodeForIndex. cbn. destruct (Z.eqb_spec j i) as [->|]; done. }
  split; try done; cbn [nodeForIndex set_node size headers thisNodeAddress labelSum].
  - intros j Hj. rewrite Ep. by apply H3.
  - intros j Hj. cbn. destruct (Z.eqb_spec j i) as [->|]; by apply H4.
  - intros j k. rewrite !Ep. apply H5.
  - erewrite sum_below_ext; [exact H6|]. intros j _. cbn beta. rewrite Ep. done.
Qed.

Lemma adjustReach_keeps h d : (adjustReach h d).(addressPrefix) = h.(addressPrefix) /\
  (adjustReach h d).(switchIndex) = h.(switchIndex).
Proof. unfold adjustReach. repeat case_match; done. Qed.

(** Removing an entry moves the last one to its place. *)
Lemma remove_spec s i : store_ok s -> 0 <= i < s.(size) ->
  exists s', NodeStore_remove i s = Some s' /\ store_ok s' /\
    s'.(size) = s.(size) - 1 /\ s'.(store_capacity) = s.(store_capacity) /\
    s'.(thisNodeAddress) = s.(thisNodeAddress) /\ s'.(labelSum) = s.(labelSum) /\
    forall j, 0 <= j < s'.(size) ->
      let k := if j =? i then s.(size) - 1 else j in
      s'.(headers) j = s.(headers) k /\ s'.(store_nodes) j = s.(store_nodes) k.
Proof.
  intros Hs Hi. unfold NodeStore_remove.
  replace ((0 <=? i) && (i <? size s)) with true by lia. cbn [negb].
  set (s' := set_node _ _ _). exists s'. split; [done|].
  set (k := fun j => if j =? i then s.(size) - 1 else j).
  assert (forall j, 0 <= j < size s - 1 -> headers s' j = headers s (k j) /\ store_nodes s' j = store_nodes s (k j)) as Hk.
  { intros j Hj. unfold s', k. cbn [set_node set_size size].
    destruct (Z.eqb_spec i (size s - 1)) as [E|Hne]; cbn [negb set_node set_header set_size size headers store_nodes];
      rewrite ?(proj2 (Z.eqb_neq j (size s - 1))) by lia; destruct (Z.eqb_spec j i); done || lia. }
  assert (size s' = size s - 1) as Esize by (unfold s'; cbn; destruct (negb _); done).
  assert (forall j, size s - 1 <= j -> npath s' j = 0) as Hfree.
  { intros j Hj. unfold s', npath. cbn [set_node size store_nodes set_size].
    destruct (Z.eqb_spec i (size s - 1)) as [E|Hne]; cbn [negb set_size set_header set_node size store_nodes];
      destruct (Z.eqb_spec j (size s - 1)); try done;
      rewrite ?(proj2 (Z.eqb_neq j i)) by lia; apply (ok_free s Hs j); lia. }
  assert (forall j, 0 <= j < size s - 1 -> npath s' j = npath s (k j)) as Hpath
    by (intros j Hj; unfold npath; destruct (Hk j Hj) as [_ ->]; done).
  assert (forall j, 0 <= j < size s - 1 -> 0 <= k j < size s) as Hkr
    by (intros j Hj; unfold k; destruct (Z.eqb_spec j i); lia).
  assert (thisNodeAddress s' = thisNodeAddress s) as Eself by (unfold s'; cbn; destruct (negb _); done).
  assert (store_capacity s' = store_capacity s) as Ecap by (unfold s'; cbn; destruct (negb _); done).
  assert (labelSum s' = labelSum s) as Esum by (unfold s'; cbn; destruct (negb _); done).
  split; [|rewrite Esize; done].
  pose proof Hs as [H1 H2 H3 H4 H5 H6]. split; rewrite ?Eself, ?Esize, ?Ecap, ?Esum.
  - done.
  - lia.
  - exact Hfree.
  - intros j Hj. destruct (Hk j Hj) as [-> ->]. apply H4, Hkr, Hj.
  - intros j1 j2 Hj1 Hj2. rewrite !Hpath by done. intros E%H5; [|by apply Hkr..].
    unfold k in E. destruct (Z.eqb_spec j1 i), (Z.eqb_spec j2 i); lia.
  - split; [|lia]. etrans; [|apply H6].
    replace (Z.to_nat (size s)) with (S (Z.to_nat (size s - 1))) by lia. cbn [sum_below].
    rewrite (sum_below_ext _ _ (fun j => if j =? i then Bits_log2x64 (npath s (size s - 1)) else Bits_log2x64 (npath s j))).
    + rewrite Z2Nat.id by lia. destruct (decide (i = size s - 1)) as [E|Hne].
      * rewrite (sum_below_ext _ _ (fun j => Bits_log2x64 (npath s j))).
        -- pose proof (log2_nonneg s (size s - 1) Hs ltac:(lia)). lia.
        -- intros j Hj. rewrite (proj2 (Z.eqb_neq j i)) by lia. done.
      * rewrite (sum_below_set _ (fun j => Bits_log2x64 (npath s j))) by lia.
        pose proof (log2_nonneg s i Hs Hi). lia.
    + intros j Hj. rewrite Hpath by lia. unfold k. destruct (Z.eqb_spec j i); done.
Qed.

(** Replacing the node at an index in use, or the first one that is free. *)
Definition takes (s : NodeStore) (i : Z) : Prop := 0 <= i <= s.(size) /\ i < s.(store_capacity).

(** What is asked of an address to add: a label of at least one hop, and the
    caller's word that its IPv6 address is that of the network. *)
Record addr_ok (self : Address) (addr : Address) : Prop := {
  addr_label : label_ok addr.(path);
  addr_key : length addr.(key) = 32%nat;
  addr_ip6 : length (snd (Address_getPrefix addr)).(ip6) = 16%nat;
  addr_other : (snd (Address_getPrefix addr)).(ip6) <> self.(ip6);
  addr_valid : AddressCalc_validAddress (snd (Address_getPrefix addr)).(ip6) = true
}.

Lemma replace_spec s i addr n : store_ok s -> takes s i -> n = Z.max s.(size) (i + 1) ->
  addr_ok s.(thisNodeAddress) addr -> s.(labelSum) < 2 ^ 31 - 64 ->
  (forall j, 0 <= j < s.(size) -> j <> i -> npath s j <> addr.(path)) ->
  exists s', replaceNode (set_size s n) i addr = Some s' /\ store_ok s' /\
    s'.(size) = n /\ s'.(store_capacity) = s.(store_capacity) /\
    s'.(thisNodeAddress) = s.(thisNodeAddress) /\ s'.(labelSum) <= s.(labelSum) + 64 /\
    (s'.(store_nodes) i).(address) = snd (Address_getPrefix addr) /\
    forall j, j <> i -> s'.(headers) j = s.(headers) j /\ s'.(store_nodes) j = s.(store_nodes) j.
Proof.
  intros Hs [Hi Hic] En Ha Hsum Huniq. unfold replaceNode.
  destruct (Address_getPrefix addr) as [pfx addr'] eqn:Eg. destruct Ha as [A1 A2 A3 A4 A5]. rewrite Eg in A3, A4, A5.
  cbn [snd] in *. pose proof (getPrefix_path addr) as Ep. pose proof (getPrefix_key addr) as Ek.
  pose proof (getPrefix_twice addr) as Et. rewrite Eg in Ep, Ek, Et. cbn [snd] in Ep, Ek, Et.
  pose proof Hs as [H1 H2 H3 H4 H5 H6].
  cbn [set_header set_size set_labelSum store_nodes labelSum]. fold (npath s i).
  set (old := Bits_log2x64 (npath s i)). set (new := Bits_log2x64 (path addr')).
  assert (1 <= new < 64) as Hnew by (apply label_log2; rewrite Ep; exact A1).
  assert (0 <= old < 64 /\ sum_below (Z.to_nat n) (fun j => if j =? i then new else Bits_log2x64 (npath s j))
            <= labelSum s - old + new) as [Hold Hle].
  { destruct (decide (i < size s)) as [Hlt|Hge].
    - assert (1 <= old < 64) by (apply label_log2, store_label; [done|lia]).
      replace (Z.to_nat n) with (Z.to_nat (size s)) by lia.
      rewrite (sum_below_set _ (fun j => Bits_log2x64 (npath s j))) by lia. unfold old. lia.
    - assert (i = size s) as -> by lia. unfold old. rewrite H3 by lia. change (Bits_log2x64 0) with 0.
      replace (Z.to_nat n) with (S (Z.to_nat (size s))) by lia. cbn [sum_below]. rewrite Z2Nat.id, Z.eqb_refl by lia.
      rewrite (sum_below_ext _ _ (fun j => Bits_log2x64 (npath s j))).
      + lia.
      + intros j Hj. rewrite (proj2 (Z.eqb_neq j (size s))) by lia. done. }
  assert (forall j, 0 <= j < Z.of_nat (Z.to_nat n) -> 0 <= (if j =? i then new else Bits_log2x64 (npath s j))) as Hall.
  { intros j Hj. destruct (Z.eqb_spec j i); [lia|]. apply log2_nonneg; [done|lia]. }
  pose proof (sum_below_le (Z.to_nat n) (fun j => if j =? i then new else Bits_log2x64 (npath s j)) i Hall ltac:(lia)) as Hge.
  cbn beta in Hge. rewrite Z.eqb_refl in Hge.
  rewrite (s32_small (labelSum s - old)), (s32_small (labelSum s - old + new)) by lia.
  replace (0 <? labelSum s - old + new) with true by lia. cbn [negb].
  set (s' := set_node _ _ _). exists s'. split; [done|].
  assert (forall j, npath s' j = if j =? i then path addr' else npath s j) as Hpath.
  { intros j. unfold npath, s'. cbn. destruct (j =? i); done. }
  split; [|split_and!; [done..| | |];
    cbn [s' set_node set_labelSum set_header set_size headers store_nodes labelSum];
    [lia|rewrite Z.eqb_refl; done|];
    intros j Hj; rewrite (proj2 (Z.eqb_neq j i)) by done; done].
  split; cbn [s' set_node set_labelSum set_header set_size size store_capacity thisNodeAddress headers store_nodes labelSum].
  - done.
  - lia.
  - intros j Hj. rewrite Hpath, (proj2 (Z.eqb_neq j i)) by lia. apply H3. lia.
  - intros j Hj. destruct (Z.eqb_spec j i) as [->|Hne]; [|apply H4; lia]. cbn [address].
    split; cbn [addressPrefix switchIndex]; try done; rewrite ?Ep, ?Ek, ?Et; done.
  - intros j1 j2 Hj1 Hj2. rewrite !Hpath, !Ep. destruct (Z.eqb_spec j1 i) as [->|], (Z.eqb_spec j2 i) as [->|]; try done.
    + intros E. destruct (Huniq j2); [lia|done|done].
    + intros E. destruct (Huniq j1); [lia|done|done].
    + apply H5; lia.
  - split; [|lia]. erewrite sum_below_ext; [exact Hle|]. intros j _. cbn beta. rewrite Hpath. destruct (j =? i); done.
Qed.

(** ** Adding a node *)

(** The header and the node at [j] in [s'] are those at [i] in [s]. *)
Definition same_entry (s : NodeStore) (i : Z) (s' : NodeStore) (j : Z) : Prop :=
  s'.(headers) j = s.(headers) i /\ s'.(store_nodes) j = s.(store_nodes) i.

(** The two tests by which an entry is taken for the node of an address. *)
Definition same_node (s : NodeStore) (i : Z) (addr : Address) : Prop :=
  (s.(headers) i).(addressPrefix) = fst (Address_getPrefix addr) /\
  (s.(store_nodes) i).(address).(key) = addr.(key).

(** Nothing new in [s'], and nothing lost but routes to the node that go on from
    its new label. *)
Record trimmed (addr : Address) (s s' : NodeStore) : Prop := {
  trimmed_from : forall j, 0 <= j < s'.(size) -> exists i, 0 <= i < s.(size) /\ same_entry s i s' j;
  trimmed_kept : forall i, 0 <= i < s.(size) ->
    (exists j, 0 <= j < s'.(size) /\ same_entry s i s' j) \/
    (same_node s i addr /\ LabelSplicer_routesThrough (npath s i) addr.(path) = Some true);
  trimmed_self : s'.(thisNodeAddress) = s.(thisNodeAddress);
  trimmed_capacity : s'.(store_capacity) = s.(store_capacity);
  trimmed_sum : s'.(labelSum) = s.(labelSum)
}.

Lemma trimmed_refl addr s : trimmed addr s s.
Proof. split; try done; [intros j Hj; by exists j|intros i Hi; left; by exists i]. Qed.

Lemma same_node_entry s i s' j addr : same_entry s i s' j -> same_node s' j addr -> same_node s i addr.
Proof. intros [E1 E2] [H1 H2]. unfold same_node. rewrite <-E1, <-E2. done. Qed.

Lemma trimmed_trans addr s1 s2 s3 : trimmed addr s1 s2 -> trimmed addr s2 s3 -> trimmed addr s1 s3.
Proof.
  intros [A1 A2 A3 A4 A5] [B1 B2 B3 B4 B5]. split; [| |congruence..].
  - intros j Hj. destruct (B1 j Hj) as (i & Hi & E1 & E2). destruct (A1 i Hi) as (k & Hk & E3 & E4).
    exists k. split; [done|]. split; congruence.
  - intros i Hi. destruct (A2 i Hi) as [(j & Hj & E)|?]; [|by right].
    destruct (B2 j Hj) as [(k & Hk & E3 & E4)|[Hn Hr]].
    + left. exists k. destruct E. split; [done|]. split; congruence.
    + right. split; [by apply (same_node_entry s1 i s2 j)|]. destruct E as [_ E]. unfold npath in *. congruence.
Qed.

Lemma remove_trimmed s i addr : store_ok s -> 0 <= i < s.(size) -> same_node s i addr ->
  LabelSplicer_routesThrough (npath s i) addr.(path) = Some true ->
  exists s', NodeStore_remove i s = Some s' /\ store_ok s' /\ trimmed addr s s' /\ s'.(size) = s.(size) - 1 /\
    forall j, 0 <= j < i -> same_entry s j s' j.
Proof.
  intros Hs Hi Hn Hr. destruct (remove_spec s i Hs Hi) as (s' & E & Hs' & Esz & Ecap & Eself & Esum & Hk).
  exists s'. split_and!; try done.
  - split; try done.
    + intros j Hj. exists (if j =? i then s.(size) - 1 else j). split; [destruct (Z.eqb_spec j i); lia|by apply Hk].
    + intros k Hki. destruct (decide (k = i)) as [->|Hne]; [by right|left].
      destruct (decide (k = size s - 1)) as [->|].
      * exists i. split; [lia|]. specialize (Hk i ltac:(lia)). rewrite Z.eqb_refl in Hk. done.
      * exists k. split; [lia|]. specialize (Hk k ltac:(lia)). rewrite (proj2 (Z.eqb_neq k i)) in Hk by done. done.
  - intros j Hj. specialize (Hk j ltac:(lia)). rewrite (proj2 (Z.eqb_neq j i)) in Hk by lia. done.
Qed.

(** What [s'] is when the entry at [k] of a trimmed store was written last. *)
Record added (addr : Address) (version' : Z) (s : NodeStore) (k : Z) (s' : NodeStore) : Prop := {
  added_slot : 0 <= k < s'.(size);
  added_key : (s'.(store_nodes) k).(address).(key) = addr.(key);
  added_version : (s'.(headers) k).(version) = version' /\ (s'.(store_nodes) k).(node_version) = version';
  added_reach : (s'.(store_nodes) k).(node_reach) = (s'.(headers) k).(reach);
  added_path : npath s' k = addr.(path) \/
               LabelSplicer_routesThrough addr.(path) (npath s' k) = Some true;
  added_table : s'.(thisNodeAddress) = s.(thisNodeAddress) /\ s'.(store_capacity) = s.(store_capacity);
  added_others : exists s1, trimmed addr s s1 /\ s'.(size) = Z.max s1.(size) (k + 1) /\ k <= s1.(size) /\
    (k = s1.(size) \/ npath s1 k = npath s' k \/ s1.(store_capacity) <= s1.(size)) /\
    forall j, j <> k -> same_entry s1 j s' j
}.

Lemma added_trans addr v s1 s2 k s3 : trimmed addr s1 s2 -> added addr v s2 k s3 -> added addr v s1 k s3.
Proof.
  intros Ht [H1 H2 H3 H4 H5 H6 (s & H7 & H8)]. split; try done.
  - rewrite <-(trimmed_self _ _ _ Ht), <-(trimmed_capacity _ _ _ Ht). done.
  - exists s. split; [|done]. by apply trimmed_trans with s2.
Qed.

Lemma same_node_test s i addr : store_ok s -> 0 <= i < s.(size) -> length addr.(key) = 32%nat ->
  ((s.(headers) i).(addressPrefix) =? fst (Address_getPrefix addr)) &&
  Address_isSameIp (s.(store_nodes) i).(address) addr = true <-> same_node s i addr.
Proof.
  intros Hs Hi Hk. unfold same_node. rewrite andb_true_iff, Z.eqb_eq, isSameIp_spec; [done| |done].
  apply (ok_entry s Hs i Hi).
Qed.

(** The entry at [i] brought up to date. *)
Lemma found_added s i addr rd v : store_ok s -> 0 <= i < s.(size) -> same_node s i addr ->
  npath s i = addr.(path) \/ LabelSplicer_routesThrough addr.(path) (npath s i) = Some true ->
  let s' := nodeForIndex (set_header s i (set_version (adjustReach (s.(headers) i) rd) v)) i in
  store_ok s' /\ s'.(labelSum) = s.(labelSum) /\ added addr v s i s'.
Proof.
  intros Hs Hi [Hn1 Hn2] Hp s'. destruct (adjustReach_keeps (headers s i) rd) as [K1 K2].
  assert (forall j, npath s' j = npath s j) as Ep.
  { intros j. unfold npath, s'. cbn. destruct (Z.eqb_spec j i) as [->|]; done. }
  split; [by apply nodeForIndex_ok, set_header_ok|]. split; [done|]. split.
  - cbn. lia.
  - cbn. rewrite Z.eqb_refl. done.
  - cbn. rewrite !Z.eqb_refl. done.
  - cbn. rewrite !Z.eqb_refl. done.
  - rewrite Ep. done.
  - done.
  - exists s. split; [apply trimmed_refl|]. split; [cbn; lia|]. split; [lia|]. split; [right; left; by rewrite Ep|].
    intros j Hj. unfold same_entry, s'. cbn. rewrite (proj2 (Z.eqb_neq j i)) by done. done.
Qed.

(** The address written over the entry at [i], or at the end, then its header;
    [f] sets the reach. *)
Lemma write_added s i addr n f v : store_ok s -> takes s i -> n = Z.max s.(size) (i + 1) ->
  addr_ok s.(thisNodeAddress) addr -> s.(labelSum) < 2 ^ 31 - 64 ->
  (forall j, 0 <= j < s.(size) -> j <> i -> npath s j <> addr.(path)) ->
  (forall h, (f h).(addressPrefix) = h.(addressPrefix) /\ (f h).(switchIndex) = h.(switchIndex)) ->
  i = s.(size) \/ npath s i = addr.(path) \/ s.(store_capacity) <= s.(size) ->
  exists s1, replaceNode (set_size s n) i addr = Some s1 /\
    let s' := nodeForIndex (set_header s1 i (set_version (f (s1.(headers) i)) v)) i in
    store_ok s' /\ s'.(labelSum) <= s.(labelSum) + 64 /\ npath s' i = addr.(path) /\ added addr v s i s'.
Proof.
  intros Hs Hi En Ha Hsum Huniq Hf Hwhy.
  destruct (replace_spec s i addr n Hs Hi En Ha Hsum Huniq) as (s1 & E & Hs1 & Esz & Ecap & Eself & Hl & Ei & Hj).
  exists s1. split; [exact E|]. intros s'. destruct Hi as [Hi Hic].
  assert (forall j, npath s' j = npath s1 j) as Ep.
  { intros j. unfold npath, s'. cbn. destruct (Z.eqb_spec j i) as [->|]; done. }
  assert (npath s' i = addr.(path)) as Epi.
  { rewrite Ep. unfold npath. rewrite Ei. apply getPrefix_path. }
  split; [apply nodeForIndex_ok, set_header_ok; [done|intros _; apply Hf]|]. split; [done|]. split; [done|]. split.
  - change (size s') with (size s1). lia.
  - cbn. rewrite Z.eqb_refl. cbn [address]. rewrite Ei. apply getPrefix_key.
  - cbn. rewrite !Z.eqb_refl. done.
  - cbn. rewrite !Z.eqb_refl. done.
  - by left.
  - done.
  - exists s. split; [apply trimmed_refl|]. split; [change (size s') with (size s1); lia|].
    split; [lia|]. split; [by rewrite Epi|]. intros j Hne. destruct (Hj j Hne) as [E1 E2].
    unfold same_entry, s'. cbn. rewrite (proj2 (Z.eqb_neq j i)) by done. done.
Qed.

(** What the first loop comes to from index [i] on. *)
Definition loop_result (addr : Address) (rd v : Z) (s : NodeStore)
    (r : (NodeStore * option Z) + (NodeStore * Z)) : Prop :=
  match r with
  | inl (s', Some k) => store_ok s' /\ s'.(labelSum) <= s.(labelSum) + 64 /\ added addr v s k s'
  | inl (s', None) => store_ok s' /\ trimmed addr s s' /\ rd <= 0 /\
      exists k, 0 <= k < s'.(size) /\ npath s' k = addr.(path) /\ ~ same_node s' k addr
  | inr (s', w) => store_ok s' /\ trimmed addr s s' /\
      (forall j, 0 <= j < s'.(size) -> npath s' j <> addr.(path)) /\
      (forall j, 0 <= j < s'.(size) -> same_node s' j addr ->
        LabelSplicer_routesThrough (npath s' j) addr.(path) = Some false /\
        LabelSplicer_routesThrough addr.(path) (npath s' j) = Some false) /\
      (s'.(store_capacity) <= s'.(size) -> 0 <= w < s'.(size))
  end.

Lemma loop_result_trans addr rd v s1 s2 r : trimmed addr s1 s2 -> loop_result addr rd v s2 r -> loop_result addr rd v s1 r.
Proof.
  intros Ht. destruct r as [[s' [k|]]|[s' w]]; cbn.
  - intros (H1 & H2 & H3). split_and!; [done|by rewrite <-(trimmed_sum _ _ _ Ht)|by apply added_trans with s2].
  - intros (H1 & H2 & H3). split_and!; [done|by apply trimmed_trans with s2|apply H3..].
  - intros (H1 & H2 & H3). split_and!; [done|by apply trimmed_trans with s2|apply H3..].
Qed.

(** The entries below [i] that the loop has passed. *)
Definition passed (addr : Address) (s : NodeStore) (j : Z) : Prop :=
  npath s j <> addr.(path) /\
  (same_node s j addr ->
    LabelSplicer_routesThrough (npath s j) addr.(path) = Some false /\
    LabelSplicer_routesThrough addr.(path) (npath s j) = Some false).

Lemma passed_same addr s s' j : same_entry s j s' j -> passed addr s j -> passed addr s' j.
Proof.
  intros E [H1 H2]. assert (npath s' j = npath s j) as Ep by (unfold npath; destruct E as [_ ->]; done).
  split; rewrite Ep; [done|]. intros Hn. apply H2. by apply (same_node_entry s j s' j).
Qed.

Lemma addNode_loop_spec n addr pfx rd v : pfx = fst (Address_getPrefix addr) ->
  forall s i w wp, n = Z.to_nat (s.(size) - i) -> 0 <= i <= s.(size) -> store_ok s -> 0 < s.(store_capacity) ->
  addr_ok s.(thisNodeAddress) addr -> s.(labelSum) < 2 ^ 31 - 64 ->
  (forall j, 0 <= j < i -> passed addr s j) -> (s.(store_capacity) <= s.(size) -> 0 <= w < s.(size)) ->
  exists r, addNode_loop n addr pfx rd v s i w wp = Some r /\ loop_result addr rd v s r.
Proof.
  intros Epfx. induction n as [|n IH]; intros s i w wp En Hi Hs Hcap Ha Hsum Hpass Hw.
  { exists (inr (s, w)). split; [done|]. cbn. split_and!; [done|apply trimmed_refl| |intros j Hj; apply Hpass; lia|done].
    intros j Hj. apply Hpass. lia. }
  cbn [addNode_loop]. assert (0 <= i < size s) as Hi' by lia.
  pose proof (same_node_test s i addr Hs Hi' (addr_key _ _ Ha)) as Htest. rewrite <-Epfx in Htest.
  change (path (address (store_nodes s i))) with (npath s i).
  assert (passed addr s i -> forall w' wp', (store_capacity s <= size s -> 0 <= w' < size s) ->
    exists r, addNode_loop n addr pfx rd v s (i + 1) w' wp' = Some r /\ loop_result addr rd v s r) as Hnext.
  { intros Hpi w' wp' Hw'. apply IH; try done; [lia..|]. intros j Hj. destruct (decide (j = i)) as [->|]; [done|].
    apply Hpass. lia. }
  destruct (_ && _) eqn:Et.
  - assert (same_node s i addr) as Hn by (by apply Htest). destruct (Z.eqb_spec (npath s i) (path addr)) as [Ep|Hne].
    + eexists. split; [done|]. cbn. destruct (found_added s i addr rd v Hs Hi' Hn (or_introl Ep)) as (H1 & H2 & H3).
      split_and!; [done|lia|done].
    + destruct (routesThrough_defined (npath s i) (path addr) (addr_label _ _ Ha)) as [b Eb].
      rewrite Eb. cbn [mbind option_bind]. destruct b.
      * destruct (remove_trimmed s i addr Hs Hi' Hn Eb) as (s' & E & Hs' & Ht & Esz & Hsame). rewrite E. cbn [mbind option_bind].
        destruct (IH s' i w wp) as (r & Er & Hr); try done.
        -- lia.
        -- lia.
        -- by rewrite (trimmed_capacity _ _ _ Ht).
        -- by rewrite (trimmed_self _ _ _ Ht).
        -- by rewrite (trimmed_sum _ _ _ Ht).
        -- intros j Hj. apply (passed_same _ s); [by apply Hsame|by apply Hpass].
        -- rewrite (trimmed_capacity _ _ _ Ht). pose proof (ok_size s Hs). lia.
        -- exists r. split; [done|]. by apply loop_result_trans with s'.
      * destruct (routesThrough_defined (path addr) (npath s i) (store_label s i Hs Hi')) as [b' Eb'].
        rewrite Eb'. cbn [mbind option_bind]. destruct b'; cbn [negb]; [|by apply Hnext].
        eexists. split; [done|]. cbn. destruct (found_added s i addr rd v Hs Hi' Hn (or_intror Eb')) as (H1 & H2 & H3).
        split_and!; [done|lia|done].
  - assert (~ same_node s i addr) as Hnn by (rewrite <-Htest; done).
    destruct (Z.eqb_spec (npath s i) (path addr)) as [Ep|Hne].
    + destruct (Z.ltb_spec 0 rd) as [Hrd|Hrd].
      * destruct (write_added s i addr (size s) (fun h => set_reach h (u32 rd)) v) as (s1 & E & H1 & H2 & _ & H3);
          try done; [split; [lia|pose proof (ok_size s Hs); lia]|lia| |by auto|].
        { intros j Hj Hji Epj. apply Hji, (ok_unique s Hs); [done..|congruence]. }
        assert (set_size s (size s) = s) as Eset by (destruct s; done). rewrite Eset in E.
        rewrite E. cbn [mbind option_bind]. eexists. split; [done|]. cbn. split_and!; done.
      * eexists. split; [done|]. cbn. split_and!; [done|apply trimmed_refl|done|by exists i].
    + assert (passed addr s i) as Hpi by (split; done).
      destruct (_ && (wp <? _)); apply Hnext; done.
Qed.

(** The address with its IPv6 address filled in. *)
Lemma filled_ok self addr : addr_ok self addr ->
  addr_ok self (snd (Address_getPrefix addr)) /\
  Address_getPrefix (snd (Address_getPrefix addr)) = Address_getPrefix addr /\
  (snd (Address_getPrefix addr)).(key) = addr.(key) /\ (snd (Address_getPrefix addr)).(path) = addr.(path).
Proof.
  intros [A1 A2 A3 A4 A5]. pose proof (getPrefix_twice addr) as Et.
  split; [|split; [done|split; [apply getPrefix_key|apply getPrefix_path]]].
  split; rewrite ?Et, ?getPrefix_path, ?getPrefix_key; done.
Qed.

Section filled.
  Variables (addr addr' : Address) (pfx : Z).
  Hypothesis Hg : Address_getPrefix addr = (pfx, addr').

Lemma same_node_filled s i : same_node s i addr' <-> same_node s i addr.
Proof.
  unfold same_node. pose proof (getPrefix_twice addr) as Et. pose proof (getPrefix_key addr) as Ek.
  rewrite Hg in Et, Ek. cbn [snd] in Et, Ek. rewrite Et, Hg, Ek. done.
Qed.

Lemma path_filled : path addr' = path addr.
Proof. pose proof (getPrefix_path addr) as Ep. rewrite Hg in Ep. done. Qed.

Lemma trimmed_filled s s' : trimmed addr' s s' -> trimmed addr s s'.
Proof.
  intros [H1 H2 H3 H4 H5]. split; try done. intros i Hi. destruct (H2 i Hi) as [?|[Hn Hr]]; [by left|right].
  rewrite <-path_filled. split; [by apply same_node_filled|done].
Qed.

Lemma added_filled v s k s' : added addr' v s k s' -> added addr v s k s'.
Proof.
  intros [H1 H2 H3 H4 H5 H6 (s1 & H7 & H8)]. pose proof (getPrefix_key addr) as Ek. rewrite Hg in Ek. cbn [snd] in Ek.
  split; rewrite <-?path_filled, <-?Ek; try done. exists s1. split; [by apply trimmed_filled|done].
Qed.
End filled.

Lemma asserts_ok s addr : store_ok s -> length addr.(ip6) = 16%nat ->
  (forall j, 0 <= j < s.(size) -> npath s j <> addr.(path)) -> addNode_asserts addr s = true.
Proof.
  intros Hs Hl Hp. apply forallb_forall. intros k Hk%in_seq. cbn zeta.
  pose proof (ok_entry s Hs (Z.of_nat k) ltac:(lia)) as He. apply andb_true_iff. split.
  - apply Z.eqb_eq, (entry_prefix _ _ _ He).
  - rewrite (proj2 (Z.eqb_neq (path _) _)) by (apply Hp; lia). rewrite andb_false_r. done.
Qed.

Lemma addNode_spec (s : NodeStore) (addr : Address) (reachDifference version : Z) :
  store_ok s -> 0 < s.(store_capacity) -> s.(labelSum) < 2 ^ 31 - 64 -> addr_ok s.(thisNodeAddress) addr ->
  exists s' r, NodeStore_addNode s addr reachDifference version = Some (s', r) /\ store_ok s' /\
    s'.(labelSum) <= s.(labelSum) + 64 /\
    match r with
    | Some k => Version_isCompatible Version_CURRENT_PROTOCOL version = true /\ added addr version s k s'
    | None => (Version_isCompatible Version_CURRENT_PROTOCOL version = false /\ s' = s) \/
        (trimmed addr s s' /\ reachDifference <= 0 /\
         exists k, 0 <= k < s'.(size) /\ npath s' k = addr.(path) /\ ~ same_node s' k addr)
    end.
Proof.
  intros Hs Hcap Hsum Ha. unfold NodeStore_addNode.
  destruct (Version_isCompatible _ _) eqn:Ev; cbn [negb].
  2: { exists s, None. split_and!; [done|done|lia|by left]. }
  destruct (filled_ok _ _ Ha) as (Ha' & Esn & Ekey & Epath).
  destruct (Address_getPrefix addr) as [pfx addr'] eqn:Eg. cbn [snd] in *.
  pose proof Ha' as [A1 A2 A3 A4 A5]. rewrite Esn in A3, A4, A5. cbn [snd] in *.
  assert ((Bits_memcmp (ip6 addr') (ip6 (thisNodeAddress s)) =? 0) = false) as ->.
  { apply Z.eqb_neq. rewrite memcmp_0 by (rewrite (ok_self s Hs); done). done. }
  rewrite A5. cbn [negb].
  destruct (addNode_loop_spec (Z.to_nat (size s)) addr' pfx reachDifference version ltac:(by rewrite Esn) s 0 0 0)
    as (r & Er & Hr); try done; [by rewrite Z.sub_0_r|pose proof (ok_size s Hs); lia|lia|lia|].
  rewrite Er. cbn [mbind option_bind].
  assert (forall s k s', added addr' version s k s' -> added addr version s k s') as Hadd by (apply (added_filled _ addr' pfx); done).
  destruct r as [[s' [k|]]|[s1 w]]; cbn [loop_result] in Hr.
  - destruct Hr as (H1 & H2 & H3). exists s', (Some k). split_and!; [done..|by apply Hadd].
  - destruct Hr as (H1 & H2 & H3 & k & H4 & H5 & H6). exists s', None. split_and!; [done|done| |right].
    + rewrite (trimmed_sum _ _ _ H2). lia.
    + split; [by apply (trimmed_filled addr addr' pfx)|]. split; [done|]. exists k. split; [done|].
      split; [congruence|]. unfold same_node in *. rewrite Eg, <-Ekey. rewrite Esn in H6. done.
  - destruct Hr as (Hs1 & Ht & Hp & _ & Hw). rewrite asserts_ok by done. cbn [negb].
    pose proof (ok_size s1 Hs1) as Hz. pose proof (trimmed_capacity _ _ _ Ht) as Ecap.
    set (i := if store_capacity s1 <=? size s1 then w else size s1).
    destruct (write_added s1 i addr' (Z.max (size s1) (i + 1)) (fun h => adjustReach h reachDifference) version)
      as (s2 & E & H1 & H2 & _ & H3); try done.
    + unfold takes, i. destruct (Z.leb_spec (store_capacity s1) (size s1)); [specialize (Hw ltac:(lia))|]; lia.
    + by rewrite (trimmed_self _ _ _ Ht).
    + by rewrite (trimmed_sum _ _ _ Ht).
    + intros j Hj _. by apply Hp.
    + intros h. apply adjustReach_keeps.
    + unfold i. destruct (Z.leb_spec (store_capacity s1) (size s1)); [right; right; lia|by left].
    + assert ((if store_capacity s1 <=? size s1 then (w, s1) else (size s1, set_size s1 (size s1 + 1)))
              = (i, set_size s1 (Z.max (size s1) (i + 1)))) as ->.
      { unfold i. destruct (Z.leb_spec (store_capacity s1) (size s1)); [|rewrite Z.max_r by lia; done].
        rewrite Z.max_l by (specialize (Hw ltac:(lia)); lia). destruct s1; done. }
      rewrite E. cbn [mbind option_bind]. eexists _, (Some i). split; [done|]. split; [done|].
      split; [rewrite <-(trimmed_sum _ _ _ Ht); done|]. split; [done|].
      apply Hadd, added_trans with s1; done.
Qed.


(** ** Broken paths *)
Section broken.
  Variable path' : Z.
  Hypothesis Hpath : label_ok path'.

Definition is_behind (p : Z) : Prop := LabelSplicer_routesThrough p path' = Some true.

(** The entry is not behind the broken path, or a peer with no reach. *)
Definition cleared (s : NodeStore) (j : Z) : Prop :=
  is_behind (npath s j) -> LabelSplicer_isOneHop (npath s j) = true /\ (s.(headers) j).(reach) = 0.

Record cut (s s' : NodeStore) : Prop := {
  cut_from : forall j, 0 <= j < s'.(size) -> exists i, 0 <= i < s.(size) /\
    s'.(store_nodes) j = s.(store_nodes) i /\
    (s'.(headers) j = s.(headers) i \/
     (is_behind (npath s i) /\ s'.(headers) j = set_reach (s.(headers) i) 0));
  cut_kept : forall i, 0 <= i < s.(size) -> ~ is_behind (npath s i) ->
    exists j, 0 <= j < s'.(size) /\ same_entry s i s' j;
  cut_table : s'.(thisNodeAddress) = s.(thisNodeAddress) /\ s'.(store_capacity) = s.(store_capacity) /\
    s'.(labelSum) = s.(labelSum)
}.

Lemma cut_refl s : cut s s.
Proof. split; [intros j Hj; exists j; auto|intros i Hi _; by exists i|done]. Qed.

Lemma cut_trans s1 s2 s3 : cut s1 s2 -> cut s2 s3 -> cut s1 s3.
Proof.
  intros [A1 A2 (A3 & A4 & A5)] [B1 B2 (B3 & B4 & B5)]. split; [| |split_and!; congruence].
  - intros j Hj. destruct (B1 j Hj) as (i & Hi & En & Eh). destruct (A1 i Hi) as (k & Hk & En' & Eh').
    assert (npath s2 i = npath s1 k) as Ep by (unfold npath; rewrite En'; done).
    exists k. rewrite Ep in Eh. split; [done|]. split; [congruence|].
    destruct Eh as [Eh|[Hb Eh]], Eh' as [Eh'|[Hb' Eh']]; rewrite Eh, Eh'; auto.
  - intros i Hi Hb. destruct (A2 i Hi Hb) as (j & Hj & [E1 E2]).
    destruct (B2 j Hj) as (k & Hk & [E3 E4]); [unfold npath in *; congruence|].
    exists k. split; [done|]. split; congruence.
Qed.

Lemma remove_cut s i : store_ok s -> 0 <= i < s.(size) -> is_behind (npath s i) ->
  exists s', NodeStore_remove i s = Some s' /\ store_ok s' /\ cut s s' /\ s'.(size) = s.(size) - 1 /\
    forall j, i <= j < s'.(size) -> exists k, i < k < s.(size) /\ same_entry s k s' j.
Proof.
  intros Hs Hi Hb. destruct (remove_spec s i Hs Hi) as (s' & E & Hs' & Esz & Ecap & Eself & Esum & Hk).
  exists s'. split_and!; try done.
  - split; [| |done].
    + intros j Hj. destruct (Hk j Hj) as [E1 E2]. exists (if j =? i then s.(size) - 1 else j).
      split; [destruct (Z.eqb_spec j i); lia|auto].
    + intros k Hki Hnb. destruct (decide (k = size s - 1)) as [->|].
      * assert (i <> size s - 1) by congruence.
        exists i. split; [lia|]. specialize (Hk i ltac:(lia)). rewrite Z.eqb_refl in Hk. done.
      * assert (k <> i) by congruence. exists k. split; [lia|]. specialize (Hk k ltac:(lia)).
        rewrite (proj2 (Z.eqb_neq k i)) in Hk by done. done.
  - intros j Hj. specialize (Hk j ltac:(lia)). destruct (Z.eqb_spec j i) as [E1|].
    + exists (size s - 1). split; [lia|done].
    + exists j. split; [lia|done].
Qed.

Lemma same_entry_cleared s k s' j : same_entry s k s' j -> cleared s k -> cleared s' j.
Proof. intros [E1 E2]. unfold cleared, npath. rewrite E1, E2. done. Qed.

Lemma brokenPath_loop_spec n : forall s out, store_ok s -> Z.of_nat n <= s.(size) ->
  (forall j, Z.of_nat n <= j < s.(size) -> cleared s j) ->
  exists s', brokenPath_loop n path' s out = Some (s', out + (s.(size) - s'.(size))) /\
    store_ok s' /\ cut s s' /\ s'.(size) <= s.(size) /\ forall j, 0 <= j < s'.(size) -> cleared s' j.
Proof.
  induction n as [|n IH]; intros s out Hs Hn Hcl; cbn [brokenPath_loop].
  { exists s. rewrite Z.sub_diag, Z.add_0_r. split_and!; [done|done|apply cut_refl|lia|intros j Hj; apply Hcl; lia]. }
  change (path (address (store_nodes s (Z.of_nat n)))) with (npath s (Z.of_nat n)).
  destruct (routesThrough_defined (npath s (Z.of_nat n)) path' Hpath) as [b Eb]. rewrite Eb. cbn [mbind option_bind].
  destruct b.
  - destruct (LabelSplicer_isOneHop (npath s (Z.of_nat n))) eqn:Eh; cbn [negb].
    + set (s1 := set_header s (Z.of_nat n) _).
      assert (forall j, npath s1 j = npath s j) as Ep by done.
      assert (cut s s1) as Hcut.
      { split; [| |done].
        - intros j Hj. exists j. split; [done|]. split; [done|]. unfold s1. cbn.
          destruct (Z.eqb_spec j (Z.of_nat n)) as [->|]; auto.
        - intros i Hi Hnb. exists i. split; [done|]. split; [|done]. unfold s1. cbn.
          destruct (Z.eqb_spec i (Z.of_nat n)) as [->|]; done. }
      destruct (IH s1 out) as (s' & E & Hs' & Hc & Hz & Hall).
      * apply set_header_ok; done.
      * change (size s1) with (size s). lia.
      * intros j Hj. change (size s1) with (size s) in Hj. unfold cleared. rewrite Ep. unfold s1. cbn.
        destruct (Z.eqb_spec j (Z.of_nat n)) as [->|]; [done|]. intros Hb. apply Hcl; [lia|done].
      * exists s'. split_and!; [done|done|by apply cut_trans with s1|done|done].
    + destruct (remove_cut s (Z.of_nat n) Hs ltac:(lia) Eb) as (s1 & E1 & Hs1 & Hc1 & Ez & Hk).
      rewrite E1. cbn [mbind option_bind]. destruct (IH s1 (out + 1)) as (s' & E & Hs' & Hc & Hz & Hall).
      * done.
      * lia.
      * intros j Hj. destruct (Hk j Hj) as (k & Hkr & Es). apply (same_entry_cleared s k); [done|]. apply Hcl. lia.
      * exists s'. rewrite E. split; [do 2 f_equal; lia|]. split_and!; [done|by apply cut_trans with s1|lia|done].
  - destruct (IH s out Hs) as (s' & E & H); [lia| |exists s'; done].
    intros j Hj. destruct (decide (j = Z.of_nat n)) as [->|]; [|apply Hcl; lia].
    unfold cleared, is_behind. rewrite Eb. done.
Qed.

Lemma brokenPath_spec (s : NodeStore) :
  store_ok s ->
  exists s', NodeStore_brokenPath path' s = Some (s', s.(size) - s'.(size)) /\
    store_ok s' /\ s'.(size) <= s.(size) /\ cut s s' /\
    forall j, 0 <= j < s'.(size) -> cleared s' j.
Proof.
  intros Hs. unfold NodeStore_brokenPath. pose proof (ok_size s Hs) as Hz.
  destruct (brokenPath_loop_spec (Z.to_nat (size s)) s 0 Hs) as (s' & E & H1 & H2 & H3 & H4); [lia|lia|].
  exists s'. rewrite E. split_and!; done.
Qed.

(** When a path is broken, all entries behind it are removed and counted,
    except peers of this node, whose reach becomes 0; every entry that is not
    behind it is kept as it is, no entry is new and the table stays well
    formed. *)
Theorem NodeStore_brokenPath_spec (s : NodeStore) :
  store_ok s ->
  exists s', NodeStore_brokenPath path' s = Some (s', s.(size) - s'.(size)) /\
    store_ok s' /\ s'.(size) <= s.(size) /\ cut s s' /\
    forall j, 0 <= j < s'.(size) -> cleared s' j.
Proof. apply brokenPath_spec. Qed.
End broken.

(** ** The best next hop *)
Lemma candidates_spec s cand : In cand (candidates s) <->
  exists i, 0 <= i < s.(size) /\ cand = (i, s.(headers) i, s.(store_nodes) i).
Proof.
  unfold candidates. rewrite in_map_iff. split.
  - intros (k & <- & Hk%in_seq). exists (Z.of_nat k). split; [lia|done].
  - intros (i & Hi & ->). exists (Z.to_nat i). rewrite in_seq, Z2Nat.id by lia. split; [done|lia].
Qed.

Lemma fold_left_ext_cand {A B} (f g : A -> B -> A) l a : (forall a x, f a x = g a x) -> fold_left f l a = fold_left g l a.
Proof. intros H. revert a. induction l as [|x l IH]; intros a; cbn; [done|]. rewrite H. apply IH. Qed.

Lemma fold_filter {A B} (f : A -> B -> A) (p : B -> bool) l a :
  fold_left (fun a x => if p x then f a x else a) l a = fold_left f (List.filter p l) a.
Proof. revert a. induction l as [|x l IH]; intros a; cbn; [done|]. destruct (p x); cbn; apply IH. Qed.

(** An entry that may be used towards the target: one with reach that is nearer
    to it than this node. *)
Definition offered (s : NodeStore) (target : Address) (i : Z) : Prop :=
  0 <= i < s.(size) /\ (s.(headers) i).(reach) <> 0 /\
  candidate_near (getBest_collector target s) (i, s.(headers) i, s.(store_nodes) i) = true.

Definition exact_match (s : NodeStore) (target : Address) (i : Z) : Prop :=
  (s.(store_nodes) i).(address).(ip6) = (snd (Address_getPrefix target)).(ip6).

Lemma distance_exact s target i : store_ok s -> 0 <= i < s.(size) ->
  length (snd (Address_getPrefix target)).(ip6) = 16%nat ->
  node_distance (s.(headers) i) (s.(store_nodes) i) (getBest_collector target s) = 0 <-> exact_match s target i.
Proof.
  intros Hs Hi Hl. unfold node_distance, exact_match, getBest_collector.
  rewrite (surjective_pairing (Address_getPrefix target)). cbn [targetPrefix targetAddress].
  pose proof (ok_entry s Hs i Hi) as [_ E1 _ E2 _ E3 _ _].
  set (a := address (store_nodes s i)) in *. rewrite getPrefix_prefix, E2 in E1.
  assert ((Bits_memcmp (ip6 a) (ip6 (snd (Address_getPrefix target))) =? 0) =
    bool_decide (ip6 a = ip6 (snd (Address_getPrefix target)))) as ->.
  { apply eq_true_iff_eq. rewrite Z.eqb_eq, bool_decide_eq_true. apply memcmp_0. congruence. }
  rewrite E1. split.
  - destruct (bool_decide_reflect (ip6 a = ip6 (snd (Address_getPrefix target)))); cbn [negb]; [done|].
    rewrite andb_true_r. destruct (Z.eqb_spec (Z.lxor (Endian_bigEndianToHost32 (load 4 (of_list (ip6 a)) 8)) (fst (Address_getPrefix target))) 0) as [E|E]; lia.
  - intros E. rewrite bool_decide_eq_true_2 by done. rewrite andb_false_r, getPrefix_prefix, E, Z.lxor_nilpotent. done.
Qed.

Lemma offered_value s target i : store_ok s -> offered s target i ->
  LinkStateNodeCollector_getValue (s.(headers) i) (s.(store_nodes) i) 0 = 64 - Bits_log2x64 (npath s i) /\
  1 <= 64 - Bits_log2x64 (npath s i).
Proof.
  intros Hs (Hi & Hr & _). pose proof (label_log2 _ (store_label s i Hs Hi)) as Hl.
  unfold LinkStateNodeCollector_getValue. cbn [Z.eqb]. rewrite (proj2 (Z.eqb_neq _ _) Hr). cbn [negb].
  fold (npath s i). unfold u64. rewrite Z.mod_small by lia. lia.
Qed.

Lemma getBest_spec (s : NodeStore) (target : Address) :
  store_ok s -> length (snd (Address_getPrefix target)).(ip6) = 16%nat ->
  match NodeStore_getBest target s with
  | (s', Some i) => s' = nodeForIndex s i /\ offered s target i /\
      forall j, offered s target j ->
        (exact_match s target j -> exact_match s target i) /\
        ((exact_match s target j <-> exact_match s target i) -> Bits_log2x64 (npath s i) <= Bits_log2x64 (npath s j))
  | (s', None) => s' = s /\ forall j, ~ offered s target j
  end.
Proof.
  intros Hs Hl. unfold NodeStore_getBest. set (c := getBest_collector target s).
  rewrite (fold_left_ext_cand _ (fun a x => if (fun '(_, h, _) => negb (reach h =? 0)) x then
    (fun c '(index, header, body) => LinkStateNodeCollector_addNode index header body c) a x else a))
    by (intros ? [[? ?] ?]; done).
  rewrite fold_filter. set (l := List.filter _ _).
  assert (forall i, offered s target i <-> 0 <= i < size s /\
    In (i, headers s i, store_nodes s i) l /\ candidate_near c (i, headers s i, store_nodes s i) = true) as Hoff.
  { intros i. unfold offered, l. rewrite filter_In, candidates_spec, negb_true_iff, Z.eqb_neq. split.
    - intros (H1 & H2 & H3). split_and!; eauto; lia.
    - intros (H1 & [_ H2] & H3). done. }
  destruct (linkstate_collect_best c l empty_element) as (r & Hr & _ & Hfrom & Hbest).
  { unfold c, getBest_collector. destruct (Address_getPrefix target). done. }
  unfold linkstate_collect in Hr. rewrite Hr. cbn [hd]. destruct Hfrom as [->|(cand & Hin & Hn & ->)].
  - cbn [empty_element el_node]. split; [done|]. intros j Hj. destruct (offered_value s target j Hs Hj) as [Ev Hv].
    apply Hoff in Hj as (_ & H1 & H2). specialize (Hbest _ H1 H2). revert Hbest.
    unfold preferred. cbn [linkstate_element el_value el_distance empty_element]. rewrite Ev.
    change (UINT32_MAX =? 0) with false. destruct (node_distance _ _ _ =? 0); cbn [Bool.eqb andb orb negb]; lia.
  - pose proof Hin as (Hc & Hr0)%filter_In. apply candidates_spec in Hc as (i & Hi & ->).
    cbn [linkstate_element el_node]. split; [done|]. assert (offered s target i) as Hoi by (apply Hoff; done).
    split; [done|]. intros j Hj. destruct (offered_value s target j Hs Hj) as [Ev Hv], (offered_value s target i Hs Hoi) as [Ev' Hv'].
    pose proof Hj as Hj'. apply Hoff in Hj as (Hjr & H1 & H2). specialize (Hbest _ H1 H2). revert Hbest.
    unfold preferred. cbn [linkstate_element el_value el_distance]. rewrite Ev, Ev'.
    rewrite <-!distance_exact by (done || lia). fold c.
    destruct (Z.eqb_spec (node_distance (headers s j) (store_nodes s j) c) 0),
      (Z.eqb_spec (node_distance (headers s i) (store_nodes s i) c) 0); cbn [Bool.eqb andb orb negb]; intros ?; split; lia || tauto.

Qed.

(** The next hop chosen for an address is an entry with reach that is nearer
    to the address than this node, if there is any; none is an exact match if
    the chosen one is not, and among those that are alike in this no label is
    shorter. The node is brought up to date with its header, and nothing else
    changes. *)
Theorem NodeStore_getBest_spec (s : NodeStore) (target : Address) :
  store_ok s -> length (snd (Address_getPrefix target)).(ip6) = 16%nat ->
  match NodeStore_getBest target s with
  | (s', Some i) => s' = nodeForIndex s i /\ offered s target i /\
      forall j, offered s target j ->
        (exact_match s target j -> exact_match s target i) /\
        ((exact_match s target j <-> exact_match s target i) -> Bits_log2x64 (npath s i) <= Bits_log2x64 (npath s j))
  | (s', None) => s' = s /\ forall j, ~ offered s target j
  end.
Proof. apply getBest_spec. Qed.
End invariant.

(** ** Witness: a table with one entry *)
Definition demo_ip6 (k : Z) : list Z := 0xFC :: repeat k 15.
Definition demo_known (k p : Z) : Address := {| ip6 := demo_ip6 k; key := repeat k 32; path := p |}.
Definition demo_store : NodeStore :=
  {| thisNodeAddress := demo_known 9 1;
     headers := fun i => if i =? 0 then
       {| addressPrefix := 0x07070707; reach := 5; switchIndex := @getSwitchIndex x86 (demo_known 7 0x153); version := 2 |}
       else zero_header;
     store_nodes := fun i => if i =? 0 then
       {| node_reach := 5; node_version := 2; address := demo_known 7 0x153 |} else zero_node;
     store_capacity := 2; size := 1; labelSum := 8 |}.

Lemma demo_store_ok : @store_ok x86 toy_nacl demo_store.
Proof.
  split.
  - reflexivity.
  - cbn. lia.
  - intros i Hi. unfold npath. cbn in *. destruct (Z.eqb_spec i 0); [lia|done].
  - intros i Hi. cbn in Hi. assert (i = 0) as -> by lia. split; try reflexivity.
    + cbn. unfold label_ok. lia.
    + cbn. intros [=].
  - cbn. lia.
  - vm_compute. split; [discriminate|reflexivity].
Qed.

Lemma demo_addr_ok : @addr_ok x86 toy_nacl demo_store.(thisNodeAddress) (demo_known 7 0x13).
Proof. split; try reflexivity; [cbn; unfold label_ok; lia|cbn; intros [=]]. Qed.


Lemma NodeStore_brokenPath_spec_witness :
  exists s', @NodeStore_brokenPath x86 0x13 demo_store = Some (s', 1) /\ s'.(size) = 0.
Proof.
  destruct (@NodeStore_brokenPath_spec x86 toy_nacl 0x13 ltac:(unfold label_ok; lia) demo_store demo_store_ok)
    as (s' & E & _).
  assert (option_map (fun '(s', r) => (size s', r)) (@NodeStore_brokenPath x86 0x13 demo_store) = Some (0, 1)) as H
    by (vm_compute; reflexivity).
  exists s'. rewrite E in *. injection H as Hz Hr. split; [|done]. rewrite Hz. reflexivity.
Defined.

Lemma NodeStore_getBest_spec_witness :
  (@NodeStore_getBest x86 toy_nacl (demo_known 7 1) demo_store).2 = Some 0 /\
  @offered x86 toy_nacl demo_store (demo_known 7 1) 0.
Proof.
  pose proof (@NodeStore_getBest_spec x86 toy_nacl demo_store (demo_known 7 1) demo_store_ok eq_refl) as H.
  assert ((@NodeStore_getBest x86 toy_nacl (demo_known 7 1) demo_store).2 = Some 0) as E by (vm_compute; reflexivity).
  destruct (NodeStore_getBest _ _) as [s' r]. cbn [snd] in E. subst r. split; [reflexivity|apply H].
Defined.
