(* ===== verification/NodeStoreKeeps.v ===== *)
(** * What the operations of the node store leave alone

    The table as its users see it: operations that look something up or change
    reaches keep all addresses and versions ([same_table]), and a property of the
    entries that holds of what is put in holds of all of them ([every_entry]).
    With the functional behaviour of NodeStore_updateReach. *)
From S2P Require Import Prelude Memory Endian Bits NumberCompress LabelSplicer NaCl Address NodeCollector NodeStore.

Record same_table (s s' : NodeStore) : Prop := {
  same_self : s'.(thisNodeAddress) = s.(thisNodeAddress);
  same_capacity : s'.(store_capacity) = s.(store_capacity);
  same_size : s'.(size) = s.(size);
  same_sum : s'.(labelSum) = s.(labelSum);
  same_address : forall i, (s'.(store_nodes) i).(address) = (s.(store_nodes) i).(address);
  same_prefix : forall i, (s'.(headers) i).(addressPrefix) = (s.(headers) i).(addressPrefix);
  same_switch : forall i, (s'.(headers) i).(switchIndex) = (s.(headers) i).(switchIndex);
  same_version : forall i, (s'.(headers) i).(version) = (s.(headers) i).(version)
}.

#[export] Instance same_table_preorder : PreOrder same_table.
Proof.
  split.
  - intros s. split; done.
  - intros s1 s2 s3 [A1 A2 A3 A4 A5 A6 A7 A8] [B1 B2 B3 B4 B5 B6 B7 B8].
    split; try congruence; intros i; etrans; eauto.
Qed.

(** A node of the table has no other entry than those in use. *)
Definition every_entry (Q : Address -> Z -> Prop) (s : NodeStore) : Prop :=
  forall i, 0 <= i < s.(size) -> Q (s.(store_nodes) i).(address) (s.(headers) i).(version).

Lemma same_table_every Q s s' : same_table s s' -> every_entry Q s -> every_entry Q s'.
Proof.
  intros H Hq i Hi. rewrite (same_size _ _ H) in Hi. rewrite (same_address _ _ H), (same_version _ _ H). auto.
Qed.

Section keeps.
  Context {P : Platform} {N : NaCl}.

Lemma same_table_ok s s' : same_table s s' -> store_ok s -> store_ok s'.
Proof.
  intros [E1 E2 E3 E4 E5 E6 E7 E8] [H1 H2 H3 H4 H5 H6].
  assert (forall i, npath s' i = npath s i) as Ep by (intros i; unfold npath; rewrite E5; done).
  split; rewrite ?E1, ?E2, ?E3, ?E4.
  - done.
  - done.
  - intros i Hi. rewrite Ep. auto.
  - intros i Hi. rewrite E5. destruct (H4 i Hi) as [A1 A2 A3 A4 A5 A6 A7 A8]. split; try done; congruence.
  - intros i j. rewrite !Ep. auto.
  - erewrite sum_below_ext; [exact H6|]. intros i _. cbn beta. rewrite Ep. done.
Qed.

Lemma same_nodeForIndex s i : same_table s (nodeForIndex s i).
Proof. split; try done. intros j. cbn. destruct (Z.eqb_spec j i) as [->|]; done. Qed.

Lemma same_set_header s i h :
  h.(addressPrefix) = (s.(headers) i).(addressPrefix) -> h.(switchIndex) = (s.(headers) i).(switchIndex) ->
  h.(version) = (s.(headers) i).(version) -> same_table s (set_header s i h).
Proof. intros H1 H2 H3. split; try done; intros j; cbn; destruct (Z.eqb_spec j i) as [->|]; done. Qed.

Lemma same_set_node s i n : n.(address) = (s.(store_nodes) i).(address) -> same_table s (set_node s i n).
Proof. intros H. split; try done. intros j. cbn. destruct (Z.eqb_spec j i) as [->|]; done. Qed.

Lemma same_getBest s target : same_table s (NodeStore_getBest target s).1.
Proof.
  unfold NodeStore_getBest. destruct (el_node _); [apply same_nodeForIndex|reflexivity].
Qed.

Lemma same_getNodeByNetworkAddr s p random : same_table s (NodeStore_getNodeByNetworkAddr p s random).1.
Proof.
  unfold NodeStore_getNodeByNetworkAddr. destruct (p =? 0); [reflexivity|].
  destruct (for_until _ _ _ _); [reflexivity|apply same_nodeForIndex].
Qed.

Lemma same_fold_nodeForIndex l : forall s, same_table s (fold_left nodeForIndex l s).
Proof.
  induction l as [|i l IH]; intros s; cbn [fold_left]; [reflexivity|].
  etrans; [apply same_nodeForIndex|apply IH].
Qed.

Lemma same_getClosestNodes s target req count v : same_table s (NodeStore_getClosestNodes s target req count v).1.
Proof. unfold NodeStore_getClosestNodes. cbv zeta. apply same_fold_nodeForIndex. Qed.

(** What is found is an entry in use. *)
Lemma getNodeByNetworkAddr_spec s p random : p <> 0 ->
  match NodeStore_getNodeByNetworkAddr p s random with
  | (s', Some i) => s' = nodeForIndex s i /\ 0 <= i < s.(size) /\ npath s i = p /\ forall j, 0 <= j < i -> npath s j <> p
  | (s', None) => s' = s /\ forall i, 0 <= i < s.(size) -> npath s i <> p
  end.
Proof.
  intros Hp. unfold NodeStore_getNodeByNetworkAddr. rewrite (proj2 (Z.eqb_neq _ _)) by done.
  pose proof (search_spec (Z.to_nat s.(size)) 0 (fun i => p =? npath s i) (fun i => i)) as H.
  change (fun i _ => if p =? npath s i then inr i else inl tt)
    with (fun (i : Z) (_ : unit) => if p =? path (address (store_nodes s i)) then inr i else inl tt : unit + Z) in H.
  destruct (for_until _ _ _ tt) as [u|i].
  - split; [done|]. intros i Hi E. specialize (H i ltac:(lia)). lia.
  - destruct H as (i' & Hi & E & -> & Hlow). split; [done|]. split; [lia|]. split; [lia|].
    intros j Hj Ej. specialize (Hlow j ltac:(lia)). lia.
Qed.

Lemma getNodeByNetworkAddr_range s p random i :
  0 <= random -> (NodeStore_getNodeByNetworkAddr p s random).2 = Some i -> 0 <= i < s.(size).
Proof.
  intros Hr. destruct (decide (p = 0)) as [->|Hp].
  - unfold NodeStore_getNodeByNetworkAddr. cbn [Z.eqb snd]. destruct (Z.ltb_spec 0 (size s)); [|done]. intros [= <-].
    apply Z.mod_pos_bound. lia.
  - pose proof (getNodeByNetworkAddr_spec s p random Hp) as H. destruct (NodeStore_getNodeByNetworkAddr p s random) as [s' r].
    cbn [snd]. intros ->. apply H.
Qed.

(** ** The closest nodes *)
Lemma collect_forall (Q : NodeCollector_Element -> Prop) l i matched new :
  Forall Q l -> Q new -> Forall Q (collect l i matched new).
Proof.
  intros Hl Hn. unfold collect. destruct (0 <? i); [|done]. destruct (0 <? matched).
  - by apply Forall_insert.
  - apply Forall_app. split; [by apply Forall_take, Forall_drop|].
    apply Forall_app. split; [by repeat constructor|by apply Forall_drop].
Qed.

Lemma linkstate_forall (Q : NodeCollector_Element -> Prop) index header body c :
  Forall Q c.(nodes) -> (forall el, el.(el_node) = Some index -> Q el) ->
  Forall Q (LinkStateNodeCollector_addNode index header body c).(nodes).
Proof.
  intros Hc Hn. unfold LinkStateNodeCollector_addNode. destruct (_ <? _); [|done].
  destruct (collector_scan _ _ _ _ _ _ _) as [[i m] v]. apply collect_forall; [done|]. by apply Hn.
Qed.

(** The node as the code leaves it: in step with its header. *)
Definition fresh_node (s : NodeStore) (i : Z) : Node :=
  {| node_reach := (s.(headers) i).(reach); node_version := (s.(headers) i).(version);
     address := (s.(store_nodes) i).(address) |}.

Lemma fold_fresh l : forall s, (fold_left nodeForIndex l s).(headers) = s.(headers) /\
  (forall i, i ∈ l -> (fold_left nodeForIndex l s).(store_nodes) i = fresh_node s i).
Proof.
  induction l as [|j l IH]; intros s; cbn [fold_left].
  { split; [done|]. intros i Hi. by apply elem_of_nil in Hi. }
  destruct (IH (nodeForIndex s j)) as [H1 H2]. split; [done|]. intros i Hi.
  destruct (decide (i ∈ l)) as [Hl|Hl].
  - rewrite H2 by done. unfold fresh_node. cbn. destruct (Z.eqb_spec i j) as [->|]; done.
  - apply elem_of_cons in Hi as [->|?]; [|done].
    assert (forall l s', j ∉ l -> (fold_left nodeForIndex l s').(store_nodes) j = s'.(store_nodes) j) as Hkeep.
    { clear. induction l as [|k l IH]; intros s' Hj; cbn [fold_left]; [done|].
      apply not_elem_of_cons in Hj as [Hjk Hj]. rewrite IH by done. cbn. rewrite (proj2 (Z.eqb_neq _ _)) by done. done. }
    rewrite Hkeep by done. unfold fresh_node. cbn. rewrite Z.eqb_refl. done.
Qed.

Lemma getClosestNodes_spec s target req count v :
  let '(s', l) := NodeStore_getClosestNodes s target req count v in
  same_table s s' /\ s'.(headers) = s.(headers) /\
  forall i, i ∈ l -> 0 <= i < s.(size) /\ s'.(store_nodes) i = fresh_node s i.
Proof.
  pose proof (same_getClosestNodes s target req count v) as Hs. revert Hs. unfold NodeStore_getClosestNodes. cbv zeta.
  match goal with |- context [fold_left ?f (candidates s) ?c] => set (body := f); set (c0 := c) end.
  set (Q := fun el : NodeCollector_Element => forall i, el.(el_node) = Some i -> 0 <= i < s.(size)).
  assert (Forall Q c0.(nodes)) as H0.
  { unfold c0, NodeCollector_new. destruct (Address_getPrefix target). cbn [nodes].
    apply List.Forall_forall. intros el ->%repeat_spec i. done. }
  assert (Forall Q (fold_left body (candidates s) c0).(nodes)) as HQ.
  { assert (forall x, In x (candidates s) -> 0 <= x.1.1 < s.(size)) as Hc.
    { intros x (i & Hi & ->)%candidates_spec. done. }
    revert Hc. generalize (candidates s). intros cands. generalize dependent c0. 
    induction cands as [|[[i h] n] cands IH]; intros c0 H0 Hc; cbn [fold_left]; [done|]. apply IH.
    - unfold body at 1. match goal with |- context [if ?b then c0 else if ?b' then c0 else _] => destruct b, b' end; try done. apply linkstate_forall; [done|]. intros el El k Ek.
      assert (k = i) as -> by congruence. apply (Hc (i, h, n)). by left.
    - intros x Hx. apply Hc. by right. }
  set (l := omap el_node _). intros Hs. cbn [fst] in Hs. split; [done|]. destruct (fold_fresh l s) as [H1 H2].
  split; [done|]. intros i Hi. split; [|by apply H2].
  unfold l in Hi. apply list_elem_of_omap in Hi as (el & Hel & Ei).
  rewrite List.Forall_forall in HQ. apply (HQ el); [|done]. by apply list_elem_of_In.
Qed.

Lemma getBest_range s target k : (NodeStore_getBest target s).2 = Some k -> 0 <= k < s.(size).
Proof.
  unfold NodeStore_getBest. set (c0 := getBest_collector target s).
  set (Q := fun el : NodeCollector_Element => forall i, el.(el_node) = Some i -> 0 <= i < s.(size)).
  match goal with |- context [fold_left ?f (candidates s) c0] => set (body := f) end.
  assert (Forall Q (fold_left body (candidates s) c0).(nodes)) as HQ.
  { assert (Forall Q c0.(nodes)) as H0.
    { unfold c0, getBest_collector. destruct (Address_getPrefix target). cbn [nodes]. constructor; [intros i; done|constructor]. }
    assert (forall x, In x (candidates s) -> 0 <= x.1.1 < s.(size)) as Hc by (intros x (i & Hi & ->)%candidates_spec; done).
    revert Hc H0. generalize c0. generalize (candidates s).
    induction l as [|[[i h] n] cands IH]; intros c Hc H0; cbn [fold_left]; [done|]. apply IH.
    - intros x Hx. apply Hc. by right.
    - unfold body. destruct (negb _); [|done]. apply linkstate_forall; [done|]. intros el El j Ej.
      assert (j = i) as -> by congruence. apply (Hc (i, h, n)). by left. }
  revert HQ. generalize (nodes (fold_left body (candidates s) c0)). intros [|el l] HQ; cbn [hd]; [done|].
  apply Forall_cons_iff in HQ as [Hel _]. destruct (el_node el) as [i|] eqn:Ei; [|done]. intros [= <-]. by apply Hel.
Qed.

(** ** Reach *)

(** A route behind the node is no better than the node, one the node is behind
    no worse, unless it has no reach. *)
Definition reach_from (newReach nodePath p old : Z) : Z :=
  if bool_decide (LabelSplicer_routesThrough p nodePath = Some true) then Z.min newReach old
  else if bool_decide (LabelSplicer_routesThrough nodePath p = Some true) && negb (old =? 0) then Z.max newReach old
  else old.

Lemma set_same_header s i h : h = s.(headers) i -> forall j, (set_header s i h).(headers) j = s.(headers) j.
Proof. intros -> j. cbn. destruct (Z.eqb_spec j i) as [->|]; done. Qed.

Lemma updateReach_step_spec newReach nodePath s i : label_ok nodePath -> label_ok (npath s i) ->
  exists s', updateReach_step newReach nodePath i (Some s) = Some s' /\ same_table s s' /\
    s'.(store_nodes) = s.(store_nodes) /\
    s'.(headers) i = set_reach (s.(headers) i) (reach_from newReach nodePath (npath s i) (s.(headers) i).(reach)) /\
    forall j, j <> i -> s'.(headers) j = s.(headers) j.
Proof.
  intros Hn Hi. unfold updateReach_step, reach_from. cbn [mbind option_bind]. fold (npath s i).
  assert (forall r, r = (s.(headers) i).(reach) -> s.(headers) i = set_reach (s.(headers) i) r) as Hsame
    by (intros r ->; destruct (s.(headers) i); done).
  assert (forall r, same_table s (set_header s i (set_reach (headers s i) r)) /\
    (set_header s i (set_reach (headers s i) r)).(headers) i = set_reach (headers s i) r /\
    forall j, j <> i -> (set_header s i (set_reach (headers s i) r)).(headers) j = s.(headers) j) as Hset.
  { intros r. split; [by apply same_set_header|]. cbn. rewrite Z.eqb_refl. split; [done|].
    intros j Hj. rewrite (proj2 (Z.eqb_neq _ _)) by done. done. }
  destruct (routesThrough_defined (npath s i) nodePath Hn) as [b Eb]. rewrite Eb. cbn [mbind option_bind].
  destruct b.
  - rewrite bool_decide_eq_true_2 by done. destruct (Z.ltb_spec newReach (reach (headers s i))).
    + eexists. split; [done|]. rewrite Z.min_l by lia. destruct (Hset newReach) as (H1 & H2 & H3). split_and!; done.
    + exists s. split; [done|]. split; [reflexivity|]. split; [done|]. split; [apply Hsame; lia|done].
  - rewrite bool_decide_eq_false_2 by done.
    destruct (routesThrough_defined nodePath (npath s i) Hi) as [b' Eb']. rewrite Eb'. cbn [mbind option_bind].
    destruct b'; [rewrite bool_decide_eq_true_2 by done|rewrite bool_decide_eq_false_2 by done]; cbn [andb].
    + destruct (Z.ltb_spec (reach (headers s i)) newReach); cbn [andb].
      * destruct (Z.eqb_spec (reach (headers s i)) 0) as [E0|]; cbn [negb].
        -- exists s. split; [done|]. split; [reflexivity|]. split; [done|]. split; [by apply Hsame|done].
        -- eexists. split; [done|]. rewrite Z.max_l by lia. destruct (Hset newReach) as (H1 & H2 & H3). split_and!; done.
      * exists s. split; [done|]. split; [reflexivity|]. split; [done|].
        split; [apply Hsame; destruct (negb _); lia|done].
    + exists s. split; [done|]. split; [reflexivity|]. split; [done|]. split; [by apply Hsame|done].
Qed.

(** The node at [k] gets the reach [r] it was given; every other route that goes
    through it, or that it goes through, is adjusted to it. *)
Lemma updateReach_spec s k : store_ok s -> 0 <= k < s.(size) ->
  let r := (s.(store_nodes) k).(node_reach) in
  exists s', NodeStore_updateReach k s = Some s' /\ same_table s s' /\ s'.(store_nodes) = s.(store_nodes) /\
    (s'.(headers) k).(reach) = r /\
    forall j, 0 <= j < s.(size) -> j <> k ->
      (s'.(headers) j).(reach) = reach_from r (npath s k) (npath s j) (s.(headers) j).(reach).
Proof.
  intros Hs Hk r. unfold NodeStore_updateReach. cbv zeta. fold r. fold (npath s k).
  set (s0 := set_header s k (set_reach (headers s k) r)).
  assert (same_table s s0) as H0 by (by apply same_set_header).
  assert (forall j, (headers s0 j).(reach) = if j =? k then r else (headers s j).(reach)) as Er0
    by (intros j; unfold s0; cbn; destruct (j =? k); done).
  pose proof (for_loop_ind (fun i (a : option NodeStore) => exists s', a = Some s' /\ same_table s s' /\
      s'.(store_nodes) = s.(store_nodes) /\
      (forall j, 0 <= j < i -> (s'.(headers) j).(reach) =
        reach_from r (npath s k) (npath s j) (headers s0 j).(reach)) /\
      (forall j, i <= j -> s'.(headers) j = s0.(headers) j))
    (Z.to_nat (size s0)) 0 (updateReach_step r (npath s k)) (Some s0)) as Hloop.
  destruct Hloop as (s' & E & Hsame & En & Hdone & _).
  - exists s0. split; [done|]. split; [done|]. split; [done|]. split; [intros j Hj; lia|done].
  - intros i a Hi (s1 & -> & Hsame & En & Hdone & Htodo). change (size s0) with (size s) in Hi.
    assert (forall j, npath s1 j = npath s j) as Ep by (intros j; unfold npath; rewrite En; done).
    destruct (updateReach_step_spec r (npath s k) s1 i) as (s2 & E & H1 & H2 & H3 & H4).
    + by apply store_label.
    + rewrite Ep. apply store_label; [done|lia].
    + exists s2. split; [done|]. split; [by etrans|]. split; [congruence|]. split.
      * intros j Hj. destruct (decide (j = i)) as [->|Hne].
        -- rewrite H3. cbn [set_reach reach]. rewrite Ep, Htodo by lia. done.
        -- rewrite H4 by done. apply Hdone. lia.
      * intros j Hj. rewrite H4 by lia. apply Htodo. lia.
  - exists s'. split; [exact E|]. split; [done|]. split; [done|]. change (size s0) with (size s) in *.
    rewrite Z2Nat.id in Hdone by lia. split.
    + rewrite Hdone, Er0, Z.eqb_refl by lia. unfold reach_from.
      destruct (bool_decide _); [lia|]. destruct (_ && _); lia.
    + intros j Hj Hne. rewrite Hdone, Er0 by lia. rewrite (proj2 (Z.eqb_neq j k)) by done. done.
Qed.

(** ** Entries *)

(** What is asked of an address to add, except that it is not this node's own. *)
Record addr_sane (addr : Address) : Prop := {
  sane_label : label_ok addr.(path);
  sane_key : length addr.(key) = 32%nat;
  sane_ip6 : length (snd (Address_getPrefix addr)).(ip6) = 16%nat;
  sane_valid : AddressCalc_validAddress (snd (Address_getPrefix addr)).(ip6) = true
}.

(** A property of keys and versions. *)
Lemma addNode_keeps (Q : Address -> Z -> Prop) s addr rd v :
  (forall a b v, a.(key) = b.(key) -> Q a v -> Q b v) ->
  store_ok s -> 0 < s.(store_capacity) -> s.(labelSum) < 2 ^ 31 - 64 -> addr_sane addr ->
  every_entry Q s -> Q addr v ->
  exists s' r, NodeStore_addNode s addr rd v = Some (s', r) /\ store_ok s' /\ every_entry Q s' /\
    s'.(labelSum) <= s.(labelSum) + 64 /\ s'.(store_capacity) = s.(store_capacity) /\
    s'.(thisNodeAddress) = s.(thisNodeAddress) /\
    match r with
    | Some k => 0 <= k < s'.(size) /\ (s'.(store_nodes) k).(address).(key) = addr.(key)
    | None => Version_isCompatible Version_CURRENT_PROTOCOL v = false \/
        (snd (Address_getPrefix addr)).(ip6) = s.(thisNodeAddress).(ip6) \/ rd <= 0
    end.
Proof.
  intros HQ Hs Hc Hl [A1 A2 A3 A4] Hq Hqa.
  destruct (decide ((snd (Address_getPrefix addr)).(ip6) = s.(thisNodeAddress).(ip6))) as [Eself|Hother].
  { exists s, None. unfold NodeStore_addNode. split; [|split_and!; done || lia || auto].
    destruct (negb _); [done|]. destruct (Address_getPrefix addr) as [pfx addr']. cbn [snd] in *.
    rewrite Eself, (proj2 (Z.eqb_eq _ _)); [done|]. apply memcmp_0; done. }
  destruct (addNode_spec s addr rd v Hs Hc Hl) as (s' & r & E & Hs' & Hsum & Hr); [split; done|].
  exists s', r. split; [exact E|]. split; [done|].
  assert (forall s1, trimmed addr s s1 -> every_entry Q s1) as Htrim.
  { intros s1 Ht j Hj. destruct (trimmed_from _ _ _ Ht j Hj) as (i & Hi & -> & ->). auto. }
  destruct r as [k|].
  - destruct Hr as [_ [K1 K2 [K3 _] _ _ [K4 K5] (s1 & Ht & Esz & Hk & Hwhy & Hrest)]]. split; [|done].
    intros j Hj. destruct (decide (j = k)) as [->|Hne].
    + rewrite K3. by apply (HQ addr).
    + destruct (Hrest j Hne) as [-> ->]. apply (Htrim s1 Ht). lia.
  - destruct Hr as [[Hv ->]|(Ht & Hrd & _)]; [split_and!; auto|].
    split; [by apply Htrim|]. split; [done|]. split; [apply (trimmed_capacity _ _ _ Ht)|].
    split; [apply (trimmed_self _ _ _ Ht)|]. auto.
Qed.

Lemma brokenPath_keeps (Q : Address -> Z -> Prop) s p : label_ok p -> store_ok s -> every_entry Q s ->
  exists s' n, NodeStore_brokenPath p s = Some (s', n) /\ store_ok s' /\ every_entry Q s' /\
    s'.(labelSum) = s.(labelSum) /\ s'.(store_capacity) = s.(store_capacity) /\ s'.(thisNodeAddress) = s.(thisNodeAddress).
Proof.
  intros Hp Hs Hq. destruct (brokenPath_spec p Hp s Hs) as (s' & E & Hs' & _ & [Hc _ (H1 & H2 & H3)] & _).
  exists s', (size s - size s'). split; [exact E|]. split; [done|]. split; [|done]. intros j Hj.
  destruct (Hc j Hj) as (i & Hi & -> & [->|[_ ->]]); apply (Hq i Hi).
Qed.

(** The route [p] goes through the node with the label [q]. *)
Definition through (p q : Z) : Prop := LabelSplicer_routesThrough p q = Some true.

(** A node that is given a new reach passes it on. Afterwards it has that
    reach; a node whose route goes through it has no more than that, and less
    only if it had less; a node that its route goes through has no less, unless
    it has none; all others, and all addresses, are as they were. *)
Theorem NodeStore_updateReach_spec (s : NodeStore) (k : Z) : store_ok s -> 0 <= k < s.(size) ->
  let r := (s.(store_nodes) k).(node_reach) in
  exists s', NodeStore_updateReach k s = Some s' /\ store_ok s' /\ s'.(store_nodes) = s.(store_nodes) /\
    (s'.(headers) k).(reach) = r /\
    forall j, 0 <= j < s.(size) -> j <> k ->
      let before := (s.(headers) j).(reach) in
      let after := (s'.(headers) j).(reach) in
      (through (npath s j) (npath s k) -> after = Z.min r before) /\
      (~ through (npath s j) (npath s k) -> through (npath s k) (npath s j) -> before <> 0 -> after = Z.max r before) /\
      (~ through (npath s j) (npath s k) -> ~ through (npath s k) (npath s j) -> after = before).
Proof.
  intros Hs Hk r. destruct (updateReach_spec s k Hs Hk) as (s' & E & Hsame & En & Hr & Hj). fold r in Hr, Hj.
  exists s'. split; [exact E|]. split; [exact (same_table_ok _ _ Hsame Hs)|]. split; [exact En|]. split; [exact Hr|].
  intros j Hjr Hne before after. unfold after. rewrite (Hj j Hjr Hne). unfold reach_from. fold before. unfold through.
  split; [|split].
  - intros H1. rewrite bool_decide_eq_true_2 by exact H1. reflexivity.
  - intros H1 H2 H3. rewrite bool_decide_eq_false_2 by exact H1. rewrite bool_decide_eq_true_2 by exact H2.
    rewrite (proj2 (Z.eqb_neq _ _) H3). reflexivity.
  - intros H1 H2. rewrite bool_decide_eq_false_2 by exact H1. rewrite bool_decide_eq_false_2 by exact H2. reflexivity.
Qed.
End keeps.

Lemma NodeStore_updateReach_spec_witness :
  exists s', @NodeStore_updateReach 0 demo_store = Some s' /\ (s'.(headers) 0).(reach) = 5.
Proof.
  destruct (@NodeStore_updateReach_spec x86 toy_nacl demo_store 0 demo_store_ok ltac:(cbn; lia)) as (s' & E & _ & _ & H & _).
  exists s'. exact (conj E H).
Defined.
