(* ===== verification/ClosestNodes.v ===== *)
(** * What a search query is answered from (dht/dhtcore/NodeStore.c,
    LinkStateNodeCollector.h)

    The nodes that NodeStore_getClosestNodes finds: all that may be told to who
    asks as long as there is room for them, the node that was asked for last. *)
From S2P Require Import Prelude Memory Endian Bits NumberCompress LabelSplicer NaCl Address NodeCollector NodeStore NodeStoreKeeps.

(** ** The scan of a link state collector *)
Section scan.
  Variables (getValue : Z -> Z) (body : Node) (d : Z).
  Hypothesis getValue_pos : forall v, 0 <= v -> 0 <= getValue v.

Definition same_address (el : NodeCollector_Element) : bool :=
  match el.(el_body) with
  | Some b => Bits_memcmp body.(address).(ip6) b.(address).(ip6) =? 0
  | None => false
  end.

(** Where the scan of [l], which is at [i0], may end. *)
Definition scanned (l : list NodeCollector_Element) (i0 matched0 i matched : Z) : Prop :=
  i0 <= i <= i0 + Z.of_nat (length l) /\
  (matched = matched0 \/ exists k el, l !! k = Some el /\ matched = i0 + Z.of_nat k + 1 /\ matched <= i /\ same_address el = true /\
    (d = 0 -> el.(el_distance) = 0)) /\
  (d <> 0 -> forall k el, l !! k = Some el -> i0 + Z.of_nat k < i -> el.(el_distance) <> 0) /\
  (d = 0 -> i = i0 + Z.of_nat (length l) \/ exists el, In el l /\ el.(el_distance) = 0).

Lemma scanned_stop el l i0 matched0 : (d = 0 -> el.(el_distance) = 0) -> scanned (el :: l) i0 matched0 i0 matched0.
Proof.
  intros Hd. split; [cbn [length]; lia|]. split; [by left|]. split; [intros _ k ? _ Hk; lia|].
  intros E. right. exists el. split; [by left|by apply Hd].
Qed.

Lemma scanned_more el l i0 matched0 matched1 i matched :
  (matched1 = matched0 \/ matched1 = i0 + 1 /\ same_address el = true /\ (d = 0 -> el.(el_distance) = 0)) -> (d <> 0 -> el.(el_distance) <> 0) ->
  scanned l (i0 + 1) matched1 i matched -> scanned (el :: l) i0 matched0 i matched.
Proof.
  intros Hm Hd (H1 & H2 & H3 & H4). split; [cbn [length]; lia|]. split; [|split].
  - destruct H2 as [->|(k & x & Hk & -> & Hi & Hs & Hz)].
    + destruct Hm as [->|(-> & Hs & Hz)]; [by left|]. right. exists 0%nat, el. cbn. split; [done|]. split; [lia|]. split; [lia|done].
    + right. exists (S k), x. cbn. split; [done|]. split; [lia|]. split; [lia|done].
  - intros E [|k] x Hk Hi; cbn in Hk; [injection Hk as <-; by apply Hd|]. apply (H3 E k x Hk). lia.
  - intros E. destruct (H4 E) as [->|(x & Hx & Ex)]; [left; cbn [length]; lia|right]. exists x. split; [by right|done].
Qed.

Lemma collector_scan_scanned l : forall i0 matched0 v0,
  let '(i, matched, _) := collector_scan Z.ltb getValue body d l i0 matched0 v0 in scanned l i0 matched0 i matched.
Proof.
  induction l as [|el l IH]; intros i0 matched0 v0; cbn [collector_scan].
  { split; [cbn [length]; lia|]. split; [by left|]. split; [intros _ k ?; by rewrite lookup_nil|]. left. cbn [length]. lia. }
  destruct (Z.eqb_spec (el_distance el) 0) as [Ee|Ee], (Z.eqb_spec d 0) as [Ed|Ed]; cbn [Bool.eqb negb].
  - destruct (getValue v0 <? el_value el); [by apply scanned_stop|].
    specialize (IH (i0 + 1) (if (0 <? i0) && same_address el then i0 + 1 else matched0) (getValue v0)).
    fold (same_address el). destruct (collector_scan _ _ _ _ _ _ _ _) as [[i m] v].
    eapply scanned_more; [|done|exact IH]. destruct (same_address el); [|rewrite andb_false_r; by left].
    destruct (0 <? i0); [right|left]; done.
  - by apply scanned_stop.
  - specialize (IH (i0 + 1) matched0 v0). destruct (collector_scan _ _ _ _ _ _ _ _) as [[i m] v].
    eapply scanned_more; [by left|done|exact IH].
  - destruct (getValue v0 <? el_value el); [by apply scanned_stop|].
    specialize (IH (i0 + 1) (if (0 <? i0) && same_address el then i0 + 1 else matched0) (getValue v0)).
    fold (same_address el). destruct (collector_scan _ _ _ _ _ _ _ _) as [[i m] v].
    eapply scanned_more; [|done|exact IH]. destruct (same_address el); [|rewrite andb_false_r; by left].
    destruct (0 <? i0); [right|left]; done.
Qed.

(** Elements that are not filled do not stop it. *)
Lemma collector_scan_empty a l : forall i0 matched0 v0, 0 <= v0 ->
  i0 + Z.of_nat a <= (collector_scan Z.ltb getValue body d (repeat empty_element a ++ l) i0 matched0 v0).1.1.
Proof.
  induction a as [|a IH]; intros i0 matched0 v0 Hv.
  - cbn [repeat app]. pose proof (collector_scan_scanned l i0 matched0 v0) as H.
    destruct (collector_scan _ _ _ _ _ _ _ _) as [[i m] v]. destruct H as (H & _). cbn [fst]. lia.
  - cbn [repeat app collector_scan el_distance empty_element el_value el_body]. unfold UINT32_MAX at 1. cbn [Z.eqb].
    destruct (d =? 0); cbn [Bool.eqb negb].
    + specialize (IH (i0 + 1) matched0 v0 Hv). lia.
    + rewrite (proj2 (Z.ltb_ge (getValue v0) 0)) by (by apply getValue_pos). rewrite andb_false_r.
      specialize (IH (i0 + 1) matched0 (getValue v0) (getValue_pos _ Hv)). lia.
Qed.
End scan.

(** ** A node goes into the collector *)

(** What an element holds of the node it was made for. *)
Definition holds_node (c : NodeCollector) (index : Z) (header : NodeHeader) (body : Node) (el : NodeCollector_Element) : Prop :=
  el.(el_node) = Some index /\ el.(el_body) = Some body /\ el.(el_distance) = node_distance header body c.

(** The elements that are filled, before and after. *)
Inductive goes_in (body : Node) (new : NodeCollector_Element) : nat -> list NodeCollector_Element -> nat -> list NodeCollector_Element -> Prop :=
  | TooFar f : goes_in body new 0 f 0 f
  | Replaces a f k el : f !! k = Some el -> same_address body el = true -> goes_in body new a f a (<[k := new]> f)
  | Fills a f k : (k <= length f)%nat -> goes_in body new (S a) f a (take k f ++ new :: drop k f)
  | PushesOut x f k : (k <= length f)%nat -> goes_in body new 0 (x :: f) 0 (take k f ++ new :: drop k f).

Lemma getValue_nonneg header body v : 0 <= v -> 0 <= LinkStateNodeCollector_getValue header body v.
Proof. intros Hv. unfold LinkStateNodeCollector_getValue. do 2 (case_match; try done). apply u64_range. Qed.

Lemma last_middle {A} (k : nat) (x : A) l : (k <= length l)%nat ->
  k = length l /\ list.last (take k l ++ x :: drop k l) = Some x \/ (k < length l)%nat /\ list.last (take k l ++ x :: drop k l) = list.last l.
Proof.
  intros Hk. destruct (decide (k = length l)) as [->|Hne].
  - left. split; [done|]. rewrite drop_all, last_snoc. done.
  - right. split; [lia|]. rewrite <-(take_drop k l) at 3. rewrite !last_app.
    destruct (drop k l) as [|y r] eqn:E; [|done]. apply (f_equal length) in E. rewrite length_drop in E. cbn in E. lia.
Qed.

(** Which element is the last one then. *)
Definition last_after (new : NodeCollector_Element) (f f' : list NodeCollector_Element) : Prop :=
  (list.last f' = list.last f \/ list.last f' = Some new) /\
  (new.(el_distance) <> 0 -> forall r, list.last f = Some r -> r.(el_distance) = 0 -> list.last f' = Some r) /\
  (new.(el_distance) = 0 -> (forall el, In el f -> el.(el_distance) <> 0) -> list.last f' = Some new).

Lemma linkstate_goes_in index header body c a f :
  node_distance header body c < c.(thisNodeDistance) -> c.(nodes) = repeat empty_element a ++ f -> (0 < a + length f)%nat ->
  exists a' f' new, (LinkStateNodeCollector_addNode index header body c).(nodes) = repeat empty_element a' ++ f' /\
    holds_node c index header body new /\ goes_in body new a f a' f' /\ last_after new f f'.
Proof.
  intros Hd Hn Hlen. unfold LinkStateNodeCollector_addNode. rewrite (proj2 (Z.ltb_lt _ _) Hd). rewrite Hn.
  set (getValue := LinkStateNodeCollector_getValue header body). set (d := node_distance header body c).
  pose proof (collector_scan_scanned getValue body d (repeat empty_element a ++ f) 0 0 0) as Hs.
  pose proof (collector_scan_empty getValue body d (getValue_nonneg header body) a f 0 0 0 ltac:(lia)) as He.
  destruct (collector_scan _ _ _ _ _ _ _ _) as [[i m] v]. cbn [fst] in He. cbn [nodes with_nodes].
  set (new := {| el_node := Some index; el_body := _; el_value := _; el_distance := _ |}).
  destruct Hs as (Hi & Hm & Hnz & Hz). rewrite length_app, repeat_length in Hi, Hz.
  assert (forall k el, (repeat empty_element a ++ f) !! k = Some el -> el <> empty_element ->
    exists k', f !! k' = Some el /\ k = (a + k')%nat) as Hfilled.
  { intros k el Hk Hel. destruct (decide (k < a)%nat).
    - rewrite lookup_app_l in Hk by (rewrite repeat_length; lia). apply list_elem_of_lookup_2, list_elem_of_In, repeat_spec in Hk. done.
    - rewrite lookup_app_r, repeat_length in Hk by (rewrite repeat_length; lia). exists (k - a)%nat. split; [done|lia]. }
  assert (forall r, d <> 0 -> list.last f = Some r -> el_distance r = 0 -> i < Z.of_nat (a + length f)) as Hstop.
  { intros r Hd0 Hr Er. destruct (decide (i < Z.of_nat (a + length f))) as [|Hge]; [done|exfalso].
    rewrite last_lookup in Hr. apply (Hnz Hd0 (a + pred (length f))%nat r); [|apply lookup_lt_Some in Hr; lia|done].
    rewrite lookup_app_r, repeat_length by (rewrite repeat_length; lia). rewrite <-Hr. f_equal. lia. }
  assert (d = 0 -> (forall el, In el f -> el.(el_distance) <> 0) -> i = Z.of_nat (a + length f)) as Hend.
  { intros E Hall. destruct (Hz E) as [->|(el & Hin & Ez)]; [done|exfalso]. apply in_app_or in Hin as [Hin%repeat_spec|Hin]; [by subst|].
    by apply (Hall el). }
  unfold collect. destruct (Z.ltb_spec 0 i) as [Hi0|Hi0].
  2: { assert (a = 0%nat) as -> by lia. exists 0%nat, f, new. do 2 (split; [done|]). split; [constructor|].
       split; [by left|]. split; [done|]. intros E Hall. specialize (Hend E Hall). lia. }
  destruct Hm as [->|(k & el & Hk & -> & Hmi & Hsame & Hzero)].
  - cbn [Z.ltb Z.compare]. assert (forall base k, (k <= length base)%nat -> Z.of_nat k = i - 1 - Z.of_nat (pred a) ->
      list.last base = list.last f \/ base = [] -> length base = (a + length f - 1 - pred a)%nat -> last_after new f (take k base ++ new :: drop k base)) as Hlast.
    { intros base k Hk Ek Hb Hlb. destruct (last_middle k new base Hk) as [[Ekl Em]|[Hlt Em]]; unfold last_after; rewrite Em.
      - split; [by right|]. split; [|done]. intros E r Hr Er. specialize (Hstop r E Hr Er). lia.
      - destruct Hb as [->| ->]; [|cbn in Hlt; lia]. split; [by left|]. split; [done|]. intros E Hall. specialize (Hend E Hall). lia. }
    destruct a as [|a].
    + destruct f as [|x f]; [cbn in Hlen; lia|]. cbn [repeat app drop]. set (k := Z.to_nat (i - 1)).
      replace (Z.to_nat i) with (S k) by lia. cbn [drop].
      assert (k <= length f)%nat as Hk by (cbn [length] in Hi; lia).
      exists 0%nat, (take k f ++ new :: drop k f), new. do 2 (split; [done|]). split; [by constructor|].
      apply Hlast; [done|lia| |cbn [length]; lia]. destruct f; [by right|by left].
    + cbn [repeat app drop]. set (k := Z.to_nat (i - 1 - Z.of_nat a)). replace (Z.to_nat i) with (S (a + k)) by lia. cbn [drop].
      replace (Z.to_nat (i - 1)) with (a + k)%nat by lia. assert (k <= length f)%nat as Hk by lia.
      rewrite drop_0, take_app, drop_app, repeat_length, drop_ge, take_ge by (rewrite repeat_length; lia). replace (a + k - a)%nat with k by lia.
      exists a, (take k f ++ new :: drop k f), new. split; [by rewrite <-app_assoc|]. split; [done|]. split; [by constructor|].
      apply Hlast; [done|lia|by left|lia].
  - rewrite (proj2 (Z.ltb_lt _ _)) by lia. replace (Z.to_nat (0 + Z.of_nat k + 1 - 1)) with k by lia.
    destruct (Hfilled k el Hk) as (k' & Hk' & ->); [intros ->; done|]. pose proof (lookup_lt_Some _ _ _ Hk') as Hlt.
    rewrite insert_app_r_alt, repeat_length by (rewrite repeat_length; lia). replace (a + k' - a)%nat with k' by lia.
    exists a, (<[k' := new]> f), new. do 2 (split; [done|]). split; [by apply (Replaces _ _ _ _ k' el)|].
    assert (list.last (<[k' := new]> f) = if decide (k' = pred (length f)) then Some new else list.last f) as El.
    { rewrite !last_lookup, length_insert. case_decide as Hc; [rewrite Hc; apply list_lookup_insert_eq; lia|].
      by apply list_lookup_insert_ne. }
    unfold last_after. rewrite El. split; [case_decide; auto|]. split.
    + intros E r Hr Er. specialize (Hstop r E Hr Er). case_decide; [lia|done].
    + intros E Hall. exfalso. apply (Hall el); [apply list_elem_of_In; by eapply list_elem_of_lookup_2|by apply Hzero].
Qed.

(** ** All candidates *)
Lemma goes_in_perm body new a f a' f' : goes_in body new a f a' f' ->
  (a' + length f' = a + length f)%nat /\ (f' = f \/ exists base rest, f' ≡ₚ new :: base /\ f ≡ₚ base ++ rest).
Proof.
  assert (forall k l, take k l ++ new :: drop k l ≡ₚ new :: l) as Hmid.
  { intros k l. rewrite <-Permutation_middle, take_drop. done. }
  intros [f0|a0 f0 k el Hk Hs|a0 f0 k Hk|x f0 k Hk].
  - split; [lia|by left].
  - rewrite length_insert. split; [lia|]. right. exists (take k f0 ++ drop (S k) f0), [el].
    rewrite insert_take_drop by (by eapply lookup_lt_Some). rewrite <-Permutation_middle. split; [done|].
    rewrite <-(take_drop_middle f0 k el Hk) at 1. rewrite <-Permutation_middle, <-Permutation_cons_append. done.
  - rewrite length_app, length_take. cbn [length]. rewrite length_drop. split; [lia|]. right. exists f0, []. rewrite Hmid, app_nil_r. done.
  - rewrite length_app, length_take. cbn [length]. rewrite length_drop. split; [lia|]. right. exists f0, [x]. rewrite Hmid, <-Permutation_cons_append. done.
Qed.

Lemma goes_in_new body new a f a' f' : goes_in body new a f a' f' -> f' <> [] \/ f' = f /\ a = 0%nat.
Proof.
  intros [f0|a0 f0 k el Hk Hs|a0 f0 k Hk|x f0 k Hk]; [by right|left..].
  - intros E. apply (f_equal length) in E. rewrite length_insert in E. apply lookup_lt_Some in Hk. cbn in E. lia.
  - by destruct (take k f0).
  - by destruct (take k f0).
Qed.

Section all.
  Variables (c0 : NodeCollector) (skip : Z * NodeHeader * Node -> bool).

#[local] Abbreviation candidate := (Z * NodeHeader * Node)%type.
Definition cand_ip (x : candidate) : list Z := x.2.(address).(ip6).
Definition cand_distance (x : candidate) : Z := node_distance x.1.2 x.2 c0.
Definition taken (x : candidate) : bool := negb (skip x) && (cand_distance x <? c0.(thisNodeDistance)).

Definition collect_all (cands : list candidate) (c : NodeCollector) : NodeCollector :=
  fold_left (fun c x => if skip x then c else LinkStateNodeCollector_addNode x.1.1 x.1.2 x.2 c) cands c.

(** No two of them have the same address. *)
Definition different (l : list candidate) : Prop :=
  forall x y, In x l -> In y l -> Bits_memcmp (cand_ip x) (cand_ip y) = 0 -> x.1.1 = y.1.1.

Record gathered (seen : list candidate) (a : nat) (f : list NodeCollector_Element) : Prop := {
  g_length : (a + length f)%nat = length c0.(nodes);
  g_from : forall el, In el f -> exists x, In x seen /\ holds_node c0 x.1.1 x.1.2 x.2 el;
  g_once : NoDup (map el_node f);
  g_some : seen <> [] -> f <> [];
  g_every : different seen -> (length seen <= length c0.(nodes))%nat -> length f = length seen;
  g_target : (exists x, In x seen /\ cand_distance x = 0) -> exists r, list.last f = Some r /\ r.(el_distance) = 0
}.

Lemma gathered_new : c0.(nodes) = repeat empty_element (length c0.(nodes)) -> gathered [] (length c0.(nodes)) [].
Proof. intros H. split; try done; [constructor|intros (x & [] & _)]. Qed.

Lemma gathered_step seen a f x a' f' new : gathered seen a f -> (0 < length c0.(nodes))%nat ->
  (forall y, In y seen -> y.1.1 <> x.1.1) ->
  holds_node c0 x.1.1 x.1.2 x.2 new -> goes_in x.2 new a f a' f' -> last_after new f f' -> gathered (seen ++ [x]) a' f'.
Proof.
  intros [H1 H2 H3 H4 H5 H6] Hcap Hfresh (N1 & N2 & N3) Hin (L1 & L2 & L3).
  destruct (goes_in_perm _ _ _ _ _ _ Hin) as [Hlen Hperm].
  assert (forall el, In el f' -> el = new \/ In el f) as Hel.
  { intros el He. destruct Hperm as [->|(base & rest & Hp & Hs)]; [by right|]. apply (Permutation_in _ Hp) in He as [<-|He]; [by left|right].
    apply (Permutation_in _ (symmetry Hs)), in_or_app. by left. }
  split.
  - lia.
  - intros el [->|He]%Hel; [exists x; split; [apply in_or_app; right; by left|done]|].
    destruct (H2 el He) as (y & Hy & Hh). exists y. split; [apply in_or_app; by left|done].
  - destruct Hperm as [->|(base & rest & Hp & Hs)]; [done|]. rewrite Hp. cbn [map]. rewrite Hs, map_app in H3. apply list.NoDup_app in H3 as (H3 & _).
    constructor; [|done]. intros (el & E & He)%list_elem_of_In%in_map_iff.
    destruct (H2 el) as (y & Hy & (Ey & _)); [apply (Permutation_in _ (symmetry Hs)), in_or_app; by left|]. apply (Hfresh y Hy). congruence.
  - intros _. destruct (goes_in_new _ _ _ _ _ _ Hin) as [?|[-> ->]]; [done|]. intros ->. cbn in H1. lia.
  - intros Hd Hl. rewrite length_app in *. cbn [length] in *.
    assert (length f = length seen) as Hf.
    { apply H5; [|lia]. intros y z Hy Hz. apply Hd; apply in_or_app; by left. }
    inversion Hin as [f0|a0 f0 k el Hk Hs|a0 f0 k Hk|y f0 k Hk]; subst; try lia.
    + exfalso. destruct (H2 el ltac:(apply list_elem_of_In; by eapply list_elem_of_lookup_2)) as (y & Hy & (Ey & Eb & _)).
      unfold same_address in Hs. rewrite Eb in Hs. apply (Hfresh y Hy). symmetry. apply Hd; [apply in_or_app; right; by left|apply in_or_app; by left|].
      unfold cand_ip. lia.
  - intros (y & Hy & Ey).
    assert ((exists z, In z seen /\ cand_distance z = 0) -> exists r, list.last f' = Some r /\ r.(el_distance) = 0) as Hold.
    { intros (r & Hr & Er)%H6. destruct (decide (el_distance new = 0)) as [En|En].
      - destruct L1 as [E|E]; rewrite E; eauto.
      - exists r. split; [by apply L2|done]. }
    apply in_app_or in Hy as [Hy|[<-|[]]]; [by apply Hold; exists y|].
    change (cand_distance x) with (node_distance x.1.2 x.2 c0) in Ey. rewrite <-N3 in Ey.
    destruct (List.Exists_dec (fun el => el_distance el = 0) f (fun el => Z.eq_dec _ _)) as [He|Hne].
    + apply Hold. apply List.Exists_exists in He as (el & He & Ee). destruct (H2 el He) as (z & Hz & (_ & _ & Ez)).
      exists z. split; [done|]. unfold cand_distance. congruence.
    + exists new. split; [|done]. apply L3; [done|]. intros el He E. apply Hne, List.Exists_exists. by exists el.
Qed.

Definition like (c : NodeCollector) : Prop :=
  c.(targetPrefix) = c0.(targetPrefix) /\ c.(targetAddress) = c0.(targetAddress) /\ c.(thisNodeDistance) = c0.(thisNodeDistance).

Lemma linkstate_like index header body c : like c -> like (LinkStateNodeCollector_addNode index header body c).
Proof. intros H. unfold LinkStateNodeCollector_addNode. case_match; [|done]. by repeat case_match. Qed.

Lemma like_distance header body c : like c -> node_distance header body c = node_distance header body c0.
Proof. intros (H1 & H2 & _). unfold node_distance. rewrite H1, H2. done. Qed.

Lemma collect_all_gathered cands : forall c seen a f, like c -> c.(nodes) = repeat empty_element a ++ f -> gathered seen a f ->
  (0 < length c0.(nodes))%nat -> NoDup (map (fun x : candidate => x.1.1) (seen ++ List.filter taken cands)) ->
  exists a' f', (collect_all cands c).(nodes) = repeat empty_element a' ++ f' /\ gathered (seen ++ List.filter taken cands) a' f'.
Proof.
  induction cands as [|x cands IH]; intros c seen a f Hlike Hn Hg Hcap Hdup; cbn [collect_all fold_left List.filter].
  { exists a, f. rewrite app_nil_r. done. }
  cbn [List.filter] in Hdup. pose proof (linkstate_like x.1.1 x.1.2 x.2 c Hlike) as Hlike'.
  pose proof (like_distance x.1.2 x.2 c Hlike) as Hdist. pose proof Hlike as (_ & _ & E3).
  destruct (taken x) eqn:Et; unfold taken in Et.
  - apply andb_prop in Et as [Es Ed]. destruct (skip x); [done|].
    destruct (linkstate_goes_in x.1.1 x.1.2 x.2 c a f) as (a' & f' & new & En & (N1 & N2 & N3) & Hin & Hlast);
      [unfold cand_distance in Ed; lia|done|rewrite (g_length _ _ _ Hg); done|].
    rewrite cons_middle, app_assoc in Hdup |- *. apply (IH _ _ a' f'); try done.
    apply (gathered_step seen a f x a' f' new); try done; [|by split; [|split; [|congruence]]].
    intros y Hy E. rewrite !map_app in Hdup. apply list.NoDup_app in Hdup as (Hdup & _). apply list.NoDup_app in Hdup as (_ & Hdup & _).
    apply (Hdup x.1.1); [|by left]. apply list_elem_of_In, in_map_iff. by exists y.
  - destruct (skip x); cbn [negb andb] in Et; [by apply (IH c seen a f)|]. apply (IH _ seen a f); try done.
    unfold LinkStateNodeCollector_addNode. unfold cand_distance in Et. rewrite Hdist, E3, Et. done.
Qed.
End all.

(** ** NodeStore_getClosestNodes *)
Section closest.
  Context {P : Platform} {N : NaCl}.

(** Node [i] may be told to [asker], whose version is [v]: it is not behind the
    interface that who asks is behind, the versions get along, and its prefix is
    not the complement of that of the target. *)
Definition tellable (s : NodeStore) (target asker : Address) (v i : Z) : Prop :=
  0 <= i < s.(size) /\ (s.(headers) i).(switchIndex) <> getSwitchIndex asker /\
  Version_isCompatible (s.(headers) i).(version) v = true /\
  (s.(headers) i).(addressPrefix) .^ fst (Address_getPrefix target) < UINT32_MAX.

Definition store_ip (s : NodeStore) (i : Z) : list Z := (s.(store_nodes) i).(address).(ip6).

(** What the list of nodes for a search is: nodes that may be told, each once and
    no more than asked for; some if there are any, all of them if there is room
    and they are different nodes; and the node that is searched for is the last. *)
Record answers (s : NodeStore) (target asker : Address) (count v : Z) (found : list Z) : Prop := {
  ans_once : NoDup found;
  ans_count : Z.of_nat (length found) <= count;
  ans_told : forall i, i ∈ found -> tellable s target asker v i;
  ans_some : forall i, tellable s target asker v i -> found <> [];
  ans_all : (forall i j, tellable s target asker v i -> tellable s target asker v j -> store_ip s i = store_ip s j -> i = j) ->
    (forall l, NoDup l -> (forall i, i ∈ l -> tellable s target asker v i) -> Z.of_nat (length l) <= count) ->
    forall i, tellable s target asker v i -> i ∈ found;
  ans_target : ip6_unset target = false -> forall i, tellable s target asker v i -> store_ip s i = target.(ip6) ->
    exists j, list.last found = Some j /\ store_ip s j = target.(ip6)
}.

Definition not_told (asker : Address) (v : Z) (x : Z * NodeHeader * Node) : bool :=
  (x.1.2.(switchIndex) =? getSwitchIndex asker) || negb (Version_isCompatible x.1.2.(version) v).

Lemma getClosestNodes_collects s target asker count v :
  snd (NodeStore_getClosestNodes s target (Some asker) count v) =
  omap el_node (collect_all (not_told asker v) (candidates s) (NodeCollector_new target count s.(thisNodeAddress) true)).(nodes).
Proof.
  unfold NodeStore_getClosestNodes. cbn [snd]. do 2 f_equal. unfold collect_all.
  generalize (NodeCollector_new target count (thisNodeAddress s) true). induction (candidates s) as [|[[i h] n] l IH]; intros c; [done|].
  cbn [fold_left]. rewrite IH. f_equal. unfold not_told. cbn [fst snd]. destruct (_ =? _); [done|]. cbn [orb]. by destruct (negb _).
Qed.

Lemma candidates_once s : NoDup (map (fun x : Z * NodeHeader * Node => x.1.1) (candidates s)).
Proof.
  unfold candidates. rewrite map_map. cbn [fst]. apply NoDup_fmap_2; [intros x y; lia|apply NoDup_seq].
Qed.

Lemma NoDup_map_filter {A B} (g : A -> B) (p : A -> bool) l : NoDup (map g l) -> NoDup (map g (List.filter p l)).
Proof.
  induction l as [|x l IH]; cbn [map List.filter]; [done|]. intros [Hx Hl]%list.NoDup_cons. destruct (p x); [|by apply IH].
  cbn [map]. constructor; [|by apply IH]. intros (y & E & Hy)%list_elem_of_In%in_map_iff. apply Hx, list_elem_of_In, in_map_iff.
  apply filter_In in Hy as [Hy _]. by exists y.
Qed.

Lemma omap_filled a f : (forall el, In el f -> el.(el_node) <> None) ->
  map Some (omap el_node (repeat empty_element a ++ f)) = map el_node f.
Proof.
  intros Hf. induction a as [|a IH]; [|exact IH]. cbn [repeat app]. induction f as [|x f IH]; [done|].
  cbn. specialize (Hf x ltac:(by left)) as Hx. destruct (el_node x) as [i|]; [|done]. cbn. f_equal. apply IH.
  intros el He. apply Hf. by right.
Qed.

Lemma taken_told s target asker count v i : 0 <= i < s.(size) ->
  let c := NodeCollector_new target count s.(thisNodeAddress) true in
  taken c (not_told asker v) (i, s.(headers) i, s.(store_nodes) i) = true <-> tellable s target asker v i.
Proof.
  intros Hi. unfold taken, not_told, tellable, cand_distance, node_distance, NodeCollector_new.
  destruct (Address_getPrefix target) as [prefix target'] eqn:Ep. cbn [fst snd targetPrefix targetAddress thisNodeDistance].
  destruct (Version_isCompatible _ _), (Z.eqb_spec (switchIndex (headers s i)) (getSwitchIndex asker)); cbn [negb orb andb]; try (split; [done|intros (_ & ? & ? & _); done]).
  rewrite Z.ltb_lt. set (x := _ .^ _). destruct (Z.eqb_spec x 0) as [E|]; cbn [andb]; [|tauto].
  rewrite E. unfold UINT32_MAX. destruct (negb _); split; (lia || (intros _; split_and!; done || lia)).
Qed.

Lemma collected_told s target asker count v x :
  let c := NodeCollector_new target count s.(thisNodeAddress) true in
  In x (List.filter (taken c (not_told asker v)) (candidates s)) <->
  exists i, tellable s target asker v i /\ x = (i, s.(headers) i, s.(store_nodes) i).
Proof.
  cbv zeta. rewrite filter_In, candidates_spec. split.
  - intros [(i & Hi & ->) Ht]. exists i. split; [|done]. by apply (taken_told s target asker count v i Hi).
  - intros (i & Ht & ->). pose proof Ht as (Hi & _). split; [by exists i|]. by apply (taken_told s target asker count v i Hi).
Qed.

(** An entry that has the target's address is the target. *)
Lemma target_distance s target asker count v i : store_ok s -> tellable s target asker v i -> ip6_unset target = false -> length target.(ip6) = 16%nat ->
  cand_distance (NodeCollector_new target count s.(thisNodeAddress) true) (i, s.(headers) i, s.(store_nodes) i) = 0 <->
  store_ip s i = target.(ip6).
Proof.
  intros Hs (Hi & _) Hset Hlt. destruct (ok_entry s Hs i Hi) as [_ Hp _ Hf _ Hl _ _]. unfold store_ip.
  pose proof (getPrefix_prefix (address (store_nodes s i))) as E1. rewrite Hf in E1. rewrite E1 in Hp.
  assert (snd (Address_getPrefix target) = target) as E2 by (rewrite getPrefix_snd, Hset; done).
  pose proof (getPrefix_prefix target) as E3. rewrite E2 in E3.
  unfold cand_distance, node_distance, NodeCollector_new. destruct (Address_getPrefix target) as [prefix target'].
  cbn [fst snd targetPrefix targetAddress] in *. subst target' prefix. rewrite Hp.
  set (x := _ .^ _). destruct (Z.eqb_spec x 0) as [E|E]; cbn [andb].
  - rewrite E, <-(memcmp_0 _ _ (eq_trans Hl (eq_sym Hlt))). destruct (Z.eqb_spec (Bits_memcmp (ip6 (address (store_nodes s i))) (ip6 target)) 0); cbn [negb]; lia.
  - split; [done|]. intros Eq. destruct E. unfold x. rewrite Eq. apply Z.lxor_nilpotent.
Qed.

(** What NodeStore_getClosestNodes finds is such a list. *)
Lemma getClosestNodes_answers s target asker count v : store_ok s -> 0 < count -> length target.(ip6) = 16%nat ->
  answers s target asker count v (snd (NodeStore_getClosestNodes s target (Some asker) count v)).
Proof.
  intros Hs Hcount Hlt. rewrite getClosestNodes_collects. set (c := NodeCollector_new target count (thisNodeAddress s) true).
  pose proof (collected_told s target asker count v) as Hseen. cbv zeta in Hseen. fold c in Hseen.
  assert (nodes c = repeat empty_element (Z.to_nat count)) as Hn by (unfold c, NodeCollector_new; destruct (Address_getPrefix target); done).
  assert (length (nodes c) = Z.to_nat count) as Hlc by (rewrite Hn; apply repeat_length).
  pose proof (NoDup_map_filter _ (taken c (not_told asker v)) _ (candidates_once s)) as Hdup.
  destruct (collect_all_gathered c (not_told asker v) (candidates s) c [] (Z.to_nat count) []) as (a & f & -> & Hg);
    [done|by rewrite Hn, app_nil_r|rewrite <-Hlc; apply gathered_new; by rewrite Hlc|lia|exact Hdup|].
  cbn [app] in Hg. set (seen := List.filter _ _) in *. destruct Hg as [G1 G2 G3 G4 G5 G6]. rewrite Hlc in *.
  assert (forall el, In el f -> exists i, tellable s target asker v i /\ el_node el = Some i /\
    el_distance el = cand_distance c (i, s.(headers) i, s.(store_nodes) i)) as Hel.
  { intros el (x & (i & Ht & ->)%Hseen & (H1 & _ & H3))%G2. exists i. done. }
  pose proof (omap_filled a f ltac:(intros el (i & _ & E & _)%Hel; congruence)) as Hfound. set (found := omap _ _) in *.
  assert (length found = length f) as Hlf by (apply (f_equal length) in Hfound; rewrite !length_map in Hfound; done).
  assert (NoDup found) as Honce by (rewrite <-Hfound in G3; by apply NoDup_fmap_1 in G3).
  assert (forall i, i ∈ found -> tellable s target asker v i) as Htold.
  { intros i Hi. assert (In (Some i) (map el_node f)) as (el & E & (j & Hj & E' & _)%Hel)%in_map_iff
      by (rewrite <-Hfound; apply in_map, list_elem_of_In, Hi). congruence. }
  split; [done|lia|done| | |].
  - intros i Hi E. assert (seen <> []) as Hne.
    { intros En. assert (In (i, s.(headers) i, s.(store_nodes) i) seen) as Hx by (apply Hseen; by exists i). rewrite En in Hx. done. }
    apply G4 in Hne. rewrite E in Hlf. destruct f; done.
  - intros Hdiff Hroom i Hi.
    assert (different seen) as Hds.
    { intros x y (j & Hj & ->)%Hseen (k & Hk & ->)%Hseen E. unfold cand_ip in E. cbn [fst snd] in *. apply Hdiff; [done..|].
      apply memcmp_0 in E; [done|]. pose proof Hj as (Hj' & _). pose proof Hk as (Hk' & _).
      rewrite (entry_ip6 _ _ _ (ok_entry s Hs j Hj')), (entry_ip6 _ _ _ (ok_entry s Hs k Hk')). done. }
    set (idx := map (fun x => x.1.1) seen) in *. assert (length idx = length seen) as Hli by apply length_map.
    assert (forall j, j ∈ idx <-> tellable s target asker v j) as Hidx.
    { intros j. unfold idx. rewrite list_elem_of_In, in_map_iff. split; [intros (x & <- & (k & Hk & ->)%Hseen); done|].
      intros Hj. exists (j, s.(headers) j, s.(store_nodes) j). split; [done|]. apply Hseen. by exists j. }
    specialize (Hroom idx Hdup (fun j => proj1 (Hidx j))). specialize (G5 Hds ltac:(lia)).
    assert (found ≡ₚ idx) as ->; [|by apply Hidx]. apply submseteq_length_Permutation; [|lia].
    apply NoDup_submseteq; [done|]. intros j Hj. apply Hidx, Htold, Hj.
  - intros Hset i Hi E. destruct G6 as (r & Hr & Er).
    { exists (i, s.(headers) i, s.(store_nodes) i). split; [apply Hseen; by exists i|]. by apply (target_distance s target asker count v i). }
    assert (In r f) as (j & Hj & Ej & Ed)%Hel by (rewrite last_lookup in Hr; apply list_elem_of_In; by eapply list_elem_of_lookup_2).
    exists j. split; [|apply (target_distance s target asker count v j); [done..|fold c; congruence]].
    assert (list.last (map el_node f) = Some (Some j)) as El by (rewrite fmap_last, Hr; cbn; congruence).
    rewrite <-Hfound, fmap_last in El. destruct (list.last found); [|done]. cbn in El. congruence.
Qed.
End closest.
