(* ===== verification/Map.v ===== *)
(** * Maps with handles (util/Map.h)

    The header is a template for a growing table with one row per key: the
    hash of the key, the key, a handle and a value. New rows get the next handle
    and go to the end, so the handles are sorted and are looked up by bisection.
    This is the variant with both keys and handles (Map_ENABLE_HANDLES and
    Map_KEY_TYPE), which the session manager and the interface controller use.

    The arrays are functions of the index. The theorem is that the table
    implements a finite map from keys to handles and values, in which a handle
    is never given out twice. *)
From stdpp Require Import gmap.
From S2P Require Import Prelude Memory Bits.
Open Scope Z_scope.

(** What the user of the template supplies for the type of the keys. *)
Class MapKey (K : Type) : Type := {
  Map_hash : K -> Z;
  Map_compare : K -> K -> Z
}.
Class MapKeyLaws (K : Type) {key : MapKey K} : Type := {
  key_valid : K -> Prop;
  compare_eq : forall a b, key_valid a -> key_valid b -> (Map_compare a b = 0 <-> a = b)
}.

(** The defaults for a key of [size] bytes: the hash is its last four bytes. *)
#[export] Instance bytes_key `{Platform} : MapKey (list Z) := {
  Map_hash := fun k => load 4 (of_list k) (Z.of_nat (length k) - 4);
  Map_compare := Bits_memcmp
}.
Lemma bytes_compare (size : nat) a b : length a = size -> length b = size -> (Bits_memcmp a b = 0 <-> a = b).
Proof. intros Ha Hb. apply memcmp_0. congruence. Qed.
Definition bytes_key_laws `{Platform} (size : nat) : MapKeyLaws (list Z) :=
  {| key_valid := fun k => length k = size; compare_eq := bytes_compare size |}.

Record Map (K V : Type) := {
  hashCodes : Z -> Z;
  keys : Z -> K;
  handles : Z -> Z;
  nextHandle : Z;
  values : Z -> V;
  count : Z;
  map_capacity : Z
}.
Arguments hashCodes {K V}.
Arguments keys {K V}.
Arguments handles {K V}.
Arguments nextHandle {K V}.
Arguments values {K V}.
Arguments count {K V}.
Arguments map_capacity {K V}.

(** [a[i] = x], and the memmove of [n] elements from [i + 1] to [i]. *)
Definition array_set {A} (a : Z -> A) (i : Z) (x : A) : Z -> A := fun j => if j =? i then x else a j.
Definition array_shift {A} (a : Z -> A) (i n : Z) : Z -> A :=
  fun j => if (i <=? j) && (j <? i + n) then a (j + 1) else a j.

Section map.
  Context {K V : Type} {key : MapKey K} {k0 : Inhabited K} {v0 : Inhabited V}.

Definition Map_new : Map K V :=
  {| hashCodes := fun _ => 0; keys := fun _ => inhabitant; handles := fun _ => 0; nextHandle := 0;
     values := fun _ => inhabitant; count := 0; map_capacity := 0 |}.

Definition Map_indexForKey (k : K) (map : Map K V) : Z :=
  let hashCode := Map_hash k in
  match for_until (Z.to_nat map.(count)) 0 (fun i _ =>
          if (map.(hashCodes) i =? hashCode) && (Map_compare k (map.(keys) i) =? 0)
          then inr i else inl tt) tt with
  | inr i => i
  | inl _ => -1
  end.

(** The bisection: [base] and [bufferLen] of the loop. A 32-bit length halves to
    0 in 33 rounds. *)
Fixpoint indexForHandle_loop (fuel : nat) (handle : Z) (map : Map K V) (base bufferLen : Z) : Z :=
  match fuel with
  | O => -1
  | S fuel =>
      if bufferLen =? 0 then -1
      else
        let currentHandle := map.(handles) (base + bufferLen / 2) in
        if currentHandle <=? handle then
          if currentHandle =? handle then base + bufferLen / 2
          else indexForHandle_loop fuel handle map (base + (bufferLen / 2 + 1)) ((bufferLen - 1) / 2)
        else indexForHandle_loop fuel handle map base (bufferLen / 2)
  end.

Definition Map_indexForHandle (handle : Z) (map : Map K V) : Z :=
  indexForHandle_loop 33 handle map 0 map.(count).

Definition set_count (map : Map K V) (n : Z) : Map K V :=
  {| hashCodes := map.(hashCodes); keys := map.(keys); handles := map.(handles); nextHandle := map.(nextHandle);
     values := map.(values); count := n; map_capacity := map.(map_capacity) |}.

Definition Map_remove (index : Z) (map : Map K V) : Map K V * Z :=
  let last := s32 (s32 map.(count) - 1) in
  if (0 <=? index) && (index <? last) then
    let n := map.(count) - index - 1 in
    ({| hashCodes := array_shift map.(hashCodes) index n; keys := array_shift map.(keys) index n;
        handles := array_shift map.(handles) index n; nextHandle := map.(nextHandle);
        values := array_shift map.(values) index n;
        count := u32 (map.(count) - 1); map_capacity := map.(map_capacity) |}, 0)
  else if index =? last then (set_count map (u32 (map.(count) - 1)), 0)
  else (map, -1).

Definition set_value (map : Map K V) (i : Z) (v : V) : Map K V :=
  {| hashCodes := map.(hashCodes); keys := map.(keys); handles := map.(handles); nextHandle := map.(nextHandle);
     values := array_set map.(values) i v; count := map.(count); map_capacity := map.(map_capacity) |}.

Definition Map_put (k : K) (value : V) (map : Map K V) : Map K V * Z :=
  let capacity' := if map.(count) =? map.(map_capacity) then u32 (map.(map_capacity) + 10)
                   else map.(map_capacity) in
  let map := {| hashCodes := map.(hashCodes); keys := map.(keys); handles := map.(handles);
                nextHandle := map.(nextHandle); values := map.(values); count := map.(count);
                map_capacity := capacity' |} in
  let i := Map_indexForKey k map in
  let '(map, i) :=
    if i <? 0 then
      let i := map.(count) in
      ({| hashCodes := array_set map.(hashCodes) i (Map_hash k); keys := array_set map.(keys) i k;
          handles := array_set map.(handles) i map.(nextHandle); nextHandle := u32 (map.(nextHandle) + 1);
          values := map.(values); count := u32 (map.(count) + 1); map_capacity := map.(map_capacity) |}, i)
    else (map, i) in
  (set_value map i value, i).
End map.

(** ** The finite map *)
Section refinement.
  Context {K V : Type} {key : MapKey K} {laws : MapKeyLaws K} `{Countable K} {k0 : Inhabited K} {v0 : Inhabited V}.

(** The rows in use are those of [g]; their handles increase. *)
Record map_rep (m : Map K V) (g : gmap K (Z * V)) : Prop := {
  rep_count : 0 <= m.(count) <= m.(nextHandle);
  rep_next : m.(nextHandle) < 2 ^ 31;
  rep_row : forall i, 0 <= i < m.(count) ->
    key_valid (m.(keys) i) /\ m.(hashCodes) i = Map_hash (m.(keys) i) /\
    g !! m.(keys) i = Some (m.(handles) i, m.(values) i) /\ m.(handles) i < m.(nextHandle);
  rep_all : forall k h v, g !! k = Some (h, v) ->
    exists i, 0 <= i < m.(count) /\ m.(keys) i = k /\ m.(handles) i = h /\ m.(values) i = v;
  rep_sorted : forall i j, 0 <= i < j -> j < m.(count) -> m.(handles) i < m.(handles) j
}.

Lemma new_rep : map_rep Map_new ∅.
Proof. split; cbn; try lia. intros k h v Hk. rewrite lookup_empty in Hk. done. Qed.

(** The handle is that of one row at most, and so is the key. *)
Lemma handles_inj m g i j : map_rep m g -> 0 <= i < m.(count) -> 0 <= j < m.(count) ->
  m.(handles) i = m.(handles) j -> i = j.
Proof.
  intros Hm Hi Hj E. destruct (Ztrichotomy i j) as [?|[?|?]]; [|done|].
  - pose proof (rep_sorted m g Hm i j). lia.
  - pose proof (rep_sorted m g Hm j i). lia.
Qed.

Lemma keys_inj m g i j : map_rep m g -> 0 <= i < m.(count) -> 0 <= j < m.(count) ->
  m.(keys) i = m.(keys) j -> i = j.
Proof.
  intros Hm Hi Hj E. apply (handles_inj m g); [done..|].
  destruct (rep_row m g Hm i Hi) as (_ & _ & Ei & _), (rep_row m g Hm j Hj) as (_ & _ & Ej & _). congruence.
Qed.

Lemma for_until_search {R} (p : Z -> bool) (f : Z -> R) n lo :
  match for_until n lo (fun i _ => if p i then inr (f i) else inl tt) tt with
  | inr r => exists i, lo <= i < lo + Z.of_nat n /\ p i = true /\ r = f i
  | inl _ => forall i, lo <= i < lo + Z.of_nat n -> p i = false
  end.
Proof.
  revert lo. induction n as [|n IH]; intros lo; cbn [for_until]; [lia|].
  destruct (p lo) eqn:E; [exists lo; split_and!; [lia..|done|done]|].
  specialize (IH (lo + 1)). destruct (for_until _ _ _ _).
  - intros i Hi. destruct (decide (i = lo)) as [->|]; [done|]. apply IH. lia.
  - destruct IH as (i & Hi & H1 & H2). exists i. split; [lia|done].
Qed.

Lemma indexForKey_spec m g k : map_rep m g -> key_valid k ->
  match g !! k with
  | Some (h, v) => let i := Map_indexForKey k m in
      0 <= i < m.(count) /\ m.(keys) i = k /\ m.(handles) i = h /\ m.(values) i = v
  | None => Map_indexForKey k m = -1
  end.
Proof.
  intros Hm Hk. unfold Map_indexForKey.
  pose proof (for_until_search (fun i => (hashCodes m i =? Map_hash k) && (Map_compare k (keys m i) =? 0)) id
    (Z.to_nat (count m)) 0) as Hs. unfold id in Hs. cbn beta in Hs. pose proof (rep_count m g Hm).
  destruct (for_until _ _ _ _).
  - destruct (g !! k) as [[h v]|] eqn:E; [|done]. destruct (rep_all m g Hm k h v E) as (i & Hi & Ek & _ & _).
    specialize (Hs i ltac:(lia)). destruct (rep_row m g Hm i Hi) as (Hv & Hh & _).
    rewrite Hh, Ek, Z.eqb_refl, (proj2 (compare_eq k k Hk Hk) eq_refl) in Hs. done.
  - destruct Hs as (i & Hi & Hp & ->). apply andb_true_iff in Hp as [_ Hp%Z.eqb_eq].
    destruct (rep_row m g Hm i ltac:(lia)) as (Hv & _ & Hg & _). apply compare_eq in Hp; [|done..]. rewrite Hp, Hg.
    split_and!; done || lia.
Qed.

(** Bisection over sorted handles finds the row, if it is in the range. *)
Lemma indexForHandle_loop_spec m g h : map_rep m g -> forall fuel base n,
  0 <= base -> 0 <= n < 2 ^ (Z.of_nat fuel - 1) -> (0 < fuel)%nat -> base + n <= m.(count) ->
  let r := indexForHandle_loop fuel h m base n in
  (r = -1 /\ forall i, base <= i < base + n -> m.(handles) i <> h) \/
  (base <= r < base + n /\ m.(handles) r = h).
Proof.
  intros Hm. induction fuel as [|fuel IH]; intros base n Hb Hn Hf Hc; [lia|]. cbn [indexForHandle_loop].
  destruct (Z.eqb_spec n 0) as [->|Hn0]; [left; split; [done|lia]|].
  destruct fuel as [|fuel'] eqn:Ef; [cbn in Hn; lia|]. rewrite <-Ef in *.
  assert (2 ^ (Z.of_nat (S fuel) - 1) = 2 * 2 ^ (Z.of_nat fuel - 1)) as Epow
    by (rewrite <-Z.pow_succ_r by lia; f_equal; lia).
  pose proof (Z.div_mod n 2 ltac:(lia)). pose proof (Z.mod_pos_bound n 2 ltac:(lia)).
  pose proof (Z.div_mod (n - 1) 2 ltac:(lia)). pose proof (Z.mod_pos_bound (n - 1) 2 ltac:(lia)).
  set (mid := base + n / 2).
  assert (forall i, 0 <= i < mid -> handles m i < handles m mid) as Hlo
    by (intros i Hi; apply (rep_sorted m g Hm); unfold mid in *; lia).
  assert (forall i, mid < i < count m -> handles m mid < handles m i) as Hhi
    by (intros i Hi; apply (rep_sorted m g Hm); unfold mid in *; lia).
  destruct (Z.leb_spec (handles m mid) h) as [Hle|Hgt].
  - destruct (Z.eqb_spec (handles m mid) h) as [E|Hne]; [right; unfold mid; split; [lia|done]|].
    destruct (IH (base + (n / 2 + 1)) ((n - 1) / 2) ltac:(lia) ltac:(lia) ltac:(lia) ltac:(lia)) as [[Er Hr]|[Hr Er]].
    + left. split; [done|]. intros i Hi E. destruct (Z.le_gt_cases i mid) as [Hi'|Hi'].
      * destruct (decide (i = mid)) as [->|]; [done|]. specialize (Hlo i). lia.
      * apply (Hr i); [unfold mid in *; lia|done].
    + right. split; [lia|done].
  - destruct (IH base (n / 2) ltac:(lia) ltac:(lia) ltac:(lia) ltac:(lia)) as [[Er Hr]|[Hr Er]].
    + left. split; [done|]. intros i Hi E. destruct (Z.le_gt_cases mid i) as [Hi'|Hi'].
      * destruct (decide (i = mid)) as [->|]; [lia|]. specialize (Hhi i). lia.
      * apply (Hr i); [unfold mid in *; lia|done].
    + right. split; [lia|done].
Qed.

Lemma indexForHandle_spec m g h : map_rep m g ->
  (Map_indexForHandle h m = -1 /\ forall k v, g !! k <> Some (h, v)) \/
  (0 <= Map_indexForHandle h m < m.(count) /\ m.(handles) (Map_indexForHandle h m) = h).
Proof.
  intros Hm. pose proof (rep_count m g Hm). pose proof (rep_next m g Hm).
  destruct (indexForHandle_loop_spec m g h Hm 33 0 (count m) ltac:(lia) ltac:(cbn; lia) ltac:(lia) ltac:(lia)) as [[Er Hr]|Hr].
  - left. split; [done|]. intros k v E. destruct (rep_all m g Hm k h v E) as (i & Hi & _ & Eh & _).
    apply (Hr i); [lia|done].
  - right. done.
Qed.

(** A new row at the end. *)
Lemma put_new m g k v : map_rep m g -> key_valid k -> g !! k = None -> m.(nextHandle) + 1 < 2 ^ 31 ->
  exists m', Map_put k v m = (m', m.(count)) /\ map_rep m' (<[k := (m.(nextHandle), v)]> g) /\
    m'.(nextHandle) = m.(nextHandle) + 1 /\ m'.(count) = m.(count) + 1 /\ m'.(values) m.(count) = v /\
    m'.(handles) m.(count) = m.(nextHandle).
Proof.
  intros Hm Hk Hg Hn. pose proof (rep_count m g Hm). pose proof (indexForKey_spec m g k Hm Hk) as Hi. rewrite Hg in Hi.
  unfold Map_put. set (m1 := {| hashCodes := hashCodes m |}).
  change (Map_indexForKey k m1) with (Map_indexForKey k m). rewrite Hi. cbn [Z.ltb Z.compare].
  eexists. split; [done|]. cbn [set_value m1 hashCodes keys handles nextHandle values count map_capacity].
  rewrite !u32_small by lia. unfold array_set.
  split; [|split_and!; try done; rewrite Z.eqb_refl; done].
  split; cbn [set_value m1 hashCodes keys handles nextHandle values count map_capacity]; rewrite ?u32_small by lia.
  - lia.
  - lia.
  - intros i Hir. unfold array_set. destruct (Z.eqb_spec i (count m)) as [->|].
    + rewrite lookup_insert_eq. split_and!; done || lia.
    + destruct (rep_row m g Hm i ltac:(lia)) as (H1 & H2 & H3 & H4).
      rewrite lookup_insert_ne by congruence. split_and!; done || lia.
  - intros k' h' v'. destruct (decide (k' = k)) as [->|Hne].
    + rewrite lookup_insert_eq. intros [= <- <-]. exists (count m). unfold array_set. rewrite Z.eqb_refl.
      split_and!; done || lia.
    + rewrite lookup_insert_ne by done. intros E. destruct (rep_all m g Hm _ _ _ E) as (i & Hir & E1 & E2 & E3).
      exists i. unfold array_set. rewrite (proj2 (Z.eqb_neq i (count m))) by lia. split_and!; done || lia.
  - intros i j Hij Hj. unfold array_set. rewrite (proj2 (Z.eqb_neq i (count m))) by lia.
    destruct (Z.eqb_spec j (count m)) as [->|].
    + apply (rep_row m g Hm). lia.
    + apply (rep_sorted m g Hm); lia.
Qed.

(** A new value in the row of a key. *)
Lemma set_value_rep m g i v : map_rep m g -> 0 <= i < m.(count) ->
  map_rep (set_value m i v) (<[m.(keys) i := (m.(handles) i, v)]> g).
Proof.
  intros Hm Hi. pose proof Hm as [H1 H2 H3 H4 H5].
  split; cbn [set_value hashCodes keys handles nextHandle values count]; try done.
  - intros j Hj. destruct (H3 j Hj) as (A & B & C & D). unfold array_set. destruct (Z.eqb_spec j i) as [->|Hne].
    + rewrite lookup_insert_eq. done.
    + rewrite lookup_insert_ne; [done|]. intros E. apply Hne. symmetry. by apply (keys_inj m g).
  - intros k h v'. destruct (decide (k = keys m i)) as [->|Hne].
    + rewrite lookup_insert_eq. intros [= <- <-]. exists i. unfold array_set. rewrite Z.eqb_refl. done.
    + rewrite lookup_insert_ne by done. intros E. destruct (H4 _ _ _ E) as (j & Hj & <- & <- & <-).
      exists j. unfold array_set. destruct (Z.eqb_spec j i) as [->|]; done.
Qed.

Lemma put_old m g k v h v' : map_rep m g -> key_valid k -> g !! k = Some (h, v') ->
  exists m' i, Map_put k v m = (m', i) /\ map_rep m' (<[k := (h, v)]> g) /\ m'.(nextHandle) = m.(nextHandle).
Proof.
  intros Hm Hk Hg. pose proof (indexForKey_spec m g k Hm Hk) as Hi. rewrite Hg in Hi. destruct Hi as (Hir & Ek & Eh & _).
  unfold Map_put. set (m1 := {| hashCodes := hashCodes m |}).
  change (Map_indexForKey k m1) with (Map_indexForKey k m).
  rewrite (proj2 (Z.ltb_ge _ _)) by lia. eexists _, _. split; [done|]. split; [|done].
  rewrite <-Eh, <-Ek at 1.
  assert (map_rep m1 g) as Hm1 by (destruct Hm; split; done).
  pose proof (set_value_rep m1 g (Map_indexForKey k m) v Hm1 Hir) as H1. cbn [m1 keys handles] in H1.
  rewrite Ek in *. exact H1.
Qed.

(** The rows behind a removed one move up. *)
Definition row_after (i j : Z) : Z := if j <? i then j else j + 1.

Lemma remove_rep m g i : map_rep m g -> 0 <= i < m.(count) ->
  exists m', Map_remove i m = (m', 0) /\ map_rep m' (delete (m.(keys) i) g) /\ m'.(nextHandle) = m.(nextHandle) /\
    m'.(count) = m.(count) - 1 /\
    forall j, 0 <= j < m'.(count) ->
      m'.(keys) j = m.(keys) (row_after i j) /\ m'.(handles) j = m.(handles) (row_after i j) /\
      m'.(values) j = m.(values) (row_after i j) /\ m'.(hashCodes) j = m.(hashCodes) (row_after i j).
Proof.
  intros Hm Hi. pose proof (rep_count m g Hm). pose proof (rep_next m g Hm).
  assert (exists m', Map_remove i m = (m', 0) /\ nextHandle m' = nextHandle m /\ count m' = count m - 1 /\
    forall j, 0 <= j < m'.(count) ->
      m'.(keys) j = m.(keys) (row_after i j) /\ m'.(handles) j = m.(handles) (row_after i j) /\
      m'.(values) j = m.(values) (row_after i j) /\ m'.(hashCodes) j = m.(hashCodes) (row_after i j)) as (m' & E & En & Ec & Hrow).
  { unfold Map_remove. rewrite (s32_small (count m)), (s32_small (count m - 1)) by lia.
    destruct (Z.ltb_spec i (count m - 1)) as [Hlt|Hge].
    - rewrite (proj2 (Z.leb_le 0 i)) by lia. cbn [andb]. eexists. split; [done|]. split; [done|].
      cbn [count keys handles values hashCodes]. rewrite u32_small by lia. split; [done|]. intros j Hj.
      unfold array_shift, row_after.
      assert ((i <=? j) && (j <? i + (count m - i - 1)) = negb (j <? i)) as -> by lia.
      destruct (j <? i); done.
    - rewrite andb_false_r, (proj2 (Z.eqb_eq i (count m - 1))) by lia. eexists. split; [done|]. split; [done|].
      cbn [set_count count keys handles values hashCodes]. rewrite u32_small by lia. split; [done|]. intros j Hj.
      unfold row_after. rewrite (proj2 (Z.ltb_lt j i)) by lia. done. }
  exists m'. split; [done|]. split; [|done].
  assert (forall j, 0 <= j < count m' -> 0 <= row_after i j < count m /\ row_after i j <> i) as Hr
    by (intros j Hj; unfold row_after; destruct (Z.ltb_spec j i); lia).
  split.
  - pose proof (rep_row m g Hm (count m - 1) ltac:(lia)) as (_ & _ & _ & Hh).
    rewrite En, Ec. lia.
  - rewrite En. done.
  - intros j Hj. destruct (Hrow j Hj) as (-> & -> & -> & ->), (Hr j Hj) as [Hj1 Hj2].
    destruct (rep_row m g Hm _ Hj1) as (A & B & C & D). rewrite En, lookup_delete_ne; [done|].
    intros E'. apply Hj2. symmetry. by apply (keys_inj m g).
  - intros k h v. rewrite lookup_delete_Some. intros [Hne E']. destruct (rep_all m g Hm _ _ _ E') as (j & Hj & <- & <- & <-).
    assert (j <> i) as Hji by congruence. set (j' := if j <? i then j else j - 1).
    assert (row_after i j' = j /\ 0 <= j' < count m') as [Ej Hj'].
    { unfold j', row_after. destruct (Z.ltb_spec j i); [rewrite (proj2 (Z.ltb_lt j i)) by lia|rewrite (proj2 (Z.ltb_ge (j - 1) i)) by lia]; lia. }
    exists j'. destruct (Hrow j' Hj') as (-> & -> & -> & _). rewrite Ej. done.
  - intros j1 j2 Hj Hj2. destruct (Hrow j1 ltac:(lia)) as (_ & -> & _), (Hrow j2 ltac:(lia)) as (_ & -> & _).
    apply (rep_sorted m g Hm); unfold row_after; destruct (Z.ltb_spec j1 i), (Z.ltb_spec j2 i); lia.
Qed.

(** ** Sequences of operations *)
Inductive table_op := Put (k : K) (v : V) | Remove (k : K).

(** A row is removed by the index of its key, if it has one. *)
Definition do_table_op (m : Map K V) (op : table_op) : Map K V :=
  match op with
  | Put k v => fst (Map_put k v m)
  | Remove k => let i := Map_indexForKey k m in if i =? -1 then m else fst (Map_remove i m)
  end.

(** The finite map, and how many handles were given out. *)
Definition spec_table_op (s : gmap K (Z * V) * Z) (op : table_op) : gmap K (Z * V) * Z :=
  let '(g, next) := s in
  match op with
  | Put k v =>
      match g !! k with
      | Some (h, _) => (<[k := (h, v)]> g, next)
      | None => (<[k := (next, v)]> g, next + 1)
      end
  | Remove k => (delete k g, next)
  end.

Definition table_op_ok (op : table_op) : Prop :=
  match op with Put k _ => key_valid k | Remove k => key_valid k end.

Lemma do_table_op_rep m g op : map_rep m g -> table_op_ok op -> m.(nextHandle) + 1 < 2 ^ 31 ->
  map_rep (do_table_op m op) (spec_table_op (g, m.(nextHandle)) op).1 /\
  (do_table_op m op).(nextHandle) = (spec_table_op (g, m.(nextHandle)) op).2 /\
  (do_table_op m op).(nextHandle) <= m.(nextHandle) + 1.
Proof.
  intros Hm Hop Hn. destruct op as [k v|k]; cbn [do_table_op spec_table_op table_op_ok] in *.
  - destruct (g !! k) as [[h v']|] eqn:E; cbn [fst snd].
    + destruct (put_old m g k v h v' Hm Hop E) as (m' & i & -> & H1 & H2). cbn [fst]. rewrite H2. split_and!; done || lia.
    + destruct (put_new m g k v Hm Hop E Hn) as (m' & -> & H1 & H2 & _). cbn [fst]. rewrite H2. split_and!; done || lia.
  - pose proof (indexForKey_spec m g k Hm Hop) as Hi. cbn [fst snd]. destruct (g !! k) as [[h v]|] eqn:E.
    + destruct Hi as (Hir & Ek & _). rewrite (proj2 (Z.eqb_neq _ _)) by lia.
      destruct (remove_rep m g _ Hm Hir) as (m' & -> & H1 & H2 & _). cbn [fst]. rewrite Ek in H1. split_and!; done || lia.
    + rewrite Hi, Z.eqb_refl, delete_id by done. split_and!; done || lia.
Qed.

(** C30: the table implements a finite map. After any sequence of puts and
    removals, a key is found exactly if the map has it, at a row that holds its
    handle and its value; bisection over the handles finds the same row, and no
    row for any other handle. A key gets the number of handles given out before
    it as its handle and keeps it until it is removed, so a handle is never given
    to a second key. This is for up to 2^31 - 2 operations: the next handle is a
    32-bit counter, which would come round again after 2^32 new keys. *)
Theorem Map_refines (ops : list table_op) :
  List.Forall table_op_ok ops -> Z.of_nat (List.length ops) < 2 ^ 31 - 1 ->
  let m := fold_left do_table_op ops Map_new in
  let '(g, next) := fold_left spec_table_op ops (∅, 0) in
  (forall k, key_valid k ->
    match g !! k with
    | Some (h, v) => let i := Map_indexForKey k m in
        0 <= i < m.(count) /\ m.(handles) i = h /\ m.(values) i = v /\ Map_indexForHandle h m = i
    | None => Map_indexForKey k m = -1
    end) /\
  (forall h, (forall k v, g !! k <> Some (h, v)) -> Map_indexForHandle h m = -1) /\
  m.(nextHandle) = next.
Proof.
  intros Hall Hlen.
  assert (forall n m g, map_rep m g -> m.(nextHandle) <= n -> n + Z.of_nat (List.length ops) < 2 ^ 31 - 1 ->
    map_rep (fold_left do_table_op ops m) (fold_left spec_table_op ops (g, m.(nextHandle))).1 /\
    (fold_left do_table_op ops m).(nextHandle) = (fold_left spec_table_op ops (g, m.(nextHandle))).2) as Hfold.
  { clear Hlen. induction Hall as [|op ops Hop Hall IH]; intros n m g Hm Hn Hlen; cbn [fold_left]; [done|].
    cbn [List.length] in Hlen. destruct (do_table_op_rep m g op Hm Hop ltac:(lia)) as (H1 & H2 & H3).
    rewrite (surjective_pairing (spec_table_op _ op)), <-H2. apply (IH (n + 1)); [done|lia|lia]. }
  destruct (Hfold 0 Map_new ∅ new_rep ltac:(cbn; lia) ltac:(lia)) as [Hm Hn]. cbn [Map_new nextHandle] in Hm, Hn.
  cbn zeta. destruct (fold_left spec_table_op ops (∅, 0)) as [g next]. cbn [fst snd] in *.
  set (m := fold_left do_table_op ops Map_new) in *. split_and!; [|intros h Hh|done].
  - intros k Hk. pose proof (indexForKey_spec m g k Hm Hk) as Hi. destruct (g !! k) as [[h v]|] eqn:E; [|done].
    destruct Hi as (Hir & Ek & Eh & Ev). split_and!; try done || lia.
    destruct (indexForHandle_spec m g h Hm) as [[_ Hno]|[Hr Er]]; [by apply Hno in E|].
    apply (handles_inj m g); [done..|congruence].
  - destruct (indexForHandle_spec m g h Hm) as [[? _]|[Hr Er]]; [done|]. exfalso.
    destruct (rep_row m g Hm _ Hr) as (_ & _ & Hg & _). rewrite Er in Hg. by apply Hh in Hg.
Qed.
End refinement.

(** Removing the index of an absent key from an empty table takes one from its
    count of 0. *)
Lemma remove_from_empty {K V} `{Inhabited K, Inhabited V} :
  (fst (Map_remove (-1) (Map_new : Map K V))).(count) = UINT32_MAX.
Proof. reflexivity. Qed.

Definition demo_table_ops : list (@table_op (list Z) Z) :=
  [Put [1;1;1;1] 10; Put [2;2;2;2] 20; Remove [1;1;1;1]; Put [1;1;1;1] 30; Put [2;2;2;2] 40].

(** The first key was removed and came back: its handle is a new one. *)
Lemma Map_refines_witness :
  let m := fold_left (@do_table_op _ _ (@bytes_key x86)) demo_table_ops Map_new in
  Map_indexForHandle 2 m = 1 /\ m.(keys) 1 = [1;1;1;1] /\ m.(values) 1 = 30 /\ Map_indexForHandle 0 m = -1.
Proof.
  intros m. destruct (@Map_refines _ _ (@bytes_key x86) (@bytes_key_laws x86 4) _ _ _ _ demo_table_ops) as (_ & H2 & _).
  - unfold demo_table_ops. repeat constructor.
  - reflexivity.
  - split_and!; [vm_compute; reflexivity..|]. apply H2. intros k v E.
    assert (bool_decide (map_Forall (fun _ x => fst x <> 0)
      (fold_left spec_table_op demo_table_ops (∅ : gmap (list Z) (Z * Z), 0)).1) = true) as Hf
      by (vm_compute; reflexivity).
    apply bool_decide_eq_true in Hf. apply (Hf k (0, v) E). reflexivity.
Defined.
