(* ===== verification/SessionManager.v ===== *)
(** * Sessions by address (interface/SessionManager.c)

    The session manager keeps a CryptoAuth session for every IPv6 address that
    packets are exchanged with, and gives each a handle by which the other end
    refers to it. A session's interface is the state of its CryptoAuth wrapper; a
    pointer to a session is its index in the map, as in the code, and is good
    until the map changes. The time is an argument. *)
From stdpp Require Import gmap.
From S2P Require Import Prelude Memory Endian Bits NaCl CryptoAuth Map.
Open Scope Z_scope.

Definition SESSION_TIMEOUT_SECONDS : Z := 600.

(** The 16 bytes of [struct Ip6]. *)
Definition Ip6 : Type := list Z.
Definition Ip6_valid (ip6 : Ip6) : Prop := length ip6 = 16%nat.

Record SessionManager_Session := {
  iface : Wrapper;
  lastMessageTime : Z;
  receiveHandle_be : Z;
  sendHandle_be : Z;
  session_version : Z;
  session_ip6 : Ip6
}.

Record SessionManager := { ifaceMap : Map Ip6 SessionManager_Session }.

Definition set_iface (s : SessionManager_Session) (w : Wrapper) : SessionManager_Session :=
  {| iface := w; lastMessageTime := s.(lastMessageTime); receiveHandle_be := s.(receiveHandle_be);
     sendHandle_be := s.(sendHandle_be); session_version := s.(session_version); session_ip6 := s.(session_ip6) |}.
Definition set_lastMessageTime (s : SessionManager_Session) (t : Z) : SessionManager_Session :=
  {| iface := s.(iface); lastMessageTime := t; receiveHandle_be := s.(receiveHandle_be);
     sendHandle_be := s.(sendHandle_be); session_version := s.(session_version); session_ip6 := s.(session_ip6) |}.
Definition set_identity (s : SessionManager_Session) (handle_be : Z) (ip6 : Ip6) : SessionManager_Session :=
  {| iface := s.(iface); lastMessageTime := s.(lastMessageTime); receiveHandle_be := handle_be;
     sendHandle_be := s.(sendHandle_be); session_version := s.(session_version); session_ip6 := ip6 |}.

Section sessions.
  Context {P : Platform}.

Definition new_session (cryptoKey : option (list Z)) (now : Z) : SessionManager_Session :=
  {| iface := CryptoAuth_wrapInterface 0 0 cryptoKey false true now; lastMessageTime := u32 now;
     receiveHandle_be := 0; sendHandle_be := 0; session_version := 0; session_ip6 := repeat 0 16 |}.

#[export] Instance Ip6_inhabited : Inhabited Ip6 := populate (repeat 0 16).
#[export] Instance Session_inhabited : Inhabited SessionManager_Session := populate (new_session None 0).

Definition SessionManager_new : SessionManager := {| ifaceMap := Map_new |}.

Definition expired (nowSecs : Z) (s : SessionManager_Session) : bool :=
  s.(lastMessageTime) <? u64 (nowSecs - SESSION_TIMEOUT_SECONDS).

(** [n] rows are left from [i] on. *)
Fixpoint cleanup_loop (n : nat) (nowSecs : Z) (map : Map Ip6 SessionManager_Session) (i : Z)
    : Map Ip6 SessionManager_Session :=
  match n with
  | O => map
  | S n =>
      if expired nowSecs (map.(values) i)
      then cleanup_loop n nowSecs (fst (Map_remove i map)) i
      else cleanup_loop n nowSecs map (i + 1)
  end.

Definition cleanup (nowSecs : Z) (sm : SessionManager) : SessionManager :=
  {| ifaceMap := cleanup_loop (Z.to_nat sm.(ifaceMap).(count)) nowSecs sm.(ifaceMap) 0 |}.

Definition SessionManager_getSession (lookupKey : Ip6) (cryptoKey : option (list Z)) (now : Z) (sm : SessionManager)
    : SessionManager * Z :=
  let ifaceIndex := Map_indexForKey lookupKey sm.(ifaceMap) in
  if ifaceIndex =? -1 then
    let sm := cleanup now sm in
    let '(map, index) := Map_put lookupKey (new_session cryptoKey now) sm.(ifaceMap) in
    let sp := set_identity (map.(values) index) (Endian_hostToBigEndian32 (map.(handles) index)) lookupKey in
    ({| ifaceMap := set_value map index sp |}, index)
  else
    let sp := set_lastMessageTime (sm.(ifaceMap).(values) ifaceIndex) (u32 now) in
    let herPubKey := CryptoAuth_getHerPublicKey sp.(iface) in
    let sp :=
      match cryptoKey with
      | Some key =>
          if Bits_isZero (of_list herPubKey) 0 32 then set_iface sp (set_herPerminentPubKey sp.(iface) key) else sp
      | None => sp
      end in
    ({| ifaceMap := set_value sm.(ifaceMap) ifaceIndex sp |}, ifaceIndex).

(** The index of the session, or NULL. *)
Definition SessionManager_sessionForHandle (handle : Z) (sm : SessionManager) : option Z :=
  let index := Map_indexForHandle handle sm.(ifaceMap) in
  if index =? -1 then None else Some index.
End sessions.

(** ** The sessions as a finite map *)
Section spec.
  Context {P : Platform}.
  #[local] Existing Instance bytes_key.
#[local] Instance Ip6_laws : MapKeyLaws Ip6 := bytes_key_laws 16.

#[local] Abbreviation sessions := (gmap Ip6 (Z * SessionManager_Session)).

(** Every session knows its address and its handle. *)
Record sm_ok (sm : SessionManager) (g : sessions) : Prop := {
  sm_rep : map_rep sm.(ifaceMap) g;
  sm_identity : forall k h s, g !! k = Some (h, s) ->
    s.(session_ip6) = k /\ s.(receiveHandle_be) = Endian_hostToBigEndian32 h
}.

Definition live_sessions (now : Z) (g : sessions) : sessions :=
  filter (fun '(_, (_, s)) => expired now s = false) g.

Lemma live_lookup now g k h s : live_sessions now g !! k = Some (h, s) <-> g !! k = Some (h, s) /\ expired now s = false.
Proof. unfold live_sessions. rewrite map_lookup_filter_Some. done. Qed.

Lemma live_delete now g k h s : g !! k = Some (h, s) -> expired now s = true ->
  live_sessions now (delete k g) = live_sessions now g.
Proof.
  intros Hk He. apply map_eq. intros k'. apply option_eq. intros [h' s']. rewrite !live_lookup, lookup_delete_Some.
  split; [tauto|]. intros [Hk' He']. split; [|done]. split; [|done]. intros ->. congruence.
Qed.

Lemma live_all now g : (forall k h s, g !! k = Some (h, s) -> expired now s = false) -> live_sessions now g = g.
Proof.
  intros Hall. apply map_eq. intros k. apply option_eq. intros [h s]. rewrite live_lookup. split; [tauto|].
  intros Hk. split; [done|]. by apply (Hall k h).
Qed.

Lemma cleanup_loop_spec now n : forall m g i, map_rep m g -> 0 <= i <= m.(count) -> n = Z.to_nat (m.(count) - i) ->
  (forall j, 0 <= j < i -> expired now (m.(values) j) = false) ->
  map_rep (cleanup_loop n now m i) (live_sessions now g) /\ (cleanup_loop n now m i).(nextHandle) = m.(nextHandle).
Proof.
  induction n as [|n IH]; intros m g i Hm Hi En Hlive; cbn [cleanup_loop].
  - rewrite live_all; [done|]. intros k h s Hk. destruct (rep_all m g Hm _ _ _ Hk) as (j & Hj & _ & _ & <-).
    apply Hlive. lia.
  - destruct (expired now (values m i)) eqn:He.
    + destruct (remove_rep m g i Hm ltac:(lia)) as (m' & -> & H1 & H2 & H3 & H4). cbn [fst].
      destruct (rep_row m g Hm i ltac:(lia)) as (_ & _ & Hg & _).
      rewrite <-(live_delete now g _ _ _ Hg He), <-H2. apply IH; [done|lia|lia|].
      intros j Hj. destruct (H4 j ltac:(lia)) as (_ & _ & -> & _). unfold row_after.
      rewrite (proj2 (Z.ltb_lt j i)) by lia. apply Hlive. lia.
    + apply IH; [done|lia|lia|]. intros j Hj. destruct (decide (j = i)) as [->|]; [done|]. apply Hlive. lia.
Qed.

Lemma cleanup_ok now sm g : sm_ok sm g ->
  sm_ok (cleanup now sm) (live_sessions now g) /\
  (cleanup now sm).(ifaceMap).(nextHandle) = sm.(ifaceMap).(nextHandle).
Proof.
  intros [Hm Hid]. pose proof (rep_count _ _ Hm).
  destruct (cleanup_loop_spec now (Z.to_nat (count (ifaceMap sm))) (ifaceMap sm) g 0 Hm) as [H1 H2]; [lia|lia|lia|].
  split; [|exact H2]. split; [exact H1|]. intros k h s [Hk _]%live_lookup. by apply Hid.
Qed.

(** A session as it is for a packet of now: its time, and its key if it had
    none. *)
Definition touched (cryptoKey : option (list Z)) (now : Z) (s : SessionManager_Session) : SessionManager_Session :=
  let s := set_lastMessageTime s (u32 now) in
  match cryptoKey with
  | Some key =>
      if Bits_isZero (of_list s.(iface).(herPerminentPubKey)) 0 32
      then set_iface s (set_herPerminentPubKey s.(iface) key) else s
  | None => s
  end.

Definition created (k : Ip6) (cryptoKey : option (list Z)) (now handle : Z) : SessionManager_Session :=
  set_identity (new_session cryptoKey now) (Endian_hostToBigEndian32 handle) k.

(** The map after a session was asked for. *)
Definition after_get (k : Ip6) (cryptoKey : option (list Z)) (now : Z) (next : Z) (g : sessions)
    : sessions :=
  match g !! k with
  | Some (h, s) => <[k := (h, touched cryptoKey now s)]> g
  | None => <[k := (next, created k cryptoKey now next)]> (live_sessions now g)
  end.

Lemma touched_identity ck now s :
  (touched ck now s).(session_ip6) = s.(session_ip6) /\ (touched ck now s).(receiveHandle_be) = s.(receiveHandle_be).
Proof. unfold touched. destruct ck; [|done]. case_match; done. Qed.

Lemma getSession_ok k ck now sm g : sm_ok sm g -> Ip6_valid k -> sm.(ifaceMap).(nextHandle) + 1 < 2 ^ 31 ->
  exists sm' i, SessionManager_getSession k ck now sm = (sm', i) /\
    let g' := after_get k ck now sm.(ifaceMap).(nextHandle) g in
    sm_ok sm' g' /\ 0 <= i < sm'.(ifaceMap).(count) /\
    g' !! k = Some (sm'.(ifaceMap).(handles) i, sm'.(ifaceMap).(values) i) /\
    sm.(ifaceMap).(nextHandle) <= sm'.(ifaceMap).(nextHandle) <= sm.(ifaceMap).(nextHandle) + 1.
Proof.
  intros Hok Hk Hn. pose proof Hok as [Hm Hid]. unfold SessionManager_getSession, after_get.
  pose proof (indexForKey_spec _ _ k Hm Hk) as Hi. destruct (g !! k) as [[h s]|] eqn:Eg.
  - destruct Hi as (Hir & Ek & Eh & Es). set (i := Map_indexForKey k (ifaceMap sm)) in *.
    rewrite (proj2 (Z.eqb_neq i (-1))) by lia. eexists _, i. split; [done|].
    fold (touched ck now (values (ifaceMap sm) i)). rewrite Es.
    pose proof (set_value_rep _ _ i (touched ck now s) Hm Hir) as Hm'. rewrite Ek, Eh in Hm'.
    split; [split|].
    + exact Hm'.
    + intros k' h' s'. destruct (decide (k' = k)) as [->|Hne].
      * rewrite lookup_insert_eq. intros [= <- <-]. destruct (touched_identity ck now s) as [-> ->]. by apply Hid.
      * rewrite lookup_insert_ne by done. apply Hid.
    + cbn [ifaceMap set_value count handles values nextHandle]. unfold array_set. rewrite Z.eqb_refl, lookup_insert_eq, Eh.
      split_and!; done || lia.
  - rewrite Hi, Z.eqb_refl. destruct (cleanup_ok now sm g Hok) as [[Hc Hcid] En].
    assert (live_sessions now g !! k = None) as El.
    { destruct (live_sessions now g !! k) as [[h s]|] eqn:E; [|done]. apply live_lookup in E as [E _]. congruence. }
    destruct (put_new _ _ k (new_session ck now) Hc Hk El ltac:(lia)) as (m' & -> & Hm' & Hn' & Hc' & Hv' & Hh').
    set (i := count (ifaceMap (cleanup now sm))) in *. pose proof (rep_count _ _ Hc). rewrite Hv', Hh', En in *.
    fold (created k ck now (nextHandle (ifaceMap sm))). eexists _, i. split; [done|].
    assert (keys m' i = k) as Eki.
    { pose proof (lookup_insert_eq (live_sessions now g) k (nextHandle (ifaceMap sm), new_session ck now)) as E.
      destruct (rep_all _ _ Hm' _ _ _ E) as (j & Hj & <- & Ehj & _). f_equal.
      apply (handles_inj _ _ _ _ Hm'); [lia|done|congruence]. }
    pose proof (set_value_rep _ _ i (created k ck now (nextHandle (ifaceMap sm))) Hm' ltac:(lia)) as Hs.
    rewrite Eki, Hh', insert_insert_eq in Hs. split; [split|].
    + exact Hs.
    + intros k' h' s'. destruct (decide (k' = k)) as [->|Hne].
      * rewrite lookup_insert_eq. intros [= <- <-]. done.
      * rewrite lookup_insert_ne by done. apply Hcid.
    + cbn [ifaceMap set_value count handles values nextHandle]. unfold array_set.
      rewrite Z.eqb_refl, lookup_insert_eq, Hh'. split_and!; done || lia.
Qed.

Lemma sessionForHandle_spec h sm g : sm_ok sm g ->
  match SessionManager_sessionForHandle h sm with
  | Some i => exists k, g !! k = Some (h, sm.(ifaceMap).(values) i)
  | None => forall k s, g !! k <> Some (h, s)
  end.
Proof.
  intros [Hm _]. unfold SessionManager_sessionForHandle.
  destruct (indexForHandle_spec _ _ h Hm) as [[-> Hno]|[Hr Er]]; [exact Hno|].
  rewrite (proj2 (Z.eqb_neq _ _)) by lia. exists (keys (ifaceMap sm) (Map_indexForHandle h (ifaceMap sm))).
  destruct (rep_row _ _ Hm _ Hr) as (_ & _ & Hg & _). rewrite Er in Hg. exact Hg.
Qed.

(** Asking for the session of an address. The session of the address is
    returned, with the time brought up to date and the key filled in if the
    session had none, or, if there is none, a new one under a handle never used
    before, once all sessions that timed out are gone; every other session stays
    as it is. What is returned carries the address and the handle by which it is
    found again. *)
Theorem SessionManager_getSession_spec k cryptoKey now sm g :
  sm_ok sm g -> Ip6_valid k -> sm.(ifaceMap).(nextHandle) + 1 < 2 ^ 31 ->
  let '(sm', i) := SessionManager_getSession k cryptoKey now sm in
  let session := sm'.(ifaceMap).(values) i in
  let handle := sm'.(ifaceMap).(handles) i in
  let g' := after_get k cryptoKey now sm.(ifaceMap).(nextHandle) g in
  sm_ok sm' g' /\ g' !! k = Some (handle, session) /\
  session.(session_ip6) = k /\ session.(receiveHandle_be) = Endian_hostToBigEndian32 handle /\
  SessionManager_sessionForHandle handle sm' = Some i.
Proof.
  intros Hok Hk Hn. destruct (getSession_ok k cryptoKey now sm g Hok Hk Hn) as (sm' & i & -> & Hok' & Hi & Hg & _).
  cbn zeta. split; [exact Hok'|]. split; [exact Hg|]. destruct (sm_identity _ _ Hok' _ _ _ Hg) as [H1 H2].
  split; [exact H1|]. split; [exact H2|]. unfold SessionManager_sessionForHandle.
  pose proof (sm_rep _ _ Hok') as Hm.
  destruct (indexForHandle_spec _ _ (handles (ifaceMap sm') i) Hm) as [[_ Hno]|[Hr Er]]; [by apply Hno in Hg|].
  rewrite (proj2 (Z.eqb_neq _ _)) by lia. f_equal. by apply (handles_inj _ _ _ _ Hm).
Qed.

(** ** The life of a session manager *)

(** A packet or the timer; and what the users of a session do to it, who leave
    its address and its handle alone. *)
Inductive sm_event :=
  | Get (k : Ip6) (cryptoKey : option (list Z)) (now : Z)
  | Cleanup (now : Z)
  | Use (handle : Z) (f : SessionManager_Session -> SessionManager_Session).

Definition sm_step (sm : SessionManager) (e : sm_event) : SessionManager :=
  match e with
  | Get k cryptoKey now => fst (SessionManager_getSession k cryptoKey now sm)
  | Cleanup now => cleanup now sm
  | Use handle f =>
      match SessionManager_sessionForHandle handle sm with
      | Some i => {| ifaceMap := set_value sm.(ifaceMap) i (f (sm.(ifaceMap).(values) i)) |}
      | None => sm
      end
  end.

Definition event_ok (e : sm_event) : Prop :=
  match e with
  | Get k _ _ => Ip6_valid k
  | Cleanup _ => True
  | Use _ f => forall s, (f s).(session_ip6) = s.(session_ip6) /\ (f s).(receiveHandle_be) = s.(receiveHandle_be)
  end.

(** What is in [g'] was in [g] under the same address and handle, or has a
    handle that was still to be given out. *)
Definition later (g : sessions) (next : Z) (g' : sessions) : Prop :=
  forall k h s, g' !! k = Some (h, s) -> (exists s0, g !! k = Some (h, s0)) \/ next <= h.

Lemma later_trans g1 n1 g2 n2 g3 : later g1 n1 g2 -> n1 <= n2 -> later g2 n2 g3 -> later g1 n1 g3.
Proof.
  intros H1 Hn H2 k h s Hk. destruct (H2 k h s Hk) as [[s0 Hk0]|?]; [|right; lia]. by apply (H1 k h s0).
Qed.

Lemma sm_step_ok sm g e : sm_ok sm g -> event_ok e -> sm.(ifaceMap).(nextHandle) + 1 < 2 ^ 31 ->
  exists g', sm_ok (sm_step sm e) g' /\ later g sm.(ifaceMap).(nextHandle) g' /\
    sm.(ifaceMap).(nextHandle) <= (sm_step sm e).(ifaceMap).(nextHandle) <= sm.(ifaceMap).(nextHandle) + 1.
Proof.
  intros Hok He Hn. destruct e as [k ck now|now|h f]; cbn [sm_step event_ok] in *.
  - destruct (getSession_ok k ck now sm g Hok He Hn) as (sm' & i & -> & Hok' & _ & _ & Hnext). cbn [fst].
    eexists. split; [exact Hok'|]. split; [|exact Hnext]. intros k' h' s'. unfold after_get.
    destruct (g !! k) as [[h s]|] eqn:Eg.
    + destruct (decide (k' = k)) as [->|Hne].
      * rewrite lookup_insert_eq. intros [= <- <-]. left. by exists s.
      * rewrite lookup_insert_ne by done. left. by exists s'.
    + destruct (decide (k' = k)) as [->|Hne].
      * rewrite lookup_insert_eq. intros [= <- <-]. right. lia.
      * rewrite lookup_insert_ne by done. intros [Hk _]%live_lookup. left. by exists s'.
  - destruct (cleanup_ok now sm g Hok) as [H1 H2]. exists (live_sessions now g). split; [exact H1|]. rewrite H2.
    split; [|lia]. intros k h s [Hk _]%live_lookup. left. by exists s.
  - unfold SessionManager_sessionForHandle. pose proof Hok as [Hm Hid].
    destruct (indexForHandle_spec _ _ h Hm) as [[-> _]|[Hr Er]].
    { exists g. split; [done|]. split; [|cbn; lia]. intros k h' s Hk. left. by exists s. }
    rewrite (proj2 (Z.eqb_neq _ _)) by lia. set (i := Map_indexForHandle h (ifaceMap sm)) in *.
    destruct (rep_row _ _ Hm i Hr) as (_ & _ & Hg & _). destruct (Hid _ _ _ Hg) as [I1 I2], (He (values (ifaceMap sm) i)) as [F1 F2].
    eexists. split; [split; [apply (set_value_rep _ _ i _ Hm Hr)|]|split; [|cbn; lia]]; intros k' h' s'.
    + destruct (decide (k' = keys (ifaceMap sm) i)) as [->|Hne].
      * rewrite lookup_insert_eq. intros [= <- <-]. rewrite F1, F2. done.
      * rewrite lookup_insert_ne by done. apply Hid.
    + destruct (decide (k' = keys (ifaceMap sm) i)) as [->|Hne].
      * rewrite lookup_insert_eq. intros [= <- <-]. left. eexists. exact Hg.
      * rewrite lookup_insert_ne by done. left. by exists s'.
Qed.

Lemma sm_steps_ok es : List.Forall event_ok es -> forall sm g, sm_ok sm g ->
  sm.(ifaceMap).(nextHandle) + Z.of_nat (length es) < 2 ^ 31 ->
  exists g', sm_ok (fold_left sm_step es sm) g' /\ later g sm.(ifaceMap).(nextHandle) g' /\
    (fold_left sm_step es sm).(ifaceMap).(nextHandle) <= sm.(ifaceMap).(nextHandle) + Z.of_nat (length es).
Proof.
  induction 1 as [|e es He Hes IH]; intros sm g Hok Hn; cbn [fold_left length] in *.
  - exists g. split; [done|]. split; [|lia]. intros k h s Hk. left. by exists s.
  - destruct (sm_step_ok sm g e Hok He ltac:(lia)) as (g1 & H1 & H2 & H3).
    destruct (IH _ g1 H1 ltac:(lia)) as (g2 & H4 & H5 & H6).
    exists g2. split; [done|]. split; [|lia]. eapply later_trans; [exact H2| |exact H5]. lia.
Qed.

Lemma new_manager_ok : sm_ok SessionManager_new ∅.
Proof. split; [apply new_rep|]. intros k h s Hk. rewrite lookup_empty in Hk. done. Qed.

(** A handle never passes from one address to another. If at some point in
    the life of a session manager a handle leads to the session of an address,
    then whatever packets, time-outs and uses of sessions follow, it leads to a
    session of that address or to none. *)
Theorem SessionManager_handle_is_one_address (before after : list sm_event) (handle i j : Z) :
  List.Forall event_ok before -> List.Forall event_ok after ->
  Z.of_nat (length before) + Z.of_nat (length after) < 2 ^ 31 ->
  let sm := fold_left sm_step before SessionManager_new in
  let sm' := fold_left sm_step after sm in
  SessionManager_sessionForHandle handle sm = Some i ->
  SessionManager_sessionForHandle handle sm' = Some j ->
  (sm'.(ifaceMap).(values) j).(session_ip6) = (sm.(ifaceMap).(values) i).(session_ip6).
Proof.
  intros Hb Ha Hlen sm sm' Hi Hj.
  destruct (sm_steps_ok before Hb SessionManager_new ∅ new_manager_ok ltac:(cbn; lia)) as (g & Hok & _ & Hn). fold sm in Hok, Hn.
  cbn [SessionManager_new ifaceMap Map_new nextHandle] in Hn.
  destruct (sm_steps_ok after Ha sm g Hok ltac:(lia)) as (g' & Hok' & Hlater & _). fold sm' in Hok'.
  pose proof (sessionForHandle_spec handle sm g Hok) as H1. rewrite Hi in H1. destruct H1 as [k Hk].
  pose proof (sessionForHandle_spec handle sm' g' Hok') as H2. rewrite Hj in H2. destruct H2 as [k' Hk'].
  destruct (sm_identity _ _ Hok _ _ _ Hk) as [-> _], (sm_identity _ _ Hok' _ _ _ Hk') as [-> _].
  pose proof (sm_rep _ _ Hok) as Hm. destruct (rep_all _ _ Hm _ _ _ Hk) as (r & Hr & Ek & Eh & _).
  destruct (Hlater _ _ _ Hk') as [[s0 Hk0]|Hge].
  - destruct (rep_all _ _ Hm _ _ _ Hk0) as (r' & Hr' & Ek' & Eh' & _).
    rewrite <-Ek, <-Ek'. f_equal. apply (handles_inj _ _ _ _ Hm); congruence || lia.
  - destruct (rep_row _ _ Hm r Hr) as (_ & _ & _ & Hlt). lia.
Qed.
End spec.

(** ** Witness: one address after another *)
Definition demo_ip6 (k : Z) : Ip6 := 0xFC :: repeat k 15.
Definition demo_before : list sm_event := [Get (demo_ip6 1) None 1000; Get (demo_ip6 2) (Some (repeat 7 32)) 1100].
Definition demo_after : list sm_event := [Get (demo_ip6 3) None 1650; Get (demo_ip6 1) None 1700].

Lemma demo_before_ok : List.Forall event_ok demo_before.
Proof. repeat constructor. Qed.
Lemma demo_after_ok : List.Forall event_ok demo_after.
Proof. repeat constructor. Qed.

(** The first session timed out before the third was made; its address has a new
    handle then. *)
Lemma SessionManager_handle_is_one_address_witness :
  let sm := fold_left (@sm_step x86) demo_before SessionManager_new in
  let sm' := fold_left (@sm_step x86) demo_after sm in
  @SessionManager_sessionForHandle 0 sm' = None /\ sm'.(ifaceMap).(nextHandle) = 4 /\
  (sm'.(ifaceMap).(values) 0).(session_ip6) = (sm.(ifaceMap).(values) 1).(session_ip6).
Proof.
  split_and!; [vm_compute; reflexivity..|].
  apply (@SessionManager_handle_is_one_address x86 demo_before demo_after 1 1 0 demo_before_ok demo_after_ok);
    vm_compute; reflexivity.
Defined.

Lemma SessionManager_getSession_spec_witness :
  let '(sm', i) := @SessionManager_getSession x86 (demo_ip6 1) None 1000 SessionManager_new in
  i = 0 /\ (sm'.(ifaceMap).(values) i).(session_ip6) = demo_ip6 1 /\
  @SessionManager_sessionForHandle 0 sm' = Some 0.
Proof.
  pose proof (@SessionManager_getSession_spec x86 (demo_ip6 1) None 1000 SessionManager_new ∅
    (@new_manager_ok x86) eq_refl ltac:(reflexivity)) as H.
  assert (snd (@SessionManager_getSession x86 (demo_ip6 1) None 1000 SessionManager_new) = 0) as E
    by (vm_compute; reflexivity).
  assert ((fst (@SessionManager_getSession x86 (demo_ip6 1) None 1000 SessionManager_new)).(ifaceMap).(handles) 0 = 0) as E'
    by (vm_compute; reflexivity).
  destruct (SessionManager_getSession _ _ _ _) as [sm' i]. cbn [fst snd] in E, E'. subst i. rewrite E' in H.
  destruct H as (_ & _ & H1 & _ & H2). done.
Defined.
