(* ===== verification/VersionList.v ===== *)
(** * Lists of protocol versions (dht/dhtcore/VersionList.c)

    The versions of the nodes in a reply travel as one string: a byte that gives
    the width of the numbers, then the numbers in network order. The string is
    read with an ArrayReader and written with an ArrayWriter. A list is the list
    of its versions; a String is the list of its bytes, with the NUL that is
    kept behind them. *)
From S2P Require Import Prelude Memory Endian ArrayIO.

Section versions.
  Context {P : Platform}.

(** The loop of [VersionList_parse]; a failed read leaves [ver] at 0. *)
Fixpoint parse_versions (n : nat) (numberSize : Z) (r : ArrayReader) : list Z :=
  match n with
  | O => []
  | S n =>
      let '(_, bytes, r) := reader_read r numberSize in
      let ver := load 4 (write (of_list (repeat 0 4)) 0 bytes) 0 in
      let ver := Endian_bigEndianToHost32 ver in
      (ver >> ((4 - numberSize) * 8)) :: parse_versions n numberSize r
  end.

Definition VersionList_parse (str : list Z) : option (list Z) :=
  let len := Z.of_nat (length str) in
  let numberSize := nth 0 str 0 in
  if (len <? 1) || (numberSize =? 0) || (4 <? numberSize) then None
  else
    let list_length := u32 ((len - 1) / numberSize) in
    if negb (u32 (list_length * numberSize) =? len - 1) then None
    else
      let r := ArrayReader_new (of_list str) 1 (len - 1) in
      Some (parse_versions (Z.to_nat list_length) numberSize r).

(** The while loop: widen until the version is below [max]. [fuel] bounds the
    rounds; [None] is a loop that is still running. *)
Fixpoint widen (fuel : nat) (version numberSize max : Z) : option (Z * Z) :=
  if max <=? version then
    match fuel with
    | O => None
    | S fuel => widen fuel version (u8 (numberSize + 1)) (u32 (max << 8) .| 0xff)
    end
  else Some (numberSize, max).

Fixpoint number_size (fuel : nat) (versions : list Z) (numberSize max : Z) : option Z :=
  match versions with
  | [] => Some numberSize
  | v :: rest =>
      '(numberSize, max) ← widen fuel v numberSize max;
      number_size fuel rest numberSize max
  end.

Fixpoint write_versions (versions : list Z) (numberSize : Z) (w : ArrayWriter) : ArrayWriter :=
  match versions with
  | [] => w
  | v :: rest =>
      let ver := u32 (v << ((4 - numberSize) * 8)) in
      let ver := Endian_hostToBigEndian32 ver in
      write_versions rest numberSize (writer_write w (take (Z.to_nat numberSize) (store 4 ver))).2
  end.

(** [m] is the memory the string is allocated in. *)
Definition VersionList_stringify (fuel : nat) (m : mem) (versions : list Z) : option (list Z) :=
  numberSize ← number_size fuel versions 1 0xff;
  let len := u32 (u32 (numberSize * Z.of_nat (length versions)) + 1) in
  let w := ArrayWriter_new m 0 len in
  let w := (writer_write w [numberSize]).2 in
  let w := write_versions versions numberSize w in
  let w := (writer_write w [numberSize]).2 in
  Some (read w.(w_memory) 0 len).
End versions.

(** ** Numbers of a given width *)
Definition fits_in (width v : Z) : Prop := 0 <= v < 2 ^ (8 * width).

Lemma le_split_scale k n v : le_split (k + n) (v * 256 ^ Z.of_nat k) = repeat 0 k ++ le_split n v.
Proof.
  revert v. induction k as [|k IH]; intros v; cbn [Nat.add le_split repeat app].
  - rewrite Z.mul_1_r. done.
  - rewrite Nat2Z.inj_succ, Z.pow_succ_r, (Z.mul_comm 256), Z.mul_assoc by lia. f_equal.
    + unfold u8. apply Z.mod_mul. lia.
    + rewrite Z.div_mul by lia. apply IH.
Qed.

Lemma le_combine_zeros k l : le_combine (repeat 0 k ++ l) = 256 ^ Z.of_nat k * le_combine l.
Proof.
  induction k as [|k IH]; cbn [repeat app le_combine]; [lia|].
  rewrite IH, Nat2Z.inj_succ, Z.pow_succ_r by lia. lia.
Qed.

Lemma rev_repeat_zeros k : rev (repeat 0 k) = repeat 0 k.
Proof.
  induction k as [|k IH]; cbn [repeat rev]; [done|]. rewrite IH. clear IH.
  induction k as [|k IH]; cbn [repeat app]; [done|]. rewrite IH. done.
Qed.

Section widths.
  Context {P : Platform}.
  Variables (width : Z).
  Hypothesis Hw : 1 <= width <= 4.

Lemma split_width : Z.of_nat (Z.to_nat (4 - width)) = 4 - width /\ (Z.to_nat (4 - width) + Z.to_nat width = 4)%nat.
Proof. split; lia. Qed.

Lemma pow_256 k : 0 <= k -> 256 ^ k = 2 ^ (8 * k).
Proof. intros Hk. change 256 with (2 ^ 8). rewrite <-Z.pow_mul_r by lia. done. Qed.

(** What is written for a version. *)
Lemma written_bytes v : fits_in width v ->
  take (Z.to_nat width) (store 4 (Endian_hostToBigEndian32 (u32 (v << ((4 - width) * 8))))) = be_split (Z.to_nat width) v.
Proof.
  intros Hv. destruct split_width as [E1 E2].
  assert (v << ((4 - width) * 8) = v * 256 ^ Z.of_nat (Z.to_nat (4 - width))) as ->.
  { rewrite Z.shiftl_mul_pow2, E1, pow_256 by lia. do 2 f_equal. lia. }
  assert (0 <= v * 256 ^ Z.of_nat (Z.to_nat (4 - width)) < 2 ^ 32) as Hr.
  { rewrite E1, pow_256 by lia. unfold fits_in in Hv. replace (2 ^ 32) with (2 ^ (8 * width) * 2 ^ (8 * (4 - width)))
      by (rewrite <-Z.pow_add_r by lia; f_equal; lia). nia. }
  rewrite u32_small, store_be32 by done. unfold be_split. rewrite <-E2, le_split_scale, rev_app_distr.
  apply take_app_length'. rewrite length_rev, length_le_split. done.
Qed.

(** What is read from the bytes of a version. *)
Lemma read_version l : bytes_ok l -> length l = Z.to_nat width ->
  Endian_bigEndianToHost32 (load 4 (write (of_list (repeat 0 4)) 0 l) 0) >> ((4 - width) * 8) = be_combine l.
Proof.
  intros Hl Hlen. destruct split_width as [E1 E2].
  assert (mem_ok (write (of_list (repeat 0 4)) 0 l)) as Hm.
  { apply write_ok; [|done]. apply of_list_ok. repeat (constructor; [unfold is_byte; lia|]). constructor. }
  rewrite be_load32 by done.
  assert (read (write (of_list (repeat 0 4)) 0 l) 0 4 = l ++ repeat 0 (Z.to_nat (4 - width))) as ->.
  { rewrite (read_split _ _ 4 width) by lia. f_equal; [apply read_write_same; lia|].
    rewrite read_write_disj by lia. apply (nth_ext _ _ 0 0); rewrite length_read, ?repeat_length; [done|].
    intros i Hi. rewrite nth_read, nth_repeat by done. unfold of_list.
    destruct (Z.ltb_spec (0 + width + Z.of_nat i) 0); [done|]. apply nth_repeat. }
  unfold be_combine. rewrite rev_app_distr, rev_repeat_zeros, le_combine_zeros, E1, pow_256 by lia.
  rewrite Z.shiftr_div_pow2 by lia. rewrite (Z.mul_comm (2 ^ _)). replace (8 * (4 - width)) with ((4 - width) * 8) by lia.
  apply Z.div_mul. lia.
Qed.

(** The reader cuts its content into numbers. *)
Lemma parse_versions_spec chunks : forall r, valid r -> remaining r = concat chunks ->
  List.Forall (fun l => bytes_ok l /\ length l = Z.to_nat width) chunks ->
  parse_versions (length chunks) width r = map be_combine chunks.
Proof.
  induction chunks as [|l chunks IH]; intros r Hr Hrem Hall; cbn [length parse_versions map]; [done|].
  inversion_clear Hall as [|? ? [Hl Hlen] Hrest]. cbn [concat] in Hrem.
  destruct (read_some r width Hr) as (r' & E & Hr' & Erem); [rewrite Hrem, length_app; lia|lia|].
  rewrite E, Hrem, take_app_length' by done. rewrite Hrem, drop_app_length' in Erem by done.
  rewrite read_version by done. f_equal. by apply IH.
Qed.

Lemma cut_into (n : nat) (l : list Z) : bytes_ok l -> length l = (n * Z.to_nat width)%nat ->
  exists chunks, l = concat chunks /\ length chunks = n /\
    List.Forall (fun l => bytes_ok l /\ length l = Z.to_nat width) chunks.
Proof.
  revert l. induction n as [|n IH]; intros l Hl Hlen.
  - exists []. destruct l; done.
  - destruct (IH (drop (Z.to_nat width) l)) as (chunks & E & En & Hc).
    + unfold bytes_ok in *. rewrite <-(take_drop (Z.to_nat width) l) in Hl. apply List.Forall_app in Hl. apply Hl.
    + rewrite length_drop. lia.
    + exists (take (Z.to_nat width) l :: chunks). cbn [concat length]. rewrite <-E, take_drop, En.
      split; [done|]. split; [done|]. constructor; [|done]. split; [|rewrite length_take; lia].
      unfold bytes_ok in *. rewrite <-(take_drop (Z.to_nat width) l) in Hl. apply List.Forall_app in Hl. apply Hl.
Qed.

Lemma split_chunks l : List.Forall (fits_in width) l ->
  List.Forall (fun l => bytes_ok l /\ length l = Z.to_nat width) (map (be_split (Z.to_nat width)) l) /\
  map be_combine (map (be_split (Z.to_nat width)) l) = l.
Proof.
  induction 1 as [|v l Hv _ [IH1 IH2]]; cbn [map]; [done|]. split.
  - constructor; [|done]. split; [apply be_split_ok|apply length_be_split].
  - rewrite IH2, be_combine_split, Z.mod_small; [done|]. unfold fits_in in Hv.
    replace (8 * Z.of_nat (Z.to_nat width)) with (8 * width) by lia. done.
Qed.

Lemma combine_chunks chunks : List.Forall (fun l => bytes_ok l /\ length l = Z.to_nat width) chunks ->
  List.Forall (fits_in width) (map be_combine chunks) /\
  map (be_split (Z.to_nat width)) (map be_combine chunks) = chunks.
Proof.
  induction 1 as [|l chunks [Hl Hlen] _ [IH1 IH2]]; cbn [map]; [done|]. split.
  - constructor; [|done]. pose proof (be_combine_range l Hl) as Hr. rewrite Hlen in Hr. unfold fits_in.
    replace (8 * Z.of_nat (Z.to_nat width)) with (8 * width) in Hr by lia. done.
  - rewrite IH2, <-Hlen, be_split_combine by done. done.
Qed.

Lemma concat_length chunks : List.Forall (fun l => bytes_ok l /\ length l = Z.to_nat width) chunks ->
  length (concat chunks) = (length chunks * Z.to_nat width)%nat.
Proof. induction 1 as [|l chunks [_ Hlen] _ IH]; cbn; [done|]. rewrite length_app, Hlen, IH. done. Qed.
End widths.

(** ** Parsing *)
Section parsing.
  Context {P : Platform}.

(** The form of a list: the width and the numbers. *)
Definition version_string (width : Z) (l : list Z) : list Z :=
  width :: concat (map (be_split (Z.to_nat width)) l).

Lemma length_version_string width l : 1 <= width <= 4 -> List.Forall (fits_in width) l ->
  Z.of_nat (length (version_string width l)) = 1 + width * Z.of_nat (length l).
Proof.
  intros Hw Hl. destruct (split_chunks width Hw l Hl) as [Hc _]. cbn [version_string length].
  rewrite (concat_length width) by done. rewrite length_map. lia.
Qed.

Lemma reader_of_tail b l : Z.of_nat (length l) < 2 ^ 32 ->
  let r := ArrayReader_new (of_list (b :: l)) 1 (Z.of_nat (length l)) in valid r /\ remaining r = l.
Proof.
  intros Hl r. split.
  - unfold r. cbn. unfold reader_ok. cbn. rewrite u64_small by lia. lia.
  - unfold r. cbn. unfold reader_left. cbn. rewrite u64_small by lia.
    replace (1 + Z.of_nat (length l) - 1) with (Z.of_nat (length l)) by lia.
    rewrite <-(read_of_list l (Z.of_nat (length l))) at 3 by done. apply read_ext. intros i Hi. unfold of_list.
    rewrite !(proj2 (Z.ltb_ge _ _)) by lia. replace (Z.to_nat (1 + i)) with (S (Z.to_nat (0 + i))) by lia. done.
Qed.

(** A string is taken for a list of versions exactly if it is the list's
    form for some width from one to four bytes: its first byte is the width, the
    rest the versions in network order, with no byte left over. *)
Theorem VersionList_parse_spec (str versions : list Z) :
  bytes_ok str -> Z.of_nat (length str) < 2 ^ 32 ->
  VersionList_parse str = Some versions <->
  exists width, 1 <= width <= 4 /\ List.Forall (fits_in width) versions /\ str = version_string width versions.
Proof.
  intros Hb Hlen. unfold VersionList_parse. split.
  - destruct str as [|width body]; [done|]. cbn [nth length] in *. inversion_clear Hb as [|? ? Hw Hbody].
    unfold is_byte in Hw. rewrite (proj2 (Z.ltb_ge _ 1)) by lia. cbn [orb].
    destruct (Z.eqb_spec width 0) as [|Hw0]; [done|]. cbn [orb].
    destruct (Z.ltb_spec 4 width) as [|Hw4]; [done|].
    replace (Z.of_nat (S (length body)) - 1) with (Z.of_nat (length body)) by lia.
    set (n := Z.of_nat (length body) / width).
    pose proof (Z.div_mod (Z.of_nat (length body)) width ltac:(lia)) as Ediv. fold n in Ediv.
    pose proof (Z.mod_pos_bound (Z.of_nat (length body)) width ltac:(lia)) as Hmod.
    assert (0 <= n) by (apply Z.div_pos; lia). assert (n * 1 <= n * width) by (apply Z.mul_le_mono_nonneg_l; lia).
    rewrite (u32_small n), u32_small by lia. destruct (Z.eqb_spec (n * width) (Z.of_nat (length body))) as [E|]; [cbn [negb]|done].
    intros [= <-]. destruct (cut_into width ltac:(lia) (Z.to_nat n) body Hbody ltac:(lia)) as (chunks & -> & En & Hc).
    destruct (reader_of_tail width (concat chunks) ltac:(lia)) as [Hv Hr].
    rewrite <-En, (parse_versions_spec width ltac:(lia) chunks) by done.
    destruct (combine_chunks width ltac:(lia) chunks Hc) as [Hf Es].
    exists width. split; [lia|]. split; [done|]. unfold version_string. rewrite Es. done.
  - intros (width & Hw & Hf & ->). pose proof (length_version_string width versions Hw Hf) as El. rewrite El in *. set (n := Z.of_nat (length versions)) in *.
    assert (0 <= n) by lia. assert (n * 1 <= n * width) by (apply Z.mul_le_mono_nonneg_l; lia).
    cbn [version_string nth]. rewrite (proj2 (Z.ltb_ge _ 1)), (proj2 (Z.eqb_neq width 0)), (proj2 (Z.ltb_ge 4 width)) by lia.
    cbn [orb]. replace (1 + width * n - 1) with (n * width) by lia.
    rewrite Z.div_mul, (u32_small n), u32_small, Z.eqb_refl by lia. cbn [negb]. f_equal.
    destruct (split_chunks width Hw versions Hf) as [Hc Es].
    set (chunks := map (be_split (Z.to_nat width)) versions) in *.
    assert (n * width = Z.of_nat (length (concat chunks))) as Ec.
    { rewrite (concat_length width) by done. unfold chunks. rewrite length_map. lia. }
    rewrite Ec. destruct (reader_of_tail width (concat chunks) ltac:(lia)) as [Hv Hr].
    unfold n. rewrite Nat2Z.id. transitivity (map be_combine chunks); [|exact Es].
    rewrite <-(parse_versions_spec width Hw chunks _ Hv Hr Hc).
    assert (length chunks = length versions) as <- by (unfold chunks; apply length_map). done.
Qed.
End parsing.

(** ** Writing *)
Section writing.
  Context {P : Platform}.

Definition max_of (width : Z) : Z := 2 ^ (8 * width) - 1.

Lemma max_next width : 1 <= width <= 3 -> u32 (max_of width << 8) .| 0xff = max_of (width + 1).
Proof. intros Hw. assert (width = 1 \/ width = 2 \/ width = 3) as [->|[->| ->]] by lia; reflexivity. Qed.

Lemma max_le a b : a <= b <= 4 -> 1 <= a -> max_of a <= max_of b <= UINT32_MAX.
Proof.
  intros H1 H2. unfold max_of. change UINT32_MAX with (2 ^ (8 * 4) - 1).
  pose proof (Z.pow_le_mono_r 2 (8 * a) (8 * b) ltac:(lia) ltac:(lia)).
  pose proof (Z.pow_le_mono_r 2 (8 * b) (8 * 4) ltac:(lia) ltac:(lia)). lia.
Qed.

Lemma widen_spec fuel version width : 1 <= width <= 4 -> 4 - width <= Z.of_nat fuel -> 0 <= version < UINT32_MAX ->
  exists width', widen fuel version width (max_of width) = Some (width', max_of width') /\
    width <= width' <= 4 /\ fits_in width' version.
Proof.
  revert width. induction fuel as [|fuel IH]; intros width Hw Hf Hv; cbn [widen].
  - assert (width = 4) as -> by lia. rewrite (proj2 (Z.leb_gt _ _)) by (change (max_of 4) with UINT32_MAX; lia).
    exists 4. split; [done|]. split; [lia|]. unfold fits_in. change UINT32_MAX with (2 ^ (8 * 4) - 1) in Hv. lia.
  - destruct (Z.leb_spec (max_of width) version) as [Hle|Hgt].
    + assert (width <> 4) by (intros ->; change (max_of 4) with UINT32_MAX in Hle; lia).
      rewrite u8_small, max_next by lia. destruct (IH (width + 1)) as (w' & E & Hw' & Hv'); [lia..|].
      exists w'. split; [exact E|]. split; [lia|done].
    + exists width. split; [done|]. split; [lia|]. unfold fits_in. unfold max_of in Hgt. lia.
Qed.

Lemma number_size_spec fuel versions : (3 <= fuel)%nat -> List.Forall (fun v => 0 <= v < UINT32_MAX) versions ->
  forall width, 1 <= width <= 4 ->
  exists width', number_size fuel versions width (max_of width) = Some width' /\ width <= width' <= 4 /\
    List.Forall (fits_in width') versions.
Proof.
  intros Hf. induction 1 as [|v versions Hv _ IH]; intros width Hw; cbn [number_size].
  - exists width. split; [done|]. split; [lia|constructor].
  - destruct (widen_spec fuel v width Hw ltac:(lia) Hv) as (w1 & -> & Hw1 & Hv1). cbn [mbind option_bind].
    destruct (IH w1 ltac:(lia)) as (w2 & -> & Hw2 & Hall). exists w2. split; [done|]. split; [lia|].
    constructor; [|done]. unfold fits_in in *. pose proof (max_le w1 w2 ltac:(lia) ltac:(lia)). unfold max_of in *. lia.
Qed.

(** The largest number is never below a 32-bit maximum: the loop goes on. *)
Lemma widen_forever fuel width max : max <= UINT32_MAX -> widen fuel UINT32_MAX width max = None.
Proof.
  revert width max. induction fuel as [|fuel IH]; intros width max Hm; cbn [widen];
    rewrite (proj2 (Z.leb_le _ _)) by done; [done|]. apply IH.
  assert (0 <= u32 (max << 8) .| 255 < 2 ^ 32); [|unfold UINT32_MAX; lia].
  apply lor_range; [done|apply u32_range|lia].
Qed.

Lemma widen_max fuel version width max w' max' : max <= UINT32_MAX -> widen fuel version width max = Some (w', max') -> max' <= UINT32_MAX.
Proof.
  revert width max. induction fuel as [|fuel IH]; intros width max Hm; cbn [widen];
    destruct (_ <=? _); try done; try (intros [= _ <-]; done).
  apply IH. assert (0 <= u32 (max << 8) .| 255 < 2 ^ 32); [|unfold UINT32_MAX; lia].
  apply lor_range; [done|apply u32_range|lia].
Qed.

Lemma number_size_forever fuel versions : In UINT32_MAX versions ->
  forall width max, max <= UINT32_MAX -> number_size fuel versions width max = None.
Proof.
  induction versions as [|v versions IH]; intros Hin width max Hm; [done|]. cbn [number_size].
  destruct Hin as [->|Hin]; [rewrite widen_forever by done; done|].
  destruct (widen fuel v width max) as [[w' max']|] eqn:E; cbn [mbind option_bind]; [|done].
  apply IH; [done|]. by apply (widen_max _ _ _ _ _ _ Hm E).
Qed.

Lemma write_versions_spec width versions : 1 <= width <= 4 -> List.Forall (fits_in width) versions ->
  forall (w : ArrayWriter) out room, writer_valid w -> view w = Some (out, room) ->
  width * Z.of_nat (length versions) <= room ->
  let w' := write_versions versions width w in
  writer_valid w' /\ view w' = Some (out ++ concat (map (be_split (Z.to_nat width)) versions),
                                     room - width * Z.of_nat (length versions)).
Proof.
  intros Hw. induction 1 as [|v versions Hv Hvs IH]; intros w out room Hval Hview Hroom; cbn [write_versions map concat length].
  - split; [done|]. rewrite app_nil_r, Hview. do 2 f_equal. cbn. lia.
  - rewrite (written_bytes width Hw v Hv).
    destruct (write_view w (be_split (Z.to_nat width) v) Hval) as (H1 & H2 & _); [rewrite length_be_split; lia|].
    rewrite Hview in H2. cbn [view_after] in H2. rewrite length_be_split in H2. cbn [length] in Hroom.
    rewrite (proj2 (Z.leb_le _ _)) in H2 by lia.
    destruct (IH _ _ _ H1 H2) as [H3 H4]; [lia|]. split; [exact H3|]. rewrite H4, app_assoc. do 2 f_equal. lia.
Qed.

Lemma write_begin w l : (writer_write w l).2.(w_beginPointer) = w.(w_beginPointer).
Proof. cbn [writer_write ArrayWriter_writer]. unfold ArrayWriter_write. repeat case_match; done. Qed.

Lemma write_versions_begin width versions : forall w,
  (write_versions versions width w).(w_beginPointer) = w.(w_beginPointer).
Proof.
  induction versions as [|v versions IH]; intros w; cbn [write_versions]; [done|]. rewrite IH. apply write_begin.
Qed.

Lemma concat_bytes_ok width versions : List.Forall is_byte (concat (map (be_split (Z.to_nat width)) versions)).
Proof.
  induction versions as [|v versions IH]; cbn [map concat]; [constructor|].
  apply List.Forall_app. split; [apply be_split_ok|exact IH].
Qed.

Lemma written_versions (fuel : nat) (m : mem) (versions : list Z) :
  List.Forall (fun v => 0 <= v <= UINT32_MAX) versions -> 4 * Z.of_nat (length versions) + 1 < 2 ^ 32 ->
  (3 <= fuel)%nat ->
  match VersionList_stringify fuel m versions with
  | Some str => ~ In UINT32_MAX versions /\
      (exists width, 1 <= width <= 4 /\ str = version_string width versions) /\
      VersionList_parse str = Some versions
  | None => In UINT32_MAX versions
  end.
Proof.
  intros Hall Hlen Hf. unfold VersionList_stringify. destruct (in_dec Z.eq_dec UINT32_MAX versions) as [Hin|Hnin].
  { rewrite number_size_forever by done. exact Hin. }
  destruct (number_size_spec fuel versions Hf) with (width := 1) as (width & Ew & Hw & Hfit).
  { apply List.Forall_forall. intros v Hv. rewrite List.Forall_forall in Hall. specialize (Hall v Hv).
    assert (v <> UINT32_MAX) by (intros ->; done). lia. }
  { lia. }
  change (max_of 1) with 255 in Ew. rewrite Ew. cbn [mbind option_bind].
  set (n := Z.of_nat (length versions)) in *.
  assert (0 <= width * n /\ width * n + 1 < 2 ^ 32) as [Hwn0 Hwn] by nia.
  rewrite (u32_small (width * n)), u32_small by lia.
  set (w0 := ArrayWriter_new m 0 (width * n + 1)).
  assert (writer_valid w0 /\ view w0 = Some ([], width * n + 1)) as [V0 E0].
  { cbn. unfold writer_ok, writer_view, writer_room. cbn. rewrite u64_small by lia. split; [lia|]. do 2 f_equal. lia. }
  destruct (write_view w0 [width] V0 ltac:(done)) as (V1 & E1 & _). rewrite E0 in E1. cbn [view_after length app] in E1.
  rewrite (proj2 (Z.leb_le _ _)) in E1 by lia.
  destruct (write_versions_spec width versions ltac:(lia) Hfit _ _ _ V1 E1 ltac:(lia)) as [V2 E2].
  set (w2 := write_versions versions width (writer_write w0 [width]).2) in *.
  destruct (write_view w2 [width] V2 ltac:(done)) as (V3 & E3 & _). rewrite E2 in E3. cbn [view_after length] in E3.
  assert (w2.(w_returnCode) = 0 /\ w2.(w_beginPointer) = 0) as [Hcode Hbegin].
  { split; [|unfold w2; rewrite write_versions_begin, write_begin; done]. cbn in E2. unfold writer_view in E2.
    destruct (Z.eqb_spec w2.(w_returnCode) 0); done. }
  cbn [writer_write ArrayWriter_writer]. pose proof E2 as E2'. cbn [view ArrayWriter_laws] in E2.
  unfold writer_view in E2. rewrite Hcode, Hbegin in E2. cbn [Z.eqb] in E2. injection E2 as Eread Eroom.
  rewrite ArrayWriter_write_spec by (done || cbn; lia). rewrite Hcode, (proj2 (Z.leb_gt _ _)) by (cbn [length]; lia).
  cbn [Z.eqb negb snd w_memory].
  assert (ArrayWriter_bytesWritten w2 = width * n + 1) as Ebw.
  { change (ArrayWriter_bytesWritten w2) with (writer_bytesWritten w2). rewrite (bytesWritten_view _ _ _ V2 E2').
    rewrite length_app. cbn [length]. pose proof (length_version_string width versions ltac:(lia) Hfit) as El.
    cbn [version_string length] in El. lia. }
  unfold ArrayWriter_bytesWritten in Ebw. rewrite Hbegin, Z.sub_0_r in *.
  destruct V2 as (Hb & He & _). rewrite u64_small in Ebw by lia. rewrite Ebw in Eread. rewrite Eread. cbn [app].
  fold (version_string width versions). split; [done|].
  assert (1 <= width <= 4) as Hw' by lia. split; [by exists width|].
  apply VersionList_parse_spec; [| |by exists width].
  - unfold version_string, bytes_ok. constructor; [unfold is_byte; lia|]. apply concat_bytes_ok.
  - rewrite length_version_string by done. fold n. nia.
Qed.

(** What is written for a list is its form in some width, and is read back as the same list, provided that no version
    is 2^32 - 1. For a list with that version the loop that looks for the width
    never ends, however long it runs. *)
Theorem VersionList_roundtrip (fuel : nat) (m : mem) (versions : list Z) :
  List.Forall (fun v => 0 <= v <= UINT32_MAX) versions -> 4 * Z.of_nat (length versions) + 1 < 2 ^ 32 ->
  (3 <= fuel)%nat ->
  match VersionList_stringify fuel m versions with
  | Some str => ~ In UINT32_MAX versions /\
      (exists width, 1 <= width <= 4 /\ str = version_string width versions) /\
      VersionList_parse str = Some versions
  | None => In UINT32_MAX versions
  end.
Proof. apply written_versions. Qed.
End writing.

(** The example of util/version/Version.h: one node of version 300 and two of
    version 5. *)
Lemma VersionList_parse_spec_witness :
  @VersionList_parse x86 [2; 1; 0x2c; 0; 5; 0; 5] = Some [300; 5; 5].
Proof.
  apply (@VersionList_parse_spec x86 [2; 1; 0x2c; 0; 5; 0; 5] [300; 5; 5]).
  - repeat (constructor; [unfold is_byte; lia|]). constructor.
  - reflexivity.
  - exists 2. split; [lia|]. split; [|reflexivity]. repeat (constructor; [unfold fits_in; lia|]). constructor.
Defined.

Lemma VersionList_roundtrip_witness :
  @VersionList_stringify x86 3 scratch [300; 5; 5] = Some [2; 1; 0x2c; 0; 5; 0; 5] /\
  @VersionList_parse x86 [2; 1; 0x2c; 0; 5; 0; 5] = Some [300; 5; 5].
Proof.
  pose proof (@VersionList_roundtrip x86 3 scratch [300; 5; 5]) as H.
  assert (@VersionList_stringify x86 3 scratch [300; 5; 5] = Some [2; 1; 0x2c; 0; 5; 0; 5]) as E by (vm_compute; reflexivity).
  rewrite E in H. split; [exact E|]. apply H; [|reflexivity|lia].
  repeat (constructor; [unfold UINT32_MAX; lia|]). constructor.
Defined.
