(* ===== verification/AverageRoller.v ===== *)
(** * Rolling averages (util/AverageRoller.c)

    The average of the numbers entered in the last [windowSeconds] seconds, kept
    as a ring of sums, one for each second. The DHT uses it for the mean response
    time. The time is an argument; the ring is a function of the index. *)
From S2P Require Import Prelude.

Record SumAndEntryCount := { slot_sum : Z; slot_entryCount : Z }.

Record AverageRoller := {
  windowSeconds : Z;
  lastUpdateTime : Z;
  lastUpdateIndex : Z;
  roller_sum : Z;
  roller_entryCount : Z;
  average : Z;
  seconds : Z -> SumAndEntryCount
}.

Definition AverageRoller_new (windowSeconds now : Z) : AverageRoller :=
  {| windowSeconds := windowSeconds; lastUpdateTime := u32 now; lastUpdateIndex := 0; roller_sum := 0;
     roller_entryCount := 0; average := 0; seconds := fun _ => {| slot_sum := 0; slot_entryCount := 0 |} |}.

Definition AverageRoller_getAverage (roller : AverageRoller) : Z := roller.(average).

(** [now] is a 64-bit time. [None] is a division by zero. *)
Definition update (roller : AverageRoller) (now newEntry : Z) : option (AverageRoller * Z) :=
  if roller.(windowSeconds) =? 0 then None
  else
    let index := u32 (u64 (now - roller.(lastUpdateTime) + roller.(lastUpdateIndex)) mod roller.(windowSeconds)) in
    let slot := roller.(seconds) index in
    let '(sum, entryCount, slot) :=
      if roller.(lastUpdateTime) <? u32 now
      then (u32 (roller.(roller_sum) - slot.(slot_sum)), u32 (roller.(roller_entryCount) - slot.(slot_entryCount)),
            {| slot_sum := newEntry; slot_entryCount := 1 |})
      else (roller.(roller_sum), roller.(roller_entryCount),
            {| slot_sum := u32 (slot.(slot_sum) + newEntry); slot_entryCount := u32 (slot.(slot_entryCount) + 1) |}) in
    let sum := u32 (sum + newEntry) in
    let entryCount := u32 (entryCount + 1) in
    if entryCount =? 0 then None
    else
      let average := sum / entryCount in
      Some ({| windowSeconds := roller.(windowSeconds); lastUpdateTime := u32 now; lastUpdateIndex := index;
               roller_sum := sum; roller_entryCount := entryCount; average := average;
               seconds := fun j => if j =? index then slot else roller.(seconds) j |}, average).

Definition AverageRoller_update (roller : AverageRoller) (now newEntry : Z) : option (AverageRoller * Z) :=
  update roller now newEntry.

(** ** What a roller counts *)

(** The entries so far, newest first: the time and the number. *)
Definition entries : Type := list (Z * Z).

Definition total (l : entries) : Z := fold_right Z.add 0 (map snd l).
Definition entry_count (l : entries) : Z := Z.of_nat (length l).

(** An entry is overwritten by one a whole number of windows later. *)
Definition overwrites (window : Z) (e' e : Z * Z) : bool := (e.1 <? e'.1) && ((e'.1 - e.1) mod window =? 0).
Definition counted (window : Z) (log : entries) : entries :=
  List.filter (fun e => negb (existsb (fun e' => overwrites window e' e) log)) log.

(** The slot of a time. *)
Definition index_of (r : AverageRoller) (t : Z) : Z :=
  (r.(lastUpdateIndex) + (t - r.(lastUpdateTime))) mod r.(windowSeconds).

Definition in_slot (r : AverageRoller) (i : Z) (e : Z * Z) : bool := index_of r e.1 =? i.

Record tracks (r : AverageRoller) (log : entries) : Prop := {
  tracks_window : 0 < r.(windowSeconds) < 2 ^ 32;
  tracks_index : 0 <= r.(lastUpdateIndex) < r.(windowSeconds);
  tracks_time : 0 <= r.(lastUpdateTime) < 2 ^ 32;
  tracks_last : match log with [] => True | e :: _ => e.1 = r.(lastUpdateTime) end;
  tracks_past : List.Forall (fun e => e.1 <= r.(lastUpdateTime) /\ 0 <= e.2) log;
  tracks_bound : total log < 2 ^ 32 /\ entry_count log < 2 ^ 32;
  tracks_sum : r.(roller_sum) = total (counted r.(windowSeconds) log);
  tracks_count : r.(roller_entryCount) = entry_count (counted r.(windowSeconds) log);
  tracks_slot : forall i, 0 <= i < r.(windowSeconds) ->
    let l := List.filter (in_slot r i) (counted r.(windowSeconds) log) in
    r.(seconds) i = {| slot_sum := total l; slot_entryCount := entry_count l |}
}.

Lemma total_cons t v (l : entries) : total ((t, v) :: l) = v + total l.
Proof. done. Qed.
Lemma count_cons e (l : entries) : entry_count (e :: l) = entry_count l + 1.
Proof. unfold entry_count. cbn [length]. lia. Qed.

Lemma total_split p (l : entries) : total l = total (List.filter p l) + total (List.filter (fun e => negb (p e)) l).
Proof.
  induction l as [|e l IH]; [done|]. cbn [List.filter]. unfold total in *. destruct (p e); cbn in *; lia.
Qed.

Lemma count_split p (l : entries) :
  entry_count l = entry_count (List.filter p l) + entry_count (List.filter (fun e => negb (p e)) l).
Proof.
  unfold entry_count. induction l as [|e l IH]; [done|]. cbn [List.filter]. destruct (p e); cbn in *; lia.
Qed.

Lemma total_filter_le p (l : entries) : List.Forall (fun e => 0 <= e.2) l -> 0 <= total (List.filter p l) <= total l.
Proof.
  unfold total. induction 1 as [|e l He _ IH]; [done|]. cbn [List.filter]. destruct (p e); cbn in *; lia.
Qed.

Lemma count_filter_le p (l : entries) : 0 <= entry_count (List.filter p l) <= entry_count l.
Proof.
  unfold entry_count. induction l as [|e l IH]; [done|]. cbn [List.filter]. destruct (p e); cbn in *; lia.
Qed.

Lemma filter_filter {A} (p q : A -> bool) l : List.filter p (List.filter q l) = List.filter (fun x => p x && q x) l.
Proof.
  induction l as [|x l IH]; [done|]. cbn. destruct (q x); cbn; destruct (p x); cbn; rewrite IH; done.
Qed.

Lemma filter_ext_in {A} (p q : A -> bool) l : (forall x, In x l -> p x = q x) -> List.filter p l = List.filter q l.
Proof.
  induction l as [|x l IH]; intros H; [done|]. cbn. rewrite (H x) by (by left). rewrite IH; [done|].
  intros y Hy. apply H. by right.
Qed.

Lemma filter_false {A} (l : list A) : List.filter (fun _ => false) l = [].
Proof. induction l; done. Qed.

(** Two times have the same slot when they are windows apart. *)
Lemma index_same r s t : 0 < r.(windowSeconds) ->
  (index_of r s =? index_of r t) = ((s - t) mod r.(windowSeconds) =? 0).
Proof.
  intros Hw. unfold index_of. set (a := lastUpdateIndex r - lastUpdateTime r).
  replace (lastUpdateIndex r + (s - lastUpdateTime r)) with (a + s) by lia.
  replace (lastUpdateIndex r + (t - lastUpdateTime r)) with (a + t) by lia.
  apply eq_true_iff_eq. rewrite !Z.eqb_eq. split; intros E.
  - replace (s - t) with ((a + s) - (a + t)) by lia. rewrite Zminus_mod, E, Z.sub_diag. done.
  - replace (a + s) with ((a + t) + (s - t)) by lia. rewrite Zplus_mod, E, Z.add_0_r, Z.mod_mod by lia. done.
Qed.

(** A later second drops the entries that are windows before it; the same
    second drops nothing new. *)
Lemma counted_later window t v log : List.Forall (fun e => e.1 < t) log ->
  counted window ((t, v) :: log) = (t, v) :: List.filter (fun e => negb ((t - e.1) mod window =? 0)) (counted window log).
Proof.
  intros Hlt. unfold counted at 1. cbn [List.filter existsb]. unfold overwrites at 1. cbn [fst].
  rewrite Z.ltb_irrefl. cbn [andb orb].
  assert (existsb (fun e' => overwrites window e' (t, v)) log = false) as ->.
  { apply not_true_is_false. rewrite existsb_exists. intros (e & Hin & Ho). rewrite List.Forall_forall in Hlt.
    specialize (Hlt e Hin). unfold overwrites in Ho. cbn [fst] in Ho. lia. }
  cbn [negb]. f_equal. unfold counted. rewrite filter_filter. apply filter_ext_in. intros e Hin.
  rewrite List.Forall_forall in Hlt. specialize (Hlt e Hin). unfold overwrites at 1. cbn [fst].
  rewrite (proj2 (Z.ltb_lt _ _)) by done. rewrite negb_orb. done.
Qed.

Lemma counted_same window t v v' log : List.Forall (fun e => e.1 <= t) log ->
  counted window ((t, v) :: (t, v') :: log) = (t, v) :: counted window ((t, v') :: log).
Proof.
  intros Hle. set (log' := (t, v') :: log). unfold counted at 1. cbn [List.filter existsb].
  assert (overwrites window (t, v) (t, v) = false) as -> by (unfold overwrites; rewrite Z.ltb_irrefl; done).
  assert (existsb (fun e' => overwrites window e' (t, v)) log' = false) as ->.
  { apply not_true_is_false. rewrite existsb_exists. intros (e & Hin & Ho). unfold overwrites in Ho. cbn [fst] in Ho.
    destruct Hin as [<-|Hin]; [cbn in Ho; lia|]. rewrite List.Forall_forall in Hle. specialize (Hle e Hin). cbn in Hle. lia. }
  cbn [orb negb]. f_equal. apply filter_ext_in. intros e Hin. f_equal. unfold log'. cbn [existsb].
  change (overwrites window (t, v) e) with (overwrites window (t, v') e).
  destruct (overwrites window (t, v') e); done.
Qed.

Lemma update_tracks r log now v : tracks r log -> r.(lastUpdateTime) <= now < 2 ^ 32 -> 0 <= v ->
  total log + v < 2 ^ 32 -> entry_count log + 1 < 2 ^ 32 ->
  exists r', update r now v = Some (r', r'.(average)) /\ tracks r' ((now, v) :: log) /\
    r'.(windowSeconds) = r.(windowSeconds) /\ r'.(lastUpdateTime) = now /\ 0 < r'.(roller_entryCount) /\
    r'.(average) = r'.(roller_sum) / r'.(roller_entryCount).
Proof.
  intros [Hw Hi Ht Hlast Hpast Hb Hs Hc Hslot] Hnow Hv Htot Hcnt. unfold update.
  rewrite (proj2 (Z.eqb_neq (windowSeconds r) 0)) by lia.
  assert (u32 (u64 (now - lastUpdateTime r + lastUpdateIndex r) mod windowSeconds r) = index_of r now) as ->.
  { rewrite u64_small by lia. unfold index_of. replace (now - lastUpdateTime r + lastUpdateIndex r)
      with (lastUpdateIndex r + (now - lastUpdateTime r)) by lia.
    apply u32_small. pose proof (Z.mod_pos_bound (lastUpdateIndex r + (now - lastUpdateTime r)) (windowSeconds r)). lia. }
  set (i := index_of r now) in *.
  assert (0 <= i < windowSeconds r) as Hir by (apply Z.mod_pos_bound; lia).
  rewrite (u32_small now), (Hslot i Hir) by lia. cbn zeta. cbn [slot_sum slot_entryCount].
  set (old := counted (windowSeconds r) log) in *. set (mine := List.filter (in_slot r i) old).
  assert (List.Forall (fun e => 0 <= e.2) log) as Hpos by (eapply List.Forall_impl; [|exact Hpast]; intros e [_ He]; exact He).
  assert (List.Forall (fun e : Z * Z => 0 <= e.2) old) as Hpos'.
  { apply List.Forall_forall. intros e He%filter_In. rewrite List.Forall_forall in Hpos. apply Hpos, He. }
  pose proof (total_filter_le (in_slot r i) old Hpos') as Hm. pose proof (count_filter_le (in_slot r i) old) as Hmc.
  fold mine in Hm, Hmc.
  assert (0 <= total old <= total log /\ 0 <= entry_count old <= entry_count log) as [Ho Hoc].
  { split; [apply total_filter_le, Hpos|apply count_filter_le]. }
  (* the new state, whichever branch made it *)
  set (new := counted (windowSeconds r) ((now, v) :: log)).
  set (rest := if lastUpdateTime r <? now then List.filter (fun e => negb (in_slot r i e)) old else old).
  assert (new = (now, v) :: rest) as Enew.
  { unfold new, rest. destruct (Z.ltb_spec (lastUpdateTime r) now) as [Hlt|Hge].
    - rewrite counted_later.
      + f_equal. apply filter_ext. intros e. unfold in_slot, i. rewrite (Z.eqb_sym (index_of r e.1)), index_same by lia. done.
      + eapply List.Forall_impl; [|exact Hpast]. intros e [He _]. cbn beta. lia.
    - assert (lastUpdateTime r = now) as Et by lia. destruct log as [|[t0 v0] log]; [rewrite counted_later by constructor; done|]. cbn [fst] in Hlast.
      pose proof (List.Forall_inv_tail Hpast) as Hpast'. assert (t0 = now) by lia. subst t0. unfold old. rewrite <-Et. apply counted_same.
      eapply List.Forall_impl; [|exact Hpast']. intros e [He _]. cbn beta. lia. }
  assert (total rest = (if lastUpdateTime r <? now then total old - total mine else total old) /\
          entry_count rest = (if lastUpdateTime r <? now then entry_count old - entry_count mine else entry_count old)) as [Er Erc].
  { unfold rest, mine. destruct (_ <? _); [|done].
    pose proof (total_split (in_slot r i) old). pose proof (count_split (in_slot r i) old). lia. }
  assert (0 <= total rest <= total log /\ 0 <= entry_count rest <= entry_count log) as [Hr Hrc]
    by (rewrite Er, Erc; destruct (_ <? _); lia).
  assert (total new = total rest + v /\ entry_count new = entry_count rest + 1) as [Etn Ecn].
  { rewrite Enew. unfold total, entry_count. cbn. lia. }
  assert (in_slot r i (now, v) = true) as Hin by apply Z.eqb_refl.
  assert ((if lastUpdateTime r <? now
           then (u32 (roller_sum r - total mine), u32 (roller_entryCount r - entry_count mine),
                 {| slot_sum := v; slot_entryCount := 1 |})
           else (roller_sum r, roller_entryCount r,
                 {| slot_sum := u32 (total mine + v); slot_entryCount := u32 (entry_count mine + 1) |}))
          = (total rest, entry_count rest,
             {| slot_sum := total (List.filter (in_slot r i) new); slot_entryCount := entry_count (List.filter (in_slot r i) new) |})) as ->.
  { rewrite Enew. cbn [List.filter]. rewrite Hin, Er, Erc, Hs, Hc. unfold rest.
    destruct (lastUpdateTime r <? now).
    - rewrite filter_filter. rewrite (filter_ext_in _ (fun _ => false)) by (intros e _; destruct (in_slot r i e); done).
      rewrite filter_false, !u32_small by lia. rewrite total_cons, count_cons, Z.add_0_r. done.
    - fold mine. rewrite !u32_small by lia. rewrite total_cons, count_cons, (Z.add_comm v). done. }
  rewrite <-Etn, <-Ecn, !u32_small, (proj2 (Z.eqb_neq (entry_count new) 0)) by lia.
  match goal with |- context [Some (?x, _)] => set (r' := x) end.
  exists r'. split; [done|]. split; [|cbn [r' windowSeconds lastUpdateTime roller_sum roller_entryCount average]; split_and!; done || lia].
  assert (forall e, index_of r' e = index_of r e) as Eidx.
  { intros e. unfold index_of, r', i, index_of. cbn. rewrite Zplus_mod_idemp_l. f_equal. lia. }
  assert (forall j e, in_slot r' j e = in_slot r j e) as Eslot by (intros j e; unfold in_slot; rewrite Eidx; done).
  assert (total ((now, v) :: log) = total log + v /\ entry_count ((now, v) :: log) = entry_count log + 1) as [Et1 Et2]
    by (unfold total, entry_count; cbn; lia).
  split; cbn [r' windowSeconds lastUpdateIndex lastUpdateTime roller_sum roller_entryCount seconds fst].
  - done.
  - done.
  - lia.
  - done.
  - constructor; [cbn; lia|]. eapply List.Forall_impl; [|exact Hpast]. intros e [He He']. cbn beta. lia.
  - lia.
  - done.
  - done.
  - intros j Hj. cbn zeta. fold new. rewrite (filter_ext_in (in_slot r' j) (in_slot r j)) by (intros; apply Eslot).
    destruct (Z.eqb_spec j i) as [->|Hne]; [done|]. rewrite (Hslot j Hj). cbn zeta. fold old.
    assert (List.filter (in_slot r j) new = List.filter (in_slot r j) old) as ->; [|done].
    rewrite Enew. cbn [List.filter]. assert (in_slot r j (now, v) = false) as -> by (apply Z.eqb_neq; cbn [fst]; fold i; lia).
    unfold rest. destruct (_ <? _); [|done]. rewrite filter_filter. apply filter_ext_in. intros e _. unfold in_slot.
    destruct (Z.eqb_spec (index_of r e.1) j), (Z.eqb_spec (index_of r e.1) i); done || lia.
Qed.

Lemma new_tracks window now : 0 < window < 2 ^ 32 -> tracks (AverageRoller_new window now) [].
Proof. intros Hw. split; cbn; try done || lia. pose proof (u32_range now). lia. Qed.

(** ** Entries in the order of time *)

Fixpoint run (r : AverageRoller) (es : entries) : option AverageRoller :=
  match es with
  | [] => Some r
  | (now, v) :: es => '(r, _) ← AverageRoller_update r now v; run r es
  end.

(** The clock does not go back and fits in 32 bits. *)
Fixpoint in_order (from : Z) (es : entries) : Prop :=
  match es with
  | [] => True
  | (now, _) :: es => from <= now < 2 ^ 32 /\ in_order now es
  end.

Lemma total_app (a b : entries) : total (a ++ b) = total a + total b.
Proof. unfold total. induction a as [|e a IH]; cbn in *; lia. Qed.

Lemma total_nonneg (l : entries) : List.Forall (fun e => 0 <= e.2) l -> 0 <= total l.
Proof. unfold total. induction 1; cbn in *; lia. Qed.

Lemma run_tracks es : forall r log, tracks r log -> in_order r.(lastUpdateTime) es ->
  List.Forall (fun e => 0 <= e.2) es -> total log + total es < 2 ^ 32 -> entry_count log + entry_count es < 2 ^ 32 ->
  es <> [] ->
  exists r', run r es = Some r' /\ tracks r' (rev es ++ log) /\ r'.(windowSeconds) = r.(windowSeconds) /\
    0 < r'.(roller_entryCount) /\ r'.(average) = r'.(roller_sum) / r'.(roller_entryCount).
Proof.
  induction es as [|[now v] es IH]; intros r log Hr Ho Hv Ht Hc Hne; [done|]. cbn [run in_order] in *.
  inversion_clear Hv as [|? ? Hv0 Hvs]. cbn [snd] in Hv0. destruct Ho as [Hnow Ho].
  rewrite total_cons in Ht. rewrite count_cons in Hc. pose proof (total_nonneg es Hvs).
  assert (0 <= entry_count es) by (unfold entry_count; lia).
  destruct (update_tracks r log now v Hr) as (r1 & E & Hr1 & Ew & Et & Hpos & Havg); [lia..|].
  unfold AverageRoller_update. rewrite E. cbn [mbind option_bind].
  destruct es as [|e es].
  - exists r1. split; [done|]. split; [done|]. split; [done|]. split; done.
  - destruct (IH r1 ((now, v) :: log) Hr1) as (r2 & E2 & Hr2 & Ew2 & Hp2 & Ha2); try done.
    + by rewrite Et.
    + rewrite total_cons. lia.
    + rewrite count_cons. lia.
    + exists r2. split; [exact E2|]. split; [|split; [congruence|done]].
      change (rev ((now, v) :: e :: es)) with (rev (e :: es) ++ [(now, v)]). rewrite <-app_assoc. exact Hr2.
Qed.

(** A log, newest first, with an entry for every second since its first. *)
Fixpoint steady (log : entries) : Prop :=
  match log with
  | e :: ((e' :: _) as rest) => e'.1 <= e.1 <= e'.1 + 1 /\ steady rest
  | _ => True
  end.

Definition last_time (log : entries) : Z := match log with e :: _ => e.1 | [] => 0 end.

Lemma steady_all log : steady log -> forall e t, In e log -> e.1 <= t <= last_time log -> exists e', In e' log /\ e'.1 = t.
Proof.
  induction log as [|e0 log IH]; intros Hs e t Hin Ht; [done|]. cbn [last_time] in Ht.
  destruct (decide (t = e0.1)) as [->|Hne]; [exists e0; split; [by left|done]|].
  destruct Hin as [->|Hin]; [lia|]. destruct log as [|e1 log]; [done|]. destruct Hs as [H1 Hs].
  destruct (IH Hs e t Hin) as (e' & He' & Et); [cbn [last_time]; lia|]. exists e'. split; [by right|done].
Qed.

Lemma steady_le log : steady log -> forall e, In e log -> e.1 <= last_time log.
Proof.
  induction log as [|e0 log IH]; intros Hs e Hin; [done|]. cbn [last_time]. destruct Hin as [->|Hin]; [lia|].
  destruct log as [|e1 log]; [done|]. destruct Hs as [H1 Hs]. specialize (IH Hs e Hin). cbn [last_time] in IH. lia.
Qed.

Lemma counted_steady window log : 0 < window -> steady log ->
  counted window log = List.filter (fun e => last_time log - window <? e.1) log.
Proof.
  intros Hw Hs. apply filter_ext_in. intros e Hin. apply eq_true_iff_eq.
  rewrite negb_true_iff, Z.ltb_lt. split.
  - intros Hno. destruct (Z.lt_ge_cases (last_time log - window) e.1) as [|Hge]; [done|]. exfalso.
    destruct (steady_all log Hs e (e.1 + window) Hin) as (e' & Hin' & Et); [lia|].
    assert (existsb (fun e' => overwrites window e' e) log = true) as Hex; [|congruence].
    apply existsb_exists. exists e'. split; [done|]. unfold overwrites. rewrite Et.
    replace (e.1 + window - e.1) with (1 * window) by lia. rewrite Z.mod_mul by lia. lia.
  - intros Hlt. apply not_true_is_false. rewrite existsb_exists. intros (e' & Hin' & Ho).
    pose proof (steady_le log Hs e' Hin'). unfold overwrites in Ho. rewrite Z.mod_small in Ho by lia. lia.
Qed.

(** After entries at times that do not go back, the sum and the count are
    those of the entries that no later entry overwrites from a whole number of
    windows away, and the average is their quotient; nothing overflows while the
    sum of all entries fits in 32 bits, and there is no division by zero. If no
    second goes without an entry these are the entries of the last
    [window] seconds, as the header says; after a pause older ones are still
    counted. *)
Theorem AverageRoller_spec (window now : Z) (es : entries) :
  0 < window < 2 ^ 32 -> 0 <= now -> in_order (u32 now) es -> es <> [] ->
  List.Forall (fun e => 0 <= e.2) es -> total es < 2 ^ 32 -> entry_count es < 2 ^ 32 ->
  let log := rev es in
  exists r, run (AverageRoller_new window now) es = Some r /\
    r.(roller_sum) = total (counted window log) /\
    r.(roller_entryCount) = entry_count (counted window log) /\ 0 < r.(roller_entryCount) /\
    AverageRoller_getAverage r = r.(roller_sum) / r.(roller_entryCount) /\
    (steady log -> counted window log = List.filter (fun e => last_time log - window <? e.1) log).
Proof.
  intros Hw Hnow Ho Hne Hv Ht Hc log.
  destruct (run_tracks es (AverageRoller_new window now) [] (new_tracks window now Hw)) as (r & E & Hr & Ew & Hp & Ha); try done.
  exists r. split; [exact E|]. rewrite app_nil_r in Hr. pose proof (tracks_sum _ _ Hr) as H1. pose proof (tracks_count _ _ Hr) as H2.
  rewrite Ew in H1, H2. split; [exact H1|]. split; [exact H2|]. split; [exact Hp|]. split; [exact Ha|].
  intros Hs. apply counted_steady; [lia|exact Hs].
Qed.

(** A window of four seconds: the entry of second 101 is replaced by that of
    second 105, the one of second 102 is still counted after it, though it is
    older than the window at second 107. *)
Lemma AverageRoller_spec_witness :
  exists r, run (AverageRoller_new 4 100) [(101, 10); (102, 20); (105, 40); (107, 60)] = Some r /\
    r.(roller_sum) = 120 /\ r.(roller_entryCount) = 3 /\ AverageRoller_getAverage r = 40.
Proof.
  destruct (AverageRoller_spec 4 100 [(101, 10); (102, 20); (105, 40); (107, 60)]) as (r & E & H1 & H2 & _ & H3 & _);
    try done.
  - repeat (constructor; [cbn; lia|]). constructor.
  - exists r. split; [exact E|]. rewrite H3, H1, H2. split_and!; reflexivity.
Defined.
