(* ===== verification/SearchStore.v ===== *)
(** * The search store (dht/dhtcore/SearchStore.c)

    A search keeps a stack of nodes to ask and a ring of the last 256 nodes that
    were asked. A request carries a transaction id made of the slot of the
    search, the place of the node in the ring and a random number; the reply is
    matched to the node by it. A pointer to a search is its slot, good until the
    search is freed; a pointer to a node is a slot and a place in the ring. The
    time and the random numbers are arguments. *)
From stdpp Require Import gmap.
From S2P Require Import Prelude Memory Bits Benc NaCl Address AverageRoller.
Open Scope Z_scope.

Definition SearchStore_SEARCH_NODES : Z := 256.
Definition SearchStore_MAX_SEARCHES : Z := 8.

Record SearchStore_Node := {
  timeOfRequest : Z;
  txid : option String;
  node_search : option Z;
  node_address : Address
}.

Record SearchStore_Search := {
  searchIndex : Z;
  searchStackSize : Z;
  nodesAskedIndex : Z;
  searchTarget : list Z;
  searchStack : Z -> Address;
  nodesAsked : Z -> SearchStore_Node
}.

Record SearchStore := {
  searches : Z -> option SearchStore_Search;
  gmrtRoller : AverageRoller
}.

Definition SearchStore_NodePointer : Type := Z * Z.

Definition zero_address : Address := {| ip6 := repeat 0 16; key := repeat 0 32; path := 0 |}.
Definition unasked : SearchStore_Node :=
  {| timeOfRequest := 0; txid := None; node_search := None; node_address := zero_address |}.

Definition set_search (store : SearchStore) (i : Z) (s : option SearchStore_Search) : SearchStore :=
  {| searches := fun j => if j =? i then s else store.(searches) j; gmrtRoller := store.(gmrtRoller) |}.

Definition SearchStore_new (roller : AverageRoller) : SearchStore :=
  {| searches := fun _ => None; gmrtRoller := roller |}.

(** Runs when the allocator of the search is freed. *)
Definition freeSearch (store : SearchStore) (search : SearchStore_Search) : SearchStore :=
  set_search store search.(searchIndex) None.

Definition new_search (searchTarget : list Z) (i : Z) : SearchStore_Search :=
  {| searchIndex := u16 i; searchStackSize := 0; nodesAskedIndex := 0;
     searchTarget := take (Z.to_nat Address_SEARCH_TARGET_SIZE) searchTarget;
     searchStack := fun _ => zero_address; nodesAsked := fun _ => unasked |}.

Definition free_slot (store : SearchStore) : unit + Z :=
  for_until (Z.to_nat SearchStore_MAX_SEARCHES) 0
    (fun i _ => if bool_decide (store.(searches) i = None) then inr i else inl tt) tt.

Definition SearchStore_newSearch (searchTarget : list Z) (store : SearchStore) : SearchStore * option Z :=
  match free_slot store with
  | inl _ => (store, None)
  | inr i => (set_search store i (Some (new_search searchTarget i)), Some i)
  end.

Section store.
  Context {P : Platform}.

(** [struct SearchStore_NodeIndex]: slot, place in the ring, random number. *)
Definition SearchStore_NodeIndex (search node magic : Z) : String := store 2 search ++ store 2 node ++ store 4 magic.
Definition index_search (index : String) : Z := load 2 (of_list index) 0.
Definition index_node (index : String) : Z := load 2 (of_list index) 2.

Definition SearchStore_getNode (txid : String) (store : SearchStore) : option SearchStore_NodePointer :=
  if negb (length txid =? 8)%nat then None
  else if (SearchStore_MAX_SEARCHES <=? index_search txid) || (SearchStore_SEARCH_NODES <=? index_node txid) then None
  else
    match store.(searches) (index_search txid) with
    | None => None
    | Some search =>
        let n := search.(nodesAsked) (index_node txid) in
        if String_equals (Some txid) n.(SearchStore.txid) then Some (index_search txid, index_node txid) else None
    end.

(** The loop of [SearchStore_addNodeToSearch]: true returns -1. *)
Definition already_asked (addr : Address) (search : SearchStore_Search) : bool :=
  let body i _ :=
    let asked_key := (search.(nodesAsked) i).(node_address).(key) in
    if Bits_memcmp (take 32 addr.(key)) (take 32 asked_key) =? 0 then inr true
    else if (i =? search.(nodesAskedIndex)) && Bits_isZero (of_list asked_key) 0 32 then inr false
    else inl tt in
  match for_until (Z.to_nat SearchStore_SEARCH_NODES) 0 body tt with inr found => found | inl _ => false end.

(** [None]: the search was freed. *)
Definition SearchStore_addNodeToSearch (addr : Address) (i : Z) (store : SearchStore) : option (SearchStore * Z) :=
  search ← store.(searches) i;
  if already_asked addr search then Some (store, -1)
  else
    let full := negb (search.(searchStackSize) <? SearchStore_SEARCH_NODES) in
    let index := if full then u16 (search.(searchStackSize) - 1) else search.(searchStackSize) in
    let size := if full then search.(searchStackSize) else u16 (search.(searchStackSize) + 1) in
    let search :=
      {| searchIndex := search.(searchIndex); searchStackSize := size; nodesAskedIndex := search.(nodesAskedIndex);
         searchTarget := search.(searchTarget);
         searchStack := fun j => if j =? index then addr else search.(searchStack) j;
         nodesAsked := search.(nodesAsked) |} in
    Some (set_search store i (Some search), 0).

(** [node] is the node the pointer refers to, [now] in milliseconds. *)
Definition SearchStore_replyReceived (node : SearchStore_Node) (now nowSeconds : Z) (store : SearchStore)
    : option (SearchStore * Z) :=
  let delay := u32 (u64 (now - node.(timeOfRequest))) in
  '(roller, _) ← AverageRoller_update store.(gmrtRoller) nowSeconds delay;
  Some ({| searches := store.(searches); gmrtRoller := roller |}, delay).

Definition SearchStore_getNextNode (i now magic : Z) (store : SearchStore)
    : option (SearchStore * option SearchStore_NodePointer) :=
  search ← store.(searches) i;
  if search.(searchStackSize) =? 0 then Some (store, None)
  else
    let ni := SearchStore_NodeIndex search.(searchIndex) search.(nodesAskedIndex) magic in
    let size := u16 (search.(searchStackSize) - 1) in
    let nn := {| node_address := search.(searchStack) size; txid := Some ni; timeOfRequest := now;
                 node_search := Some i |} in
    let asked := search.(nodesAskedIndex) in
    let search :=
      {| searchIndex := search.(searchIndex); searchStackSize := size;
         nodesAskedIndex := u16 ((asked + 1) mod SearchStore_SEARCH_NODES);
         searchTarget := search.(searchTarget); searchStack := search.(searchStack);
         nodesAsked := fun j => if j =? asked then nn else search.(nodesAsked) j |} in
    Some (set_search store i (Some search), Some (i, asked)).
End store.

Definition node_at (store : SearchStore) (p : SearchStore_NodePointer) : option SearchStore_Node :=
  search ← store.(searches) p.1; Some (search.(nodesAsked) p.2).

(** ** Searches as stacks and histories

    What a search has left to ask, best node first, and all the nodes it has
    asked, latest first; it remembers the latest 256. *)
Record open_search := { todo : list Address; asked : list SearchStore_Node }.

Definition recent (s : open_search) : list SearchStore_Node := take 256 s.(asked).
Definition key_asked (addr : Address) (s : open_search) : bool :=
  existsb (fun n => bool_decide (n.(node_address).(key) = addr.(key))) (recent s).
(** Nodes come worst first: on a full stack the best one is replaced. *)
Definition queued (addr : Address) (s : open_search) : open_search :=
  {| todo := addr :: (if (length s.(todo) <? 256)%nat then s.(todo) else drop 1 s.(todo)); asked := s.(asked) |}.

#[local] Abbreviation table := (gmap Z open_search).

Definition slots : list Z := [0; 1; 2; 3; 4; 5; 6; 7].
Definition waiting (g : table) : list SearchStore_Node :=
  concat (map (fun i => match g !! i with Some s => recent s | None => [] end) slots).

Inductive search_op :=
| NewSearch (target : list Z)
| FreeSearch (i : Z)
| AddNode (addr : Address) (i : Z)
| NextNode (i now magic : Z)
| GetNode (t : String).

Inductive search_result :=
| Opened (i : option Z)
| Freed
| Queued (r : Z)
| Gave (n : option SearchStore_Node).

Section spec.
  Context {P : Platform}.

Definition do_op (store : SearchStore) (op : search_op) : option (SearchStore * search_result) :=
  match op with
  | NewSearch target => let '(store, i) := SearchStore_newSearch target store in Some (store, Opened i)
  | FreeSearch i => search ← store.(searches) i; Some (freeSearch store search, Freed)
  | AddNode addr i => '(store, r) ← SearchStore_addNodeToSearch addr i store; Some (store, Queued r)
  | NextNode i now magic =>
      '(store, n) ← SearchStore_getNextNode i now magic store; Some (store, Gave (n ≫= node_at store))
  | GetNode t => Some (store, Gave (SearchStore_getNode t store ≫= node_at store))
  end.

Definition asked_node (i now magic : Z) (s : open_search) (addr : Address) : SearchStore_Node :=
  {| node_address := addr; txid := Some (SearchStore_NodeIndex i (Z.of_nat (length s.(asked)) mod 256) magic);
     timeOfRequest := now; node_search := Some i |}.

(** [None]: the operation is on a search that does not exist. *)
Definition spec_op (g : table) (op : search_op) : option (table * search_result) :=
  match op with
  | NewSearch _ =>
      match List.find (fun i => bool_decide (g !! i = None)) slots with
      | None => Some (g, Opened None)
      | Some i => Some (<[i := {| todo := []; asked := [] |}]> g, Opened (Some i))
      end
  | FreeSearch i => _ ← g !! i; Some (delete i g, Freed)
  | AddNode addr i =>
      s ← g !! i;
      if key_asked addr s then Some (g, Queued (-1)) else Some (<[i := queued addr s]> g, Queued 0)
  | NextNode i now magic =>
      s ← g !! i;
      match s.(todo) with
      | [] => Some (g, Gave None)
      | addr :: rest =>
          let n := asked_node i now magic s addr in
          Some (<[i := {| todo := rest; asked := n :: s.(asked) |}]> g, Gave (Some n))
      end
  | GetNode t => Some (g, Gave (List.find (fun n => bool_decide (n.(txid) = Some t)) (waiting g)))
  end.

Fixpoint do_all {S : Type} (step : S -> search_op -> option (S * search_result)) (s : S) (ops : list search_op)
    : option (S * list search_result) :=
  match ops with
  | [] => Some (s, [])
  | op :: ops => '(s, r) ← step s op; '(s, rs) ← do_all step s ops; Some (s, r :: rs)
  end.

(** Nodes are identified by keys that are not all zero. *)
Definition key_valid (k : list Z) : Prop := length k = 32%nat /\ k <> repeat 0 32.
Definition op_ok (op : search_op) : Prop :=
  match op with AddNode addr _ => key_valid addr.(key) | GetNode t => bytes_ok t | _ => True end.

(** ** The representation *)
Record search_rep (i : Z) (s : SearchStore_Search) (a : open_search) : Prop := {
  rep_index : s.(searchIndex) = i;
  rep_size : s.(searchStackSize) = Z.of_nat (length a.(todo)) /\ (length a.(todo) <= 256)%nat;
  rep_todo : forall j x, a.(todo) !! j = Some x -> s.(searchStack) (s.(searchStackSize) - 1 - Z.of_nat j) = x;
  rep_next : s.(nodesAskedIndex) = Z.of_nat (length a.(asked)) mod 256;
  rep_ring : forall k, 0 <= k < 256 ->
    s.(nodesAsked) k = default unasked (a.(asked) !! Z.to_nat ((Z.of_nat (length a.(asked)) - 1 - k) mod 256));
  rep_keys : forall n, n ∈ a.(asked) -> key_valid n.(node_address).(key);
  rep_txid : forall j n, a.(asked) !! j = Some n ->
    exists magic, n.(txid) = Some (SearchStore_NodeIndex i ((Z.of_nat (length a.(asked)) - 1 - Z.of_nat j) mod 256) magic);
  rep_todo_keys : forall x, x ∈ a.(todo) -> key_valid x.(key)
}.

Definition store_rep (store : SearchStore) (g : table) : Prop :=
  forall i, match store.(searches) i, g !! i with
    | Some s, Some a => 0 <= i < 8 /\ search_rep i s a
    | None, None => True
    | _, _ => False
    end.

Lemma store_lookup store g i a : store_rep store g -> g !! i = Some a ->
  exists s, store.(searches) i = Some s /\ 0 <= i < 8 /\ search_rep i s a.
Proof. intros H Hg. specialize (H i). rewrite Hg in H. destruct (searches store i) as [s|]; [|done]. exists s. tauto. Qed.

Lemma set_search_rep store g i s a : store_rep store g -> 0 <= i < 8 -> search_rep i s a ->
  store_rep (set_search store i (Some s)) (<[i := a]> g).
Proof.
  intros H Hi Hs j. cbn. destruct (Z.eqb_spec j i) as [->|Hne].
  - rewrite lookup_insert_eq. done.
  - rewrite lookup_insert_ne by done. apply H.
Qed.

(** ** Transaction ids *)
Lemma index_search_of i k m : 0 <= i < 8 -> index_search (SearchStore_NodeIndex i k m) = i.
Proof.
  intros Hi. unfold index_search, SearchStore_NodeIndex.
  change (store 2 i ++ store 2 k ++ store 4 m) with ([] ++ store 2 i ++ (store 2 k ++ store 4 m)).
  rewrite load_of_list_mid by done. apply Z.mod_small. lia.
Qed.

Lemma index_node_of i k m : 0 <= k < 256 -> index_node (SearchStore_NodeIndex i k m) = k.
Proof.
  intros Hi. unfold index_node, SearchStore_NodeIndex.
  rewrite load_of_list_mid by (rewrite length_store; done). apply Z.mod_small. lia.
Qed.

Lemma length_NodeIndex i k m : length (SearchStore_NodeIndex i k m) = 8%nat.
Proof. unfold SearchStore_NodeIndex. rewrite !length_app, !length_store. done. Qed.

(** ** The ring *)
Lemma ring_place (len : Z) (k : Z) : 0 <= k < 256 -> (len - 1 - (len - 1 - k) mod 256) mod 256 = k.
Proof. intros Hk. pose proof (Z.mod_pos_bound (len - 1 - k) 256). Z.div_mod_to_equations. lia. Qed.

(** What lies in the ring is what was asked lately, and empty nodes. *)
Lemma ring_recent i s a k : search_rep i s a -> 0 <= k < 256 ->
  s.(nodesAsked) k = unasked \/
  (s.(nodesAsked) k ∈ recent a /\
   exists magic, (s.(nodesAsked) k).(txid) = Some (SearchStore_NodeIndex i k magic)).
Proof.
  intros R Hk. rewrite (rep_ring _ _ _ R) by done.
  set (len := Z.of_nat (length a.(asked))). pose proof (Z.mod_pos_bound (len - 1 - k) 256 ltac:(lia)) as Hm.
  destruct (a.(asked) !! Z.to_nat ((len - 1 - k) mod 256)) as [n|] eqn:E; [right|by left]. cbn. split.
  - apply list_elem_of_lookup. exists (Z.to_nat ((len - 1 - k) mod 256)). unfold recent.
    rewrite lookup_take_lt by lia. done.
  - destruct (rep_txid _ _ _ R _ _ E) as (magic & Ht). exists magic. rewrite Ht. do 2 f_equal.
    fold len. rewrite Z2Nat.id by lia. apply ring_place. done.
Qed.

Lemma recent_ring i s a n : search_rep i s a -> n ∈ recent a ->
  exists k magic, 0 <= k < 256 /\ s.(nodesAsked) k = n /\ n.(txid) = Some (SearchStore_NodeIndex i k magic).
Proof.
  intros R (j & Hj)%list_elem_of_lookup. unfold recent in Hj. apply lookup_take_Some in Hj as [Hj Hlt].
  destruct (rep_txid _ _ _ R _ _ Hj) as (magic & Ht).
  set (len := Z.of_nat (length a.(asked))) in *. exists ((len - 1 - Z.of_nat j) mod 256), magic.
  pose proof (Z.mod_pos_bound (len - 1 - Z.of_nat j) 256 ltac:(lia)). split; [lia|]. split; [|done].
  rewrite (rep_ring _ _ _ R) by lia. fold len.
  assert ((len - 1 - (len - 1 - Z.of_nat j) mod 256) mod 256 = Z.of_nat j) as ->.
  { Z.div_mod_to_equations. lia. }
  rewrite Nat2Z.id, Hj. done.
Qed.

(** ** Finding a node *)
Lemma waiting_elem g n : n ∈ waiting g <-> exists i a, 0 <= i < 8 /\ g !! i = Some a /\ n ∈ recent a.
Proof.
  unfold waiting. rewrite list_elem_of_In, in_concat. split.
  - intros (l & (i & <- & Hi)%in_map_iff & Hn). assert (0 <= i < 8) by (unfold slots in Hi; repeat (destruct Hi as [<-|Hi]; [lia|]); done).
    destruct (g !! i) as [a|] eqn:E; [|done]. exists i, a. rewrite list_elem_of_In. done.
  - intros (i & a & Hi & Hg & Hn). exists (recent a). split; [|by apply list_elem_of_In].
    apply in_map_iff. exists i. rewrite Hg. split; [done|]. unfold slots.
    assert (i = 0 \/ i = 1 \/ i = 2 \/ i = 3 \/ i = 4 \/ i = 5 \/ i = 6 \/ i = 7) by lia. cbn. intuition.
Qed.

(** The pointer of a node that is waiting for an answer. *)
Lemma getNode_complete store g t n : store_rep store g -> n ∈ waiting g -> n.(txid) = Some t ->
  SearchStore_getNode t store ≫= node_at store = Some n.
Proof.
  intros R (i & a & Hi & Hg & Hn)%waiting_elem Ht. destruct (store_lookup _ _ _ _ R Hg) as (s & Es & _ & Rs).
  destruct (recent_ring _ _ _ _ Rs Hn) as (k & magic & Hk & Ek & Et). rewrite Ht in Et. injection Et as ->.
  unfold SearchStore_getNode. rewrite length_NodeIndex, index_search_of, index_node_of by lia.
  unfold SearchStore_MAX_SEARCHES, SearchStore_SEARCH_NODES.
  rewrite (proj2 (Z.leb_gt _ _)), (proj2 (Z.leb_gt _ _)) by lia. cbn [negb Nat.eqb orb].
  rewrite Es, Ek, Ht. rewrite (proj2 (String_equals_spec _ _)) by done. cbn. unfold node_at. cbn. rewrite Es. cbn. congruence.
Qed.

Lemma getNode_sound store g t n : store_rep store g -> bytes_ok t ->
  SearchStore_getNode t store ≫= node_at store = Some n -> n ∈ waiting g /\ n.(txid) = Some t.
Proof.
  intros R Ht. pose proof (load_range 2 _ 2 (of_list_ok _ Ht)) as Hk. fold (index_node t) in Hk.
  unfold SearchStore_getNode. destruct (negb _); [done|].
  destruct (Z.leb_spec SearchStore_MAX_SEARCHES (index_search t)); [done|].
  destruct (Z.leb_spec SearchStore_SEARCH_NODES (index_node t)) as [|Hlt]; [done|]. cbn [orb].
  destruct (searches store (index_search t)) as [s|] eqn:Es; [|done].
  destruct (String_equals _ _) eqn:Eq; [|done]. cbn. unfold node_at. cbn. rewrite Es. cbn. intros [= <-].
  destruct (txid (nodesAsked s (index_node t))) as [t'|] eqn:Et; [|done]. apply String_equals_spec in Eq as <-.
  split; [|done]. pose proof (R (index_search t)) as Rs. rewrite Es in Rs.
  destruct (g !! index_search t) as [a|] eqn:Eg; [|done]. destruct Rs as [Hi Rs]. unfold SearchStore_SEARCH_NODES in Hlt.
  destruct (ring_recent _ _ _ (index_node t) Rs) as [Ez|[Hn _]]; [lia|rewrite Ez in Et; done|].
  apply waiting_elem. eauto.
Qed.

Lemma getNode_spec store g t : store_rep store g -> bytes_ok t ->
  SearchStore_getNode t store ≫= node_at store = List.find (fun n => bool_decide (n.(txid) = Some t)) (waiting g).
Proof.
  intros R Ht. destruct (List.find _ _) as [n|] eqn:E.
  - apply List.find_some in E as [Hn E%bool_decide_eq_true]. apply list_elem_of_In in Hn.
    by apply (getNode_complete store g).
  - destruct (SearchStore_getNode t store ≫= node_at store) as [n|] eqn:En; [|done]. exfalso.
    destruct (getNode_sound _ _ _ _ R Ht En) as [Hn Et]. apply list_elem_of_In in Hn.
    pose proof (List.find_none _ _ E n Hn) as Hno. cbn in Hno. rewrite bool_decide_eq_false in Hno. done.
Qed.

(** ** Asking *)

(** A loop that looks for [p] and gives up at [q], behind which there is no [p]. *)
Lemma search_until (n : nat) : forall lo (p q : Z -> bool),
  (forall i j, lo <= i <= j -> j < lo + Z.of_nat n -> q i = true -> p i = false -> p j = false) ->
  match for_until n lo (fun i _ => if p i then inr true else if q i then inr false else inl tt) tt with
  | inr found => found
  | inl _ => false
  end = true <-> exists i, lo <= i < lo + Z.of_nat n /\ p i = true.
Proof.
  induction n as [|n IH]; intros lo p q Hq; cbn [for_until].
  - split; [done|]. intros (i & Hi & _). lia.
  - destruct (p lo) eqn:Ep; [split; [|done]; intros _; exists lo; split; [lia|done]|].
    destruct (q lo) eqn:Eq.
    + split; [done|]. intros (i & Hi & Hp). rewrite (Hq lo i) in Hp by (done || lia). done.
    + rewrite IH by (intros i j Hij Hj; apply Hq; lia). split.
      * intros (i & Hi & Hp). exists i. split; [lia|done].
      * intros (i & Hi & Hp). exists i. split; [|done]. destruct (decide (i = lo)) as [->|]; [congruence|lia].
Qed.

Lemma isZero_key k : length k = 32%nat -> Bits_isZero (of_list k) 0 32 = bool_decide (k = repeat 0 32).
Proof.
  intros Hk. apply eq_true_iff_eq. rewrite isZero_spec, bool_decide_eq_true, read_of_list by (rewrite Hk; done). done.
Qed.

Lemma asked_key_length i s a k : search_rep i s a -> 0 <= k < 256 ->
  length (s.(nodesAsked) k).(node_address).(key) = 32%nat.
Proof.
  intros R Hk. destruct (ring_recent i s a k R Hk) as [->|[Hn _]]; [done|].
  apply (rep_keys _ _ _ R). unfold recent in Hn. apply list_elem_of_lookup in Hn as (j & Hj).
  apply lookup_take_Some in Hj as [Hj _]. by apply list_elem_of_lookup_2 in Hj.
Qed.

(** Behind the first unused place all are unused. *)
Lemma ring_unused i s a j k : search_rep i s a -> 0 <= j <= k -> k < 256 -> j = s.(nodesAskedIndex) ->
  (s.(nodesAsked) j).(node_address).(key) = repeat 0 32 -> s.(nodesAsked) k = unasked.
Proof.
  intros R Hj Hk Ej. rewrite (rep_next _ _ _ R) in Ej. rewrite !(rep_ring _ _ _ R) by lia.
  set (len := Z.of_nat (length a.(asked))) in *.
  pose proof (Z.mod_pos_bound (len - 1 - j) 256 ltac:(lia)). destruct (Z.lt_ge_cases len 256) as [Hs|Hb].
  - rewrite Z.mod_small in Ej by lia. intros _. rewrite (lookup_ge_None_2 _ (Z.to_nat ((len - 1 - k) mod 256))); [done|].
    assert ((len - 1 - k) mod 256 = len - 1 - k + 256) by (Z.div_mod_to_equations; lia). lia.
  - destruct (lookup_lt_is_Some_2 a.(asked) (Z.to_nat ((len - 1 - j) mod 256))) as [n Hn]; [lia|].
    rewrite Hn. cbn [default]. intros Hz. apply list_elem_of_lookup_2 in Hn. destruct (rep_keys _ _ _ R n Hn). done.
Qed.

Lemma already_asked_spec i s a addr : search_rep i s a -> key_valid addr.(key) ->
  already_asked addr s = key_asked addr a.
Proof.
  intros R [Hl Hz]. apply eq_true_iff_eq. unfold already_asked.
  assert (forall k, 0 <= k < 256 ->
    (Bits_memcmp (take 32 addr.(key)) (take 32 (s.(nodesAsked) k).(node_address).(key)) =? 0) = true <->
    (s.(nodesAsked) k).(node_address).(key) = addr.(key)) as Hcmp.
  { intros k Hk. pose proof (asked_key_length i s a k R Hk). rewrite !take_ge by lia.
    rewrite Z.eqb_eq, memcmp_0 by lia. done. }
  rewrite (search_until 256 0 (fun k => Bits_memcmp (take 32 addr.(key)) (take 32 (s.(nodesAsked) k).(node_address).(key)) =? 0)
    (fun k => (k =? s.(nodesAskedIndex)) && Bits_isZero (of_list (s.(nodesAsked) k).(node_address).(key)) 0 32)).
  - unfold key_asked. rewrite existsb_exists. split.
    + intros (k & Hk & Hp%Hcmp); [|lia]. exists (s.(nodesAsked) k). rewrite bool_decide_eq_true. split; [|done].
      apply list_elem_of_In. destruct (ring_recent i s a k R) as [Ez|[Hn _]]; [lia| |done].
      rewrite Ez in Hp. exfalso. apply Hz. by rewrite <-Hp.
    + intros (n & Hn & He%bool_decide_eq_true). apply list_elem_of_In in Hn.
      destruct (recent_ring i s a n R Hn) as (k & _ & Hk & Ek & _). exists k. split; [lia|]. apply Hcmp; [lia|]. congruence.
  - intros j k Hj Hk [Ej Ez]%andb_true_iff _. apply Z.eqb_eq in Ej.
    rewrite isZero_key, bool_decide_eq_true in Ez by (apply (asked_key_length i s a); [done|lia]).
    apply not_true_is_false. rewrite Hcmp by lia.
    rewrite (ring_unused i s a j k R) by (done || lia). intros E. apply Hz. rewrite <-E. done.
Qed.

(** ** The operations *)
Lemma new_search_rep i target : 0 <= i < 8 -> search_rep i (new_search target i) {| todo := []; asked := [] |}.
Proof.
  intros Hi. split; cbn; try done.
  - apply u16_small. lia.
  - split; [done|lia].
  - intros n Hn. by apply elem_of_nil in Hn.
  - intros x Hx. by apply elem_of_nil in Hx.
Qed.

Lemma free_slot_spec store g : store_rep store g ->
  match free_slot store with inl _ => None | inr i => Some i end = List.find (fun i => bool_decide (g !! i = None)) slots.
Proof.
  intros R.
  assert (forall i, bool_decide (store.(searches) i = None) = bool_decide (g !! i = None)) as E.
  { intros i. specialize (R i). destruct (searches store i), (g !! i); try done. }
  unfold free_slot. change (Z.to_nat SearchStore_MAX_SEARCHES) with 8%nat. cbn [for_until slots List.find Z.add].
  rewrite !E. repeat (destruct (bool_decide (g !! _ = None)); [done|]). done.
Qed.

Lemma newSearch_step store g target : store_rep store g ->
  exists store' r, do_op store (NewSearch target) = Some (store', r) /\
    exists g', spec_op g (NewSearch target) = Some (g', r) /\ store_rep store' g'.
Proof.
  intros R. pose proof (free_slot_spec store g R) as E. cbn [do_op spec_op]. unfold SearchStore_newSearch. rewrite <-E.
  destruct (free_slot store) as [[]|i]; [eauto 10|]. do 2 eexists. split; [done|]. eexists. split; [done|].
  symmetry in E. apply List.find_some in E as [Hi _].
  assert (0 <= i < 8) by (unfold slots in Hi; repeat (destruct Hi as [<-|Hi]; [lia|]); done).
  by apply set_search_rep, new_search_rep.
Qed.

Lemma freeSearch_step store g i a : store_rep store g -> g !! i = Some a ->
  exists store', do_op store (FreeSearch i) = Some (store', Freed) /\ store_rep store' (delete i g).
Proof.
  intros R Hg. destruct (store_lookup _ _ _ _ R Hg) as (s & Es & Hi & Rs). cbn [do_op]. rewrite Es. cbn.
  eexists. split; [done|]. unfold freeSearch. rewrite (rep_index _ _ _ Rs). intros j. cbn.
  destruct (Z.eqb_spec j i) as [->|Hne]; [rewrite lookup_delete_eq; done|]. rewrite lookup_delete_ne by done. apply R.
Qed.

Lemma addNode_step store g i a addr : store_rep store g -> g !! i = Some a -> key_valid addr.(key) ->
  exists store' r, do_op store (AddNode addr i) = Some (store', r) /\
    exists g', spec_op g (AddNode addr i) = Some (g', r) /\ store_rep store' g'.
Proof.
  intros R Hg Hk. destruct (store_lookup _ _ _ _ R Hg) as (s & Es & Hi & Rs). cbn [do_op spec_op].
  rewrite Hg. unfold SearchStore_addNodeToSearch. rewrite Es. cbn [mbind option_bind].
  rewrite (already_asked_spec i s a addr Rs Hk). destruct (key_asked addr a); [eauto 10|].
  do 2 eexists. split; [done|]. eexists. split; [done|]. apply set_search_rep; [done|done|].
  destruct Rs as [H1 [H2 H2'] H3 H4 H5 H6 H7 H8]. unfold SearchStore_SEARCH_NODES.
  split; cbn [searchIndex searchStackSize searchStack nodesAskedIndex nodesAsked queued todo asked]; try done.
  - rewrite H2. destruct (Z.ltb_spec (Z.of_nat (length a.(todo))) 256) as [Hf|Hf]; cbn [negb].
    + rewrite (proj2 (Nat.ltb_lt _ _)), u16_small by lia. cbn [length]. lia.
    + rewrite (proj2 (Nat.ltb_ge _ _)) by lia. cbn [length]. rewrite length_drop. lia.
  - rewrite H2 in *. intros [|j] x; rewrite lookup_cons.
    + intros [= <-]. destruct (Z.ltb_spec (Z.of_nat (length a.(todo))) 256); cbn [negb]; rewrite u16_small by lia; bcase; (done || lia).
    + destruct (Z.ltb_spec (Z.of_nat (length a.(todo))) 256) as [Hf|Hf]; cbn [negb]; rewrite u16_small by lia.
      * rewrite (proj2 (Nat.ltb_lt _ _)) by lia. intros Hx. pose proof (lookup_lt_Some _ _ _ Hx). bcase; [lia|].
        rewrite <-(H3 j x Hx). f_equal. lia.
      * rewrite (proj2 (Nat.ltb_ge _ _)) by lia. intros Hx. rewrite lookup_drop in Hx. pose proof (lookup_lt_Some _ _ _ Hx).
        bcase; [lia|]. rewrite <-(H3 (S j) x Hx). f_equal; lia.
  - intros x [->|Hx]%elem_of_cons; [done|]. apply H8. destruct (length a.(todo) <? 256)%nat; [done|].
    destruct (todo a); [done|right; apply Hx].
Qed.

Lemma ring_push (len k : Z) : 0 <= len -> 0 <= k < 256 -> k <> len mod 256 ->
  (len + 1 - 1 - k) mod 256 = 1 + (len - 1 - k) mod 256.
Proof. intros Hl Hk Hne. Z.div_mod_to_equations. lia. Qed.

Lemma ring_here (len : Z) : (len + 1 - 1 - len mod 256) mod 256 = 0.
Proof. replace (len + 1 - 1 - len mod 256) with ((len / 256) * 256); [apply Z.mod_mul; lia|]. Z.div_mod_to_equations. lia. Qed.

Lemma asked_rep i s a addr rest now magic : search_rep i s a -> a.(todo) = addr :: rest ->
  search_rep i
    {| searchIndex := s.(searchIndex); searchStackSize := Z.of_nat (length rest);
       nodesAskedIndex := u16 ((s.(nodesAskedIndex) + 1) mod SearchStore_SEARCH_NODES);
       searchTarget := s.(searchTarget); searchStack := s.(searchStack);
       nodesAsked := fun j => if j =? s.(nodesAskedIndex) then asked_node i now magic a addr else s.(nodesAsked) j |}
    {| todo := rest; asked := asked_node i now magic a addr :: a.(asked) |}.
Proof.
  intros [H1 [H2 H2'] H3 H4 H5 H6 H7 H8] E. rewrite E in *. cbn [length] in *. unfold SearchStore_SEARCH_NODES.
  set (len := Z.of_nat (length a.(asked))) in *.
  split; cbn [searchIndex searchStackSize searchStack nodesAskedIndex nodesAsked todo asked length]; try done.
  - split; [done|lia].
  - intros j x Hx. rewrite <-(H3 (S j) x Hx). f_equal. lia.
  - rewrite H4, u16_small by (pose proof (Z.mod_pos_bound (len mod 256 + 1) 256); lia).
    rewrite Zplus_mod_idemp_l. fold len. f_equal. lia.
  - intros k Hk. rewrite H4. rewrite Nat2Z.inj_succ. unfold Z.succ. fold len. destruct (Z.eqb_spec k (len mod 256)) as [->|Hne].
    + rewrite ring_here. done.
    + rewrite ring_push by lia. rewrite H5 by done. pose proof (Z.mod_pos_bound (len - 1 - k) 256 ltac:(lia)).
      replace (Z.to_nat (1 + (len - 1 - k) mod 256)) with (S (Z.to_nat ((len - 1 - k) mod 256))) by lia. done.
  - intros n [->|Hn]%elem_of_cons; [|auto]. cbn. apply H8. by left.
  - intros j n Hj. rewrite Nat2Z.inj_succ. unfold Z.succ. fold len. destruct j as [|j]; rewrite lookup_cons in Hj.
    + injection Hj as <-. exists magic. cbn [txid asked_node]. fold len. do 3 f_equal. lia.
    + destruct (H7 j n Hj) as (m & Hm). exists m. rewrite Hm. do 3 f_equal. lia.
  - intros x Hx. apply H8. by right.
Qed.

Lemma nextNode_step store g i a now magic : store_rep store g -> g !! i = Some a ->
  exists store' r, do_op store (NextNode i now magic) = Some (store', r) /\
    exists g', spec_op g (NextNode i now magic) = Some (g', r) /\ store_rep store' g'.
Proof.
  intros R Hg. destruct (store_lookup _ _ _ _ R Hg) as (s & Es & Hi & Rs). cbn [do_op spec_op].
  rewrite Hg. unfold SearchStore_getNextNode. rewrite Es. cbn [mbind option_bind].
  destruct (rep_size _ _ _ Rs) as [H2 H2']. rewrite H2. destruct (todo a) as [|addr rest] eqn:Et; [cbn; eauto 10|].
  cbn [length] in *. destruct (Z.eqb_spec (Z.of_nat (S (length rest))) 0); [lia|].
  assert (u16 (Z.of_nat (S (length rest)) - 1) = Z.of_nat (length rest)) as -> by (rewrite u16_small; lia).
  assert (searchStack s (Z.of_nat (length rest)) = addr) as ->.
  { rewrite <-(rep_todo _ _ _ Rs 0%nat addr) by (rewrite Et; done). f_equal. lia. }
  rewrite (rep_index _ _ _ Rs). do 2 eexists. split; [done|].
  eexists. split.
  - unfold node_at. cbn. rewrite Z.eqb_refl. cbn. rewrite Z.eqb_refl. unfold asked_node. rewrite <-(rep_next _ _ _ Rs). done.
  - pose proof (asked_rep i s a addr rest now magic Rs Et) as H. unfold asked_node in *.
    rewrite (rep_index _ _ _ Rs), <-(rep_next _ _ _ Rs) in H. by apply set_search_rep.
Qed.

Lemma store_step store g op g' r : store_rep store g -> op_ok op -> spec_op g op = Some (g', r) ->
  exists store', do_op store op = Some (store', r) /\ store_rep store' g'.
Proof.
  intros R Hok Hs.
  assert (forall store1 r1, do_op store op = Some (store1, r1) ->
    (exists g1, spec_op g op = Some (g1, r1) /\ store_rep store1 g1) ->
    exists store', do_op store op = Some (store', r) /\ store_rep store' g') as Hsame.
  { intros store1 r1 Hd (g1 & Hs1 & R1). exists store1. rewrite Hs in Hs1. injection Hs1 as -> ->. done. }
  destruct op as [target|i|addr i|i now magic|t].
  - destruct (newSearch_step store g target R) as (? & ? & Hd & Hr). by eapply Hsame.
  - cbn [spec_op] in Hs. destruct (g !! i) as [a|] eqn:Hg; [|done]. injection Hs as <- <-.
    by apply freeSearch_step with a.
  - cbn [spec_op] in Hs. destruct (g !! i) as [a|] eqn:Hg; [|done].
    destruct (addNode_step store g i a addr R Hg Hok) as (? & ? & Hd & Hr). by eapply Hsame.
  - cbn [spec_op] in Hs. destruct (g !! i) as [a|] eqn:Hg; [|done].
    destruct (nextNode_step store g i a now magic R Hg) as (? & ? & Hd & Hr). by eapply Hsame.
  - injection Hs as <- <-. exists store. cbn [do_op]. rewrite (getNode_spec store g t R Hok). done.
Qed.

Lemma store_run ops : forall store g g' rs, store_rep store g -> List.Forall op_ok ops ->
  do_all spec_op g ops = Some (g', rs) -> exists store', do_all do_op store ops = Some (store', rs) /\ store_rep store' g'.
Proof.
  induction ops as [|op ops IH]; intros store g g' rs R Hok Hs; cbn [do_all] in *.
  - injection Hs as <- <-. eauto.
  - apply Forall_cons_iff in Hok as [Hop Hok]. destruct (spec_op g op) as [[g1 r]|] eqn:E1; [|done].
    cbn in Hs. destruct (do_all spec_op g1 ops) as [[g2 rs']|] eqn:E2; [|done]. injection Hs as <- <-.
    destruct (store_step store g op g1 r R Hop E1) as (store1 & -> & R1).
    destruct (IH store1 g1 g2 rs' R1 Hok E2) as (store2 & E & R2). cbn. rewrite E. eauto.
Qed.

(** C31: the store implements eight searches, each a stack of at most 256 nodes
    to ask and a history of the nodes asked: a node asked lately is not taken
    again, nodes are asked best first, each is asked under a transaction id of
    its own, and an id finds the node it was given for as long as the search is
    open and fewer than 256 others were asked after it, and finds nothing else. *)
Theorem SearchStore_refines (roller : AverageRoller) (ops : list search_op) (g : table) (rs : list search_result) :
  List.Forall op_ok ops -> do_all spec_op ∅ ops = Some (g, rs) ->
  exists store, do_all do_op (SearchStore_new roller) ops = Some (store, rs) /\ store_rep store g.
Proof. intros Hok Hs. apply (store_run ops _ ∅); [|done|done]. intros i. done. Qed.
End spec.

Definition demo_peer (b : Z) : Address := {| ip6 := repeat b 16; key := repeat b 32; path := b |}.

(** Two nodes are queued and the better one is asked: its id finds it, an id
    with another random number does not, and it is not queued again. *)
Definition demo_search : list search_op :=
  [NewSearch (repeat 7 16); AddNode (demo_peer 1) 0; AddNode (demo_peer 2) 0; NextNode 0 1000 99;
   GetNode (@SearchStore_NodeIndex x86 0 0 99); GetNode (@SearchStore_NodeIndex x86 0 0 98); AddNode (demo_peer 2) 0;
   NewSearch (repeat 8 16); FreeSearch 0; GetNode (@SearchStore_NodeIndex x86 0 0 99)].

Definition demo_node : SearchStore_Node :=
  {| node_address := demo_peer 2; txid := Some (@SearchStore_NodeIndex x86 0 0 99); timeOfRequest := 1000;
     node_search := Some 0 |}.

Lemma SearchStore_refines_witness :
  exists store, do_all (@do_op x86) (SearchStore_new (AverageRoller_new 10 0)) demo_search =
    Some (store, [Opened (Some 0); Queued 0; Queued 0; Gave (Some demo_node); Gave (Some demo_node); Gave None;
                  Queued (-1); Opened (Some 1); Freed; Gave None]).
Proof.
  destruct (@SearchStore_refines x86 (AverageRoller_new 10 0) demo_search {[1 := {| todo := []; asked := [] |}]}
    [Opened (Some 0); Queued 0; Queued 0; Gave (Some demo_node); Gave (Some demo_node); Gave None;
     Queued (-1); Opened (Some 1); Freed; Gave None]) as (store & E & _).
  - repeat constructor; try discriminate.
  - vm_compute. reflexivity.
  - exists store. exact E.
Defined.
