(* ===== verification/DHT.v ===== *)
(** * Messages of the DHT and the modules they pass through (dht/DHTMessage.h,
    DHTModule.h, DHTModuleRegistry.c, ReplyModule.c, SerializationModule.c,
    CJDHTConstants.h)

    An incoming message goes through the modules from the last registered to the
    first, an outgoing one the other way around, until a module stops it. The
    modules share a state; a handler is an action on it that may abort the
    program. ReplyModule and the router send through the registry they are
    members of: they are given that as an argument ([send]), and no handler of
    outgoing messages sends. *)
From S2P Require Import Prelude Memory Benc ArrayIO BencSerializer NaCl Address.

(** ** Actions on a state; [None] is an aborted program *)
Definition M (S A : Type) : Type := S -> option (A * S).

#[export] Instance M_ret {S} : MRet (M S) := fun A a s => Some (a, s).
#[export] Instance M_bind {S} : MBind (M S) := fun A B k m s =>
  match m s with Some (a, s) => k a s | None => None end.

Definition lift {S A} (a : option A) : M S A := fun s => option_map (fun a => (a, s)) a.
Definition gets {S A} (f : S -> A) : M S A := fun s => Some (f s, s).
Definition modify {S} (f : S -> S) : M S unit := fun s => Some (tt, f s).
Definition abort {S A} : M S A := fun _ => None.

(** ** CJDHTConstants.h *)
Definition CJDHTConstants_QUERY : String := chars "q".
Definition CJDHTConstants_QUERY_FN : String := chars "fn".
Definition CJDHTConstants_QUERY_PING : String := chars "pn".
Definition CJDHTConstants_TARGET : String := chars "tar".
Definition CJDHTConstants_NODES : String := chars "n".
Definition CJDHTConstants_TXID : String := chars "txid".
Definition CJDHTConstants_VERSION : String := chars "v".
Definition CJDHTConstants_NODE_PROTOCOLS : String := chars "np".
Definition CJDHTConstants_PROTOCOL : String := chars "p".

(** ** Messages

    [dht_bytes] is the memory of the message with [bytes] at address 0 and the
    padding below it. *)
Definition DHTMessage_MAX_SIZE : Z := 1536.

Inductive DHTMessage : Type := {
  dht_address : Address;
  dht_bytes : mem;
  dht_length : Z;
  asDict : option Dict;
  replyTo : option DHTMessage
}.

Definition with_dict (message : DHTMessage) (d : Dict) : DHTMessage :=
  {| dht_address := message.(dht_address); dht_bytes := message.(dht_bytes); dht_length := message.(dht_length);
     asDict := Some d; replyTo := message.(replyTo) |}.

Definition with_bytes (message : DHTMessage) (m : mem) (length : Z) : DHTMessage :=
  {| dht_address := message.(dht_address); dht_bytes := m; dht_length := length;
     asDict := message.(asDict); replyTo := message.(replyTo) |}.

(** ** The registry *)
Section registry.
  Context {S : Type}.

(** A handler may change the message; it returns 0 to let it go on. *)
Definition Handler : Type := DHTMessage -> M S (Z * DHTMessage).

Record DHTModule := { handleIncoming : option Handler; handleOutgoing : option Handler }.

Definition DHTModuleRegistry : Type := list DHTModule.

Definition DHTModuleRegistry_register (module : DHTModule) (registry : DHTModuleRegistry) : DHTModuleRegistry :=
  registry ++ [module].

(** The loop of [DHTModuleRegistry_handleIncoming], [members] from the last on. *)
Fixpoint incoming_loop (members : list DHTModule) (message : DHTMessage) : M S unit :=
  match members with
  | [] => mret tt
  | module :: rest =>
      match module.(handleIncoming) with
      | Some handle =>
          '(ret, message) ← handle message;
          if negb (ret =? 0) then mret tt else incoming_loop rest message
      | None => incoming_loop rest message
      end
  end.

Definition DHTModuleRegistry_handleIncoming (message : DHTMessage) (registry : DHTModuleRegistry) : M S unit :=
  incoming_loop (rev registry) message.

Definition dhtModuleHandleOutgoing (module : DHTModule) : Handler := fun message =>
  match module.(handleOutgoing) with Some handle => handle message | None => mret (0, message) end.

Fixpoint forEachModule (doThis : DHTModule -> Handler) (message : DHTMessage) (registry : DHTModuleRegistry) : M S unit :=
  match registry with
  | [] => mret tt
  | module :: rest =>
      '(ret, message) ← doThis module message;
      if negb (ret =? 0) then mret tt else forEachModule doThis message rest
  end.

Definition DHTModuleRegistry_handleOutgoing (message : DHTMessage) (registry : DHTModuleRegistry) : M S unit :=
  forEachModule dhtModuleHandleOutgoing message registry.

(** ** ReplyModule.c *)
Section reply.
  Context {P : Platform}.

Definition ReplyModule_handleIncoming (send : DHTMessage -> M S unit) : Handler := fun message =>
  if bool_decide (Dict_getString message.(asDict) (Some CJDHTConstants_QUERY) = None) then mret (0, message)
  else
    _ ← send {| dht_address := message.(dht_address); dht_bytes := fun _ => 0; dht_length := 0;
                asDict := None; replyTo := Some message |};
    mret (0, message).

Definition ReplyModule_handleOutgoing : Handler := fun message =>
  match message.(replyTo) with
  | None => mret (0, message)
  | Some query =>
      let d := default Dict_new message.(asDict) in
      let d :=
        match Dict_getString query.(asDict) (Some CJDHTConstants_TXID) with
        | Some tid => fst (Dict_putString d (Some CJDHTConstants_TXID) (Some tid))
        | None => d
        end in
      mret (0, with_dict message d)
  end.

Definition ReplyModule_register (send : DHTMessage -> M S unit) (registry : DHTModuleRegistry) : DHTModuleRegistry :=
  DHTModuleRegistry_register
    {| handleIncoming := Some (ReplyModule_handleIncoming send); handleOutgoing := Some ReplyModule_handleOutgoing |}
    registry.
End reply.

(** ** SerializationModule.c *)

(** A message without a dictionary stops the program. The result of the
    serializer is not looked at. *)
Definition SerializationModule_handleOutgoing : Handler := fun message =>
  d ← lift message.(asDict);
  let '(_, writer) := serializeDictionary (ArrayWriter_new message.(dht_bytes) 0 DHTMessage_MAX_SIZE) d in
  mret (0, with_bytes message writer.(w_memory) (u16 (writer_bytesWritten writer))).

(** Enough for all bytes of a message. *)
Definition parse_fuel : nat := Z.to_nat DHTMessage_MAX_SIZE.

(** [erange]: [errno] is ERANGE. When the allocator of a message has not got a
    block, [outOfMemory] in Ducttape.c jumps out of the modules and the message
    is dropped, as a message that does not parse; a string that is longer than
    the message runs out of content in any case. So the parser is given every
    block a [size_t] can ask for. (A length so near to 2^64 that the end of the
    block is in front of the buffer gets past [outOfMemory]: then the allocator
    ends the process.) *)
Definition message_process (erange : bool) : Process := {| stale_ERANGE := erange; largest_block := 2 ^ 64 |}.

(** A message that does not parse is not looked at any more. *)
Definition SerializationModule_handleIncoming (erange : bool) : Handler := fun message =>
  '(ret, _) ← lift (parseDictionary (message_process erange) parse_fuel (ArrayReader_new message.(dht_bytes) 0 DHTMessage_MAX_SIZE));
  match ret with
  | inl _ => mret (-2, message)
  | inr d => mret (0, with_dict message d)
  end.

Definition SerializationModule_register (erange : bool) (registry : DHTModuleRegistry) : DHTModuleRegistry :=
  DHTModuleRegistry_register
    {| handleIncoming := Some (SerializationModule_handleIncoming erange);
       handleOutgoing := Some SerializationModule_handleOutgoing |}
    registry.
End registry.
Arguments Handler : clear implicits.
Arguments DHTModule : clear implicits.
Arguments DHTModuleRegistry : clear implicits.

(** ** Reasoning about actions *)
Section wp.
  Context {S : Type}.

(** The action does not abort, and its result and the state after it satisfy [Q]. *)
Definition wp {A} (m : M S A) (Q : A -> S -> Prop) (s : S) : Prop :=
  match m s with Some (a, s) => Q a s | None => False end.

Lemma wp_ret {A} (a : A) Q s : Q a s -> wp (mret a) Q s.
Proof. done. Qed.

Lemma wp_bind {A B} (m : M S A) (k : A -> M S B) Q s : wp m (fun a s => wp (k a) Q s) s -> wp (m ≫= k) Q s.
Proof. unfold wp, mbind, M_bind. destruct (m s) as [[a s']|]; done. Qed.

Lemma wp_lift {A} (x : option A) a Q s : x = Some a -> Q a s -> wp (lift x) Q s.
Proof. intros ->. done. Qed.

Lemma wp_gets {A} (f : S -> A) Q s : Q (f s) s -> wp (gets f) Q s.
Proof. done. Qed.

Lemma wp_modify (f : S -> S) Q s : Q tt (f s) -> wp (modify f) Q s.
Proof. done. Qed.

Lemma wp_mono {A} (m : M S A) (Q Q' : A -> S -> Prop) s : wp m Q s -> (forall a s, Q a s -> Q' a s) -> wp m Q' s.
Proof. unfold wp. destruct (m s) as [[a s']|]; auto. Qed.

Lemma wp_run {A} (m : M S A) Q s : wp m Q s <-> exists a s', m s = Some (a, s') /\ Q a s'.
Proof.
  unfold wp. destruct (m s) as [[a s']|]; [|split; [done|intros (a & s' & ? & _); done]].
  split; [eauto|]. intros (? & ? & [= <- <-] & H). exact H.
Qed.

Lemma run_bind {A B} (m : M S A) (k : A -> M S B) s : (m ≫= k) s = match m s with Some (a, s) => k a s | None => None end.
Proof. done. Qed.

(** What holds if the action does not abort. *)
Definition wlp {A} (m : M S A) (Q : A -> S -> Prop) (s : S) : Prop :=
  match m s with Some (a, s) => Q a s | None => True end.

Lemma wlp_ret {A} (a : A) (Q : A -> S -> Prop) s : Q a s -> wlp (mret a) Q s.
Proof. done. Qed.

Lemma wlp_bind {A B} (m : M S A) (k : A -> M S B) Q s : wlp m (fun a s => wlp (k a) Q s) s -> wlp (m ≫= k) Q s.
Proof. unfold wlp, mbind, M_bind. destruct (m s) as [[a s']|]; done. Qed.

Lemma wlp_lift {A} (x : option A) (Q : A -> S -> Prop) s : (forall a, x = Some a -> Q a s) -> wlp (lift x) Q s.
Proof. intros H. destruct x as [a|]; [|done]. apply H. done. Qed.

Lemma wlp_gets {A} (f : S -> A) (Q : A -> S -> Prop) s : Q (f s) s -> wlp (gets f) Q s.
Proof. done. Qed.

Lemma wlp_modify (f : S -> S) (Q : unit -> S -> Prop) s : Q tt (f s) -> wlp (modify f) Q s.
Proof. done. Qed.

Lemma wlp_abort {A} (Q : A -> S -> Prop) s : wlp abort Q s.
Proof. done. Qed.

Lemma wlp_mono {A} (m : M S A) (Q Q' : A -> S -> Prop) s : wlp m Q s -> (forall a s, Q a s -> Q' a s) -> wlp m Q' s.
Proof. unfold wlp. destruct (m s) as [[a s']|]; auto. Qed.

Lemma wlp_run {A} (m : M S A) Q s a s' : wlp m Q s -> m s = Some (a, s') -> Q a s'.
Proof. unfold wlp. intros H E. rewrite E in H. exact H. Qed.
End wp.

(** ** Running actions *)
Section run.
  Context {S : Type}.

Lemma run_ok {A B} (m : M S A) (k : A -> M S B) s a s' : m s = Some (a, s') -> (m ≫= k) s = k a s'.
Proof. intros E. rewrite run_bind, E. done. Qed.
Lemma run_gets {A B} (f : S -> A) (k : A -> M S B) s : (gets f ≫= k) s = k (f s) s.
Proof. done. Qed.
Lemma run_modify {B} (f : S -> S) (k : unit -> M S B) s : (modify f ≫= k) s = k tt (f s).
Proof. done. Qed.
Lemma run_ret {A B} (a : A) (k : A -> M S B) s : (mret a ≫= k) s = k a s.
Proof. done. Qed.
Lemma run_some {A B} (a : A) (k : A -> M S B) s : (lift (Some a) ≫= k) s = k a s.
Proof. done. Qed.
Lemma run_assoc {A B C} (m : M S A) (k : A -> M S B) (l : B -> M S C) s : ((m ≫= k) ≫= l) s = (m ≫= fun a => k a ≫= l) s.
Proof. rewrite !run_bind. destruct (m s) as [[a s']|]; done. Qed.
End run.

(** The next steps of an action that read or change the state, and a step whose
    result is known. *)
Ltac run_steps :=
  repeat (first [rewrite run_assoc|rewrite run_gets|rewrite run_modify|rewrite run_ret|rewrite run_some]; cbv beta delta [id]).
Ltac run_by E := rewrite (run_ok _ _ _ _ _ E); cbv beta.
