(* ===== verification/RouterModule.v ===== *)
(** * The router (dht/dhtcore/RouterModule.c, RouterModule_pvt.h, Janitor.c)

    The centre of the DHT: it keeps the routing table up to date with what comes
    in, pings nodes, answers queries and runs searches. A ping, a search and a
    node are pointed to by their slot, their slot in the search store and their
    place in the table; the context of a search lives as long as the search.

    Actions work on the router together with what it is given from outside: the
    clock, which stands still while a message or a timer is handled, the C
    library's [rand] and the random generator. What goes to other components is
    the list of [Event]s. [None] is an aborted program: a failed assertion, a
    NULL pointer, a read outside an array, or a loop that does not end. *)
From S2P Require Import Prelude Memory Endian Bits Hex AddrTools LabelSplicer NaCl Benc Address NodeCollector NodeStore VersionList AverageRoller SearchStore DHT.

(** ** Constants *)
Definition RouterModule_K : Z := 8.
Definition RouterModule_MAX_CONCURRENT_PINGS : Z := 128.
Definition GMRT_SECONDS : Z := 256.
Definition GMRT_INITAL_MILLISECONDS : Z := 5000.
Definition NODE_STORE_SIZE : Z := 8192.
Definition LOCAL_MAINTENANCE_SEARCH_MILLISECONDS : Z := 1000.
Definition GLOBAL_MAINTENANCE_SEARCH_MILLISECONDS : Z := 30000.
Definition MAX_REQUESTS_PER_SEARCH : Z := 8.
Definition PING_TIMEOUT_GMRT_MULTIPLIER : Z := 100.
Definition PING_TIMEOUT_MINIMUM : Z := 3000.
Definition LINK_STATE_MULTIPLIER : Z := 536870.
Definition MAX_TIMEOUT : Z := 10000.
Definition MIN_TIMEOUT : Z := 10.

(** ** State *)

(** [ping_timeout] is the time at which the timer runs. *)
Record RouterModule_Ping := {
  ping_node : Z;
  ping_timeout : Z;
  ping_txid : option String;
  isFromAdmin : bool;
  ping_timeSent : Z
}.

(** [resultCallback] stands for the callback and its context. *)
Record SearchCallbackContext := {
  resultCallback : option Z;
  totalRequests : Z;
  scc_targetAddress : Address;
  scc_timeout : Z;
  scc_search : Z;
  requestType : String;
  targetKey : String;
  lastNodeCalled : SearchStore_NodePointer;
  timeoutMilliseconds : Z
}.

(** [gmrtRoller] is that of the search store, which has the same pointer. *)
Record RouterModule := {
  router_address : Address;
  router_searchStore : SearchStore;
  router_nodeStore : NodeStore;
  router_pings : Z -> option RouterModule_Ping;
  gitVersion : String;
  router_contexts : Z -> option SearchCallbackContext;
  globalMaintainenceMilliseconds : Z;
  timeOfNextGlobalMaintainence : Z
}.

Inductive Event :=
| ToNetwork (message : DHTMessage)
| ToAdmin (message : Dict) (txid : option String)
| SearchResult (callback : Z) (result : option DHTMessage).

(** ** Pure functions *)
Definition calculateDistance (nodeIdPrefix targetPrefix firstResponseIdPrefix : Z) : Z :=
  let at_ := nodeIdPrefix .^ targetPrefix in
  let bt := firstResponseIdPrefix .^ targetPrefix in
  if at_ <? bt then 0
  else
    let ab := nodeIdPrefix .^ firstResponseIdPrefix in
    if at_ <? ab then u32 (ab - bt) else ab.

Definition reachAfterTimeout (oldReach : Z) : Z :=
  if oldReach =? 2 then 1
  else if (oldReach =? 1) || (oldReach =? 0) then 0
  else u32 (oldReach / 2 + 2).

Section pure.
  Context {P : Platform} {N : NaCl}.

Definition xorcmp (target negativeIfCloser positiveIfCloser : Z) : Z :=
  if negativeIfCloser =? positiveIfCloser then 0
  else
    let ref := Endian_bigEndianToHost32 target in
    if (Endian_bigEndianToHost32 negativeIfCloser .^ ref) <? (Endian_bigEndianToHost32 positiveIfCloser .^ ref)
    then -1 else 1.

(** The words [ints.one] to [ints.four], from first compared to last. *)
Definition xorCompare (target negativeIfCloser positiveIfCloser : Address) : Z :=
  let '(_, target) := Address_getPrefix target in
  let '(_, negativeIfCloser) := Address_getPrefix negativeIfCloser in
  let '(_, positiveIfCloser) := Address_getPrefix positiveIfCloser in
  let part (a : Address) (i : Z) := load 4 (of_list a.(ip6)) i in
  let compare i := xorcmp (part target i) (part negativeIfCloser i) (part positiveIfCloser i) in
  if negb (compare 8 =? 0) then compare 8
  else if negb (compare 12 =? 0) then compare 12
  else if negb (compare 0 =? 0) then compare 0
  else if negb (compare 4 =? 0) then compare 4
  else 0.

(** The key of the entry at [index] once more behind it. *)
Definition isDuplicateEntry (nodes : String) (index : Z) : bool :=
  let entries := Z.to_nat ((Z.of_nat (length nodes) - index + Address_SERIALIZED_SIZE - 1) / Address_SERIALIZED_SIZE) in
  match for_until entries 0 (fun k _ =>
          let i := index + k * Address_SERIALIZED_SIZE in
          if i =? index then inl tt
          else if Bits_memcmp (read (of_list nodes) index Address_KEY_SIZE) (read (of_list nodes) i Address_KEY_SIZE) =? 0
          then inr tt else inl tt) tt with
  | inr _ => true
  | inl _ => false
  end.

Definition ping_response (timeout : bool) (lag : Z) (versionBin : option String) : Dict :=
  let result := if timeout then chars "timeout" else chars "pong" in
  let version :=
    match versionBin with
    | Some v => if negb timeout && (length v =? 20)%nat
                then read (fst (Hex_encode (of_list (chars "old")) 40 (of_list v) 20)) 0 40 else chars "old"
    | None => chars "old"
    end in
  (chars "ms", Object_INTEGER lag) :: (chars "result", Object_STRING result) ::
  (if negb timeout then [(chars "version", Object_STRING version)] else []).
End pure.

(** ** What the router is given

    [rand] is the C library's, as the list of its results; [stack_key] and
    [stack_path] are what the part of an address on the stack holds that was
    not written; [fuel] is for the loop of VersionList_stringify; [erange]: [errno]
    is ERANGE when a message is parsed. *)
Class Environment : Type := {
  rand : nat -> Z;
  stack_key : list Z;
  stack_path : Z;
  fuel : nat;
  erange : bool
}.

Section router.
  Context {P : Platform} {N : NaCl} {R : RandomSource} {E : Environment}.

(** The router and its surroundings. *)
Record World := {
  router : RouterModule;
  now : Z;
  nowSeconds : Z;
  rands : nat;
  rng : Rand;
  out : list Event
}.

Abbreviation act := (M World).

Definition with_router (f : RouterModule -> RouterModule) (w : World) : World :=
  {| router := f w.(router); now := w.(now); nowSeconds := w.(nowSeconds); rands := w.(rands); rng := w.(rng); out := w.(out) |}.
Definition set_nodeStore (s : NodeStore) (r : RouterModule) : RouterModule :=
  {| router_address := r.(router_address); router_searchStore := r.(router_searchStore); router_nodeStore := s;
     router_pings := r.(router_pings); gitVersion := r.(gitVersion); router_contexts := r.(router_contexts);
     globalMaintainenceMilliseconds := r.(globalMaintainenceMilliseconds);
     timeOfNextGlobalMaintainence := r.(timeOfNextGlobalMaintainence) |}.
Definition set_searchStore (s : SearchStore) (r : RouterModule) : RouterModule :=
  {| router_address := r.(router_address); router_searchStore := s; router_nodeStore := r.(router_nodeStore);
     router_pings := r.(router_pings); gitVersion := r.(gitVersion); router_contexts := r.(router_contexts);
     globalMaintainenceMilliseconds := r.(globalMaintainenceMilliseconds);
     timeOfNextGlobalMaintainence := r.(timeOfNextGlobalMaintainence) |}.
Definition set_router_ping (i : Z) (p : option RouterModule_Ping) (r : RouterModule) : RouterModule :=
  {| router_address := r.(router_address); router_searchStore := r.(router_searchStore); router_nodeStore := r.(router_nodeStore);
     router_pings := fun j => if j =? i then p else r.(router_pings) j; gitVersion := r.(gitVersion);
     router_contexts := r.(router_contexts);
     globalMaintainenceMilliseconds := r.(globalMaintainenceMilliseconds);
     timeOfNextGlobalMaintainence := r.(timeOfNextGlobalMaintainence) |}.
Definition set_router_context (i : Z) (c : option SearchCallbackContext) (r : RouterModule) : RouterModule :=
  {| router_address := r.(router_address); router_searchStore := r.(router_searchStore); router_nodeStore := r.(router_nodeStore);
     router_pings := r.(router_pings); gitVersion := r.(gitVersion);
     router_contexts := fun j => if j =? i then c else r.(router_contexts) j;
     globalMaintainenceMilliseconds := r.(globalMaintainenceMilliseconds);
     timeOfNextGlobalMaintainence := r.(timeOfNextGlobalMaintainence) |}.
Definition set_next_maintenance (t : Z) (r : RouterModule) : RouterModule :=
  {| router_address := r.(router_address); router_searchStore := r.(router_searchStore); router_nodeStore := r.(router_nodeStore);
     router_pings := r.(router_pings); gitVersion := r.(gitVersion); router_contexts := r.(router_contexts);
     globalMaintainenceMilliseconds := r.(globalMaintainenceMilliseconds); timeOfNextGlobalMaintainence := t |}.

Definition emit (e : Event) : act unit := modify (fun w =>
  {| router := w.(router); now := w.(now); nowSeconds := w.(nowSeconds); rands := w.(rands); rng := w.(rng);
     out := w.(out) ++ [e] |}).
Definition call_rand : act Z := fun w => Some (rand w.(rands),
  {| router := w.(router); now := w.(now); nowSeconds := w.(nowSeconds); rands := S w.(rands); rng := w.(rng); out := w.(out) |}).
Definition random_bytes (n : Z) : act (list Z) := fun w =>
  let '(bytes, rng) := Random_bytes w.(rng) n in
  Some (bytes, {| router := w.(router); now := w.(now); nowSeconds := w.(nowSeconds); rands := w.(rands); rng := rng; out := w.(out) |}).

Definition the_nodeStore : act NodeStore := gets (fun w => w.(router).(router_nodeStore)).
Definition the_searchStore : act SearchStore := gets (fun w => w.(router).(router_searchStore)).
Definition put_nodeStore (s : NodeStore) : act unit := modify (with_router (set_nodeStore s)).
Definition put_searchStore (s : SearchStore) : act unit := modify (with_router (set_searchStore s)).
Definition put_ping (i : Z) (p : option RouterModule_Ping) : act unit := modify (with_router (set_router_ping i p)).
Definition put_context (i : Z) (c : option SearchCallbackContext) : act unit := modify (with_router (set_router_context i c)).

(** ** Calls of the node store and the search store *)
Definition addNode (addr : Address) (reachDifference version : Z) : act (option Z) :=
  s ← the_nodeStore;
  '(s, r) ← lift (NodeStore_addNode s addr reachDifference version);
  _ ← put_nodeStore s; mret r.

Definition getBest (addr : Address) : act (option Z) :=
  s ← the_nodeStore;
  let '(s, r) := NodeStore_getBest addr s in
  _ ← put_nodeStore s; mret r.

(** [rand] is called only for a random node. *)
Definition getNodeByNetworkAddr (path' : Z) : act (option Z) :=
  s ← the_nodeStore;
  random ← (if (path' =? 0) && (0 <? s.(size)) then call_rand else mret 0);
  let '(s, r) := NodeStore_getNodeByNetworkAddr path' s random in
  _ ← put_nodeStore s; mret r.

Definition node_at_index (i : Z) : act Node := s ← the_nodeStore; mret (s.(store_nodes) i).

(** [node->reach = reach; NodeStore_updateReach(node, store)]. *)
Definition updateReach (i reach' : Z) : act unit :=
  s ← the_nodeStore;
  let n := s.(store_nodes) i in
  s ← lift (NodeStore_updateReach i (set_node s i
    {| node_reach := reach'; node_version := n.(node_version); address := n.(address) |}));
  put_nodeStore s.

Definition brokenPath (path' : Z) : act Z :=
  s ← the_nodeStore;
  '(s, r) ← lift (NodeStore_brokenPath path' s);
  _ ← put_nodeStore s; mret r.

Definition getNextNode (i : Z) : act (option SearchStore_NodePointer) :=
  w ← gets id;
  search ← lift (w.(router).(router_searchStore).(searches) i);
  magic ← (if search.(searchStackSize) =? 0 then mret [] else random_bytes 4);
  '(s, p) ← lift (SearchStore_getNextNode i w.(now) (load 4 (of_list magic) 0) w.(router).(router_searchStore));
  _ ← put_searchStore s; mret p.

Definition addNodeToSearch (addr : Address) (i : Z) : act unit :=
  s ← the_searchStore;
  '(s, _) ← lift (SearchStore_addNodeToSearch addr i s);
  put_searchStore s.

Definition replyReceived (n : SearchStore_Node) : act Z :=
  w ← gets id;
  '(s, delay) ← lift (SearchStore_replyReceived n w.(now) w.(nowSeconds) w.(router).(router_searchStore));
  _ ← put_searchStore s; mret delay.

(** A node of a search, and its address written back. *)
Definition search_node (p : SearchStore_NodePointer) : act SearchStore_Node :=
  s ← the_searchStore; lift (node_at s p).
Definition set_node_address (n : SearchStore_Node) (a : Address) : SearchStore_Node :=
  {| timeOfRequest := n.(timeOfRequest); txid := n.(txid); node_search := n.(node_search); node_address := a |}.
Definition set_asked_address (p : SearchStore_NodePointer) (a : Address) (s : SearchStore) : SearchStore :=
  set_search s p.1 (option_map (fun search =>
    {| searchIndex := search.(searchIndex); searchStackSize := search.(searchStackSize);
       nodesAskedIndex := search.(nodesAskedIndex); searchTarget := search.(searchTarget);
       searchStack := search.(searchStack);
       nodesAsked := fun j => if j =? p.2 then set_node_address (search.(nodesAsked) j) a else search.(nodesAsked) j |})
    (s.(searches) p.1)).
Definition put_address (p : SearchStore_NodePointer) (a : Address) : act unit :=
  s ← the_searchStore; put_searchStore (set_asked_address p a s).

(** [Allocator_free] of a search: the search is freed and its timer cleared. *)
Definition free_search (i : Z) : act unit :=
  s ← the_searchStore;
  search ← lift (s.(searches) i);
  _ ← put_searchStore (freeSearch s search);
  put_context i None.

(** ** Timing *)
Definition tryNextNodeAfter : act Z :=
  s ← the_searchStore;
  let x := u64 (AverageRoller_getAverage s.(gmrtRoller) * 4) in
  r ← call_rand;
  let x := u64 (x + u64 r mod (x .| 1) / 2) in
  mret (if MAX_TIMEOUT <? x then MAX_TIMEOUT else if x <? MIN_TIMEOUT then MIN_TIMEOUT else x).

Definition evictUnrepliedIfOlderThan : act Z :=
  w ← gets id;
  x ← tryNextNodeAfter;
  mret (u64 (w.(now) - x)).

Definition responseFromNode (node : option Z) (millisecondsSinceRequest : Z) : act unit :=
  match node with
  | None => mret tt
  | Some i =>
      worst ← tryNextNodeAfter;
      if millisecondsSinceRequest <? worst
      then updateReach i (u32 (u64 ((worst - millisecondsSinceRequest) * LINK_STATE_MULTIPLIER)))
      else mret tt
  end.

(** ** Requests *)

(** The router sends through the registry. *)
Section sending.
  Variable send : DHTMessage -> act unit.

Definition sendRequest (addr : Address) (queryType transactionId : option String) (searchTarget : option Address)
    (targetKey : String) : act unit :=
  let d := fst (Dict_putString Dict_new (Some CJDHTConstants_TXID) transactionId) in
  let d :=
    match searchTarget with
    | Some target => fst (Dict_putString d (Some targetKey) (Some (take (Z.to_nat Address_SEARCH_TARGET_SIZE) target.(ip6))))
    | None => d
    end in
  let d := fst (Dict_putString d (Some CJDHTConstants_QUERY) queryType) in
  send {| dht_address := addr; dht_bytes := fun _ => 0; dht_length := 0; asDict := Some d; replyTo := None |}.

(** ** Searches; [i] is the slot of the search *)
Definition searchStep (i : Z) : act unit :=
  w ← gets id;
  scc ← lift (w.(router).(router_contexts) i);
  nextSearchNode ← getNextNode scc.(scc_search);
  match nextSearchNode with
  | Some next =>
      if MAX_REQUESTS_PER_SEARCH <=? scc.(totalRequests) then
        _ ← match scc.(resultCallback) with Some c => emit (SearchResult c None) | None => mret tt end;
        free_search scc.(scc_search)
      else
        node ← search_node next;
        let addr := snd (Address_getPrefix node.(node_address)) in
        n ← getBest node.(node_address);
        addr ← match n with
               | Some k =>
                   n ← node_at_index k;
                   mret (if (Bits_memcmp n.(address).(ip6) addr.(ip6) =? 0) && (n.(address).(path) <? addr.(path))
                         then {| ip6 := addr.(ip6); key := addr.(key); path := n.(address).(path) |} else addr)
               | None => mret addr
               end;
        _ ← put_address next addr;
        _ ← sendRequest addr (Some scc.(requestType)) node.(txid) (Some scc.(scc_targetAddress)) scc.(targetKey);
        t ← tryNextNodeAfter;
        put_context i (Some
          {| resultCallback := scc.(resultCallback); totalRequests := u32 (scc.(totalRequests) + 1);
             scc_targetAddress := scc.(scc_targetAddress); scc_timeout := w.(now) + t; scc_search := scc.(scc_search);
             requestType := scc.(requestType); targetKey := scc.(targetKey); lastNodeCalled := next;
             timeoutMilliseconds := t |})
  | None =>
      _ ← match scc.(resultCallback) with Some c => emit (SearchResult c None) | None => mret tt end;
      free_search scc.(scc_search)
  end.

Definition searchRequestTimeout (i : Z) : act unit :=
  w ← gets id;
  scc ← lift (w.(router).(router_contexts) i);
  last ← search_node scc.(lastNodeCalled);
  n ← getNodeByNetworkAddr last.(node_address).(path);
  _ ← match n with
      | Some k =>
          n ← node_at_index k;
          let newReach := reachAfterTimeout n.(node_reach) in
          updateReach k (if (newReach =? 0) && LabelSplicer_isOneHop n.(address).(path) then newReach + 1 else newReach)
      | None => mret tt
      end;
  searchStep i.

(** ** Replies *)
Definition pingResponse (ping : RouterModule_Ping) (timeout : bool) (lag : Z) (versionBin : option String) : act unit :=
  emit (ToAdmin (ping_response timeout lag versionBin) ping.(ping_txid)).

(** The ping that the router finds in the slot named by the transaction id. *)
Definition ping_reply (node : option Z) (index : Z) (message : DHTMessage) : act unit :=
  w ← gets id;
  match (if index <? RouterModule_MAX_CONCURRENT_PINGS then w.(router).(router_pings) index else None) with
  | Some ping =>
      let versionBin := Dict_getString message.(asDict) (Some CJDHTConstants_VERSION) in
      let lag := u32 (w.(now) - ping.(ping_timeSent)) in
      _ ← responseFromNode node lag;
      _ ← (if ping.(isFromAdmin) then pingResponse ping false lag versionBin else mret tt);
      put_ping index None
  | None => mret tt
  end.

(** One round of the loop over the nodes of a reply; false is a [break]. *)
Definition reply_entry (i : Z) (targetPrefix parentDistance : Z) (versions : option (list Z)) (nodes : String)
    (target parent : Address) (search : Z) (message : DHTMessage) : act bool :=
  w ← gets id;
  if isDuplicateEntry nodes i then mret true
  else
    let addr := Address_parse (fun x => of_list nodes (i + x)) in
    if Address_isSameIp w.(router).(router_address) addr then
      _ ← brokenPath addr.(path); mret true
    else
      let addr := {| ip6 := addr.(ip6); key := addr.(key);
                     path := LabelSplicer_splice addr.(path) message.(dht_address).(path) |} in
      if addr.(path) =? UINT64_MAX then mret true
      else
        let '(newNodePrefix, addr) := Address_getPrefix addr in
        if negb (AddressCalc_validAddress addr.(ip6)) then mret false
        else
          version ← match versions with
                    | Some l => lift (l !! Z.to_nat (i / Address_SERIALIZED_SIZE))
                    | None => mret 1
                    end;
          _ ← addNode addr 0 version;
          if (parentDistance <=? (newNodePrefix .^ targetPrefix)) && (0 <=? xorCompare target addr parent)
          then mret true
          else
            n ← getBest addr;
            found ← match n with Some k => n ← node_at_index k; mret n.(address) | None => mret addr end;
            _ ← addNodeToSearch found search; mret true.

Fixpoint reply_loop (rounds : nat) (i : Z) (targetPrefix parentDistance : Z) (versions : option (list Z))
    (nodes : String) (target parent : Address) (search : Z) (message : DHTMessage) : act unit :=
  match rounds with
  | O => mret tt
  | S rounds =>
      go_on ← reply_entry i targetPrefix parentDistance versions nodes target parent search message;
      if go_on : bool then
        reply_loop rounds (i + Address_SERIALIZED_SIZE) targetPrefix parentDistance versions nodes target parent search message
      else mret tt
  end.

(** The list of versions: [inl] is the NULL pointer that is followed. *)
Definition reply_versions (version : Z) (versionsStr : option String) : unit + option (list Z) :=
  match versionsStr with
  | None => inr None
  | Some str =>
      let versions := VersionList_parse str in
      if version <? 2 then
        match versions with
        | None => inl tt
        | Some l => inr (Some (map (fun _ => 1) l))
        end
      else inr versions
  end.

(** The part for replies to the requests of searches. *)
Definition search_reply (node : option Z) (version : Z) (tid : String) (nodes : option String) (message : DHTMessage)
    : act Z :=
  s ← the_searchStore;
  match SearchStore_getNode tid s with
  | None => mret (-1)
  | Some p =>
      parent ← search_node p;
      if negb (Address_isSameIp parent.(node_address) message.(dht_address)) then mret (-1)
      else
        delay ← replyReceived parent;
        _ ← responseFromNode node delay;
        i ← lift parent.(node_search);
        w ← gets id;
        scc ← lift (w.(router).(router_contexts) i);
        match nodes with
        | None => _ ← searchStep i; mret 0
        | Some nodes =>
            match reply_versions version (Dict_getString message.(asDict) (Some CJDHTConstants_NODE_PROTOCOLS)) with
            | inl _ => abort
            | inr versions =>
                let '(targetPrefix, target) := Address_getPrefix scc.(scc_targetAddress) in
                let '(parentPrefix, parentAddress) := Address_getPrefix parent.(node_address) in
                _ ← put_context i (Some
                  {| resultCallback := scc.(resultCallback); totalRequests := scc.(totalRequests);
                     scc_targetAddress := target; scc_timeout := scc.(scc_timeout); scc_search := scc.(scc_search);
                     requestType := scc.(requestType); targetKey := scc.(targetKey);
                     lastNodeCalled := scc.(lastNodeCalled); timeoutMilliseconds := scc.(timeoutMilliseconds) |});
                _ ← put_address p parentAddress;
                _ ← reply_loop (Z.to_nat (Z.of_nat (length nodes) / Address_SERIALIZED_SIZE)) 0 targetPrefix
                      (parentPrefix .^ targetPrefix) versions nodes target parentAddress i message;
                _ ← match scc.(resultCallback) with
                    | Some c => emit (SearchResult c (Some message))
                    | None => mret tt
                    end;
                _ ← searchStep i; mret 0
            end
        end
  end.

Definition handleReply (message : DHTMessage) : act Z :=
  node ← getNodeByNetworkAddr message.(dht_address).(path);
  known ← match node with
          | Some k => n ← node_at_index k; mret (Bits_memcmp n.(address).(key) message.(dht_address).(key) =? 0)
          | None => mret false
          end;
  if negb known then mret 0
  else
    let version := u32 (default 0 (Dict_getInt message.(asDict) (Some CJDHTConstants_PROTOCOL))) in
    node ← addNode message.(dht_address) 2 version;
    if bool_decide (node = None) then abort
    else
      match Dict_getString message.(asDict) (Some CJDHTConstants_TXID) with
      | None => mret (-1)
      | Some tid =>
          let nodes := Dict_getString message.(asDict) (Some CJDHTConstants_NODES) in
          match nodes with
          | None =>
              if (length tid =? 2)%nat && (nth 0 tid 0 =? 112) then
                _ ← ping_reply node (nth 1 tid 0) message; mret 0
              else search_reply node version tid nodes message
          | Some n =>
              if (Z.of_nat (length n) =? 0) || negb (Z.of_nat (length n) mod Address_SERIALIZED_SIZE =? 0)
              then mret (-1)
              else search_reply node version tid nodes message
          end
      end.

Definition RouterModule_handleIncoming : Handler World := fun message =>
  if bool_decide (Dict_getString message.(asDict) (Some CJDHTConstants_QUERY) = None) then
    ret ← handleReply message; mret (ret, message)
  else mret (0, message).
End sending.

(** ** Queries of others *)
Definition stack_address (ip : list Z) : Address :=
  {| ip6 := take (Z.to_nat Address_SEARCH_TARGET_SIZE) ip; key := stack_key; path := stack_path |}.

(** An entry of the list of nodes: the address with a label for who is asking. *)
Definition reply_node (query : Address) (n : Node) : list Z :=
  read (Address_serialize scratch
    {| ip6 := n.(address).(ip6); key := n.(address).(key);
       path := LabelSplicer_getLabelFor n.(address).(path) query.(path) |}) 0 Address_SERIALIZED_SIZE.

Definition handleQuery (message query : DHTMessage) : act (Z * DHTMessage) :=
  let version :=
    match Dict_getInt query.(asDict) (Some CJDHTConstants_PROTOCOL) with
    | Some v => if v <=? UINT32_MAX then u32 v else 0
    | None => 0
    end in
  _ ← addNode query.(dht_address) 1 version;
  d ← lift message.(asDict);
  match Dict_getString query.(asDict) (Some CJDHTConstants_TARGET) with
  | Some target =>
      if (length target =? 16)%nat then
        s ← the_nodeStore;
        let '(s, nodeList) :=
          NodeStore_getClosestNodes s (stack_address target) (Some query.(dht_address)) (RouterModule_K + 5) version in
        _ ← put_nodeStore s;
        if negb (0 <? Z.of_nat (length nodeList)) then mret (0, message)
        else
          let found := map (store_nodes s) nodeList in
          let nodes := concat (map (reply_node query.(dht_address)) found) in
          let d := fst (Dict_putString d (Some CJDHTConstants_NODES) (Some nodes)) in
          versionsStr ← lift (VersionList_stringify fuel scratch (map node_version found));
          let d := fst (Dict_putString d (Some CJDHTConstants_NODE_PROTOCOLS) (Some versionsStr)) in
          mret (0, with_dict message d)
      else
        w ← gets id;
        mret (0, with_dict message (fst (Dict_putString d (Some CJDHTConstants_VERSION) (Some w.(router).(gitVersion)))))
  | None =>
      w ← gets id;
      mret (0, with_dict message (fst (Dict_putString d (Some CJDHTConstants_VERSION) (Some w.(router).(gitVersion)))))
  end.

Definition RouterModule_handleOutgoing : Handler World := fun message =>
  d ← lift message.(asDict);
  let message := with_dict message (fst (Dict_putInt d CJDHTConstants_PROTOCOL Version_CURRENT_PROTOCOL)) in
  match message.(replyTo) with
  | Some query => handleQuery message query
  | None => mret (0, message)
  end.

(** ** The registry as it is set up in admin/angel/Core.c

    The last module is Ducttape, which sends messages to the network. *)
Definition Ducttape_module : DHTModule World :=
  {| handleIncoming := None; handleOutgoing := Some (fun message => _ ← emit (ToNetwork message); mret (0, message)) |}.

Definition registry_with (send : DHTMessage -> act unit) : DHTModuleRegistry World :=
  let registry := ReplyModule_register send [] in
  let registry := DHTModuleRegistry_register
    {| handleIncoming := Some (RouterModule_handleIncoming send); handleOutgoing := Some RouterModule_handleOutgoing |}
    registry in
  let registry := SerializationModule_register erange registry in
  DHTModuleRegistry_register Ducttape_module registry.

(** Handlers of outgoing messages do not send. *)
Definition send_dht (message : DHTMessage) : act unit :=
  DHTModuleRegistry_handleOutgoing message (registry_with (fun _ => mret tt)).
Definition registry : DHTModuleRegistry World := registry_with send_dht.

Lemma registry_sends message : DHTModuleRegistry_handleOutgoing message registry = send_dht message.
Proof.
  unfold send_dht, DHTModuleRegistry_handleOutgoing, registry, registry_with, ReplyModule_register, SerializationModule_register,
    DHTModuleRegistry_register.
  cbn [app forEachModule dhtModuleHandleOutgoing handleOutgoing]. reflexivity.
Qed.

(** incomingDHT of net/Ducttape.c: what came from the network. *)
Definition incomingDHT (content : list Z) (addr : Address) : act unit :=
  DHTModuleRegistry_handleIncoming
    {| dht_address := addr; dht_bytes := of_list (take (Z.to_nat DHTMessage_MAX_SIZE) content); dht_length := 0;
       asDict := None; replyTo := None |} registry.

(** ** The interface of the router *)
Definition RouterModule_beginSearch (searchTarget : list Z) (callback : option Z) : act (option Z) :=
  s ← the_searchStore;
  let '(s, search) := SearchStore_newSearch searchTarget s in
  _ ← put_searchStore s;
  match search with
  | None => mret None
  | Some i =>
      let targetAddr := stack_address searchTarget in
      s ← the_nodeStore;
      let '(s, nodes) := NodeStore_getClosestNodes s targetAddr None RouterModule_K Version_CURRENT_PROTOCOL in
      _ ← put_nodeStore s;
      if Z.of_nat (length nodes) =? 0 then _ ← free_search i; mret None
      else
        _ ← foldr (fun k (rest : act unit) =>
              _ ← addNodeToSearch (s.(store_nodes) k).(address) i; rest) (mret tt) nodes;
        first ← getNextNode i;
        p ← lift first;
        node ← search_node p;
        _ ← sendRequest send_dht node.(node_address) (Some CJDHTConstants_QUERY_FN) node.(txid)
              (Some targetAddr) CJDHTConstants_TARGET;
        t ← tryNextNodeAfter;
        w ← gets id;
        _ ← put_context i (Some
          {| resultCallback := callback; totalRequests := 0; scc_targetAddress := targetAddr;
             scc_timeout := w.(now) + t; scc_search := i; requestType := CJDHTConstants_QUERY_FN;
             targetKey := CJDHTConstants_TARGET; lastNodeCalled := p; timeoutMilliseconds := t |});
        mret (Some i)
  end.

Definition RouterModule_brokenPath (path' : Z) : act Z := brokenPath path'.

Definition RouterModule_lookup (targetAddr : list Z) : act (option Z) := getBest (stack_address targetAddr).

Definition RouterModule_getNode (path' : Z) : act (option Z) := getNodeByNetworkAddr path'.

(** [i] is the slot in which the loop finds the ping. *)
Definition pingTimeoutCallback (i : Z) : act unit :=
  w ← gets id;
  ping ← lift (w.(router).(router_pings) i);
  n ← node_at_index ping.(ping_node);
  _ ← (if negb (n.(address).(path) =? 0) then updateReach ping.(ping_node) (reachAfterTimeout n.(node_reach)) else mret tt);
  _ ← put_ping i None;
  let lag := u32 (w.(now) - ping.(ping_timeSent)) in
  if ping.(isFromAdmin) then pingResponse ping true lag None else mret tt.

Definition free_router_ping (r : RouterModule) : unit + Z :=
  for_until (Z.to_nat RouterModule_MAX_CONCURRENT_PINGS) 0
    (fun i _ => match r.(router_pings) i with None => inr i | Some _ => inl tt end) tt.

(** The timeout of a ping: [ms] unless it is 0. *)
Definition pingTimeout (average ms : Z) : Z :=
  if ms =? 0 then
    let ms := u32 (average * PING_TIMEOUT_GMRT_MULTIPLIER) in
    if ms <? PING_TIMEOUT_MINIMUM then PING_TIMEOUT_MINIMUM else ms
  else ms.

Definition RouterModule_pingNode (node timeoutMilliseconds : Z) (txid : option String) : act Z :=
  w ← gets id;
  match free_router_ping w.(router) with
  | inl _ => mret (-1)
  | inr index =>
      let average := AverageRoller_getAverage w.(router).(router_searchStore).(gmrtRoller) in
      _ ← put_ping index (Some
        {| ping_node := node; ping_timeout := w.(now) + pingTimeout average timeoutMilliseconds;
           ping_txid := txid; isFromAdmin := bool_decide (txid <> None); ping_timeSent := u32 w.(now) |});
      n ← node_at_index node;
      _ ← sendRequest send_dht n.(address) (Some CJDHTConstants_QUERY_PING) (Some [112; u8 index]) None [];
      mret 0
  end.

Definition RouterModule_addNode (addr : Address) (version : Z) : act unit :=
  let addr := snd (Address_getPrefix addr) in
  _ ← addNode addr 1 version;
  best ← RouterModule_lookup addr.(ip6);
  match best with
  | Some k =>
      n ← node_at_index k;
      if negb (n.(address).(path) =? addr.(path)) then _ ← RouterModule_pingNode k 0 None; mret tt else mret tt
  | None => mret tt
  end.

(** ** Janitor.c *)
Definition searchStepCallback : Z := 0.

Definition postpone : act unit := modify (with_router (fun r => set_next_maintenance
  (u64 (r.(timeOfNextGlobalMaintainence) + r.(globalMaintainenceMilliseconds))) r)).

(** The node that was pinged if it has no reach, otherwise something random. *)
Definition maintenance_target (randomNode : option Node) : act (list Z) :=
  match randomNode with
  | Some n => if n.(node_reach) =? 0 then mret n.(address).(ip6) else random_bytes Address_SEARCH_TARGET_SIZE
  | None => random_bytes Address_SEARCH_TARGET_SIZE
  end.

(** The end of [maintanenceCycle], once there is a target. *)
Definition maintenance_search (due : bool) (target : list Z) : act unit :=
  n ← RouterModule_lookup target;
  reach' ← match n with Some k => n ← node_at_index k; mret n.(node_reach) | None => mret 0 end;
  if reach' =? 0 then _ ← RouterModule_beginSearch target (Some searchStepCallback); mret tt
  else if due then _ ← RouterModule_beginSearch target (Some searchStepCallback); postpone
  else mret tt.

Definition maintanenceCycle : act unit :=
  w ← gets id;
  let due := w.(router).(timeOfNextGlobalMaintainence) <? w.(now) in
  if NodeStore_size w.(router).(router_nodeStore) =? 0 then
    if due then postpone else mret tt
  else
    randomNode ← RouterModule_getNode 0;
    _ ← match randomNode with Some k => RouterModule_pingNode k 0 None | None => mret 0 end;
    known ← match randomNode with Some k => n ← node_at_index k; mret (Some n) | None => mret None end;
    target ← maintenance_target known;
    maintenance_search due target.

(** ** Start *)

(** [git] is the text of Version_gitVersion, which the build generates. *)
Definition RouterModule_register (myAddress git : list Z) (now nowSeconds : Z) : option RouterModule :=
  let address := Address_forKey zero_address myAddress in
  '(roller, _) ← AverageRoller_update (AverageRoller_new GMRT_SECONDS nowSeconds) nowSeconds GMRT_INITAL_MILLISECONDS;
  Some {| router_address := address; router_searchStore := SearchStore_new roller;
          router_nodeStore := NodeStore_new address NODE_STORE_SIZE; router_pings := fun _ => None;
          gitVersion := read (fst (Hex_decode (fun _ => 0) 20 (of_list git) 40)) 0 20;
          router_contexts := fun _ => None;
          globalMaintainenceMilliseconds := GLOBAL_MAINTENANCE_SEARCH_MILLISECONDS;
          timeOfNextGlobalMaintainence := now |}.
End router.
