(* ===== verification/RouterInvariant.v ===== *)
(** * The invariant of the router

    The table is well formed, every search has its context and every node asked
    knows its search, and the sums that the code keeps in 32 bits are far enough
    from their ends: [n] in [router_ok ex n w] is the number of nodes that may
    still be added and of replies that may still be counted. [ex] is a search
    that is being set up. For each call of the stores from RouterModule.v, a rule
    that shows it runs and what it leaves of the invariant. *)
From S2P Require Import Prelude Memory Endian Bits LabelSplicer NaCl Benc Address NodeCollector NodeStore NodeStoreKeeps AverageRoller SearchStore DHT RouterModule.

(** ** The roller never divides by zero *)
Record roller_ok (n : Z) (r : AverageRoller) : Prop := {
  roller_window : 0 < r.(windowSeconds) < 2 ^ 32;
  roller_slots : forall i, 0 <= (r.(seconds) i).(slot_entryCount);
  roller_total : r.(roller_entryCount) = sum_below (Z.to_nat r.(windowSeconds)) (fun i => (r.(seconds) i).(slot_entryCount));
  roller_room : r.(roller_entryCount) + n < 2 ^ 32 - 1
}.

Lemma roller_less n m r : roller_ok n r -> m <= n -> roller_ok m r.
Proof. intros [H1 H2 H3 H4] Hm. split; (done || lia). Qed.

Lemma sum_below_zero k : sum_below k (fun _ => 0) = 0.
Proof. induction k as [|k IH]; cbn [sum_below]; lia. Qed.

Lemma roller_update n r now v : roller_ok n r -> 1 <= n ->
  exists r' a, AverageRoller_update r now v = Some (r', a) /\ roller_ok (n - 1) r'.
Proof.
  intros [Hw Hs Ht Hr] Hn. unfold AverageRoller_update, update. rewrite (proj2 (Z.eqb_neq _ _)) by lia.
  set (x := u64 (now - lastUpdateTime r + lastUpdateIndex r)). pose proof (Z.mod_pos_bound x (windowSeconds r) ltac:(lia)) as Hi.
  rewrite (u32_small (x mod windowSeconds r)) by lia. set (i := x mod windowSeconds r) in *.
  set (f := fun j => (r.(seconds) j).(slot_entryCount)) in *.
  pose proof (sum_below_le (Z.to_nat r.(windowSeconds)) f i (fun j _ => Hs j) ltac:(lia)) as Hle.
  pose proof (Hs i) as H0. fold (f i) in H0. rewrite <-Ht in Hle.
  destruct (lastUpdateTime r <? u32 now); cbv beta zeta iota.
  - fold (f i). rewrite (u32_small (roller_entryCount r - f i)), u32_small by lia.
    rewrite (proj2 (Z.eqb_neq _ _)) by lia. do 2 eexists. split; [done|]. split; cbn [windowSeconds seconds roller_entryCount].
    + done.
    + intros j. destruct (j =? i); [cbn; lia|apply Hs].
    + erewrite sum_below_ext; [erewrite (sum_below_set _ f i 1) by lia; rewrite <-Ht; lia|].
      intros j _. cbn beta. destruct (j =? i); done.
    + lia.
  - fold (f i). rewrite (u32_small (f i + 1)), (u32_small (roller_entryCount r + 1)) by lia.
    rewrite (proj2 (Z.eqb_neq _ _)) by lia. do 2 eexists. split; [done|]. split; cbn [windowSeconds seconds roller_entryCount].
    + done.
    + intros j. destruct (j =? i); [cbn; lia|apply Hs].
    + erewrite sum_below_ext; [erewrite (sum_below_set _ f i (f i + 1)) by lia; rewrite <-Ht; lia|].
      intros j _. cbn beta. destruct (j =? i); done.
    + lia.
Qed.

(** ** The searches *)
Record search_ok (i : Z) (s : SearchStore_Search) : Prop := {
  search_slot : 0 <= i < 8;
  search_index : s.(searchIndex) = i;
  search_size : 0 <= s.(searchStackSize) <= 256;
  search_asked : forall k, (s.(nodesAsked) k).(txid) <> None -> (s.(nodesAsked) k).(node_search) = Some i
}.

Definition searches_ok (s : SearchStore) : Prop := forall i search, s.(searches) i = Some search -> search_ok i search.

Lemma set_search_ok s i search : searches_ok s -> search_ok i search -> searches_ok (set_search s i (Some search)).
Proof. intros H Hs j x. cbn. destruct (Z.eqb_spec j i) as [->|]; [intros [= <-]; done|apply H]. Qed.

Lemma clear_search_ok s i : searches_ok s -> searches_ok (set_search s i None).
Proof. intros H j x. cbn. destruct (Z.eqb_spec j i) as [->|]; [done|apply H]. Qed.

(** ** The invariant *)

(** What every entry of the table satisfies: VersionList can write its version,
    and a search can tell its key from an empty place. *)
Definition entry_sane (a : Address) (v : Z) : Prop := 0 <= v < UINT32_MAX /\ a.(key) <> repeat 0 32.

Lemma entry_sane_key a b v : a.(key) = b.(key) -> entry_sane a v -> entry_sane b v.
Proof. unfold entry_sane. intros ->. done. Qed.

Section invariant.
  Context {P : Platform} {N : NaCl} {R : RandomSource} {E : Environment}.

Definition the_table (w : World) : NodeStore := w.(router).(router_nodeStore).
Definition the_searches (w : World) : SearchStore := w.(router).(router_searchStore).
Definition the_contexts (w : World) : Z -> option SearchCallbackContext := w.(router).(router_contexts).

Record router_ok (ex : option Z) (n : Z) (w : World) : Prop := {
  rk_table : store_ok (the_table w);
  rk_capacity : 0 < (the_table w).(store_capacity);
  rk_sum : (the_table w).(labelSum) + 64 * n < 2 ^ 31;
  rk_entries : every_entry entry_sane (the_table w);
  rk_roller : roller_ok n (the_searches w).(gmrtRoller);
  rk_searches : searches_ok (the_searches w);
  rk_contexts : forall i scc, the_contexts w i = Some scc ->
    (the_searches w).(searches) i <> None /\ scc.(scc_search) = i /\ scc.(lastNodeCalled).1 = i;
  rk_open : forall i, (the_searches w).(searches) i <> None -> the_contexts w i <> None \/ ex = Some i;
  rk_pings : forall i p, w.(router).(router_pings) i = Some p -> 0 <= p.(ping_node)
}.

(** Everything but the table is as it was. *)
Record only_table (w w' : World) : Prop := {
  ot_searches : the_searches w' = the_searches w;
  ot_contexts : the_contexts w' = the_contexts w;
  ot_pings : w'.(router).(router_pings) = w.(router).(router_pings);
  ot_address : w'.(router).(router_address) = w.(router).(router_address);
  ot_now : w'.(now) = w.(now)
}.

#[export] Instance only_table_preorder : PreOrder only_table.
Proof. split; [intros w; split; done|]. intros w1 w2 w3 [A1 A2 A3 A4 A5] [B1 B2 B3 B4 B5]. split; congruence. Qed.

(** All searches that were open are. *)
Definition opens (w w' : World) : Prop := forall i, (the_searches w).(searches) i <> None -> (the_searches w').(searches) i <> None.

#[export] Instance opens_preorder : PreOrder opens.
Proof. split; unfold opens; auto. Qed.

Lemma only_table_opens w w' : only_table w w' -> opens w w'.
Proof. intros H i. rewrite (ot_searches _ _ H). done. Qed.

Lemma router_less ex n m w : router_ok ex n w -> m <= n -> router_ok ex m w.
Proof. intros [H1 H2 H3 H4 H5 H6 H7 H8 H9] Hm. split; try done; [lia|by apply roller_less with n]. Qed.

Lemma table_replaced ex n m w w' : router_ok ex n w -> only_table w w' -> m <= n ->
  store_ok (the_table w') -> every_entry entry_sane (the_table w') ->
  (the_table w').(store_capacity) = (the_table w).(store_capacity) ->
  (the_table w').(labelSum) <= (the_table w).(labelSum) + 64 * (n - m) -> router_ok ex m w'.
Proof.
  intros [H1 H2 H3 H4 H5 H6 H7 H8 H9] [E1 E2 E3 E4 E5] Hm Hs He Hc Hl.
  split; rewrite ?E1, ?E2, ?E3; try done; [lia|lia|by apply roller_less with n].
Qed.

Lemma table_same ex n w w' : router_ok ex n w -> only_table w w' -> same_table (the_table w) (the_table w') -> router_ok ex n w'.
Proof.
  intros Hw Ho Hs. apply (table_replaced ex n n w); try done.
  - by apply (same_table_ok (the_table w)), Hw.
  - by apply (same_table_every _ (the_table w)), Hw.
  - apply (same_capacity _ _ Hs).
  - rewrite (same_sum _ _ Hs). lia.
Qed.

(** Surroundings that the invariant does not mention. *)
Lemma router_ok_same ex n w w' : router_ok ex n w -> w'.(router) = w.(router) -> router_ok ex n w'.
Proof.
  unfold the_table, the_searches, the_contexts. intros [H1 H2 H3 H4 H5 H6 H7 H8 H9] Er.
  split; unfold the_table, the_searches, the_contexts in *; rewrite Er; done.
Qed.

(** ** Rules for the calls of the stores *)
Lemma run_addNode ex n addr rd v w (Q : option Z -> World -> Prop) :
  router_ok ex n w -> 1 <= n -> addr_sane addr -> entry_sane addr v ->
  (forall r w', router_ok ex (n - 1) w' -> only_table w w' ->
    match r with
    | Some k => 0 <= k < (the_table w').(size)
    | None => Version_isCompatible Version_CURRENT_PROTOCOL v = false \/
        (snd (Address_getPrefix addr)).(ip6) = (the_table w).(thisNodeAddress).(ip6) \/ rd <= 0
    end -> Q r w') ->
  wp (addNode addr rd v) Q w.
Proof.
  intros Hw Hn Ha He HQ.
  destruct (addNode_keeps entry_sane (the_table w) addr rd v entry_sane_key (rk_table _ _ _ Hw) (rk_capacity _ _ _ Hw))
    as (s & r & Er & Hs & Hes & Hl & Hc & _ & Hr); try done; [pose proof (rk_sum _ _ _ Hw); lia|apply Hw|].
  unfold addNode. apply wp_bind, wp_gets, wp_bind. apply (wp_lift _ (s, r)); [exact Er|].
  apply wp_bind, wp_modify, wp_ret. apply HQ.
  - apply (table_replaced ex n (n - 1) w); try done; [lia|]. change (the_table (with_router (set_nodeStore s) _)) with s. lia.
  - done.
  - destruct r as [k|]; [apply Hr|done].
Qed.

Lemma run_getBest ex n addr w (Q : option Z -> World -> Prop) :
  router_ok ex n w ->
  (forall r w', router_ok ex n w' -> only_table w w' -> NodeStore_getBest addr (the_table w) = (the_table w', r) -> Q r w') ->
  wp (getBest addr) Q w.
Proof.
  intros Hw HQ. unfold getBest. apply wp_bind, wp_gets. fold (the_table w).
  pose proof (same_getBest (the_table w) addr) as Hs.
  destruct (NodeStore_getBest addr (the_table w)) as [s r]. apply wp_bind, wp_modify, wp_ret.
  apply HQ; [|done|done]. by apply (table_same ex n w).
Qed.

Lemma run_rand (w : World) (Q : Z -> World -> Prop) :
  Q (rand w.(rands)) {| router := w.(router); now := w.(now); nowSeconds := w.(nowSeconds); rands := S w.(rands);
    rng := w.(rng); out := w.(out) |} -> wp call_rand Q w.
Proof. done. Qed.

(** [rand] gives no negative number. *)
Definition rand_ok : Prop := forall k, 0 <= rand k.

Lemma run_getNode ex n p w (Q : option Z -> World -> Prop) : rand_ok -> router_ok ex n w ->
  (forall r w', router_ok ex n w' -> only_table w w' -> same_table (the_table w) (the_table w') ->
    (forall k, r = Some k -> 0 <= k < (the_table w').(size)) ->
    (p <> 0 -> forall k, r = Some k -> npath (the_table w') k = p) -> Q r w') ->
  wp (getNodeByNetworkAddr p) Q w.
Proof.
  intros Hrand Hw HQ. unfold getNodeByNetworkAddr. apply wp_bind, wp_gets. fold (the_table w). apply wp_bind.
  assert (forall random w', 0 <= random -> only_table w w' -> the_table w' = the_table w -> wp
    (let '(s, r) := NodeStore_getNodeByNetworkAddr p (the_table w) random in _ ← put_nodeStore s; mret r) Q w') as Hgo.
  { intros random w' Hr Ho Et. pose proof (same_getNodeByNetworkAddr (the_table w) p random) as Hs.
    pose proof (getNodeByNetworkAddr_range (the_table w) p random) as Hk.
    pose proof (getNodeByNetworkAddr_spec (the_table w) p random) as Hp.
    destruct (NodeStore_getNodeByNetworkAddr p (the_table w) random) as [s r]. cbn [fst snd] in Hs, Hk.
    apply wp_bind, wp_modify, wp_ret. destruct Ho as [O1 O2 O3 O4 O5].
    assert (only_table w (with_router (set_nodeStore s) w')) as Ho' by (split; done).
    apply HQ; [|done|done| |].
    - by apply (table_same ex n w).
    - intros k ->. change (the_table (with_router (set_nodeStore s) _)) with s. rewrite (same_size _ _ Hs). by apply Hk.
    - intros H0 k ->. change (the_table (with_router (set_nodeStore s) _)) with s. destruct (Hp H0) as (-> & _ & <- & _).
      unfold npath. cbn. rewrite Z.eqb_refl. done. }
  destruct (_ && _); [|by apply wp_ret, Hgo]. apply run_rand. apply Hgo; [apply Hrand|split; done|done].
Qed.

Lemma run_updateReach ex n k r w (Q : unit -> World -> Prop) :
  router_ok ex n w -> 0 <= k < (the_table w).(size) ->
  (forall w', router_ok ex n w' -> only_table w w' -> same_table (the_table w) (the_table w') ->
    ((the_table w').(headers) k).(reach) = r -> Q tt w') ->
  wp (updateReach k r) Q w.
Proof.
  intros Hw Hk HQ. unfold updateReach. apply wp_bind, wp_gets. fold (the_table w). cbv zeta.
  set (s0 := set_node (the_table w) k _). assert (same_table (the_table w) s0) as H0 by (by apply same_set_node).
  destruct (updateReach_spec s0 k) as (s & Es & Hs & _ & Hr & _).
  - by apply (same_table_ok (the_table w)), Hw.
  - done.
  - apply wp_bind. apply (wp_lift _ s); [exact Es|]. apply wp_modify.
    assert (same_table (the_table w) (the_table (with_router (set_nodeStore s) w))) as Hs' by (by etrans).
    apply HQ; [|done|done|].
    + by apply (table_same ex n w).
    + change (the_table (with_router (set_nodeStore s) _)) with s. rewrite Hr. unfold s0. cbn. rewrite Z.eqb_refl. done.
Qed.

Lemma run_brokenPath ex n p w (Q : Z -> World -> Prop) : router_ok ex n w -> label_ok p ->
  (forall r w', router_ok ex n w' -> only_table w w' -> Q r w') -> wp (brokenPath p) Q w.
Proof.
  intros Hw Hp HQ. unfold brokenPath. apply wp_bind, wp_gets. fold (the_table w).
  destruct (brokenPath_keeps entry_sane (the_table w) p Hp (rk_table _ _ _ Hw) (rk_entries _ _ _ Hw))
    as (s & r & Er & Hs & He & H1 & H2 & H3).
  apply wp_bind. apply (wp_lift _ (s, r)); [exact Er|]. apply wp_bind, wp_modify, wp_ret.
  apply HQ; [|done]. apply (table_replaced ex n n w); try done. change (the_table (with_router (set_nodeStore s) _)) with s. lia.
Qed.

(** ** Rules for the calls of the search store *)

(** Everything but the search store is as it was, and open searches are open. *)
Record only_searches (w w' : World) : Prop := {
  os_table : the_table w' = the_table w;
  os_contexts : the_contexts w' = the_contexts w;
  os_pings : w'.(router).(router_pings) = w.(router).(router_pings);
  os_address : w'.(router).(router_address) = w.(router).(router_address);
  os_now : w'.(now) = w.(now);
  os_opens : opens w w';
  os_closed : forall i, (the_searches w).(searches) i = None -> (the_searches w').(searches) i = None
}.

#[export] Instance only_searches_preorder : PreOrder only_searches.
Proof.
  split; [intros w; split; done|].
  intros w1 w2 w3 [A1 A2 A3 A4 A5 A6 A7] [B1 B2 B3 B4 B5 B6 B7]. split; try congruence; [by etrans|auto].
Qed.

Lemma searches_replaced ex n m w w' : router_ok ex n w -> only_searches w w' -> m <= n ->
  searches_ok (the_searches w') -> roller_ok m (the_searches w').(gmrtRoller) -> router_ok ex m w'.
Proof.
  intros [H1 H2 H3 H4 H5 H6 H7 H8 H9] [E1 E2 E3 E4 E5 E6 E7] Hm Hs Hr.
  split; rewrite ?E1, ?E2, ?E3; try done.
  - lia.
  - intros i scc Hi. destruct (H7 i scc Hi) as (A1 & A2 & A3). split; [by apply E6|done].
  - intros i Hi. apply H8. intros Hno. apply Hi. by apply E7.
Qed.

Lemma put_search_only w s i search :
  (the_searches w).(searches) i <> None -> s = set_search (the_searches w) i (Some search) ->
  only_searches w (with_router (set_searchStore s) w).
Proof.
  intros Hi ->. split; try done.
  - intros j Hj. cbn. destruct (Z.eqb_spec j i); done.
  - intros j Hj. cbn. destruct (Z.eqb_spec j i) as [->|]; done.
Qed.

Lemma put_store_only w s : s.(searches) = (the_searches w).(searches) -> only_searches w (with_router (set_searchStore s) w).
Proof. intros H. split; try done; intros j; cbn; rewrite H; done. Qed.

Lemma same_router_only w w' : w'.(router) = w.(router) -> w'.(now) = w.(now) -> only_searches w w'.
Proof.
  intros Er En. split; unfold the_table, the_searches, the_contexts, opens, the_searches; rewrite ?Er; auto.
Qed.

(** A search after a node was offered to it. *)
Definition offered_to (addr : Address) (s s' : SearchStore_Search) : Prop :=
  s'.(nodesAsked) = s.(nodesAsked) /\ s'.(nodesAskedIndex) = s.(nodesAskedIndex) /\
  ((already_asked addr s = false \/ 0 < s.(searchStackSize)) -> 0 < s'.(searchStackSize)).

Lemma run_addNodeToSearch ex n addr i s w (Q : unit -> World -> Prop) :
  router_ok ex n w -> (the_searches w).(searches) i = Some s ->
  (forall s' w', router_ok ex n w' -> only_searches w w' -> (the_searches w').(searches) i = Some s' ->
    offered_to addr s s' -> Q tt w') ->
  wp (addNodeToSearch addr i) Q w.
Proof.
  intros Hw Hi HQ. unfold addNodeToSearch. apply wp_bind, wp_gets. fold (the_searches w).
  apply wp_bind. unfold SearchStore_addNodeToSearch. rewrite Hi. cbn [mbind option_bind].
  pose proof (rk_searches _ _ _ Hw i s Hi) as [H1 H2 H3 H4].
  destruct (already_asked addr s) eqn:Ea; (eapply wp_lift; [reflexivity|]); apply wp_modify.
  - apply (HQ s); [|by apply put_store_only|done|].
    + apply (searches_replaced ex n n w); try done; [by apply put_store_only|apply Hw..].
    + split; [done|]. split; [done|]. intros [?|?]; [congruence|done].
  - set (s' := {| searchIndex := searchIndex s |}).
    assert (search_ok i s') as Hs'.
    { split; [done|done| |done]. cbn. unfold SearchStore_SEARCH_NODES.
      destruct (Z.ltb_spec (searchStackSize s) 256); cbn [negb]; [rewrite u16_small by lia|]; lia. }
    set (st := set_search (the_searches w) i (Some s')).
    assert (only_searches w (with_router (set_searchStore st) w)) as Ho.
    { apply (put_search_only w st i s'); [by rewrite Hi|done]. }
    apply (HQ s'); [|done|cbn; rewrite Z.eqb_refl; done|].
    + apply (searches_replaced ex n n w); try done; [apply set_search_ok; [apply Hw|done]|apply Hw].
    + split; [done|]. split; [done|]. intros _. cbn. unfold SearchStore_SEARCH_NODES.
      destruct (Z.ltb_spec (searchStackSize s) 256); cbn [negb]; [rewrite u16_small by lia|]; lia.
Qed.

Lemma run_random (n : Z) (w : World) (Q : list Z -> World -> Prop) :
  (forall l w', w'.(router) = w.(router) -> w'.(now) = w.(now) -> Q l w') -> wp (random_bytes n) Q w.
Proof. intros HQ. unfold wp, random_bytes. destruct (Random_bytes (rng w) n). by apply HQ. Qed.

Lemma run_getNextNode ex n i s w (Q : option SearchStore_NodePointer -> World -> Prop) :
  router_ok ex n w -> (the_searches w).(searches) i = Some s ->
  (forall r w', router_ok ex n w' -> only_searches w w' ->
    match r with
    | Some p => p.1 = i /\ exists node, node_at (the_searches w') p = Some node /\ node.(txid) <> None
    | None => s.(searchStackSize) = 0
    end -> Q r w') ->
  wp (getNextNode i) Q w.
Proof.
  intros Hw Hi HQ. unfold getNextNode. apply wp_bind, wp_gets. cbn [id]. fold (the_searches w).
  apply wp_bind. apply (wp_lift _ s); [exact Hi|]. apply wp_bind.
  pose proof (rk_searches _ _ _ Hw i s Hi) as [H1 H2 H3 H4].
  assert (forall magic w1, w1.(router) = w.(router) -> w1.(now) = w.(now) -> wp
    ('(s0, p) ← lift (SearchStore_getNextNode i (now w) magic (the_searches w)); _ ← put_searchStore s0; mret p) Q w1) as Hgo.
  { intros magic w1 Er En. assert (router_ok ex n w1) as Hw1 by (by apply (router_ok_same ex n w)).
    assert (the_searches w1 = the_searches w) as Es by (unfold the_searches; congruence).
    assert (forall w2, only_searches w1 w2 -> only_searches w w2) as Hback.
    { intros w2 Ho. etrans; [|exact Ho]. by apply same_router_only. }
    apply wp_bind. unfold SearchStore_getNextNode. rewrite Hi. cbn [mbind option_bind].
    destruct (Z.eqb_spec (searchStackSize s) 0) as [E0|]; (eapply wp_lift; [reflexivity|]).
    - apply wp_bind, wp_modify, wp_ret. apply HQ; [| |done].
      + apply (searches_replaced ex n n w1); try done; [apply put_store_only; by rewrite Es|rewrite <-Es; apply Hw1..].
      + apply Hback, put_store_only. by rewrite Es.
    - cbv zeta. match goal with |- wp (let '(a, b) := (set_search _ _ (Some ?x), _) in _) _ _ => set (s' := x) end.
      set (st := set_search (the_searches w) i (Some s')).
      assert (only_searches w1 (with_router (set_searchStore st) w1)) as Ho.
      { apply (put_search_only w1 st i s'); rewrite Es; [by rewrite Hi|done]. }
      apply wp_bind, wp_modify, wp_ret. apply HQ.
      + apply (searches_replaced ex n n w1); try done; [|exact (rk_roller _ _ _ Hw)].
        apply set_search_ok; [apply Hw|]. split; [done|done|cbn; rewrite u16_small by lia; lia|].
        intros k. cbn. destruct (k =? nodesAskedIndex s); [done|apply H4].
      + by apply Hback.
      + split; [done|]. eexists. split.
        * unfold node_at. cbn. rewrite Z.eqb_refl. cbn. rewrite Z.eqb_refl. reflexivity.
        * done. }
  destruct (searchStackSize s =? 0); [by apply wp_ret, Hgo|]. apply run_random. intros l w1 Er En. by apply Hgo.
Qed.

Lemma run_replyReceived ex n node w (Q : Z -> World -> Prop) : router_ok ex n w -> 1 <= n ->
  (forall r w', router_ok ex (n - 1) w' -> only_searches w w' ->
    (the_searches w').(searches) = (the_searches w).(searches) -> r = u32 (u64 (w.(now) - node.(timeOfRequest))) -> Q r w') ->
  wp (replyReceived node) Q w.
Proof.
  intros Hw Hn HQ. unfold replyReceived. apply wp_bind, wp_gets. cbn [id]. fold (the_searches w). apply wp_bind.
  unfold SearchStore_replyReceived. cbv zeta.
  destruct (roller_update n (gmrtRoller (the_searches w)) (nowSeconds w) (u32 (u64 (now w - timeOfRequest node))))
    as (r & a & Er & Hr); [apply Hw|done|]. rewrite Er. cbn [mbind option_bind].
  eapply wp_lift; [reflexivity|]. apply wp_bind, wp_modify, wp_ret.
  assert (only_searches w (with_router (set_searchStore {| searches := searches (the_searches w); gmrtRoller := r |}) w)) as Ho.
  { by apply put_store_only. }
  apply HQ; try done. apply (searches_replaced ex n (n - 1) w); try done; [lia|]. intros j x. apply (rk_searches _ _ _ Hw).
Qed.

Lemma run_search_node w p s (Q : SearchStore_Node -> World -> Prop) :
  (the_searches w).(searches) p.1 = Some s -> Q (s.(nodesAsked) p.2) w -> wp (search_node p) Q w.
Proof.
  intros Hp HQ. unfold search_node. apply wp_bind, wp_gets. eapply wp_lift; [|exact HQ].
  fold (the_searches w). unfold node_at. rewrite Hp. done.
Qed.

Lemma run_put_address ex n p a w (Q : unit -> World -> Prop) :
  router_ok ex n w -> (the_searches w).(searches) p.1 <> None ->
  (forall w', router_ok ex n w' -> only_searches w w' -> Q tt w') -> wp (put_address p a) Q w.
Proof.
  intros Hw Hp HQ. unfold put_address. apply wp_bind, wp_gets. fold (the_searches w). apply wp_modify.
  unfold set_asked_address. destruct ((the_searches w).(searches) p.1) as [s|] eqn:Es; [|done]. cbn [option_map].
  match goal with |- context [set_search _ _ (Some ?x)] => set (s' := x) end.
  assert (only_searches w (with_router (set_searchStore (set_search (the_searches w) p.1 (Some s'))) w)) as Ho.
  { eapply put_search_only; [|reflexivity]. by rewrite Es. }
  apply HQ; [|done]. pose proof (rk_searches _ _ _ Hw p.1 s Es) as [H1 H2 H3 H4].
  apply (searches_replaced ex n n w); try done; [|apply Hw].
  apply set_search_ok; [apply Hw|]. split; try done. intros k. cbn. destruct (k =? p.2); apply H4.
Qed.

(** The end of a search. *)
Lemma run_free_search ex n i w (Q : unit -> World -> Prop) : router_ok ex n w ->
  (the_searches w).(searches) i <> None ->
  (forall w', router_ok (if bool_decide (ex = Some i) then None else ex) n w' ->
    (the_searches w').(searches) i = None -> the_table w' = the_table w -> out w' = out w -> Q tt w') ->
  wp (free_search i) Q w.
Proof.
  intros Hw Hi HQ. unfold free_search. apply wp_bind, wp_gets. fold (the_searches w).
  destruct ((the_searches w).(searches) i) as [s|] eqn:Es; [|done].
  apply wp_bind. apply (wp_lift _ s); [reflexivity|]. apply wp_bind, wp_modify, wp_modify.
  pose proof (rk_searches _ _ _ Hw i s Es) as [_ Ei _ _].
  unfold put_context, wp. cbn [modify]. destruct Hw as [H1 H2 H3 H4 H5 H6 H7 H8 H9].
  apply HQ; [|cbn; rewrite Ei, Z.eqb_refl; done|done|done]. split; try done.
  - intros j x. unfold the_searches. cbn. rewrite Ei. destruct (j =? i); [done|apply H6].
  - intros j scc. unfold the_contexts, the_searches. cbn. rewrite Ei. destruct (Z.eqb_spec j i); [done|apply H7].
  - intros j. unfold the_contexts, the_searches. cbn. rewrite Ei. destruct (Z.eqb_spec j i) as [->|Hne]; [done|].
    intros Hj. destruct (H8 j Hj) as [?|Eex]; [by left|right]. rewrite bool_decide_eq_false_2; congruence.
Qed.

Lemma run_put_context ex n i scc w (Q : unit -> World -> Prop) : router_ok ex n w ->
  (the_searches w).(searches) i <> None -> scc.(scc_search) = i -> scc.(lastNodeCalled).1 = i ->
  (forall w', router_ok (if bool_decide (ex = Some i) then None else ex) n w' ->
    the_table w' = the_table w -> the_searches w' = the_searches w -> w'.(router).(router_address) = w.(router).(router_address) ->
    w'.(now) = w.(now) -> Q tt w') ->
  wp (put_context i (Some scc)) Q w.
Proof.
  intros [H1 H2 H3 H4 H5 H6 H7 H8 H9] Hi E1 E2 HQ. apply wp_modify. apply HQ; try done. split; try done.
  - intros j c. unfold the_contexts. cbn. destruct (Z.eqb_spec j i) as [->|Hne]; [|apply H7].
    intros [= <-]. done.
  - intros j Hj. unfold the_contexts. cbn. destruct (Z.eqb_spec j i) as [->|Hne]; [by left|].
    destruct (H8 j Hj) as [?|Eex]; [by left|right]. rewrite bool_decide_eq_false_2; congruence.
Qed.

(** The search that was being set up is not open after all. *)
Lemma tryNext_range w (Q : Z -> World -> Prop) :
  (forall t w', MIN_TIMEOUT <= t <= MAX_TIMEOUT -> w'.(router) = w.(router) -> w'.(now) = w.(now) ->
    out w' = out w -> Q t w') -> wp tryNextNodeAfter Q w.
Proof.
  intros HQ. unfold tryNextNodeAfter. apply wp_bind, wp_gets. apply wp_bind, run_rand, wp_ret. apply HQ; try done.
  unfold MIN_TIMEOUT, MAX_TIMEOUT. bcase; lia.
Qed.
End invariant.
