(* ===== verification/RouterSafety.v ===== *)
(** * The router does not abort

    Every operation of the router runs to its end and keeps the invariant, on
    messages that satisfy [incoming_ok]. What [incoming_ok] asks of a message is
    what the code does not check: RouterDefects shows what happens otherwise. *)
From S2P Require Import Prelude Memory Endian Bits LabelSplicer NaCl Benc ArrayIO BencSerializer Address NodeCollector NodeStore NodeStoreKeeps VersionList AverageRoller SearchStore DHT RouterModule RouterInvariant.

Lemma stringify_defined `{Platform} k m versions : (3 <= k)%nat -> Forall (fun v => 0 <= v < UINT32_MAX) versions ->
  exists str, VersionList_stringify k m versions = Some str.
Proof.
  intros Hk Hv. unfold VersionList_stringify.
  destruct (number_size_spec k versions Hk Hv 1) as (width & Ew & _); [lia|]. change (max_of 1) with 255 in Ew.
  rewrite Ew. eexists. reflexivity.
Qed.

Lemma splice_label g v : 0 < g < 2 ^ 64 -> label_ok v -> label_ok (LabelSplicer_splice g v).
Proof.
  unfold label_ok. intros Hg Hv. destruct (splice_log2 g v) as [H1 H2]; [exact Hg|unfold is_label; lia|].
  pose proof (label_log2 v Hv) as Hl. pose proof (log2x64_range g ltac:(lia)) as Hlg. unfold is_label in H1.
  assert (1 <= Bits_log2x64 (LabelSplicer_splice g v)) as Hs by (rewrite H2; destruct (60 <? _); lia).
  rewrite log2x64_spec in Hs by lia. split; [|lia].
  destruct (Z.le_gt_cases 2 (LabelSplicer_splice g v)); [done|].
  assert (LabelSplicer_splice g v = 1) as E1 by lia. rewrite E1 in Hs. cbn in Hs. lia.
Qed.

Section safety.
  Context {P : Platform} {N : NaCl} {L : NaClLaws N} {R : RandomSource} {E : Environment}.
  Hypothesis Hrand : rand_ok.
  Hypothesis Hfuel : (3 <= fuel)%nat.

Definition sender_ok (addr : Address) : Prop := addr_sane addr /\ addr.(key) <> repeat 0 32.

(** The message does not claim to be from this node. *)
Definition not_ours (w : World) (addr : Address) : Prop :=
  (snd (Address_getPrefix addr)).(ip6) <> (the_table w).(thisNodeAddress).(ip6).

(** What is asked of a query: the version is not 2^32 - 1. *)
Definition query_ok (d : Dict) : Prop :=
  forall v, Dict_getInt (Some d) (Some CJDHTConstants_PROTOCOL) = Some v -> u32 v <> UINT32_MAX.

(** What is asked of an entry of the list of nodes. *)
Definition listed_ok (self a : Address) : Prop :=
  0 < a.(path) < 2 ^ 64 /\ a.(key) <> repeat 0 32 /\ (Address_isSameIp self a = true -> label_ok a.(path)).

Definition reply_version (d : Dict) : Z := u32 (default 0 (Dict_getInt (Some d) (Some CJDHTConstants_PROTOCOL))).
Definition listed (nodes : String) (i : Z) : Address := Address_parse (fun x => of_list nodes (i + x)).

(** What is asked of a reply: a version we talk to; no zero label or key in the
    list of nodes; a list of versions that is as long, with no 2^32 - 1. *)
Record reply_ok (self : Address) (d : Dict) : Prop := {
  reply_compatible : Version_isCompatible Version_CURRENT_PROTOCOL (reply_version d) = true;
  reply_not_max : reply_version d <> UINT32_MAX;
  reply_short : forall nodes, Dict_getString (Some d) (Some CJDHTConstants_NODES) = Some nodes ->
    Z.of_nat (length nodes) <= DHTMessage_MAX_SIZE;
  reply_listed : forall nodes i, Dict_getString (Some d) (Some CJDHTConstants_NODES) = Some nodes ->
    0 <= i -> i + 40 <= Z.of_nat (length nodes) -> listed_ok self (listed nodes i);
  reply_listed_versions : forall nodes, Dict_getString (Some d) (Some CJDHTConstants_NODES) = Some nodes ->
    exists vs, reply_versions (reply_version d) (Dict_getString (Some d) (Some CJDHTConstants_NODE_PROTOCOLS)) = inr vs /\
      forall l, vs = Some l -> Z.of_nat (length nodes) / 40 <= Z.of_nat (length l) /\ Forall (fun v => 0 <= v < UINT32_MAX) l
}.

(** The entries in use are the nodes the router knows. *)
Definition known (w : World) (addr : Address) : Prop :=
  exists k, 0 <= k < (the_table w).(size) /\ npath (the_table w) k = addr.(path) /\
    ((the_table w).(store_nodes) k).(address).(key) = addr.(key).

Definition incoming_ok (w : World) (addr : Address) (d : Dict) : Prop :=
  sender_ok addr /\ not_ours w addr /\
  match Dict_getString (Some d) (Some CJDHTConstants_QUERY) with
  | Some _ => query_ok d
  | None => known w addr -> reply_ok w.(router).(router_address) d
  end.

(** ** Sending *)
Definition dht_written (message : DHTMessage) (d : Dict) : DHTMessage :=
  let writer := (serializeDictionary (ArrayWriter_new message.(dht_bytes) 0 DHTMessage_MAX_SIZE) d).2 in
  with_bytes (with_dict message d) writer.(w_memory) (u16 (writer_bytesWritten writer)).

Definition emitted (e : Event) (w : World) : World :=
  {| router := w.(router); now := w.(now); nowSeconds := w.(nowSeconds); rands := w.(rands); rng := w.(rng);
     out := w.(out) ++ [e] |}.

Lemma outgoing_unfold message (w : World) : send_dht message w =
  ('(r, message) ← ReplyModule_handleOutgoing message;
   if negb (r =? 0) then mret tt else
   '(r, message) ← RouterModule_handleOutgoing message;
   if negb (r =? 0) then mret tt else
   '(r, message) ← SerializationModule_handleOutgoing message;
   if negb (r =? 0) then mret tt else emit (ToNetwork message)) w.
Proof.
  unfold send_dht, DHTModuleRegistry_handleOutgoing, registry_with, ReplyModule_register, SerializationModule_register,
    DHTModuleRegistry_register.
  cbn [app forEachModule dhtModuleHandleOutgoing handleOutgoing Ducttape_module].
  rewrite !run_bind. destruct (ReplyModule_handleOutgoing message w) as [[[r1 m1] w1]|]; [|done].
  destruct (negb (r1 =? 0)); [done|]. rewrite !run_bind.
  destruct (RouterModule_handleOutgoing m1 w1) as [[[r2 m2] w2]|]; [|done].
  destruct (negb (r2 =? 0)); [done|]. rewrite !run_bind.
  destruct (SerializationModule_handleOutgoing m2 w2) as [[[r3 m3] w3]|]; [|done].
  destruct (negb (r3 =? 0)); done.
Qed.

Lemma serialization_out message d (w : World) : message.(asDict) = Some d ->
  SerializationModule_handleOutgoing message w = Some ((0, dht_written message d), w).
Proof.
  intros Hd. unfold SerializationModule_handleOutgoing, dht_written. rewrite run_bind, Hd. cbn [lift option_map].
  destruct (serializeDictionary _ d) as [ret writer]. unfold with_bytes, with_dict. cbn. rewrite Hd. done.
Qed.

Lemma send_request message d w : message.(replyTo) = None -> message.(asDict) = Some d ->
  send_dht message w = Some (tt, emitted (ToNetwork
    (dht_written message (fst (Dict_putInt d CJDHTConstants_PROTOCOL Version_CURRENT_PROTOCOL)))) w).
Proof.
  intros Hr Hd. rewrite outgoing_unfold, run_bind. unfold ReplyModule_handleOutgoing. rewrite Hr. cbn [mret M_ret negb Z.eqb].
  rewrite run_bind. unfold RouterModule_handleOutgoing at 1. rewrite run_bind, Hd. cbn [lift option_map].
  cbv zeta. change (replyTo (with_dict message _)) with (replyTo message). rewrite Hr. cbn [mret M_ret negb Z.eqb].
  rewrite run_bind, (serialization_out _ (fst (Dict_putInt d CJDHTConstants_PROTOCOL Version_CURRENT_PROTOCOL))) by done.
  cbn [negb Z.eqb]. reflexivity.
Qed.

Lemma run_sendRequest addr q tid target tk w (Q : unit -> World -> Prop) :
  (forall e, Q tt (emitted e w)) -> wp (sendRequest send_dht addr q tid target tk) Q w.
Proof. intros HQ. unfold sendRequest, wp. cbv zeta. erewrite send_request by reflexivity. apply HQ. Qed.

Lemma emitted_ok ex n e w : router_ok ex n w -> router_ok ex n (emitted e w).
Proof. intros H. by apply (router_ok_same ex n w). Qed.

Lemma emitted_only e w : only_searches w (emitted e w).
Proof. by apply same_router_only. Qed.

(** ** Answering a query *)
Definition query_version (d : Dict) : Z :=
  match Dict_getInt (Some d) (Some CJDHTConstants_PROTOCOL) with
  | Some v => if v <=? UINT32_MAX then u32 v else 0
  | None => 0
  end.

Lemma query_version_ok d : query_ok d -> 0 <= query_version d < UINT32_MAX.
Proof.
  unfold query_ok, query_version. intros H. destruct (Dict_getInt _ _) as [v|]; [|unfold UINT32_MAX; lia].
  specialize (H v eq_refl). pose proof (u32_range v). unfold UINT32_MAX in *. destruct (v <=? _); lia.
Qed.

Lemma run_handleQuery ex n message query d dq w (Q : Z * DHTMessage -> World -> Prop) :
  router_ok ex n w -> 1 <= n -> message.(asDict) = Some d -> query.(asDict) = Some dq -> sender_ok query.(dht_address) ->
  query_ok dq ->
  (forall d' w', router_ok ex (n - 1) w' -> only_table w w' -> Q (0, with_dict message d') w') ->
  wp (handleQuery message query) Q w.
Proof.
  intros Hw Hn Hd Hdq [Hs Hk] Hq HQ. unfold handleQuery. rewrite Hdq. fold (query_version dq).
  pose proof (query_version_ok dq Hq) as Hv.
  apply wp_bind. apply (run_addNode ex n); try done. intros r w1 Hw1 Ho _.
  apply wp_bind. apply (wp_lift _ d); [exact Hd|].
  assert (forall d', wp (w0 ← gets id; mret (0, with_dict message (fst (Dict_putString d' (Some CJDHTConstants_VERSION)
    (Some (gitVersion (router w0))))))) Q w1) as Hping by (intros d'; apply wp_bind, wp_gets, wp_ret, HQ; done).
  destruct (Dict_getString _ (Some CJDHTConstants_TARGET)) as [target|]; [|apply Hping].
  destruct (length target =? 16)%nat; [|apply Hping]. clear Hping.
  apply wp_bind, wp_gets. fold (the_table w1).
  pose proof (getClosestNodes_spec (the_table w1) (stack_address target) (Some (dht_address query)) (RouterModule_K + 5) (query_version dq)) as Hc.
  destruct (NodeStore_getClosestNodes _ _ _ _ _) as [s l]. destruct Hc as (Hsame & _ & Hl).
  assert (router_ok ex (n - 1) (with_router (set_nodeStore s) w1)) as Hw2 by (by apply (table_same ex (n - 1) w1)).
  assert (only_table w (with_router (set_nodeStore s) w1)) as Ho2 by (etrans; [exact Ho|done]).
  apply wp_bind, wp_modify. destruct (negb _).
  - apply wp_ret. pose proof (HQ d _ Hw2 Ho2) as HQ'. replace (with_dict message d) with message in HQ'; [exact HQ'|].
    destruct message. cbn in Hd. subst. done.
  - destruct (stringify_defined fuel scratch (map node_version (map (store_nodes s) l)) Hfuel) as (str & Es).
    { apply List.Forall_forall. intros v (x & <- & (i & <- & Hi)%in_map_iff)%in_map_iff.
      apply list_elem_of_In in Hi. destruct (Hl i Hi) as [Hir ->]. cbn. apply (rk_entries _ _ _ Hw1 i Hir). }
    apply wp_bind. apply (wp_lift _ str); [exact Es|]. apply wp_ret. by apply HQ.
Qed.

Lemma run_answer ex n query dq w (Q : unit -> World -> Prop) :
  router_ok ex n w -> 1 <= n -> query.(asDict) = Some dq -> sender_ok query.(dht_address) -> query_ok dq ->
  (forall w', router_ok ex (n - 1) w' -> Q tt w') ->
  wp (send_dht {| dht_address := query.(dht_address); dht_bytes := fun _ => 0; dht_length := 0; asDict := None;
                  replyTo := Some query |}) Q w.
Proof.
  intros Hw Hn Hdq Hs Hq HQ. unfold wp. rewrite outgoing_unfold. fold (wp (A := unit) (S := World)).
  match goal with |- match ?m w with _ => _ end => change (wp m Q w) end.
  apply wp_bind. apply wp_ret. cbn [negb Z.eqb]. cbv beta iota.
  apply wp_bind. unfold RouterModule_handleOutgoing at 1. apply wp_bind.
  eapply wp_lift; [reflexivity|]. cbv zeta. cbn [with_dict replyTo].
  eapply (run_handleQuery ex n _ query _ dq); try done. intros d' w' Hw' Ho. cbn [negb Z.eqb].
  apply wp_bind. unfold wp at 1. rewrite (serialization_out _ d') by done. cbn [negb Z.eqb].
  unfold emit. apply wp_modify, HQ. by apply (emitted_ok ex (n - 1)).
Qed.

(** ** Steps of a search *)
Lemma run_responseFromNode ex n node ms w (Q : unit -> World -> Prop) : router_ok ex n w ->
  (forall k, node = Some k -> 0 <= k < (the_table w).(size)) ->
  (forall w', router_ok ex n w' -> only_table w w' -> Q tt w') -> wp (responseFromNode node ms) Q w.
Proof.
  intros Hw Hk HQ. unfold responseFromNode. destruct node as [k|]; [|by apply wp_ret, HQ].
  apply wp_bind, tryNext_range. intros t w1 _ Er En _.
  assert (router_ok ex n w1) as Hw1 by (by apply (router_ok_same ex n w)).
  assert (only_table w w1) as Ho by (split; unfold the_searches, the_contexts; congruence).
  destruct (ms <? t); [|by apply wp_ret, HQ]. apply (run_updateReach ex n); [done| |].
  - unfold the_table in *. rewrite Er. by apply Hk.
  - intros w2 Hw2 Ho2 _ _. apply HQ; [done|by etrans].
Qed.

Lemma context_open ex n w i scc : router_ok ex n w -> the_contexts w i = Some scc ->
  (exists s, (the_searches w).(searches) i = Some s) /\ scc.(scc_search) = i /\ scc.(lastNodeCalled).1 = i.
Proof.
  intros Hw Hi. destruct (rk_contexts _ _ _ Hw i scc Hi) as (H1 & H2 & H3). split; [|done].
  destruct ((the_searches w).(searches) i); [eauto|done].
Qed.

Lemma run_end_search n i scc w (Q : unit -> World -> Prop) : router_ok None n w ->
  (the_searches w).(searches) i <> None -> (forall w', router_ok None n w' -> Q tt w') ->
  wp (_ ← match scc.(resultCallback) with Some c => emit (SearchResult c None) | None => mret tt end; free_search i) Q w.
Proof.
  intros Hw Hi HQ. apply wp_bind. destruct (resultCallback scc).
  - apply wp_modify. apply (run_free_search None n); [by apply (emitted_ok None n)|done|]. intros w' Hw' _ _ _. by apply HQ.
  - apply wp_ret. apply (run_free_search None n); [done|done|]. intros w' Hw' _ _ _. by apply HQ.
Qed.

Lemma run_searchStep n i w (Q : unit -> World -> Prop) : router_ok None n w -> the_contexts w i <> None ->
  (forall w', router_ok None n w' -> Q tt w') -> wp (searchStep send_dht i) Q w.
Proof.
  intros Hw Hi HQ. destruct (the_contexts w i) as [scc|] eqn:Ec; [|done].
  destruct (context_open None n w i scc Hw Ec) as ((s & Es) & Esc & Elast).
  unfold searchStep. apply wp_bind, wp_gets. cbn [id]. fold (the_contexts w). apply wp_bind.
  apply (wp_lift _ scc); [exact Ec|]. apply wp_bind. rewrite Esc.
  apply (run_getNextNode None n i s); [done|done|]. intros r w1 Hw1 Ho1 Hr.
  assert ((the_searches w1).(searches) i <> None) as Hi1 by (apply (os_opens _ _ Ho1); congruence).
  destruct r as [p|]; [|by apply (run_end_search n i)].
  destruct Hr as (Ep & node & En & _). destruct (MAX_REQUESTS_PER_SEARCH <=? totalRequests scc).
  { by apply (run_end_search n i). }
  apply wp_bind. unfold search_node. apply wp_bind, wp_gets. apply (wp_lift _ node); [exact En|].
  cbv zeta. apply wp_bind. apply (run_getBest None n); [done|]. intros r w2 Hw2 Ho2 _.
  assert ((the_searches w2).(searches) i <> None) as Hi2 by (by apply (only_table_opens _ _ Ho2)).
  assert (forall addr w3, router_ok None n w3 -> (the_searches w3).(searches) i <> None ->
    wp (_ ← put_address p addr;
        _ ← sendRequest send_dht addr (Some scc.(requestType)) node.(txid) (Some scc.(scc_targetAddress)) scc.(targetKey);
        t ← tryNextNodeAfter;
        put_context i (Some
          {| resultCallback := scc.(resultCallback); totalRequests := u32 (scc.(totalRequests) + 1);
             scc_targetAddress := scc.(scc_targetAddress); scc_timeout := w.(now) + t; scc_search := i;
             requestType := scc.(requestType); targetKey := scc.(targetKey); lastNodeCalled := p;
             timeoutMilliseconds := t |})) Q w3) as Hrest.
  { intros addr w3 Hw3 Hi3. apply wp_bind. apply (run_put_address None n); [done|by rewrite Ep|]. intros w4 Hw4 Ho4.
    apply wp_bind. apply run_sendRequest. intros e. apply wp_bind, tryNext_range. intros t w5 _ Er5 _ _.
    assert (router_ok None n w5) as Hw5 by (by apply (router_ok_same None n w4)).
    apply (run_put_context None n); try done.
    - unfold the_searches. rewrite Er5. cbn. apply (os_opens _ _ Ho4). exact Hi3.
    - intros w6 Hw6 _ _ _ _. by apply HQ. }
  apply wp_bind. destruct r as [k|].
  - apply wp_bind. unfold node_at_index. apply wp_bind, wp_gets, wp_ret, wp_ret. by apply Hrest.
  - apply wp_ret. by apply Hrest.
Qed.

Lemma run_searchRequestTimeout n i w (Q : unit -> World -> Prop) : router_ok None n w -> the_contexts w i <> None ->
  (forall w', router_ok None n w' -> Q tt w') -> wp (searchRequestTimeout send_dht i) Q w.
Proof.
  intros Hw Hi HQ. destruct (the_contexts w i) as [scc|] eqn:Ec; [|done].
  destruct (context_open None n w i scc Hw Ec) as ((s & Es) & Esc & Elast).
  unfold searchRequestTimeout. apply wp_bind, wp_gets. cbn [id]. fold (the_contexts w). apply wp_bind.
  apply (wp_lift _ scc); [exact Ec|]. apply wp_bind. apply (run_search_node w _ s); [by rewrite Elast|].
  apply wp_bind. apply (run_getNode None n); [done|done|]. intros r w1 Hw1 Ho1 _ Hr _.
  assert (forall w', router_ok None n w' -> only_table w1 w' -> wp (searchStep send_dht i) Q w') as Hstep.
  { intros w' Hw' Ho'. apply (run_searchStep n); [done| |done].
    rewrite (ot_contexts _ _ Ho'), (ot_contexts _ _ Ho1). congruence. }
  apply wp_bind. destruct r as [k|]; [|by apply wp_ret, Hstep].
  apply wp_bind. unfold node_at_index. apply wp_bind, wp_gets, wp_ret. cbv zeta.
  apply (run_updateReach None n); [done|by apply Hr|]. intros w2 Hw2 Ho2 _ _. by apply Hstep.
Qed.

(** ** Replies *)

(** What the loop over the nodes of a reply keeps. *)
Record in_reply (i : Z) (n : Z) (self : Address) (w : World) : Prop := {
  ir_ok : router_ok None n w;
  ir_open : (the_searches w).(searches) i <> None;
  ir_context : the_contexts w i <> None;
  ir_self : w.(router).(router_address) = self
}.

Lemma in_reply_table i n m self w w' : in_reply i n self w -> only_table w w' -> router_ok None m w' -> in_reply i m self w'.
Proof. intros [H1 H2 H3 H4] [E1 E2 E3 E4 E5] Hw'. split; rewrite ?E1, ?E2, ?E4; done. Qed.

Lemma in_reply_searches i n m self w w' : in_reply i n self w -> only_searches w w' -> router_ok None m w' -> in_reply i m self w'.
Proof. intros [H1 H2 H3 H4] [E1 E2 E3 E4 E5 E6 E7] Hw'. split; rewrite ?E2, ?E4; auto. Qed.

Definition versions_ok (versions : option (list Z)) (j : Z) : Prop :=
  forall l, versions = Some l -> j / 40 < Z.of_nat (length l) /\ Forall (fun v => 0 <= v < UINT32_MAX) l.

Lemma listed_sane g via : 0 < g.(path) < 2 ^ 64 -> length g.(key) = 32%nat -> length g.(ip6) = 16%nat -> label_ok via ->
  let a := snd (Address_getPrefix {| ip6 := g.(ip6); key := g.(key); path := LabelSplicer_splice g.(path) via |}) in
  AddressCalc_validAddress a.(ip6) = true -> addr_sane a.
Proof.
  intros Hg Hk Hi Hv a Ha. set (b := {| ip6 := ip6 g |}) in *.
  assert (Address_getPrefix a = Address_getPrefix b) as E2 by apply getPrefix_twice.
  split; rewrite ?E2; fold a; try done.
  - unfold a. rewrite getPrefix_path. by apply splice_label.
  - unfold a. rewrite getPrefix_key. done.
  - by apply getPrefix_ip6_length.
Qed.

Lemma run_reply_entry n j tp pd versions nodes target parent i message self w (Q : bool -> World -> Prop) :
  in_reply i n self w -> 1 <= n -> 0 <= j -> listed_ok self (listed nodes j) -> label_ok message.(dht_address).(path) ->
  versions_ok versions j ->
  (forall go_on w', in_reply i (n - 1) self w' -> Q go_on w') ->
  wp (reply_entry j tp pd versions nodes target parent i message) Q w.
Proof.
  intros Hw Hn Hj (Hp & Hk & Hself) Hvia Hvs HQ. pose proof (ir_ok _ _ _ _ Hw) as Hok.
  assert (in_reply i (n - 1) self w) as Hw' by (by apply (in_reply_table i n (n - 1) self w w); [|..|apply (router_less None n); [|lia]]).
  unfold reply_entry. apply wp_bind, wp_gets. cbn [id]. rewrite (ir_self _ _ _ _ Hw).
  change (Address_parse (fun x => of_list nodes (j + x))) with (listed nodes j). set (g := listed nodes j) in *.
  destruct (isDuplicateEntry nodes j); [by apply wp_ret, HQ|]. cbv zeta.
  destruct (Address_isSameIp self g) eqn:Eself.
  { apply wp_bind. apply (run_brokenPath None n); [done|by apply Hself|]. intros _ w1 Hw1 Ho1. apply wp_ret, HQ.
    apply (in_reply_table i n (n - 1) self w); [done|done|]. apply (router_less None n); [done|lia]. }
  cbn [path]. destruct (_ =? UINT64_MAX); [by apply wp_ret, HQ|].
  pose proof (listed_sane g (path (dht_address message)) Hp) as Hsane.
  pose proof (getPrefix_key {| ip6 := ip6 g; key := key g; path := LabelSplicer_splice (path g) (path (dht_address message)) |}) as Ekey.
  destruct (Address_getPrefix _) as [pfx addr]. cbn [snd] in Hsane, Ekey.
  destruct (AddressCalc_validAddress (ip6 addr)) eqn:Evalid; cbn [negb]; [|by apply wp_ret, HQ].
  specialize (Hsane ltac:(unfold g; cbn; rewrite length_read; done) ltac:(done) Hvia eq_refl).
  assert (forall v, 0 <= v < UINT32_MAX -> wp (
      _ ← addNode addr 0 v;
      if (pd <=? (pfx .^ tp)) && (0 <=? xorCompare target addr parent) then mret true
      else
        n ← getBest addr;
        found ← match n with Some k => n ← node_at_index k; mret n.(address) | None => mret addr end;
        _ ← addNodeToSearch found i; mret true) Q w) as Hrest.
  { intros v Hv. apply wp_bind. apply (run_addNode None n); [done|done|done|split; [done|by rewrite Ekey]|].
    intros r w1 Hw1 Ho1 _. assert (in_reply i (n - 1) self w1) as Hi1 by (by apply (in_reply_table i n (n - 1) self w)).
    destruct (_ && _); [by apply wp_ret, HQ|]. apply wp_bind. apply (run_getBest None (n - 1)); [done|].
    intros r' w2 Hw2 Ho2 _. assert (in_reply i (n - 1) self w2) as Hi2 by (by apply (in_reply_table i (n - 1) (n - 1) self w1)).
    assert (forall found, wp (_ ← addNodeToSearch found i; mret true) Q w2) as Hadd.
    { intros found. apply wp_bind. destruct (searches (the_searches w2) i) as [s|] eqn:Es; [|by destruct (ir_open _ _ _ _ Hi2)].
      apply (run_addNodeToSearch None (n - 1) found i s); [done|done|]. intros s' w3 Hw3 Ho3 _ _.
      apply wp_ret, HQ. by apply (in_reply_searches i (n - 1) (n - 1) self w2). }
    apply wp_bind. destruct r' as [k|]; [|apply wp_ret, Hadd].
    apply wp_bind. unfold node_at_index. apply wp_bind, wp_gets, wp_ret, wp_ret, Hadd. }
  apply wp_bind. destruct versions as [l|]; [|apply wp_ret, Hrest; unfold UINT32_MAX; lia].
  destruct (Hvs l eq_refl) as [Hl Hall]. unfold Address_SERIALIZED_SIZE.
  destruct (lookup_lt_is_Some_2 l (Z.to_nat (j / 40))) as [v Ev]; [pose proof (Z.div_pos j 40); lia|].
  apply (wp_lift _ v); [exact Ev|]. apply Hrest. rewrite List.Forall_forall in Hall. apply Hall.
  apply list_elem_of_In, list_elem_of_lookup. eauto.
Qed.

Lemma run_reply_loop rounds : forall n j tp pd versions nodes target parent i message self w (Q : unit -> World -> Prop),
  in_reply i n self w -> Z.of_nat rounds <= n -> 0 <= j -> label_ok message.(dht_address).(path) ->
  (forall k, 0 <= k < Z.of_nat rounds -> listed_ok self (listed nodes (j + 40 * k)) /\ versions_ok versions (j + 40 * k)) ->
  (forall w', in_reply i (n - Z.of_nat rounds) self w' -> Q tt w') ->
  wp (reply_loop rounds j tp pd versions nodes target parent i message) Q w.
Proof.
  induction rounds as [|rounds IH]; intros n j tp pd versions nodes target parent i message self w Q Hw Hn Hj Hvia Hall HQ;
    cbn [reply_loop].
  { apply wp_ret, HQ. rewrite Z.sub_0_r. done. }
  destruct (Hall 0 ltac:(lia)) as [H1 H2]. rewrite Z.add_0_r in H1, H2.
  apply wp_bind. apply (run_reply_entry n j tp pd versions nodes target parent i message self); try done; [lia|].
  intros go_on w1 Hw1. destruct go_on.
  - apply (IH (n - 1) _ tp pd versions nodes target parent i message self); [done|lia|unfold Address_SERIALIZED_SIZE; lia|done| |].
    + intros k Hk. unfold Address_SERIALIZED_SIZE. replace (j + 40 + 40 * k) with (j + 40 * (k + 1)) by lia. apply Hall. lia.
    + intros w2 Hw2. apply HQ. replace (n - Z.of_nat (S rounds)) with (n - 1 - Z.of_nat rounds) by lia. done.
  - apply wp_ret, HQ. apply (in_reply_table i (n - 1) _ self w1); [done|reflexivity|].
    apply (router_less None (n - 1)); [apply Hw1|lia].
Qed.

Lemma getNode_found st tid p : SearchStore_getNode tid st = Some p ->
  exists s, st.(searches) p.1 = Some s /\ (s.(nodesAsked) p.2).(txid) = Some tid.
Proof.
  unfold SearchStore_getNode. destruct (negb _); [done|]. destruct (_ || _); [done|].
  destruct (searches st (index_search tid)) as [s|] eqn:Es; [|done].
  destruct (String_equals _ _) eqn:Eq; [|done]. intros [= <-]. exists s. split; [done|]. cbn [snd].
  destruct (txid _) as [t|]; [|done]. apply String_equals_spec in Eq as ->. done.
Qed.

Lemma reply_loop_ok self d nodes vs : reply_ok self d -> Dict_getString (Some d) (Some CJDHTConstants_NODES) = Some nodes ->
  reply_versions (reply_version d) (Dict_getString (Some d) (Some CJDHTConstants_NODE_PROTOCOLS)) = inr vs ->
  forall k, 0 <= k < Z.of_nat (length nodes) / 40 -> listed_ok self (listed nodes (0 + 40 * k)) /\ versions_ok vs (0 + 40 * k).
Proof.
  intros Hd Hn Hvs k Hk. pose proof (Z.mul_div_le (Z.of_nat (length nodes)) 40 ltac:(lia)).
  split; [apply (reply_listed _ _ Hd); [done|lia|lia]|]. intros l ->.
  destruct (reply_listed_versions _ _ Hd nodes Hn) as (vs' & Hvs' & Hl). rewrite Hvs in Hvs'. injection Hvs' as <-.
  destruct (Hl l eq_refl) as [H1 H2]. split; [|done]. rewrite Z.add_0_l, Z.mul_comm, Z.div_mul; lia.
Qed.

Lemma run_search_reply n node tid message d self w (Q : Z -> World -> Prop) :
  router_ok None n w -> 39 <= n -> message.(asDict) = Some d -> label_ok message.(dht_address).(path) ->
  w.(router).(router_address) = self -> reply_ok self d ->
  (forall k, node = Some k -> 0 <= k < (the_table w).(size)) ->
  (forall r w', router_ok None (n - 39) w' -> Q r w') ->
  wp (search_reply send_dht node (reply_version d) tid (Dict_getString (Some d) (Some CJDHTConstants_NODES)) message) Q w.
Proof.
  intros Hw Hn Hd Hvia Eself Hr Hk HQ. assert (router_ok None (n - 39) w) as Hw' by (apply (router_less None n); [done|lia]).
  unfold search_reply. apply wp_bind, wp_gets. fold (the_searches w).
  destruct (SearchStore_getNode tid (the_searches w)) as [p|] eqn:Ep; [|by apply wp_ret, HQ].
  destruct (getNode_found _ _ _ Ep) as (s & Es & Et).
  apply wp_bind. apply (run_search_node w p s); [done|]. destruct (negb _); [by apply wp_ret, HQ|].
  pose proof (search_asked _ _ (rk_searches _ _ _ Hw _ s Es) p.2 ltac:(by rewrite Et)) as Eslot.
  apply wp_bind. apply (run_replyReceived None n); [done|lia|]. intros delay w1 Hw1 Ho1 Es1 _.
  apply wp_bind. apply (run_responseFromNode None (n - 1)); [done|by rewrite (os_table _ _ Ho1)|]. intros w2 Hw2 Ho2.
  apply wp_bind. apply (wp_lift _ p.1); [exact Eslot|]. apply wp_bind, wp_gets. cbn [id]. fold (the_contexts w2).
  assert (searches (the_searches w2) p.1 = Some s) as Es2 by (rewrite (ot_searches _ _ Ho2), Es1; done).
  destruct (rk_open _ _ _ Hw2 p.1) as [Hc|]; [congruence| |done].
  destruct (the_contexts w2 p.1) as [scc|] eqn:Ec; [|done]. apply wp_bind. apply (wp_lift _ scc); [reflexivity|].
  assert (forall m w3, m <= n -> n - 39 <= m -> router_ok None m w3 -> the_contexts w3 p.1 <> None ->
    wp (_ ← searchStep send_dht p.1; mret 0) Q w3) as Hstep.
  { intros m w3 Hm Hm' Hw3 Hc3. apply wp_bind. apply (run_searchStep m); [done|done|]. intros w4 Hw4. apply wp_ret, HQ.
    by apply (router_less None m). }
  destruct (Dict_getString (Some d) (Some CJDHTConstants_NODES)) as [nodes|] eqn:En; [|apply (Hstep (n - 1)); [lia|lia|done|congruence]].
  rewrite Hd. destruct (reply_versions _ _) as [[]|vs] eqn:Evs.
  { destruct (reply_listed_versions _ _ Hr nodes En) as (vs & H & _). congruence. }
  destruct (Address_getPrefix (scc_targetAddress scc)) as [tp target].
  destruct (Address_getPrefix (node_address _)) as [pp parent].
  destruct (context_open None (n - 1) w2 p.1 scc Hw2 Ec) as (_ & Esc & Elast).
  apply wp_bind. apply (run_put_context None (n - 1)); [done|congruence|done|done|].
  intros w3 Hw3 Et3 Es3 Ea3 En3. cbn [bool_decide] in Hw3.
  assert (the_contexts w3 p.1 <> None) as Hc3.
  { destruct (rk_open _ _ _ Hw3 p.1) as [?|]; [congruence|done|done]. }
  apply wp_bind. apply (run_put_address None (n - 1)); [done|congruence|]. intros w4 Hw4 Ho4.
  assert (in_reply p.1 (n - 1) self w4) as Hi4.
  { split; [done| | |].
    - apply (os_opens _ _ Ho4). congruence.
    - by rewrite (os_contexts _ _ Ho4).
    - rewrite (os_address _ _ Ho4), Ea3, (ot_address _ _ Ho2), (os_address _ _ Ho1). done. }
  pose proof (reply_short _ _ Hr nodes En) as Hshort. unfold DHTMessage_MAX_SIZE in Hshort.
  pose proof (Z.div_pos (Z.of_nat (length nodes)) 40 ltac:(lia) ltac:(lia)) as Hpos.
  pose proof (Z.div_le_mono (Z.of_nat (length nodes)) 1536 40 ltac:(lia) Hshort) as Hrounds. change (1536 / 40) with 38 in Hrounds.
  set (rounds := Z.of_nat (length nodes) / 40) in *.
  apply wp_bind. apply (run_reply_loop _ (n - 1) 0 tp _ vs nodes target parent p.1 message self); [done| |lia|done| |].
  { unfold Address_SERIALIZED_SIZE. fold rounds. lia. }
  { intros k Hk'. apply (reply_loop_ok self d); try done. unfold Address_SERIALIZED_SIZE in Hk'. fold rounds in Hk'. fold rounds. lia. }
  intros w5 Hi5. unfold Address_SERIALIZED_SIZE in Hi5. fold rounds in Hi5. rewrite Z2Nat.id in Hi5 by done.
  pose proof (ir_ok _ _ _ _ Hi5) as Hw5. apply wp_bind. destruct (resultCallback scc).
  - apply wp_modify. apply (Hstep (n - 1 - rounds)); [lia|lia|by apply (emitted_ok None)|apply (ir_context _ _ _ _ Hi5)].
  - apply wp_ret. apply (Hstep (n - 1 - rounds)); [lia|lia|done|apply (ir_context _ _ _ _ Hi5)].
Qed.

Lemma run_put_ping ex n j p w (Q : unit -> World -> Prop) : router_ok ex n w ->
  (forall ping, p = Some ping -> 0 <= ping.(ping_node)) -> (forall w', router_ok ex n w' -> Q tt w') -> wp (put_ping j p) Q w.
Proof.
  intros [H1 H2 H3 H4 H5 H6 H7 H8 H9] Hp HQ. apply wp_modify, HQ. split; try done.
  intros k x. cbn. destruct (k =? j); [apply Hp|apply H9].
Qed.

Lemma run_ping_reply n node j message w (Q : unit -> World -> Prop) : router_ok None n w ->
  (forall k, node = Some k -> 0 <= k < (the_table w).(size)) -> (forall w', router_ok None n w' -> Q tt w') ->
  wp (ping_reply node j message) Q w.
Proof.
  intros Hw Hk HQ. unfold ping_reply. apply wp_bind, wp_gets. cbn [id].
  destruct (if j <? _ then _ else None) as [ping|]; [|by apply wp_ret, HQ]. cbv zeta.
  apply wp_bind. apply (run_responseFromNode None n); [done|done|]. intros w1 Hw1 _. apply wp_bind.
  destruct (isFromAdmin ping).
  - unfold pingResponse. apply wp_modify. apply (run_put_ping None n); [by apply (emitted_ok None n)|done|done].
  - apply wp_ret. by apply (run_put_ping None n).
Qed.

Lemma known_found w w' k addr : same_table (the_table w) (the_table w') -> 0 <= k < (the_table w').(size) ->
  npath (the_table w') k = addr.(path) -> ((the_table w').(store_nodes) k).(address).(key) = addr.(key) -> known w addr.
Proof.
  intros Hs Hk Hp Hkey. exists k. rewrite (same_size _ _ Hs) in Hk. split; [done|].
  unfold npath in *. rewrite <-!(same_address _ _ Hs). done.
Qed.

Lemma run_handleReply n message d w (Q : Z -> World -> Prop) :
  router_ok None n w -> 40 <= n -> message.(asDict) = Some d -> sender_ok message.(dht_address) ->
  not_ours w message.(dht_address) ->
  (known w message.(dht_address) -> reply_ok w.(router).(router_address) d) ->
  (forall r w', router_ok None (n - 40) w' -> Q r w') -> wp (handleReply send_dht message) Q w.
Proof.
  intros Hw Hn Hd [Hs Hkey] Hours Hr HQ. pose proof (sane_label _ Hs) as Hlab. unfold label_ok in Hlab.
  unfold handleReply. apply wp_bind. apply (run_getNode None n); [done|done|]. intros r w1 Hw1 Ho1 Hsame Hrange Hpath.
  assert (forall b : bool, (b = true -> known w message.(dht_address)) -> wp (
    if negb b then mret 0
    else
      let version := u32 (default 0 (Dict_getInt message.(asDict) (Some CJDHTConstants_PROTOCOL))) in
      node ← addNode message.(dht_address) 2 version;
      if bool_decide (node = None) then abort
      else
        match Dict_getString message.(asDict) (Some CJDHTConstants_TXID) with
        | None => mret (-1)
        | Some tid =>
            let nodes := Dict_getString message.(asDict) (Some CJDHTConstants_NODES) in
            match nodes with
            | None =>
                if (length tid =? 2)%nat && (nth 0 tid 0 =? 112) then
                  _ ← ping_reply node (nth 1 tid 0) message; mret 0
                else search_reply send_dht node version tid nodes message
            | Some n =>
                if (Z.of_nat (length n) =? 0) || negb (Z.of_nat (length n) mod Address_SERIALIZED_SIZE =? 0)
                then mret (-1)
                else search_reply send_dht node version tid nodes message
            end
        end) Q w1) as Hgo.
  2: { apply wp_bind. destruct r as [k|]; [|by apply wp_ret, Hgo].
       apply wp_bind. unfold node_at_index. apply wp_bind, wp_gets, wp_ret, wp_ret. fold (the_table w1). apply Hgo.
       intros Hmem. apply Z.eqb_eq in Hmem. apply (known_found w w1 k); [done|by apply Hrange|by apply Hpath; [lia|]|].
       apply memcmp_0 in Hmem; [done|]. rewrite (sane_key _ Hs).
       apply (entry_key (thisNodeAddress (the_table w1)) (headers (the_table w1) k)), (ok_entry _ (rk_table _ _ _ Hw1)). by apply Hrange. }
  intros [|] Hknown; cbn [negb]; [|apply wp_ret, HQ, (router_less None n); [done|lia]].
  specialize (Hr (Hknown eq_refl)). rewrite Hd. fold (reply_version d). cbv zeta.
  pose proof Hr as [R1 R2 _ _ _]. pose proof (u32_range (default 0 (Dict_getInt (Some d) (Some CJDHTConstants_PROTOCOL)))) as Hu.
  fold (reply_version d) in Hu.
  apply wp_bind. apply (run_addNode None n); [done|lia|done|unfold entry_sane, UINT32_MAX in *; split; [lia|done]|].
  intros node w2 Hw2 Ho2 Hnode. destruct node as [k|].
  2: { exfalso. destruct Hnode as [Hv|[Hself|?]]; [congruence| |lia]. apply Hours. rewrite Hself, (same_self _ _ Hsame). done. }
  cbn [bool_decide]. destruct (Dict_getString (Some d) (Some CJDHTConstants_TXID)) as [tid|].
  2: { apply wp_ret, HQ, (router_less None (n - 1)); [done|lia]. }
  assert (wp (search_reply send_dht (Some k) (reply_version d) tid (Dict_getString (Some d) (Some CJDHTConstants_NODES)) message) Q w2)
    as Hsearch.
  { apply (run_search_reply (n - 1) _ _ _ d w.(router).(router_address)); try done; [lia| | |].
    - rewrite (ot_address _ _ Ho2). apply (ot_address _ _ Ho1).
    - by intros ? [= <-].
    - intros r' w' Hw'. apply HQ. by replace (n - 40) with (n - 1 - 39) by lia. }
  destruct (Dict_getString (Some d) (Some CJDHTConstants_NODES)) as [nodes|].
  - destruct (_ || _); [|exact Hsearch]. apply wp_ret, HQ, (router_less None (n - 1)); [done|lia].
  - destruct (_ && _); [|exact Hsearch]. apply wp_bind. apply (run_ping_reply (n - 1)); [done|by intros ? [= <-]|].
    intros w' Hw'. apply wp_ret, HQ, (router_less None (n - 1)); [done|lia].
Qed.

(** ** A message from the network *)
Definition arrived (content : list Z) (addr : Address) : DHTMessage :=
  {| dht_address := addr; dht_bytes := of_list (take (Z.to_nat DHTMessage_MAX_SIZE) content); dht_length := 0;
     asDict := None; replyTo := None |}.

(** What the message is parsed to. *)
Definition parsed_as (content : list Z) (d : Dict) : Prop :=
  exists r, parseDictionary (message_process erange) parse_fuel
    (ArrayReader_new (of_list (take (Z.to_nat DHTMessage_MAX_SIZE) content)) 0 DHTMessage_MAX_SIZE) = Some (inr d, r).

Lemma parsed_by content d d' :
  option_map fst (parseDictionary (message_process erange) parse_fuel
    (ArrayReader_new (of_list (take (Z.to_nat DHTMessage_MAX_SIZE) content)) 0 DHTMessage_MAX_SIZE)) = Some (inr d) ->
  parsed_as content d' -> d' = d.
Proof. intros H (r & E1). rewrite E1 in H. by injection H. Qed.

Lemma parsed_if content d :
  option_map fst (parseDictionary (message_process erange) parse_fuel
    (ArrayReader_new (of_list (take (Z.to_nat DHTMessage_MAX_SIZE) content)) 0 DHTMessage_MAX_SIZE)) = Some (inr d) ->
  parsed_as content d.
Proof.
  unfold parsed_as. destruct (parseDictionary _ _ _) as [[ret r]|]; [|done]. cbn. intros [= ->]. by exists r.
Qed.

Lemma incoming_unfold content addr (w : World) : incomingDHT content addr w =
  ('(r, message) ← SerializationModule_handleIncoming erange (arrived content addr);
   if negb (r =? 0) then mret tt else
   '(r, message) ← RouterModule_handleIncoming send_dht message;
   if negb (r =? 0) then mret tt else
   '(r, message) ← ReplyModule_handleIncoming send_dht message;
   if negb (r =? 0) then mret tt else mret tt) w.
Proof.
  unfold incomingDHT, DHTModuleRegistry_handleIncoming, registry, registry_with, ReplyModule_register,
    SerializationModule_register, DHTModuleRegistry_register, arrived.
  cbn [app rev incoming_loop handleIncoming Ducttape_module]. reflexivity.
Qed.

Lemma parse_defined content : exists ret r, parseDictionary (message_process erange) parse_fuel
  (ArrayReader_new (of_list (take (Z.to_nat DHTMessage_MAX_SIZE) content)) 0 DHTMessage_MAX_SIZE) = Some (ret, r).
Proof.
  set (r := ArrayReader_new _ 0 DHTMessage_MAX_SIZE). assert (reader_ok r) as Hr by (unfold reader_ok; change (r_endPointer r) with DHTMessage_MAX_SIZE; change (r_pointer r) with 0; unfold DHTMessage_MAX_SIZE; lia).
  destruct (parseDictionary_total (laws := ArrayReader_laws) (message_process erange) parse_fuel parse_fuel ltac:(lia) r Hr) as (res & r' & Er & _).
  - assert (reader_left r = DHTMessage_MAX_SIZE) as El by done.
    change (budget r) with (Z.to_nat (reader_left r)). rewrite El. done.
  - eauto.
Qed.

(** A known node is found. *)
Lemma getNode_known w addr : store_ok (the_table w) -> known w addr ->
  exists k w1, getNodeByNetworkAddr addr.(path) w = Some (Some k, w1) /\ same_table (the_table w) (the_table w1) /\
    ((the_table w1).(store_nodes) k).(address).(key) = addr.(key).
Proof.
  clear Hrand Hfuel. intros Hs (k & Hk & Hp & Hkey). pose proof (ok_entry _ Hs k Hk) as He. pose proof (entry_label _ _ _ He) as Hl.
  unfold npath in Hp. rewrite Hp in Hl. unfold label_ok in Hl. assert (path addr <> 0) as H0 by lia.
  unfold getNodeByNetworkAddr. rewrite (proj2 (Z.eqb_neq _ _) H0). cbn [andb].
  rewrite !run_bind. cbn [the_nodeStore gets]. fold (the_table w). rewrite run_bind. cbn [mret M_ret].
  pose proof (getNodeByNetworkAddr_spec (the_table w) (path addr) 0 H0) as Hg.
  pose proof (same_getNodeByNetworkAddr (the_table w) (path addr) 0) as Hsame.
  destruct (NodeStore_getNodeByNetworkAddr (path addr) (the_table w) 0) as [s [k'|]].
  2: { destruct Hg as [_ Hno]. destruct (Hno k Hk Hp). }
  destruct Hg as (Es & Hk' & Hp' & _). assert (k' = k) as -> by (apply (ok_unique _ Hs); unfold npath in *; congruence).
  exists k. eexists. split; [reflexivity|]. split; [exact Hsame|].
  change (the_table (with_router (set_nodeStore s) w)) with s. subst s. cbn. rewrite Z.eqb_refl. exact Hkey.
Qed.

(** What a message that parses does. *)
Lemma incoming_parsed content addr d w : parsed_as content d ->
  incomingDHT content addr w =
  ('(r, message) ← RouterModule_handleIncoming send_dht (with_dict (arrived content addr) d);
   if negb (r =? 0) then mret tt else
   '(r, message) ← ReplyModule_handleIncoming send_dht message;
   if negb (r =? 0) then mret tt else mret tt) w.
Proof.
  intros (r & Ep). rewrite incoming_unfold, run_bind. unfold SerializationModule_handleIncoming at 1. rewrite run_bind.
  unfold lift. change (dht_bytes (arrived content addr)) with (of_list (take (Z.to_nat DHTMessage_MAX_SIZE) content)).
  rewrite Ep. reflexivity.
Qed.

(** A query is answered and nothing else. *)
Definition reply_to (query : DHTMessage) : DHTMessage :=
  {| dht_address := query.(dht_address); dht_bytes := fun _ => 0; dht_length := 0; asDict := None; replyTo := Some query |}.

Lemma incoming_query content addr d q w : parsed_as content d ->
  Dict_getString (Some d) (Some CJDHTConstants_QUERY) = Some q ->
  incomingDHT content addr w = send_dht (reply_to (with_dict (arrived content addr) d)) w.
Proof.
  intros Hd Hq. rewrite (incoming_parsed content addr d w Hd), run_bind. unfold RouterModule_handleIncoming.
  change (asDict (with_dict (arrived content addr) d)) with (Some d). rewrite Hq, bool_decide_eq_false_2 by done.
  cbn [mret M_ret negb Z.eqb]. rewrite run_bind. unfold ReplyModule_handleIncoming.
  change (asDict (with_dict (arrived content addr) d)) with (Some d). rewrite Hq, bool_decide_eq_false_2 by done.
  rewrite run_bind. fold (reply_to (with_dict (arrived content addr) d)).
  destruct (send_dht _ w) as [[[] w1]|]; done.
Qed.

Lemma reply_sent query w : send_dht (reply_to query) w =
  ('(ret, message) ← RouterModule_handleOutgoing (with_dict (reply_to query)
     match Dict_getString query.(asDict) (Some CJDHTConstants_TXID) with
     | Some tid => fst (Dict_putString Dict_new (Some CJDHTConstants_TXID) (Some tid))
     | None => Dict_new
     end);
   if negb (ret =? 0) then mret tt else
   '(ret, message) ← SerializationModule_handleOutgoing message;
   if negb (ret =? 0) then mret tt else emit (ToNetwork message)) w.
Proof. rewrite outgoing_unfold. reflexivity. Qed.

Lemma run_incoming n content addr w (Q : unit -> World -> Prop) : router_ok None n w -> 40 <= n ->
  (forall d, parsed_as content d -> incoming_ok w addr d) -> (forall w', router_ok None (n - 40) w' -> Q tt w') ->
  wp (incomingDHT content addr) Q w.
Proof.
  intros Hw Hn Hd HQ. unfold wp. rewrite incoming_unfold.
  match goal with |- match ?m w with _ => _ end => change (wp m Q w) end.
  assert (router_ok None (n - 40) w) as Hw' by (apply (router_less None n); [done|lia]).
  destruct (parse_defined content) as (res & r & Ep).
  apply wp_bind. unfold SerializationModule_handleIncoming at 1. apply wp_bind. apply (wp_lift _ (res, r)); [exact Ep|].
  destruct res as [code|d]; [by apply wp_ret, wp_ret, HQ|]. apply wp_ret. cbn [negb Z.eqb].
  destruct (Hd d) as (Hs & Hours & Hmsg); [by exists r|]. set (message := with_dict (arrived content addr) d).
  apply wp_bind. unfold RouterModule_handleIncoming. change (asDict message) with (Some d).
  destruct (Dict_getString (Some d) (Some CJDHTConstants_QUERY)) as [q|] eqn:Eq.
  - rewrite bool_decide_eq_false_2 by done. apply wp_ret. cbn [negb Z.eqb]. apply wp_bind. unfold ReplyModule_handleIncoming.
    change (asDict message) with (Some d). rewrite Eq, bool_decide_eq_false_2 by done. apply wp_bind.
    apply (run_answer None n message d); try done; [lia|]. intros w1 Hw1.
    apply wp_ret. cbn [negb Z.eqb]. apply wp_ret, HQ, (router_less None (n - 1)); [done|lia].
  - rewrite bool_decide_eq_true_2 by done. apply wp_bind. apply (run_handleReply n message d); try done.
    intros r1 w1 Hw1. apply wp_ret. destruct (negb (r1 =? 0)); [by apply wp_ret, HQ|]. apply wp_bind.
    unfold ReplyModule_handleIncoming. change (asDict message) with (Some d). rewrite Eq, bool_decide_eq_true_2 by done.
    apply wp_ret. cbn [negb Z.eqb]. by apply wp_ret, HQ.
Qed.

(** ** Starting a search *)
Lemma free_slot_none st i : free_slot st = inr i -> 0 <= i < 8 /\ st.(searches) i = None.
Proof.
  unfold free_slot. intros H. pose proof (search_spec (Z.to_nat SearchStore_MAX_SEARCHES) 0
    (fun i => bool_decide (searches st i = None)) (fun i => i)) as Hs. cbv beta in Hs. rewrite H in Hs.
  destruct Hs as (i' & Hi & Hp & -> & _). split; [unfold SearchStore_MAX_SEARCHES in Hi; lia|]. by apply bool_decide_eq_true in Hp.
Qed.

(** Nothing was asked yet. *)
Definition unstarted (s : SearchStore_Search) : Prop :=
  s.(nodesAsked) = (fun _ => unasked) /\ s.(nodesAskedIndex) = 0.

Lemma unstarted_asked addr s : unstarted s -> length addr.(key) = 32%nat -> addr.(key) <> repeat 0 32 -> already_asked addr s = false.
Proof.
  intros [E1 E2] Hl Hz. unfold already_asked. rewrite E1, E2. change (Z.to_nat SearchStore_SEARCH_NODES) with (S 255).
  cbn [for_until]. change (key (node_address unasked)) with (repeat 0 32).
  assert ((Bits_memcmp (take 32 (key addr)) (take 32 (repeat 0 32)) =? 0) = false) as ->.
  { apply Z.eqb_neq. rewrite take_ge by lia. change (take 32 (repeat 0 32)) with (repeat 0 32). rewrite memcmp_0; [done|].
    rewrite repeat_length. done. }
  done.
Qed.

Lemma run_offer_all ex i (addr_of : Z -> Address) : forall (l : list Z) n s w (Q : unit -> World -> Prop),
  router_ok ex n w -> (the_searches w).(searches) i = Some s -> unstarted s ->
  (forall k, k ∈ l -> length (addr_of k).(key) = 32%nat /\ (addr_of k).(key) <> repeat 0 32) ->
  (forall s' w', router_ok ex n w' -> only_searches w w' -> (the_searches w').(searches) i = Some s' ->
    (l <> [] \/ 0 < s.(searchStackSize) -> 0 < s'.(searchStackSize)) -> Q tt w') ->
  wp (foldr (fun k (rest : M World unit) => _ ← addNodeToSearch (addr_of k) i; rest) (mret tt) l) Q w.
Proof.
  induction l as [|k l IH]; intros n s w Q Hw Hi Hs Hl HQ; cbn [foldr].
  { apply wp_ret, (HQ s); [done|reflexivity|done|]. intros [?|?]; done. }
  apply wp_bind. apply (run_addNodeToSearch ex n (addr_of k) i s); [done|done|]. intros s1 w1 Hw1 Ho1 Hi1 (E1 & E2 & H3).
  destruct (Hl k ltac:(by left)) as [Hk1 Hk2]. destruct Hs as [S1 S2].
  apply (IH n s1); [done|done|split; congruence|intros j Hj; apply Hl; by right|].
  intros s2 w2 Hw2 Ho2 Hi2 H4. apply (HQ s2); [done|by etrans|done|]. intros _. apply H4. right. apply H3. left.
  by apply unstarted_asked.
Qed.

Lemma run_beginSearch n target cb w (Q : option Z -> World -> Prop) : router_ok None n w ->
  (forall r w', router_ok None n w' -> Q r w') -> wp (RouterModule_beginSearch target cb) Q w.
Proof.
  intros Hw HQ. unfold RouterModule_beginSearch. apply wp_bind, wp_gets. fold (the_searches w).
  unfold SearchStore_newSearch. destruct (free_slot (the_searches w)) as [u|i] eqn:Ef; cbv beta iota.
  { apply wp_bind, wp_modify, wp_ret, HQ. apply (searches_replaced None n n w); try done; [by apply put_store_only|apply Hw..]. }
  destruct (free_slot_none _ _ Ef) as [Hi Hfree]. set (s0 := new_search target i).
  set (w1 := with_router (set_searchStore (set_search (the_searches w) i (Some s0))) w).
  assert (router_ok (Some i) n w1) as Hw1.
  { assert (search_ok i s0) as Hs0 by (split; [done|apply u16_small; lia|cbn; lia|done]).
    destruct Hw as [H1 H2 H3 H4 H5 H6 H7 H8 H9]. split; try done.
    - by apply set_search_ok.
    - intros j scc Hj. destruct (H7 j scc Hj) as (A1 & A2). split; [|done].
      cbn. destruct (Z.eqb_spec j i); [done|apply A1].
    - intros j. cbn. destruct (Z.eqb_spec j i) as [->|]; [by right|]. intros Hj. left. by destruct (H8 j Hj). }
  assert (searches (the_searches w1) i = Some s0) as Es1 by (cbn; rewrite Z.eqb_refl; done).
  apply wp_bind, wp_modify. fold w1. apply wp_bind, wp_gets. fold (the_table w1).
  pose proof (getClosestNodes_spec (the_table w1) (stack_address target) None RouterModule_K Version_CURRENT_PROTOCOL) as Hc.
  destruct (NodeStore_getClosestNodes _ _ _ _ _) as [st l]. destruct Hc as (Hsame & _ & Hl).
  set (w2 := with_router (set_nodeStore st) w1).
  assert (only_table w1 w2) as Ho2 by done. assert (router_ok (Some i) n w2) as Hw2 by (by apply (table_same (Some i) n w1)).
  apply wp_bind, wp_modify. fold w2. destruct (Z.eqb_spec (Z.of_nat (length l)) 0).
  { apply wp_bind. apply (run_free_search (Some i) n); [done|by rewrite (ot_searches _ _ Ho2), Es1|]. rewrite bool_decide_eq_true_2 by done.
    intros w3 Hw3 _ _ _. by apply wp_ret, HQ. }
  apply wp_bind. apply (run_offer_all (Some i) i (fun k => address (store_nodes st k)) l n s0); try done.
  { intros k Hk. destruct (Hl k Hk) as [Hkr _]. rewrite (same_address _ _ Hsame). cbn beta. split.
    - apply (ok_entry _ (rk_table _ _ _ Hw1) k Hkr).
    - apply (rk_entries _ _ _ Hw1 k Hkr). }
  intros s3 w3 Hw3 Ho3 Es3 Hsize. apply wp_bind. apply (run_getNextNode (Some i) n i s3); [done|done|].
  intros [p|] w4 Hw4 Ho4 Hp; [|exfalso; destruct l; [done|]; specialize (Hsize ltac:(by left)); lia].
  destruct Hp as (Ep & node & En & _). apply wp_bind. apply (wp_lift _ p); [done|].
  apply wp_bind. unfold search_node. apply wp_bind, wp_gets. apply (wp_lift _ node); [exact En|].
  apply wp_bind. apply run_sendRequest. intros e. apply wp_bind, tryNext_range. intros t w5 _ Er5 En5 _.
  apply wp_bind, wp_gets. cbn [id]. apply wp_bind.
  assert (router_ok (Some i) n w5) as Hw5 by (by apply (router_ok_same (Some i) n w4)).
  apply (run_put_context (Some i) n); [done| |done|done|].
  - unfold the_searches. rewrite Er5. cbn. apply (os_opens _ _ Ho4). congruence.
  - rewrite bool_decide_eq_true_2 by done. intros w6 Hw6 _ _ _ _. by apply wp_ret, HQ.
Qed.

(** ** Pings *)
Lemma run_pingTimeout n i p w (Q : unit -> World -> Prop) : router_ok None n w -> w.(router).(router_pings) i = Some p ->
  (forall w', router_ok None n w' -> Q tt w') -> wp (pingTimeoutCallback i) Q w.
Proof.
  intros Hw Hp HQ. unfold pingTimeoutCallback. apply wp_bind, wp_gets. cbn [id]. apply wp_bind. apply (wp_lift _ p); [exact Hp|].
  apply wp_bind. unfold node_at_index. apply wp_bind, wp_gets, wp_ret. fold (the_table w). change (path (address (store_nodes (the_table w) (ping_node p)))) with (npath (the_table w) (ping_node p)).
  assert (forall w1, router_ok None n w1 -> wp (_ ← put_ping i None;
    let lag := u32 (w.(now) - p.(ping_timeSent)) in
    if p.(isFromAdmin) then pingResponse p true lag None else mret tt) Q w1) as Hrest.
  { intros w1 Hw1. apply wp_bind. apply (run_put_ping None n); [done|done|]. intros w2 Hw2. cbv zeta.
    destruct (isFromAdmin p); [|by apply wp_ret, HQ]. apply wp_modify, HQ. by apply (emitted_ok None n). }
  apply wp_bind. destruct (Z.eqb_spec (npath (the_table w) (ping_node p)) 0) as [E0|Hne]; cbn [negb]; [by apply wp_ret, Hrest|].
  apply (run_updateReach None n); [done| |intros w1 Hw1 _ _ _; by apply Hrest].
  pose proof (rk_pings _ _ _ Hw i p Hp). split; [done|].
  destruct (Z.lt_ge_cases (ping_node p) (size (the_table w))); [done|]. exfalso. apply Hne, (ok_free _ (rk_table _ _ _ Hw)). done.
Qed.

Lemma run_pingNode n k ms tid w (Q : Z -> World -> Prop) : router_ok None n w -> 0 <= k ->
  (forall r w', router_ok None n w' -> the_table w' = the_table w -> Q r w') -> wp (RouterModule_pingNode k ms tid) Q w.
Proof.
  intros Hw Hk HQ. unfold RouterModule_pingNode. apply wp_bind, wp_gets. cbn [id].
  destruct (free_router_ping (router w)) as [u|i]; [by apply wp_ret, HQ|]. cbv zeta. apply wp_bind.
  unfold put_ping. apply wp_modify. apply wp_bind. unfold node_at_index. apply wp_bind, wp_gets, wp_ret.
  apply wp_bind. apply run_sendRequest. intros e. apply wp_ret, HQ; [|done]. apply (emitted_ok None n).
  destruct Hw as [H1 H2 H3 H4 H5 H6 H7 H8 H9]. split; try done. intros j x. cbn. destruct (j =? i); [intros [= <-]; done|apply H9].
Qed.

(** ** The rest of the interface *)
Lemma filled_sane addr : addr_sane addr -> addr_sane (snd (Address_getPrefix addr)).
Proof.
  intros [H1 H2 H3 H4]. split; rewrite ?getPrefix_twice, ?getPrefix_path, ?getPrefix_key; done.
Qed.

Lemma run_lookup n target w (Q : option Z -> World -> Prop) : router_ok None n w ->
  (forall r w', router_ok None n w' -> the_searches w' = the_searches w ->
    (forall k, r = Some k -> 0 <= k) -> Q r w') -> wp (RouterModule_lookup target) Q w.
Proof.
  intros Hw HQ. unfold RouterModule_lookup. apply (run_getBest None n); [done|]. intros r w1 Hw1 Ho1 Eg.
  apply HQ; [done|apply (ot_searches _ _ Ho1)|]. intros k ->.
  pose proof (getBest_range (the_table w) (stack_address target)) as Hk. rewrite Eg in Hk. by apply (Hk k).
Qed.

Lemma run_router_addNode n addr v w (Q : unit -> World -> Prop) : router_ok None n w -> 1 <= n -> addr_sane addr ->
  entry_sane addr v -> (forall w', router_ok None (n - 1) w' -> Q tt w') -> wp (RouterModule_addNode addr v) Q w.
Proof.
  intros Hw Hn Ha He HQ. unfold RouterModule_addNode. cbv zeta. apply wp_bind.
  apply (run_addNode None n); [done|done|by apply filled_sane|by apply (entry_sane_key addr); [rewrite getPrefix_key|]|].
  intros r w1 Hw1 _ _. apply wp_bind. apply (run_lookup (n - 1)); [done|]. intros [k|] w2 Hw2 _ Hk; [|by apply wp_ret, HQ].
  apply wp_bind. unfold node_at_index. apply wp_bind, wp_gets, wp_ret. destruct (negb _); [|by apply wp_ret, HQ].
  apply wp_bind. apply (run_pingNode (n - 1)); [done|by apply Hk|]. intros r' w3 Hw3 _. by apply wp_ret, HQ.
Qed.

Lemma run_postpone n w (Q : unit -> World -> Prop) : router_ok None n w ->
  (forall w', router_ok None n w' -> Q tt w') -> wp postpone Q w.
Proof. intros [H1 H2 H3 H4 H5 H6 H7 H8 H9] HQ. apply wp_modify, HQ. split; done. Qed.

Lemma run_maintenance_search n due target w (Q : unit -> World -> Prop) : router_ok None n w ->
  (forall w', router_ok None n w' -> Q tt w') -> wp (maintenance_search due target) Q w.
Proof.
  intros Hw HQ. unfold maintenance_search. apply wp_bind. apply (run_lookup n); [done|]. intros k w1 Hw1 _ _. apply wp_bind.
  assert (forall reach', wp (
    if reach' =? 0 then _ ← RouterModule_beginSearch target (Some searchStepCallback); mret tt
    else if due then _ ← RouterModule_beginSearch target (Some searchStepCallback); postpone else mret tt) Q w1) as Hend.
  { intros reach'. destruct (reach' =? 0); [|destruct due; [|by apply wp_ret, HQ]];
      apply wp_bind, (run_beginSearch n); try done. intros ? w2 Hw2. by apply (run_postpone n). }
  destruct k as [k|]; [apply wp_bind; unfold node_at_index; apply wp_bind, wp_gets, wp_ret|]; apply wp_ret, Hend.
Qed.

Lemma run_maintenance_target n known w (Q : list Z -> World -> Prop) : router_ok None n w ->
  (forall target w', router_ok None n w' -> Q target w') -> wp (maintenance_target known) Q w.
Proof.
  intros Hw HQ. assert (wp (random_bytes Address_SEARCH_TARGET_SIZE) Q w) as Hrnd.
  { apply run_random. intros l w' Er _. apply HQ. by apply (router_ok_same None n w). }
  unfold maintenance_target. destruct known as [x|]; [|done]. destruct (node_reach x =? 0); [|done]. by apply wp_ret, HQ.
Qed.

Lemma run_maintenance n w (Q : unit -> World -> Prop) : router_ok None n w ->
  (forall w', router_ok None n w' -> Q tt w') -> wp maintanenceCycle Q w.
Proof.
  intros Hw HQ. unfold maintanenceCycle. apply wp_bind, wp_gets. cbn [id]. cbv zeta.
  destruct (NodeStore_size _ =? 0); [destruct (_ <? _); [by apply (run_postpone n)|by apply wp_ret, HQ]|].
  apply wp_bind. apply (run_getNode None n); [done|done|]. intros r w1 Hw1 _ _ Hr _.
  assert (forall known w2, router_ok None n w2 -> wp (
    target ← maintenance_target known;
    maintenance_search (w.(router).(timeOfNextGlobalMaintainence) <? w.(now)) target) Q w2) as Hrest.
  { intros known w2 Hw2. apply wp_bind, (run_maintenance_target n); [done|]. intros target w3 Hw3.
    by apply (run_maintenance_search n). }
  apply wp_bind. destruct r as [k|]; [|by apply wp_ret, wp_bind, wp_ret, Hrest].
  apply (run_pingNode n); [done|apply (Hr k); done|]. intros _ w2 Hw2 _.
  apply wp_bind, wp_bind. unfold node_at_index at 1. by apply wp_bind, wp_gets, wp_ret, wp_ret, Hrest.
Qed.

(** ** All operations *)

(** A timer runs only while its ping or search is there. *)
Inductive router_op :=
| Incoming (content : list Z) (addr : Address)
| PingTimer (i : Z)
| SearchTimer (i : Z)
| MaintenanceTimer
| PingNode (node ms : Z) (txid : option String)
| AddPeer (addr : Address) (version : Z)
| BreakPath (path : Z)
| BeginSearch (target : list Z) (callback : option Z)
| Lookup (target : list Z)
| GetNode (path : Z)
| ClockAt (ms s : Z).

Definition do_router_op (op : router_op) : M World unit :=
  match op with
  | Incoming content addr => incomingDHT content addr
  | PingTimer i => pingTimeoutCallback i
  | SearchTimer i => searchRequestTimeout send_dht i
  | MaintenanceTimer => maintanenceCycle
  | PingNode node ms txid => _ ← RouterModule_pingNode node ms txid; mret tt
  | AddPeer addr version => RouterModule_addNode addr version
  | BreakPath path => _ ← RouterModule_brokenPath path; mret tt
  | BeginSearch target callback => _ ← RouterModule_beginSearch target callback; mret tt
  | Lookup target => _ ← RouterModule_lookup target; mret tt
  | GetNode path => _ ← RouterModule_getNode path; mret tt
  | ClockAt ms s => modify (fun w =>
      {| router := w.(router); now := ms; nowSeconds := s; rands := w.(rands); rng := w.(rng); out := w.(out) |})
  end.

Definition op_ok (w : World) (op : router_op) : Prop :=
  match op with
  | Incoming content addr => forall d, parsed_as content d -> incoming_ok w addr d
  | PingTimer i => w.(router).(router_pings) i <> None
  | SearchTimer i => the_contexts w i <> None
  | PingNode node _ _ => 0 <= node < (the_table w).(size)
  | AddPeer addr version => addr_sane addr /\ entry_sane addr version
  | BreakPath path => label_ok path
  | _ => True
  end.

Lemma run_router_op n op w : router_ok None n w -> 40 <= n -> op_ok w op ->
  wp (do_router_op op) (fun _ w' => router_ok None (n - 40) w') w.
Proof.
  intros Hw Hn Hop.
  assert (forall w', router_ok None n w' -> router_ok None (n - 40) w') as Hless
    by (intros w' H; apply (router_less None n); [done|lia]).
  destruct op as [content addr|i|i| |k ms tid|addr v|p|target cb|target|p|ms sec]; cbn [do_router_op op_ok] in *.
  - by apply (run_incoming n).
  - destruct (router_pings (router w) i) as [ping|] eqn:Ep; [|done]. by apply (run_pingTimeout n i ping); auto.
  - by apply (run_searchRequestTimeout n); auto.
  - by apply (run_maintenance n); auto.
  - apply wp_bind, (run_pingNode n); [done|lia|]. intros r w' Hw' _. by apply wp_ret, Hless.
  - destruct Hop as [Ha He]. apply (run_router_addNode n); [done|lia|done|done|]. intros w' Hw'.
    apply (router_less None (n - 1)); [done|lia].
  - apply wp_bind, (run_brokenPath None n); [done|done|]. intros r w' Hw' _. by apply wp_ret, Hless.
  - apply wp_bind, (run_beginSearch n); [done|]. intros r w' Hw'. by apply wp_ret, Hless.
  - apply wp_bind, (run_lookup n); [done|]. intros r w' Hw' _ _. by apply wp_ret, Hless.
  - apply wp_bind, (run_getNode None n); [done|done|]. intros r w' Hw' _ _ _ _. by apply wp_ret, Hless.
  - apply wp_modify. apply Hless. by apply (router_ok_same None n w).
Qed.
End safety.

(** ** From the start *)
Section reached.
  Context {P : Platform} {N : NaCl} {R : RandomSource} {E : Environment}.

(** The states that [k] operations lead to, each allowed in the state it meets. *)
Inductive reached (start : World) : nat -> World -> Prop :=
| reached_start : reached start 0 start
| reached_step k w op w' : reached start k w -> op_ok w op -> do_router_op op w = Some (tt, w') -> reached start (S k) w'.

Definition world_of (r : RouterModule) (ms s : Z) (source : Rand) : World :=
  {| router := r; now := ms; nowSeconds := s; rands := 0; rng := source; out := [] |}.

Lemma register_defined key git ms s source : NaClLaws N ->
  exists r, RouterModule_register key git ms s = Some r /\ router_ok None (2 ^ 25 - 1) (world_of r ms s source).
Proof.
  intros L. unfold RouterModule_register.
  assert (roller_ok (2 ^ 25) (AverageRoller_new GMRT_SECONDS s)) as H0.
  { split; cbn [windowSeconds seconds roller_entryCount AverageRoller_new slot_entryCount];
      [unfold GMRT_SECONDS; lia|intros i; lia|by rewrite sum_below_zero|lia]. }
  destruct (roller_update _ _ s GMRT_INITAL_MILLISECONDS H0 ltac:(lia)) as (r & a & Er & Hr). rewrite Er. cbn [mbind option_bind].
  eexists. split; [reflexivity|]. split; unfold the_table, the_searches, the_contexts; cbn [router world_of router_nodeStore
    router_searchStore router_contexts router_pings]; try done.
  - split; cbn [NodeStore_new thisNodeAddress size store_capacity labelSum]; try done.
    + cbn. rewrite length_take, sha512_length. done.
    + intros i Hi. lia.
    + intros i j Hi. lia.
  - intros i Hi. cbn in Hi. lia.
Qed.

Lemma reached_ok start k w : NaClLaws N -> rand_ok -> (3 <= fuel)%nat -> router_ok None (2 ^ 25 - 1) start ->
  reached start k w -> 40 * Z.of_nat k <= 2 ^ 25 - 1 -> router_ok None (2 ^ 25 - 1 - 40 * Z.of_nat k) w.
Proof.
  intros L Hrand Hfuel Hstart. induction 1 as [|k w op w' _ IH Hop E1]; intros Hk.
  { replace (2 ^ 25 - 1 - 40 * Z.of_nat 0) with (2 ^ 25 - 1) by lia. done. }
  pose proof (run_router_op Hrand Hfuel _ op w (IH ltac:(lia)) ltac:(lia) Hop) as H.
  unfold wp in H. rewrite E1 in H. replace (2 ^ 25 - 1 - 40 * Z.of_nat (S k)) with (2 ^ 25 - 1 - 40 * Z.of_nat k - 40) by lia. done.
Qed.

(** In short: what holds after up to 2^25 / 40 operations. *)
Lemma reached_ready key git ms s source r k w : NaClLaws N -> rand_ok -> (3 <= fuel)%nat ->
  RouterModule_register key git ms s = Some r -> reached (world_of r ms s source) k w -> 40 * (Z.of_nat k + 1) < 2 ^ 25 ->
  exists n, router_ok None n w /\ 40 <= n.
Proof.
  intros L Hrand Hfuel Er Hk Hless. destruct (register_defined key git ms s source L) as (r' & Er' & Hr). rewrite Er in Er'.
  injection Er' as <-. exists (2 ^ 25 - 1 - 40 * Z.of_nat k). split; [|lia].
  apply (reached_ok _ k w L Hrand Hfuel Hr Hk). lia.
Qed.

(** A state that the router gets into by up to 2^25 / 40 operations. *)
Definition ready (w : World) : Prop :=
  exists key git ms s source r k, RouterModule_register key git ms s = Some r /\
    reached (world_of r ms s source) k w /\ 40 * (Z.of_nat k + 1) < 2 ^ 25.

Lemma ready_ok {L : NaClLaws N} w : rand_ok -> (3 <= fuel)%nat -> ready w -> exists n, router_ok None n w /\ 40 <= n.
Proof. intros Hrand Hfuel (key & git & ms & s & source & r & k & Er & Hk & Hless). by apply (reached_ready key git ms s source r k). Qed.

End reached.

(** ** A small network for the examples: every node's key repeats one byte, the
    labels between them are given *)
#[local] Existing Instance x86.
Definition demo_env : Environment :=
  {| rand := fun _ => 7; stack_key := repeat 0 32; stack_path := 0; fuel := 3; erange := false |}.
#[local] Existing Instance demo_env.
Definition demo_start (k ms : Z) : option (@World toy_random) :=
  r ← RouterModule_register (repeat k 32) (repeat 97 40) ms (ms / 1000); Some (world_of r ms (ms / 1000) 0).
Definition demo_peer (k label : Z) : Address :=
  Address_forKey {| ip6 := repeat 0 16; key := []; path := label |} (repeat k 32).
(** d1:pi2e1:q2:pn4:txid2:p0e, a ping. *)
Definition demo_query : list Z :=
  [100; 49; 58; 112; 105; 50; 101; 49; 58; 113; 50; 58; 112; 110; 52; 58; 116; 120; 105; 100; 50; 58; 112; 48; 101].

Lemma demo_peer_sane k label : k = 5 \/ k = 6 -> 2 <= label < 2 ^ 64 -> sender_ok (demo_peer k label).
Proof.
  intros [-> | ->] Hl; (split; [split|done]); try exact Hl; vm_compute; reflexivity || done.
Qed.

Definition demo_op : router_op := AddPeer (demo_peer 6 0x13) 2.
(** Node 5 after node 6 was added to its table. *)
Definition demo_added : option World := w ← demo_start 5 100000; option_map snd (do_router_op demo_op w).

Lemma demo_op_ok w : op_ok w demo_op.
Proof. split; [|by split; [unfold UINT32_MAX; lia|]]. apply demo_peer_sane; [auto|lia]. Qed.

Lemma demo_added_reached w : demo_added = Some w ->
  exists r, RouterModule_register (repeat 5 32) (repeat 97 40) 100000 100 = Some r /\ reached (world_of r 100000 100 (0 : @Rand toy_random)) 1 w.
Proof.
  unfold demo_added, demo_start. change (100000 / 1000) with 100.
  destruct (RouterModule_register _ _ 100000 100) as [r|]; [|done]. cbn [mbind option_bind].
  destruct (do_router_op demo_op _) as [[[] w']|] eqn:E1; [|done]. intros [= <-]. exists r. split; [done|].
  eapply reached_step; [apply reached_start|apply demo_op_ok|exact E1].
Qed.

Lemma demo_start_ready k ms w : demo_start k ms = Some w -> ready w.
Proof.
  unfold demo_start. destruct (RouterModule_register _ _ _ _) as [r|] eqn:Er; [|done]. intros [= <-].
  exists (repeat k 32), (repeat 97 40), ms, (ms / 1000), (0 : @Rand toy_random), r, 0%nat. split; [exact Er|]. split; [apply reached_start|lia].
Qed.

Lemma demo_added_ready w : demo_added = Some w -> ready w.
Proof.
  intros Ew. destruct (demo_added_reached w Ew) as (r & Er & Hw).
  exists (repeat 5 32), (repeat 97 40), 100000, 100, (0 : @Rand toy_random), r, 1%nat. split; [exact Er|]. split; [exact Hw|lia].
Qed.

Lemma demo_added_step w op w' : demo_added = Some w -> op_ok w op -> do_router_op op w = Some (tt, w') -> ready w'.
Proof.
  intros Ew Hop E1. destruct (demo_added_reached w Ew) as (r & Er & Hw).
  exists (repeat 5 32), (repeat 97 40), 100000, 100, (0 : @Rand toy_random), r, 2%nat. split; [exact Er|]. split; [|lia].
  eapply reached_step; [exact Hw|exact Hop|exact E1].
Qed.

Lemma demo_env_ok : rand_ok /\ (3 <= fuel)%nat.
Proof. split; [intros k; unfold rand, demo_env; lia|unfold fuel, demo_env; lia]. Qed.

(** Going through an example whose result was computed. *)
Lemma bind_some {A B C} (m : option A) (k : A -> option B) (f : B -> C) c :
  option_map f (m ≫= k) = Some c -> exists a b, m = Some a /\ k a = Some b /\ f b = c.
Proof.
  destruct m as [a|]; [|done]. cbn. destruct (k a) as [b|] eqn:E1; [|done]. intros [= <-]. eauto.
Qed.

Lemma demo_added_address : option_map (fun w => (the_table w).(thisNodeAddress).(ip6)) demo_added = Some (demo_peer 5 1).(ip6).
Proof. vm_compute. reflexivity. Qed.

