(* ===== verification/RouterBehaviour.v ===== *)
(** * What the router does: distances, times, searches, answers

    How near two nodes are to a target, what reach a reply gives, how many
    requests a search makes before it ends, what a query is answered with. *)
From S2P Require Import Prelude Memory Endian Bits LabelSplicer NaCl Benc ArrayIO BencSerializer Address NodeCollector NodeStore NodeStoreKeeps VersionList AverageRoller SearchStore DHT RouterModule RouterInvariant RouterSafety.

(** ** Distances *)

(** The 128 bits that the router compares: the bytes of the address from the
    eighth on, then the first eight. *)
Definition metric (ip : list Z) : Z := be_combine (drop 8 ip ++ take 8 ip).
Definition xor_distance (target ip : list Z) : Z := metric target .^ metric ip.

Lemma lxor_range a b k : 0 <= k -> 0 <= a < 2 ^ k -> 0 <= b < 2 ^ k -> 0 <= a .^ b < 2 ^ k.
Proof.
  intros Hk Ha Hb. replace (a .^ b) with ((a .^ b) mod 2 ^ k); [apply Z.mod_pos_bound; lia|].
  apply Z.bits_inj'. intros i Hi. rewrite testbit_mod, Z.lxor_spec by lia. destruct (Z.ltb_spec i k); [done|].
  rewrite (testbit_high a k), (testbit_high b k) by lia. done.
Qed.

Lemma lxor_digits k a b c d : 0 <= k -> 0 <= b < 2 ^ k -> 0 <= d < 2 ^ k ->
  (a * 2 ^ k + b) .^ (c * 2 ^ k + d) = (a .^ c) * 2 ^ k + (b .^ d).
Proof.
  intros Hk Hb Hd. pose proof (lxor_range b d k Hk Hb Hd) as Hbd.
  rewrite !(Z.add_comm (_ * _)), <-!lor_shiftl_add by lia.
  apply Z.bits_inj'. intros i Hi. rewrite !Z.lxor_spec, !Z.lor_spec, !Z.shiftl_spec, !Z.lxor_spec by lia.
  destruct (Z.lt_ge_cases i k).
  - rewrite !(Z.testbit_neg_r _ (i - k)) by lia. rewrite !orb_false_r. done.
  - rewrite (testbit_high b k), (testbit_high d k) by lia. done.
Qed.

(** A number of four digits. *)
Definition number4 (x1 x2 x3 x4 : Z) : Z := ((x1 * 2 ^ 32 + x2) * 2 ^ 32 + x3) * 2 ^ 32 + x4.
Definition is_digit (x : Z) : Prop := 0 <= x < 2 ^ 32.

Lemma number4_lxor a1 a2 a3 a4 b1 b2 b3 b4 : is_digit a2 -> is_digit a3 -> is_digit a4 -> is_digit b2 -> is_digit b3 -> is_digit b4 ->
  number4 a1 a2 a3 a4 .^ number4 b1 b2 b3 b4 = number4 (a1 .^ b1) (a2 .^ b2) (a3 .^ b3) (a4 .^ b4).
Proof. unfold number4, is_digit. intros. rewrite !lxor_digits by lia. done. Qed.

(** The order of two numbers, when linear arithmetic knows it. *)
Ltac order_is :=
  cbn [negb Z.eqb]; match goal with |- context [?x ?= ?y] => destruct (Z.compare_spec x y) end; (done || lia).

Lemma four_digits a1 a2 a3 a4 b1 b2 b3 b4 :
  let c x y := match x ?= y with Lt => -1 | Eq => 0 | Gt => 1 end in
  is_digit a1 -> is_digit a2 -> is_digit a3 -> is_digit a4 -> is_digit b1 -> is_digit b2 -> is_digit b3 -> is_digit b4 ->
  (if negb (c a1 b1 =? 0) then c a1 b1
   else if negb (c a2 b2 =? 0) then c a2 b2
   else if negb (c a3 b3 =? 0) then c a3 b3
   else if negb (c a4 b4 =? 0) then c a4 b4
   else 0) = c (number4 a1 a2 a3 a4) (number4 b1 b2 b3 b4).
Proof.
  intros c H1 H2 H3 H4 K1 K2 K3 K4. unfold c. clear c. unfold is_digit, number4 in *.
  destruct (Z.compare_spec a1 b1); [|by order_is|by order_is].
  destruct (Z.compare_spec a2 b2); [|by order_is|by order_is].
  destruct (Z.compare_spec a3 b3); [|by order_is|by order_is].
  destruct (Z.compare_spec a4 b4); by order_is.
Qed.

Section metric.
  Context {P : Platform}.

(** The word of the address at [i], as a number. *)
Definition word_at (ip : list Z) (i : Z) : Z := Endian_bigEndianToHost32 (load 4 (of_list ip) i).

Lemma word_digit ip i : bytes_ok ip -> is_digit (word_at ip i).
Proof.
  intros Hip. unfold word_at, is_digit. rewrite be_load32 by (by apply of_list_ok).
  pose proof (be_combine_range (read (of_list ip) i 4) ltac:(apply read_ok, of_list_ok; done)) as H.
  rewrite length_read in H. exact H.
Qed.

Lemma metric_words ip : bytes_ok ip -> length ip = 16%nat ->
  metric ip = number4 (word_at ip 8) (word_at ip 12) (word_at ip 0) (word_at ip 4).
Proof.
  intros Hip Hlen. unfold word_at. rewrite !be_load32 by (by apply of_list_ok). clear Hip.
  do 16 (destruct ip as [|? ip]; [discriminate Hlen|]). destruct ip; [|discriminate Hlen].
  set (ip := [z; z0; z1; z2; z3; z4; z5; z6; z7; z8; z9; z10; z11; z12; z13; z14]).
  change (read (of_list ip) 8 4) with [z7; z8; z9; z10]. change (read (of_list ip) 12 4) with [z11; z12; z13; z14].
  change (read (of_list ip) 0 4) with [z; z0; z1; z2]. change (read (of_list ip) 4 4) with [z3; z4; z5; z6].
  unfold metric, number4, be_combine. cbn [ip drop take app rev le_combine]. lia.
Qed.

Lemma xorcmp_spec ip_t ip_n ip_p i : bytes_ok ip_t -> bytes_ok ip_n -> bytes_ok ip_p ->
  xorcmp (load 4 (of_list ip_t) i) (load 4 (of_list ip_n) i) (load 4 (of_list ip_p) i) =
  match (word_at ip_t i .^ word_at ip_n i) ?= (word_at ip_t i .^ word_at ip_p i) with Lt => -1 | Eq => 0 | Gt => 1 end.
Proof.
  intros Ht Hn Hp. unfold xorcmp. fold (word_at ip_t i) (word_at ip_n i) (word_at ip_p i).
  rewrite (Z.lxor_comm (word_at ip_n i)), (Z.lxor_comm (word_at ip_p i)).
  destruct (Z.eqb_spec (load 4 (of_list ip_n) i) (load 4 (of_list ip_p) i)) as [E1|Hne].
  { unfold word_at. rewrite E1, Z.compare_refl. done. }
  assert (word_at ip_t i .^ word_at ip_n i <> word_at ip_t i .^ word_at ip_p i) as Hx.
  { intros E1. apply Hne. apply (f_equal (Z.lxor (word_at ip_t i))) in E1.
    rewrite <-!Z.lxor_assoc, !Z.lxor_nilpotent, !Z.lxor_0_l in E1. unfold word_at in E1.
    apply (f_equal Endian_bigEndianToHost32) in E1.
    change Endian_bigEndianToHost32 with Endian_hostToBigEndian32 in E1 at 2 4.
    rewrite !bigEndianToHost32_host in E1 by (by apply (load_range 4), of_list_ok). exact E1. }
  destruct (Z.compare_spec (word_at ip_t i .^ word_at ip_n i) (word_at ip_t i .^ word_at ip_p i)); bcase; done || lia.
Qed.
End metric.

(** [xorCompare] orders addresses by the exclusive or of their 128 bits with
    the target's, read as a number from the eighth byte on with the first eight
    bytes last: -1 if the first is nearer, 0 if they are equally near, 1 if the
    second is nearer. *)
Theorem xorCompare_spec `{Platform} `{NaCl} (target negativeIfCloser positiveIfCloser : Address) :
  let ip a := (Address_getPrefix a).2.(ip6) in
  let ok a := length (ip a) = 16%nat /\ bytes_ok (ip a) in
  ok target -> ok negativeIfCloser -> ok positiveIfCloser ->
  xorCompare target negativeIfCloser positiveIfCloser =
  match xor_distance (ip target) (ip negativeIfCloser) ?= xor_distance (ip target) (ip positiveIfCloser) with
  | Lt => -1 | Eq => 0 | Gt => 1
  end.
Proof.
  intros ip ok [Lt Bt] [Ln Bn] [Lp Bp]. unfold xorCompare.
  rewrite (surjective_pairing (Address_getPrefix target)), (surjective_pairing (Address_getPrefix negativeIfCloser)),
    (surjective_pairing (Address_getPrefix positiveIfCloser)).
  fold (ip target) (ip negativeIfCloser) (ip positiveIfCloser). rewrite !xorcmp_spec by done.
  unfold xor_distance. rewrite !metric_words, !number4_lxor by (done || by apply word_digit).
  assert (forall a i, bytes_ok (ip a) -> is_digit (word_at (ip target) i .^ word_at (ip a) i)) as Hd.
  { intros a i Ha. apply lxor_range; [lia|by apply word_digit..]. }
  pose proof (fun i => Hd negativeIfCloser i Bn) as Dn. pose proof (fun i => Hd positiveIfCloser i Bp) as Dp.
  apply four_digits; auto.
Qed.

Section behaviour.
  Context {P : Platform} {N : NaCl} {L : NaClLaws N} {R : RandomSource} {E : Environment}.

(** ** What an action leaves as it is *)
Definition keeps {A B} (f : World -> B) (m : M World A) : Prop := forall w a w', m w = Some (a, w') -> f w' = f w.

Lemma keeps_ret {A B} (f : World -> B) (a : A) : keeps f (mret a).
Proof. by intros w a' w' [= _ <-]. Qed.

Lemma keeps_bind {A B C} (f : World -> B) (m : M World A) (k : A -> M World C) :
  keeps f m -> (forall a, keeps f (k a)) -> keeps f (m ≫= k).
Proof.
  intros Hm Hk w c w'. rewrite run_bind. destruct (m w) as [[a w1]|] eqn:E1; [|done].
  intros E2. rewrite (Hk a w1 c w' E2). by apply (Hm w a).
Qed.

Lemma keeps_lift {A B} (f : World -> B) (x : option A) : keeps f (lift x).
Proof. intros w a w'. unfold lift. destruct x; [|done]. by intros [= _ <-]. Qed.

Lemma keeps_gets {A B} (f : World -> B) (g : World -> A) : keeps f (gets g).
Proof. by intros w a w' [= _ <-]. Qed.

Lemma keeps_modify {B} (f : World -> B) (g : World -> World) : (forall w, f (g w) = f w) -> keeps f (modify g).
Proof. intros H w a w' [= _ <-]. apply H. Qed.

(** The contexts of searches, the clock, what was sent and the pings. *)
Definition outside (w : World) : (Z -> option SearchCallbackContext) * Z * list Event * (Z -> option RouterModule_Ping) :=
  (the_contexts w, w.(now), w.(out), w.(router).(router_pings)).

Ltac keeps_step :=
  match goal with
  | |- keeps _ (mret _) => apply keeps_ret
  | |- keeps _ (lift _) => apply keeps_lift
  | |- keeps _ (gets _) => apply keeps_gets
  | |- keeps _ the_nodeStore => apply keeps_gets
  | |- keeps _ the_searchStore => apply keeps_gets
  | |- keeps _ (modify _) => apply keeps_modify; reflexivity
  | |- keeps _ (_ ≫= _) => apply keeps_bind; [|intros]
  | |- keeps _ (match ?x with _ => _ end) => destruct x
  end.

Lemma keeps_rand : keeps outside call_rand.
Proof. by intros w a w' [= _ <-]. Qed.

Lemma keeps_random k : keeps outside (random_bytes k).
Proof. intros w a w'. unfold random_bytes. destruct (Random_bytes _ _). by intros [= _ <-]. Qed.

Lemma keeps_tryNext : keeps outside tryNextNodeAfter.
Proof. unfold tryNextNodeAfter. apply keeps_bind; [apply keeps_gets|]. intros s. apply keeps_bind; [apply keeps_rand|]. intros. apply keeps_ret. Qed.

Lemma keeps_addNode a rd v : keeps outside (addNode a rd v).
Proof. unfold addNode, put_nodeStore. repeat keeps_step. Qed.

Lemma addNode_keeps_git a rd v : keeps (fun w => w.(router).(gitVersion)) (addNode a rd v).
Proof. unfold addNode, put_nodeStore. repeat keeps_step. Qed.

Lemma keeps_getBest a : keeps outside (getBest a).
Proof. unfold getBest, put_nodeStore. repeat keeps_step. Qed.

Lemma keeps_getNode p : keeps outside (getNodeByNetworkAddr p).
Proof.
  unfold getNodeByNetworkAddr, put_nodeStore. apply keeps_bind; [apply keeps_gets|]. intros s.
  apply keeps_bind; [destruct (_ && _); [apply keeps_rand|apply keeps_ret]|]. intros. repeat keeps_step.
Qed.

Lemma keeps_updateReach i r : keeps outside (updateReach i r).
Proof. unfold updateReach, put_nodeStore. repeat keeps_step. Qed.

Lemma keeps_response node ms : keeps outside (responseFromNode node ms).
Proof.
  unfold responseFromNode. destruct node; [|apply keeps_ret]. apply keeps_bind; [apply keeps_tryNext|intros t].
  destruct (ms <? t); [apply keeps_updateReach|apply keeps_ret].
Qed.

Lemma keeps_getNextNode i : keeps outside (getNextNode i).
Proof.
  unfold getNextNode, put_searchStore. do 2 (apply keeps_bind; [apply keeps_gets || apply keeps_lift|intros]).
  apply keeps_bind; [destruct (_ =? 0); [apply keeps_ret|apply keeps_random]|intros]. repeat keeps_step.
Qed.

Lemma keeps_put_address p a : keeps outside (put_address p a).
Proof. unfold put_address, put_searchStore. repeat keeps_step. Qed.

Lemma keeps_search_node p : keeps outside (search_node p).
Proof. unfold search_node. repeat keeps_step. Qed.

Lemma keeps_node_at i : keeps outside (node_at_index i).
Proof. unfold node_at_index. repeat keeps_step. Qed.

(** Going through an action that ran to its end. *)
Lemma bind_inv {A B} (m : M World A) (k : A -> M World B) w b w' :
  (m ≫= k) w = Some (b, w') -> exists a w1, m w = Some (a, w1) /\ k a w1 = Some (b, w').
Proof. rewrite run_bind. destruct (m w) as [[a w1]|]; [eauto|done]. Qed.

Lemma bind_inv_keeps {A B} (m : M World A) (k : A -> M World B) w b w' : keeps outside m ->
  (m ≫= k) w = Some (b, w') -> exists a w1, m w = Some (a, w1) /\ k a w1 = Some (b, w') /\ outside w1 = outside w.
Proof. intros Hm (a & w1 & E1 & E2)%bind_inv. exists a, w1. split; [done|]. split; [done|]. by apply (Hm w a). Qed.

(** ** Searches *)

(** What the callback of a search is told at its end. *)
Definition told (scc : SearchCallbackContext) : list Event :=
  match scc.(resultCallback) with Some c => [SearchResult c None] | None => [] end.

(** The search has ended, or one request was sent and counted. *)
Definition stepped (i : Z) (scc : SearchCallbackContext) (w w' : World) : Prop :=
  (the_contexts w' i = None /\ w'.(out) = w.(out) ++ told scc) \/
  (totalRequests scc < MAX_REQUESTS_PER_SEARCH /\
   exists m scc', the_contexts w' i = Some scc' /\ totalRequests scc' = u32 (totalRequests scc + 1) /\
     resultCallback scc' = resultCallback scc /\ w'.(out) = w.(out) ++ [ToNetwork m]).

Lemma end_search_result i scc w w' :
  (_ ← match scc.(resultCallback) with Some c => emit (SearchResult c None) | None => mret tt end; free_search i) w = Some (tt, w') ->
  the_contexts w' i = None /\ w'.(out) = w.(out) ++ told scc.
Proof.
  intros ([] & w1 & E1 & E2)%bind_inv.
  assert (w1.(out) = w.(out) ++ told scc) as Eo.
  { unfold told. destruct (resultCallback scc); injection E1 as <-; [done|by rewrite app_nil_r]. }
  rewrite <-Eo. clear Eo E1. unfold free_search in E2. apply bind_inv in E2 as (s & w2 & [= <- <-] & E2).
  apply bind_inv in E2 as (search & w3 & E3 & E2). unfold lift in E3. destruct (searches _ i); [|done]. injection E3 as -> <-.
  injection E2 as <-. split; [|done]. unfold the_contexts. cbn. by rewrite Z.eqb_refl.
Qed.

Lemma sendRequest_result addr q tid target tk w : exists m,
  sendRequest send_dht addr q tid target tk w = Some (tt, emitted (ToNetwork m) w).
Proof. unfold sendRequest. cbv zeta. erewrite send_request by reflexivity. eauto. Qed.

Lemma searchStep_result i scc w w' : the_contexts w i = Some scc -> scc.(scc_search) = i ->
  searchStep send_dht i w = Some (tt, w') -> stepped i scc w w'.
Proof.
  intros Hi Es H. unfold searchStep in H. apply bind_inv in H as (w0 & w0' & [= <- <-] & H).
  apply bind_inv in H as (scc0 & w0 & E0 & H). unfold lift in E0. fold (the_contexts w) in E0. rewrite Hi in E0.
  injection E0 as <- <-. rewrite Es in H. apply bind_inv_keeps in H as (next & w1 & _ & H & [= Ec En Eo _]); [|apply keeps_getNextNode].
  unfold stepped. rewrite <-Eo. destruct next as [next|]; [|left; by apply end_search_result].
  destruct (Z.leb_spec MAX_REQUESTS_PER_SEARCH (totalRequests scc)) as [?|Hless]; [left; by apply end_search_result|right; split; [done|]].
  clear Ec En Eo. apply bind_inv_keeps in H as (node & w2 & _ & H & [= _ _ Eo _]); [|apply keeps_search_node]. rewrite <-Eo. clear Eo.
  apply bind_inv_keeps in H as (best & w3 & _ & H & [= _ _ Eo _]); [|apply keeps_getBest]. rewrite <-Eo. clear Eo.
  apply bind_inv_keeps in H as (addr & w4 & _ & H & [= _ _ Eo _]);
    [|destruct best; [apply keeps_bind; [apply keeps_node_at|intros; apply keeps_ret]|apply keeps_ret]]. rewrite <-Eo. clear Eo.
  apply bind_inv_keeps in H as ([] & w5 & _ & H & [= _ _ Eo _]); [|apply keeps_put_address]. rewrite <-Eo. clear Eo.
  apply bind_inv in H as ([] & w6 & E6 & H).
  destruct (sendRequest_result addr (Some (requestType scc)) (txid node) (Some (scc_targetAddress scc)) (targetKey scc) w5) as (m & E6').
  rewrite E6 in E6'. injection E6' as ->. exists m.
  apply bind_inv_keeps in H as (t & w7 & _ & H & [= _ _ Eo _]); [|apply keeps_tryNext]. injection H as <-.
  eexists. split; [unfold the_contexts; cbn; rewrite Z.eqb_refl; reflexivity|]. split; [done|]. split; [done|]. exact Eo.
Qed.

Lemma searchRequestTimeout_result i scc w w' : the_contexts w i = Some scc -> scc.(scc_search) = i ->
  searchRequestTimeout send_dht i w = Some (tt, w') -> stepped i scc w w'.
Proof.
  intros Hi Es H. unfold searchRequestTimeout in H. apply bind_inv in H as (w0 & w0' & [= <- <-] & H).
  apply bind_inv in H as (scc0 & w0 & E0 & H). unfold lift in E0. fold (the_contexts w) in E0. rewrite Hi in E0.
  injection E0 as <- <-. apply bind_inv_keeps in H as (last & w1 & _ & H & [= E1 _ O1 _]); [|apply keeps_search_node].
  apply bind_inv_keeps in H as (n & w2 & _ & H & [= E2 _ O2 _]); [|apply keeps_getNode].
  apply bind_inv_keeps in H as ([] & w3 & _ & H & [= E3 _ O3 _]).
  2: { destruct n; [|apply keeps_ret]. apply keeps_bind; [apply keeps_node_at|]. intros. apply keeps_updateReach. }
  apply (searchStep_result i scc) in H; [|congruence|done]. unfold stepped in *. by rewrite <-O1, <-O2, <-O3.
Qed.

(** The timer of the search runs [k] times, while no reply arrives. *)
Fixpoint timeouts (k : nat) (i : Z) : M World unit :=
  match k with O => mret tt | S k => _ ← searchRequestTimeout send_dht i; timeouts k i end.

Lemma search_ends (n : Z) (i : Z) (r : nat) : rand_ok -> forall scc w,
  router_ok None n w -> the_contexts w i = Some scc -> totalRequests scc + Z.of_nat r = MAX_REQUESTS_PER_SEARCH -> 0 <= totalRequests scc ->
  exists requests w', timeouts (S (length requests)) i w = Some (tt, w') /\ the_contexts w' i = None /\
    w'.(out) = w.(out) ++ map ToNetwork requests ++ told scc /\ (length requests <= r)%nat.
Proof.
  intros Hrand. induction r as [|r IH]; intros scc w Hw Hi Hr H0.
  - destruct (proj1 (wp_run _ _ _) (run_searchRequestTimeout Hrand n i w (fun _ w' => router_ok None n w') Hw ltac:(congruence)
      ltac:(done))) as ([] & w' & E1 & _).
    destruct (context_open None n w i scc Hw Hi) as (_ & Es & _).
    destruct (searchRequestTimeout_result i scc w w' Hi Es E1) as [[Hc Ho]|[? _]]; [|lia].
    exists [], w'. split_and!; [cbn [length timeouts]; rewrite run_bind, E1; done|done|done|done].
  - destruct (proj1 (wp_run _ _ _) (run_searchRequestTimeout Hrand n i w (fun _ w' => router_ok None n w') Hw ltac:(congruence)
      ltac:(done))) as ([] & w' & E1 & Hw').
    destruct (context_open None n w i scc Hw Hi) as (_ & Es & _).
    destruct (searchRequestTimeout_result i scc w w' Hi Es E1) as [[Hc Ho]|(Hl & m & scc' & Hc & Ht & Hcb & Ho)].
    + exists [], w'. split_and!; [cbn [length timeouts]; rewrite run_bind, E1; done|done|done|cbn; lia].
    + unfold MAX_REQUESTS_PER_SEARCH in *. rewrite u32_small in Ht by lia.
      destruct (IH scc' w' Hw' Hc ltac:(lia) ltac:(lia)) as (ms & w2 & E2 & Hc2 & Ho2 & Hlen).
      exists (m :: ms), w2. split_and!; [|done| |cbn; lia].
      * cbn [length timeouts]. rewrite run_bind, E1. exact E2.
      * rewrite Ho2, Ho. unfold told. rewrite Hcb. cbn [map]. by rewrite <-!app_assoc.
Qed.

Lemma beginSearch_context target callback w i w' :
  RouterModule_beginSearch target callback w = Some (Some i, w') ->
  exists scc, the_contexts w' i = Some scc /\ totalRequests scc = 0 /\ resultCallback scc = callback.
Proof.
  intros H. unfold RouterModule_beginSearch in H. apply bind_inv in H as (s & w1 & _ & H).
  destruct (SearchStore_newSearch target s) as [s1 search]. apply bind_inv in H as ([] & w2 & _ & H).
  destruct search as [j|]; [|discriminate H]. cbv zeta in H. apply bind_inv in H as (t & w3 & _ & H).
  destruct (NodeStore_getClosestNodes _ _ _ _ _) as [t1 nodes]. apply bind_inv in H as ([] & w4 & _ & H).
  destruct (Z.of_nat (length nodes) =? 0); [apply bind_inv in H as (? & ? & _ & [= ])|].
  apply bind_inv in H as ([] & w5 & _ & H). apply bind_inv in H as (first & w6 & _ & H).
  apply bind_inv in H as (p & w7 & _ & H). apply bind_inv in H as (node & w8 & _ & H).
  apply bind_inv in H as ([] & w9 & _ & H). apply bind_inv in H as (time & w10 & _ & H).
  apply bind_inv in H as (w11 & w11' & [= <- <-] & H). injection H as -> <-. eexists. split.
  - unfold the_contexts. cbn. rewrite Z.eqb_refl. reflexivity.
  - done.
Qed.

(** C26: a search that no one answers ends: its timer runs at most nine times,
    each time but the last sends one request, and the last time frees the search
    and tells the callback so. With the first request that is up to nine, one
    more than MAX_REQUESTS_PER_SEARCH. *)
Theorem RouterModule_search_ends (w : World) target callback i w1 :
  rand_ok -> (3 <= fuel)%nat -> ready w -> RouterModule_beginSearch target callback w = Some (Some i, w1) ->
  exists requests w2, timeouts (S (length requests)) i w1 = Some (tt, w2) /\ the_contexts w2 i = None /\
    w2.(out) = w1.(out) ++ map ToNetwork requests ++ match callback with Some c => [SearchResult c None] | None => [] end /\
    Z.of_nat (length requests) <= MAX_REQUESTS_PER_SEARCH.
Proof.
  intros Hrand Hfuel Hready Eb. destruct (ready_ok w Hrand Hfuel Hready) as (n & Hw & _).
  destruct (proj1 (wp_run _ _ _) (run_beginSearch Hfuel n target callback w (fun _ => router_ok None n) Hw (fun _ _ H => H)))
    as (? & w1' & Eb' & Hw1). rewrite Eb in Eb'. injection Eb' as <- <-.
  destruct (beginSearch_context target callback w i w1 Eb) as (scc & Hi & Ht & Hcb).
  destruct (search_ends n i 8 Hrand scc w1 Hw1 Hi) as (requests & w2 & E2 & Hc & Ho & Hl).
  { rewrite Ht. done. } { lia. }
  exists requests, w2. unfold told in Ho. rewrite Hcb in Ho. unfold MAX_REQUESTS_PER_SEARCH. split_and!; [done|done|done|lia].
Qed.
End behaviour.

(** ** Examples *)
#[local] Existing Instance x86.
#[local] Existing Instance demo_env.

(** Node 5 looks for node 6, which does not answer. *)
Lemma demo_search : option_map fst (w ← demo_added; RouterModule_beginSearch (repeat 7 16) (Some 3) w) = Some (Some 0).
Proof. vm_compute. reflexivity. Qed.

Lemma RouterModule_search_ends_witness : exists w i w1 requests w2, demo_added = Some w /\
  RouterModule_beginSearch (repeat 7 16) (Some 3) w = Some (Some i, w1) /\
  timeouts (S (length requests)) i w1 = Some (tt, w2) /\ w2.(out) = w1.(out) ++ map ToNetwork requests ++ [SearchResult 3 None].
Proof.
  destruct (bind_some _ _ _ _ demo_search) as (w & [i w1] & Ew & Eb & Ei). cbn [fst] in Ei. subst i.
  destruct (RouterModule_search_ends w (repeat 7 16) (Some 3) 0 w1) as (requests & w2 & E2 & _ & Ho & _);
    [apply demo_env_ok..|exact (demo_added_ready w Ew)|exact Eb|].
  exists w, 0, w1, requests, w2. exact (conj Ew (conj Eb (conj E2 Ho))).
Defined.

Lemma xorCompare_spec_witness : xorCompare (demo_peer 7 1) (demo_peer 6 1) (demo_peer 5 1) = -1.
Proof.
  rewrite (xorCompare_spec (demo_peer 7 1) (demo_peer 6 1) (demo_peer 5 1));
    [vm_compute; reflexivity|split; [vm_compute; reflexivity|apply bytes_ok_check; vm_compute; reflexivity]..].
Defined.
