(* ===== verification/RouterDefects.v ===== *)
(** * What a message can do to the router

    RouterSafety asks more of a message than the code checks. Here is what the
    code does otherwise: a reply without a version and a stored version of
    2^32 - 1 stop the program, a reply that lists this node cuts routes, and a
    quick reply can give less reach than a slow one. *)
From S2P Require Import Prelude Memory Endian Bits LabelSplicer NaCl Benc ArrayIO BencSerializer Address NodeCollector NodeStore NodeStoreKeeps VersionList AverageRoller SearchStore DHT RouterModule RouterInvariant RouterSafety.

Section defects.
  Context {P : Platform} {N : NaCl} {R : RandomSource} {E : Environment}.

(** ** Timing of replies *)

(** The reach for the milliseconds saved. *)
Definition reach_saved (saved : Z) : Z :=
  if saved <=? 8000 then saved * LINK_STATE_MULTIPLIER else saved * LINK_STATE_MULTIPLIER - 2 ^ 32.

(** What a reply after [ms] milliseconds does to the reach of its node, for
    the timeout [t] that is drawn, from 10 to 10000: nothing if it is not
    quicker, otherwise the reach becomes the milliseconds saved times
    LINK_STATE_MULTIPLIER, which wraps around above 8000 milliseconds: then it
    is less than for any reply that saves from 2000 to 8000. *)
Theorem responseFromNode_spec (i ms : Z) (w : World) : 0 <= ms ->
  exists t w1, tryNextNodeAfter w = Some (t, w1) /\ MIN_TIMEOUT <= t <= MAX_TIMEOUT /\
    responseFromNode (Some i) ms w = (if t <=? ms then Some (tt, w1) else updateReach i (reach_saved (t - ms)) w1) /\
    (8000 < t - ms -> reach_saved (t - ms) <= reach_saved 2000).
Proof.
  intros Hms. destruct (proj1 (wp_run tryNextNodeAfter (fun t w1 => MIN_TIMEOUT <= t <= MAX_TIMEOUT) w)) as (t & w1 & E1 & Ht).
  { by apply tryNext_range. }
  exists t, w1. split; [exact E1|]. split; [exact Ht|]. unfold reach_saved, MIN_TIMEOUT, MAX_TIMEOUT, LINK_STATE_MULTIPLIER in *.
  split; [|bcase; lia]. unfold responseFromNode. rewrite run_bind, E1. unfold LINK_STATE_MULTIPLIER.
  destruct (Z.leb_spec t ms), (Z.ltb_spec ms t); try lia; [done|]. f_equal. unfold u64. rewrite Z.mod_small by lia.
  unfold u32. destruct (Z.leb_spec (t - ms) 8000); [by rewrite Z.mod_small by lia|].
  symmetry. apply (Z.mod_unique _ _ 1); lia.
Qed.

(** ** A known node that does not say its version *)
Lemma handleReply_aborts message d w : store_ok (the_table w) -> known w message.(dht_address) -> message.(asDict) = Some d ->
  Version_isCompatible Version_CURRENT_PROTOCOL (reply_version d) = false -> handleReply send_dht message w = None.
Proof.
  intros Hs Hk Hd Hv. destruct (getNode_known w _ Hs Hk) as (k & w1 & E1 & Hsame & Hkey).
  unfold handleReply. rewrite run_bind, E1, run_bind. unfold node_at_index at 1. rewrite !run_bind.
  cbn [the_nodeStore gets mret M_ret]. fold (the_table w1). rewrite Hkey, (proj2 (memcmp_0 _ _ eq_refl) eq_refl). cbn [negb Z.eqb].
  rewrite Hd. fold (reply_version d). cbv zeta. rewrite run_bind. unfold addNode. rewrite run_bind. cbn [the_nodeStore gets].
  unfold NodeStore_addNode. rewrite Hv. cbn. done.
Qed.

(** A reply without a version that this node talks to. *)
Definition unversioned_reply (d : Dict) : Prop :=
  Dict_getString (Some d) (Some CJDHTConstants_QUERY) = None /\
  Version_isCompatible Version_CURRENT_PROTOCOL (reply_version d) = false.

(** A message that is no query, from a node in the table, stops the program
    if it does not name a version this node talks to, as one without the entry
    p does. *)
Theorem RouterModule_unversioned_reply_aborts (content : list Z) (addr : Address) (d : Dict) (w : World) :
  store_ok (the_table w) -> known w addr -> parsed_as content d -> unversioned_reply d ->
  incomingDHT content addr w = None.
Proof.
  intros Hs Hk Hd [Hq Hv]. rewrite (incoming_parsed content addr d w Hd), run_bind. unfold RouterModule_handleIncoming.
  change (asDict (with_dict (arrived content addr) d)) with (Some d). rewrite Hq, bool_decide_eq_true_2 by done.
  rewrite run_bind, (handleReply_aborts _ d) by done. done.
Qed.

(** ** A version that no list can hold *)
Lemma handleQuery_hangs message query d dq target w r w1 s l : message.(asDict) = Some d -> query.(asDict) = Some dq ->
  Dict_getString (Some dq) (Some CJDHTConstants_TARGET) = Some target -> length target = 16%nat ->
  addNode query.(dht_address) 1 (query_version dq) w = Some (r, w1) ->
  NodeStore_getClosestNodes (the_table w1) (stack_address target) (Some query.(dht_address))
    (RouterModule_K + 5) (query_version dq) = (s, l) ->
  In UINT32_MAX (map node_version (map (store_nodes s) l)) -> handleQuery message query w = None.
Proof.
  intros Hd Hdq Ht Hl Ha Ec Hin.
  unfold handleQuery. rewrite Hdq. fold (query_version dq). rewrite run_bind, Ha, run_bind, Hd. cbn [lift option_map].
  rewrite Ht, Hl. cbn [Nat.eqb]. rewrite run_bind. cbn [the_nodeStore gets]. fold (the_table w1). rewrite Ec.
  rewrite run_bind. cbn [put_nodeStore modify]. destruct l as [|k l]; [done|].
  assert ((0 <? Z.of_nat (length (k :: l))) = true) as -> by (apply Z.ltb_lt; cbn [length]; lia). cbn [negb]. cbv zeta. rewrite run_bind.
  unfold VersionList_stringify. rewrite number_size_forever by done. done.
Qed.

(** A query for the nodes closest to a target. *)
Definition search_query (d : Dict) (target : String) : Prop :=
  Dict_getString (Some d) (Some CJDHTConstants_QUERY) <> None /\
  Dict_getString (Some d) (Some CJDHTConstants_TARGET) = Some target /\ length target = 16%nat.

(** Once the table has a node of version 2^32 - 1 among the closest to a
    target, the answer to a query for that target is never finished: the loop
    that looks for the width of the versions runs for ever, whatever the fuel.
    The version is the one a node gave itself in a query. *)
Theorem RouterModule_version_hangs (content : list Z) (addr : Address) (d : Dict) (target : String) (w w1 : World) r s nodeList :
  parsed_as content d -> search_query d target ->
  addNode addr 1 (query_version d) w = Some (r, w1) ->
  NodeStore_getClosestNodes (the_table w1) (stack_address target) (Some addr) (RouterModule_K + 5) (query_version d)
    = (s, nodeList) ->
  In UINT32_MAX (map node_version (map (store_nodes s) nodeList)) -> incomingDHT content addr w = None.
Proof.
  intros Hd (Hq & Ht & Hl) Ha Ec Hin. destruct (Dict_getString _ (Some CJDHTConstants_QUERY)) as [q|] eqn:Eq; [clear Hq|done].
  rewrite (incoming_query content addr d q w Hd Eq), reply_sent, run_bind.
  unfold RouterModule_handleOutgoing at 1. rewrite run_bind. cbn [lift option_map asDict with_dict].
  cbv zeta. cbn [replyTo with_dict reply_to].
  match goal with |- context [handleQuery ?m ?q w] => erewrite (handleQuery_hangs m q) end;
    [done|reflexivity|reflexivity|exact Ht|exact Hl|exact Ha|exact Ec|exact Hin].
Qed.

(** ** A reply that lists this node *)

(** The entry of the list at [i] has this node's key. *)
Definition lists_us (w : World) (nodes : String) (i : Z) : Prop :=
  Address_isSameIp w.(router).(router_address) (listed nodes i) = true.

(** An entry in the list of nodes of a reply that has this node's key makes
    the router treat the entry's label, which is a path from the node that
    replied, as a broken path from here: every node whose path goes through that
    label loses its reach or its place, and no other node is touched. *)
Theorem RouterModule_reply_cuts_routes (i targetPrefix parentDistance : Z) versions (nodes : String) (target parent : Address)
    (search : Z) (message : DHTMessage) (w : World) :
  store_ok (the_table w) -> label_ok (listed nodes i).(path) -> isDuplicateEntry nodes i = false -> lists_us w nodes i ->
  exists w', reply_entry i targetPrefix parentDistance versions nodes target parent search message w = Some (true, w') /\
    store_ok (the_table w') /\ cut (listed nodes i).(path) (the_table w) (the_table w') /\
    forall j, 0 <= j < (the_table w').(size) -> cleared (listed nodes i).(path) (the_table w') j.
Proof.
  intros Hs Hl Hdup Hself. destruct (brokenPath_spec _ Hl (the_table w) Hs) as (s' & E1 & Hs' & _ & Hcut & Hclear).
  unfold reply_entry. fold (listed nodes i). rewrite run_bind. cbn [gets id]. rewrite Hdup. cbv zeta. rewrite Hself.
  rewrite run_bind. unfold brokenPath. rewrite run_bind. cbn [the_nodeStore gets]. fold (the_table w).
  rewrite run_bind. unfold lift. rewrite E1. eexists. split; [reflexivity|]. done.
Qed.
End defects.

(** ** Examples *)
#[local] Existing Instance x86.
#[local] Existing Instance demo_env.

Lemma responseFromNode_spec_witness : exists t w1, tryNextNodeAfter (world_of {| router_address := demo_peer 5 1;
    router_searchStore := SearchStore_new (AverageRoller_new GMRT_SECONDS 100); router_nodeStore := NodeStore_new (demo_peer 5 1) 8;
    router_pings := fun _ => None; gitVersion := []; router_contexts := fun _ => None; globalMaintainenceMilliseconds := 0;
    timeOfNextGlobalMaintainence := 0 |} 100000 100 (0 : @Rand toy_random)) = Some (t, w1).
Proof.
  match goal with |- exists t w1, tryNextNodeAfter ?w = _ =>
    destruct (responseFromNode_spec 0 20 w ltac:(lia)) as (t & w1 & E1 & _) end.
  exists t, w1. exact E1.
Defined.

Lemma demo_added_table : option_map (fun w => ((the_table w).(size), npath (the_table w) 0,
    ((the_table w).(store_nodes) 0).(address).(key))) demo_added = Some (1, 0x13, repeat 6 32).
Proof. vm_compute. reflexivity. Qed.

Lemma demo_added_router : option_map (fun w => w.(router).(router_address).(key)) demo_added = Some (repeat 5 32).
Proof. vm_compute. reflexivity. Qed.

Lemma demo_added_store w : demo_added = Some w -> store_ok (the_table w) /\ known w (demo_peer 6 0x13).
Proof.
  intros Ew. pose proof demo_added_table as H. rewrite Ew in H. injection H as H1 H2 H3. split.
  - destruct (ready_ok w (proj1 demo_env_ok) (proj2 demo_env_ok) (demo_added_ready w Ew)) as (n & Hok & _). apply Hok.
  - exists 0. rewrite H1. split; [lia|]. split; [exact H2|exact H3].
Qed.

(** d4:txid2:p0e from node 6. *)
Lemma RouterModule_unversioned_reply_aborts_witness : exists w, demo_added = Some w /\
  incomingDHT (chars "d4:txid2:p0e") (demo_peer 6 0x13) w = None.
Proof.
  pose proof demo_added_table as H. destruct demo_added as [w|] eqn:Ew; [|done]. clear H. exists w. split; [done|].
  destruct (demo_added_store w Ew) as [Hs Hk].
  apply (RouterModule_unversioned_reply_aborts (chars "d4:txid2:p0e") (demo_peer 6 0x13)
    [(chars "txid", Object_STRING (chars "p0"))] w Hs Hk); [|split; reflexivity].
  apply parsed_if. vm_compute. reflexivity.
Defined.

Definition demo_ping_max : list Z := chars "d1:pi4294967295e1:q2:pn4:txid2:p0e".
Definition demo_find : list Z := chars "d1:pi2e1:q2:fn3:tar16:" ++ repeat 7 16 ++ chars "4:txid2:sre".
Definition demo_find_dict : Dict :=
  [(chars "txid", Object_STRING (chars "sr")); (chars "tar", Object_STRING (repeat 7 16));
   (chars "q", Object_STRING (chars "fn")); (chars "p", Object_INTEGER 2)].

(** Node 5 after a ping from node 6 that gives the greatest version. *)
Definition demo_max : option World := option_map snd (incomingDHT demo_ping_max (demo_peer 6 0x15) (world_of
  {| router_address := demo_peer 5 1; router_searchStore := SearchStore_new (AverageRoller_new GMRT_SECONDS 100);
     router_nodeStore := NodeStore_new (demo_peer 5 1) 8; router_pings := fun _ => None; gitVersion := [];
     router_contexts := fun _ => None; globalMaintainenceMilliseconds := 0; timeOfNextGlobalMaintainence := 0 |} 100000 100 0)).

Definition demo_closest (w : World) : NodeStore * list Z :=
  NodeStore_getClosestNodes (the_table w) (stack_address (repeat 7 16)) (Some (demo_peer 7 0x13)) (RouterModule_K + 5) 2.

Lemma demo_max_versions : option_map (fun '(_, w) => map node_version (map (store_nodes (demo_closest w).1) (demo_closest w).2))
  (w ← demo_max; addNode (demo_peer 7 0x13) 1 2 w) = Some [UINT32_MAX].
Proof. vm_compute. reflexivity. Qed.

Lemma RouterModule_version_hangs_witness : exists w, demo_max = Some w /\ incomingDHT demo_find (demo_peer 7 0x13) w = None.
Proof.
  destruct (bind_some _ _ _ _ demo_max_versions) as (w & [r w1] & Ew & Ea & H). exists w. split; [exact Ew|].
  assert (query_version demo_find_dict = 2) as Hv by reflexivity.
  apply (RouterModule_version_hangs demo_find (demo_peer 7 0x13) demo_find_dict (repeat 7 16) w w1 r
    (demo_closest w1).1 (demo_closest w1).2); [apply parsed_if; vm_compute; reflexivity|split; [vm_compute; discriminate|split; reflexivity]|..].
  - rewrite Hv. exact Ea.
  - rewrite Hv. unfold demo_closest. apply surjective_pairing.
  - rewrite H. by left.
Defined.

(** Node 6 replies with a list that holds node 5 with the label 0x13. *)
Definition demo_listed : list Z := repeat 5 32 ++ [0; 0; 0; 0; 0; 0; 0; 0x13].

Lemma RouterModule_reply_cuts_routes_witness : exists w w' message, demo_added = Some w /\
  reply_entry 0 0 0 None demo_listed (demo_peer 7 1) (demo_peer 6 0x13) 0 message w = Some (true, w') /\
  forall j, 0 <= j < (the_table w').(size) -> cleared 0x13 (the_table w') j.
Proof.
  pose proof demo_added_router as H. destruct demo_added as [w|] eqn:Ew; [|done]. injection H as H.
  destruct (demo_added_store w Ew) as [Hs _]. set (message := arrived [] (demo_peer 6 0x13)).
  destruct (RouterModule_reply_cuts_routes 0 0 0 None demo_listed (demo_peer 7 1) (demo_peer 6 0x13) 0 message w Hs)
    as (w' & E1 & _ & _ & Hc).
  - change (path (listed demo_listed 0)) with 0x13. unfold label_ok. lia.
  - reflexivity.
  - unfold lists_us, Address_isSameIp. rewrite H. reflexivity.
  - exists w, w', message. exact (conj eq_refl (conj E1 Hc)).
Defined.
