(* ===== verification/RouterExchange.v ===== *)
(** * Messages between two routers

    What a router sends is read by the next as the dictionary it was written
    from: what a query is answered with, and a ping from one node to another and
    back. *)
From S2P Require Import Prelude Memory Endian Bits NumberCompress LabelSplicer NaCl Benc ArrayIO BencSerializer Address NodeCollector NodeStore NodeStoreKeeps ClosestNodes VersionList AverageRoller SearchStore DHT RouterModule RouterInvariant RouterSafety RouterBehaviour RouterDefects.

(** ** Ranges *)
Lemma getLabelFor_range `{Platform} p asker : 0 <= p < 2 ^ 64 -> 0 <= LabelSplicer_getLabelFor p asker < 2 ^ 64.
Proof.
  intros Hp. unfold LabelSplicer_getLabelFor. destruct (_ <=? _); [done|]. apply lor_range; [lia|apply u64_range|].
  pose proof (decompressed_range (s := NumberCompress) p) as Hd. fold (NumberCompress_bitsUsedForLabel p) in Hd.
  fold (NumberCompress_getDecompressed p (NumberCompress_bitsUsedForLabel p)) in Hd.
  set (number := NumberCompress_getDecompressed _ _) in *. set (bits := NumberCompress_bitsUsedForLabel asker).
  assert (0 <= NumberCompress_getCompressed number bits < 2 ^ 32); [|lia].
  unfold NumberCompress_getCompressed, NumberCompress in *. pose proof (u32_range (number << 1)). 
  destruct (CJDNS_MAX_PEERS <? 16); [|destruct (CJDNS_MAX_PEERS <? 241)].
  - cbn in *. unfold NumberCompress_4_getCompressed, NumberCompress_4_INTERFACES in *. lia.
  - cbn. unfold NumberCompress_8_getCompressed. do 2 (destruct (_ =? number); [lia|]). apply u32_range.
  - cbn. unfold NumberCompress_dyn_getCompressed. destruct (1 =? number); [lia|].
    destruct (bits =? 4); [destruct (0 =? number); [lia|apply lor_range; [lia|apply u32_range|lia]]|].
    destruct (bits =? 7); [destruct (0 =? number); [lia|apply lor_range; [lia|apply u32_range|lia]]|].
    destruct (bits =? 10); [destruct (0 =? number); [lia|apply u32_range]|lia].
Qed.

Lemma collect_length l i matched new : l <> [] -> length (collect l i matched new) = length l.
Proof.
  intros Hl. unfold collect. destruct (Z.ltb_spec 0 i); [|done]. destruct (0 <? matched); [apply length_insert|].
  rewrite !length_app, length_take, !length_drop. destruct l as [|x l]; [done|]. cbn [length]. lia.
Qed.

Lemma linkstate_length index header body c : c.(nodes) <> [] ->
  length (LinkStateNodeCollector_addNode index header body c).(nodes) = length c.(nodes).
Proof.
  intros Hc. unfold LinkStateNodeCollector_addNode. destruct (_ <? _); [|done].
  destruct (collector_scan _ _ _ _ _ _ _) as [[i m] v]. cbn [nodes]. by apply collect_length.
Qed.

Lemma getClosestNodes_count `{Platform} `{NaCl} s target req count v : 0 < count ->
  Z.of_nat (length (NodeStore_getClosestNodes s target req count v).2) <= count.
Proof.
  intros Hc. unfold NodeStore_getClosestNodes. cbn [snd].
  match goal with |- context [fold_left ?f (candidates s) ?c] => set (body := f); set (c0 := c) end.
  assert (length (nodes c0) = Z.to_nat count) as Hlen0.
  { unfold c0, NodeCollector_new. destruct (Address_getPrefix target). cbn [nodes]. apply repeat_length. }
  assert (length (nodes (fold_left body (candidates s) c0)) = Z.to_nat count) as Hl.
  { revert Hlen0. generalize c0. generalize (candidates s). induction l as [|[[i h] n] l IH]; intros c Hl; cbn [fold_left]; [done|].
    apply IH. unfold body. 
    match goal with |- context [if ?b then c else if ?b' then c else _] => destruct b; [done|]; destruct b'; [done|] end.
    rewrite linkstate_length; [done|]. intros E1. rewrite E1 in Hl. cbn in Hl. lia. }
  assert (forall l : list NodeCollector_Element, (length (omap el_node l) <= length l)%nat) as Hom.
  { induction l as [|x l IH]; cbn; [lia|]. destruct (el_node x); cbn; lia. }
  specialize (Hom (nodes (fold_left body (candidates s) c0))). lia.
Qed.

(** ** From one router to the next *)
Section exchange.
  Context {P : Platform} {N : NaCl} {L : NaClLaws N} {R : RandomSource} {E : Environment}.

Lemma read_list_prefix l n : Z.of_nat (length l) <= n -> exists rest, read (of_list l) 0 n = l ++ rest.
Proof.
  intros Hn. rewrite (read_split _ 0 n (Z.of_nat (length l))) by lia. rewrite read_of_list by done. eexists. reflexivity.
Qed.

(** What is sent is the dictionary's encoding, if it has room, and the next
    router reads the dictionary from it. *)
Lemma wire message d : serializable (Object_DICT d) -> ints_pass erange (Object_DICT d) ->
  Z.of_nat (length (encode_dict d)) <= DHTMessage_MAX_SIZE ->
  let sent := dht_written message d in
  read sent.(dht_bytes) 0 sent.(dht_length) = encode_dict d /\ parsed_as (encode_dict d) (parsed_dict d).
Proof.
  intros Hs Hi Hl sent. split.
  - unfold sent, dht_written. pose proof (serializeDictionary_spec (dht_bytes message) 0 DHTMessage_MAX_SIZE d) as H.
    destruct (serializeDictionary _ d) as [ret writer]. cbn [snd with_bytes dht_bytes dht_length].
    destruct H as (_ & H); [unfold DHTMessage_MAX_SIZE; lia..|done|]. rewrite (proj2 (Z.leb_le _ _)) in H by done.
    destruct H as (_ & Hn & Hr). change (writer_bytesWritten writer) with (ArrayWriter_bytesWritten writer).
    unfold DHTMessage_MAX_SIZE in Hl. rewrite u16_small by lia. exact Hr.
  - unfold parsed_as. rewrite take_ge by lia. destruct (read_list_prefix (encode_dict d) DHTMessage_MAX_SIZE Hl) as (rest & Er).
    apply (parseDictionary_prefix _ 0 DHTMessage_MAX_SIZE d (message_process erange) parse_fuel rest); try done; [|unfold parse_fuel; lia].
    unfold DHTMessage_MAX_SIZE in Hl. unfold room_for. cbn [largest_block message_process]. lia.
Qed.

(** ** The answer to a search *)
Definition answer_dict (nodes versions tid : String) : Dict :=
  [(CJDHTConstants_NODES, Object_STRING nodes); (CJDHTConstants_NODE_PROTOCOLS, Object_STRING versions);
   (CJDHTConstants_PROTOCOL, Object_INTEGER Version_CURRENT_PROTOCOL); (CJDHTConstants_TXID, Object_STRING tid)].

Lemma answer_built nodes versions tid :
  let d := fst (Dict_putString Dict_new (Some CJDHTConstants_TXID) (Some tid)) in
  let d := fst (Dict_putInt d CJDHTConstants_PROTOCOL Version_CURRENT_PROTOCOL) in
  let d := fst (Dict_putString d (Some CJDHTConstants_NODES) (Some nodes)) in
  fst (Dict_putString d (Some CJDHTConstants_NODE_PROTOCOLS) (Some versions)) = answer_dict nodes versions tid.
Proof. destruct P as [? [] ? ?]; reflexivity. Qed.

Lemma answer_found nodes versions tid :
  let d := Some (parsed_dict (answer_dict nodes versions tid)) in
  Dict_getString d (Some CJDHTConstants_NODES) = Some nodes /\
  Dict_getString d (Some CJDHTConstants_NODE_PROTOCOLS) = Some versions /\
  Dict_getString d (Some CJDHTConstants_TXID) = Some tid /\
  Dict_getInt d (Some CJDHTConstants_PROTOCOL) = Some Version_CURRENT_PROTOCOL.
Proof. destruct P as [? [] ? ?]; repeat split. Qed.

Lemma int_current : int_passes erange Version_CURRENT_PROTOCOL = true.
Proof. change (negb (erange && false) = true). by rewrite andb_false_r. Qed.

(** A dictionary whose strings are short, and whose only integer is the version. *)
Ltac serializable_dict := cbn; unfold string_ok, INT64_MIN, INT64_MAX; cbn; split_and!; done || lia.
Ltac passing_dict := cbn; split_and!; apply int_current || exact I.

Lemma version_string_short width l : 1 <= width <= 4 -> (length (version_string width l) <= 1 + 4 * length l)%nat.
Proof.
  intros Hw. unfold version_string. cbn [length]. induction l as [|v l IH]; cbn [map concat length]; [lia|].
  rewrite length_app, length_be_split. lia.
Qed.

Lemma answer_fits nodes versions tid : (length nodes <= 520)%nat -> (length versions <= 53)%nat -> (length tid <= 512)%nat ->
  serializable (Object_DICT (answer_dict nodes versions tid)) /\ ints_pass erange (Object_DICT (answer_dict nodes versions tid)) /\
  Z.of_nat (length (encode_dict (answer_dict nodes versions tid))) <= DHTMessage_MAX_SIZE.
Proof.
  intros Hn Hv Ht. split; [by serializable_dict|]. split; [by passing_dict|].
  unfold encode_dict, answer_dict. cbn [encode flat_map]. rewrite !length_app.
  pose proof (length_encode_string nodes). pose proof (length_encode_string versions). pose proof (length_encode_string tid).
  pose proof (length_print_int64 Version_CURRENT_PROTOCOL).
  change (length (encode_string CJDHTConstants_NODES)) with 3%nat.
  change (length (encode_string CJDHTConstants_NODE_PROTOCOLS)) with 4%nat.
  change (length (encode_string CJDHTConstants_PROTOCOL)) with 3%nat.
  change (length (encode_string CJDHTConstants_TXID)) with 6%nat.
  change (length (chars "d")) with 1%nat. change (length (chars "e")) with 1%nat. change (length (chars "i")) with 1%nat.
  unfold DHTMessage_MAX_SIZE. cbn [length]. lia.
Qed.

(** The answer when there are no nodes to tell. *)
Definition empty_dict (tid : String) : Dict :=
  [(CJDHTConstants_PROTOCOL, Object_INTEGER Version_CURRENT_PROTOCOL); (CJDHTConstants_TXID, Object_STRING tid)].

Lemma empty_built tid :
  fst (Dict_putInt (fst (Dict_putString Dict_new (Some CJDHTConstants_TXID) (Some tid))) CJDHTConstants_PROTOCOL Version_CURRENT_PROTOCOL) =
  empty_dict tid.
Proof. destruct P as [? [] ? ?]; reflexivity. Qed.

Lemma empty_found tid :
  let d := Some (parsed_dict (empty_dict tid)) in
  Dict_getString d (Some CJDHTConstants_NODES) = None /\
  Dict_getString d (Some CJDHTConstants_TXID) = Some tid /\
  Dict_getInt d (Some CJDHTConstants_PROTOCOL) = Some Version_CURRENT_PROTOCOL.
Proof. destruct P as [? [] ? ?]; repeat split. Qed.

Lemma empty_fits tid : (length tid <= 512)%nat ->
  serializable (Object_DICT (empty_dict tid)) /\ ints_pass erange (Object_DICT (empty_dict tid)) /\
  Z.of_nat (length (encode_dict (empty_dict tid))) <= DHTMessage_MAX_SIZE.
Proof.
  intros Ht. split; [by serializable_dict|]. split; [by passing_dict|].
  unfold encode_dict, empty_dict. cbn [encode flat_map]. rewrite !length_app.
  pose proof (length_encode_string tid). pose proof (length_print_int64 Version_CURRENT_PROTOCOL).
  change (length (encode_string CJDHTConstants_PROTOCOL)) with 3%nat. change (length (encode_string CJDHTConstants_TXID)) with 6%nat.
  change (length (chars "d")) with 1%nat. change (length (chars "e")) with 1%nat. change (length (chars "i")) with 1%nat.
  unfold DHTMessage_MAX_SIZE. cbn [length]. lia.
Qed.

(** *** The list of nodes *)

(** A label by which who asks can use the way that is [p] for this node: as wide
    as the wider of the label and its own, and otherwise the same way; if this
    fits into 64 bits and does not begin with the interface that is the switch
    itself, whose number has one width only. *)
Definition label_for (p asker label : Z) : Prop :=
  let bits := NumberCompress_bitsUsedForLabel in
  p * 2 ^ Z.max 0 (bits asker - bits p) < 2 ^ 64 -> NumberCompress_getDecompressed p (bits p) <> 1 ->
  bits label = Z.max (bits p) (bits asker) /\
  NumberCompress_getDecompressed label (bits label) = NumberCompress_getDecompressed p (bits p) /\
  label >> bits label = p >> bits p.

Lemma getLabelFor_label_for p asker : is_label p -> label_for p asker (LabelSplicer_getLabelFor p asker).
Proof. intros Hp Hfit Hn. by apply LabelSplicer_getLabelFor_spec. Qed.

Lemma parse_ext (m m' : mem) : (forall x, 0 <= x < 40 -> m x = m' x) -> Address_parse m = Address_parse m'.
Proof.
  intros H. unfold Address_parse, Address_KEY_SIZE. f_equal.
  - apply read_ext. intros i Hi. apply H. lia.
  - f_equal. apply load_read, read_ext. intros i Hi. apply H. lia.
Qed.

Lemma listed_at chunks j chunk : Forall (fun c => length c = 40%nat) chunks -> chunks !! j = Some chunk ->
  listed (concat chunks) (40 * Z.of_nat j) = Address_parse (of_list chunk).
Proof.
  intros Hc Hj. unfold listed. apply parse_ext. intros x Hx. revert j Hj. induction Hc as [|c chunks Hl Hc IH]; intros j Hj; [done|].
  cbn [concat]. unfold of_list in *. destruct j as [|j]; cbn in Hj.
  - injection Hj as ->. bcase; try lia. rewrite app_nth1 by lia. f_equal; lia.
  - rewrite <-(IH j Hj). bcase; try lia. rewrite app_nth2 by lia. f_equal; lia.
Qed.

Lemma reply_node_length asker n : length (reply_node asker n) = 40%nat.
Proof. unfold reply_node. apply length_read. Qed.

Lemma reply_node_listed asker n : address_ok n.(address) ->
  Address_parse (of_list (reply_node asker n)) = {| ip6 := repeat 0 16; key := n.(address).(key);
    path := LabelSplicer_getLabelFor n.(address).(path) asker.(path) |}.
Proof.
  intros [H1 H2 H3]. unfold reply_node. set (a := {| ip6 := ip6 (address n) |}).
  assert (address_ok a) as Ha by (split; [done|done|by apply getLabelFor_range]).
  destruct (Address_parse_serialize scratch a Ha) as (Hp & _). transitivity (Address_parse (Address_serialize scratch a)); [|exact Hp].
  apply parse_ext. intros x Hx.
  unfold of_list. bcase; try lia. rewrite nth_read by (unfold Address_SERIALIZED_SIZE; lia). f_equal; lia.
Qed.

Lemma length_reply_nodes asker l : length (concat (map (reply_node asker) l)) = (40 * length l)%nat.
Proof.
  induction l as [|n l IH]; cbn [map concat length]; [done|]. rewrite length_app, reply_node_length, IH. lia.
Qed.

Lemma handleQuery_closest message query d dq target w r w1 s l : message.(asDict) = Some d -> query.(asDict) = Some dq ->
  Dict_getString (Some dq) (Some CJDHTConstants_TARGET) = Some target -> length target = 16%nat ->
  addNode query.(dht_address) 1 (query_version dq) w = Some (r, w1) ->
  NodeStore_getClosestNodes (the_table w1) (stack_address target) (Some query.(dht_address)) (RouterModule_K + 5) (query_version dq) = (s, l) ->
  (3 <= fuel)%nat -> Forall (fun i => 0 <= (s.(store_nodes) i).(node_version) < UINT32_MAX) l -> (length l <= 13)%nat ->
  exists d', handleQuery message query w = Some ((0, with_dict message d'), with_router (set_nodeStore s) w1) /\
    (l = [] -> d' = d) /\
    (l <> [] -> exists versions, VersionList_parse versions = Some (map (fun i => (s.(store_nodes) i).(node_version)) l) /\
      (length versions <= 53)%nat /\
      d' = fst (Dict_putString (fst (Dict_putString d (Some CJDHTConstants_NODES)
             (Some (concat (map (fun i => reply_node query.(dht_address) (s.(store_nodes) i)) l)))))
             (Some CJDHTConstants_NODE_PROTOCOLS) (Some versions))).
Proof.
  intros Hd Hdq Ht Hl Ha Ec Hf Hv Hlen. unfold handleQuery. rewrite Hdq. fold (query_version dq).
  rewrite run_bind, Ha, run_bind, Hd. cbn [lift option_map]. rewrite Ht, Hl. cbn [Nat.eqb].
  rewrite run_bind. cbn [the_nodeStore gets]. fold (the_table w1). rewrite Ec, run_bind. cbn [put_nodeStore modify].
  assert ((length l = 0)%nat -> l = []) as Hnil by (destruct l; done).
  destruct (Z.ltb_spec 0 (Z.of_nat (length l))) as [Hpos|Hz]; cbn [negb].
  2: { exists d. split; [|split; [done|intros Hne; destruct Hne; apply Hnil; lia]]. destruct message. cbn in Hd. by subst. }
  cbv zeta. pose proof (written_versions fuel scratch (map node_version (map (store_nodes s) l))) as Hw. rewrite !length_map in Hw.
  assert (List.Forall (fun v => 0 <= v < UINT32_MAX) (map node_version (map (store_nodes s) l))) as Hv'.
  { apply List.Forall_forall. intros v (x & <- & (i & <- & Hi)%in_map_iff)%in_map_iff. rewrite List.Forall_forall in Hv. by apply Hv. }
  destruct (stringify_defined fuel scratch _ Hf Hv') as (versions & Es). rewrite Es in Hw.
  destruct Hw as (_ & (width & Hwidth & Estr) & Hp); [|lia|done|].
  { revert Hv'. apply List.Forall_impl. intros v. lia. }
  rewrite run_bind, Es. cbn [lift option_map]. eexists. split; [reflexivity|]. split; [intros ->; cbn in Hpos; lia|]. intros _. exists versions.
  rewrite !map_map in Hp. split; [exact Hp|]. split; [|by rewrite map_map].
  rewrite Estr. pose proof (version_string_short width (map node_version (map (store_nodes s) l)) Hwidth) as H.
  rewrite !length_map in H. lia.
Qed.

(** The part of the state that a query changes. *)
Definition asked (w : World) (addr : Address) (d : Dict) : option World :=
  option_map snd (addNode addr 1 (query_version d) w).

(** C25: a search query is answered with one message to who asked, which the
    asker's router reads as: the query's transaction id, this router's version,
    and a list of nodes of the table (with who asks in it), each by its key with a
    label that who asks can use, and their versions in the same order; or without
    a list when there is no node to tell. The nodes are at most thirteen,
    different entries of the table, none behind the interface that who asks is
    behind, none of a version that does not get along with the asker's, and none
    whose prefix is the complement of the target's. There are some if the table has
    any like that, and all of them if there is room and no two have the same
    address; and if the node with the target's address is among them, it is the
    last. Otherwise nothing is said of which are chosen or in which order: neither
    is it those nearest to the target, nor are nodes left out that are further
    away from it than this node, against RouterModule.c and NodeStore.h. *)
Theorem RouterModule_answers (w : World) content addr d q target tid :
  rand_ok -> (3 <= fuel)%nat -> ready w ->
  parsed_as content d -> sender_ok addr -> query_ok d ->
  Dict_getString (Some d) (Some CJDHTConstants_QUERY) = Some q ->
  Dict_getString (Some d) (Some CJDHTConstants_TARGET) = Some target -> length target = 16%nat ->
  Dict_getString (Some d) (Some CJDHTConstants_TXID) = Some tid -> (length tid <= 512)%nat ->
  exists w1 w2 m found d', asked w addr d = Some w1 /\ incomingDHT content addr w = Some (tt, w2) /\
    w2.(out) = w.(out) ++ [ToNetwork m] /\ m.(dht_address) = addr /\
    answers (the_table w1) (stack_address target) addr 13 (query_version d) found /\
    parsed_as (read m.(dht_bytes) 0 m.(dht_length)) d' /\
    Dict_getString (Some d') (Some CJDHTConstants_TXID) = Some tid /\
    Dict_getInt (Some d') (Some CJDHTConstants_PROTOCOL) = Some Version_CURRENT_PROTOCOL /\
    (found = [] -> Dict_getString (Some d') (Some CJDHTConstants_NODES) = None) /\
    (found <> [] -> exists nodes versions,
      Dict_getString (Some d') (Some CJDHTConstants_NODES) = Some nodes /\ length nodes = (40 * length found)%nat /\
      (forall j i, found !! j = Some i -> exists label, label_for (npath (the_table w1) i) addr.(path) label /\
        listed nodes (40 * Z.of_nat j) =
          {| ip6 := repeat 0 16; key := ((the_table w1).(store_nodes) i).(address).(Address.key); path := label |}) /\
      Dict_getString (Some d') (Some CJDHTConstants_NODE_PROTOCOLS) = Some versions /\
      VersionList_parse versions = Some (map (fun i => ((the_table w1).(headers) i).(version)) found)).
Proof.
  intros Hrand Hfuel Hready Hd Hs Hquery Hq Ht Hlt Htid Hltid.
  destruct (ready_ok w Hrand Hfuel Hready) as (n & Hw & Hn).
  destruct (proj1 (wp_run _ _ _) (run_addNode None n addr 1 (query_version d) w (fun _ w' => router_ok None (n - 1) w') Hw ltac:(lia)
    (proj1 Hs) (conj (query_version_ok Hfuel d Hquery) (proj2 Hs)) (fun _ _ H _ _ => H))) as (r1 & w1 & E1 & Hw1).
  pose proof (keeps_addNode _ _ _ _ _ _ E1) as [= _ _ Ho _]. rewrite <-Ho.
  pose proof (getClosestNodes_spec (the_table w1) (stack_address target) (Some addr) (RouterModule_K + 5) (query_version d)) as Hc.
  assert (length (stack_address target).(ip6) = 16%nat) as Hlst by (cbn; rewrite take_ge; unfold Address_SEARCH_TARGET_SIZE; lia).
  pose proof (getClosestNodes_answers (the_table w1) (stack_address target) addr (RouterModule_K + 5) (query_version d) (rk_table _ _ _ Hw1) ltac:(done) Hlst) as Hans.
  destruct (NodeStore_getClosestNodes _ _ _ _ _) as [t l] eqn:Ec. destruct Hc as (Hsame & _ & Hl). cbn [snd] in Hans. change (RouterModule_K + 5) with 13 in Hans.
  pose proof (ans_count _ _ _ _ _ _ Hans) as Hcount. exists w1. rewrite (incoming_query content addr d q w Hd Hq), reply_sent, run_bind.
  cbn [asDict with_dict arrived]. rewrite Htid. unfold RouterModule_handleOutgoing at 1. rewrite run_bind.
  set (query := with_dict (arrived content addr) d). cbn [lift option_map asDict with_dict]. cbv zeta. cbn [replyTo with_dict reply_to].
  match goal with |- context [handleQuery ?m query w] => set (message := m);
    destruct (handleQuery_closest message query _ d target w r1 w1 t l eq_refl eq_refl Ht Hlt E1 Ec Hfuel) as (d' & Eq & Hnone & Hd') end.
  { apply List.Forall_forall. intros i Hi%list_elem_of_In. destruct (Hl i Hi) as [Hir ->]. cbn. apply (rk_entries _ _ _ Hw1 i Hir). }
  { lia. }
  set (m := dht_written (with_dict message d') d'). exists (emitted (ToNetwork m) (with_router (set_nodeStore t) w1)), m, l, (parsed_dict d').
  rewrite Eq. cbn [negb Z.eqb]. rewrite run_bind, (serialization_out _ d') by done. cbn [negb Z.eqb].
  split; [unfold asked; by rewrite E1|]. split; [reflexivity|]. split; [reflexivity|]. split; [reflexivity|]. split; [exact Hans|].
  change (asDict message) with (Some (fst (Dict_putInt (fst (Dict_putString Dict_new (Some CJDHTConstants_TXID) (Some tid)))
    CJDHTConstants_PROTOCOL Version_CURRENT_PROTOCOL))) in Hnone, Hd'. destruct (decide (l = [])) as [El|Hne].
  - specialize (Hnone El). rewrite empty_built in Hnone. subst d'. destruct (empty_fits tid Hltid) as (F1 & F2 & F3).
    destruct (wire (with_dict message (empty_dict tid)) _ F1 F2 F3) as (Er' & Hparsed). fold m in Er'. rewrite Er'.
    destruct (empty_found tid) as (A1 & A2 & A3). split; [exact Hparsed|]. split; [exact A2|]. split; [exact A3|]. split; [intros _; exact A1|]. intros Hne. destruct (Hne El).
  - destruct (Hd' Hne) as (versions & Hp & Hlv & Ed). change (query.(dht_address)) with addr in Ed.
    set (nodes := concat (map (fun i => reply_node addr (t.(store_nodes) i)) l)) in Ed.
    assert (length nodes = (40 * length l)%nat) as Hlen by (unfold nodes; rewrite <-(map_map (store_nodes t)), length_reply_nodes, length_map; done).
    rewrite answer_built in Ed. subst d'. destruct (answer_fits nodes versions tid) as (F1 & F2 & F3); [lia|done|done|].
    destruct (wire (with_dict message (answer_dict nodes versions tid)) _ F1 F2 F3) as (Er' & Hparsed). fold m in Er'. rewrite Er'.
    destruct (answer_found nodes versions tid) as (A1 & A2 & A3 & A4). split; [exact Hparsed|]. split; [exact A3|]. split; [exact A4|]. split; [intros El; destruct (Hne El)|]. intros _.
    exists nodes, versions. split; [exact A1|]. split; [exact Hlen|]. split.
    + intros j i Hj. assert (i ∈ l) as Hi by (by apply list_elem_of_lookup_2 in Hj). destruct (Hl i Hi) as [Hir Et].
      pose proof (ok_entry _ (rk_table _ _ _ Hw1) i Hir) as [He1 _ _ _ He5 He6 _ _]. exists (LabelSplicer_getLabelFor (npath (the_table w1) i) addr.(path)).
      split. { apply getLabelFor_label_for. unfold is_label, label_ok, npath in *. lia. }
      unfold nodes. rewrite (listed_at _ j (reply_node addr (t.(store_nodes) i))).
      * rewrite Et. apply (reply_node_listed addr (fresh_node (the_table w1) i)). cbn. split; [exact He6|exact He5|unfold label_ok, npath in *; lia].
      * apply Forall_map, Forall_true. intros ?. apply reply_node_length.
      * rewrite list_lookup_fmap, Hj. done.
    + split; [exact A2|]. rewrite Hp. f_equal. apply map_ext_in. intros i Hi%list_elem_of_In. destruct (Hl i Hi) as [_ ->]. done.
Qed.

(** ** A ping and its answer *)
Definition ping_dict (index : Z) : Dict :=
  [(CJDHTConstants_PROTOCOL, Object_INTEGER Version_CURRENT_PROTOCOL); (CJDHTConstants_QUERY, Object_STRING CJDHTConstants_QUERY_PING);
   (CJDHTConstants_TXID, Object_STRING [112; index])].

Definition pong_dict (git tid : String) : Dict :=
  [(CJDHTConstants_PROTOCOL, Object_INTEGER Version_CURRENT_PROTOCOL); (CJDHTConstants_TXID, Object_STRING tid);
   (CJDHTConstants_VERSION, Object_STRING git)].

Lemma ping_built index :
  let d := fst (Dict_putString Dict_new (Some CJDHTConstants_TXID) (Some [112; index])) in
  let d := fst (Dict_putString d (Some CJDHTConstants_QUERY) (Some CJDHTConstants_QUERY_PING)) in
  fst (Dict_putInt d CJDHTConstants_PROTOCOL Version_CURRENT_PROTOCOL) = ping_dict index.
Proof. destruct P as [? [] ? ?]; reflexivity. Qed.

Lemma pong_built git tid :
  let d := fst (Dict_putString Dict_new (Some CJDHTConstants_TXID) (Some tid)) in
  let d := fst (Dict_putInt d CJDHTConstants_PROTOCOL Version_CURRENT_PROTOCOL) in
  fst (Dict_putString d (Some CJDHTConstants_VERSION) (Some git)) = pong_dict git tid.
Proof. destruct P as [? [] ? ?]; reflexivity. Qed.

Lemma ping_found index :
  let d := Some (parsed_dict (ping_dict index)) in
  Dict_getString d (Some CJDHTConstants_QUERY) = Some CJDHTConstants_QUERY_PING /\
  Dict_getString d (Some CJDHTConstants_TARGET) = None /\
  Dict_getString d (Some CJDHTConstants_TXID) = Some [112; index] /\
  Dict_getInt d (Some CJDHTConstants_PROTOCOL) = Some Version_CURRENT_PROTOCOL.
Proof. destruct P as [? [] ? ?]; repeat split. Qed.

Lemma pong_found git tid :
  let d := Some (parsed_dict (pong_dict git tid)) in
  Dict_getString d (Some CJDHTConstants_QUERY) = None /\
  Dict_getString d (Some CJDHTConstants_NODES) = None /\
  Dict_getString d (Some CJDHTConstants_TXID) = Some tid /\
  Dict_getString d (Some CJDHTConstants_VERSION) = Some git /\
  Dict_getInt d (Some CJDHTConstants_PROTOCOL) = Some Version_CURRENT_PROTOCOL.
Proof. destruct P as [? [] ? ?]; repeat split. Qed.

Lemma ping_fits index : serializable (Object_DICT (ping_dict index)) /\ ints_pass erange (Object_DICT (ping_dict index)) /\
  Z.of_nat (length (encode_dict (ping_dict index))) <= DHTMessage_MAX_SIZE.
Proof. split; [by serializable_dict|]. split; [by passing_dict|done]. Qed.

Lemma pong_fits git tid : (length git <= 512)%nat -> (length tid <= 512)%nat ->
  serializable (Object_DICT (pong_dict git tid)) /\ ints_pass erange (Object_DICT (pong_dict git tid)) /\
  Z.of_nat (length (encode_dict (pong_dict git tid))) <= DHTMessage_MAX_SIZE.
Proof.
  intros Hg Ht. split; [by serializable_dict|]. split; [by passing_dict|].
  unfold encode_dict, pong_dict. cbn [encode flat_map]. rewrite !length_app.
  pose proof (length_encode_string git). pose proof (length_encode_string tid). pose proof (length_print_int64 Version_CURRENT_PROTOCOL).
  change (length (encode_string CJDHTConstants_PROTOCOL)) with 3%nat. change (length (encode_string CJDHTConstants_TXID)) with 6%nat.
  change (length (encode_string CJDHTConstants_VERSION)) with 3%nat.
  change (length (chars "d")) with 1%nat. change (length (chars "e")) with 1%nat. change (length (chars "i")) with 1%nat.
  unfold DHTMessage_MAX_SIZE. cbn [length]. lia.
Qed.

(** What is on the wire. *)
Definition content_of (m : DHTMessage) : list Z := read m.(dht_bytes) 0 m.(dht_length).

Lemma free_ping_slot r i : free_router_ping r = inr i -> 0 <= i < RouterModule_MAX_CONCURRENT_PINGS.
Proof.
  unfold free_router_ping. intros H. pose proof (search_spec (Z.to_nat RouterModule_MAX_CONCURRENT_PINGS) 0
    (fun i => bool_decide (r.(router_pings) i = None)) (fun i => i)) as Hs. cbv beta in Hs.
  assert (for_until (Z.to_nat RouterModule_MAX_CONCURRENT_PINGS) 0
    (fun i _ => if bool_decide (r.(router_pings) i = None) then inr i else inl tt) tt = inr i) as H'.
  { rewrite <-H. apply for_until_ext. intros j []. by destruct (router_pings r j). }
  rewrite H' in Hs. destruct Hs as (i' & Hi & _ & -> & _). unfold RouterModule_MAX_CONCURRENT_PINGS in *. lia.
Qed.

(** The ping goes out. *)
Lemma pingNode_sends node ms txid w i : free_router_ping w.(router) = inr i ->
  exists w1 m p, RouterModule_pingNode node ms txid w = Some (0, w1) /\ w1.(out) = w.(out) ++ [ToNetwork m] /\
    m.(dht_address) = ((the_table w).(store_nodes) node).(address) /\ content_of m = encode_dict (ping_dict i) /\
    w1.(router).(router_pings) i = Some p /\
    p.(ping_txid) = txid /\ p.(isFromAdmin) = bool_decide (txid <> None) /\ p.(ping_timeSent) = u32 w.(now).
Proof.
  intros Hi. pose proof (free_ping_slot _ _ Hi) as Hr. unfold RouterModule_MAX_CONCURRENT_PINGS in Hr.
  unfold RouterModule_pingNode. rewrite run_bind. cbn [gets id]. rewrite Hi. cbv zeta. rewrite run_bind. cbn [put_ping modify].
  rewrite run_bind. unfold node_at_index. rewrite run_bind. cbn [the_nodeStore gets mret M_ret]. rewrite run_bind.
  unfold sendRequest. cbv zeta. erewrite send_request by reflexivity. rewrite u8_small by lia. rewrite ping_built.
  destruct (ping_fits i) as (F1 & F2 & F3). eexists _, _, _. split; [reflexivity|]. split; [reflexivity|].
  split; [reflexivity|]. split; [refine (proj1 (wire _ _ F1 F2 F3))|]. split; [cbn; rewrite Z.eqb_refl; reflexivity|]. done.
Qed.

Lemma current_sane : 0 <= Version_CURRENT_PROTOCOL < UINT32_MAX.
Proof. unfold UINT32_MAX, Version_CURRENT_PROTOCOL. lia. Qed.

(** Another node answers it. *)
Lemma query_answered n w addr i : router_ok None n w -> 1 <= n -> (3 <= fuel)%nat -> sender_ok addr ->
  (length w.(router).(gitVersion) <= 512)%nat ->
  exists w1 m, incomingDHT (encode_dict (ping_dict i)) addr w = Some (tt, w1) /\ w1.(out) = w.(out) ++ [ToNetwork m] /\
    m.(dht_address) = addr /\ content_of m = encode_dict (pong_dict w.(router).(gitVersion) [112; i]).
Proof.
  intros Hw Hn Hfuel Hs Hg. destruct (ping_fits i) as (F1 & F2 & F3).
  destruct (wire (arrived [] addr) _ F1 F2 F3) as [_ Hd]. destruct (ping_found i) as (A1 & A2 & A3 & A4).
  set (d := parsed_dict (ping_dict i)) in *.
  assert (query_version d = Version_CURRENT_PROTOCOL) as Hv by (unfold query_version; rewrite A4; reflexivity).
  assert (entry_sane addr (query_version d)) as He by (rewrite Hv; exact (conj current_sane (proj2 Hs))).
  destruct (proj1 (wp_run _ _ _) (run_addNode None n addr 1 (query_version d) w (fun _ _ => True) Hw Hn (proj1 Hs) He (fun _ _ _ _ _ => I)))
    as (r1 & w1 & E1 & _).
  pose proof (keeps_addNode _ _ _ _ _ _ E1) as [= _ _ Ho _]. pose proof (addNode_keeps_git _ _ _ _ _ _ E1) as Hgit. cbv beta in Hgit.
  rewrite (incoming_query _ addr d _ w Hd A1), reply_sent, run_bind. cbn [asDict with_dict arrived]. rewrite A3.
  unfold RouterModule_handleOutgoing at 1. rewrite run_bind.
  set (query := with_dict (arrived _ addr) d). cbn [lift option_map asDict with_dict]. cbv zeta. cbn [replyTo with_dict reply_to].
  unfold handleQuery. rewrite run_bind. change (asDict query) with (Some d). fold (query_version d).
  change (query.(dht_address)) with addr. rewrite E1, run_bind. cbn [lift option_map asDict with_dict]. rewrite A2.
  rewrite run_bind. cbn [gets id mret M_ret negb Z.eqb]. rewrite Hgit, pong_built.
  destruct (pong_fits (gitVersion (router w)) [112; i] Hg ltac:(cbn; lia)) as (G1 & G2 & G3).
  rewrite run_bind, (serialization_out _ (pong_dict (gitVersion (router w)) [112; i])) by done. cbn [negb Z.eqb].
  eexists _, _. split; [reflexivity|]. split; [cbn; rewrite Ho; reflexivity|]. split; [reflexivity|].
  refine (proj1 (wire _ _ G1 G2 G3)).
Qed.

(** The answer arrives. *)
Lemma pong_handled n message w git i p : rand_ok -> router_ok None n w -> 40 <= n -> sender_ok message.(dht_address) ->
  not_ours w message.(dht_address) -> known w message.(dht_address) ->
  message.(asDict) = Some (parsed_dict (pong_dict git [112; i])) ->
  0 <= i < RouterModule_MAX_CONCURRENT_PINGS -> w.(router).(router_pings) i = Some p ->
  exists w1, handleReply send_dht message w = Some (0, w1) /\
    w1.(router).(router_pings) i = None /\
    w1.(out) = w.(out) ++ (if p.(isFromAdmin)
      then [ToAdmin (ping_response false (u32 (w.(now) - p.(ping_timeSent))) (Some git)) p.(ping_txid)] else []).
Proof.
  intros Hrand Hw Hn Hs Hours Hk Hd Hi Hp. destruct (pong_found git [112; i]) as (A1 & A2 & A3 & A4 & A5).
  set (d := parsed_dict (pong_dict git [112; i])) in *.
  destruct (getNode_known w _ (rk_table _ _ _ Hw) Hk) as (k & w1 & E1 & Hsame & Hkey).
  destruct (proj1 (wp_run _ _ _) (run_getNode None n (path (dht_address message)) w (fun _ w' => router_ok None n w') Hrand Hw
    (fun _ _ H _ _ _ _ => H))) as (? & ? & E1' & Hw1). rewrite E1 in E1'. injection E1' as <- <-.
  pose proof (keeps_getNode _ _ _ _ E1) as [= _ T1 O1 P1].
  unfold handleReply. rewrite run_bind, E1, run_bind. unfold node_at_index at 1. rewrite !run_bind.
  cbn [the_nodeStore gets mret M_ret]. fold (the_table w1). rewrite Hkey, (proj2 (memcmp_0 _ _ eq_refl) eq_refl). cbn [negb Z.eqb].
  rewrite Hd, A5. change (u32 (default 0 (Some Version_CURRENT_PROTOCOL))) with Version_CURRENT_PROTOCOL. cbv zeta.
  pose proof (run_addNode None n (dht_address message) 2 Version_CURRENT_PROTOCOL w1
    (fun r w' => router_ok None (n - 1) w' /\ exists k', r = Some k' /\ 0 <= k' < (the_table w').(size)) Hw1 ltac:(lia) (proj1 Hs)
    (conj current_sane (proj2 Hs))) as Ha.
  destruct (proj1 (wp_run _ _ _) (Ha ltac:(clear Ha; intros [k'|] w' Hw' _ Hr; [by eauto|exfalso; destruct Hr as [Hr|[Hr|Hr]];
    [done|apply Hours; rewrite Hr; f_equal; exact (same_self _ _ Hsame)|lia]]))) as (r & w2 & E2 & Hw2 & k' & -> & Hk').
  pose proof (keeps_addNode _ _ _ _ _ _ E2) as [= _ T2 O2 P2].
  rewrite run_bind, E2, bool_decide_eq_false_2 by done. rewrite A3, A2. cbn [length nth Nat.eqb Z.eqb Pos.eqb andb].
  rewrite run_bind. unfold ping_reply. rewrite run_bind. cbn [gets id]. rewrite (proj2 (Z.ltb_lt _ _)) by apply Hi.
  rewrite P2, P1, Hp, T2, T1, Hd, A4. cbv zeta. set (lag := u32 (now w - ping_timeSent p)).
  destruct (proj1 (wp_run _ _ _) (run_responseFromNode None (n - 1) (Some k') lag w2 (fun _ _ => True) Hw2
    ltac:(by intros ? [= <-]) (fun _ _ _ => I))) as ([] & w3 & E3 & _).
  pose proof (keeps_response _ _ _ _ _ E3) as [= _ _ O3 _]. rewrite run_bind, E3, run_bind.
  destruct (isFromAdmin p); cbn [mret M_ret pingResponse emit modify put_ping]; eexists; (split; [reflexivity|]);
    (split; [cbn; by rewrite Z.eqb_refl|]); cbn; rewrite O3, O2, O1; [done|by rewrite app_nil_r].
Qed.

(** C6: a ping makes the round. Node A pings a node from its table in a free
    slot [i]; node B, which sees A at the address [atA], answers what A sent; and
    when the answer reaches A as it is then, A', where the ping is still waiting
    and B is in the table as [atB], the slot is free again, and who asked for the
    ping is told the milliseconds that passed and the version of B's program. *)
Theorem RouterModule_ping_roundtrip (A B A' : World) (node ms i : Z) (txid : option String) (atA atB : Address) :
  rand_ok -> (3 <= fuel)%nat -> ready B -> ready A' ->
  free_router_ping A.(router) = inr i ->
  sender_ok atA -> (length B.(router).(gitVersion) <= 512)%nat ->
  sender_ok atB -> not_ours A' atB -> known A' atB ->
  exists A1 B1 ping pong p,
    RouterModule_pingNode node ms txid A = Some (0, A1) /\ A1.(out) = A.(out) ++ [ToNetwork ping] /\
    ping.(dht_address) = ((the_table A).(store_nodes) node).(address) /\ A1.(router).(router_pings) i = Some p /\
    incomingDHT (content_of ping) atA B = Some (tt, B1) /\ B1.(out) = B.(out) ++ [ToNetwork pong] /\ pong.(dht_address) = atA /\
    (A'.(router).(router_pings) i = Some p -> exists A2,
      incomingDHT (content_of pong) atB A' = Some (tt, A2) /\ A2.(router).(router_pings) i = None /\
      A2.(out) = A'.(out) ++
        (if txid is Some _ then [ToAdmin (ping_response false (u32 (A'.(now) - u32 A.(now))) (Some B.(router).(gitVersion))) txid] else [])).
Proof.
  intros Hrand Hfuel HB HA' Hi HatA Hg HatB Hours Hk.
  destruct (ready_ok B Hrand Hfuel HB) as (nB & HwB & HnB). destruct (ready_ok A' Hrand Hfuel HA') as (nA & HwA & HnA).
  destruct (pingNode_sends node ms txid A i Hi) as (A1 & ping & p & E1 & O1 & D1 & C1 & P1 & Pt & Pa & Ps).
  destruct (query_answered nB B atA i HwB ltac:(lia) Hfuel HatA Hg) as (B1 & pong & E2 & O2 & D2 & C2).
  exists A1, B1, ping, pong, p. rewrite C1. do 7 (split; [done|]). intros Hp. rewrite C2.
  set (git := gitVersion (router B)) in *. destruct (pong_fits git [112; i] Hg ltac:(cbn; lia)) as (F1 & F2 & F3).
  destruct (wire (arrived [] atB) _ F1 F2 F3) as [_ Hd]. destruct (pong_found git [112; i]) as (A1' & _).
  set (d := parsed_dict (pong_dict git [112; i])) in *.
  set (content := encode_dict (pong_dict git [112; i])) in *.
  destruct (pong_handled nA (with_dict (arrived content atB) d) A' git i p Hrand HwA HnA HatB Hours Hk eq_refl
    (free_ping_slot _ _ Hi) Hp) as (A2 & E3 & P3 & O3).
  exists A2. split; [|split; [exact P3|]].
  - rewrite (incoming_parsed content atB d A' Hd), run_bind. unfold RouterModule_handleIncoming.
    change (asDict (with_dict (arrived content atB) d)) with (Some d). rewrite A1', bool_decide_eq_true_2 by done.
    rewrite run_bind, E3. cbn [mret M_ret negb Z.eqb]. rewrite run_bind. unfold ReplyModule_handleIncoming.
    change (asDict (with_dict (arrived content atB) d)) with (Some d). rewrite A1', bool_decide_eq_true_2 by done. done.
  - rewrite O3, Pt, Pa, Ps. destruct txid; [rewrite bool_decide_eq_true_2 by done|rewrite bool_decide_eq_false_2 by auto]; done.
Qed.
End exchange.

(** ** Examples *)
#[local] Existing Instance x86.
#[local] Existing Instance demo_env.

Lemma demo_pinged_run : option_map (fun '(r, w) => (r, ((the_table w).(thisNodeAddress).(ip6), (the_table w).(size), npath (the_table w) 0,
    ((the_table w).(store_nodes) 0).(address).(Address.key))))
  (w ← demo_added; RouterModule_pingNode 0 0 (Some (chars "tx")) w) = Some (0, ((demo_peer 5 1).(ip6), 1, 0x13, repeat 6 32)).
Proof. vm_compute. reflexivity. Qed.

Lemma demo_free_slot : option_map (fun w => (free_router_ping w.(router), (the_table w).(size))) demo_added = Some (inr 0, 1).
Proof. vm_compute. reflexivity. Qed.

Lemma demo_git : option_map (fun w => length w.(router).(gitVersion)) (demo_start 6 500000) = Some 20%nat.
Proof. vm_compute. reflexivity. Qed.

(** Node 5 pings node 6. *)
Lemma RouterModule_ping_roundtrip_witness : exists A B A1 B1 A2 ping pong,
  demo_added = Some A /\ demo_start 6 500000 = Some B /\ RouterModule_pingNode 0 0 (Some (chars "tx")) A = Some (0, A1) /\
  incomingDHT (content_of ping) (demo_peer 5 0x15) B = Some (tt, B1) /\
  incomingDHT (content_of pong) (demo_peer 6 0x13) A1 = Some (tt, A2) /\ A2.(router).(router_pings) 0 = None.
Proof.
  destruct (bind_some _ _ _ _ demo_pinged_run) as (A & [r A1] & EA & EA1 & H1). injection H1 as -> H1 H2 H3 H4.
  pose proof demo_free_slot as Hf. rewrite EA in Hf. injection Hf as Hf Hsize.
  pose proof demo_git as Hg. destruct (demo_start 6 500000) as [B|] eqn:EB; [|done]. injection Hg as Hg.
  assert (ready A1) as HA1.
  { apply (demo_added_step A (PingNode 0 0 (Some (chars "tx")))); [exact EA|split; [lia|by rewrite Hsize]|].
    cbn [do_router_op]. rewrite run_bind, EA1. reflexivity. }
  destruct (RouterModule_ping_roundtrip A B A1 0 0 0 (Some (chars "tx")) (demo_peer 5 0x15) (demo_peer 6 0x13))
    as (A1' & B1 & ping & pong & p & E1 & _ & _ & P1 & E2 & _ & _ & Hlast).
  - apply demo_env_ok.
  - apply demo_env_ok.
  - exact (demo_start_ready 6 500000 B EB).
  - exact HA1.
  - exact Hf.
  - apply demo_peer_sane; [auto|lia].
  - rewrite Hg. lia.
  - apply demo_peer_sane; [auto|lia].
  - unfold not_ours. rewrite H1. vm_compute. done.
  - exists 0. rewrite H2. split; [lia|]. exact (conj H3 H4).
  - rewrite EA1 in E1. injection E1 as <-. destruct (Hlast P1) as (A2 & E3 & P3 & _).
    exists A, B, A1, B1, A2, ping, pong. exact (conj EA (conj eq_refl (conj EA1 (conj E2 (conj E3 P3))))).
Defined.

(** Node 7 asks node 5 for nodes, and is told of node 6. *)
Lemma demo_asked_run : option_map (fun w1 => let s := the_table w1 in
    (s.(size), (s.(headers) 0).(switchIndex), (s.(headers) 1).(switchIndex), Version_isCompatible (s.(headers) 0).(version) 2,
     (s.(headers) 0).(addressPrefix) .^ fst (Address_getPrefix (stack_address (repeat 7 16))) <? UINT32_MAX,
     npath s 0, (s.(store_nodes) 0).(address).(Address.key)))
  (w ← demo_added; asked w (demo_peer 7 0x15) demo_find_dict) = Some (2, 0, 2, true, true, 0x13, repeat 6 32).
Proof. vm_compute. reflexivity. Qed.

Lemma RouterModule_answers_witness : exists w w2 m d' nodes label, demo_added = Some w /\
  incomingDHT demo_find (demo_peer 7 0x15) w = Some (tt, w2) /\ w2.(out) = w.(out) ++ [ToNetwork m] /\ m.(dht_address) = demo_peer 7 0x15 /\
  parsed_as (read m.(dht_bytes) 0 m.(dht_length)) d' /\ Dict_getString (Some d') (Some CJDHTConstants_NODES) = Some nodes /\
  listed nodes 0 = {| ip6 := repeat 0 16; key := repeat 6 32; path := label |} /\ label_for 0x13 0x15 label.
Proof.
  destruct (bind_some _ _ _ _ demo_asked_run) as (w & w1' & Ew & Ew1 & H). injection H as H1 H2 H3 H4 H5 H6 H7.
  destruct (RouterModule_answers w demo_find (demo_peer 7 0x15) demo_find_dict (chars "fn") (repeat 7 16) (chars "sr"))
    as (w1 & w2 & m & found & d' & E1 & E2 & Ho & Hm & Hans & Hd & _ & _ & _ & Hlist).
  - apply demo_env_ok.
  - apply demo_env_ok.
  - exact (demo_added_ready w Ew).
  - apply parsed_if. vm_compute. reflexivity.
  - split; [split|done]; try (unfold label_ok; cbn; lia); vm_compute; reflexivity.
  - intros v [= <-]. vm_compute. done.
  - reflexivity.
  - reflexivity.
  - reflexivity.
  - reflexivity.
  - cbn. lia.
  - rewrite E1 in Ew1. injection Ew1 as <-.
    assert (getSwitchIndex (demo_peer 7 0x15) = 2 /\ query_version demo_find_dict = 2) as [Eg Ev] by (split; vm_compute; reflexivity).
    destruct Hans as [_ _ Htold Hsome _ _]. unfold tellable in Htold, Hsome. rewrite Eg, Ev in Htold, Hsome.
    assert (found <> []) as Hne.
    { apply (Hsome 0). rewrite H1, H2, H4. split; [lia|]. split; [lia|]. split; [reflexivity|]. apply Z.ltb_lt, H5. }
    destruct (Hlist Hne) as (nodes & versions & Hn & _ & Hall & _). destruct found as [|i found]; [destruct (Hne eq_refl)|].
    destruct (Hall 0%nat i eq_refl) as (label & Hlab & Hl).
    assert (i = 0) as ->.
    { destruct (Htold i ltac:(by left)) as (Hi & Hsw & _). rewrite H1 in Hi. destruct (decide (i = 1)) as [->|]; [congruence|lia]. }
    rewrite H6 in Hlab. rewrite H7 in Hl. exists w, w2, m, d', nodes, label.
    exact (conj Ew (conj E2 (conj Ho (conj Hm (conj Hd (conj Hn (conj Hl Hlab))))))).
Defined.
