(* ===== verification/Pinger.v ===== *)
(** * Pings in flight (util/Pinger.c)

    A table of up to 256 pings that wait for an answer. The data of a ping is
    prefixed with its slot; an answer that starts with the number of a slot in
    use ends that ping, as does its timer. The callbacks belong to the user of
    the pinger: [onResponse] becomes a value of type [Response], in the order of
    the calls, and [C] is what the [context] pointer points to. The clock is an
    argument; a timer runs at the first tick of the event loop at or after its
    time (util/events/Timeout.h), and is gone when its ping's allocator is freed. *)
From S2P Require Import Prelude Memory Benc.

Definition Pinger_MAX_CONCURRENT_PINGS : Z := 256.

(** A String that points into a buffer; [len] is a size_t. *)
Record StringView := { sv_buffer : mem; sv_bytes : Z; sv_len : Z }.

Record Ping {C : Type} := {
  context : option C;
  timeout : Z;
  ping_data : String;
  timeSent : Z
}.
Arguments Ping : clear implicits.

Record Pinger {C : Type} := { pings : Z -> option (Ping C) }.
Arguments Pinger : clear implicits.

(** What [onResponse] is called with. *)
Record Response {C : Type} := {
  resp_data : option StringView;
  resp_milliseconds : Z;
  resp_context : option C
}.
Arguments Response : clear implicits.

Section pinger.
  Context {P : Platform} {C : Type}.

Definition set_ping (pinger : Pinger C) (i : Z) (ping : option (Ping C)) : Pinger C :=
  {| pings := fun j => if j =? i then ping else pinger.(pings) j |}.

Definition Pinger_new : Pinger C := {| pings := fun _ => None |}.

(** [slot] is the index that [selfPtr] points to. *)
Definition callback (data : option StringView) (slot : Z) (ping : Ping C) (now : Z) (pinger : Pinger C)
    : Pinger C * Response C :=
  let now := u32 now in
  (set_ping pinger slot None,
   {| resp_data := data; resp_milliseconds := u32 (now - ping.(timeSent)); resp_context := ping.(context) |}).

Definition timeoutCallback (slot : Z) (ping : Ping C) (now : Z) (pinger : Pinger C) : Pinger C * Response C :=
  callback None slot ping now pinger.

(** What [sendPing] is called with. *)
Definition Pinger_sendPing (ping : Ping C) : String * option C := (ping.(ping_data), ping.(context)).

Definition free_ping (pinger : Pinger C) : unit + Z :=
  for_until (Z.to_nat Pinger_MAX_CONCURRENT_PINGS) 0
    (fun i _ => match pinger.(pings) i with None => inr i | Some _ => inl tt end) tt.

Definition prefixed (index : Z) (data : option String) : String := store 4 index ++ default [] data.

Definition new_ping (index : Z) (data : option String) (timeoutMilliseconds now : Z) : Ping C :=
  {| context := None; timeout := now + timeoutMilliseconds; ping_data := prefixed index data; timeSent := u32 now |}.

(** The slot of the new ping, or NULL. *)
Definition Pinger_newPing (data : option String) (timeoutMilliseconds now : Z) (pinger : Pinger C)
    : Pinger C * option Z :=
  match free_ping pinger with
  | inl _ => (pinger, None)
  | inr index => (set_ping pinger index (Some (new_ping index data timeoutMilliseconds now)), Some index)
  end.

(** The caller sets the context of the ping it was given. *)
Definition with_context (ping : Ping C) (c : C) : Ping C :=
  {| context := Some c; timeout := ping.(timeout); ping_data := ping.(ping_data); timeSent := ping.(timeSent) |}.
Definition set_context (pinger : Pinger C) (i : Z) (c : C) : Pinger C :=
  set_ping pinger i (option_map (fun ping => with_context ping c) (pinger.(pings) i)).

Definition slot_of (data : StringView) : Z := load 4 data.(sv_buffer) data.(sv_bytes).
(** [data->len -= 4; data->bytes += 4]. *)
Definition after_slot (data : StringView) : StringView :=
  {| sv_buffer := data.(sv_buffer); sv_bytes := data.(sv_bytes) + 4; sv_len := u64 (data.(sv_len) - 4) |}.

Definition Pinger_pongReceived (data : StringView) (now : Z) (pinger : Pinger C) : Pinger C * option (Response C) :=
  let slot := slot_of data in
  if Pinger_MAX_CONCURRENT_PINGS <=? slot then (pinger, None)
  else
    match pinger.(pings) slot with
    | None => (pinger, None)
    | Some ping => let '(pinger, r) := callback (Some (after_slot data)) slot ping now pinger in (pinger, Some r)
    end.

(** A tick of the event loop runs the timers that are due. *)
Definition tick_slot (now i : Z) (s : Pinger C * list (Response C)) : Pinger C * list (Response C) :=
  let '(pinger, out) := s in
  match pinger.(pings) i with
  | Some ping =>
      if ping.(timeout) <=? now then let '(pinger, r) := timeoutCallback i ping now pinger in (pinger, out ++ [r])
      else (pinger, out)
  | None => (pinger, out)
  end.

Definition tick (now : Z) (pinger : Pinger C) : Pinger C * list (Response C) :=
  for_loop (Z.to_nat Pinger_MAX_CONCURRENT_PINGS) 0 (tick_slot now) (pinger, []).

(** ** Runs *)
Inductive pinger_op :=
| NewPing (data : option String) (c : C) (timeoutMilliseconds now : Z)
| Pong (data : StringView) (now : Z)
| Tick (now : Z).

Definition do_pinger_op (op : pinger_op) (pinger : Pinger C) : Pinger C * list (Response C) :=
  match op with
  | NewPing data c ms now =>
      match Pinger_newPing data ms now pinger with
      | (pinger, Some i) => (set_context pinger i c, [])
      | (pinger, None) => (pinger, [])
      end
  | Pong data now => let '(pinger, r) := Pinger_pongReceived data now pinger in (pinger, option_list r)
  | Tick now => tick now pinger
  end.

Fixpoint do_pinger_ops (ops : list pinger_op) (pinger : Pinger C) : Pinger C * list (Response C) :=
  match ops with
  | [] => (pinger, [])
  | op :: ops =>
      let '(pinger, r) := do_pinger_op op pinger in
      let '(pinger, rs) := do_pinger_ops ops pinger in (pinger, r ++ rs)
  end.

(** ** How a ping ends *)
Definition response (data : option StringView) (ping : Ping C) (now : Z) : Response C :=
  {| resp_data := data; resp_milliseconds := u32 (u32 now - ping.(timeSent)); resp_context := ping.(context) |}.

(** By the first answer that names its slot or the first tick at its time. *)
Fixpoint outcome (slot : Z) (ping : Ping C) (ops : list pinger_op) : option (Response C) :=
  match ops with
  | [] => None
  | NewPing _ _ _ _ :: ops => outcome slot ping ops
  | Pong data now :: ops =>
      if slot_of data =? slot then Some (response (Some (after_slot data)) ping now) else outcome slot ping ops
  | Tick now :: ops => if ping.(timeout) <=? now then Some (response None ping now) else outcome slot ping ops
  end.

Definition unused (c : C) (pinger : Pinger C) : Prop :=
  forall i ping, pinger.(pings) i = Some ping -> ping.(context) <> Some c.
Definition not_opened (c : C) (ops : list pinger_op) : Prop :=
  List.Forall (fun op => match op with NewPing _ c' _ _ => c' <> c | _ => True end) ops.

Lemma set_ping_eq pinger i x : (set_ping pinger i x).(pings) i = x.
Proof. cbn. rewrite Z.eqb_refl. done. Qed.
Lemma set_ping_ne pinger i j x : j <> i -> (set_ping pinger i x).(pings) j = pinger.(pings) j.
Proof. intros H. cbn. rewrite (proj2 (Z.eqb_neq _ _)); done. Qed.

Lemma free_ping_spec pinger i : free_ping pinger = inr i -> 0 <= i < 256 /\ pinger.(pings) i = None.
Proof.
  unfold free_ping. pose proof (search_spec 256 0 (fun i => match pinger.(pings) i with None => true | Some _ => false end) (fun i => i)) as H.
  change (Z.to_nat Pinger_MAX_CONCURRENT_PINGS) with 256%nat.
  rewrite (for_until_ext _ _ _ (fun i _ => if match pinger.(pings) i with None => true | Some _ => false end then inr i else inl tt)).
  - destruct (for_until _ _ _ _) as [|r]; [done|]. intros [= <-]. destruct H as (j & Hj & Hp & -> & _).
    split; [lia|]. destruct (pings pinger j); done.
  - intros j _. destruct (pings pinger j); done.
Qed.

(** What a tick does to a slot, and the calls it makes for it. *)
Definition due (now : Z) (p : option (Ping C)) : bool := match p with Some ping => ping.(timeout) <=? now | None => false end.
Definition timed_out (now : Z) (pinger : Pinger C) (i : Z) : list (Response C) :=
  match pinger.(pings) i with
  | Some ping => if ping.(timeout) <=? now then [response None ping now] else []
  | None => []
  end.
Definition below (n : nat) : list Z := map Z.of_nat (seq 0 n).

Lemma below_S n : below (S n) = below n ++ [Z.of_nat n].
Proof. unfold below. rewrite seq_S, map_app. done. Qed.

Lemma tick_upto now pinger (n : nat) :
  let '(p, out) := for_loop n 0 (tick_slot now) (pinger, []) in
  (forall i, p.(pings) i = if (0 <=? i) && (i <? Z.of_nat n) && due now (pinger.(pings) i) then None else pinger.(pings) i)
  /\ out = flat_map (timed_out now pinger) (below n).
Proof.
  pose proof (for_loop_ind (fun i s =>
    (forall j, s.1.(pings) j = if (0 <=? j) && (j <? i) && due now (pinger.(pings) j) then None else pinger.(pings) j)
    /\ s.2 = flat_map (timed_out now pinger) (below (Z.to_nat i))) n 0 (tick_slot now) (pinger, [])) as H.
  destruct (for_loop n 0 (tick_slot now) (pinger, [])) as [p out]. cbn [fst snd] in H.
  rewrite Z.add_0_l, Nat2Z.id in H. apply H.
  - split; [|done]. intros j. bcase; done || lia.
  - intros i [p' out'] Hi [Hp Ho]. cbn [fst snd] in *. subst out'.
    assert (p'.(pings) i = pinger.(pings) i) as Ei by (rewrite Hp; bcase; done || lia).
    replace (Z.to_nat (i + 1)) with (S (Z.to_nat i)) by lia. rewrite below_S, flat_map_app. cbn [flat_map].
    rewrite Z2Nat.id, app_nil_r by lia.
    unfold tick_slot. rewrite Ei.
    change (timed_out now pinger i) with
      (match pinger.(pings) i with Some ping => if ping.(timeout) <=? now then [response None ping now] else [] | None => [] end).
    assert (forall q : Pinger C, (forall j, j <> i -> q.(pings) j = p'.(pings) j) ->
      q.(pings) i = (if due now (pinger.(pings) i) then None else pinger.(pings) i) ->
      forall j, q.(pings) j = if (0 <=? j) && (j <? i + 1) && due now (pinger.(pings) j) then None else pinger.(pings) j) as Hq.
    { intros q H1 H2 j. destruct (decide (j = i)) as [->|Hne]; [rewrite H2; bcase; done || lia|].
      rewrite H1, Hp by done. bcase; done || lia. }
    destruct (pings pinger i) as [ping|] eqn:Eo; cbn [due] in Hq.
    + destruct (Z.leb_spec (timeout ping) now) as [Hd|Hd]; cbn [fst snd].
      * split; [|done]. apply Hq; [intros j Hj; apply set_ping_ne; done|apply set_ping_eq].
      * rewrite app_nil_r. split; [|done]. apply Hq; [done|congruence].
    + cbn [fst snd]. rewrite app_nil_r. split; [|done]. apply Hq; [done|rewrite Ei; done].
Qed.

Lemma tick_spec now pinger :
  (forall i, 0 <= i < 256 -> (tick now pinger).1.(pings) i = if due now (pinger.(pings) i) then None else pinger.(pings) i) /\
  (forall i ping, (tick now pinger).1.(pings) i = Some ping -> pinger.(pings) i = Some ping) /\
  (tick now pinger).2 = flat_map (timed_out now pinger) (below 256).
Proof.
  unfold tick. pose proof (tick_upto now pinger 256) as H. change (Z.to_nat Pinger_MAX_CONCURRENT_PINGS) with 256%nat.
  destruct (for_loop _ _ _ _) as [p out]. destruct H as [Hp Ho]. cbn [fst snd]. split; [|split; [|exact Ho]].
  - intros i Hi. rewrite Hp. bcase; done || lia.
  - intros i ping. rewrite Hp. destruct (_ && _); done.
Qed.

Section context.
  Context {EqC : EqDecision C}.

(** The calls made for the ping with a given context. *)
Definition calls_for (c : C) (out : list (Response C)) : list (Response C) :=
  List.filter (fun r => bool_decide (r.(resp_context) = Some c)) out.

Lemma calls_app c l1 l2 : calls_for c (l1 ++ l2) = calls_for c l1 ++ calls_for c l2.
Proof. apply filter_app. Qed.

Lemma calls_none c l : (forall r, In r l -> r.(resp_context) <> Some c) -> calls_for c l = [].
Proof.
  intros H. induction l as [|r l IH]; [done|]. unfold calls_for in *. cbn [List.filter].
  rewrite bool_decide_eq_false_2 by (apply H; by left). apply IH. intros r' Hr. apply H. by right.
Qed.

Lemma calls_flat_map c (f : Z -> list (Response C)) l : calls_for c (flat_map f l) = flat_map (fun i => calls_for c (f i)) l.
Proof. induction l as [|i l IH]; [done|]. cbn [flat_map]. rewrite calls_app, IH. done. Qed.

Lemma flat_map_only {A} (f : Z -> list A) n s : 0 <= s < Z.of_nat n -> (forall i, i <> s -> f i = []) ->
  flat_map f (below n) = f s.
Proof.
  intros Hs Hf. induction n as [|n IH]; [lia|]. rewrite below_S, flat_map_app. cbn [flat_map]. rewrite app_nil_r.
  destruct (decide (Z.of_nat n = s)) as [E|Hne].
  - rewrite E. assert (flat_map f (below n) = []) as ->; [|done]. clear IH Hs.
    assert (forall i, In i (below n) -> i <> s) as Hb.
    { unfold below. intros i (k & <- & Hk%in_seq)%in_map_iff. lia. }
    induction (below n) as [|i l IHl]; [done|]. cbn [flat_map]. rewrite Hf by (apply Hb; by left).
    apply IHl. intros j Hj. apply Hb. by right.
  - rewrite IH, (Hf (Z.of_nat n)), app_nil_r by (done || lia). done.
Qed.

(** Pings whose context is not [c] make no call for [c]. *)
Lemma others_silent c pinger op : unused c pinger -> not_opened c [op] ->
  unused c (do_pinger_op op pinger).1 /\ calls_for c (do_pinger_op op pinger).2 = [].
Proof.
  intros Hu Hn. destruct op as [data c' ms now|data now|now]; cbn [do_pinger_op].
  - apply Forall_inv in Hn. unfold Pinger_newPing. destruct (free_ping pinger) as [|i]; [done|]. split; [|done].
    intros j ping. cbn [fst]. unfold set_context. rewrite set_ping_eq. cbn [option_map].
    destruct (decide (j = i)) as [->|Hne]; [rewrite set_ping_eq; intros [= <-]; cbn; congruence|].
    rewrite !set_ping_ne by done. apply Hu.
  - unfold Pinger_pongReceived. destruct (Pinger_MAX_CONCURRENT_PINGS <=? slot_of data); [done|].
    destruct (pings pinger (slot_of data)) as [ping|] eqn:E; [|done]. cbn [callback fst snd option_list]. split.
    + intros j ping'. destruct (decide (j = slot_of data)) as [->|Hne]; [rewrite set_ping_eq; done|].
      rewrite set_ping_ne by done. apply Hu.
    + apply calls_none. intros r [<-|[]]. cbn. by apply (Hu (slot_of data)).
  - destruct (tick_spec now pinger) as (_ & H2 & ->). split.
    + intros i ping Hi. apply (Hu i), H2, Hi.
    + apply calls_none. intros r (i & _ & Hr)%in_flat_map. unfold timed_out in Hr.
      destruct (pings pinger i) as [ping|] eqn:E; [|done]. destruct (timeout ping <=? now); [|done].
      destruct Hr as [<-|[]]. by apply (Hu i).
Qed.

Lemma all_silent c ops : forall pinger, unused c pinger -> not_opened c ops -> calls_for c (do_pinger_ops ops pinger).2 = [].
Proof.
  induction ops as [|op ops IH]; intros pinger Hu Hn; [done|]. cbn [do_pinger_ops].
  apply Forall_cons_iff in Hn as [Hop Hn]. destruct (others_silent c pinger op Hu) as [Hu' Ho]; [by repeat constructor|].
  specialize (IH (do_pinger_op op pinger).1 Hu' Hn). destruct (do_pinger_op op pinger) as [p r].
  cbn [fst snd] in *. destruct (do_pinger_ops ops p) as [p' rs]. cbn [fst snd] in *. rewrite calls_app, Ho, IH. done.
Qed.

(** A ping in its slot, the only one with its context. *)
Definition waits (c : C) (s : Z) (ping : Ping C) (pinger : Pinger C) : Prop :=
  0 <= s < 256 /\ pinger.(pings) s = Some ping /\ ping.(context) = Some c /\
  forall i p, pinger.(pings) i = Some p -> p.(context) = Some c -> i = s.

(** One step of a waiting ping: it ends, with one call, or it goes on waiting. *)
Lemma waiting_step c s ping pinger op : waits c s ping pinger -> not_opened c [op] ->
  match outcome s ping [op] with
  | Some r => unused c (do_pinger_op op pinger).1 /\ calls_for c (do_pinger_op op pinger).2 = [r]
  | None => waits c s ping (do_pinger_op op pinger).1 /\ calls_for c (do_pinger_op op pinger).2 = []
  end.
Proof.
  intros (Hs & Hp & Hc & Hu) Hn.
  assert (forall data now, calls_for c [response data ping now] = [response data ping now]) as Hcall.
  { intros data now. unfold calls_for. cbn. rewrite Hc, bool_decide_eq_true_2 by done. done. }
  destruct op as [data c' ms now|data now|now]; cbn [do_pinger_op outcome].
  - apply Forall_inv in Hn. unfold Pinger_newPing. destruct (free_ping pinger) as [|i] eqn:Ef; [done|].
    apply free_ping_spec in Ef as [Hi Ef]. split; [|done]. cbn [fst]. unfold set_context. rewrite set_ping_eq.
    assert (s <> i) as Hsi by congruence. split_and!; [lia|lia| |done|].
    + rewrite !set_ping_ne by done. done.
    + intros j p'. destruct (decide (j = i)) as [->|Hne]; [rewrite set_ping_eq; intros [= <-]; cbn; congruence|].
      rewrite !set_ping_ne by done. apply Hu.
  - unfold Pinger_pongReceived. destruct (Z.eqb_spec (slot_of data) s) as [E|Hne].
    + rewrite E. rewrite (proj2 (Z.leb_gt _ _)) by (unfold Pinger_MAX_CONCURRENT_PINGS; lia). rewrite Hp. cbn [callback fst snd option_list].
      split; [|apply Hcall]. intros j p'. destruct (decide (j = s)) as [->|Hj]; [rewrite set_ping_eq; done|].
      rewrite set_ping_ne by done. intros Hj' Hc'. apply Hj, (Hu j p'); done.
    + destruct (Pinger_MAX_CONCURRENT_PINGS <=? slot_of data); [done|].
      destruct (pings pinger (slot_of data)) as [p'|] eqn:E; [|done]. cbn [callback fst snd option_list]. split.
      * split_and!; [lia|lia|rewrite set_ping_ne by done; done|done|]. intros j q.
        destruct (decide (j = slot_of data)) as [->|Hj]; [rewrite set_ping_eq; done|]. rewrite set_ping_ne by done. apply Hu.
      * apply calls_none. intros r [<-|[]]. cbn. intros Hc'. apply Hne, (Hu _ p'); done.
  - destruct (tick_spec now pinger) as (H1 & H2 & ->).
    rewrite calls_flat_map, (flat_map_only _ 256 s).
    + unfold timed_out. rewrite Hp. specialize (H1 s Hs). rewrite Hp in H1. cbn [due] in H1.
      destruct (Z.leb_spec (timeout ping) now) as [Hd|Hd].
      * split; [|apply Hcall]. intros j q Hj Hcq. pose proof (Hu j q (H2 j q Hj) Hcq) as ->. congruence.
      * split; [|done]. split_and!; [lia|lia|done|done|]. intros j q Hj. apply Hu, H2, Hj.
    + lia.
    + intros i Hi. apply calls_none. unfold timed_out. intros r Hr. destruct (pings pinger i) as [q|] eqn:E; [|done].
      destruct (timeout q <=? now); [|done]. destruct Hr as [<-|[]]. cbn. intros Hcq. apply Hi, (Hu i q); done.
Qed.

Lemma outcome_cons s ping op ops :
  outcome s ping (op :: ops) = match outcome s ping [op] with Some r => Some r | None => outcome s ping ops end.
Proof.
  destruct op as [| |]; cbn [outcome]; [done| |]; [destruct (_ =? _); done|destruct (_ <=? _); done].
Qed.

Lemma waiting_run c s ping ops : forall pinger, waits c s ping pinger -> not_opened c ops ->
  calls_for c (do_pinger_ops ops pinger).2 = option_list (outcome s ping ops).
Proof.
  induction ops as [|op ops IH]; intros pinger Hw Hn; [done|]. cbn [do_pinger_ops]. rewrite outcome_cons.
  apply Forall_cons_iff in Hn as [Hop Hn].
  pose proof (waiting_step c s ping pinger op Hw ltac:(by repeat constructor)) as H.
  destruct (do_pinger_op op pinger) as [p r]. cbn [fst snd] in H.
  destruct (outcome s ping [op]) as [res|] eqn:E; destruct H as [H1 H2].
  - pose proof (all_silent c ops p H1 Hn) as H3. destruct (do_pinger_ops ops p) as [p' rs]. cbn [snd] in *.
    rewrite calls_app, H2, H3. done.
  - specialize (IH p H1 Hn). destruct (do_pinger_ops ops p) as [p' rs]. cbn [snd] in *. rewrite calls_app, H2, IH. done.
Qed.

Lemma outcome_some s ping ops t : In (Tick t) ops -> ping.(timeout) <= t -> exists r, outcome s ping ops = Some r.
Proof.
  intros Hin Ht. induction ops as [|op ops IH]; [done|]. rewrite outcome_cons.
  destruct (outcome s ping [op]) as [r|] eqn:E; [eauto|]. destruct Hin as [->|Hin]; [|auto].
  cbn in E. rewrite (proj2 (Z.leb_le _ _)) in E by lia. done.
Qed.

(** C32: a ping that is accepted calls [onResponse] exactly once, whatever else
    happens: with the first answer that names its slot, or, failing that, with
    no data at the first tick of the event loop at or after its time, and there
    is such a call as soon as the clock has reached that time. *)
Theorem Pinger_every_ping_ends (pinger pinger' : Pinger C) (data : option String) (c : C) (ms now s : Z)
    (ops : list pinger_op) :
  Pinger_newPing data ms now pinger = (pinger', Some s) -> unused c pinger -> not_opened c ops ->
  let ping := with_context (new_ping s data ms now) c in
  let calls := calls_for c (do_pinger_ops ops (set_context pinger' s c)).2 in
  calls = option_list (outcome s ping ops) /\
  (forall t, In (Tick t) ops -> now + ms <= t -> exists r, calls = [r]).
Proof.
  intros Hnew Hu Hn ping. unfold Pinger_newPing in Hnew. destruct (free_ping pinger) as [|i] eqn:Ef; [done|].
  injection Hnew as <- <-. apply free_ping_spec in Ef as [Hi _]. cbn zeta.
  assert (waits c i ping (set_context (set_ping pinger i (Some (new_ping i data ms now))) i c)) as Hw.
  { unfold set_context. rewrite set_ping_eq. split_and!; [lia|lia|apply set_ping_eq|done|].
    intros j p. destruct (decide (j = i)) as [->|Hne]; [done|]. rewrite !set_ping_ne by done. intros Hj Hc. by destruct (Hu j p). }
  rewrite (waiting_run c i ping ops _ Hw Hn). split; [done|]. intros t Hin Ht.
  destruct (outcome_some i ping ops t Hin Ht) as (r & ->). by exists r.
Qed.

(** An answer that echoes what was sent names the slot and carries the data. *)
Lemma echo_slot (m : mem) (a s : Z) (data : option String) (n : Z) : 0 <= s < 256 -> n < 2 ^ 64 ->
  n = Z.of_nat (length (prefixed s data)) -> read m a n = prefixed s data ->
  let view := {| sv_buffer := m; sv_bytes := a; sv_len := n |} in
  slot_of view = s /\ sv_len (after_slot view) = Z.of_nat (length (default [] data)) /\
  read m (sv_bytes (after_slot view)) (sv_len (after_slot view)) = default [] data.
Proof.
  intros Hs Hn En Hr. unfold prefixed in *. rewrite length_app, length_store in En. cbn [sv_len sv_bytes after_slot].
  rewrite u64_small by lia. rewrite (read_split m a n 4) in Hr by lia.
  apply app_inj_1 in Hr as [H1 H2]; [|rewrite length_read, length_store; done]. split_and!; [|lia|].
  - unfold slot_of. cbn. pose proof (load_write_store 4 s scratch 0) as H. rewrite Z.mod_small in H by lia.
    rewrite <-H. apply load_read. change (Z.of_nat 4) with 4. rewrite H1, read_write_same by (rewrite length_store; done). done.
  - exact H2.
Qed.
End context.
End pinger.

(** A ping of half a second is answered after 60 milliseconds; an answer for
    another slot before that and the echo of the answer change nothing. *)
Definition demo_answer (slot : Z) : StringView :=
  {| sv_buffer := of_list (@store x86 4 slot ++ [5; 6; 7]); sv_bytes := 0; sv_len := 7 |}.
Definition demo_pinger_ops : list (@pinger_op nat) :=
  [NewPing None 2%nat 500 1010; Pong (demo_answer 9) 1020; Pong (demo_answer 0) 1060; Pong (demo_answer 0) 1070; Tick 1600].

Lemma Pinger_every_ping_ends_witness : exists r,
  calls_for 1%nat (@do_pinger_ops x86 nat demo_pinger_ops
    (set_context (@Pinger_newPing x86 nat (Some [5; 6; 7]) 500 1000 Pinger_new).1 0 1%nat)).2 = [r] /\
  r.(resp_milliseconds) = 60.
Proof.
  destruct (@Pinger_every_ping_ends x86 nat _ Pinger_new (@Pinger_newPing x86 nat (Some [5; 6; 7]) 500 1000 Pinger_new).1
    (Some [5; 6; 7]) 1%nat 500 1000 0 demo_pinger_ops) as [E H].
  - vm_compute. reflexivity.
  - intros i ping Hp. discriminate Hp.
  - repeat constructor. discriminate.
  - destruct (H 1600) as (r & Er); [cbn; tauto|lia|]. exists r. split; [exact Er|]. rewrite Er in E.
    assert (forall o, [r] = option_list o -> o = Some r) as Hinj by (intros [x|]; [intros [= ->]|]; done).
    apply Hinj in E. vm_compute in E. injection E as <-. reflexivity.
Defined.
