(* ===== verification/SwitchPinger.v ===== *)
(** * Pinging switches (net/SwitchPinger.c)

    A switch ping is a control packet with a label; the node at its end answers
    with a pong that carries the same data. The pings in flight are those of a
    Pinger whose context is the [SwitchPing]; the user's callback, a function
    pointer, is a number, and a call of it is a [SwitchPinger_Response]. [None] is
    an aborted program. *)
From S2P Require Import Prelude Memory Endian Bits Checksum Headers Message Benc Address Pinger.

Definition Control_Pong_HEADER_SIZE : Z := Control_Ping_HEADER_SIZE.
Definition Control_Pong_MIN_SIZE : Z := Control_Ping_MIN_SIZE.

(** [struct Control_Ping]: the offsets of its fields. *)
Definition Control_Ping_magic : Z := 0.
Definition Control_Ping_version_be : Z := 4.

Inductive SwitchPinger_Result :=
| SwitchPinger_Result_OK
| SwitchPinger_Result_LABEL_MISMATCH
| SwitchPinger_Result_WRONG_DATA
| SwitchPinger_Result_ERROR_RESPONSE
| SwitchPinger_Result_TIMEOUT.

Record SwitchPing := { sp_label : Z; sp_data : option String; onResponse : Z }.

Record SwitchPinger := {
  pinger : Pinger SwitchPing;
  incomingLabel : Z;
  incomingVersion : Z;
  isError : bool
}.

Record SwitchPinger_Response := {
  sr_result : SwitchPinger_Result;
  sr_label : Z;
  sr_data : option StringView;
  sr_milliseconds : Z;
  sr_version : Z;
  sr_callback : Z
}.

Definition SwitchPinger_new : SwitchPinger :=
  {| pinger := Pinger_new; incomingLabel := 0; incomingVersion := 0; isError := false |}.

Definition set_pinger (ctx : SwitchPinger) (p : Pinger SwitchPing) : SwitchPinger :=
  {| pinger := p; incomingLabel := ctx.(incomingLabel); incomingVersion := ctx.(incomingVersion);
     isError := ctx.(isError) |}.
Definition set_incoming (ctx : SwitchPinger) (label version : Z) (error : bool) : SwitchPinger :=
  {| pinger := ctx.(pinger); incomingLabel := label; incomingVersion := version; isError := error |}.

(** String_equals of a string in a buffer with another. *)
Definition view_equals (a : StringView) (b : option String) : bool :=
  match b with
  | None => false
  | Some b =>
      if a.(sv_len) =? Z.of_nat (List.length b)
      then Bits_memcmp (read a.(sv_buffer) a.(sv_bytes) a.(sv_len)) b =? 0 else false
  end.

Definition onPingResponse (ctx : SwitchPinger) (r : Response SwitchPing) : option SwitchPinger_Response :=
  p ← r.(resp_context);
  let label := ctx.(incomingLabel) in
  let err :=
    match r.(resp_data) with
    | Some data =>
        if negb (label =? p.(sp_label)) then SwitchPinger_Result_LABEL_MISMATCH
        else if (match p.(sp_data) with Some _ => true | None => false end || (0 <? data.(sv_len)))
                && negb (view_equals data p.(sp_data)) then SwitchPinger_Result_WRONG_DATA
        else if ctx.(isError) then SwitchPinger_Result_ERROR_RESPONSE
        else SwitchPinger_Result_OK
    | None => SwitchPinger_Result_TIMEOUT
    end in
  Some {| sr_result := err; sr_label := label; sr_data := r.(resp_data); sr_milliseconds := r.(resp_milliseconds);
          sr_version := ctx.(incomingVersion); sr_callback := p.(onResponse) |}.

Section switch_pinger.
  Context {P : Platform}.

(** The message is aligned on the switch header. The error code, and the call of
    the user's callback if there is one. *)
Definition receiveMessage (msg : Message) (now : Z) (ctx : SwitchPinger)
    : option (SwitchPinger * Z * option SwitchPinger_Response) :=
  let switchHeader := msg.(bytes) in
  let label := Endian_bigEndianToHost64 (load 8 msg.(buffer) (switchHeader + SwitchHeader_label_be)) in
  let ctx := set_incoming ctx label 0 ctx.(isError) in
  if negb (Headers_getMessageType msg.(buffer) switchHeader =? Headers_SwitchHeader_TYPE_CONTROL) then None
  else
    msg ← Message_shift msg (- Headers_SwitchHeader_SIZE);
    let type_be := load 2 msg.(buffer) (msg.(bytes) + Control_type_be) in
    let received (msg : Message) (ctx : SwitchPinger) :=
      let msgStr := {| sv_buffer := msg.(buffer); sv_bytes := msg.(bytes); sv_len := u64 msg.(length) |} in
      let '(p, r) := Pinger_pongReceived msgStr now ctx.(pinger) in
      match r with
      | None => Some (set_pinger ctx p, Error_NONE, None)
      | Some r => r ← onPingResponse ctx r; Some (set_pinger ctx p, Error_NONE, Some r)
      end in
    if type_be =? Control_PONG_be then
      msg ← Message_shift msg (- Control_HEADER_SIZE);
      let ctx := set_incoming ctx label 0 false in
      let pongHeader := msg.(bytes) in
      if Control_Pong_MIN_SIZE <=? length msg then
        let version := Endian_bigEndianToHost32 (load 4 msg.(buffer) (pongHeader + Control_Ping_version_be)) in
        let ctx := set_incoming ctx label version false in
        msg ← Message_shift msg (- Control_Pong_HEADER_SIZE);
        if negb (load 4 msg.(buffer) (pongHeader + Control_Ping_magic) =? Control_Pong_MAGIC)
        then Some (ctx, Error_INVALID, None)
        else received msg ctx
      else Some (ctx, Error_INVALID, None)
    else if type_be =? Control_ERROR_be then
      msg ← Message_shift msg (- (Control_HEADER_SIZE + Control_Error_HEADER_SIZE + Headers_SwitchHeader_SIZE
                                  + Control_HEADER_SIZE + Control_Ping_HEADER_SIZE));
      received msg (set_incoming ctx label 0 true)
    else None.

Definition BUFFER_SZ : Z := 4096.

(** The message given to the interface; [stack] is what the buffer holds. *)
Definition sendPing (stack : mem) (data : String) (p : SwitchPing) : option Message :=
  let len := Z.of_nat (List.length data) in
  let bytes := BUFFER_SZ - (len + 8 - len mod 8) in
  let msg := {| length := len; padding := bytes; bytes := bytes; buffer := stack |} in
  if negb (len <? BUFFER_SZ / 2) then None
  else
    let msg := with_buffer msg (write msg.(buffer) msg.(Message.bytes) data) in
    msg ← Message_shift msg Control_Ping_HEADER_SIZE;
    let pingHeader := msg.(Message.bytes) in
    let m := write msg.(buffer) (pingHeader + Control_Ping_magic) (store 4 Control_Ping_MAGIC) in
    let m := write m (pingHeader + Control_Ping_version_be)
               (store 4 (Endian_hostToBigEndian32 Version_CURRENT_PROTOCOL)) in
    msg ← Message_shift (with_buffer msg m) Control_HEADER_SIZE;
    let ctrl := msg.(Message.bytes) in
    let m := write msg.(buffer) (ctrl + Control_checksum_be) (store 2 0) in
    let m := write m (ctrl + Control_type_be) (store 2 Control_PING_be) in
    let m := write m (ctrl + Control_checksum_be) (store 2 (Checksum_engine m ctrl (length msg))) in
    msg ← Message_shift (with_buffer msg m) Headers_SwitchHeader_SIZE;
    let switchHeader := msg.(Message.bytes) in
    let m := write msg.(buffer) (switchHeader + SwitchHeader_label_be)
               (store 8 (Endian_hostToBigEndian64 p.(sp_label))) in
    let m := Headers_setPriorityAndMessageType m switchHeader 0 Headers_SwitchHeader_TYPE_CONTROL in
    Some (with_buffer msg m).

Definition SwitchPinger_resultString (result : option SwitchPinger_Result) : String :=
  match result with
  | Some SwitchPinger_Result_OK => chars "pong"
  | Some SwitchPinger_Result_LABEL_MISMATCH => chars "pong has different label"
  | Some SwitchPinger_Result_WRONG_DATA => chars "data is different"
  | Some SwitchPinger_Result_ERROR_RESPONSE => chars "ping message caused switch error"
  | Some SwitchPinger_Result_TIMEOUT => chars "timeout"
  | None => chars "unknown error"
  end.

(** The slot of the ping, or NULL. *)
Definition SwitchPinger_newPing (label : Z) (data : option String) (timeoutMilliseconds onResponse now : Z)
    (ctx : SwitchPinger) : SwitchPinger * option Z :=
  if match data with Some d => Control_Ping_MAX_SIZE <? Z.of_nat (List.length d) | None => false end then (ctx, None)
  else
    match Pinger_newPing data timeoutMilliseconds now ctx.(pinger) with
    | (p, None) => (set_pinger ctx p, None)
    | (p, Some i) =>
        let ping := {| sp_label := label; sp_data := data; onResponse := onResponse |} in
        (set_pinger ctx (set_context p i ping), Some i)
    end.

Definition SwitchPinger_sendPing (stack : mem) (i : Z) (ctx : SwitchPinger) : option Message :=
  ping ← ctx.(pinger).(pings) i;
  let '(data, p) := Pinger_sendPing ping in
  p ← p;
  sendPing stack data p.
End switch_pinger.

(** ** The bytes of a control packet of type ping or pong *)
Section packets.
  Context {P : Platform}.

Definition control_fields (checksum type_be magic version : Z) (data : list Z) : list (list Z) :=
  [store 2 checksum; store 2 type_be; store 4 magic; store 4 (Endian_hostToBigEndian32 version); data].

Definition control_checksum (type_be magic version : Z) (data : list Z) : Z :=
  let l := concat (control_fields 0 type_be magic version data) in
  Checksum_engine (of_list l) 0 (Z.of_nat (List.length l)).

Definition control_packet (type_be magic version : Z) (data : list Z) : list Z :=
  concat (control_fields (control_checksum type_be magic version data) type_be magic version data).

Definition ping_packet (data : list Z) : list Z :=
  control_packet Control_PING_be Control_Ping_MAGIC Version_CURRENT_PROTOCOL data.
Definition pong_packet (data : list Z) : list Z :=
  control_packet Control_PONG_be Control_Pong_MAGIC Version_CURRENT_PROTOCOL data.

Lemma length_control c t m v d : Z.of_nat (List.length (concat (control_fields c t m v d))) = 12 + Z.of_nat (List.length d).
Proof. unfold control_fields. cbn [concat]. rewrite !length_app, !length_store. cbn [List.length]. lia. Qed.

Lemma control_fields_ok c t m v d : bytes_ok d -> bytes_ok (concat (control_fields c t m v d)).
Proof.
  intros Hd. unfold control_fields. cbn [concat]. rewrite app_nil_r.
  repeat (apply Forall_app; split); first [apply store_ok|exact Hd].
Qed.

(** The checksum of a buffer that holds the fields with a zero checksum. *)
Lemma control_checksum_read t mg v d mm a n :
  read mm a n = concat (control_fields 0 t mg v d) -> n = 12 + Z.of_nat (List.length d) ->
  Checksum_engine mm a n = control_checksum t mg v d.
Proof.
  intros E ->. unfold control_checksum. rewrite length_control. apply engine_read_at; [lia|].
  rewrite E, read_of_list; [done|]. rewrite length_control. done.
Qed.

Lemma control_packet_verifies t mg v d mm a n : bytes_ok d -> n < 2 ^ 16 ->
  read mm a n = control_packet t mg v d -> n = 12 + Z.of_nat (List.length d) -> Checksum_engine mm a n = 0.
Proof.
  intros Hd Hn E En. set (l0 := concat (control_fields 0 t mg v d)).
  assert (Z.of_nat (List.length l0) = n) as Hl0 by (unfold l0; rewrite length_control; lia).
  assert (read (of_list l0) 0 n = l0) as E0 by (apply read_of_list; done).
  assert (Checksum_engine (of_list l0) 0 n = control_checksum t mg v d) as Ec by (apply control_checksum_read; done).
  rewrite (engine_read_at mm (write (of_list l0) (0 + 2 * 0) (store 2 (Checksum_engine (of_list l0) 0 n))) a 0) by
    (lia || (rewrite E, Ec; symmetry; apply (write_fields _ _ _ _ E0 0 (store 2 0)); [done|done|rewrite !length_store; done])).
  apply engine_verifies; [apply of_list_ok, control_fields_ok, Hd|lia|lia|lia|].
  rewrite (load_fields _ _ _ _ E0 0 2 0 (2 * 0)) by done. done.
Qed.

(** ** Sending a ping *)
Definition header_fields (label lowBits : Z) : list (list Z) :=
  [store 8 (Endian_hostToBigEndian64 label); store 4 lowBits].

(** The writes of [sendPing], in order, for data at [b]. *)
Lemma ping_memory stack b data label_be :
  let len := Z.of_nat (List.length data) in
  let m := write stack b data in
  let m := write m (b - 8 + 0) (store 4 Control_Ping_MAGIC) in
  let m := write m (b - 8 + 4) (store 4 (Endian_hostToBigEndian32 Version_CURRENT_PROTOCOL)) in
  let m := write m (b - 12 + 0) (store 2 0) in
  let m := write m (b - 12 + 2) (store 2 Control_PING_be) in
  let m := write m (b - 12 + 0) (store 2 (Checksum_engine m (b - 12) (12 + len))) in
  let m := write m (b - 24 + 0) (store 8 label_be) in
  let m := write m (b - 24 + 8) (store 4 (Endian_hostToBigEndian32 ((0 .& ((1 << 24) - 1)) .| u32 (Headers_SwitchHeader_TYPE_CONTROL << 24)))) in
  read m (b - 24) (24 + len) = concat [store 8 label_be; store 4 (Endian_hostToBigEndian32 (1 << 24))] ++ ping_packet data.
Proof.
  intros len. assert (len = Z.of_nat (List.length data)) as Hlen by done. clearbody len.
  set (a := b - 24). set (n := 24 + len).
  replace b with (a + 24) by lia. replace (a + 24 - 8 + 0) with (a + 16) by lia. replace (a + 24 - 8 + 4) with (a + 20) by lia.
  replace (a + 24 - 12) with (a + 12) by lia. replace (a + 12 + 2) with (a + 14) by lia. rewrite !Z.add_0_r.
  pose proof (read_pieces stack [8; 4; 2; 2; 4; 4; len] a) as E0. cbn [fold_right pieces] in E0.
  replace (8 + (4 + (2 + (2 + (4 + (4 + (len + 0))))))) with n in E0 by lia.
  specialize (E0 ltac:(repeat constructor; lia)).
  set_field E0 6%nat data 24 E1.
  set_field E1 4%nat (store 4 Control_Ping_MAGIC) 16 E2.
  set_field E2 5%nat (store 4 (Endian_hostToBigEndian32 Version_CURRENT_PROTOCOL)) 20 E3.
  set_field E3 2%nat (store 2 0) 12 E4.
  set_field E4 3%nat (store 2 Control_PING_be) 14 E5.
  cbv zeta. set (c := Checksum_engine _ (a + 12) (12 + len)).
  set_field E5 2%nat (store 2 c) 12 E6. set_field E6 0%nat (store 8 label_be) 0 E7.
  set_field E7 1%nat (store 4 (Endian_hostToBigEndian32 (1 << 24))) 8 E8.
  assert (c = control_checksum Control_PING_be Control_Ping_MAGIC Version_CURRENT_PROTOCOL data) as Ec.
  { apply control_checksum_read; [|lia]. rewrite (read_split _ a n 12) in E5 by lia. cbn [concat] in E5. rewrite app_assoc in E5.
    apply app_inj_1 in E5 as [_ E5]; [|rewrite length_app, !length_read; done].
    replace (n - 12) with (12 + len) in E5 by lia. exact E5. }
  rewrite Z.add_0_r in E8. etrans; [exact E8|]. unfold ping_packet, control_packet, control_fields. rewrite <-Ec.
  cbn [concat]. rewrite app_nil_r, <-!app_assoc. done.
Qed.

Lemma sendPing_spec stack data p : Z.of_nat (List.length data) < 2048 ->
  exists msg, sendPing stack data p = Some msg /\ length msg = 24 + Z.of_nat (List.length data) /\
    content msg = concat (header_fields p.(sp_label) (Endian_hostToBigEndian32 (1 << 24))) ++ ping_packet data.
Proof.
  intros Hlen. unfold sendPing. set (len := Z.of_nat (List.length data)) in *.
  change (BUFFER_SZ / 2) with 2048. rewrite (proj2 (Z.ltb_lt _ _)) by lia. cbn [negb].
  pose proof (Z.mod_pos_bound len 8 ltac:(lia)). set (b := BUFFER_SZ - (len + 8 - len mod 8)).
  assert (2000 < b) by (unfold b, BUFFER_SZ; lia). clearbody b.
  cbn [buffer Message.bytes with_buffer]. 
  rewrite shift_up by (cbn; unfold Control_Ping_HEADER_SIZE; lia). cbn [mbind option_bind Message.bytes buffer with_buffer length padding].
  rewrite shift_up by (cbn; unfold Control_Ping_HEADER_SIZE, Control_HEADER_SIZE; lia). cbn [mbind option_bind Message.bytes buffer with_buffer length padding].
  rewrite shift_up by (cbn; unfold Control_Ping_HEADER_SIZE, Control_HEADER_SIZE, Headers_SwitchHeader_SIZE; lia).
  cbn [mbind option_bind Message.bytes buffer with_buffer length padding]. eexists. split; [done|].
  cbn [length with_buffer]. split; [subst len; unfold Control_Ping_HEADER_SIZE, Control_HEADER_SIZE, Headers_SwitchHeader_SIZE; lia|].
  unfold content, Headers_setPriorityAndMessageType. cbn [length Message.bytes buffer with_buffer].
  unfold Control_Ping_HEADER_SIZE, Control_HEADER_SIZE, Headers_SwitchHeader_SIZE, Control_Ping_magic,
    Control_Ping_version_be, Control_checksum_be, Control_type_be, SwitchHeader_label_be, SwitchHeader_lowBits_be.
  pose proof (ping_memory stack b data (Endian_hostToBigEndian64 p.(sp_label))) as Hm. cbn zeta in Hm. fold len in Hm.
  replace (b - 8 - 4 - 12) with (b - 24) by lia. replace (len + 8 + 4 + 12) with (24 + len) by lia.
  replace (len + 8 + 4) with (12 + len) by lia. replace (b - 8 - 4) with (b - 12) by lia. exact Hm.
Qed.
End packets.
