(* ===== verification/Ducttape.v ===== *)
(** * Control messages of the router (net/Ducttape.c, handleControlMessage)

    The switch hands the router's control packets to Ducttape. It answers pings,
    gives pongs and errors caused by pings to the switch pinger, and reports
    broken paths to the routing table. What it calls is the list of [Effect]s, in
    order. [None] is an aborted program. *)
From S2P Require Import Prelude Memory Endian Bits Checksum LabelSplicer Headers Message Benc Address Pinger SwitchPinger.

Inductive Effect :=
| BrokenPath (label : Z)
| ToSwitch (msg : Message)
| ToPinger (msg : Message).

(** The header and, behind it, the control packet that caused an error, as
    offsets in the control packet that reports it. *)
Definition Control_Error_cause : Z := 4.
Definition Control_causeCtrl : Z := Control_content + Control_Error_cause + Headers_SwitchHeader_SIZE.

Section control.
  Context {P : Platform}.

(** [message] is aligned on the control packet, [switchHeader] is the address of
    the header in front of it; [hasPinger]: a switch pinger is registered. *)
Definition handleControlMessage (hasPinger : bool) (message : Message) (switchHeader : Z)
    : option (Z * list Effect) :=
  let label := Endian_bigEndianToHost64 (load 8 message.(buffer) (switchHeader + SwitchHeader_label_be)) in
  let to_pinger (message : Message) :=
    if hasPinger then message ← Message_shift message Headers_SwitchHeader_SIZE; Some [ToPinger message] else Some [] in
  if length message <? Control_HEADER_SIZE then Some (Error_NONE, [])
  else
    let m := message.(buffer) in
    let ctrl := message.(bytes) in
    if negb (Checksum_engine m ctrl (length message) =? 0) then Some (Error_NONE, [])
    else
      let type_be := load 2 m (ctrl + Control_type_be) in
      if type_be =? Control_ERROR_be then
        if length message <? Control_Error_MIN_SIZE then Some (Error_NONE, [])
        else
          let broken := BrokenPath label in
          if Headers_getMessageType m (ctrl + Control_content + Control_Error_cause) =? Headers_SwitchHeader_TYPE_CONTROL then
            if length message <? Control_Error_MIN_SIZE + Control_HEADER_SIZE then Some (Error_NONE, [broken])
            else if negb (load 2 m (ctrl + Control_causeCtrl + Control_type_be) =? Control_PING_be)
            then Some (Error_NONE, [broken])
            else if LabelSplicer_isOneHop label
              && (load 4 m (ctrl + Control_content + Control_Error_errorType_be) =? Endian_hostToBigEndian32 Error_UNDELIVERABLE)
            then Some (Error_NONE, [broken])
            else effects ← to_pinger message; Some (Error_NONE, broken :: effects)
          else Some (Error_NONE, [broken])
      else if type_be =? Control_PONG_be then
        effects ← to_pinger message; Some (Error_NONE, effects)
      else if type_be =? Control_PING_be then
        message ← Message_shift message (- Control_HEADER_SIZE);
        if length message <? Control_Ping_MIN_SIZE then Some (Error_INVALID, [])
        else
          let ping := message.(bytes) in
          let m := write message.(buffer) (ping + Control_Ping_magic) (store 4 Control_Pong_MAGIC) in
          let m := write m (ping + Control_Ping_version_be) (store 4 (Endian_hostToBigEndian32 Version_CURRENT_PROTOCOL)) in
          message ← Message_shift (with_buffer message m) Control_HEADER_SIZE;
          let m := write message.(buffer) (ctrl + Control_type_be) (store 2 Control_PONG_be) in
          let m := write m (ctrl + Control_checksum_be) (store 2 0) in
          let m := write m (ctrl + Control_checksum_be) (store 2 (Checksum_engine m message.(bytes) (length message))) in
          message ← Message_shift (with_buffer message m) Headers_SwitchHeader_SIZE;
          Some (Error_NONE, [ToSwitch message])
      else Some (Error_NONE, []).
End control.

(** ** A ping and its answer *)
Section echo.
  Context {P : Platform}.

(** [got], aligned on the control packet behind a header with [label], carries
    the packet that [sent] has behind its header. *)
Record arrives (label : Z) (sent got : Message) : Prop := {
  arrives_ok : message_ok got;
  arrives_padding : Headers_SwitchHeader_SIZE <= padding got;
  arrives_label : load 8 got.(buffer) (got.(bytes) - Headers_SwitchHeader_SIZE + SwitchHeader_label_be) =
    Endian_hostToBigEndian64 label;
  arrives_type : Headers_getMessageType got.(buffer) (got.(bytes) - Headers_SwitchHeader_SIZE) = Headers_SwitchHeader_TYPE_CONTROL;
  arrives_length : length got = length sent - Headers_SwitchHeader_SIZE;
  arrives_content : content got = drop 12 (content sent)
}.

Lemma control_types : Control_PING_be <> Control_ERROR_be /\ Control_PING_be <> Control_PONG_be /\
  Control_PONG_be <> Control_ERROR_be /\ 0 <= Control_PING_be < 2 ^ 16 /\ 0 <= Control_PONG_be < 2 ^ 16 /\
  0 <= Control_Pong_MAGIC < 2 ^ 32.
Proof.
  unfold Control_PING_be, Control_PONG_be, Control_ERROR_be, Control_Pong_MAGIC.
  unfold Endian_hostToBigEndian16, Endian_hostToBigEndian32. destruct host_is_big_endian; vm_compute; intuition discriminate.
Qed.

(** The header and the fields of a control packet in memory. *)
Lemma control_region msg t mg v d :
  content msg = control_packet t mg v d -> length msg = 12 + Z.of_nat (List.length d) ->
  read msg.(buffer) (msg.(bytes) - 12) (24 + Z.of_nat (List.length d)) =
    concat (read msg.(buffer) (msg.(bytes) - 12) 12 :: control_fields (control_checksum t mg v d) t mg v d).
Proof.
  intros E El. rewrite (read_split _ _ _ 12) by lia. cbn [concat]. f_equal.
  replace (msg.(bytes) - 12 + 12) with msg.(bytes) by lia.
  replace (24 + Z.of_nat (List.length d) - 12) with (length msg) by lia. exact E.
Qed.

(** The writes that turn a ping into a pong. *)
Lemma pong_memory mm a n c t mg v d : n = 24 + Z.of_nat (List.length d) ->
  read mm a n = concat (read mm a 12 :: control_fields c t mg v d) ->
  let m := write mm (a + 16) (store 4 Control_Pong_MAGIC) in
  let m := write m (a + 20) (store 4 (Endian_hostToBigEndian32 Version_CURRENT_PROTOCOL)) in
  let m := write m (a + 14) (store 2 Control_PONG_be) in
  let m := write m (a + 12) (store 2 0) in
  let m := write m (a + 12) (store 2 (Checksum_engine m (a + 12) (n - 12))) in
  read m a n = read mm a 12 ++ pong_packet d.
Proof.
  intros En E. unfold control_fields in E. set_field E 3%nat (store 4 Control_Pong_MAGIC) 16 E1.
  set_field E1 4%nat (store 4 (Endian_hostToBigEndian32 Version_CURRENT_PROTOCOL)) 20 E2.
  set_field E2 2%nat (store 2 Control_PONG_be) 14 E3. set_field E3 1%nat (store 2 0) 12 E4.
  cbv zeta. set (k := Checksum_engine _ (a + 12) (n - 12)). set_field E4 1%nat (store 2 k) 12 E5.
  assert (k = control_checksum Control_PONG_be Control_Pong_MAGIC Version_CURRENT_PROTOCOL d) as Ek.
  { apply control_checksum_read; [|lia]. rewrite (read_split _ a n 12) in E4 by lia. cbn [concat] in E4.
    apply app_inj_1 in E4 as [_ E4]; [|rewrite !length_read; done]. exact E4. }
  etrans; [exact E5|]. unfold pong_packet, control_packet, control_fields. rewrite <-Ek. done.
Qed.

(** The answer to a ping: the same packet as a pong, behind the same header. *)
Lemma ping_answered hasPinger q d :
  message_ok q -> Headers_SwitchHeader_SIZE <= padding q -> bytes_ok d -> Z.of_nat (List.length d) < 2 ^ 15 ->
  content q = ping_packet d -> length q = 12 + Z.of_nat (List.length d) ->
  exists pong, handleControlMessage hasPinger q (q.(bytes) - 12) = Some (Error_NONE, [ToSwitch pong]) /\
    length pong = 24 + Z.of_nat (List.length d) /\
    content pong = read q.(buffer) (q.(bytes) - 12) 12 ++ pong_packet d.
Proof.
  intros (Hl & Hp & Ht & Hm) Hpad Hd Hn Hc El. destruct control_types as (T1 & T2 & T3 & R1 & R2 & R3).
  unfold Headers_SwitchHeader_SIZE in Hpad. pose proof (control_region q _ _ _ d Hc El) as E.
  set (a := q.(bytes) - 12) in *. set (n := 24 + Z.of_nat (List.length d)) in *.
  unfold control_fields in E. assert (q.(bytes) = a + 12) as Eb by lia.
  unfold handleControlMessage. rewrite (proj2 (Z.ltb_ge _ _)) by (unfold Control_HEADER_SIZE; lia).
  rewrite (control_packet_verifies Control_PING_be Control_Ping_MAGIC Version_CURRENT_PROTOCOL d) by (done || lia).
  cbn [Z.eqb negb]. unfold Control_type_be. rewrite Eb. replace (a + 12 + 2) with (a + 14) by lia.
  assert (load 2 (buffer q) (a + 14) = Control_PING_be) as ->.
  { rewrite (load_fields _ _ _ _ E 2 2 Control_PING_be 14) by (done || field_length). apply Z.mod_small, R1. }
  rewrite (proj2 (Z.eqb_neq _ _) T1), (proj2 (Z.eqb_neq _ _) T2), Z.eqb_refl.
  rewrite shift_down by (unfold Control_HEADER_SIZE; lia). cbn [mbind option_bind length padding bytes buffer].
  rewrite (proj2 (Z.ltb_ge _ _)) by (unfold Control_HEADER_SIZE, Control_Ping_MIN_SIZE; lia).
  rewrite shift_up by (cbn; unfold Control_HEADER_SIZE; lia). cbn [mbind option_bind length padding bytes buffer with_buffer].
  rewrite shift_up by (cbn; unfold Control_HEADER_SIZE, Headers_SwitchHeader_SIZE; lia).
  cbn [mbind option_bind length padding bytes buffer with_buffer]. eexists. split; [done|]. cbn [length].
  unfold content. cbn [length bytes buffer with_buffer].
  unfold Control_HEADER_SIZE, Headers_SwitchHeader_SIZE, Control_checksum_be, Control_Ping_magic, Control_Ping_version_be. rewrite Eb.
  split; [lia|]. replace (length q - 4 + 4 + 12) with n by lia. replace (a + 12 + 4 - 4 - 12) with a by lia.
  replace (a + 12 + 4 - 4) with (a + 12) by lia. replace (length q - 4 + 4) with (n - 12) by lia.
  replace (a + 12 + 2) with (a + 14) by lia. replace (a + 12 + 4 + 0) with (a + 16) by lia.
  replace (a + 12 + 4 + 4) with (a + 20) by lia. replace (a + 12 + 0) with (a + 12) by lia.
  eapply pong_memory; [done|exact E].
Qed.

(** A pong is given to the pinger with its header. *)
Lemma pong_passed r d :
  message_ok r -> Headers_SwitchHeader_SIZE <= padding r -> bytes_ok d -> Z.of_nat (List.length d) < 2 ^ 15 ->
  content r = pong_packet d -> length r = 12 + Z.of_nat (List.length d) ->
  handleControlMessage true r (r.(bytes) - 12) = Some (Error_NONE, [ToPinger
    {| length := length r + 12; padding := padding r - 12; bytes := r.(bytes) - 12; buffer := r.(buffer) |}]).
Proof.
  intros (Hl & Hp & Ht & Hm) Hpad Hd Hn Hc El. destruct control_types as (T1 & T2 & T3 & R1 & R2 & R3).
  unfold Headers_SwitchHeader_SIZE in Hpad. pose proof (control_region r _ _ _ d Hc El) as E. unfold control_fields in E.
  unfold handleControlMessage. rewrite (proj2 (Z.ltb_ge _ _)) by (unfold Control_HEADER_SIZE; lia).
  rewrite (control_packet_verifies Control_PONG_be Control_Pong_MAGIC Version_CURRENT_PROTOCOL d) by (done || lia).
  cbn [Z.eqb negb]. unfold Control_type_be.
  assert (load 2 (buffer r) (r.(bytes) + 2) = Control_PONG_be) as ->.
  { replace (r.(bytes) + 2) with (r.(bytes) - 12 + 14) by lia.
    rewrite (load_fields _ _ _ _ E 2 2 Control_PONG_be 14) by (done || field_length). apply Z.mod_small, R2. }
  rewrite (proj2 (Z.eqb_neq _ _) T3), Z.eqb_refl.
  rewrite shift_up by (unfold Headers_SwitchHeader_SIZE; lia). done.
Qed.

Definition ping_result (label : Z) (p : SwitchPing) : SwitchPinger_Result :=
  if label =? p.(sp_label) then SwitchPinger_Result_OK else SwitchPinger_Result_LABEL_MISMATCH.

(** What the pinger makes of the echo of a ping that waits in slot [s]. *)
Lemma echo_received msg now ctx s ping p L :
  let d := prefixed s p.(sp_data) in
  message_ok msg -> length msg = 24 + Z.of_nat (List.length d) -> 0 <= s < 256 ->
  Endian_bigEndianToHost64 (load 8 msg.(buffer) msg.(bytes)) = L ->
  Headers_getMessageType msg.(buffer) msg.(bytes) = Headers_SwitchHeader_TYPE_CONTROL ->
  read msg.(buffer) msg.(bytes) (length msg) = read msg.(buffer) msg.(bytes) 12 ++ pong_packet d ->
  ctx.(pinger).(pings) s = Some ping -> ping.(context) = Some p ->
  exists ctx' v, receiveMessage msg now ctx = Some (ctx', Error_NONE, Some
      {| sr_result := ping_result L p; sr_label := L; sr_data := Some v; sr_milliseconds := u32 (u32 now - ping.(timeSent));
         sr_version := Version_CURRENT_PROTOCOL; sr_callback := p.(onResponse) |}) /\
    read v.(sv_buffer) v.(sv_bytes) v.(sv_len) = default [] p.(sp_data) /\
    ctx'.(pinger) = set_ping ctx.(pinger) s None.
Proof.
  intros d (Hl & Hp & Ht & Hm) El Hs HL Htype E Hping Hctx. assert (d = prefixed s p.(sp_data)) as Edef by done. clearbody d. destruct control_types as (T1 & T2 & T3 & R1 & R2 & R3).
  unfold receiveMessage, SwitchHeader_label_be. rewrite Z.add_0_r, Htype, Z.eqb_refl. cbn [negb]. rewrite HL.
  change (?x ++ pong_packet d) with (concat (x :: control_fields (control_checksum Control_PONG_be Control_Pong_MAGIC
    Version_CURRENT_PROTOCOL d) Control_PONG_be Control_Pong_MAGIC Version_CURRENT_PROTOCOL d)) in E.
  unfold control_fields in E.
  rewrite shift_down by (unfold Headers_SwitchHeader_SIZE; lia). cbn [mbind option_bind length padding bytes buffer].
  unfold Headers_SwitchHeader_SIZE, Control_type_be. replace (bytes msg + 12 + 2) with (bytes msg + 14) by lia.
  assert (load 2 (buffer msg) (bytes msg + 14) = Control_PONG_be) as ->.
  { rewrite (load_fields _ _ _ _ E 2 2 Control_PONG_be 14) by (done || field_length). apply Z.mod_small, R2. }
  rewrite Z.eqb_refl. rewrite shift_down by (cbn; unfold Control_HEADER_SIZE; lia).
  cbn [mbind option_bind length padding bytes buffer]. unfold Control_HEADER_SIZE, Control_Pong_MIN_SIZE, Control_Ping_MIN_SIZE.
  rewrite (proj2 (Z.leb_le _ _)) by lia. unfold Control_Ping_version_be, Control_Ping_magic.
  rewrite shift_down by (cbn; unfold Control_Pong_HEADER_SIZE, Control_Ping_HEADER_SIZE; lia).
  cbn [mbind option_bind length padding bytes buffer].
  replace (bytes msg + 12 + 4 + 0) with (bytes msg + 16) by lia. replace (bytes msg + 12 + 4 + 4) with (bytes msg + 20) by lia.
  assert (load 4 (buffer msg) (bytes msg + 16) = Control_Pong_MAGIC) as ->.
  { rewrite (load_fields _ _ _ _ E 3 4 Control_Pong_MAGIC 16) by (done || field_length). apply Z.mod_small, R3. }
  rewrite Z.eqb_refl. cbn [negb].
  assert (Endian_bigEndianToHost32 (load 4 (buffer msg) (bytes msg + 20)) = Version_CURRENT_PROTOCOL) as ->.
  { rewrite (load_fields _ _ _ _ E 4 4 (Endian_hostToBigEndian32 Version_CURRENT_PROTOCOL) 20) by (done || field_length).
    rewrite Z.mod_small by (apply hostToBigEndian32_range; unfold Version_CURRENT_PROTOCOL; lia).
    apply bigEndianToHost32_host. unfold Version_CURRENT_PROTOCOL. lia. }
  unfold Control_Pong_HEADER_SIZE, Control_Ping_HEADER_SIZE. cbn [set_incoming pinger incomingLabel incomingVersion isError].
  replace (bytes msg + 12 + 4 + 8) with (bytes msg + 24) by lia.
  replace (length msg - 12 - 4 - 8) with (Z.of_nat (List.length d)) by lia. rewrite u64_small by lia.
  assert (read (buffer msg) (bytes msg + 24) (Z.of_nat (List.length d)) = d) as Ed.
  { apply (read_fields _ _ _ _ E 5); [done|field_length|done]. }
  pose proof (echo_slot (buffer msg) (bytes msg + 24) s p.(sp_data) (Z.of_nat (List.length d)) Hs ltac:(lia) (f_equal (fun l => Z.of_nat (List.length l)) Edef) (eq_trans Ed Edef)) as Hecho.
  cbv zeta in Hecho. set (view := {| sv_buffer := buffer msg; sv_bytes := bytes msg + 24; sv_len := Z.of_nat (List.length d) |}) in *.
  destruct Hecho as (Es & Elen & Edata). unfold Pinger_pongReceived. rewrite Es.
  rewrite (proj2 (Z.leb_gt _ _)) by (unfold Pinger_MAX_CONCURRENT_PINGS; lia). rewrite Hping. cbn [callback].
  unfold onPingResponse. cbn [resp_context]. rewrite Hctx. cbn [mbind option_bind resp_data resp_milliseconds incomingLabel incomingVersion isError].
  match goal with |- context [{| sr_result := ?e; sr_label := _; sr_data := _; sr_milliseconds := _; sr_version := _; sr_callback := _ |}] => assert (e = ping_result L p) as -> end.
  - unfold ping_result. cbn [set_incoming incomingLabel isError]. destruct (L =? sp_label p); cbn [negb]; [|done]. rewrite Elen. unfold view_equals. rewrite Elen.
    change (sv_buffer (after_slot view)) with (buffer msg). rewrite <-Elen, Edata, Elen.
    destruct (sp_data p) as [d'|]; [|done]. cbn [default from_option id orb]. rewrite Z.eqb_refl.
    rewrite (proj2 (memcmp_0 d' d' eq_refl) eq_refl). done.
  - do 2 eexists. split; [done|]. split; [exact Edata|done].
Qed.

Lemma content_header msg h pkt : content msg = h ++ pkt -> List.length h = 12%nat -> 12 <= length msg ->
  read msg.(buffer) msg.(bytes) 12 = h.
Proof.
  unfold content. intros C Lh Hl. rewrite (read_split _ _ _ 12) in C by lia.
  apply app_inj_1 in C as [C _]; [exact C|rewrite length_read, Lh; done].
Qed.

Lemma arrives_packet L sent got h pkt n : arrives L sent got -> length sent = 24 + n ->
  content sent = h ++ pkt -> List.length h = 12%nat -> content got = pkt /\ length got = 12 + n.
Proof.
  intros [R1 R2 R3 R4 R5 R6] Ln C Lh. unfold Headers_SwitchHeader_SIZE in R5. rewrite C, drop_app_length' in R6 by done.
  split; [exact R6|lia].
Qed.

Lemma newPing_slot label data ms cb t0 ctx ctx' s :
  SwitchPinger_newPing label data ms cb t0 ctx = (ctx', Some s) ->
  Z.of_nat (List.length (default [] data)) <= 256 /\ 0 <= s < 256 /\
  ctx'.(pinger).(pings) s = Some (with_context (new_ping s data ms t0) {| sp_label := label; sp_data := data; onResponse := cb |}).
Proof.
  unfold SwitchPinger_newPing. destruct (match data with Some d => _ | None => false end) eqn:El; [done|].
  unfold Pinger_newPing. destruct (free_ping _) as [|i] eqn:Ef; [done|]. intros [= <- <-].
  split; [|split].
  - destruct data as [d|]; [|cbn; lia]. unfold Control_Ping_MAX_SIZE in El. cbn [default]. apply Z.ltb_ge in El. exact El.
  - apply free_ping_spec in Ef as [Ef _]. exact Ef.
  - cbn [pinger set_pinger]. unfold set_context. rewrite set_ping_eq, set_ping_eq. done.
Qed.

(** C33: a ping sent to a label is answered by whoever receives it with a pong
    under the header it came with, and when the pong comes back the user's
    callback is called once, with the data that was sent, the time that passed
    and the protocol version of the answering node: as a success if the pong
    carries the label of the ping, as a mismatch if it carries another. *)
Theorem SwitchPinger_echo (label : Z) (data : option String) (ms cb t0 s : Z) (ctx ctx' : SwitchPinger) (stack : mem) :
  0 <= label < 2 ^ 64 -> bytes_ok (default [] data) ->
  SwitchPinger_newPing label data ms cb t0 ctx = (ctx', Some s) ->
  exists ping, SwitchPinger_sendPing stack s ctx' = Some ping /\
    read ping.(buffer) ping.(bytes) 12 = store 8 (Endian_hostToBigEndian64 label) ++ store 4 (Endian_hostToBigEndian32 (1 << 24)) /\
    forall hasPinger L1 q, arrives L1 ping q ->
    exists pong, handleControlMessage hasPinger q (q.(bytes) - 12) = Some (Error_NONE, [ToSwitch pong]) /\
      read pong.(buffer) pong.(bytes) 12 = read q.(buffer) (q.(bytes) - 12) 12 /\
      forall L2 r, 0 <= L2 < 2 ^ 64 -> arrives L2 pong r ->
      exists answer, handleControlMessage true r (r.(bytes) - 12) = Some (Error_NONE, [ToPinger answer]) /\
        forall now ctx1, ctx1.(pinger).(pings) s = ctx'.(pinger).(pings) s ->
        exists ctx2 v, receiveMessage answer now ctx1 = Some (ctx2, Error_NONE, Some
          {| sr_result := if L2 =? label then SwitchPinger_Result_OK else SwitchPinger_Result_LABEL_MISMATCH;
             sr_label := L2; sr_data := Some v; sr_milliseconds := u32 (u32 now - u32 t0);
             sr_version := Version_CURRENT_PROTOCOL; sr_callback := cb |}) /\
          read v.(sv_buffer) v.(sv_bytes) v.(sv_len) = default [] data /\
          ctx2.(pinger) = set_ping ctx1.(pinger) s None.
Proof.
  intros HL Hdata Hnew. destruct (newPing_slot _ _ _ _ _ _ _ _ Hnew) as (Hlen & Hs & Hping).
  assert (bytes_ok (prefixed s data)) as Hd by (apply Forall_app; split; [apply store_ok|exact Hdata]).
  assert (Z.of_nat (List.length (prefixed s data)) = 4 + Z.of_nat (List.length (default [] data))) as Hl
    by (unfold prefixed; rewrite length_app, length_store; lia).
  unfold SwitchPinger_sendPing. rewrite Hping. cbn [mbind option_bind Pinger_sendPing with_context new_ping context ping_data].
  destruct (sendPing_spec stack (prefixed s data) {| sp_label := label; sp_data := data; onResponse := cb |}) as (ping & E1 & L1 & C1); [lia|].
  exists ping. split; [exact E1|]. set (d := prefixed s data) in *. split.
  { rewrite (content_header _ _ _ C1); [|cbn [header_fields concat]; rewrite !length_app, !length_store; done|lia].
    cbn [header_fields concat sp_label]. rewrite app_nil_r. done. }
  intros hasPinger Lq q Hq.
  destruct (arrives_packet _ _ _ _ _ _ Hq L1 C1) as (Cq & Lq');
    [cbn [header_fields concat]; rewrite !length_app, !length_store; done|]. destruct Hq as [Q1 Q2 _ _ _ _].
  destruct (ping_answered hasPinger q d Q1 Q2 Hd ltac:(lia) Cq Lq') as (pong & E2 & L2 & C2).
  exists pong. split; [exact E2|]. split.
  { apply (content_header _ _ _ C2); [rewrite length_read; done|lia]. }
  intros L r HL2 Hr. destruct (arrives_packet _ _ _ _ _ _ Hr L2 C2) as (Cr & Lr); [rewrite length_read; done|].
  destruct Hr as [R1 R2 R3 R4 _ _]. unfold Headers_SwitchHeader_SIZE, SwitchHeader_label_be in *. rewrite Z.add_0_r in R3.
  eexists. split; [apply (pong_passed r d R1 R2 Hd); [lia|exact Cr|lia]|].
  intros now ctx1 Hctx1. destruct R1 as (M1 & M2 & M3 & M4).
  apply (echo_received _ now ctx1 s (with_context (new_ping s data ms t0) {| sp_label := label; sp_data := data; onResponse := cb |})
    {| sp_label := label; sp_data := data; onResponse := cb |} L); cbn [length padding bytes buffer]; try done.
  - split_and!; cbn; (lia || done).
  - cbn [sp_data]. fold d. lia.
  - rewrite R3. apply bigEndianToHost64_host, HL2.
  - rewrite (read_split _ _ (length r + 12) 12) by lia. f_equal. replace (bytes r - 12 + 12) with (bytes r) by lia.
    replace (length r + 12 - 12) with (length r) by lia. exact Cr.
Qed.
End echo.

(** ** Short error packets *)
Section runt.
  Context {P : Platform}.

(** The tests of the length of an error packet leave out the control header
    and the headers of the ping that caused it. An error packet of 20 to 31
    bytes that claims to be caused by a ping is given to the switch pinger,
    which tries to shift 32 bytes off it: the assertion in Message_shift aborts
    the process, whatever the state of the pinger. *)
Theorem handleControlMessage_runt_error_aborts (m : Message) :
  let ctrl := m.(bytes) in
  let label := Endian_bigEndianToHost64 (load 8 m.(buffer) (ctrl - 12)) in
  Headers_SwitchHeader_SIZE <= padding m -> 20 <= length m < 32 ->
  Headers_getMessageType m.(buffer) (ctrl - 12) = Headers_SwitchHeader_TYPE_CONTROL ->
  Checksum_engine m.(buffer) ctrl (length m) = 0 ->
  load 2 m.(buffer) (ctrl + 2) = Control_ERROR_be ->
  Headers_getMessageType m.(buffer) (ctrl + 8) = Headers_SwitchHeader_TYPE_CONTROL ->
  load 2 m.(buffer) (ctrl + 22) = Control_PING_be ->
  LabelSplicer_isOneHop label = false ->
  exists out, handleControlMessage true m (ctrl - 12) = Some (Error_NONE, [BrokenPath label; ToPinger out]) /\
    forall now ctx, receiveMessage out now ctx = None.
Proof.
  intros ctrl label Hp Hl Htype Hsum Herr Hcause Hping Hhop. unfold Headers_SwitchHeader_SIZE in Hp. destruct control_types as (_ & _ & T & _).
  unfold handleControlMessage, SwitchHeader_label_be, Control_type_be, Control_content, Control_Error_cause, Control_causeCtrl,
    Control_HEADER_SIZE, Control_Error_MIN_SIZE, Control_Error_HEADER_SIZE, Headers_SwitchHeader_SIZE, Control_content.
  fold ctrl. rewrite (Z.add_0_r (ctrl - 12)). fold label.
  rewrite (proj2 (Z.ltb_ge _ _)), Hsum, Herr, Z.eqb_refl, (proj2 (Z.ltb_ge _ _)) by lia. cbn [negb Z.eqb].
  replace (ctrl + 4 + 4) with (ctrl + 8) by lia. rewrite Hcause, Z.eqb_refl, (proj2 (Z.ltb_ge _ _)) by lia.
  replace (ctrl + (4 + Control_Error_cause + 12) + 2) with (ctrl + 22) by (unfold Control_Error_cause; lia).
  rewrite Hping, (Z.eqb_refl Control_PING_be), Hhop. cbn [negb andb]. rewrite shift_up by lia. cbn [mbind option_bind].
  eexists. split; [done|]. intros now ctx. unfold receiveMessage. cbn [length bytes buffer padding].
  replace (bytes m - 12) with (ctrl - 12) by lia. rewrite Htype, Z.eqb_refl. cbn [negb].
  rewrite shift_down by (cbn; unfold Headers_SwitchHeader_SIZE; lia). cbn [mbind option_bind length bytes buffer padding].
  unfold Headers_SwitchHeader_SIZE, Control_type_be. replace (ctrl - 12 + 12 + 2) with (ctrl + 2) by lia.
  rewrite Herr, (proj2 (Z.eqb_neq _ _) (not_eq_sym T)), Z.eqb_refl.
  unfold Message_shift. cbn [length].
  unfold Control_HEADER_SIZE, Control_Error_HEADER_SIZE, Control_Ping_HEADER_SIZE, Headers_SwitchHeader_SIZE.
  change (0 <? - (4 + 4 + 12 + 4 + 8)) with false. cbv iota. rewrite (proj2 (Z.leb_gt _ _)) by lia. done.
Qed.
End runt.

(** A message that holds a switch header and a control packet, aligned on the
    packet. *)
Definition demo_control (header packet : list Z) : Message :=
  {| length := Z.of_nat (List.length packet); padding := 100; bytes := 100; buffer := write (of_list []) 88 (header ++ packet) |}.
Definition demo_header (label : Z) : list Z := be_split 8 label ++ [1; 0; 0; 0].

(** 24 bytes from three hops away. *)
Definition demo_runt : Message :=
  demo_control (demo_header 0x1353) ([0xFE; 0xF9; 0; 2; 0; 0; 0; 1] ++ [0; 0; 0; 0; 0; 0; 0; 0; 1; 0; 0; 0] ++ [0; 0; 0; 3]).

Lemma handleControlMessage_runt_error_aborts_witness :
  exists out, @handleControlMessage x86 true demo_runt 88 = Some (Error_NONE, [BrokenPath 0x1353; ToPinger out]) /\
    @receiveMessage x86 out 0 SwitchPinger_new = None.
Proof.
  destruct (@handleControlMessage_runt_error_aborts x86 demo_runt) as (out & E & H);
    [discriminate|split; [discriminate|reflexivity]|vm_compute; reflexivity..|].
  exists out. split; [exact E|apply H].
Defined.

(** A ping with three bytes of data: it arrives as [demo_q], its answer as
    [demo_r], 60 milliseconds after it was made. *)
Definition demo_pinger : SwitchPinger := (@SwitchPinger_newPing x86 0x1353 (Some [1; 2; 3]) 500 7 1000 SwitchPinger_new).1.
Definition demo_data : list Z := @prefixed x86 0 (Some [1; 2; 3]).
Definition demo_q : Message := demo_control (demo_header 0x15) (@ping_packet x86 demo_data).
Definition demo_r : Message := demo_control (demo_header 0x1353) (@pong_packet x86 demo_data).
Definition demo_sent : Message := default demo_q (@SwitchPinger_sendPing x86 (of_list []) 0 demo_pinger).
Definition demo_reply : Message :=
  match @handleControlMessage x86 true demo_q 88 with Some (_, [ToSwitch pong]) => pong | _ => demo_q end.

Lemma demo_control_ok header packet : bytes_ok (header ++ packet) -> (List.length packet < 1000)%nat ->
  message_ok (demo_control header packet).
Proof.
  intros Hb Hl. unfold demo_control, message_ok. cbn. split_and!; try lia. apply write_ok; [|exact Hb].
  apply of_list_ok. constructor.
Qed.

Ltac demo_arrives E :=
  split; [apply demo_control_ok; [apply bytes_ok_check; vm_compute; reflexivity|vm_compute; lia]
         |vm_compute; discriminate|vm_compute; reflexivity|vm_compute; reflexivity
         |rewrite E; vm_compute; reflexivity|rewrite E; vm_compute; reflexivity].

Lemma SwitchPinger_echo_witness : exists answer,
  @handleControlMessage x86 true demo_r 88 = Some (Error_NONE, [ToPinger answer]) /\
  exists ctx v, @receiveMessage x86 answer 1060 demo_pinger = Some (ctx, Error_NONE, Some
    {| sr_result := SwitchPinger_Result_OK; sr_label := 0x1353; sr_data := Some v; sr_milliseconds := 60;
       sr_version := 2; sr_callback := 7 |}) /\ read v.(sv_buffer) v.(sv_bytes) v.(sv_len) = [1; 2; 3].
Proof.
  destruct (@SwitchPinger_echo x86 0x1353 (Some [1; 2; 3]) 500 7 1000 0 SwitchPinger_new demo_pinger (of_list [])) as (ping & E1 & _ & H1).
  - split; [discriminate|reflexivity].
  - repeat (constructor; [unfold is_byte; lia|]). constructor.
  - vm_compute. reflexivity.
  - assert (ping = demo_sent) as E by (unfold demo_sent; rewrite E1; done).
    destruct (H1 true 0x15 demo_q) as (pong & E2 & _ & H2); [demo_arrives E|].
    assert (pong = demo_reply) as E' by (change (demo_q.(bytes) - 12) with 88 in E2; unfold demo_reply; rewrite E2; done).
    destruct (H2 0x1353 demo_r) as (answer & E3 & H3); [split; [discriminate|reflexivity]|demo_arrives E'|].
    exists answer. split; [exact E3|]. destruct (H3 1060 demo_pinger eq_refl) as (ctx & v & E4 & Ev & _).
    exists ctx, v. split; [exact E4|exact Ev].
Defined.
