(* ===== verification/InterfaceController.v ===== *)
(** * Neighbours (interface/InterfaceController.h, net/DefaultInterfaceController.c)

    The interface controller keeps a CryptoAuth session with every neighbour and
    attaches it to the switch: what comes out of the session goes into the switch
    and what the switch sends goes through the session to the neighbour's
    interface. It pings neighbours that are silent, forgets those that stay so,
    and merges a neighbour that comes back with what is left of him.

    A peer is known by its address ([Iface]: the switch's interface is its first
    field) and lives in the memory of the interface it is reached by. [peers] has
    the peers whose memory was not given back; to follow a pointer to another one
    is an abort, [None], as is a failed assertion and a NULL pointer. The number
    of a ping's callback is the address of the peer that it is called with. The
    switch and the sessions are those of SwitchCore and CryptoAuth; what leaves
    the controller is a list of outputs. The clock stands still while something is
    handled. *)
From stdpp Require Import gmap.
From S2P Require Import Prelude Memory Endian Bits Headers Message NaCl CryptoAuth Address SwitchCore Map Pinger SwitchPinger DHT.
Open Scope Z_scope.

Definition UNRESPONSIVE_AFTER_MILLISECONDS : Z := 20 * 1024.
Definition PING_AFTER_MILLISECONDS : Z := 3 * 1024.
Definition PING_INTERVAL_MILLISECONDS : Z := 1024.
Definition TIMEOUT_MILLISECONDS : Z := 2 * 1024.
Definition FORGET_AFTER_MILLISECONDS : Z := 256 * 1024.

Definition InterfaceController_registerPeer_INTERNAL : Z := -3.
Definition InterfaceController_registerPeer_BAD_KEY : Z := -2.
Definition InterfaceController_registerPeer_OUT_OF_SPACE : Z := -1.

(** ** State *)
Inductive InterfaceController_PeerState := UNAUTHENTICATED | HANDSHAKE | ESTABLISHED | UNRESPONSIVE.

(** [state < ESTABLISHED]. *)
Definition unestablished (s : InterfaceController_PeerState) : bool :=
  match s with UNAUTHENTICATED | HANDSHAKE => true | ESTABLISHED | UNRESPONSIVE => false end.

Record IFCPeer := {
  cryptoAuthIf : Wrapper;
  external : Iface;
  switchLabel : Z;
  timeOfLastMessage : Z;
  peer_handle : Z;
  transient : bool;
  peer_state : InterfaceController_PeerState
}.

Definition set_cryptoAuthIf (p : IFCPeer) (w : Wrapper) : IFCPeer :=
  {| cryptoAuthIf := w; external := p.(external); switchLabel := p.(switchLabel); timeOfLastMessage := p.(timeOfLastMessage);
     peer_handle := p.(peer_handle); transient := p.(transient); peer_state := p.(peer_state) |}.
Definition set_switchLabel (p : IFCPeer) (label : Z) : IFCPeer :=
  {| cryptoAuthIf := p.(cryptoAuthIf); external := p.(external); switchLabel := label; timeOfLastMessage := p.(timeOfLastMessage);
     peer_handle := p.(peer_handle); transient := p.(transient); peer_state := p.(peer_state) |}.
Definition set_timeOfLastMessage (p : IFCPeer) (t : Z) : IFCPeer :=
  {| cryptoAuthIf := p.(cryptoAuthIf); external := p.(external); switchLabel := p.(switchLabel); timeOfLastMessage := t;
     peer_handle := p.(peer_handle); transient := p.(transient); peer_state := p.(peer_state) |}.
Definition set_state (p : IFCPeer) (s : InterfaceController_PeerState) : IFCPeer :=
  {| cryptoAuthIf := p.(cryptoAuthIf); external := p.(external); switchLabel := p.(switchLabel);
     timeOfLastMessage := p.(timeOfLastMessage); peer_handle := p.(peer_handle); transient := p.(transient); peer_state := s |}.

(** The keys of the map are pointers. *)
#[export] Instance pointer_key `{Platform} : MapKey Iface := {
  Map_hash := fun p => load 4 (of_list (store 8 p)) 4;
  Map_compare := fun p q => Bits_memcmp (store 8 p) (store 8 q)
}.
Lemma pointer_compare `{Platform} p q : 0 <= p < 2 ^ 64 -> 0 <= q < 2 ^ 64 -> (Bits_memcmp (store 8 p) (store 8 q) = 0 <-> p = q).
Proof.
  intros Hp Hq. rewrite memcmp_0 by (rewrite !length_store; done). split; [|congruence]. intros E.
  rewrite <-(Z.mod_small p (2 ^ (8 * Z.of_nat 8))), <-(Z.mod_small q (2 ^ (8 * Z.of_nat 8))) by done.
  rewrite <-(load_write_store 8 p (fun _ => 0) 0), <-(load_write_store 8 q (fun _ => 0) 0), E. done.
Qed.
Definition pointer_key_laws `{Platform} : MapKeyLaws Iface :=
  {| key_valid := fun p => 0 <= p < 2 ^ 64; compare_eq := pointer_compare |}.

(** What is sent: to a neighbour, to another interface of the switch (the
    router's), to the routing table; and memory that is given back. *)
Inductive Output :=
| ToNeighbour (external : Iface) (message : Message)
| ToOther (iface : Iface) (message : Message)
| AddNode (address : Address) (version : Z)
| Freed (external : Iface).

(** What is behind the interfaces: the sizes that an external interface states,
    what it returns, what another interface of the switch makes of a message, and
    what encryption leaves in a message's buffer and lies on the stack. *)
Class Wires : Type := {
  external_padding : Iface -> Z;
  external_max : Iface -> Z;
  external_code : Iface -> Message -> Z;
  other_send : Iface -> Message -> Message * Z;
  trashed : mem;
  ping_stack : mem
}.

Section controller.
  Context {P : Platform} {N : NaCl} {R : RandomSource} {Wi : Wires}.

#[export] Instance Iface_inhabited : Inhabited Iface := populate 0.

Record InterfaceController := {
  peers : gmap Iface IFCPeer;
  peerMap : Map Iface Iface;
  ca : Context;
  rng : Rand;
  switchCore : SwitchCore;
  switchPinger : SwitchPinger;
  unresponsiveAfterMilliseconds : Z;
  pingAfterMilliseconds : Z;
  timeoutMilliseconds : Z;
  forgetAfterMilliseconds : Z;
  pingCount : Z;
  beaconPassword : list Z;
  seconds : Z;
  milliseconds : Z;
  outputs : list Output
}.

Abbreviation act := (M InterfaceController).

Definition with_peers (g : gmap Iface IFCPeer) (m : Map Iface Iface) (d : InterfaceController) : InterfaceController :=
  {| peers := g; peerMap := m; ca := d.(ca); rng := d.(rng); switchCore := d.(switchCore); switchPinger := d.(switchPinger);
     unresponsiveAfterMilliseconds := d.(unresponsiveAfterMilliseconds); pingAfterMilliseconds := d.(pingAfterMilliseconds);
     timeoutMilliseconds := d.(timeoutMilliseconds); forgetAfterMilliseconds := d.(forgetAfterMilliseconds);
     pingCount := d.(pingCount); beaconPassword := d.(beaconPassword); seconds := d.(seconds);
     milliseconds := d.(milliseconds); outputs := d.(outputs) |}.
Definition with_rng (r : Rand) (d : InterfaceController) : InterfaceController :=
  {| peers := d.(peers); peerMap := d.(peerMap); ca := d.(ca); rng := r; switchCore := d.(switchCore);
     switchPinger := d.(switchPinger); unresponsiveAfterMilliseconds := d.(unresponsiveAfterMilliseconds);
     pingAfterMilliseconds := d.(pingAfterMilliseconds); timeoutMilliseconds := d.(timeoutMilliseconds);
     forgetAfterMilliseconds := d.(forgetAfterMilliseconds); pingCount := d.(pingCount);
     beaconPassword := d.(beaconPassword); seconds := d.(seconds); milliseconds := d.(milliseconds); outputs := d.(outputs) |}.
Definition with_switch (core : SwitchCore) (d : InterfaceController) : InterfaceController :=
  {| peers := d.(peers); peerMap := d.(peerMap); ca := d.(ca); rng := d.(rng); switchCore := core;
     switchPinger := d.(switchPinger); unresponsiveAfterMilliseconds := d.(unresponsiveAfterMilliseconds);
     pingAfterMilliseconds := d.(pingAfterMilliseconds); timeoutMilliseconds := d.(timeoutMilliseconds);
     forgetAfterMilliseconds := d.(forgetAfterMilliseconds); pingCount := d.(pingCount);
     beaconPassword := d.(beaconPassword); seconds := d.(seconds); milliseconds := d.(milliseconds); outputs := d.(outputs) |}.
Definition with_pinger (sp : SwitchPinger) (count : Z) (d : InterfaceController) : InterfaceController :=
  {| peers := d.(peers); peerMap := d.(peerMap); ca := d.(ca); rng := d.(rng); switchCore := d.(switchCore);
     switchPinger := sp; unresponsiveAfterMilliseconds := d.(unresponsiveAfterMilliseconds);
     pingAfterMilliseconds := d.(pingAfterMilliseconds); timeoutMilliseconds := d.(timeoutMilliseconds);
     forgetAfterMilliseconds := d.(forgetAfterMilliseconds); pingCount := count;
     beaconPassword := d.(beaconPassword); seconds := d.(seconds); milliseconds := d.(milliseconds); outputs := d.(outputs) |}.
Definition with_time (s ms : Z) (d : InterfaceController) : InterfaceController :=
  {| peers := d.(peers); peerMap := d.(peerMap); ca := d.(ca); rng := d.(rng); switchCore := d.(switchCore);
     switchPinger := d.(switchPinger); unresponsiveAfterMilliseconds := d.(unresponsiveAfterMilliseconds);
     pingAfterMilliseconds := d.(pingAfterMilliseconds); timeoutMilliseconds := d.(timeoutMilliseconds);
     forgetAfterMilliseconds := d.(forgetAfterMilliseconds); pingCount := d.(pingCount);
     beaconPassword := d.(beaconPassword); seconds := s; milliseconds := ms; outputs := d.(outputs) |}.
Definition with_output (o : Output) (d : InterfaceController) : InterfaceController :=
  {| peers := d.(peers); peerMap := d.(peerMap); ca := d.(ca); rng := d.(rng); switchCore := d.(switchCore);
     switchPinger := d.(switchPinger); unresponsiveAfterMilliseconds := d.(unresponsiveAfterMilliseconds);
     pingAfterMilliseconds := d.(pingAfterMilliseconds); timeoutMilliseconds := d.(timeoutMilliseconds);
     forgetAfterMilliseconds := d.(forgetAfterMilliseconds); pingCount := d.(pingCount);
     beaconPassword := d.(beaconPassword); seconds := d.(seconds); milliseconds := d.(milliseconds);
     outputs := d.(outputs) ++ [o] |}.

Definition emit (o : Output) : act unit := modify (with_output o).
Definition put_peer (ep : Iface) (p : IFCPeer) : act unit := modify (fun d => with_peers (<[ep := p]> d.(peers)) d.(peerMap) d).

(** What a pointer to a peer points to. *)
Definition peer (ep : Iface) : act IFCPeer := d ← gets id; lift (d.(peers) !! ep).

Definition getState (ep : Iface) : act Z :=
  p ← peer ep; d ← gets id;
  let '(wrapper, state) := CryptoAuth_getState d.(ca) d.(seconds) p.(cryptoAuthIf) in
  _ ← put_peer ep (set_cryptoAuthIf p wrapper); mret state.

(** ** From the switch to a neighbour *)

(** A session that sends does not deliver. *)
Fixpoint send_events (external : Iface) (events : list event) (code : Z) : act Z :=
  match events with
  | [] => mret code
  | SendWrapped m :: events | SendBuffered m _ :: events =>
      _ ← emit (ToNeighbour external m); send_events external events (external_code external m)
  | Deliver _ :: _ => abort
  end.

(** The message as it is afterwards, and the code. *)
Definition sendFromSwitch (ep : Iface) (msg : Message) : act (Message * Z) :=
  p ← peer ep; d ← gets id;
  let len := u16 (if length msg <? 255 then length msg else 255) in
  let top := read msg.(buffer) msg.(bytes) len in
  '(wrapper, r, events, result) ← lift (CryptoAuth.sendMessage d.(ca) d.(seconds) msg p.(cryptoAuthIf) d.(rng));
  _ ← put_peer ep (set_cryptoAuthIf p wrapper);
  _ ← modify (with_rng r);
  code ← send_events p.(external) events 0;
  let ret := match result with Code c => c | FromCallee => code end in
  if negb (ret =? 0) || (d.(unresponsiveAfterMilliseconds) <? u64 (d.(milliseconds) - p.(timeOfLastMessage))) then
    let msg := {| length := len; padding := u16 msg.(padding); bytes := msg.(bytes); buffer := write trashed msg.(bytes) top |} in
    mret (msg, if ret =? 0 then Error_UNDELIVERABLE else ret)
  else mret (with_buffer msg trashed, Error_NONE).

(** The interfaces of the switch, as it sees them. *)
Definition switch_sends (d : InterfaceController) (iface : Iface) (msg : Message) : Message * Z :=
  match d.(peers) !! iface with
  | Some _ => match sendFromSwitch iface msg d with Some (result, _) => result | None => (msg, 0) end
  | None => other_send iface msg
  end.

Fixpoint send_all (sent : list Sent) : act unit :=
  match sent with
  | [] => mret tt
  | (iface, msg) :: sent =>
      d ← gets id;
      _ ← match d.(peers) !! iface with
          | Some _ => _ ← sendFromSwitch iface msg; mret tt
          | None => emit (ToOther iface msg)
          end;
      send_all sent
  end.

(** [switchIf->receiveMessage] of the interface in a slot. *)
Definition into_switch (sourceIndex : Z) (msg : Message) : act Z :=
  d ← gets id;
  sent ← lift (SwitchCore.receiveMessage (switch_sends d) d.(switchCore) sourceIndex msg);
  _ ← send_all sent; mret Error_NONE.

Definition peer_into_switch (ep : Iface) (msg : Message) : act Z :=
  _ ← peer ep; d ← gets id;
  slot ← lift (d.(switchCore).(receiverContext) !! ep);
  into_switch slot msg.
(** ** Peers that go *)
Definition closeInterface (toClose : Iface) : act unit :=
  p ← peer toClose; d ← gets id;
  let index := Map_indexForHandle p.(peer_handle) d.(peerMap) in
  if negb (0 <=? index) then abort
  else modify (fun d => with_peers d.(peers) (fst (Map_remove index d.(peerMap))) d).

(** The allocator of the interface that a peer is reached by is freed: the jobs of
    the controller and the switch run, then the peer's memory is gone. *)
Definition free_external (ep : Iface) : act unit :=
  p ← peer ep;
  _ ← closeInterface ep;
  _ ← modify (fun d => with_switch (free_interface d.(switchCore) ep) d);
  _ ← modify (fun d => with_peers (delete ep d.(peers)) d.(peerMap) d);
  emit (Freed p.(external)).

(** ** Pings *)
Definition ping_peer (ep : Iface) : act unit :=
  p ← peer ep; d ← gets id;
  let '(pinger, ping) :=
    SwitchPinger_newPing p.(switchLabel) (Some []) d.(timeoutMilliseconds) ep d.(milliseconds) d.(switchPinger) in
  _ ← modify (with_pinger pinger d.(pingCount));
  ping ← lift ping;
  msg ← lift (SwitchPinger_sendPing ping_stack ping pinger);
  _ ← into_switch 1 msg; mret tt.

(** What the loop does with one peer. *)
Definition check_peer (ep : Iface) : act unit :=
  p ← peer ep; d ← gets id;
  let now := d.(milliseconds) in
  if u64 (p.(timeOfLastMessage) + d.(pingAfterMilliseconds)) <? now then
    if p.(transient) && (u64 (p.(timeOfLastMessage) + d.(forgetAfterMilliseconds)) <? now) then
      _ ← free_external ep; ping_peer ep
    else if u64 (p.(timeOfLastMessage) + d.(unresponsiveAfterMilliseconds)) <? now then
      if negb (d.(pingCount) mod 8 =? 0) then mret tt
      else _ ← put_peer ep (set_state p UNRESPONSIVE); ping_peer ep
    else ping_peer ep
  else mret tt.

(** The map has [n] rows from [i] on at most: none is added meanwhile. *)
Fixpoint pingCallback_loop (n : nat) (i : Z) : act unit :=
  match n with
  | O => mret tt
  | S n =>
      d ← gets id;
      if i <? d.(peerMap).(count) then
        _ ← check_peer (d.(peerMap).(values) i); pingCallback_loop n (i + 1)
      else mret tt
  end.

Definition pingCallback : act unit :=
  _ ← modify (fun d => with_pinger d.(switchPinger) (u32 (d.(pingCount) + 1)) d);
  d ← gets id;
  pingCallback_loop (Z.to_nat d.(peerMap).(count)) 0.

Definition onPingResponse (r : SwitchPinger_Response) : act unit :=
  match r.(sr_result) with
  | SwitchPinger_Result_OK =>
      p ← peer r.(sr_callback);
      emit (AddNode {| ip6 := repeat 0 16; key := CryptoAuth_getHerPublicKey p.(cryptoAuthIf); path := p.(switchLabel) |}
              r.(sr_version))
  | _ => mret tt
  end.

(** A pong, or an error that a ping caused, comes to the pinger. *)
Definition incomingForPinger (msg : Message) : act Z :=
  d ← gets id;
  '(pinger, code, response) ← lift (SwitchPinger.receiveMessage msg d.(milliseconds) d.(switchPinger));
  _ ← modify (with_pinger pinger d.(pingCount));
  _ ← match response with Some r => onPingResponse r | None => mret tt end;
  mret code.

(** ** From a neighbour to the switch *)
Fixpoint moveEndpoint_loop (n : nat) (i : Z) (ep : Iface) (herKey : list Z) : act unit :=
  match n with
  | O => mret tt
  | S n =>
      d ← gets id;
      let thisEp := d.(peerMap).(values) i in
      this ← peer thisEp;
      if negb (thisEp =? ep) && (Bits_memcmp (CryptoAuth_getHerPublicKey this.(cryptoAuthIf)) herKey =? 0) then
        p ← peer ep;
        _ ← put_peer ep (set_switchLabel p this.(switchLabel));
        core ← lift (SwitchCore_swapInterfaces d.(switchCore) thisEp ep);
        _ ← modify (with_switch core);
        free_external thisEp
      else moveEndpoint_loop n (i + 1) ep herKey
  end.

Definition moveEndpointIfNeeded (ep : Iface) : act unit :=
  p ← peer ep; d ← gets id;
  moveEndpoint_loop (Z.to_nat d.(peerMap).(count)) 0 ep (CryptoAuth_getHerPublicKey p.(cryptoAuthIf)).

Definition become (ep : Iface) (s : InterfaceController_PeerState) : act unit := p ← peer ep; put_peer ep (set_state p s).

(** [false]: the message is dropped. *)
Definition admit_message (msg : Message) (ep : Iface) : act bool :=
  p ← peer ep;
  if unestablished p.(peer_state) then
    state ← getState ep;
    if CryptoAuth_HANDSHAKE3 <=? state then
      _ ← moveEndpointIfNeeded ep; _ ← become ep ESTABLISHED; mret true
    else
      _ ← become ep HANDSHAKE;
      if (length msg <? 8) || negb (msg.(buffer) (msg.(bytes) + 7) =? 1) then mret false
      else _ ← pingCallback; mret true
  else
    recovered ← (match p.(peer_state) with
                 | UNRESPONSIVE => state ← getState ep; mret (CryptoAuth_HANDSHAKE3 <=? state)
                 | _ => mret false
                 end);
    p ← peer ep; d ← gets id;
    _ ← put_peer ep (if (recovered : bool) then set_state p ESTABLISHED else set_timeOfLastMessage p d.(milliseconds));
    mret true.

Definition receivedAfterCryptoAuth (msg : Message) (ep : Iface) : act Z :=
  admitted ← admit_message msg ep;
  if (admitted : bool) then peer_into_switch ep msg else mret Error_NONE.

Fixpoint receive_events (ep external : Iface) (events : list event) (code : Z) : act Z :=
  match events with
  | [] => mret code
  | SendWrapped m :: events | SendBuffered m _ :: events =>
      _ ← emit (ToNeighbour external m); receive_events ep external events (external_code external m)
  | Deliver m :: events => code ← receivedAfterCryptoAuth m ep; receive_events ep external events code
  end.

(** A message comes from the external interface into the session. *)
Definition fromNeighbour (msg : Message) (ep : Iface) : act Z :=
  p ← peer ep; d ← gets id;
  '(wrapper, r, events, result) ← lift (CryptoAuth.receiveMessage d.(ca) d.(seconds) msg p.(cryptoAuthIf) d.(rng));
  _ ← put_peer ep (set_cryptoAuthIf p wrapper);
  _ ← modify (with_rng r);
  code ← receive_events ep p.(external) events 0;
  mret (match result with Code c => c | FromCallee => code end).

(** ** The interface to the drivers *)

(** The memory of a new peer is zero: its interface has no context yet. *)
Definition clear_context (core : SwitchCore) (ep : Iface) : SwitchCore :=
  {| interfaces := core.(interfaces); interfaceCount := core.(interfaceCount); routerAdded := core.(routerAdded);
     receiverContext := delete ep core.(receiverContext) |}.

(** [ep] is the memory that is allocated for the peer. A peer without a slot
    keeps its place in the map. *)
Definition registerPeer (herPublicKey password : option (list Z)) (requireAuth transient : bool) (externalInterface ep : Iface)
    : act Z :=
  d ← gets id;
  if -1 <? Map_indexForKey externalInterface d.(peerMap) then mret 0
  else if match herPublicKey with
          | Some key => negb (AddressCalc_validAddress (fst (AddressCalc_addressForPublicKey key)))
          | None => false
          end then mret InterfaceController_registerPeer_BAD_KEY
  else
    let '(map, setIndex) := Map_put externalInterface ep d.(peerMap) in
    let wrapper := CryptoAuth_wrapInterface (external_padding externalInterface) (external_max externalInterface) herPublicKey
                     requireAuth true d.(seconds) in
    let p := {| cryptoAuthIf := match password with Some _ => CryptoAuth_setAuth password 1 wrapper | None => wrapper end;
                external := externalInterface; switchLabel := 0; timeOfLastMessage := 0;
                peer_handle := map.(handles) setIndex; transient := transient;
                peer_state := if requireAuth then UNAUTHENTICATED else HANDSHAKE |} in
    let core := clear_context d.(switchCore) ep in
    _ ← modify (fun d => with_switch core (with_peers (<[ep := p]> d.(peers)) map d));
    match SwitchCore_addInterface ep 0 core with
    | OutOfBounds => abort
    | OutOfSpace => mret InterfaceController_registerPeer_OUT_OF_SPACE
    | Added core label =>
        _ ← modify (with_switch core);
        _ ← put_peer ep (set_timeOfLastMessage (set_switchLabel p label) (u64 (d.(milliseconds) - d.(pingAfterMilliseconds) - 1)));
        _ ← match herPublicKey with Some _ => pingCallback | None => mret tt end;
        mret 0
    end.

Definition getPeerState (ep : Iface) : act InterfaceController_PeerState := p ← peer ep; mret p.(peer_state).

(** The bytes of a beacon. *)
Definition populateBeacon (d : InterfaceController) : list Z :=
  store 4 (Endian_hostToBigEndian32 Version_CURRENT_PROTOCOL) ++ take (Z.to_nat Headers_Beacon_PASSWORD_LEN) d.(beaconPassword)
    ++ take 32 d.(ca).(publicKey).

(** What the result of adding the password is used for is a line in the log. *)
Definition DefaultInterfaceController_new (ca : Context) (core : SwitchCore) (pinger : SwitchPinger) (rand : Rand)
    (s ms : Z) : InterfaceController :=
  let '(password, rand) := Random_bytes rand Headers_Beacon_PASSWORD_LEN in
  {| peers := ∅; peerMap := Map_new; ca := fst (CryptoAuth_addUser password 1 1 ca); rng := rand; switchCore := core;
     switchPinger := pinger; unresponsiveAfterMilliseconds := UNRESPONSIVE_AFTER_MILLISECONDS;
     pingAfterMilliseconds := PING_AFTER_MILLISECONDS; timeoutMilliseconds := TIMEOUT_MILLISECONDS;
     forgetAfterMilliseconds := FORGET_AFTER_MILLISECONDS; pingCount := 0; beaconPassword := password;
     seconds := s; milliseconds := ms; outputs := [] |}.
End controller.
