(* ===== verification/InterfaceInvariant.v ===== *)
(** * The neighbours in every state (net/DefaultInterfaceController.c)

    The rows of the map are the peers that are in memory, each has a slot of the
    switch to itself, if it got one, and its label names that slot. Operations
    that only send or change sessions and states leave all this alone ([alike]);
    what changes it are a new peer, a merge, and a peer that goes. *)
From stdpp Require Import gmap.
From S2P Require Import Prelude Memory Endian Bits NumberCompress Headers Message NaCl CryptoAuth Address LabelSplicer SwitchCore Map Pinger SwitchPinger DHT InterfaceController.
Open Scope Z_scope.

Create HintDb sends.

Section invariant.
  Context {P : Platform} {N : NaCl} {R : RandomSource} {Wi : Wires}.
  #[local] Existing Instance pointer_key.
  #[local] Existing Instance pointer_key_laws.

(** ** Steps that keep peers where they are *)

(** What does not change of a peer while nothing is heard of it. *)
Definition place (p : IFCPeer) : Iface * Z * Z * bool * Z :=
  (p.(external), p.(switchLabel), p.(peer_handle), p.(transient), p.(timeOfLastMessage)).
Definition limits (d : InterfaceController) : Z * Z := (d.(pingAfterMilliseconds), d.(forgetAfterMilliseconds)).

Record alike (d d' : InterfaceController) : Prop := {
  alike_peers : forall ep, place <$> d'.(peers) !! ep = place <$> d.(peers) !! ep;
  alike_map : d'.(peerMap) = d.(peerMap);
  alike_core : d'.(switchCore) = d.(switchCore);
  alike_ca : d'.(ca) = d.(ca);
  alike_time : d'.(milliseconds) = d.(milliseconds) /\ d'.(seconds) = d.(seconds);
  alike_limits : limits d' = limits d
}.

#[export] Instance alike_preorder : PreOrder alike.
Proof.
  split; [split; done|]. intros a b c [H1 H2 H3 H4 [H5 H6] H7] [K1 K2 K3 K4 [K5 K6] K7]. split; [|congruence..|split; congruence|congruence].
  intros ep. rewrite K1. apply H1.
Qed.

Lemma alike_lookup d d' ep p : alike d d' -> d.(peers) !! ep = Some p -> exists p', d'.(peers) !! ep = Some p' /\ place p' = place p.
Proof.
  intros H Hp. pose proof (alike_peers d d' H ep) as E. rewrite Hp in E. destruct (d'.(peers) !! ep) as [p'|] eqn:Hp'; [|done].
  injection E as E. exists p'. split; [done|]. unfold place. congruence.
Qed.

Lemma alike_put d ep p p' : d.(peers) !! ep = Some p -> place p' = place p ->
  alike d (with_peers (<[ep := p']> d.(peers)) d.(peerMap) d).
Proof.
  intros Hp E. split; try done. intros k. cbn [with_peers peers]. destruct (decide (k = ep)) as [->|Hne].
  - rewrite lookup_insert_eq, Hp. cbn. congruence.
  - rewrite lookup_insert_ne by done. done.
Qed.

Lemma alike_rng d r : alike d (with_rng r d).
Proof. split; done. Qed.
Lemma alike_pinger d sp n : alike d (with_pinger sp n d).
Proof. split; done. Qed.
Lemma alike_output d o : alike d (with_output o d).
Proof. split; done. Qed.

(** ** Rules *)
Definition sends {A} (m : M InterfaceController A) : Prop := forall d, wlp m (fun _ d' => alike d d') d.

Lemma sends_mono {A B} (m : M InterfaceController A) (k : A -> M InterfaceController B) : sends m -> (forall a, sends (k a)) -> sends (m ≫= k).
Proof.
  intros Hm Hk d. apply wlp_bind. eapply wlp_mono; [apply Hm|]. intros a d1 H1. eapply wlp_mono; [apply Hk|].
  intros b d2 H2. cbn in *. etransitivity; [exact H1|exact H2].
Qed.
Lemma sends_ret {A} (a : A) : sends (mret a).
Proof. intros d. apply wlp_ret. reflexivity. Qed.
Lemma sends_lift {A} (x : option A) : sends (lift x).
Proof. intros d. apply wlp_lift. reflexivity. Qed.
Lemma sends_gets {A} (f : InterfaceController -> A) : sends (gets f).
Proof. intros d. apply wlp_gets. reflexivity. Qed.
Lemma sends_abort {A} : sends (A := A) abort.
Proof. intros d. apply wlp_abort. Qed.
Lemma sends_emit o : sends (emit o).
Proof. intros d. apply wlp_modify, alike_output. Qed.
Lemma sends_rng r : sends (modify (with_rng r)).
Proof. intros d. apply wlp_modify, alike_rng. Qed.
Lemma sends_pinger sp n : sends (modify (with_pinger sp n)).
Proof. intros d. apply wlp_modify, alike_pinger. Qed.
Lemma sends_count : sends (modify (fun d => with_pinger d.(switchPinger) (u32 (d.(pingCount) + 1)) d)).
Proof. intros d. apply wlp_modify, alike_pinger. Qed.

Lemma wlp_peer {A} ep (k : IFCPeer -> M InterfaceController A) Q d :
  (forall p, d.(peers) !! ep = Some p -> wlp (k p) Q d) -> wlp (peer ep ≫= k) Q d.
Proof. intros H. apply wlp_bind. unfold peer. apply wlp_bind, wlp_gets, wlp_lift. exact H. Qed.

Lemma run_peer {A} d ep p (k : IFCPeer -> M InterfaceController A) : d.(peers) !! ep = Some p -> (peer ep ≫= k) d = k p d.
Proof. intros Hp. unfold peer. run_steps. rewrite Hp. done. Qed.

Lemma wlp_put {A} ep p (k : unit -> M InterfaceController A) Q d :
  wlp (k tt) Q (with_peers (<[ep := p]> d.(peers)) d.(peerMap) d) -> wlp (put_peer ep p ≫= k) Q d.
Proof. intros H. apply wlp_bind, wlp_modify, H. Qed.

Lemma wlp_alike {A} (m : M InterfaceController A) Q d : sends m -> (forall a d', alike d d' -> Q a d') -> wlp m Q d.
Proof. intros Hm H. eapply wlp_mono; [apply Hm|]. exact H. Qed.

(** What comes after a step that keeps peers in place. *)
Lemma wlp_after {A} (m : M InterfaceController A) d d1 : alike d d1 -> sends m -> wlp m (fun _ d' => alike d d') d1.
Proof. intros H Hm. eapply wlp_alike; [exact Hm|]. intros a d' H'. etransitivity; [exact H|exact H']. Qed.

Lemma sends_peer {A} ep (k : IFCPeer -> M InterfaceController A) :
  (forall p d, d.(peers) !! ep = Some p -> wlp (k p) (fun _ d' => alike d d') d) -> sends (peer ep ≫= k).
Proof. intros H d. apply wlp_peer. intros p Hp. apply H, Hp. Qed.

#[local] Hint Resolve sends_ret sends_lift sends_gets sends_abort sends_emit sends_rng sends_pinger sends_count : sends.
#[local] Ltac sends_steps := repeat (first [solve [auto with sends nocore] | apply sends_mono; [|intros ?] | case_match]).

Lemma sends_getState ep : sends (getState ep).
Proof.
  apply sends_peer. intros p d Hp. apply wlp_bind, wlp_gets. cbn [id]. destruct (CryptoAuth_getState _ _ _) as [w s].
  apply wlp_put, wlp_ret. by eapply alike_put.
Qed.
#[local] Hint Resolve sends_getState : sends.

Lemma sends_become ep s : sends (become ep s).
Proof. apply sends_peer. intros p d Hp. apply wlp_modify. by eapply alike_put. Qed.
#[local] Hint Resolve sends_become : sends.

Lemma sends_events ext events : forall code, sends (send_events ext events code).
Proof. induction events as [|e events IH]; intros code; cbn [send_events]; [sends_steps|]. destruct e; sends_steps. Qed.
#[local] Hint Resolve sends_events : sends.

Lemma sends_sendFromSwitch ep msg : sends (sendFromSwitch ep msg).
Proof.
  apply sends_peer. intros p d Hp. apply wlp_bind, wlp_gets. cbn [id]. apply wlp_bind, wlp_lift. intros [[[w r] events] result] _.
  apply wlp_put. eapply wlp_after; [by eapply alike_put|]. sends_steps.
Qed.
#[local] Hint Resolve sends_sendFromSwitch : sends.

Lemma sends_send_all sent : sends (send_all sent).
Proof.
  induction sent as [|[f m] sent IH]; cbn [send_all]; sends_steps.
Qed.
#[local] Hint Resolve sends_send_all : sends.

Lemma sends_into_switch i msg : sends (into_switch i msg).
Proof. unfold into_switch. sends_steps. Qed.
#[local] Hint Resolve sends_into_switch : sends.

Lemma sends_peer_into_switch ep msg : sends (peer_into_switch ep msg).
Proof. apply sends_peer. intros p d Hp. eapply wlp_after; [reflexivity|]. sends_steps. Qed.
#[local] Hint Resolve sends_peer_into_switch : sends.

Lemma sends_ping ep : sends (ping_peer ep).
Proof.
  apply sends_peer. intros p d Hp. eapply wlp_after; [reflexivity|]. apply sends_mono; [apply sends_gets|]. intros d1.
  destruct (SwitchPinger_newPing _ _ _ _ _ _) as [sp i]. sends_steps.
Qed.
#[local] Hint Resolve sends_ping : sends.

(** A peer that was given back is not there to be pinged. *)
Lemma freed_ping ep d : wlp (_ ← free_external ep; ping_peer ep) (fun _ _ => False) d.
Proof.
  apply wlp_bind, wlp_peer. intros p Hp. apply wlp_bind, wlp_mono with (Q := fun _ _ => True).
  { unfold wlp. destruct (closeInterface ep d) as [[[] d1]|]; done. }
  intros _ d1 _. apply wlp_bind, wlp_modify, wlp_bind, wlp_modify, wlp_modify. cbn. unfold ping_peer. apply wlp_peer. cbn. intros q.
  rewrite lookup_delete_eq. done.
Qed.

Lemma sends_check ep : sends (check_peer ep).
Proof.
  apply sends_peer. intros p d Hp. apply wlp_bind, wlp_gets. cbn [id]. repeat case_match; try (apply wlp_ret; reflexivity).
  - eapply wlp_mono; [apply freed_ping|]. done.
  - apply wlp_put. eapply wlp_after; [by eapply alike_put|]. apply sends_ping.
  - eapply wlp_after; [reflexivity|]. apply sends_ping.
Qed.
#[local] Hint Resolve sends_check : sends.

Lemma sends_pingCallback : sends pingCallback.
Proof.
  assert (forall n i, sends (pingCallback_loop n i)) as Hl.
  { induction n as [|n IH]; intros i; cbn [pingCallback_loop]; sends_steps. }
  unfold pingCallback. sends_steps.
Qed.
#[local] Hint Resolve sends_pingCallback : sends.

Lemma sends_response r : sends (onPingResponse r).
Proof.
  unfold onPingResponse. destruct (sr_result r); [|solve [sends_steps]..]. apply sends_peer. intros p d Hp. eapply wlp_after; [reflexivity|]. sends_steps.
Qed.
#[local] Hint Resolve sends_response : sends.

Lemma sends_pong msg : sends (incomingForPinger msg).
Proof. unfold incomingForPinger. sends_steps. Qed.
#[local] Hint Resolve sends_pong : sends.

(** ** The invariant *)

(** A peer has a slot, or was refused one. *)
Definition placed_in (core : SwitchCore) (ep : Iface) (label : Z) (i : Z) : Prop :=
  (slot core i).(si_iface) = Some ep /\ i <> 1 /\ label = slot_label i.
Definition refused (core : SwitchCore) (ep : Iface) (label : Z) : Prop :=
  ~ attached core ep /\ core.(receiverContext) !! ep = None /\ label = 0.
Definition placed (core : SwitchCore) (ep : Iface) (label : Z) : Prop := refused core ep label \/ exists i, placed_in core ep label i.

Record rows_ok (d : InterfaceController) (g : gmap Iface (Z * Iface)) : Prop := {
  ok_map : map_rep d.(peerMap) g;
  ok_rows : forall ext h ep, g !! ext = Some (h, ep) <-> exists p, d.(peers) !! ep = Some p /\ p.(external) = ext /\ p.(peer_handle) = h;
  ok_core : core_ok d.(switchCore)
}.
Definition slots_ok (d : InterfaceController) : Prop :=
  forall ep p, d.(peers) !! ep = Some p -> placed d.(switchCore) ep p.(switchLabel).

Lemma alike_rows d d' g : alike d d' -> rows_ok d g -> rows_ok d' g.
Proof.
  intros H [H1 H2 H3]. split; [by rewrite (alike_map _ _ H)| |by rewrite (alike_core _ _ H)].
  intros ext h ep. rewrite H2. pose proof (alike_peers _ _ H ep) as Hp. unfold place in Hp.
  destruct (d'.(peers) !! ep) as [p'|], (d.(peers) !! ep) as [p|]; try done.
  injection Hp as E1 E2 E3 E4 E5. split; intros (? & [= <-] & <- & <-); eexists; split; try done; split; congruence.
Qed.

Lemma alike_slots d d' : alike d d' -> slots_ok d -> slots_ok d'.
Proof.
  intros H Hs ep p' Hp'. rewrite (alike_core _ _ H). pose proof (alike_peers _ _ H ep) as Hp. rewrite Hp' in Hp.
  destruct (d.(peers) !! ep) as [p|] eqn:E; [|done]. injection Hp as _ El _ _ _. rewrite El. by apply Hs.
Qed.

(** ** A peer that goes *)
Lemma peer_row d g ep p : rows_ok d g -> d.(peers) !! ep = Some p ->
  exists i, 0 <= i < d.(peerMap).(count) /\ Map_indexForHandle p.(peer_handle) d.(peerMap) = i /\
    d.(peerMap).(keys) i = p.(external) /\ d.(peerMap).(values) i = ep.
Proof.
  intros Hok Hp. pose proof (ok_map d g Hok) as Hm. assert (g !! p.(external) = Some (p.(peer_handle), ep)) as Hg by (apply (ok_rows d g Hok); eauto).
  destruct (rep_all _ _ Hm _ _ _ Hg) as (i & Hi & Hk & Hh & Hv). exists i. split; [done|]. split; [|done].
  destruct (indexForHandle_spec _ _ p.(peer_handle) Hm) as [[_ Hno]|[Hr He]]; [destruct (Hno _ _ Hg)|].
  apply (handles_inj _ _ _ _ Hm Hr Hi). congruence.
Qed.

(** What a row points to is in memory. *)
Lemma row_peer d g i : rows_ok d g -> 0 <= i < d.(peerMap).(count) -> exists p, d.(peers) !! d.(peerMap).(values) i = Some p.
Proof.
  intros Hok Hi. destruct (rep_row _ _ (ok_map d g Hok) i Hi) as (_ & _ & Hg & _).
  apply (ok_rows d g Hok) in Hg as (p & Hp & _). eauto.
Qed.

(** A peer is reached by one interface, and the only one that is. *)
Lemma external_inj d g ep p ep' p' : rows_ok d g -> d.(peers) !! ep = Some p -> d.(peers) !! ep' = Some p' ->
  p'.(external) = p.(external) -> ep' = ep.
Proof.
  intros Hok Hp Hp' E. assert (g !! p.(external) = Some (p.(peer_handle), ep)) as Hg by (apply (ok_rows d g Hok); eauto).
  assert (g !! p.(external) = Some (p'.(peer_handle), ep')) as Hg' by (apply (ok_rows d g Hok); eauto). congruence.
Qed.

Definition without (ep : Iface) (p : IFCPeer) (map : Map Iface Iface) (d : InterfaceController) : InterfaceController :=
  with_output (Freed p.(external)) (with_peers (delete ep d.(peers)) map (with_switch (free_interface d.(switchCore) ep) d)).

Lemma slot_freed core ep ep' i : core_ok core -> ep' <> ep -> (slot core i).(si_iface) = Some ep' ->
  slot (free_interface core ep) i = slot core i.
Proof.
  intros Hok Hne Hi. rewrite slot_free. case_decide as Hj; [|done]. destruct (decide (i = 1)) as [->|H1].
  - rewrite (ok_router_job core Hok) in Hj. done.
  - rewrite (ok_job core Hok i H1), Hi in Hj. congruence.
Qed.

Lemma placed_freed core ep ep' label : core_ok core -> ep' <> ep -> placed core ep' label -> placed (free_interface core ep) ep' label.
Proof.
  intros Hok Hne [(Hn & Hc & Hl)|(i & Hi & Hi1 & El)].
  - left. split; [|done]. intros [i Hi]. apply Hn. exists i. rewrite slot_free in Hi. case_decide; done.
  - right. exists i. split; [|done]. by rewrite (slot_freed core ep ep' i).
Qed.

Lemma run_free d g ep p : rows_ok d g -> d.(peers) !! ep = Some p ->
  exists map, free_external ep d = Some (tt, without ep p map d) /\ rows_ok (without ep p map d) (delete p.(external) g) /\
    map.(count) = d.(peerMap).(count) - 1 /\
    ((forall ep' q, ep' <> ep -> d.(peers) !! ep' = Some q -> placed d.(switchCore) ep' q.(switchLabel)) -> slots_ok (without ep p map d)).
Proof.
  intros Hok Hp. destruct (peer_row d g ep p Hok Hp) as (i & Hi & Ei & Ek & Ev).
  destruct (remove_rep _ _ i (ok_map d g Hok) Hi) as (map & Em & Hrep & _ & Ec & _). rewrite Ek in Hrep. exists map.
  split; [|split; [|split; [done|]]].
  - unfold free_external, closeInterface. rewrite (run_peer _ ep p) by done. run_steps. rewrite (run_peer _ ep p) by done. run_steps.
    rewrite Ei, (proj2 (Z.leb_le 0 i)) by lia. cbn [negb]. run_steps. rewrite Em. done.
  - pose proof Hok as [H1 H2 H3]. split; cbn; [done| |apply free_ok, H3].
    intros ext h ep'. rewrite lookup_delete_Some, H2. split.
    + intros [Hne (q & Hq & <- & <-)]. exists q. split; [|done]. rewrite lookup_delete_ne; [done|]. intros <-. congruence.
    + intros (q & Hq & <- & <-). apply lookup_delete_Some in Hq as [Hne Hq]. split; [|eauto].
      intros E. apply Hne. symmetry. by apply (external_inj d g ep p ep' q Hok Hp Hq).
  - intros Hs ep' q Hq. cbn in Hq. apply lookup_delete_Some in Hq as [Hne Hq]. apply placed_freed; [apply (ok_core d g Hok)|done|by apply Hs].
Qed.

(** ** A merge *)
Definition same_key (q p : IFCPeer) : bool :=
  Bits_memcmp (CryptoAuth_getHerPublicKey q.(cryptoAuthIf)) (CryptoAuth_getHerPublicKey p.(cryptoAuthIf)) =? 0.

Definition take_over (ep old : Iface) (p q : IFCPeer) : M InterfaceController unit :=
  _ ← put_peer ep (set_switchLabel p q.(switchLabel));
  core ← (fun d => lift (SwitchCore_swapInterfaces d.(switchCore) old ep) d);
  _ ← modify (with_switch core);
  free_external old.

Lemma move_loop d g ep p n : rows_ok d g -> d.(peers) !! ep = Some p -> forall i, 0 <= i -> Z.of_nat n = d.(peerMap).(count) - i ->
  let run := moveEndpoint_loop n i ep (CryptoAuth_getHerPublicKey p.(cryptoAuthIf)) d in
  (run = Some (tt, d) /\ forall j q, i <= j < d.(peerMap).(count) -> d.(peerMap).(values) j <> ep ->
     d.(peers) !! d.(peerMap).(values) j = Some q -> same_key q p = false) \/
  (exists old q, old <> ep /\ d.(peers) !! old = Some q /\ same_key q p = true /\ run = take_over ep old p q d).
Proof.
  intros Hok Hp. induction n as [|n IH]; intros i Hi Hn; cbn [moveEndpoint_loop].
  - left. split; [done|]. intros j q Hj. lia.
  - run_steps. destruct (row_peer d g i Hok) as [q Hq]; [lia|]. rewrite (run_peer _ _ q) by done. fold (same_key q p).
    destruct (Z.eqb_spec (values (peerMap d) i) ep) as [E|E]; cbn [negb andb]; [|destruct (same_key q p) eqn:Ek].
    2: { right. exists (values (peerMap d) i), q. split; [done|]. split; [done|]. split; [done|]. rewrite (run_peer _ _ p) by done.
         unfold take_over, put_peer. rewrite !run_modify. done. }
    all: destruct (IH (i + 1) ltac:(lia) ltac:(lia)) as [[Er Hno]|Hr]; [|by right]; left; split; [exact Er|]; intros j q' Hj Hne Hq'.
    all: destruct (decide (j = i)) as [->|]; [|apply (Hno j); done || lia].
    + done.
    + assert (q' = q) as -> by congruence. done.
Qed.

Lemma move_cases d g ep p : rows_ok d g -> d.(peers) !! ep = Some p ->
  (moveEndpointIfNeeded ep d = Some (tt, d) /\ forall ep' q, ep' <> ep -> d.(peers) !! ep' = Some q -> same_key q p = false) \/
  (exists old q, old <> ep /\ d.(peers) !! old = Some q /\ same_key q p = true /\ moveEndpointIfNeeded ep d = take_over ep old p q d).
Proof.
  intros Hok Hp. unfold moveEndpointIfNeeded. rewrite (run_peer _ _ p) by done. run_steps.
  pose proof (rep_count _ _ (ok_map d g Hok)) as Hc.
  destruct (move_loop d g ep p (Z.to_nat (count (peerMap d))) Hok Hp 0) as [[E Hno]|H]; [lia|lia| |by right].
  left. split; [exact E|]. intros ep' q Hne Hq. destruct (peer_row d g ep' q Hok Hq) as (j & Hj & _ & _ & Ev).
  apply (Hno j); [lia|congruence|congruence].
Qed.

Lemma rows_put d g ep p q core : rows_ok d g -> d.(peers) !! ep = Some p -> core_ok core ->
  q.(external) = p.(external) -> q.(peer_handle) = p.(peer_handle) ->
  rows_ok (with_switch core (with_peers (<[ep := q]> d.(peers)) d.(peerMap) d)) g.
Proof.
  intros [H1 H2 H3] Hp Hc Ee Eh. split; cbn; try done. intros ext h ep'. rewrite H2.
  destruct (decide (ep' = ep)) as [->|Hne]; [rewrite lookup_insert_eq, Hp|rewrite lookup_insert_ne by done; done].
  split; intros (r & [= <-] & <- & <-); eexists; split; try done; split; congruence.
Qed.

Lemma swap_none core f1 f2 : core.(receiverContext) !! f1 = None \/ core.(receiverContext) !! f2 = None ->
  SwitchCore_swapInterfaces core f1 f2 = None.
Proof.
  unfold SwitchCore_swapInterfaces. intros [E|E].
  - rewrite E. done.
  - destruct (receiverContext core !! f1); [|done]. cbn. rewrite E. done.
Qed.

Lemma SwitchCore_swap_context core f1 f2 core' : SwitchCore_swapInterfaces core f1 f2 = Some core' ->
  forall f, f <> f1 -> f <> f2 -> core.(receiverContext) !! f = None -> core'.(receiverContext) !! f = None.
Proof.
  unfold SwitchCore_swapInterfaces, notOnFree. intros E f H1 H2 Hf.
  destruct (receiverContext core !! f1) as [a|]; [|done]. destruct (receiverContext core !! f2) as [b|]; [|done]. cbn in E.
  repeat (case_decide; cbn in E; [|done]). injection E as <-. cbn. rewrite !lookup_insert_ne by done. done.
Qed.

(** The new peer has the slot and the label of the old one, whose place and memory
    are free. Without a slot the program stops. *)
Lemma run_take_over d g ep old p q : rows_ok d g -> slots_ok d -> d.(peers) !! ep = Some p -> d.(peers) !! old = Some q -> old <> ep ->
  (take_over ep old p q d = None /\ (p.(switchLabel) = 0 \/ q.(switchLabel) = 0)) \/
  exists a b core map, let d1 := with_switch core (with_peers (<[ep := set_switchLabel p q.(switchLabel)]> d.(peers)) d.(peerMap) d) in
    let d' := without old q map d1 in
    take_over ep old p q d = Some (tt, d') /\ rows_ok d' (delete q.(external) g) /\ slots_ok d' /\
    placed_in d.(switchCore) old q.(switchLabel) a /\ placed_in d.(switchCore) ep p.(switchLabel) b /\
    placed_in d'.(switchCore) ep q.(switchLabel) a /\ slot d'.(switchCore) b = vacant /\
    map.(count) = d.(peerMap).(count) - 1 /\
    (forall i, i <> a -> i <> b -> slot d'.(switchCore) i = slot d.(switchCore) i).
Proof.
  intros Hok Hs Hp Hq Hne. unfold take_over, put_peer. rewrite run_modify. cbv beta. cbn [switchCore with_peers].
  pose proof (ok_core d g Hok) as Hc.
  destruct (Hs old q Hq) as [(_ & Ec & ?)|(a & Ha & Ha1 & Ela)]; [left; rewrite run_bind, swap_none by auto; auto|].
  destruct (Hs ep p Hp) as [(_ & Ec & ?)|(b & Hb & Hb1 & Elb)]; [left; rewrite run_bind, swap_none by auto; auto|].
  right. destruct (swap_slots _ old ep Hc Hne (ex_intro _ a Ha) (ex_intro _ b Hb)) as (a' & b' & Ha' & Hb' & Hab & Hswap).
  assert (a' = a) as -> by (apply (ok_context _ Hc) in Ha, Ha'; congruence).
  assert (b' = b) as -> by (apply (ok_context _ Hc) in Hb, Hb'; congruence).
  destruct (SwitchCore_swapInterfaces _ old ep) as [core|] eqn:Esw; [|lia]. pose proof (swap_ok _ _ _ _ Hc Hne (ex_intro _ a Ha) (ex_intro _ b Hb) Esw) as Hc1.
  destruct Hswap as (_ & _ & Hslot & _).
  set (d1 := with_switch core (with_peers (<[ep := set_switchLabel p q.(switchLabel)]> d.(peers)) d.(peerMap) d)).
  assert (rows_ok d1 g) as Hok1 by (by eapply rows_put).
  destruct (run_free d1 g old q Hok1) as (map & Er & Hrows & Hcount & Hsl); [cbn; rewrite lookup_insert_ne; done|].
  exists a, b, core, map. cbv zeta. fold d1.
  assert (forall j, slot (free_interface core old) j = if decide (j = b) then vacant else slot core j) as Hfree.
  { intros j. rewrite slot_free, Hslot.
    assert (forall i f, i <> 1 -> (slot (switchCore d) i).(si_iface) = Some f -> (slot (switchCore d) i).(si_onFree) = Some f) as Hjob.
    { intros i f Hi <-. apply (ok_job _ Hc), Hi. }
    destruct (decide (j = a)) as [->|Hja]; [rewrite (Hjob b ep Hb1 Hb), !decide_False by congruence; done|].
    destruct (decide (j = b)) as [->|Hjb]; [rewrite (Hjob a old Ha1 Ha), decide_True; done|].
    rewrite decide_False; [done|]. intros Ej. destruct (decide (j = 1)) as [->|Hj1]; [rewrite (ok_router_job _ Hc) in Ej; done|].
    rewrite (ok_job _ Hc j Hj1) in Ej. apply (ok_context _ Hc) in Ej, Ha. congruence. }
  split; [rewrite run_bind; cbn [switchCore with_peers]; rewrite Esw; cbn [lift option_map]; rewrite run_modify; exact Er|].
  split; [exact Hrows|]. split; [|split; [done|split; [done|]]].
  - apply Hsl. cbn [d1 with_switch with_peers peers switchCore]. intros ep' q' Hne' Hq'. destruct (decide (ep' = ep)) as [->|He].
    + rewrite lookup_insert_eq in Hq'. injection Hq' as <-. right. exists a. split; [|done]. rewrite Hslot, decide_True by done. done.
    + rewrite lookup_insert_ne in Hq' by done. destruct (Hs ep' q' Hq') as [(Hn & Hctx & El)|(i & Hi & Hi1 & El)].
      * left. split; [|split; [|done]].
        -- intros [j Hj]. rewrite Hslot in Hj. repeat case_decide; try congruence. apply Hn. by exists j.
        -- apply (SwitchCore_swap_context _ _ _ _ Esw ep' ltac:(done) ltac:(done)) in Hctx. done.
      * right. exists i. split; [|done]. rewrite Hslot. repeat case_decide; subst; congruence.
  - cbn [without with_output with_peers with_switch switchCore d1]. split; [|split; [|split; [done|]]].
    + split; [|done]. rewrite Hfree, decide_False, Hslot, decide_True by done. done.
    + rewrite Hfree, decide_True by done. done.
    + intros i Hia Hib. rewrite Hfree, decide_False, Hslot, !decide_False by done. done.
Qed.

(** ** A new peer *)
Definition controller_ok (d : InterfaceController) : Prop := (exists g, rows_ok d g) /\ slots_ok d.

Lemma alike_ok d d' : alike d d' -> controller_ok d -> controller_ok d'.
Proof. intros H [[g Hg] Hs]. split; [exists g; by eapply alike_rows|by eapply alike_slots]. Qed.

Lemma clear_ok core ep : core_ok core -> ~ attached core ep -> core_ok (clear_context core ep).
Proof.
  intros [H1 H2 H3 H4 H5 H6 H7] Hn. split; try done. intros i f Hi. cbn. rewrite lookup_delete_ne; [by apply H2|].
  intros <-. apply Hn. by exists i.
Qed.

Lemma clear_placed core ep ep' label : ep' <> ep -> placed core ep' label -> placed (clear_context core ep) ep' label.
Proof.
  intros Hne [(H1 & H2 & H3)|H]; [left|right; exact H]. split; [exact H1|]. split; [|done]. cbn. rewrite lookup_delete_ne by done. done.
Qed.

Lemma added_placed core f core' label ep ep_label : core_ok core -> SwitchCore_addInterface f 0 core = Added core' label -> ep <> f ->
  placed core ep ep_label -> placed core' ep ep_label.
Proof.
  intros Hok E Hne Hp. pose proof (add_cases core f 0 Hok) as H. rewrite E in H. destruct H as (i & _ & _ & Hi1 & Hv & _ & Epl).
  destruct (SwitchCore.placed _ _ _ _ _ _ Epl) as (Hslot & Hctx & _). destruct Hp as [(Hn & Hc & El)|(j & Hj & Hj1 & El)].
  - left. split; [|split; [rewrite Hctx, lookup_insert_ne by done; done|done]]. intros [j Hj]. rewrite Hslot in Hj.
    case_decide; [cbn in Hj; congruence|]. apply Hn. by exists j.
  - right. exists j. split; [|done]. rewrite Hslot, decide_False by congruence. done.
Qed.

(** The state with the new peer, before it is attached. *)
Definition joined (d : InterfaceController) (ep : Iface) (p : IFCPeer) (map : Map Iface Iface) : InterfaceController :=
  with_switch (clear_context d.(switchCore) ep) (with_peers (<[ep := p]> d.(peers)) map d).

Lemma joined_rows d g ep p (ext : Iface) : rows_ok d g -> d.(peers) !! ep = None -> ~ attached d.(switchCore) ep -> 0 <= ext < 2 ^ 64 ->
  Map_indexForKey ext d.(peerMap) = -1 -> d.(peerMap).(nextHandle) + 1 < 2 ^ 31 ->
  p.(external) = ext -> p.(peer_handle) = d.(peerMap).(nextHandle) ->
  exists map, Map_put ext ep d.(peerMap) = (map, d.(peerMap).(count)) /\ map.(handles) d.(peerMap).(count) = d.(peerMap).(nextHandle) /\
    rows_ok (joined d ep p map) (<[ext := (p.(peer_handle), ep)]> g).
Proof.
  intros [H1 H2 H3] Hep Hn Hext Hi Hmax Ee Eh. pose proof (indexForKey_spec _ _ ext H1 Hext) as Hg.
  match type of Hg with match ?x with Some _ => _ | None => _ end => assert (x = None) as Eg' by (destruct x as [[]|]; [cbv zeta in Hg; destruct Hg as [Hg _]; rewrite Hi in Hg; lia|done]) end.
  assert (g !! ext = None) as Eg by exact Eg'.
  destruct (put_new _ _ ext ep H1 Hext Eg' Hmax) as (map & Em & Hrep & _ & _ & _ & Ehd). exists map. split; [exact Em|]. split; [exact Ehd|].
  split; cbn; [by rewrite Eh| |by apply clear_ok]. intros ext' h' ep'. destruct (decide (ext' = ext)) as [->|Hne].
  - rewrite lookup_insert_eq. split.
    + intros [= <- <-]. exists p. rewrite lookup_insert_eq. done.
    + intros (q & Hq & Eq & <-). destruct (decide (ep' = ep)) as [->|Hne']; [rewrite lookup_insert_eq in Hq; congruence|].
      rewrite lookup_insert_ne in Hq by done. assert (g !! ext = Some (q.(peer_handle), ep')) by (apply H2; eauto). congruence.
  - rewrite lookup_insert_ne, H2 by done. destruct (decide (ep' = ep)) as [->|Hne'].
    + rewrite lookup_insert_eq, Hep. split; intros (q & [= <-] & ? & ?). congruence.
    + rewrite lookup_insert_ne by done. done.
Qed.

(** ** Every operation keeps the invariant *)
Lemma ok_sends {A} (m : M InterfaceController A) d : sends m -> controller_ok d -> wlp m (fun _ => controller_ok) d.
Proof. intros Hm Hok. eapply wlp_alike; [exact Hm|]. intros _ d' H. by eapply alike_ok. Qed.

Lemma ok_put d ep p q : controller_ok d -> d.(peers) !! ep = Some p -> q.(external) = p.(external) -> q.(peer_handle) = p.(peer_handle) ->
  q.(switchLabel) = p.(switchLabel) -> controller_ok (with_peers (<[ep := q]> d.(peers)) d.(peerMap) d).
Proof.
  intros [[g Hg] Hs] Hp Ee Eh El. split.
  - exists g. pose proof (rows_put d g ep p q d.(switchCore) Hg Hp (ok_core d g Hg) Ee Eh) as [H1 H2 H3]. split; done.
  - intros ep' q' Hq'. cbn in Hq'. destruct (decide (ep' = ep)) as [->|Hne].
    + rewrite lookup_insert_eq in Hq'. injection Hq' as <-. rewrite El. by apply Hs.
    + rewrite lookup_insert_ne in Hq' by done. by apply Hs.
Qed.

Lemma ok_move ep d : controller_ok d -> wlp (moveEndpointIfNeeded ep) (fun _ => controller_ok) d.
Proof.
  intros [[g Hg] Hs]. destruct (d.(peers) !! ep) as [p|] eqn:Hp.
  2: { unfold moveEndpointIfNeeded. apply wlp_peer. intros p Hp'. congruence. }
  unfold wlp. destruct (move_cases d g ep p Hg Hp) as [[-> _]|(old & q & Hne & Hq & _ & ->)]; [by split; eauto|].
  destruct (run_take_over d g ep old p q Hg Hs Hp Hq Hne) as [[-> _]|(a & b & core & map & -> & Hr & Hsl & _)]; [done|]. split; eauto.
Qed.

Lemma ok_admit msg ep d : controller_ok d -> wlp (admit_message msg ep) (fun _ => controller_ok) d.
Proof.
  intros Hok. unfold admit_message. apply wlp_peer. intros p Hp. destruct (unestablished (peer_state p)).
  - apply wlp_bind. eapply wlp_mono; [apply (ok_sends _ d (sends_getState ep) Hok)|]. intros s d1 H1. cbv beta in H1.
    destruct (CryptoAuth_HANDSHAKE3 <=? s).
    + apply wlp_bind. eapply wlp_mono; [apply (ok_move _ _ H1)|]. intros ? d2 H2. apply (ok_sends _ d2); [sends_steps|exact H2].
    + apply (ok_sends _ d1); [sends_steps|exact H1].
  - apply wlp_bind. eapply wlp_mono; [apply (ok_sends _ d); [case_match; sends_steps|exact Hok]|]. intros r d1 H1.
    apply wlp_peer. intros q Hq. apply wlp_bind, wlp_gets, wlp_put, wlp_ret. apply (ok_put d1 ep q); [exact H1|exact Hq|by destruct r..].
Qed.

Lemma ok_received msg ep d : controller_ok d -> wlp (receivedAfterCryptoAuth msg ep) (fun _ => controller_ok) d.
Proof.
  intros Hok. apply wlp_bind. eapply wlp_mono; [by apply ok_admit|]. intros b d1 H1. destruct b; [|by apply wlp_ret].
  apply (ok_sends _ d1); [sends_steps|exact H1].
Qed.

Lemma ok_fromNeighbour msg ep d : controller_ok d -> wlp (fromNeighbour msg ep) (fun _ => controller_ok) d.
Proof.
  intros Hok. unfold fromNeighbour. apply wlp_peer. intros p Hp. apply wlp_bind, wlp_gets. cbn [id]. apply wlp_bind, wlp_lift.
  intros [[[w r] events] result] _. apply wlp_put. apply wlp_bind, wlp_modify.
  set (d1 := with_rng r _). assert (controller_ok d1) as H1.
  { eapply alike_ok; [|exact Hok]. etransitivity; [by eapply (alike_put d ep p (set_cryptoAuthIf p w))|apply alike_rng]. }
  clearbody d1. apply wlp_bind. eapply wlp_mono with (Q := fun _ => controller_ok); [|intros c d2 H2; by apply wlp_ret].
  clear -H1. generalize 0 as code. revert d1 H1. induction events as [|e events IH]; intros d1 H1 code; cbn [receive_events]; [by apply wlp_ret|].
  destruct e.
  1, 2: apply wlp_bind, wlp_modify, IH; eapply alike_ok; [apply alike_output|done].
  apply wlp_bind. eapply wlp_mono; [by apply ok_received|]. intros c d2 H2. by apply IH.
Qed.

Lemma ok_free ep d : controller_ok d -> wlp (free_external ep) (fun _ => controller_ok) d.
Proof.
  intros [[g Hg] Hs]. destruct (d.(peers) !! ep) as [p|] eqn:Hp.
  2: { unfold free_external. apply wlp_peer. intros p Hp'. congruence. }
  destruct (run_free d g ep p Hg Hp) as (map & E & Hr & _ & Hsl). unfold wlp. rewrite E. split; [eauto|]. apply Hsl. intros ep' q _. apply Hs.
Qed.

(** The caller gives fresh memory, and there are handles and numbers for the
    switch to count with left. *)
Record can_register (d : InterfaceController) (ext ep : Iface) : Prop := {
  new_peer : d.(peers) !! ep = None;
  new_interface : ~ attached d.(switchCore) ep;
  pointer_ok : 0 <= ext < 2 ^ 64;
  handles_left : d.(peerMap).(nextHandle) + 1 < 2 ^ 31;
  numbers_left : can_count d.(switchCore)
}.

Lemma ok_register herKey password requireAuth trans ext ep d : controller_ok d -> can_register d ext ep ->
  wlp (registerPeer herKey password requireAuth trans ext ep) (fun _ => controller_ok) d.
Proof.
  intros [[g Hg] Hs] [Hep Hn Hext Hmax Hcan]. unfold registerPeer. apply wlp_bind, wlp_gets. cbn [id].
  destruct (Z.ltb_spec (-1) (Map_indexForKey ext (peerMap d))) as [|Hi]; [apply wlp_ret; split; eauto|].
  case_match; [apply wlp_ret; split; eauto|].
  assert (Map_indexForKey ext (peerMap d) = -1) as Hi1.
  { pose proof (indexForKey_spec _ _ ext (ok_map d g Hg) Hext) as Hix. match type of Hix with match ?x with Some _ => _ | None => _ end => destruct x as [[]|] end; [destruct Hix as [Hix _]; lia|exact Hix]. }
  destruct (Map_put ext ep (peerMap d)) as [map j] eqn:Em. set (w := match password with Some _ => _ | None => _ end).
  set (p := {| cryptoAuthIf := w |}).
  assert (j = count (peerMap d) /\ handles map j = nextHandle (peerMap d)) as [-> Eh].
  { destruct (joined_rows d g ep (set_switchLabel {| cryptoAuthIf := w; external := ext; switchLabel := 0; timeOfLastMessage := 0;
       peer_handle := nextHandle (peerMap d); transient := trans; peer_state := HANDSHAKE |} 0) ext Hg Hep Hn Hext Hi1 Hmax)
       as (map' & E & Eh & _); [done..|]. rewrite Em in E. injection E as <- ->. split; [reflexivity|exact Eh]. }
  destruct (joined_rows d g ep p ext Hg Hep Hn Hext Hi1 Hmax) as (map' & E & _ & Hj); [done|exact Eh|]. rewrite Em in E. injection E as <-.
  apply wlp_bind, wlp_modify. fold (joined d ep p map).
  assert (core_ok (clear_context (switchCore d) ep)) as Hc by (apply clear_ok; [apply (ok_core d g Hg)|done]).
  assert (forall ep' q, ep' <> ep -> (joined d ep p map).(peers) !! ep' = Some q -> placed (clear_context d.(switchCore) ep) ep' q.(switchLabel)) as Hothers.
  { intros ep' q Hne Hq. cbn in Hq. rewrite lookup_insert_ne in Hq by done. apply clear_placed; [done|]. by apply Hs. }
  destruct (SwitchCore_addInterface ep 0 _) as [core label| |] eqn:Eadd; [| |apply wlp_abort].
  - apply wlp_bind, wlp_modify, wlp_put.
    set (q := set_timeOfLastMessage _ _). set (d2 := with_peers _ _ _).
    assert (controller_ok d2) as H2.
    { split.
      - exists (<[ext := (p.(peer_handle), ep)]> g).
        assert (d2 = with_switch core (with_peers (<[ep := q]> (joined d ep p map).(peers)) (joined d ep p map).(peerMap) (joined d ep p map)))
          as -> by done.
        apply (rows_put _ _ ep p); [exact Hj|cbn; by rewrite lookup_insert_eq|by eapply add_ok|done|done].
      - intros ep' q' Hq'. cbn [d2 with_peers with_switch peers switchCore joined] in *. destruct (decide (ep' = ep)) as [->|Hne].
        + rewrite lookup_insert_eq in Hq'. injection Hq' as <-. right.
          pose proof (add_cases _ ep 0 Hc) as Hadd. rewrite Eadd in Hadd. destruct Hadd as (i & _ & _ & Hi1' & _ & _ & Epl).
          destruct (SwitchCore.placed _ _ _ _ _ _ Epl) as (Hslot & _ & _ & _ & El). exists i. split; [|done]. rewrite Hslot, decide_True by done. done.
        + rewrite lookup_insert_ne in Hq' by done. eapply added_placed; [exact Hc|exact Eadd|done|]. by apply (Hothers ep'). }
    clearbody d2. apply wlp_bind. apply (wlp_mono _ (fun _ => controller_ok)); [|intros ? d3 H3; by apply wlp_ret].
    destruct herKey; [|by apply wlp_ret]. apply ok_sends; [sends_steps|done].
  - apply wlp_ret. split; [eauto|]. intros ep' q Hq. destruct (decide (ep' = ep)) as [->|Hne]; [|by apply (Hothers ep')].
    cbn in Hq. rewrite lookup_insert_eq in Hq. injection Hq as <-. left. cbn. split; [|split; [apply lookup_delete_eq|done]].
    intros [i Hi']. apply Hn. by exists i.
Qed.

(** ** Runs *)

(** What the rest of the program does: drivers register peers, bring messages and
    give memory back; the router sends; pongs come in; timers run; time passes. *)
Inductive controller_step (d : InterfaceController) : InterfaceController -> Prop :=
  | step_register herKey password requireAuth trans ext ep code d' : can_register d ext ep ->
      registerPeer herKey password requireAuth trans ext ep d = Some (code, d') -> controller_step d d'
  | step_neighbour msg ep code d' : fromNeighbour msg ep d = Some (code, d') -> controller_step d d'
  | step_switch i msg code d' : into_switch i msg d = Some (code, d') -> controller_step d d'
  | step_ping d' : pingCallback d = Some (tt, d') -> controller_step d d'
  | step_pong msg code d' : incomingForPinger msg d = Some (code, d') -> controller_step d d'
  | step_close ep d' : free_external ep d = Some (tt, d') -> controller_step d d'
  | step_time s ms : controller_step d (with_time s ms d).

Lemma controller_step_ok d d' : controller_ok d -> controller_step d d' -> controller_ok d'.
Proof.
  intros Hok Hstep. destruct Hstep.
  - eapply (wlp_run _ _ _ _ _ (ok_register _ _ _ _ _ _ d Hok H)); eassumption.
  - eapply (wlp_run _ _ _ _ _ (ok_fromNeighbour _ _ d Hok)); eassumption.
  - eapply (wlp_run _ _ _ _ _ (ok_sends _ d (sends_into_switch _ _) Hok)); eassumption.
  - eapply (wlp_run _ _ _ _ _ (ok_sends _ d sends_pingCallback Hok)); eassumption.
  - eapply (wlp_run _ _ _ _ _ (ok_sends _ d (sends_pong _) Hok)); eassumption.
  - eapply (wlp_run _ _ _ _ _ (ok_free _ d Hok)); eassumption.
  - destruct Hok as [[g [H1 H2 H3]] Hs]. split; [exists g; split; done|done].
Qed.

Definition neighbours_reachable (d : InterfaceController) : Prop :=
  exists ca core pinger rand s ms, SwitchCore.reachable core /\ rtc controller_step (DefaultInterfaceController_new ca core pinger rand s ms) d.

Lemma neighbours_ok d : neighbours_reachable d -> controller_ok d.
Proof.
  intros (ca & core & pinger & rand & s & ms & Hcore & Hrun).
  assert (controller_ok (DefaultInterfaceController_new ca core pinger rand s ms)) as H0.
  { unfold DefaultInterfaceController_new. destruct (Random_bytes _ _) as [pw r]. split.
    - exists ∅. split; [apply new_rep| |by apply reachable_ok]. intros ext h ep. rewrite lookup_empty. cbn.
      split; [done|]. intros (p & Hp & _). rewrite lookup_empty in Hp. done.
    - intros ep p Hp. cbn in Hp. rewrite lookup_empty in Hp. done. }
  induction Hrun as [|d1 d2 d3 Hs _ IH]; [done|]. apply IH. by eapply controller_step_ok.
Qed.

(** C13: in every state that the controller gets into without touching memory that
    was given back (with numbers left to count peers and handles with, in 32 and 31
    bits), the rows of its map are the peers that are in memory, one for
    each; every peer that was not refused a slot is attached to a slot of its own,
    other than the router's, and its label is one hop long and leads there. *)
Theorem InterfaceController_reachable d : neighbours_reachable d ->
  (forall i, 0 <= i < d.(peerMap).(count) ->
     exists p, d.(peers) !! d.(peerMap).(values) i = Some p /\ p.(external) = d.(peerMap).(keys) i /\ p.(peer_handle) = d.(peerMap).(handles) i) /\
  (forall ep p, d.(peers) !! ep = Some p -> exists i, 0 <= i < d.(peerMap).(count) /\ d.(peerMap).(values) i = ep /\
     forall j, 0 <= j < d.(peerMap).(count) -> d.(peerMap).(values) j = ep -> j = i) /\
  (forall ep p, d.(peers) !! ep = Some p -> p.(switchLabel) <> 0 -> exists i, 0 <= i < NumberCompress_INTERFACES /\ i <> 1 /\
     (slot d.(switchCore) i).(si_iface) = Some ep /\ d.(switchCore).(receiverContext) !! ep = Some i /\
     LabelSplicer_isOneHop p.(switchLabel) = true /\
     NumberCompress_getDecompressed p.(switchLabel) (NumberCompress_bitsUsedForLabel p.(switchLabel)) = i) /\
  (forall ep p ep' p', d.(peers) !! ep = Some p -> d.(peers) !! ep' = Some p' -> p.(switchLabel) = p'.(switchLabel) ->
     p.(switchLabel) <> 0 -> ep = ep').
Proof.
  intros [[g Hg] Hs]%neighbours_ok. pose proof (ok_map d g Hg) as Hm. pose proof (ok_core d g Hg) as Hc.
  assert (forall ep p, d.(peers) !! ep = Some p -> p.(switchLabel) <> 0 -> exists i, placed_in d.(switchCore) ep p.(switchLabel) i) as Hplaced.
  { intros ep p Hp Hl. destruct (Hs ep p Hp) as [(_ & _ & ?)|H]; [done|exact H]. }
  split; [|split; [|split]].
  - intros i Hi. destruct (rep_row _ _ Hm i Hi) as (_ & _ & Hgi & _). by apply (ok_rows d g Hg) in Hgi.
  - intros ep p Hp. destruct (peer_row d g ep p Hg Hp) as (i & Hi & _ & Ek & Ev). exists i. split; [done|]. split; [done|].
    intros j Hj Ej. destruct (rep_row _ _ Hm j Hj) as (_ & _ & Hgj & _). apply (ok_rows d g Hg) in Hgj as (q & Hq & Eq & _).
    assert (q = p) as -> by congruence. apply (keys_inj _ _ _ _ Hm Hj Hi). congruence.
  - intros ep p Hp Hl. destruct (Hplaced ep p Hp Hl) as (i & Hi & Hi1 & El). exists i. rewrite El.
    pose proof (ok_range _ Hc i ep Hi) as Hr. split; [done|]. split; [done|]. split; [done|]. split; [by apply (ok_context _ Hc)|].
    by apply slot_label_spec.
  - intros ep p ep' p' Hp Hp' El Hl. destruct (Hplaced ep p Hp Hl) as (i & Hi & _ & E1).
    destruct (Hplaced ep' p' Hp' ltac:(congruence)) as (i' & Hi' & _ & E2).
    pose proof (proj2 (slot_label_spec i (ok_range _ Hc i ep Hi))) as D1.
    pose proof (proj2 (slot_label_spec i' (ok_range _ Hc i' ep' Hi'))) as D2. rewrite <-E1 in D1. rewrite <-E2, <-El in D2. congruence.
Qed.
End invariant.
