(* ===== verification/InterfaceBehaviour.v ===== *)
(** * What the controller does with packets (net/DefaultInterfaceController.c)

    A session that is not established only gets packets for this node through; a
    neighbour that comes back takes the place of what is left of him; a packet for
    a silent neighbour is answered with an error packet. *)
From stdpp Require Import gmap.
From S2P Require Import Prelude Memory Endian Bits Checksum NumberCompress Headers Message NaCl CryptoAuth Address LabelSplicer SwitchCore Map Pinger SwitchPinger DHT InterfaceController InterfaceInvariant.
Open Scope Z_scope.

Section behaviour.
  Context {P : Platform} {N : NaCl} {R : RandomSource} {Wi : Wires}.

(** ** The guard against replays *)
Lemma label_low msg : bytes_ok (read msg.(buffer) msg.(bytes) 8) -> label_of msg mod 256 = msg.(buffer) (msg.(bytes) + 7).
Proof.
  intros Hb. set (l := read _ _ _) in *. assert (Z.of_nat (List.length l) = 8) as Hl by (unfold l; rewrite length_read; lia).
  assert (label_of msg = be_combine (read (of_list l) 0 8)) as ->.
  { rewrite <-be_load64 by (by apply of_list_ok). unfold label_of, SwitchHeader_label_be. rewrite Z.add_0_r. by f_equal. }
  replace (buffer msg (bytes msg + 7)) with (of_list l 7) by (unfold of_list, l; apply (nth_read (buffer msg) (bytes msg) 8 7); lia).
  unfold be_combine, read. change (Z.to_nat 8) with 8%nat. cbn [seq List.map rev app le_combine]. change (Z.of_nat 7) with 7.
  rewrite Z.add_0_l, Z.mul_comm, Z.mod_add by lia. apply Z.mod_small, of_list_ok, Hb.
Qed.

(** A label that ends in 1 leads to the router: whatever the switch sends goes
    there, or back. *)
Lemma router_label_stays send core s f msg sent : 0 <= s < NumberCompress_INTERFACES ->
  (slot core s).(si_iface) = Some f -> label_of msg mod 256 = 1 -> SwitchCore.receiveMessage send core s msg = Some sent ->
  Forall (fun out => (slot core 1).(si_iface) = Some (fst out) \/ fst out = f) sent.
Proof.
  intros Hs Hf Hl E.
  assert (forall si g m after err sent', si.(si_iface) = Some g -> SwitchCore.sendMessage send si m = Some (after, err, sent') ->
    Forall (fun out => fst out = g) sent') as Hone.
  { intros si g m after err sent' Hg. rewrite (sendMessage_eq send si m g Hg). destruct (send g _). intros [= _ _ <-]. by repeat constructor. }
  assert (forall cause code sent', sendError send (slot core s) cause code = Some sent' -> Forall (fun out => fst out = f) sent') as Herr.
  { intros cause code sent' He. unfold sendError in He. destruct (_ && _); [injection He as <-; constructor|].
    destruct (Message_shift _ _) as [c|]; [|done]. cbn [mbind option_bind] in He.
    match type of He with context [SwitchCore.sendMessage ?a ?b ?c] => destruct (SwitchCore.sendMessage a b c) as [[[after err] out]|] eqn:Es end; [|done].
    injection He as <-. by apply (Hone _ _ _ _ _ _ Hf Es). }
  assert (forall sent', Forall (fun out : Sent => fst out = f) sent' -> Forall (fun out => (slot core 1).(si_iface) = Some (fst out) \/ fst out = f) sent') as Hback.
  { intros sent' H. eapply List.Forall_impl; [|exact H]. auto. }
  destruct (Z.ltb_spec (si_bufferMax (slot core s)) (si_buffer (slot core s))) as [Hb|Hb].
  { unfold SwitchCore.receiveMessage in E. rewrite (proj2 (Z.ltb_lt _ _) Hb) in E. injection E as <-. constructor. }
  destruct (Z.ltb_spec (length msg) 12) as [Hlen|Hlen].
  { unfold SwitchCore.receiveMessage in E. rewrite (proj2 (Z.ltb_ge _ _) Hb) in E. unfold Headers_SwitchHeader_SIZE in E.
    rewrite (proj2 (Z.ltb_lt _ _) Hlen) in E. injection E as <-. constructor. }
  rewrite receiveMessage_follows_route in E by done. destruct (route core s (label_of msg)) as [[dest T]|] eqn:Hr; [|by apply Hback, (Herr msg Error_MALFORMED_ADDRESS)].
  assert (dest = 1) as ->.
  { assert (NumberCompress_getDecompressed (label_of msg) (NumberCompress_bitsUsedForLabel (label_of msg)) = 1) as E1.
    { apply (one_iff (s := NumberCompress)). replace 256 with (16 * 16) in Hl by lia. rewrite Z.rem_mul_r in Hl by lia. pose proof (Z.mod_pos_bound (label_of msg) 16). pose proof (Z.mod_pos_bound (label_of msg / 16) 16). lia. }
    unfold route in Hr. rewrite E1 in Hr. destruct (if _ <=? _ then _ else _) as [w|]; [|done]. cbn [mbind option_bind] in Hr.
    case_bool_decide; [done|]. by injection Hr as <- _. }
  destruct (si_iface (slot core 1)) as [r|] eqn:Hr1; [|unfold SwitchCore.sendMessage in E; rewrite Hr1 in E; done].
  match type of E with context [SwitchCore.sendMessage ?a ?b ?c] => destruct (SwitchCore.sendMessage a b c) as [[[after err] out]|] eqn:Es end; [|done].
  cbn [mbind option_bind] in E. pose proof (Hone _ _ _ _ _ _ Hr1 Es) as Hout.
  assert (Forall (fun o : Sent => Some r = Some (fst o) \/ fst o = f) out) as Hout' by (eapply List.Forall_impl; [|exact Hout]; intros o ->; auto).
  destruct (negb (err =? 0)); [|by injection E as <-].
  match type of E with context [sendError ?a ?b ?c ?e] => destruct (sendError a b c e) as [back|] eqn:Eb end; [|done].
  injection E as <-. apply Forall_app. split; [done|]. by apply Hback, (Herr _ _ _ Eb).
Qed.

(** The session of a peer as the controller looks at it. *)
Definition session_state (d : InterfaceController) (p : IFCPeer) : Wrapper * Z := CryptoAuth_getState d.(ca) d.(seconds) p.(cryptoAuthIf).

Lemma run_getState d ep p : d.(peers) !! ep = Some p ->
  getState ep d = Some (snd (session_state d p), with_peers (<[ep := set_cryptoAuthIf p (fst (session_state d p))]> d.(peers)) d.(peerMap) d).
Proof.
  intros Hp. unfold getState. rewrite (run_peer _ _ p) by done. unfold put_peer. run_steps. fold (session_state d p).
  destruct (session_state d p). done.
Qed.

Lemma peer_slot d ep p i : controller_ok d -> d.(peers) !! ep = Some p -> d.(switchCore).(receiverContext) !! ep = Some i ->
  (slot d.(switchCore) i).(si_iface) = Some ep /\ 0 <= i < NumberCompress_INTERFACES.
Proof.
  intros [[g Hg] Hs] Hp Hi. destruct (Hs ep p Hp) as [(_ & Hn & _)|(j & Hj & _)]; [congruence|].
  pose proof (ok_context _ (ok_core d g Hg) j ep Hj) as Hc. assert (j = i) as -> by congruence.
  split; [done|]. apply (ok_range _ (ok_core d g Hg) i ep Hj).
Qed.

Lemma admit_replay d ep p msg code d' :
  controller_ok d -> d.(peers) !! ep = Some p -> unestablished p.(peer_state) = true ->
  snd (session_state d p) < CryptoAuth_HANDSHAKE3 -> bytes_ok (read msg.(buffer) msg.(bytes) 8) ->
  receivedAfterCryptoAuth msg ep d = Some (code, d') ->
  (code = Error_NONE /\ d'.(outputs) = d.(outputs)) \/
  (label_of msg mod 256 = 1 /\ exists d0 d1 sent,
     d0.(outputs) = d.(outputs) /\ (exists q, d0.(peers) !! ep = Some q /\ q.(peer_state) = HANDSHAKE) /\
     pingCallback d0 = Some (tt, d1) /\ send_all sent d1 = Some (tt, d') /\
     Forall (fun out => (slot d.(switchCore) 1).(si_iface) = Some (fst out) \/ fst out = ep) sent).
Proof.
  intros Hr Hp Hu Hst Hm E. unfold receivedAfterCryptoAuth, admit_message in E.
  rewrite run_assoc, (run_peer _ _ p), Hu in E by done. rewrite run_assoc, (run_ok _ _ _ _ _ (run_getState d ep p Hp)) in E.
  rewrite (proj2 (Z.leb_gt _ _)) in E by done. unfold become in E.
  set (d1 := with_peers _ _ _) in E. assert (d1.(peers) !! ep = Some (set_cryptoAuthIf p (fst (session_state d p)))) as Hp1
    by (cbn; apply lookup_insert_eq).
  rewrite run_assoc, run_assoc, (run_peer _ _ _ _ Hp1) in E. unfold put_peer in E. rewrite run_modify in E.
  set (d2 := with_peers _ _ _) in E. assert (alike d d2) as Ha2.
  { transitivity d1; [by eapply alike_put|]. by eapply alike_put. }
  destruct (_ || _) eqn:Eg.
  { left. rewrite run_ret in E. injection E as <- <-. done. }
  right. apply orb_false_iff in Eg as [_ Eg]. apply negb_false_iff, Z.eqb_eq in Eg. split; [rewrite label_low by done; exact Eg|].
  rewrite run_assoc, run_bind in E. destruct (pingCallback d2) as [[[] d3]|] eqn:Ep; [|done]. rewrite run_ret in E.
  assert (alike d d3) as Ha3 by (transitivity d2; [done|exact (wlp_run _ _ _ _ _ (sends_pingCallback d2) Ep)]).
  unfold peer_into_switch in E. destruct (alike_lookup _ _ _ _ Ha3 Hp) as (p3 & Hp3 & _). rewrite (run_peer _ _ _ _ Hp3), run_gets in E.
  unfold into_switch in E. cbn [id] in E.
  rewrite (alike_core _ _ Ha3) in E.
  destruct (receiverContext (switchCore d) !! ep) as [i|] eqn:Ei; [|done]. rewrite run_some, run_gets in E. cbn [id] in E.
  rewrite (alike_core _ _ Ha3) in E.
  destruct (SwitchCore.receiveMessage _ _ i msg) as [sent|] eqn:Es; [|done]. rewrite run_some, run_bind in E.
  destruct (send_all sent d3) as [[[] d4]|] eqn:Esend; [|done]. injection E as <- <-.
  destruct (peer_slot d ep p i Hr Hp Ei) as [Hslot Hi]. exists d2, d3, sent. split; [done|]. split.
  { eexists. split; [cbn; apply lookup_insert_eq|done]. }
  split; [done|]. split; [done|]. eapply router_label_stays; [exact Hi|exact Hslot| |exact Es]. rewrite label_low by done. exact Eg.
Qed.

(** The controller when a session has made something of a packet. *)
Definition heard (d : InterfaceController) (ep : Iface) (p : IFCPeer) (w : Wrapper) (r : Rand) : InterfaceController :=
  with_rng r (with_peers (<[ep := set_cryptoAuthIf p w]> d.(peers)) d.(peerMap) d).

Lemma heard_alike d ep p w r : d.(peers) !! ep = Some p -> alike d (heard d ep p w r).
Proof. intros Hp. etransitivity; [by eapply (alike_put d ep p (set_cryptoAuthIf p w))|apply alike_rng]. Qed.

Lemma heard_ok d ep p w r : neighbours_reachable d -> d.(peers) !! ep = Some p -> controller_ok (heard d ep p w r).
Proof. intros Hr Hp. by eapply alike_ok; [apply heard_alike|apply neighbours_ok]. Qed.

Lemma run_fromNeighbour d ep p packet w r msg result : d.(peers) !! ep = Some p ->
  CryptoAuth.receiveMessage d.(ca) d.(seconds) packet p.(cryptoAuthIf) d.(rng) = Some (w, r, [Deliver msg], result) ->
  fromNeighbour packet ep d =
    (code ← receivedAfterCryptoAuth msg ep; mret (match result with Code c => c | FromCallee => code end)) (heard d ep p w r).
Proof.
  intros Hp E. unfold fromNeighbour. rewrite (run_peer _ _ p) by done. run_steps. rewrite E. run_steps. unfold put_peer. run_steps.
  cbn [receive_events]. rewrite run_assoc. done.
Qed.

(** C15: what comes from a peer that is UNAUTHENTICATED or in HANDSHAKE, out of a
    session that has not reached its third handshake state, may be a replay. It is
    dropped, and nothing is sent, unless its label is for this node; in that case
    neighbours are pinged, and then the switch gives it to the router and to no
    other neighbour (an error may go back to the one it came from). A peer that is
    UNRESPONSIVE has no such guard: whatever the state of its session, its messages
    go on ([InterfaceController_unresponsive_unguarded]). *)
Theorem InterfaceController_guards_replay d ep p packet w r msg result code d' :
  neighbours_reachable d -> d.(peers) !! ep = Some p -> unestablished p.(peer_state) = true ->
  CryptoAuth.receiveMessage d.(ca) d.(seconds) packet p.(cryptoAuthIf) d.(rng) = Some (w, r, [Deliver msg], result) ->
  snd (CryptoAuth_getState d.(ca) d.(seconds) w) < CryptoAuth_HANDSHAKE3 -> bytes_ok (read msg.(buffer) msg.(bytes) 8) ->
  fromNeighbour packet ep d = Some (code, d') ->
  d'.(outputs) = d.(outputs) \/
  (label_of msg mod 256 = 1 /\ exists d0 d1 sent,
     d0.(outputs) = d.(outputs) /\ (exists q, d0.(peers) !! ep = Some q /\ q.(peer_state) = HANDSHAKE) /\
     pingCallback d0 = Some (tt, d1) /\ send_all sent d1 = Some (tt, d') /\
     Forall (fun out => (slot d.(switchCore) 1).(si_iface) = Some (fst out) \/ fst out = ep) sent).
Proof.
  intros Hr Hp Hu E Hst Hm Erun. rewrite (run_fromNeighbour _ _ _ _ _ _ _ _ Hp E), run_bind in Erun.
  destruct (receivedAfterCryptoAuth msg ep _) as [[c d1]|] eqn:Ea; [|done]. injection Erun as _ <-.
  pose proof (admit_replay _ _ (set_cryptoAuthIf p w) _ _ _ (heard_ok d ep p w r Hr Hp) (lookup_insert_eq _ _ _) Hu Hst Hm Ea) as [[_ H]|H];
    [by left|by right].
Qed.

(** ** A neighbour that comes back *)
Lemma getState_key ctx now w : CryptoAuth_getHerPublicKey (fst (CryptoAuth_getState ctx now w)) = CryptoAuth_getHerPublicKey w.
Proof. unfold CryptoAuth_getState. destruct (_ <? _); done. Qed.

Lemma placed_slot d ep p : controller_ok d -> d.(peers) !! ep = Some p -> p.(switchLabel) <> 0 ->
  exists i, d.(switchCore).(receiverContext) !! ep = Some i /\ placed_in d.(switchCore) ep p.(switchLabel) i.
Proof.
  intros [[g Hg] Hs] Hp Hl. destruct (Hs ep p Hp) as [(_ & _ & ?)|(i & Hi)]; [done|]. exists i. split; [|exact Hi].
  apply (ok_context _ (ok_core d g Hg)), Hi.
Qed.

Lemma admit_merge d ep old p q msg :
  controller_ok d -> d.(peers) !! ep = Some p -> d.(peers) !! old = Some q -> old <> ep ->
  unestablished p.(peer_state) = true -> CryptoAuth_HANDSHAKE3 <= snd (session_state d p) ->
  same_key q p = true -> (forall ep' q', ep' <> ep -> d.(peers) !! ep' = Some q' -> same_key q' p = true -> ep' = old) ->
  p.(switchLabel) <> 0 -> q.(switchLabel) <> 0 ->
  exists a b p' d', d.(switchCore).(receiverContext) !! old = Some a /\ d.(switchCore).(receiverContext) !! ep = Some b /\
    admit_message msg ep d = Some (true, d') /\
    d'.(peers) !! ep = Some p' /\ p'.(peer_state) = ESTABLISHED /\ p'.(switchLabel) = q.(switchLabel) /\ p'.(external) = p.(external) /\
    d'.(peers) !! old = None /\ (forall ep', ep' <> ep -> ep' <> old -> d'.(peers) !! ep' = d.(peers) !! ep') /\
    (slot d'.(switchCore) a).(si_iface) = Some ep /\ slot d'.(switchCore) b = vacant /\
    (forall i, i <> a -> i <> b -> slot d'.(switchCore) i = slot d.(switchCore) i) /\
    d'.(peerMap).(count) = d.(peerMap).(count) - 1 /\ d'.(outputs) = d.(outputs) ++ [Freed q.(external)].
Proof.
  intros Hr Hp Hq Hne Hu Hst Hk Honly Hl Hlq.
  destruct (placed_slot d old q Hr Hq Hlq) as (a & Ca & Pa). destruct (placed_slot d ep p Hr Hp Hl) as (b & Cb & Pb).
  set (p1 := set_cryptoAuthIf p (fst (session_state d p))).
  set (d1 := with_peers (<[ep := p1]> d.(peers)) d.(peerMap) d).
  assert (d1.(peers) !! ep = Some p1) as Hp1 by (cbn; apply lookup_insert_eq).
  assert (d1.(peers) !! old = Some q) as Hq1 by (cbn; by rewrite lookup_insert_ne).
  assert (forall q', same_key q' p1 = same_key q' p) as Hkey by (intros q'; unfold same_key, p1, session_state; cbn [cryptoAuthIf set_cryptoAuthIf]; by rewrite getState_key).
  assert (controller_ok d1) as [[g Hg] Hs] by (eapply alike_ok; [by eapply alike_put|exact Hr]).
  exists a, b. destruct (move_cases d1 g ep p1 Hg Hp1) as [[_ Hno]|(old' & q' & Hne' & Hq' & Hk' & Emove)].
  { specialize (Hno old q Hne Hq1). rewrite Hkey, Hk in Hno. done. }
  rewrite Hkey in Hk'. assert (old' = old) as ->.
  { apply (Honly old' q' Hne'); [|done]. cbn in Hq'. by rewrite lookup_insert_ne in Hq'. }
  assert (q' = q) as -> by congruence. clear Hq' Hne' Hk'.
  destruct (run_take_over d1 g ep old p1 q Hg Hs Hp1 Hq1 Hne) as [[_ [?|?]]|(a' & b' & core & map & E & _ & _ & Pa' & Pb' & (Hnew & _) & Hvac & Hcount & Hrest)];
    [done|done|].
  cbv zeta in E. assert (a' = a /\ b' = b) as [-> ->].
  { destruct Pa' as [Pa' _], Pb' as [Pb' _]. apply (ok_context _ (ok_core d1 g Hg)) in Pa', Pb'. change (switchCore d1) with (switchCore d) in *.
    split; congruence. }
  rewrite <-Emove in E. set (d2 := without _ _ _ _) in *.
  assert (d2.(peers) !! ep = Some (set_switchLabel p1 q.(switchLabel))) as Hp2.
  { cbn. rewrite lookup_delete_ne by done. apply lookup_insert_eq. }
  exists (set_state (set_switchLabel p1 (switchLabel q)) ESTABLISHED). eexists. split; [done|]. split; [done|]. split.
  { unfold admit_message. rewrite (run_peer _ _ p), Hu, (run_ok _ _ _ _ _ (run_getState d ep p Hp)) by done.
    rewrite (proj2 (Z.leb_le _ _)) by done. fold p1 d1. rewrite (run_ok _ _ _ _ _ E). unfold become.
    rewrite run_assoc, (run_peer _ _ _ _ Hp2). unfold put_peer. rewrite run_modify. done. }
  cbn [with_peers peers switchCore peerMap outputs]. split; [apply lookup_insert_eq|]. split; [done|]. split; [done|]. split; [done|].
  split; [rewrite lookup_insert_ne by done; cbn; apply lookup_delete_eq|]. split.
  { intros ep' He Ho. rewrite lookup_insert_ne by done. cbn. rewrite lookup_delete_ne, !lookup_insert_ne by done. done. }
  split; [exact Hnew|]. split; [exact Hvac|]. split; [exact Hrest|]. split; [exact Hcount|done].
Qed.

(** C14: a neighbour whose session gets through the handshake and who was known
    under another interface takes that peer's place: its label and its slot of the
    switch, so that paths through it lead to the new interface; the old peer, its
    row and its interface are given back, the new peer's first slot is vacant, and
    no other peer or slot changes. *)
Theorem InterfaceController_merges d ep old p q packet w r msg result :
  neighbours_reachable d -> d.(peers) !! ep = Some p -> d.(peers) !! old = Some q -> old <> ep ->
  unestablished p.(peer_state) = true ->
  CryptoAuth.receiveMessage d.(ca) d.(seconds) packet p.(cryptoAuthIf) d.(rng) = Some (w, r, [Deliver msg], result) ->
  CryptoAuth_HANDSHAKE3 <= snd (CryptoAuth_getState d.(ca) d.(seconds) w) ->
  same_key q (set_cryptoAuthIf p w) = true ->
  (forall ep' q', ep' <> ep -> d.(peers) !! ep' = Some q' -> same_key q' (set_cryptoAuthIf p w) = true -> ep' = old) ->
  p.(switchLabel) <> 0 -> q.(switchLabel) <> 0 ->
  exists a b p' d', d.(switchCore).(receiverContext) !! old = Some a /\ d.(switchCore).(receiverContext) !! ep = Some b /\
    fromNeighbour packet ep d = (code ← peer_into_switch ep msg; mret (match result with Code c => c | FromCallee => code end)) d' /\
    d'.(peers) !! ep = Some p' /\ p'.(peer_state) = ESTABLISHED /\ p'.(switchLabel) = q.(switchLabel) /\ p'.(external) = p.(external) /\
    d'.(peers) !! old = None /\ (forall ep', ep' <> ep -> ep' <> old -> d'.(peers) !! ep' = d.(peers) !! ep') /\
    (slot d'.(switchCore) a).(si_iface) = Some ep /\ slot d'.(switchCore) b = vacant /\
    (forall i, i <> a -> i <> b -> slot d'.(switchCore) i = slot d.(switchCore) i) /\
    d'.(peerMap).(count) = d.(peerMap).(count) - 1 /\ d'.(outputs) = d.(outputs) ++ [Freed q.(external)].
Proof.
  intros Hr Hp Hq Hne Hu E Hst Hk Honly Hl Hlq. set (d1 := heard d ep p w r).
  assert (d1.(peers) !! ep = Some (set_cryptoAuthIf p w)) as Hp1 by apply lookup_insert_eq.
  assert (forall ep', ep' <> ep -> d1.(peers) !! ep' = d.(peers) !! ep') as Hother by (intros ep' He; by apply lookup_insert_ne).
  destruct (admit_merge d1 ep old _ q msg (heard_ok d ep p w r Hr Hp) Hp1) as (a & b & p' & d' & Ha & Hb & Eadmit & H1 & H2 & H3 & H4 & H5 & H6 & H);
    [by rewrite Hother|done|done|done|done| |done|done|].
  { intros ep' q' He. rewrite Hother by done. by apply Honly. }
  exists a, b, p', d'. split; [exact Ha|]. split; [exact Hb|]. split.
  { rewrite (run_fromNeighbour _ _ _ _ _ _ _ _ Hp E). fold d1. unfold receivedAfterCryptoAuth. rewrite run_assoc. by run_by Eadmit. }
  split; [done|]. split; [done|]. split; [done|]. split; [done|]. split; [done|]. split; [|exact H].
  intros ep' He Ho. rewrite H6 by done. by apply Hother.
Qed.

(** ** A neighbour that is silent *)

(** The message that [sendFromSwitch] gives back for an error packet. *)
Definition refused_message (msg : Message) : Message :=
  let len := u16 (if length msg <? 255 then length msg else 255) in
  {| length := len; padding := u16 msg.(padding); bytes := msg.(bytes);
     buffer := write trashed msg.(bytes) (read msg.(buffer) msg.(bytes) len) |}.

Definition silent (d : InterfaceController) (p : IFCPeer) : Prop :=
  d.(unresponsiveAfterMilliseconds) < u64 (d.(milliseconds) - p.(timeOfLastMessage)).

Lemma run_sendFromSwitch d ep p msg w r m : d.(peers) !! ep = Some p ->
  CryptoAuth.sendMessage d.(ca) d.(seconds) msg p.(cryptoAuthIf) d.(rng) = Some (w, r, [SendWrapped m], FromCallee) ->
  external_code p.(external) m = 0 -> silent d p ->
  sendFromSwitch ep msg d = Some ((refused_message msg, Error_UNDELIVERABLE),
    with_output (ToNeighbour p.(external) m) (with_rng r (with_peers (<[ep := set_cryptoAuthIf p w]> d.(peers)) d.(peerMap) d))).
Proof.
  intros Hp E Hc Hs. unfold sendFromSwitch. rewrite (run_peer _ _ p) by done. run_steps. rewrite E. run_steps. unfold put_peer. run_steps.
  cbn [send_events]. unfold emit. run_steps. rewrite Hc. change (0 =? 0) with true. cbn [negb orb].
  rewrite (proj2 (Z.ltb_lt _ _)) by exact Hs. done.
Qed.

Lemma refused_ok msg : message_ok msg -> mem_ok trashed -> padding msg < 2 ^ 16 -> message_ok (refused_message msg).
Proof.
  intros (Hl & Hp & Ht & Hm) Htr Hpad. unfold refused_message, message_ok. cbn [length padding bytes buffer].
  rewrite !u16_small by (bcase; lia). split_and!; try (bcase; lia). apply write_ok; [done|by apply read_ok].
Qed.

Lemma refused_at msg x : message_ok msg -> bytes msg <= x < bytes msg + Z.min (length msg) 255 ->
  buffer (refused_message msg) x = buffer msg x.
Proof.
  intros (Hl & _) Hx. unfold refused_message. cbn [buffer]. rewrite u16_small by (bcase; lia).
  set (len := if length msg <? 255 then length msg else 255). assert (len = Z.min (length msg) 255) as El by (unfold len; bcase; lia).
  rewrite write_in by (rewrite length_read; lia). rewrite nth_read by lia. f_equal. lia.
Qed.

(** The cause of the error packet: the packet under its old label. *)
Definition cause_of (si : SwitchInterface) (msg : Message) (T : Z) : Message :=
  with_label (refused_message (outgoing si (with_label msg msg.(bytes) (Endian_hostToBigEndian64 T)))) msg.(bytes)
    (Endian_bigEndianToHost64 (label_of msg)).

Lemma with_label_ok msg a z : message_ok msg -> message_ok (with_label msg a z).
Proof. intros (H1 & H2 & H3 & H4). split; [done|split; [done|split; [done|]]]. apply write_ok; [done|apply store_ok]. Qed.

Lemma outgoing_ok si msg : message_ok msg -> message_ok (outgoing si msg).
Proof.
  intros Hm. unfold outgoing. destruct (_ <? _); [|done]. destruct Hm as (H1 & H2 & H3 & H4). split; [done|split; [done|split; [done|]]].
  apply write_ok; [done|apply store_ok].
Qed.

Lemma message_type_range m a : mem_ok m -> 0 <= Headers_getMessageType m a < 2 ^ 8.
Proof.
  intros Hm. unfold Headers_getMessageType. pose proof (hostToBigEndian32_range (load 4 m (a + SwitchHeader_lowBits_be)) (load_range 4 m _ Hm)) as H.
  change (Endian_bigEndianToHost32 (load 4 m (a + SwitchHeader_lowBits_be))) with (Endian_hostToBigEndian32 (load 4 m (a + SwitchHeader_lowBits_be))).
  rewrite Z.shiftr_div_pow2 by lia. split; [apply Z.div_pos; lia|apply Z.div_lt_upper_bound; lia].
Qed.

Lemma cause_spec si msg T : message_ok msg -> mem_ok trashed -> 16 <= length msg -> padding msg < 2 ^ 16 ->
  let cause := cause_of si msg T in
  message_ok cause /\ length cause = Z.min (length msg) 255 /\ padding cause = padding msg /\ bytes cause = bytes msg /\
  label_of cause = label_of msg /\ is_error cause = is_error msg /\
  (forall x, bytes msg + 12 <= x < bytes msg + Z.min (length msg) 255 -> buffer cause x = buffer msg x).
Proof.
  intros Hm Htr Hl Hpad. cbv zeta. unfold cause_of. set (m1 := with_label msg (bytes msg) _). set (m2 := outgoing si m1).
  assert (message_ok m1) as Hm1 by (by apply with_label_ok). assert (message_ok m2) as Hm2 by (by apply outgoing_ok).
  destruct (outgoing_shape si m1) as (L2 & P2 & B2 & O2). fold m2 in L2, P2, B2, O2. cbn [m1 with_label with_buffer length padding bytes] in L2, P2, B2, O2.
  pose proof (refused_ok m2 Hm2 Htr) as Hm3. pose proof Hm as (Hl0 & Hp0 & Ht0 & Hmem).
  pose proof (label_of_range msg Hmem) as Hlab.
  assert (forall x, bytes msg <= x < bytes msg + Z.min (length msg) 255 -> buffer (refused_message m2) x = buffer m2 x) as R3.
  { intros x Hx. apply refused_at; [done|]. rewrite L2, B2. done. }
  assert (forall x, bytes msg + 8 <= x -> buffer m1 x = buffer msg x) as R1.
  { intros x Hx. unfold m1, with_label. cbn [with_buffer buffer]. apply write_out. rewrite length_store. unfold SwitchHeader_label_be. lia. }
  set (cause := with_label _ _ _).
  assert (forall x, bytes msg + 8 <= x < bytes msg + Z.min (length msg) 255 -> buffer cause x = buffer m2 x) as R4.
  { intros x Hx. unfold cause, with_label. cbn [with_buffer buffer]. rewrite write_out by (rewrite length_store; unfold SwitchHeader_label_be; lia).
    apply R3. lia. }
  split; [apply with_label_ok, Hm3; lia|]. split.
  { cbn [cause with_label with_buffer length refused_message]. rewrite L2, u16_small; bcase; lia. }
  split; [cbn [cause with_label with_buffer padding refused_message]; rewrite P2; apply u16_small; lia|].
  split; [cbn [cause with_label with_buffer bytes refused_message]; exact B2|]. split.
  { unfold cause. replace (bytes msg) with (bytes (refused_message m2)) by exact B2.
    change (Endian_bigEndianToHost64 (label_of msg)) with (Endian_hostToBigEndian64 (label_of msg)). by apply label_of_with_label. }
  split; [|intros x Hx; rewrite R4, O2, R1 by lia; done].
  unfold is_error, ErrorPacket_ctrl, Headers_SwitchHeader_SIZE, Control_type_be.
  assert (bytes cause = bytes msg) as -> by exact B2. f_equal.
  - f_equal. transitivity (Headers_getMessageType (buffer m2) (bytes msg)).
    + unfold Headers_getMessageType, SwitchHeader_lowBits_be. do 2 f_equal. apply load_read, read_ext. intros i Hi. apply R4. lia.
    + assert (Headers_getMessageType (buffer m1) (bytes msg) = Headers_getMessageType (buffer msg) (bytes msg)) as E1.
      { unfold Headers_getMessageType, SwitchHeader_lowBits_be. do 2 f_equal. apply load_read, read_ext. intros i Hi. apply R1. lia. }
      rewrite <-E1. unfold m2, outgoing. destruct (_ <? _); [|done]. cbn [with_buffer buffer].
      pose proof (message_type_range (buffer m1) (bytes msg) ltac:(apply Hm1)) as Hr.
      change (bytes m1) with (bytes msg).
      destruct (Headers_switchHeader_fields (buffer m1) (bytes msg) 0 (Headers_getMessageType (buffer m1) (bytes msg)) (proj1 Hr)) as (_ & -> & _).
      apply Z.mod_small, Hr.
  - f_equal. apply load_read, read_ext. intros i Hi. rewrite R4, O2, R1 by lia. done.
Qed.

(** What the switch gives to a peer's interface. *)
Definition handed_on (d : InterfaceController) (i : Z) (msg : Message) (T : Z) : Message :=
  outgoing (slot d.(switchCore) i) (with_label msg msg.(bytes) (Endian_hostToBigEndian64 T)).

(** C16: the router's packet for a neighbour that has been silent for too long is
    sent to him all the same, and the router gets one error packet, "undeliverable":
    under the reversed label of the packet, with a checksum that verifies, and with
    the start of the packet (up to 255 bytes, stated from behind its switch header
    on) in it, although encryption has by
    then overwritten the packet itself. *)
Theorem InterfaceController_undeliverable d ep p router msg i T w r m :
  neighbours_reachable d -> d.(peers) !! ep = Some p -> silent d p -> d.(switchCore).(receiverContext) !! ep = Some i ->
  (slot d.(switchCore) 1).(si_iface) = Some router -> d.(peers) !! router = None ->
  (slot d.(switchCore) 1).(si_buffer) <= (slot d.(switchCore) 1).(si_bufferMax) ->
  message_ok msg -> mem_ok trashed -> 16 <= length msg -> 20 <= padding msg < 2 ^ 16 -> is_error msg = false ->
  route d.(switchCore) 1 (label_of msg) = Some (i, T) ->
  CryptoAuth.sendMessage d.(ca) d.(seconds) (handed_on d i msg T) p.(cryptoAuthIf) d.(rng) = Some (w, r, [SendWrapped m], FromCallee) ->
  external_code p.(external) m = 0 ->
  exists err d', into_switch 1 msg d = Some (Error_NONE, d') /\
    d'.(outputs) = d.(outputs) ++ [ToNeighbour p.(external) m; ToOther router err] /\
    label_of err = Bits_bitReverse64 (label_of msg) /\ is_error err = true /\
    Endian_bigEndianToHost32 (load 4 err.(buffer) (err.(bytes) + 16)) = Error_UNDELIVERABLE /\
    Checksum_engine err.(buffer) (err.(bytes) + 12) (length err - 12) = 0 /\
    length err = Z.min (length msg) 255 + 20 /\
    forall k, 12 <= k < Z.min (length msg) 255 -> err.(buffer) (err.(bytes) + 20 + k) = msg.(buffer) (msg.(bytes) + k).
Proof.
  intros Hr Hp Hsil Hi Hr1 Hnp Hbuf Hm Htr Hl Hpad Herr Hroute E Hcode. apply neighbours_ok in Hr.
  destruct (peer_slot d ep p i Hr Hp Hi) as [Hslot _].
  destruct (cause_spec (slot d.(switchCore) i) msg T Hm Htr Hl ltac:(lia)) as (Hcm & Hcl & Hcp & Hcb & Hclab & Hce & Hcr).
  set (cause := cause_of (slot d.(switchCore) i) msg T) in *.
  pose proof (run_sendFromSwitch d ep p (handed_on d i msg T) w r m Hp E Hcode Hsil) as Hrun. set (d1 := with_output (ToNeighbour p.(external) m) _) in Hrun.
  pose proof (SwitchCore_sendError_packet (switch_sends d) (slot d.(switchCore) 1) router cause Error_UNDELIVERABLE Hr1 Hcm ltac:(done)) as Hse.
  unfold reports in Hse. rewrite Hce, Herr, (proj2 (Z.ltb_ge _ _)) in Hse by lia. destruct Hse as (err & Hse & E1 & E2 & E3 & E4 & E5 & E6).
  exists err, (with_output (ToOther router err) d1). split; [|split].
  - assert (switch_sends d ep (handed_on d i msg T) = (refused_message (handed_on d i msg T), Error_UNDELIVERABLE)) as Hsend.
    { unfold switch_sends. rewrite Hp, Hrun. done. }
    assert (SwitchCore.receiveMessage (switch_sends d) d.(switchCore) 1 msg = Some [(ep, handed_on d i msg T); (router, err)]) as Hsw.
    { rewrite receiveMessage_follows_route
        by (done || lia || (pose proof (interfaces_range (s := NumberCompress)); unfold NumberCompress_INTERFACES; lia)).
      rewrite Hroute, (sendMessage_eq _ _ _ ep Hslot). fold (handed_on d i msg T). rewrite Hsend. cbn [mbind option_bind].
      change (negb (Error_UNDELIVERABLE =? 0)) with true. cbv iota.
      change (with_label _ _ _) with cause. rewrite Hse. done. }
    unfold into_switch. run_steps. rewrite Hsw. run_steps. cbn [send_all]. run_steps. rewrite Hp. run_steps. run_by Hrun. run_steps.
    cbn [d1 with_output with_rng with_peers peers]. rewrite lookup_insert_ne, Hnp by congruence. unfold emit. run_steps. done.
  - cbn [d1 with_output with_rng with_peers outputs]. rewrite <-app_assoc. done.
  - rewrite E1, Hclab. split; [done|]. split; [done|]. split; [done|]. split; [done|]. rewrite Hcl in *.
    replace (Z.min (Z.min (length msg) 255) 256) with (Z.min (length msg) 255) in * by lia. split; [done|].
    intros k Hk. rewrite (read_inj _ _ _ _ _ k E6) by lia. rewrite Hcb. apply Hcr. lia.
Qed.

(** ** Peers that are used after they were given back *)

(** A transient peer that has been silent for longer than both limits. *)
Definition overdue (d : InterfaceController) (p : IFCPeer) : Prop := p.(transient) = true /\
  u64 (p.(timeOfLastMessage) + d.(pingAfterMilliseconds)) < d.(milliseconds) /\
  u64 (p.(timeOfLastMessage) + d.(forgetAfterMilliseconds)) < d.(milliseconds).

Lemma check_overdue d ep p : d.(peers) !! ep = Some p -> overdue d p -> check_peer ep d = None.
Proof.
  intros Hp (Ht & H1 & H2). unfold check_peer. rewrite (run_peer _ _ _ _ Hp), run_gets. cbn [id].
  rewrite Ht, (proj2 (Z.ltb_lt _ _) H1), (proj2 (Z.ltb_lt _ _) H2). cbn [andb]. pose proof (freed_ping ep d) as H.
  unfold wlp in H. destruct ((_ ← free_external ep; ping_peer ep) d) as [[[] d']|]; [destruct H|done].
Qed.

Lemma overdue_alike d d' ep p : alike d d' -> d.(peers) !! ep = Some p -> overdue d p -> exists p', d'.(peers) !! ep = Some p' /\ overdue d' p'.
Proof.
  intros Ha Hp H. destruct (alike_lookup _ _ _ _ Ha Hp) as (p' & Hp' & E). exists p'. split; [exact Hp'|].
  unfold place in E. injection E as _ _ _ Et El. pose proof (alike_limits _ _ Ha) as El2. unfold limits in El2. injection El2 as E1 E2.
  destruct (alike_time _ _ Ha) as [E3 _]. unfold overdue. rewrite Et, El, E1, E2, E3. exact H.
Qed.

Lemma loop_overdue n : forall i d ep p j, i <= j < i + Z.of_nat n -> j < d.(peerMap).(count) -> d.(peerMap).(values) j = ep ->
  d.(peers) !! ep = Some p -> overdue d p -> pingCallback_loop n i d = None.
Proof.
  induction n as [|n IH]; intros i d ep p j Hj Hc Hv Hp Ho; [lia|]. cbn [pingCallback_loop]. rewrite run_gets. cbn [id].
  rewrite (proj2 (Z.ltb_lt i _)) by lia. rewrite run_bind. destruct (decide (j = i)) as [->|Hne].
  - rewrite Hv. by rewrite (check_overdue d ep p Hp Ho).
  - destruct (check_peer _ d) as [[[] d1]|] eqn:E; [|done]. pose proof (wlp_run _ _ _ _ _ (sends_check _ d) E) as Ha. cbv beta in Ha.
    destruct (overdue_alike _ _ _ _ Ha Hp Ho) as (p1 & Hp1 & Ho1).
    apply (IH (i + 1) d1 ep p1 j); [lia|by rewrite (alike_map _ _ Ha)..|exact Hp1|exact Ho1].
Qed.

(** A peer's pings stay with the pinger when the peer goes. *)
Lemma free_keeps_pings ep d d' : free_external ep d = Some (tt, d') -> d'.(switchPinger) = d.(switchPinger) /\ d'.(peers) !! ep = None.
Proof.
  intros E. apply (wlp_run (free_external ep) (fun _ d' => d'.(switchPinger) = d.(switchPinger) /\ d'.(peers) !! ep = None) d tt d'); [|exact E].
  clear E d'. unfold free_external. apply wlp_peer. intros p _. apply wlp_bind.
  apply wlp_mono with (Q := fun _ d1 => d1.(switchPinger) = d.(switchPinger)).
  - unfold closeInterface. apply wlp_peer. intros q _. apply wlp_bind, wlp_gets. destruct (negb _); [apply wlp_abort|by apply wlp_modify].
  - intros _ d1 E1. apply wlp_bind, wlp_modify, wlp_bind, wlp_modify, wlp_modify. cbn. split; [exact E1|apply lookup_delete_eq].
Qed.

(** C17: a peer is used after it was given back, on two ways. In every reachable
    state in which a transient peer has been silent for longer than the limits to
    ping and to forget it, the timer stops the program: the peer is freed, and then
    pinged. And when a peer's memory is given back, by a merge or by its driver, its
    pings are not cancelled: the pong to one of them, which the pinger accepts, makes
    the callback read the freed peer. To read freed memory is an abort here. *)
Theorem InterfaceController_uses_freed_peer d ep p : neighbours_reachable d -> d.(peers) !! ep = Some p ->
  (overdue d p -> pingCallback d = None) /\
  (forall d', free_external ep d = Some (tt, d') -> d'.(switchPinger) = d.(switchPinger) /\
     forall msg pinger code r, SwitchPinger.receiveMessage msg d'.(milliseconds) d'.(switchPinger) = Some (pinger, code, Some r) ->
       r.(sr_result) = SwitchPinger_Result_OK -> r.(sr_callback) = ep -> incomingForPinger msg d' = None).
Proof.
  intros [[g Hg] _]%neighbours_ok Hp. split.
  - intros Ho. unfold pingCallback. rewrite run_modify, run_gets. cbn [id peerMap with_pinger].
    set (d1 := with_pinger _ _ d). assert (alike d d1) as Ha by apply alike_pinger.
    destruct (overdue_alike _ _ _ _ Ha Hp Ho) as (p1 & Hp1 & Ho1).
    destruct (peer_row d g ep p Hg Hp) as (j & Hj & _ & _ & Hv). apply (loop_overdue _ 0 d1 ep p1 j); [lia|exact (proj2 Hj)|exact Hv|exact Hp1|exact Ho1].
  - intros d' E. destruct (free_keeps_pings ep d d' E) as [Es En]. split; [exact Es|]. intros msg pinger code r Er Hok Hcb.
    unfold incomingForPinger. rewrite run_gets. cbn [id]. rewrite Er, run_some. cbv beta. rewrite run_modify, run_bind.
    unfold onPingResponse. rewrite Hok, Hcb. unfold peer. rewrite run_assoc, run_gets. cbn [id peers with_pinger]. rewrite run_bind. by rewrite En.
Qed.
End behaviour.
