(* ===== verification/InterfaceExamples.v ===== *)
(** * Neighbours: examples, and what goes wrong (net/DefaultInterfaceController.c)

    A controller that runs: neighbours are registered, open sessions, fall silent
    and come back. A neighbour that was marked as unresponsive before its session
    was established gets packets past the guard against replays; and a pong that
    comes in after a merge is handled with a peer that was given back. *)
From stdpp Require Import gmap.
From S2P Require Import Prelude Memory Endian Bits Checksum NumberCompress Headers Message NaCl CryptoAuth Address LabelSplicer SwitchCore Map Pinger SwitchPinger DHT InterfaceController InterfaceInvariant InterfaceBehaviour.
Open Scope Z_scope.

#[local] Existing Instance x86.

#[local] Instance demo_wires : Wires := {|
  external_padding _ := 0; external_max _ := 1500; external_code _ _ := 0; other_send _ m := (m, 0);
  trashed := fun _ => 0; ping_stack := fun _ => 0
|}.

#[local] Abbreviation controller := (InterfaceController (R := toy_random)).

(** The router has the interface 1000; neighbours are reached by 5000 and up. *)
Definition demo_core : SwitchCore := SwitchCore_setRouterInterface 1000 SwitchCore_new.
Definition demo_controller : controller :=
  DefaultInterfaceController_new (demo_context 8) demo_core SwitchPinger_new (0 : @Rand toy_random) 1000 1000000.

(** What is left when [f] has run, and when it was run from the start. *)
Definition after {A} (f : M controller A) (d : controller) : controller := match f d with Some (_, d') => d' | None => d end.
Definition runs {A} (f : M controller A) (d : controller) : bool := match f d with Some _ => true | None => false end.

Lemma runs_after {A} (f : M controller A) d : runs f d = true -> exists a, f d = Some (a, after f d).
Proof. unfold runs, after. destruct (f d) as [[a d']|]; [|done]. intros _. by exists a. Qed.

(** The neighbours 0, 1, …: the first packet may come from anyone, or is to come
    from the node [k]. *)
Definition demo_register (i : Z) : M controller Z := registerPeer None None false false (5000 + i) (6000 + i).
Definition demo_known (i k : Z) : M controller Z := registerPeer (Some (repeat k 32)) None false false (5000 + i) (6000 + i).

(** The node [k] sends a packet with [label] to the controller's node. *)
Definition demo_packet (label : Z) : Message :=
  {| length := 16; padding := 300; bytes := 0; buffer := of_list [0; 0; 0; 0; 0; 0; 0; label; 0; 0; 0; 9; 1; 2; 3; 4] |}.
Definition demo_session : Wrapper := CryptoAuth_wrapInterface 0 1500 (Some (repeat 8 32)) false true 1000.
Definition demo_say (k label : Z) (w : Wrapper) : M controller (Wrapper * Message) :=
  '(w, _, events, _) ← lift (CryptoAuth.sendMessage (demo_context k) 1000 (demo_packet label) w (0 : @Rand toy_random));
  match events with [SendWrapped m] => mret (w, m) | _ => abort end.
Definition demo_hello (k label : Z) : M controller Message := '(_, m) ← demo_say k label demo_session; mret m.

(** The node [k] gets what was sent last to the neighbour [i]. *)
Definition demo_hear (k i : Z) (w : Wrapper) : M controller Wrapper :=
  d ← gets id;
  match List.find (fun o => match o with ToNeighbour e _ => e =? 5000 + i | _ => false end) (rev d.(outputs)) with
  | Some (ToNeighbour _ m) =>
      '(w, _, _, _) ← lift (CryptoAuth.receiveMessage (demo_context k) 1000 m w (0 : @Rand toy_random)); mret w
  | _ => abort
  end.

(** The clock goes on by [s] seconds; the timer runs [n] times, a second each. *)
Definition demo_later (s : Z) : M controller unit := modify (fun d => with_time (d.(seconds) + s) (d.(milliseconds) + 1024 * s) d).
Fixpoint demo_wait (n : nat) : M controller unit :=
  match n with
  | O => mret tt
  | S n => _ ← demo_later 1; _ ← pingCallback; demo_wait n
  end.

(** The pong for the ping in [i], as it comes to the router's node. *)
Definition demo_pong (i label : Z) : M controller Message :=
  d ← gets id; ping ← lift (d.(switchPinger).(SwitchPinger.pinger).(pings) i);
  let content := concat (header_fields label (Endian_hostToBigEndian32 (1 << 24))) ++ pong_packet (fst (Pinger_sendPing ping)) in
  mret {| length := Z.of_nat (List.length content); padding := 0; bytes := 0; buffer := of_list content |}.

(** ** Reachable controllers *)
Lemma demo_reachable : neighbours_reachable demo_controller.
Proof.
  exists (demo_context 8), demo_core, SwitchPinger_new, (0 : @Rand toy_random), 1000, 1000000. split; [|apply rtc_refl].
  apply rtc_once, step_router; [vm_compute; reflexivity|]. intros [i Hi]. unfold slot, SwitchCore_new in Hi. cbn in Hi. by rewrite lookup_empty in Hi.
Qed.

Lemma then_step d d' : neighbours_reachable d -> controller_step d d' -> neighbours_reachable d'.
Proof. intros (c & core & sp & r & s & ms & Hc & H) Hs. exists c, core, sp, r, s, ms. split; [done|]. by eapply rtc_r. Qed.

(** A computed registration, with new memory and an interface that is not in use. *)
Lemma then_register key pw ra tr ext ep d : neighbours_reachable d ->
  (runs (registerPeer key pw ra tr ext ep) d && bool_decide (d.(peers) !! ep = None)
   && bool_decide (d.(switchCore).(receiverContext) !! ep = None)
   && (0 <=? ext) && (ext <? 2 ^ 64) && (d.(peerMap).(nextHandle) + 1 <? 2 ^ 31)
   && (d.(switchCore).(interfaceCount) <? 2 ^ 32 - 2)) = true ->
  neighbours_reachable (after (registerPeer key pw ra tr ext ep) d).
Proof.
  intros Hr [[[[[[H Hp%bool_decide_eq_true]%andb_prop Hc%bool_decide_eq_true]%andb_prop H0]%andb_prop H64]%andb_prop Hh]%andb_prop Hn]%andb_prop.
  destruct (runs_after _ _ H) as [code E]. eapply then_step; [done|]. eapply step_register; [|exact E]. split; [done| |lia|lia|unfold can_count; lia].
  intros [i Hi]. pose proof (neighbours_ok d Hr) as [[g Hg] _]. apply (ok_context _ (ok_core d g Hg)) in Hi. congruence.
Qed.

Lemma then_receive packet ep d : neighbours_reachable d -> runs (fromNeighbour packet ep) d = true ->
  neighbours_reachable (after (fromNeighbour packet ep) d).
Proof. intros Hr H. destruct (runs_after _ _ H) as [code E]. eapply then_step; [done|]. by eapply step_neighbour. Qed.

Definition demo_two : controller := after (demo_register 1) (after (demo_known 0 9) demo_controller).
Lemma two_reachable : neighbours_reachable demo_two.
Proof.
  unfold demo_two, demo_register, demo_known. apply then_register; [|vm_compute; reflexivity].
  apply then_register; [exact demo_reachable|vm_compute; reflexivity].
Qed.

(** What [f] sends to neighbours when it runs: to whom, and how much. *)
Definition sends_to {A} (f : M controller A) (d : controller) : option (list (Iface * Z)) :=
  '(_, d') ← f d;
  Some (omap (fun o => match o with ToNeighbour e m => Some (e, length m) | _ => None end) (drop (List.length d.(outputs)) d'.(outputs))).
Definition state_of (ep : Iface) (d : controller) : option (InterfaceController_PeerState * Z) :=
  p ← d.(peers) !! ep; Some (p.(peer_state), p.(switchLabel)).
Definition demo_receive (k label i : Z) : M controller Z := m ← demo_hello k label; fromNeighbour m (6000 + i).

(** The guard against replays is only for sessions that are not established: a
    neighbour that never opened one is marked as unresponsive when it is silent,
    and then the first packet of a session, which anyone can record and send
    again, goes through the switch to another neighbour. The same packet is
    dropped before the neighbour is marked. *)
Theorem InterfaceController_unresponsive_unguarded :
  let fresh := after (_ ← demo_register 0; demo_known 1 7) demo_controller in
  let marked := after (_ ← demo_later 17; demo_wait 8) fresh in
  state_of 6000 fresh = Some (HANDSHAKE, 0x13) /\ state_of 6001 fresh = Some (HANDSHAKE, 0x15) /\
  sends_to (demo_receive 9 0x15 0) fresh = Some [] /\
  state_of 6000 marked = Some (UNRESPONSIVE, 0x13) /\
  sends_to (demo_receive 9 0x15 0) marked = Some [(5001, 136); (5000, 156)].
Proof. cbv zeta. split_and!; vm_compute; reflexivity. Qed.

(** The node 9, known to be behind the interface 5000, opens a session through
    5001: the packet that gets it through the handshake. *)
Definition demo_return : M controller Message :=
  _ ← demo_known 0 9; _ ← demo_register 1;
  '(w, m) ← demo_say 9 1 demo_session; _ ← fromNeighbour m 6001; w ← demo_hear 9 1 w; '(_, m) ← demo_say 9 1 w; mret m.
Definition demo_answer : M controller Z := m ← demo_pong 0 0x13; incomingForPinger m.
(** The peer that the pinger calls back for that pong. *)
Definition called_back (d : controller) : option (SwitchPinger_Result * Z) :=
  '(m, d) ← demo_pong 0 0x13 d; '(_, _, response) ← SwitchPinger.receiveMessage m d.(milliseconds) d.(switchPinger);
  r ← response; Some (r.(sr_result), r.(sr_callback)).

(** Both ways to use a freed peer, as they are run into: when the neighbour comes
    back through another interface and takes the old peer's label, its pong to the
    old peer's ping is accepted and the callback reads the old peer; and when a
    transient peer is forgotten, it is pinged right afterwards. *)
Lemma freed_peer_run :
  let before := after demo_return demo_controller in
  let merged := after (m ← demo_return; fromNeighbour m 6001) demo_controller in
  let silent s := after (_ ← registerPeer None None false true 5000 6000; demo_later s) demo_controller in
  state_of 6000 before = Some (HANDSHAKE, 0x13) /\ state_of 6001 before = Some (HANDSHAKE, 0x15) /\ runs demo_answer before = true /\
  state_of 6000 merged = None /\ state_of 6001 merged = Some (ESTABLISHED, 0x13) /\
  called_back merged = Some (SwitchPinger_Result_OK, 6000) /\ demo_answer merged = None /\
  runs pingCallback (silent 252) = true /\ pingCallback (silent 253) = None.
Proof. cbv zeta. split_and!; vm_compute; reflexivity. Qed.

(** ** Witnesses *)
Lemma InterfaceController_reachable_witness :
  exists i, (slot demo_two.(switchCore) i).(si_iface) = Some 6001 /\
    NumberCompress_getDecompressed 0x15 (NumberCompress_bitsUsedForLabel 0x15) = i.
Proof.
  destruct (InterfaceController_reachable demo_two two_reachable) as (_ & _ & H & _).
  assert (exists p, demo_two.(peers) !! 6001 = Some p /\ p.(switchLabel) = 0x15) as (p & Hp & El) by (eexists; vm_compute; split; reflexivity).
  destruct (H 6001 p Hp ltac:(rewrite El; done)) as (i & _ & _ & Hs & _ & _ & Hd). rewrite El in Hd. exists i. split; [exact Hs|exact Hd].
Defined.

(** A packet of node 9 that comes to [ep], as its session decrypts it. *)
Definition decrypted (packet : Message) (ep : Iface) (d : controller) : option (Wrapper * Z * Message * CryptoAuth.ret) :=
  p ← d.(peers) !! ep;
  '(w, r, events, result) ← CryptoAuth.receiveMessage d.(ca) d.(seconds) packet p.(cryptoAuthIf) d.(rng);
  match events with [Deliver m] => Some (w, r, m, result) | _ => None end.

Lemma decrypted_eq packet ep d p w r m result : d.(peers) !! ep = Some p -> decrypted packet ep d = Some (w, r, m, result) ->
  CryptoAuth.receiveMessage d.(ca) d.(seconds) packet p.(cryptoAuthIf) d.(rng) = Some (w, r, [Deliver m], result).
Proof.
  intros Hp. unfold decrypted. rewrite Hp. cbn [mbind option_bind].
  destruct (CryptoAuth.receiveMessage _ _ _ _ _) as [[[[w' r'] events] result']|]; [|done]. cbn [mbind option_bind].
  destruct events as [|[] []]; try done. intros [= <- <- <- <-]; done.
Qed.

(** A computed fact about them. *)
Lemma decrypted_is {A} (f : Wrapper -> Message -> A) (v : A) {packet ep d w r m result} :
  decrypted packet ep d = Some (w, r, m, result) ->
  match decrypted packet ep d with Some (w, _, m, _) => Some (f w m) | None => None end = Some v -> f w m = v.
Proof. intros ->. by intros [= E]. Qed.

Definition hello_packet : Message := match demo_hello 9 0x15 demo_two with Some (m, _) => m | None => demo_packet 0 end.
Lemma InterfaceController_guards_replay_witness :
  runs (fromNeighbour hello_packet 6001) demo_two = true /\
  (after (fromNeighbour hello_packet 6001) demo_two).(outputs) = demo_two.(outputs).
Proof.
  assert (runs (fromNeighbour hello_packet 6001) demo_two = true) as Hr by (vm_compute; reflexivity). split; [exact Hr|].
  destruct (runs_after _ _ Hr) as [code E].
  destruct (demo_two.(peers) !! 6001) as [p|] eqn:Hp; [|vm_compute in Hp; discriminate].
  destruct (decrypted hello_packet 6001 demo_two) as [[[[w r] m] result]|] eqn:Hd; [|vm_compute in Hd; discriminate].
  assert (unestablished <$> (peer_state <$> demo_two.(peers) !! 6001) = Some true) as Hu by (vm_compute; reflexivity).
  pose proof (decrypted_is (fun w _ => snd (CryptoAuth_getState demo_two.(ca) demo_two.(seconds) w)) 2 Hd ltac:(vm_compute; reflexivity)) as Hs.
  pose proof (decrypted_is (fun _ m => read m.(buffer) m.(bytes) 8) [0; 0; 0; 0; 0; 0; 0; 0x15] Hd ltac:(vm_compute; reflexivity)) as Hb.
  pose proof (decrypted_is (fun _ m => @label_of x86 m mod 256) 0x15 Hd ltac:(vm_compute; reflexivity)) as Hl.
  rewrite Hp in Hu. injection Hu as Hu. cbv beta in Hs, Hb, Hl.
  assert (snd (CryptoAuth_getState demo_two.(ca) demo_two.(seconds) w) < CryptoAuth_HANDSHAKE3) as Hs' by (rewrite Hs; reflexivity).
  assert (bytes_ok (read m.(buffer) m.(bytes) 8)) as Hb' by (rewrite Hb; repeat constructor; done).
  pose proof (decrypted_eq _ _ _ _ _ _ _ _ Hp Hd) as Ed.
  destruct (InterfaceController_guards_replay demo_two 6001 p hello_packet w r m result code
    (after (fromNeighbour hello_packet 6001) demo_two) two_reachable Hp Hu Ed Hs' Hb' E) as [H|[H _]].
  - exact H.
  - rewrite Hl in H. discriminate.
Defined.

Definition first_packet : Message := match demo_hello 9 1 demo_two with Some (m, _) => m | None => demo_packet 0 end.
Definition second_packet : Message := match demo_return demo_controller with Some (m, _) => m | None => demo_packet 0 end.
Definition demo_before : controller := after (fromNeighbour first_packet 6001) demo_two.
Lemma before_reachable : neighbours_reachable demo_before.
Proof. apply then_receive; [exact two_reachable|vm_compute; reflexivity]. Qed.

Lemma state_is ep d p s label : d.(peers) !! ep = Some p -> state_of ep d = Some (s, label) -> p.(peer_state) = s /\ p.(switchLabel) = label.
Proof. intros Hp. unfold state_of. rewrite Hp. by intros [= -> ->]. Qed.

Lemma only_peers (l : list Iface) d ep p : List.map fst (map_to_list d.(peers)) = l -> d.(peers) !! ep = Some p -> ep ∈ l.
Proof. intros <- Hp. apply list_elem_of_fmap. exists (ep, p). split; [done|]. by apply elem_of_map_to_list. Qed.

Lemma InterfaceController_merges_witness : exists a b p' d',
  demo_before.(switchCore).(receiverContext) !! 6000 = Some a /\ demo_before.(switchCore).(receiverContext) !! 6001 = Some b /\
  d'.(peers) !! 6001 = Some p' /\ p'.(switchLabel) = 0x13 /\ (slot d'.(switchCore) a).(si_iface) = Some 6001 /\
  slot d'.(switchCore) b = vacant.
Proof.
  destruct (demo_before.(peers) !! 6001) as [p|] eqn:Hp; [|vm_compute in Hp; discriminate].
  destruct (demo_before.(peers) !! 6000) as [q|] eqn:Hq; [|vm_compute in Hq; discriminate].
  destruct (decrypted second_packet 6001 demo_before) as [[[[w r] m] result]|] eqn:Hd; [|vm_compute in Hd; discriminate].
  pose proof (state_is _ _ _ _ _ Hp ltac:(vm_compute; reflexivity)) as [Sp Lp]. pose proof (state_is _ _ _ _ _ Hq ltac:(vm_compute; reflexivity)) as [_ Lq].
  pose proof (decrypted_is (fun w _ => snd (CryptoAuth_getState demo_before.(ca) demo_before.(seconds) w)) 4 Hd ltac:(vm_compute; reflexivity)) as Hs.
  pose proof (decrypted_is (fun w _ => CryptoAuth_getHerPublicKey w) (repeat 9 32) Hd ltac:(vm_compute; reflexivity)) as Hk.
  assert (match demo_before.(peers) !! 6000 with Some q => CryptoAuth_getHerPublicKey q.(cryptoAuthIf) | None => [] end = repeat 9 32) as Hkq by (vm_compute; reflexivity).
  assert (List.map fst (map_to_list demo_before.(peers)) = [6001; 6000]) as Hl by (vm_compute; reflexivity).
  rewrite Hq in Hkq. cbv beta in Hs, Hk.
  assert (same_key q (set_cryptoAuthIf p w) = true) as Hsame by (unfold same_key; cbn [cryptoAuthIf set_cryptoAuthIf]; rewrite Hkq, Hk; reflexivity).
  destruct (InterfaceController_merges demo_before 6001 6000 p q second_packet w r m result before_reachable Hp Hq) as
    (a & b & p' & d' & Ha & Hb & _ & H1 & _ & H2 & _ & _ & _ & H3 & H4 & _).
  - discriminate.
  - rewrite Sp. reflexivity.
  - exact (decrypted_eq _ _ _ _ _ _ _ _ Hp Hd).
  - rewrite Hs. discriminate.
  - exact Hsame.
  - intros ep' q' He Hq' _. pose proof (only_peers _ _ _ _ Hl Hq') as Hin.
    apply list_elem_of_In in Hin. destruct Hin as [E|[E|[]]]; [by destruct (He (eq_sym E))|by symmetry].
  - rewrite Lp. discriminate.
  - rewrite Lq. discriminate.
  - exists a, b, p', d'. rewrite Lq in H2. split; [exact Ha|]. split; [exact Hb|]. split; [exact H1|]. split; [exact H2|]. split; [exact H3|exact H4].
Defined.

(** A packet of the router for the neighbour behind 5000, who is silent. *)
Definition demo_silent : controller := after (demo_later 18) demo_two.
Lemma silent_reachable : neighbours_reachable demo_silent.
Proof. eapply then_step; [exact two_reachable|apply step_time]. Qed.

Definition peer_is (d : controller) (ep : Iface) (Q : IFCPeer -> Prop) : Prop := match d.(peers) !! ep with Some p => Q p | None => False end.

Lemma peer_is_some d ep Q : peer_is d ep Q -> exists p, d.(peers) !! ep = Some p /\ Q p.
Proof. unfold peer_is. destruct (d.(peers) !! ep) as [p|]; [|done]. intros H. by exists p. Qed.

Definition sent_ok (o : option (Wrapper * Z * list event * ret)) : bool :=
  match o with Some (_, _, [SendWrapped _], FromCallee) => true | _ => false end.
Lemma sent_ok_eq o : sent_ok o = true -> exists w r m, o = Some (w, r, [SendWrapped m], FromCallee).
Proof. destruct o as [[[[w r] [|[m| |] []]] []]|]; try done. intros _. by exists w, r, m. Qed.

Lemma silent_facts : peer_is demo_silent 6000 (fun p => p.(external) = 5000 /\ silent demo_silent p /\
  sent_ok (CryptoAuth.sendMessage demo_silent.(ca) demo_silent.(seconds) (handed_on demo_silent 0 (demo_packet 0x13) 0x8000000000000001)
    p.(cryptoAuthIf) demo_silent.(rng)) = true).
Proof. vm_compute. split_and!; reflexivity. Qed.
Lemma silent_core : demo_silent.(switchCore).(receiverContext) !! (6000 : Iface) = Some 0 /\
  (slot demo_silent.(switchCore) 1).(si_iface) = Some 1000 /\ demo_silent.(peers) !! (1000 : Iface) = None /\
  (slot demo_silent.(switchCore) 1).(si_buffer) <= (slot demo_silent.(switchCore) 1).(si_bufferMax) /\
  is_error (demo_packet 0x13) = false /\ route demo_silent.(switchCore) 1 (label_of (demo_packet 0x13)) = Some (0, 0x8000000000000001).
Proof. vm_compute. split_and!; done. Qed.

Lemma InterfaceController_undeliverable_witness : exists d' m err,
  into_switch 1 (demo_packet 0x13) demo_silent = Some (Error_NONE, d') /\
  d'.(outputs) = demo_silent.(outputs) ++ [ToNeighbour 5000 m; ToOther 1000 err] /\ is_error err = true.
Proof.
  destruct (peer_is_some _ _ _ silent_facts) as (p & Hp & Hx & Hsilent & (w & r & m & E)%sent_ok_eq).
  assert (message_ok (demo_packet 0x13)) as Hm.
  { unfold message_ok, demo_packet. cbn. split_and!; try lia. apply of_list_ok. repeat constructor; done. }
  destruct silent_core as (Hslot & Hrouter & Hnone & Hbuffer & Herror & Hroute).
  destruct (InterfaceController_undeliverable demo_silent 6000 p 1000 (demo_packet 0x13) 0 0x8000000000000001 w r m silent_reachable Hp Hsilent
    Hslot Hrouter Hnone Hbuffer Hm) as (err & d' & H1 & H2 & _ & H3 & _).
  - intros x. change (0 <= 0 < 256). clear. lia.
  - discriminate.
  - split; [discriminate|reflexivity].
  - exact Herror.
  - exact Hroute.
  - exact E.
  - reflexivity.
  - exists d', m, err. rewrite Hx in H2. split; [exact H1|]. split; [exact H2|exact H3].
Defined.

(** A transient peer after four minutes of silence; and a pong for it, after it went. *)
Definition demo_transient : controller := after (registerPeer None None false true 5000 6000) demo_controller.
Definition demo_forgotten : controller := after (demo_later 253) demo_transient.
Lemma transient_reachable : neighbours_reachable demo_transient.
Proof. unfold demo_transient. apply then_register; [exact demo_reachable|vm_compute; reflexivity]. Qed.
Lemma forgotten_reachable : neighbours_reachable demo_forgotten.
Proof. eapply then_step; [exact transient_reachable|apply step_time]. Qed.

Lemma forgotten_facts : peer_is demo_forgotten 6000 (overdue demo_forgotten).
Proof. vm_compute. split_and!; reflexivity. Qed.

Definition demo_waiting : controller := after (demo_later 4) demo_transient.
Definition demo_pinging : controller := after pingCallback demo_waiting.
Definition demo_gone : controller := after (free_external 6000) demo_pinging.
Definition gone_pong : Message := match demo_pong 0 0x13 demo_pinging with Some (m, _) => m | None => demo_packet 0 end.
Lemma waiting_reachable : neighbours_reachable demo_waiting.
Proof. eapply then_step; [exact transient_reachable|apply step_time]. Qed.
Lemma waiting_runs : runs pingCallback demo_waiting = true.
Proof. vm_compute. reflexivity. Qed.
Lemma pinging_reachable : neighbours_reachable demo_pinging.
Proof. destruct (runs_after _ _ waiting_runs) as [[] E]. eapply then_step; [exact waiting_reachable|]. apply step_ping. exact E. Qed.

(** What the pinger makes of a pong. *)
Definition pong_taken (msg : Message) (d : controller) : option (SwitchPinger_Result * Z) :=
  match SwitchPinger.receiveMessage msg d.(milliseconds) d.(switchPinger) with
  | Some (_, _, Some r) => Some (r.(sr_result), r.(sr_callback))
  | _ => None
  end.
Lemma pong_taken_eq msg d {result callback} : pong_taken msg d = Some (result, callback) -> exists sp code r,
  SwitchPinger.receiveMessage msg d.(milliseconds) d.(switchPinger) = Some (sp, code, Some r) /\ r.(sr_result) = result /\ r.(sr_callback) = callback.
Proof.
  unfold pong_taken. destruct (SwitchPinger.receiveMessage _ _ _) as [[[sp code] [r|]]|]; [|done..]. intros [= <- <-]. by exists sp, code, r.
Qed.
Lemma gone_taken : pong_taken gone_pong demo_gone = Some (SwitchPinger_Result_OK, 6000).
Proof. vm_compute. reflexivity. Qed.
Lemma gone_runs : runs (free_external 6000) demo_pinging = true.
Proof. vm_compute. reflexivity. Qed.
Lemma pinging_peer : peer_is demo_pinging 6000 (fun _ => True).
Proof. vm_compute. exact I. Qed.

Lemma InterfaceController_uses_freed_peer_witness :
  pingCallback demo_forgotten = None /\ runs (free_external 6000) demo_pinging = true /\ incomingForPinger gone_pong demo_gone = None.
Proof.
  split; [|split; [exact gone_runs|]].
  - destruct (peer_is_some _ _ _ forgotten_facts) as (p & Hp & Ho).
    exact (proj1 (InterfaceController_uses_freed_peer demo_forgotten 6000 p forgotten_reachable Hp) Ho).
  - destruct (runs_after _ _ gone_runs) as [[] E].
    destruct (peer_is_some _ _ _ pinging_peer) as (p & Hp & _). destruct (pong_taken_eq _ _ gone_taken) as (sp & code & r & Er & Hr1 & Hr2).
    destruct (InterfaceController_uses_freed_peer demo_pinging 6000 p pinging_reachable Hp) as [_ H].
    destruct (H demo_gone E) as [_ Hpong]. exact (Hpong gone_pong sp code r Er Hr1 Hr2).
Defined.
