(* ===== verification/Admin.v ===== *)
(** * Remote control (admin/Admin.c, Admin.h)

    Programs on the same host send requests to the daemon: dictionaries that name
    a function and its arguments. Most functions are for those who know the
    password: they take a cookie (the time) and send the hash of the request
    with the hash of password and cookie in its place.

    A client is known by its Sockaddr: a list of bytes that starts with the length
    of all of it. What other components register is a number; what such a function
    sends while it runs is a class. The memory of a message lies around it; a
    search that leaves the message is not followed ([None], as are an abort and a
    NULL pointer). Admin_sendMessage with a NULL Admin does nothing and is left
    out. The types of arguments are compared by their contents: the code compares
    pointers to its four constants. *)
From stdpp Require Import gmap.
From S2P Require Import Prelude Memory Bits Hex Message NaCl Benc ArrayIO BencSerializer Map DHT.
Open Scope Z_scope.

Definition TYPE : String := chars "type".
Definition REQUIRED : String := chars "required".
Definition STRING : String := chars "String".
Definition INTEGER : String := chars "Int".
Definition DICT : String := chars "Dict".
Definition LIST : String := chars "List".
Definition TXID : String := chars "txid".
Definition Admin_TIMEOUT_MILLISECONDS : Z := 30000.
Definition Admin_MAX_REQUEST_SIZE : Z := 512.
Definition Admin_MAX_RESPONSE_SIZE : Z := 65536.
Definition SEND_MESSAGE_PADDING : Z := 32.
Definition ENTRIES_PER_PAGE : Z := 8.
Definition TOO_BIG : list Z := chars "d5:error16:Request too big.e".

(** ** Strings of C, and numbers in them *)
Fixpoint c_string (l : list Z) : list Z :=
  match l with [] => [] | c :: l => if c =? 0 then [] else c :: c_string l end.

Definition is_space (c : Z) : bool := (c =? 32) || ((9 <=? c) && (c <=? 13)).

Fixpoint leading_digits (l : list Z) : list Z :=
  match l with [] => [] | c :: l => if is_digit c then c :: leading_digits l else [] end.

(** strtoll in base 10. *)
Fixpoint strtoll (l : list Z) : Z :=
  match l with
  | [] => 0
  | c :: rest =>
      if is_space c then strtoll rest
      else Z.max INT64_MIN (Z.min INT64_MAX
        (if c =? 45 then - number_of (leading_digits rest)
         else if c =? 43 then number_of (leading_digits rest)
         else number_of (leading_digits l)))
  end.

(** [%u]. *)
Definition print_uint32 (n : Z) : list Z := decimal 10 n.

(** Where [needle] first stands in the string at [a]; [fuel] bytes are looked at. *)
Fixpoint strstr (fuel : nat) (m : mem) (a : Z) (needle : list Z) : option (option Z) :=
  match fuel with
  | O => None
  | S fuel =>
      if bool_decide (read m a (Z.of_nat (List.length needle)) = needle) then Some (Some a)
      else if m a =? 0 then Some None
      else strstr fuel m (a + 1) needle
  end.

(** The 64 digits that [Hex_encode] writes for a hash. *)
Definition hex_digest (hash : list Z) : list Z := read (fst (Hex_encode (fun _ => 0) 64 (of_list hash) 32)) 0 64.

(** What the password and the cookie are hashed as. *)
Definition passAndCookie (password : String) (cookie : Z) : list Z := take 63 (c_string password ++ print_uint32 cookie).

(** ** State *)
Inductive Callback :=
| Admin_asyncEnabled
| Admin_availableFunctions
| Registered (context : Z).

Record Function := {
  fu_name : String;
  fu_call : Callback;
  needsAuth : bool;
  fu_args : Dict
}.

Record Admin_FunctionArg := {
  arg_name : String;
  arg_type : String;
  arg_required : bool
}.

(** The keys of the map of clients. *)
Definition Sockaddr : Type := list Z.
Definition Sockaddr_addrLen `{Platform} (addr : Sockaddr) : Z := s64 (load 8 (of_list addr) 0).
Definition sockaddr_key `{Platform} : MapKey Sockaddr := {|
  Map_hash := fun k => load 4 (of_list k) (4 * (Sockaddr_addrLen k / 4 - 1));
  Map_compare := fun a b => Bits_memcmp (read (of_list a) 0 (Sockaddr_addrLen a)) (read (of_list b) 0 (Sockaddr_addrLen a))
|}.

(** A message to the interface; a call of a registered function. *)
Inductive AdminOutput :=
| AdminSend (message : Message)
| AdminCall (context : Z) (args : option Dict) (txid : String).

(** What the interface returns; the answers that a registered function gives while
    it runs; what lies on the stack. *)
Class AdminUsers : Type := {
  admin_code : Message -> Z;
  answers : Z -> option Dict -> String -> list (Dict * String);
  response_stack : mem
}.

Record Admin := {
  functions : list Function;
  admin_password : option String;
  admin_map : Map Sockaddr Z;
  inRequest : Z;
  asyncEnabled : Z;
  addrLen : Z;
  admin_seconds : Z;
  admin_milliseconds : Z;
  admin_outputs : list AdminOutput
}.

Section admin.
  Context {P : Platform} {N : NaCl} {U : AdminUsers}.
  #[local] Existing Instance sockaddr_key.
#[local] Instance time_inhabited : Inhabited Z := populate 0.

Abbreviation act := (M Admin).

Definition set_map (m : Map Sockaddr Z) (a : Admin) : Admin :=
  {| functions := a.(functions); admin_password := a.(admin_password); admin_map := m; inRequest := a.(inRequest);
     asyncEnabled := a.(asyncEnabled); addrLen := a.(addrLen); admin_seconds := a.(admin_seconds);
     admin_milliseconds := a.(admin_milliseconds); admin_outputs := a.(admin_outputs) |}.
Definition set_inRequest (x : Z) (a : Admin) : Admin :=
  {| functions := a.(functions); admin_password := a.(admin_password); admin_map := a.(admin_map); inRequest := x;
     asyncEnabled := a.(asyncEnabled); addrLen := a.(addrLen); admin_seconds := a.(admin_seconds);
     admin_milliseconds := a.(admin_milliseconds); admin_outputs := a.(admin_outputs) |}.
Definition set_asyncEnabled (x : Z) (a : Admin) : Admin :=
  {| functions := a.(functions); admin_password := a.(admin_password); admin_map := a.(admin_map); inRequest := a.(inRequest);
     asyncEnabled := x; addrLen := a.(addrLen); admin_seconds := a.(admin_seconds);
     admin_milliseconds := a.(admin_milliseconds); admin_outputs := a.(admin_outputs) |}.
Definition add_function (f : Function) (a : Admin) : Admin :=
  {| functions := a.(functions) ++ [f]; admin_password := a.(admin_password); admin_map := a.(admin_map);
     inRequest := a.(inRequest); asyncEnabled := a.(asyncEnabled); addrLen := a.(addrLen); admin_seconds := a.(admin_seconds);
     admin_milliseconds := a.(admin_milliseconds); admin_outputs := a.(admin_outputs) |}.
Definition admin_at (seconds milliseconds : Z) (a : Admin) : Admin :=
  {| functions := a.(functions); admin_password := a.(admin_password); admin_map := a.(admin_map); inRequest := a.(inRequest);
     asyncEnabled := a.(asyncEnabled); addrLen := a.(addrLen); admin_seconds := seconds; admin_milliseconds := milliseconds;
     admin_outputs := a.(admin_outputs) |}.
Definition add_output (o : AdminOutput) (a : Admin) : Admin :=
  {| functions := a.(functions); admin_password := a.(admin_password); admin_map := a.(admin_map); inRequest := a.(inRequest);
     asyncEnabled := a.(asyncEnabled); addrLen := a.(addrLen); admin_seconds := a.(admin_seconds);
     admin_milliseconds := a.(admin_milliseconds); admin_outputs := a.(admin_outputs) ++ [o] |}.

(** ** Sending *)
Definition Admin_send (message : Message) (dest : Sockaddr) : act Z :=
  message ← lift (Message_push message (read (of_list dest) 0 (Sockaddr_addrLen dest)));
  _ ← modify (add_output (AdminSend message)); mret (admin_code message).

(** The length of what is sent is where the writer stopped, also when not all fits. *)
Definition sendBenc (message : Dict) (dest : Sockaddr) : act Z :=
  let '(_, w) := serializeDictionary (ArrayWriter_new response_stack SEND_MESSAGE_PADDING Admin_MAX_RESPONSE_SIZE) message in
  Admin_send {| length := s32 (u32 (writer_bytesWritten w)); padding := SEND_MESSAGE_PADDING; bytes := SEND_MESSAGE_PADDING;
                buffer := w.(w_memory) |} dest.

(** ** Clients *)
Definition checkAddress (index now : Z) : act Z :=
  a ← gets id;
  let diff := u64 (now - a.(admin_map).(values) index) in
  if (Admin_TIMEOUT_MILLISECONDS <? diff) && (diff <? INT64_MAX) then
    _ ← modify (set_map (fst (Map_remove index a.(admin_map)))); mret (-1)
  else mret 0.

(** [n] rows are left to look at; the next is [n - 1]. *)
Fixpoint clearExpiredAddresses_loop (n : nat) (now : Z) : act unit :=
  match n with
  | O => mret tt
  | S n => _ ← checkAddress (Z.of_nat n) now; clearExpiredAddresses_loop n now
  end.

Definition clearExpiredAddresses : act unit :=
  a ← gets id; clearExpiredAddresses_loop (Z.to_nat a.(admin_map).(count)) a.(admin_milliseconds).

Definition Admin_sendMessage (message : Dict) (txid : String) : act Z :=
  a ← gets id;
  if Z.of_nat (List.length txid) <? a.(addrLen) then abort
  else
    let addr := take (Z.to_nat a.(addrLen)) txid in
    gone ← (if a.(inRequest) =? 0 then
              let index := Map_indexForKey addr a.(admin_map) in
              if index <? 0 then mret true else r ← checkAddress index a.(admin_milliseconds); mret (negb (r =? 0))
            else mret false);
    if (gone : bool) then mret (-1)
    else
      let userTxid := drop (Z.to_nat a.(addrLen)) txid in
      let message := if a.(addrLen) <? Z.of_nat (List.length txid) then fst (Dict_putString message (Some TXID) (Some userTxid)) else message in
      sendBenc message addr.

(** ** Passwords *)

(** Whether the request is valid, and its message afterwards: the hash of the
    message has been written into it. *)
Definition authValid (message : Dict) (messageBytes : Message) : act (bool * Message) :=
  a ← gets id;
  let cookie := match Dict_getString (Some message) (Some (chars "cookie")) with Some s => u32 (strtoll s) | None => 0 end in
  let cookie := if cookie =? 0 then match Dict_getInt (Some message) (Some (chars "cookie")) with Some i => u32 i | None => 0 end
                else cookie in
  let nowSecs := a.(admin_seconds) in
  let submitted := Dict_getString (Some message) (Some (chars "hash")) in
  match submitted with
  | None => mret (false, messageBytes)
  | Some submittedHash =>
      if (nowSecs <? cookie) || (cookie <? u64 (nowSecs - 20)) || negb (Z.of_nat (List.length submittedHash) =? 64)
      then mret (false, messageBytes)
      else
        hashPtr ← lift (strstr (Z.to_nat messageBytes.(length)) messageBytes.(buffer) messageBytes.(bytes) (c_string submittedHash));
        match hashPtr, a.(admin_password) with
        | Some hashPtr, Some password =>
            let hash := crypto_hash_sha256 (passAndCookie password cookie) in
            let m := write messageBytes.(buffer) hashPtr (hex_digest hash) in
            let hash := crypto_hash_sha256 (read m messageBytes.(bytes) messageBytes.(length)) in
            let m := write m hashPtr (hex_digest hash) in
            mret (Bits_memcmp (read m hashPtr 64) submittedHash =? 0, with_buffer messageBytes m)
        | _, _ => mret (false, messageBytes)
        end
  end.

(** ** Functions *)

(** The type of the first argument that is missing, with its name. *)
Fixpoint checkArgs_loop (entry : Dict) (args : option Dict) : option (option (String * String)) :=
  match entry with
  | [] => Some None
  | (key, val) :: entry =>
      match val with
      | Object_DICT value =>
          required ← Dict_getInt (Some value) (Some REQUIRED);
          if required =? 0 then checkArgs_loop entry args
          else
            let type := Dict_getString (Some value) (Some TYPE) in
            let wants t := bool_decide (type = Some t) in
            let missing :=
              (wants STRING && bool_decide (Dict_getString args (Some key) = None))
              || (wants DICT && bool_decide (Dict_getDict args (Some key) = None))
              || (wants INTEGER && bool_decide (Dict_getInt args (Some key) = None))
              || (wants LIST && bool_decide (Dict_getList args (Some key) = None)) in
            match type with
            | Some type => if missing then Some (Some (key, type)) else checkArgs_loop entry args
            | None => checkArgs_loop entry args
            end
      | _ => None
      end
  end.

Definition checkArgs (args : option Dict) (func : Function) (txid : String) : act bool :=
  missing ← lift (checkArgs_loop func.(fu_args) args);
  match missing with
  | None => mret true
  | Some (key, type) =>
      let error := chars "Entry [" ++ c_string key ++ chars "] is required and must be of type [" ++ c_string type ++ chars "]" in
      _ ← Admin_sendMessage [(chars "error", Object_STRING error)] txid; mret false
  end.

Definition asyncEnabled_call (txid : String) : act unit :=
  a ← gets id; _ ← Admin_sendMessage [(chars "asyncEnabled", Object_INTEGER a.(asyncEnabled))] txid; mret tt.

(** At most a page of functions, into [functions]; and how many rounds were begun. *)
Fixpoint page_loop (n : nat) (fs : list Function) (functions : Dict) : Dict * Z :=
  match fs with
  | [] => (functions, 0)
  | f :: fs =>
      match n with
      | O => (functions, 1)
      | S n => let '(d, count) := page_loop n fs (fst (Dict_putDict functions (Some f.(fu_name)) (Some f.(fu_args)))) in (d, count + 1)
      end
  end.

Definition availableFunctions (args : option Dict) (txid : String) : act unit :=
  a ← gets id;
  let i := match Dict_getInt args (Some (chars "page")) with Some page => u32 (page * ENTRIES_PER_PAGE) | None => 0 end in
  let '(fs, count) := page_loop (Z.to_nat ENTRIES_PER_PAGE) (drop (Z.to_nat i) a.(functions)) Dict_new in
  let d := if ENTRIES_PER_PAGE <=? count then fst (Dict_putInt Dict_new (chars "more") 1) else Dict_new in
  let d := fst (Dict_putDict d (Some (chars "availableFunctions")) (Some fs)) in
  _ ← Admin_sendMessage d txid; mret tt.

(** A registered function runs and answers. *)
Fixpoint answer_all (l : list (Dict * String)) : act unit :=
  match l with
  | [] => mret tt
  | (d, txid) :: l => _ ← Admin_sendMessage d txid; answer_all l
  end.

Definition call_function (f : Function) (args : option Dict) (txid : String) : act unit :=
  match f.(fu_call) with
  | Admin_asyncEnabled => asyncEnabled_call txid
  | Admin_availableFunctions => availableFunctions args txid
  | Registered context => _ ← modify (add_output (AdminCall context args txid)); answer_all (answers context args txid)
  end.

(** Whether a function was found. *)
Fixpoint functions_loop (fs : list Function) (query : option String) (authed : bool) (args : option Dict) (txid : String) : act bool :=
  match fs with
  | [] => mret false
  | f :: fs =>
      if String_equals query (Some f.(fu_name)) && (authed || negb f.(needsAuth)) then
        ok ← checkArgs args f txid;
        _ ← (if (ok : bool) then call_function f args txid else mret tt);
        _ ← functions_loop fs query authed args txid; mret true
      else functions_loop fs query authed args txid
  end.

(** ** Requests *)
Definition handleRequest (messageDict : Dict) (message : Message) (src : Sockaddr) : act unit :=
  match Dict_getString (Some messageDict) (Some (chars "q")) with
  | None => mret tt
  | Some query =>
      let userTxid := Dict_getString (Some messageDict) (Some TXID) in
      let txid := read (of_list src) 0 (Sockaddr_addrLen src) ++ default [] userTxid in
      a ← gets id;
      if String_equals (Some query) (Some (chars "cookie")) then
        let theCookie := print_uint32 (u32 a.(admin_seconds)) in
        _ ← Admin_sendMessage (fst (Dict_putString Dict_new (Some (chars "cookie")) (Some theCookie))) txid; mret tt
      else
        let auth := String_equals (Some query) (Some (chars "auth")) in
        valid ← (if auth then '(valid, _) ← authValid messageDict message; mret valid else mret true);
        if negb (valid : bool) then
          _ ← Admin_sendMessage (fst (Dict_putString Dict_new (Some (chars "error")) (Some (chars "Auth failed.")))) txid; mret tt
        else
          let query := if auth then Dict_getString (Some messageDict) (Some (chars "aq")) else Some query in
          let index := Map_indexForKey src a.(admin_map) in
          let now := a.(admin_milliseconds) in
          _ ← (if 0 <=? index then
                 _ ← modify (set_map (set_value a.(admin_map) index now)); modify (set_asyncEnabled 1)
               else if auth then
                 _ ← modify (set_map (fst (Map_put src now a.(admin_map)))); modify (set_asyncEnabled 1)
               else modify (set_asyncEnabled 0));
          let args := Dict_getDict (Some messageDict) (Some (chars "args")) in
          called ← functions_loop a.(functions) query auth args txid;
          if (called : bool) then mret tt
          else
            let error := chars "No functions matched your request, try Admin_availableFunctions()" in
            _ ← Admin_sendMessage [(chars "error", Object_STRING error)] txid; mret tt
  end.

(** The parser is given as much fuel as there are bytes, and a child of the
    allocator of the daemon, which ends the process when it has not got a block. *)
Definition handleMessage (process : Process) (message : Message) (src : Sockaddr) : act unit :=
  if Admin_MAX_REQUEST_SIZE <? message.(length) then
    _ ← Admin_send (with_length (with_buffer message (write message.(buffer) message.(bytes) TOO_BIG))
                      (Z.of_nat (List.length TOO_BIG))) src;
    mret tt
  else
    '(result, reader) ← lift (parseDictionary process (Z.to_nat message.(length))
                                (ArrayReader_new message.(buffer) message.(bytes) message.(length)));
    match result with
    | inl code => if code =? OUT_OF_MEMORY then abort else mret tt
    | inr messageDict =>
        if s32 (u32 (reader_bytesRead reader)) <? message.(length) then mret tt else handleRequest messageDict message src
    end.

Definition receiveMessage (process : Process) (message : Message) : act Z :=
  a ← gets id;
  if message.(length) <? s32 a.(addrLen) then abort
  else
    '(src, message) ← lift (Message_pop message a.(addrLen));
    _ ← modify (set_inRequest 1);
    _ ← handleMessage process message src;
    _ ← modify (set_inRequest 0);
    mret 0.

(** ** Registering *)
Fixpoint register_args (arguments : list Admin_FunctionArg) (args : Dict) : option Dict :=
  match arguments with
  | [] => Some args
  | x :: arguments =>
      type ← (if bool_decide (x.(arg_type) = STRING) then Some STRING
              else if bool_decide (x.(arg_type) = INTEGER) then Some INTEGER
              else if bool_decide (x.(arg_type) = DICT) then Some DICT
              else if bool_decide (x.(arg_type) = LIST) then Some LIST
              else None);
      let arg := fst (Dict_putString Dict_new (Some TYPE) (Some type)) in
      let arg := fst (Dict_putInt arg REQUIRED (if x.(arg_required) then 1 else 0)) in
      register_args arguments (fst (Dict_putDict args (Some x.(arg_name)) (Some arg)))
  end.

Definition Admin_registerFunctionWithArgCount (name : String) (callback : Callback) (needsAuth : bool)
    (arguments : list Admin_FunctionArg) : act unit :=
  args ← lift (register_args arguments Dict_new);
  modify (add_function {| fu_name := name; fu_call := callback; needsAuth := needsAuth; fu_args := args |}).

Definition Admin_new (ifaceAddrLen : Z) (password : option String) (seconds milliseconds : Z) : option Admin :=
  let admin := {| functions := []; admin_password := password; admin_map := Map_new; inRequest := 0; asyncEnabled := 0;
                  addrLen := ifaceAddrLen; admin_seconds := seconds; admin_milliseconds := milliseconds; admin_outputs := [] |} in
  '(_, admin) ← (_ ← Admin_registerFunctionWithArgCount (chars "Admin_asyncEnabled") Admin_asyncEnabled false [];
                 Admin_registerFunctionWithArgCount (chars "Admin_availableFunctions") Admin_availableFunctions false
                   [{| arg_name := chars "page"; arg_type := INTEGER; arg_required := false |}]) admin;
  Some admin.
End admin.
