(* ===== verification/AdminClient.v ===== *)
(** * The client of the remote control (admin/AdminClient.c, AdminClient.h)

    A call asks the server for a cookie, then sends the request with a hash of it
    that only someone with the password can make. The client waits for each answer
    in the event loop: what goes on meanwhile is the argument [exchange], which
    takes the message that is sent and gives the messages that come in before the
    time is up, with a state of its own. The buffer of the result is the memory
    from 0 on, its padding lies before it. *)
From S2P Require Import Prelude Memory Bits Hex Message NaCl Benc ArrayIO BencSerializer DHT Admin.
Open Scope Z_scope.

Definition AdminClient_MAX_MESSAGE_SIZE : Z := 1023.
Definition AdminClient_Result_PADDING_SIZE : Z := 136.

Inductive AdminClient_Error :=
| AdminClient_Error_NONE
| AdminClient_Error_OVERLONG_RESPONSE
| AdminClient_Error_ERROR_READING_FROM_SOCKET
| AdminClient_Error_SOCKET_NOT_READY
| AdminClient_Error_DESERIALIZATION_FAILED
| AdminClient_Error_SERIALIZATION_FAILED
| AdminClient_Error_TIMEOUT
| AdminClient_Error_NO_COOKIE.

Record AdminClient_Result := {
  err : AdminClient_Error;
  messageBytes : mem;
  responseDict : option Dict
}.

Record AdminClient := {
  targetAddr : Sockaddr;
  client_password : String
}.

Definition set_err (e : AdminClient_Error) (res : AdminClient_Result) : AdminClient_Result :=
  {| err := e; messageBytes := res.(messageBytes); responseDict := res.(responseDict) |}.
Definition set_messageBytes (m : mem) (res : AdminClient_Result) : AdminClient_Result :=
  {| err := res.(err); messageBytes := m; responseDict := res.(responseDict) |}.

Section client.
  Context {P : Platform} {N : NaCl}.

(** Serialized into a buffer of its own. *)
Definition serialize_request (message : Dict) (m : mem) : Z * ArrayWriter :=
  serializeDictionary (ArrayWriter_new m 0 AdminClient_MAX_MESSAGE_SIZE) message.

(** The dictionary afterwards, in which the string of the hash was overwritten,
    and the code. [stack] is what the buffer holds before. *)
Definition calculateAuth (stack : mem) (message : Dict) (password : String) (cookieStr : option String) : Dict * Z :=
  let cookie := match cookieStr with Some s => u32 (strtoll s) | None => 0 end in
  let hash := crypto_hash_sha256 (passAndCookie password cookie) in
  let put hash message := fst (Dict_putString message (Some (chars "hash")) (Some (hex_digest hash))) in
  let message := put hash message in
  let message := fst (Dict_putString message (Some (chars "cookie")) cookieStr) in
  let '(ret, writer) := serialize_request message stack in
  if negb (ret =? 0) then (message, -1)
  else (put (crypto_hash_sha256 (read writer.(w_memory) 0 (s32 (u32 (writer_bytesWritten writer))))) message, 0).

(** A message comes in; [None]: it is not for this call. *)
Definition AdminClient_receiveMessage (process : Process) (ctx : AdminClient) (msg : Message) (res : AdminClient_Result)
    : option (option AdminClient_Result) :=
  let n := Sockaddr_addrLen ctx.(targetAddr) in
  '(source, msg) ← Message_pop msg n;
  if negb (Bits_memcmp source (read (of_list ctx.(targetAddr)) 0 n) =? 0) then Some None
  else
    '(result, _) ← parseDictionary process (Z.to_nat msg.(length)) (ArrayReader_new msg.(buffer) msg.(bytes) msg.(length));
    match result with
    | inl code =>
        if code =? OUT_OF_MEMORY then None
        else Some (Some (set_err AdminClient_Error_DESERIALIZATION_FAILED res))
    | inr d =>
        let len := if AdminClient_MAX_MESSAGE_SIZE <? msg.(length) then AdminClient_MAX_MESSAGE_SIZE else msg.(length) in
        let m := write res.(messageBytes) 0 (repeat 0 (Z.to_nat AdminClient_MAX_MESSAGE_SIZE)) in
        let m := write m 0 (read msg.(buffer) msg.(bytes) len) in
        Some (Some {| err := AdminClient_Error_NONE; messageBytes := m; responseDict := Some d |})
    end.

(** The event loop runs until a message ends it, or the time is up. *)
Fixpoint beginLoop (process : Process) (ctx : AdminClient) (incoming : list Message) (res : AdminClient_Result)
    : option AdminClient_Result :=
  match incoming with
  | [] => Some (set_err AdminClient_Error_TIMEOUT res)
  | msg :: incoming =>
      done ← AdminClient_receiveMessage process ctx msg res;
      match done with Some res => Some res | None => beginLoop process ctx incoming res end
  end.

Section call.
  Context {W : Type}.
  Variables (process : Process) (stack : mem) (exchange : Message -> M W (list Message)) (ctx : AdminClient).

(** What the two calls of doCall have in common: the request that was serialized
    is sent, and the answer waited for. *)
Definition sendRequest (writer : ArrayWriter) (res : AdminClient_Result) : M W AdminClient_Result :=
  let m := {| length := s32 (u32 (writer_bytesWritten writer)); padding := AdminClient_Result_PADDING_SIZE; bytes := 0;
              buffer := writer.(w_memory) |} in
  m ← lift (Message_push m (read (of_list ctx.(targetAddr)) 0 (Sockaddr_addrLen ctx.(targetAddr))));
  incoming ← exchange m;
  lift (beginLoop process ctx incoming (set_messageBytes m.(buffer) res)).

Definition getCookie (res : AdminClient_Result) : M W AdminClient_Result :=
  let '(ret, writer) := serialize_request [(chars "q", Object_STRING (chars "cookie"))] res.(messageBytes) in
  if negb (ret =? 0) then mret (set_err AdminClient_Error_SERIALIZATION_FAILED (set_messageBytes writer.(w_memory) res))
  else sendRequest writer res.

Definition doCall (message : Dict) (res : AdminClient_Result) : M W AdminClient_Result :=
  res ← getCookie res;
  match res.(err) with
  | AdminClient_Error_NONE =>
      let cookie := Dict_getString res.(responseDict) (Some (chars "cookie")) in
      let res := match cookie with Some _ => res | None => set_err AdminClient_Error_NO_COOKIE res end in
      let '(ret, writer) := serialize_request message res.(messageBytes) in
      if negb (ret =? 0) then mret (set_err AdminClient_Error_SERIALIZATION_FAILED (set_messageBytes writer.(w_memory) res))
      else
        let '(message, _) := calculateAuth stack message ctx.(client_password) cookie in
        let '(ret, writer) := serialize_request message writer.(w_memory) in
        if negb (ret =? 0) then mret (set_err AdminClient_Error_SERIALIZATION_FAILED (set_messageBytes writer.(w_memory) res))
        else sendRequest writer res
  | _ => mret res
  end.

(** The memory of the result is zero. *)
Definition AdminClient_rpcCall (function : String) (args : option Dict) : M W AdminClient_Result :=
  doCall [(chars "q", Object_STRING (chars "auth")); (chars "aq", Object_STRING function);
          (chars "args", Object_DICT (default [] args))]
    {| err := AdminClient_Error_NONE; messageBytes := fun _ => 0; responseDict := None |}.
End call.
End client.

Definition AdminClient_errorString (e : AdminClient_Error) : String :=
  match e with
  | AdminClient_Error_NONE => chars "Success"
  | AdminClient_Error_OVERLONG_RESPONSE => chars "Overlong resonse message"
  | AdminClient_Error_ERROR_READING_FROM_SOCKET => chars "Error reading from socket, check errno."
  | AdminClient_Error_SOCKET_NOT_READY => chars "Socket not ready for reading"
  | AdminClient_Error_DESERIALIZATION_FAILED => chars "Failed to deserialize response"
  | AdminClient_Error_SERIALIZATION_FAILED => chars "Failed to serialize request"
  | AdminClient_Error_TIMEOUT => chars "Timed out waiting for a response"
  | AdminClient_Error_NO_COOKIE => chars "Cookie request returned with no cookie"
  end.
