(* ===== verification/AdminBehaviour.v ===== *)
(** * What the remote control does with requests (admin/Admin.c)

    A function that needs the password runs only for a request with the right
    hash; the search for the hash and what is written over it stay inside the
    message; what is answered. *)
From stdpp Require Import gmap.
From S2P Require Import Prelude Memory Bits Hex Message NaCl Benc ArrayIO BencSerializer Map DHT Admin.
Open Scope Z_scope.

(** ** Strings that were parsed from a buffer *)
Section parsed.
  Context (m : mem) (a e : Z) (Ha : 0 <= a) (He : e < 2 ^ 64 - 2).
#[local] Instance laws : ReaderLaws ArrayReader := ArrayReader_laws_within m a e Ha He.

(** [s] stands in the buffer. *)
Definition slice (s : list Z) : Prop := exists i, a <= i /\ i + Z.of_nat (List.length s) <= e /\ read m i (Z.of_nat (List.length s)) = s.

(** What [p] parses from a reader with at most [b] bytes left. *)
Definition results {A} (b : nat) (p : Parser ArrayReader A) (Q : A -> Prop) : Prop :=
  forall r x r', valid r -> (budget r <= b)%nat -> p r = Some (inr x, r') -> Q x.

(** A parser that returns keeps to the buffer. *)
Lemma total_valid {A} b (p : Parser ArrayReader A) k r x r' :
  total b p k -> valid r -> (budget r <= b)%nat -> p r = Some (inr x, r') -> valid r' /\ (budget r' + k <= budget r)%nat.
Proof. intros Ht Hr Hb E. destruct (Ht r Hr Hb) as (res & r1 & E1 & Hr1 & H). rewrite E in E1. injection E1 as <- <-. done. Qed.

Lemma results_string process b : results b (parseString process) slice.
Proof.
  intros r s r' Hr Hb. unfold parseString, bind.
  destruct (length_loop NUMBER_MAXLENGTH [] r) as [[[c|ds] r1]|] eqn:E1; [done| |done].
  destruct (total_valid b _ _ _ _ _ (total_length_loop b _ _) Hr Hb E1) as [Hr1 _].
  pose proof (length_loop_digits _ [] _ _ _ ltac:(constructor) E1) as Hd. pose proof (number_of_nonneg ds Hd).
  assert (0 <= strtoul ds < 2 ^ 64) as Hs by (unfold strtoul, UINT64_MAX; lia). set (n := strtoul ds) in *. clearbody n.
  cbv zeta. destruct (_ <? u64 _); [done|].
  unfold read_or. cbn [reader_read ArrayReader_reader]. destruct Hr1 as [Hok [H1 H2 H3 H4]]. rewrite ArrayReader_read_spec by done.
  destruct (Z.ltb_spec (reader_left r1) n); [done|]. destruct (Z.eqb_spec n 0) as [->|].
  { cbn [negb Z.eqb]. intros [= <- _]. exists a. cbn [Z.to_nat take List.length]. rewrite read_0 by lia.
    destruct Hok. unfold reader_left in *. split; [lia|]. split; [lia|done]. }
  cbn [negb Z.eqb]. intros [= <- _]. rewrite take_ge by (rewrite length_read; done). exists r1.(r_pointer).
  rewrite length_read, H1, Z2Nat.id by lia. unfold reader_left in *. split; [lia|]. split; [lia|done].
Qed.

Definition string_slice (o : Object) : Prop := match o with Object_STRING s => slice s | _ => True end.

Lemma results_generic b process fuel : results b (parseGeneric process fuel) string_slice.
Proof.
  intros r o r' Hr Hb. destruct fuel as [|fuel]; [done|]. cbn [parseGeneric]. unfold bind at 1.
  destruct (read_or _ 0 r) as [[[c|l] r1]|] eqn:E1; [done| |done].
  destruct (total_valid b _ _ _ _ _ (total_read b 0 ltac:(lia)) Hr Hb E1) as [Hr1 Hb1].
  cbv zeta. destruct (_ && _).
  { unfold bind. destruct (parseString process r1) as [[[c|s] r2]|] eqn:E2; [done| |done]. intros [= <- _].
    apply (results_string process b r1 s r2 Hr1); [lia|done]. }
  destruct (_ =? 105); [unfold bind; destruct (parseint64_t _ _) as [[[]]|]; by try intros [= <- _]|].
  destruct (_ =? 108); [unfold bind; destruct (parseList_with _ _ _) as [[[]]|]; by try intros [= <- _]|].
  destruct (_ =? 100); [unfold bind; destruct (parseDictionary_with _ _ _ _) as [[[]]|]; by try intros [= <- _]|done].
Qed.

Definition entry_slices (d : Dict) : Prop := Forall (fun e => string_slice e.2) d.

Lemma results_dict_loop process b generic fuel acc :
  total b generic 1 -> results b generic string_slice -> entry_slices acc -> results b (dict_loop process generic fuel acc) entry_slices.
Proof.
  intros Ht Hg. revert acc. induction fuel as [|fuel IH]; intros acc Hacc r d r' Hr Hb; cbn [dict_loop]; unfold bind at 1;
    (destruct (read_or_neg _ 0 r) as [[[c|l] r1]|] eqn:E1; [done| |done]);
    destruct (total_valid b _ _ _ _ _ (total_read_neg b 0 ltac:(lia)) Hr Hb E1) as [Hr1 Hb1];
    (destruct (_ =? 101); [by intros [= <- _]|]); unfold bind;
    (destruct (parseString process r1) as [[[c|key] r2]|] eqn:E2; [done| |done]);
    destruct (total_valid b _ _ _ _ _ (total_string process b) Hr1 ltac:(lia) E2) as [Hr2 Hb2];
    (destruct (generic r2) as [[[c|o] r3]|] eqn:E3; [done| |done]); [done|].
  destruct (total_valid b _ _ _ _ _ Ht Hr2 ltac:(lia) E3) as [Hr3 Hb3].
  apply IH; [|done|lia]. constructor; [|done]. by apply (Hg r2 o r3 Hr2 ltac:(lia)).
Qed.

Lemma results_dictionary b process fuel : (b <= fuel)%nat -> results b (parseDictionary process fuel) entry_slices.
Proof.
  intros Hf r d r' Hr Hb. unfold parseDictionary, parseDictionary_with. unfold bind at 1.
  destruct (read_or_neg _ 1 r) as [[[c|l] r1]|] eqn:E1; [done| |done].
  destruct (total_valid b _ _ _ _ _ (total_read_neg b 1 ltac:(lia)) Hr Hb E1) as [Hr1 Hb1].
  destruct (negb _); [done|]. apply (results_dict_loop process (b - 1)); [|apply results_generic|constructor|done|change (Z.to_nat 1) with 1%nat in Hb1; lia].
  apply parse_total. change (Z.to_nat 1) with 1%nat in Hb1. lia.
Qed.

(** *** When the allocator is to blame *)
Context (process : Process).

(** A string in the buffer whose length, as it is written there, is more than
    the allocator has. *)
Definition oversized : Prop := exists i j, a <= i <= j /\ j < e /\ Forall (fun c => is_digit c = true) (read m i (j - i)) /\ m j = 58 /\
  process.(largest_block) < u64 (strtoul (read m i (j - i)) + 1).

(** [p] is stopped by the allocator only for such a string. *)
Definition blames {A} (b : nat) (p : Parser ArrayReader A) : Prop :=
  forall r r', valid r -> (budget r <= b)%nat -> p r = Some (inl OUT_OF_MEMORY, r') -> oversized.

Lemma blames_bind {A B} b k (p : Parser ArrayReader A) (f : A -> Parser ArrayReader B) :
  total b p k -> blames b p -> ((k <= b)%nat -> forall x, blames (b - k) (f x)) -> blames b (bind p f).
Proof.
  intros Ht Hp Hf r r' Hr Hb. unfold bind. destruct (p r) as [[[c|x] r1]|] eqn:E; [|intros E'|done].
  - intros [= -> ->]. by apply (Hp r r').
  - destruct (total_valid b p k r x r1 Ht Hr Hb E) as [Hr1 Hb1]. apply (Hf ltac:(lia) x r1 r' Hr1); [lia|exact E'].
Qed.

Lemma blames_ret {A} b (x : A) : blames b (ret x).
Proof. by intros r r' _ _. Qed.
Lemma blames_fail {A} b : blames b (@fail ArrayReader A UNPARSABLE).
Proof. by intros r r' _ _. Qed.
Lemma blames_read b n : blames b (read_or OUT_OF_CONTENT_TO_READ n).
Proof. intros r r' _ _. unfold read_or. destruct (reader_read r n) as [[c l] r1]. by destruct (negb _). Qed.
Lemma blames_read_neg b n : blames b (read_or_neg OUT_OF_CONTENT_TO_READ n).
Proof. intros r r' _ _. unfold read_or_neg. destruct (reader_read r n) as [[c l] r1]. by destruct (_ <? 0). Qed.

Lemma blames_weaken {A} b b' (p : Parser ArrayReader A) : blames b p -> (b' <= b)%nat -> blames b' p.
Proof. intros Hp Hb r r' Hr Hbr. apply Hp; [done|lia]. Qed.

Ltac blame_char := apply (blames_bind _ 1); [apply (total_read _ 1); lia|apply blames_read|].

Lemma blames_length_loop b n acc : blames b (length_loop n acc).
Proof.
  revert b acc. induction n as [|n IH]; intros b acc; cbn [length_loop]; blame_char; intros _ l; cbv zeta;
    (destruct (_ =? 58); [apply blames_ret|]); (destruct (negb _); [apply blames_fail|]); [apply blames_fail|apply IH].
Qed.

(** One character is read from the buffer. *)
Lemma read_char_within r l r' : valid r -> read_or OUT_OF_CONTENT_TO_READ 1 r = Some (inr l, r') ->
  l = [m r.(r_pointer)] /\ valid r' /\ r'.(r_pointer) = r.(r_pointer) + 1 /\ a <= r.(r_pointer) < e.
Proof.
  intros Hr E. assert (valid r') as Hr'.
  { eapply (total_valid (budget r)); [apply (total_read _ 1); lia|exact Hr|done|exact E]. }
  destruct Hr as [Hok [H1 H2 H3 H4]]. revert E. unfold read_or. cbn [reader_read ArrayReader_reader]. rewrite ArrayReader_read_spec by (done || lia).
  destruct (Z.ltb_spec (reader_left r) 1); [done|]. cbn [Z.eqb negb]. intros [= <- <-]. rewrite H1, read_cons, read_0 by lia.
  rewrite H1 in Hr'. unfold reader_left in *. cbn. split; [done|]. split; [exact Hr'|]. split; [done|lia].
Qed.

Lemma length_loop_within n acc r ds r' : valid r -> length_loop n acc r = Some (inr ds, r') ->
  exists k, 0 <= k /\ ds = acc ++ read m r.(r_pointer) k /\ a <= r.(r_pointer) /\ r.(r_pointer) + k < e /\ m (r.(r_pointer) + k) = 58.
Proof.
  revert acc r. induction n as [|n IH]; intros acc r Hr; cbn [length_loop]; unfold bind;
    (destruct (read_or _ 1 r) as [[[c|l] r1]|] eqn:E; [done| |done]);
    destruct (read_char_within r l r1 Hr E) as (-> & Hr1 & Hp & Hin); cbn [first_char nth]; cbv zeta;
    (destruct (Z.eqb_spec (m (r_pointer r)) 58) as [Ec|]; [intros [= <- _]; exists 0; rewrite read_0, app_nil_r, Z.add_0_r by lia; split_and!; lia || done|]);
    (destruct (negb _); [done|]); [done|].
  intros E1. destruct (IH _ r1 Hr1 E1) as (k & Hk & -> & _ & Hend & Hcolon). rewrite Hp in *. exists (k + 1).
  rewrite (read_cons m (r_pointer r) (k + 1)) by lia. replace (k + 1 - 1) with k by lia. rewrite <-app_assoc.
  replace (r_pointer r + (k + 1)) with (r_pointer r + 1 + k) by lia. split_and!; lia || done.
Qed.

Lemma blames_string b : blames b (parseString process).
Proof.
  intros r r' Hr Hb. unfold parseString, bind at 1.
  destruct (length_loop _ [] r) as [[[c|ds] r1]|] eqn:E; [intros [= -> ->]; by apply (blames_length_loop b _ _ r r' Hr Hb E)| |done].
  destruct (length_loop_within _ _ _ _ _ Hr E) as (k & Hk & -> & Ha0 & Hend & Hcolon). cbn [app].
  pose proof (length_loop_digits _ [] _ _ _ ltac:(constructor) E) as Hd. cbn [app] in Hd. cbv zeta.
  destruct (Z.ltb_spec process.(largest_block) (u64 (strtoul (read m (r_pointer r) k) + 1))).
  - intros _. exists (r_pointer r), (r_pointer r + k). replace (r_pointer r + k - r_pointer r) with k by lia. split_and!; done || lia.
  - unfold bind, read_or. destruct (reader_read r1 _) as [[c l] r2]. by destruct (negb _).
Qed.

Lemma blames_int_loop b n acc : blames b (int_loop n acc).
Proof.
  revert b acc. induction n as [|n IH]; intros b acc; cbn [int_loop]; blame_char; intros _ l; cbv zeta;
    (destruct (_ =? 101); [apply blames_ret|]); (destruct (match acc with [] => _ | _ => _ end); [|destruct (negb _)]);
    apply blames_fail || apply IH.
Qed.

Lemma blames_int b : blames b (parseint64_t process).
Proof.
  unfold parseint64_t. blame_char. intros _ l. destruct (negb _); [apply blames_fail|].
  apply (blames_bind _ 1); [apply total_int_loop|apply blames_int_loop|]. intros _ ds. cbv zeta.
  destruct (strtol ds). destruct (_ && _ && _); [apply blames_fail|]. destruct (_ && _); [apply blames_fail|apply blames_ret].
Qed.

Lemma blames_skip {A} b (x : A) : blames b (_ <- skip 1 ;; ret x).
Proof. by intros r r' _ _. Qed.

Section loops.
  Context (generic : Parser ArrayReader Object) (b : nat) (Ht : total b generic 1) (Hg : blames b generic).

Lemma blames_below b' : (b' <= b)%nat -> total b' generic 1 /\ blames b' generic.
Proof. intros H. split; [by eapply total_weaken|by eapply blames_weaken]. Qed.

Lemma blames_list_loop b' fuel acc : (b' <= b)%nat -> blames b' (list_loop generic fuel acc).
Proof.
  revert b' acc. induction fuel as [|fuel IH]; intros b' acc Hb'; cbn [list_loop];
    (apply (blames_bind _ 0); [apply (total_read _ 0); lia|apply blames_read|]); intros _ l; rewrite Nat.sub_0_r;
    (destruct (_ =? 101); [apply blames_skip|]); destruct (blames_below b' Hb') as [Ht' Hg'];
    (apply (blames_bind _ 1); [exact Ht'|exact Hg'|]); intros _ o; [by intros r r' _ _|apply IH; lia].
Qed.

Lemma blames_dict_loop b' fuel acc : (b' <= b)%nat -> blames b' (dict_loop process generic fuel acc).
Proof.
  revert b' acc. induction fuel as [|fuel IH]; intros b' acc Hb'; cbn [dict_loop];
    (apply (blames_bind _ 0); [apply (total_read_neg _ 0); lia|apply blames_read_neg|]); intros _ l; rewrite Nat.sub_0_r;
    (destruct (_ =? 101); [apply blames_skip|]);
    (apply (blames_bind _ 1); [apply total_string|apply blames_string|]); intros _ key;
    destruct (blames_below (b' - 1) ltac:(lia)) as [Ht' Hg'];
    (apply (blames_bind _ 1); [exact Ht'|exact Hg'|]); intros _ o; [by intros r r' _ _|apply IH; lia].
Qed.
End loops.

Lemma blames_list_with b generic fuel : ((1 <= b)%nat -> total (b - 1) generic 1 /\ blames (b - 1) generic) -> blames b (parseList_with generic fuel).
Proof.
  intros H. unfold parseList_with. blame_char. intros Hb l. destruct (negb _); [apply blames_fail|].
  destruct (H Hb) as [Ht Hg]. by apply (blames_list_loop generic (b - 1) Ht Hg).
Qed.

Lemma blames_dict_with b generic fuel : ((1 <= b)%nat -> total (b - 1) generic 1 /\ blames (b - 1) generic) ->
  blames b (parseDictionary_with process generic fuel).
Proof.
  intros H. unfold parseDictionary_with. apply (blames_bind _ 1); [apply (total_read_neg _ 1); lia|apply blames_read_neg|].
  intros Hb l. destruct (negb _); [apply blames_fail|]. destruct (H Hb) as [Ht Hg]. by apply (blames_dict_loop generic (b - 1) Ht Hg).
Qed.

Lemma blames_generic b fuel : (b < fuel)%nat -> blames b (parseGeneric process fuel).
Proof.
  revert b. induction fuel as [|fuel IH]; intros b Hf; [lia|]. cbn [parseGeneric].
  apply (blames_bind _ 0); [apply (total_read _ 0); lia|apply blames_read|]. intros _ l. rewrite Nat.sub_0_r. cbv zeta.
  assert ((1 <= b)%nat -> total (b - 1) (parseGeneric process fuel) 1 /\ blames (b - 1) (parseGeneric process fuel)) as Hin
    by (intros Hb; split; [apply parse_total|apply IH]; lia).
  destruct (_ && _); [apply (blames_bind _ 1); [apply total_string|apply blames_string|intros; apply blames_ret]|].
  destruct (_ =? 105); [apply (blames_bind _ 1); [apply total_int|apply blames_int|intros; apply blames_ret]|].
  destruct (_ =? 108); [|destruct (_ =? 100); [|apply blames_fail]]; (apply (blames_bind _ 1); [| |intros; apply blames_ret]).
  - apply total_list_with; [apply Hin|lia].
  - by apply blames_list_with.
  - apply total_dict_with; [apply Hin|lia].
  - by apply blames_dict_with.
Qed.

Lemma blames_dictionary b fuel : (b <= fuel)%nat -> blames b (parseDictionary process fuel).
Proof. intros Hf. apply blames_dict_with. intros Hb. split; [apply parse_total|apply blames_generic]; lia. Qed.
End parsed.

(** A length stands in the content [l], digits before a colon, that is more than
    the allocator has. *)
Definition names_too_much (process : Process) (l : list Z) : Prop := exists before ds after,
  l = before ++ ds ++ chars ":" ++ after /\ Forall (fun c => is_digit c = true) ds /\
  process.(largest_block) < u64 (strtoul ds + 1).

Lemma oversized_content m a n process : 0 <= a -> 0 <= n -> oversized m a (a + n) process -> names_too_much process (read m a n).
Proof.
  intros Ha Hn (i & j & Hij & Hj & Hd & Hc & Hbig). exists (read m a (i - a)), (read m i (j - i)), (read m (j + 1) (a + n - (j + 1))).
  split; [|done]. rewrite (read_split m a n (i - a)) by lia. f_equal. replace (a + (i - a)) with i by lia.
  rewrite (read_split m i (n - (i - a)) (j - i)) by lia. f_equal. replace (i + (j - i)) with j by lia.
  rewrite read_cons by lia. rewrite Hc. cbn [chars app]. do 2 f_equal. lia.
Qed.

Lemma memory_blamed process m a n r : 0 <= a -> 0 <= n -> a + n < 2 ^ 64 - 2 ->
  parseDictionary process (Z.to_nat n) (ArrayReader_new m a n) = Some (inl OUT_OF_MEMORY, r) -> names_too_much process (read m a n).
Proof.
  intros Ha Hn Han E. apply oversized_content; [done..|]. eapply (blames_dictionary m a (a + n) Ha Han process (Z.to_nat n) (Z.to_nat n)); [done| | |exact E].
  - cbn. unfold ArrayReader_new, reader_ok. cbn. rewrite u64_small by lia. split; [lia|]. split; cbn; [done|done|lia|lia].
  - cbn. unfold reader_left, ArrayReader_new. cbn. rewrite u64_small; lia.
Qed.

(** A request that is parsed: the strings in it stand in the message. *)
Lemma parsed_request process m a n d r : 0 <= a -> 0 <= n -> a + n < 2 ^ 64 - 2 ->
  parseDictionary process (Z.to_nat n) (ArrayReader_new m a n) = Some (inr d, r) ->
  entry_slices m a (a + n) d.
Proof.
  intros Ha Hn Han E. eapply (results_dictionary m a (a + n) Ha Han (Z.to_nat n) process (Z.to_nat n)); [done| | |exact E].
  - cbn. unfold ArrayReader_new, reader_ok. cbn. rewrite u64_small by lia. split; [lia|]. split; cbn; [done|done|lia|lia].
  - cbn. unfold reader_left, ArrayReader_new. cbn. rewrite u64_small; lia.
Qed.

Lemma lookup_slice m a e d key s : entry_slices m a e d -> Dict_getString (Some d) (Some key) = Some s -> slice m a e s.
Proof.
  unfold Dict_getString, lookupObject. intros H. induction H as [|[k o] d Ho Hd IH]; cbn [lookup_loop]; [done|].
  destruct (String_equals _ _); [|exact IH]. cbn [snd] in Ho. destruct o; try done. by intros [= <-].
Qed.

(** ** The search for the hash *)
Lemma c_string_prefix s : exists t, s = c_string s ++ t.
Proof.
  induction s as [|c s [t IH]]; [by exists []|]. cbn [c_string]. destruct (c =? 0); [by exists (c :: s)|].
  exists t. cbn. congruence.
Qed.

Lemma slice_c_string m i s : read m i (Z.of_nat (List.length s)) = s ->
  read m i (Z.of_nat (List.length (c_string s))) = c_string s /\ (List.length (c_string s) <= List.length s)%nat.
Proof.
  destruct (c_string_prefix s) as [t E]. set (u := c_string s) in *. clearbody u. subst s. rewrite length_app. intros E.
  split; [|lia]. rewrite Nat2Z.inj_add, (read_split _ _ _ (Z.of_nat (List.length u))) in E by lia.
  apply app_inj_1 in E as [E _]; [done|]. rewrite length_read. lia.
Qed.

(** It ends at the hash at the latest. *)
Lemma strstr_ends fuel m a i needle : read m i (Z.of_nat (List.length needle)) = needle -> a <= i < a + Z.of_nat fuel ->
  exists found, strstr fuel m a needle = Some found /\
    match found with Some p => a <= p <= i /\ read m p (Z.of_nat (List.length needle)) = needle | None => True end.
Proof.
  intros Hi. revert a. induction fuel as [|fuel IH]; intros a Ha; [lia|]. cbn [strstr].
  case_bool_decide as Hb; [eexists; split; [done|]; split; [lia|done]|].
  destruct (_ =? 0); [by exists None|]. assert (a <> i) by congruence.
  destruct (IH (a + 1) ltac:(lia)) as (found & E & Hf). exists found. split; [exact E|]. destruct found; [|done]. split; [lia|apply Hf].
Qed.

Section behaviour.
  Context {P : Platform} {N : NaCl} {U : AdminUsers}.
  #[local] Existing Instance sockaddr_key.

Lemma length_digest h : List.length (hex_digest h) = 64%nat.
Proof. unfold hex_digest. apply length_read. Qed.

(** The cookie of a request. *)
Definition cookie_of (d : Dict) : Z :=
  let cookie := match Dict_getString (Some d) (Some (chars "cookie")) with Some s => u32 (strtoll s) | None => 0 end in
  if cookie =? 0 then match Dict_getInt (Some d) (Some (chars "cookie")) with Some i => u32 i | None => 0 end else cookie.

Definition in_message (msg : Message) (x : Z) : Prop := bytes msg <= x < bytes msg + length msg.

(** What makes a request valid: its hash [h] stands at [p], and is that of the
    message with the hash of password and cookie in its place. *)
Record proves_password (d : Dict) (msg : Message) (password : String) (now : Z) (p : Z) (h : String) : Prop := {
  proof_hash : Dict_getString (Some d) (Some (chars "hash")) = Some h;
  proof_length : List.length h = 64%nat;
  proof_place : bytes msg <= p /\ p + 64 <= bytes msg + length msg /\
    read msg.(buffer) p (Z.of_nat (List.length (c_string h))) = c_string h;
  proof_time : cookie_of d <= now /\ u64 (now - 20) <= cookie_of d;
  proof_equal : h = hex_digest (crypto_hash_sha256 (read
    (write msg.(buffer) p (hex_digest (crypto_hash_sha256 (passAndCookie password (cookie_of d))))) msg.(bytes) msg.(length)))
}.

Lemma authValid_cases process d r msg a : 0 <= bytes msg -> 0 <= length msg -> bytes msg + length msg < 2 ^ 64 - 2 ->
  parseDictionary process (Z.to_nat (length msg)) (ArrayReader_new msg.(buffer) msg.(bytes) msg.(length)) = Some (inr d, r) ->
  exists ok m, authValid d msg a = Some (ok, with_buffer msg m, a) /\
    (forall x, ~ in_message msg x -> m x = msg.(buffer) x) /\
    (ok = true -> exists password p h, a.(admin_password) = Some password /\ proves_password d msg password a.(admin_seconds) p h).
Proof.
  intros Hb Hl Hbl E. unfold authValid. run_steps. fold (cookie_of d).
  assert (forall m, m = msg.(buffer) -> exists ok m0, (mret (false, msg) : M Admin (bool * Message)) a = Some (ok, with_buffer msg m0, a) /\
    (forall x, ~ in_message msg x -> m0 x = msg.(buffer) x) /\
    (ok = true -> exists password p h, a.(admin_password) = Some password /\ proves_password d msg password a.(admin_seconds) p h)) as Hno.
  { intros _ _. exists false, msg.(buffer). split; [by destruct msg|]. done. }
  specialize (Hno _ eq_refl). destruct (Dict_getString (Some d) (Some (chars "hash"))) as [h|] eqn:Eh; [|exact Hno].
  destruct (_ || _) eqn:Et; [exact Hno|]. apply orb_false_iff in Et as [[Et1%Z.ltb_ge Et2%Z.ltb_ge]%orb_false_iff El%negb_false_iff%Z.eqb_eq].
  destruct (lookup_slice _ _ _ _ _ _ (parsed_request _ _ _ _ _ _ Hb Hl Hbl E) Eh) as (i & Hi1 & Hi2 & Hi). rewrite El in *.
  destruct (slice_c_string (buffer msg) i h ltac:(by rewrite El)) as [Hc Hcl].
  destruct (strstr_ends (Z.to_nat (length msg)) (buffer msg) (bytes msg) i (c_string h) Hc ltac:(lia)) as (found & -> & Hf). run_steps.
  destruct found as [p|]; [|exact Hno]. destruct (admin_password a) as [password|] eqn:Epw; [|exact Hno].
  destruct Hf as [Hp Hpc]. eexists _, _. split; [done|]. split.
  - intros x Hx. unfold in_message in Hx. rewrite !write_out; [done|rewrite length_digest; lia..].
  - intros Hok%Z.eqb_eq. exists password, p, h. split; [done|]. apply memcmp_0 in Hok; [|rewrite length_read; lia].
    rewrite read_write_same in Hok by (rewrite length_digest; done). split; [done|lia|split_and!; [lia|lia|exact Hpc]|lia|done].
Qed.

(** ** What functions are called *)

(** From [a] to [a'] only functions with [Q] were called; what was registered and
    the clock are as they were. *)
Record after (Q : Z -> Prop) (a a' : Admin) : Prop := {
  after_functions : a'.(functions) = a.(functions);
  after_password : a'.(admin_password) = a.(admin_password);
  after_addrLen : a'.(addrLen) = a.(addrLen);
  after_seconds : a'.(admin_seconds) = a.(admin_seconds);
  after_outputs : exists new, a'.(admin_outputs) = a.(admin_outputs) ++ new /\
    forall context args txid, In (AdminCall context args txid) new -> Q context
}.

#[export] Instance after_preorder Q : PreOrder (after Q).
Proof.
  split.
  - intros a. split; try done. exists []. split; [by rewrite app_nil_r|done].
  - intros a b c [F1 P1 L1 S1 (n1 & O1 & H1)] [F2 P2 L2 S2 (n2 & O2 & H2)]. split; try congruence.
    exists (n1 ++ n2). split; [by rewrite O2, O1, app_assoc|]. intros context args txid [H|H]%in_app_iff; [by eapply H1|by eapply H2].
Qed.

Definition calls {A} (m : M Admin A) (Q : Z -> Prop) : Prop := forall a, wlp m (fun _ a' => after Q a a') a.

Lemma calls_weaken {A} (m : M Admin A) (Q Q' : Z -> Prop) : calls m Q -> (forall c, Q c -> Q' c) -> calls m Q'.
Proof.
  intros Hm HQ a. eapply wlp_mono; [apply Hm|]. intros _ a' [F1 P1 L1 S1 (n & O & H)]. split; [done..|].
  exists n. split; [done|]. intros context args txid Hin. eapply HQ, H, Hin.
Qed.

Lemma calls_after {A} (m : M Admin A) Q a a1 : after Q a a1 -> calls m Q -> wlp m (fun _ a' => after Q a a') a1.
Proof. intros H1 Hm. eapply wlp_mono; [apply Hm|]. intros x a' H2. etransitivity; [exact H1|exact H2]. Qed.

Lemma calls_ret {A} (x : A) Q : calls (mret x) Q.
Proof. intros a. apply wlp_ret. reflexivity. Qed.
Lemma calls_bind {A B} (m : M Admin A) (k : A -> M Admin B) Q : calls m Q -> (forall x, calls (k x) Q) -> calls (m ≫= k) Q.
Proof.
  intros Hm Hk a. apply wlp_bind. eapply wlp_mono; [apply Hm|]. intros x a1 H1. eapply wlp_mono; [apply Hk|]. intros y a2 H2.
  etransitivity; [exact H1|exact H2].
Qed.
Lemma calls_lift {A} (x : option A) Q : calls (lift x) Q.
Proof. intros a. apply wlp_lift. intros y _. reflexivity. Qed.
Lemma calls_abort {A} Q : calls (@abort _ A) Q.
Proof. intros a. apply wlp_abort. Qed.
Lemma calls_gets {A B} (f : Admin -> A) (k : A -> M Admin B) Q : (forall x, calls (k x) Q) -> calls (gets f ≫= k) Q.
Proof. intros Hk. apply calls_bind; [|done]. intros a. apply wlp_gets. reflexivity. Qed.
Lemma calls_modify (f : Admin -> Admin) Q : (forall a, after Q a (f a)) -> calls (modify f) Q.
Proof. intros H a. apply wlp_modify, H. Qed.
Lemma calls_set_map m Q : calls (modify (set_map m)) Q.
Proof. apply calls_modify. intros a. split; try done. exists []. split; [symmetry; apply app_nil_r|done]. Qed.
Lemma calls_set_inRequest x Q : calls (modify (set_inRequest x)) Q.
Proof. apply calls_modify. intros a. split; try done. exists []. split; [symmetry; apply app_nil_r|done]. Qed.
Lemma calls_set_asyncEnabled x Q : calls (modify (set_asyncEnabled x)) Q.
Proof. apply calls_modify. intros a. split; try done. exists []. split; [symmetry; apply app_nil_r|done]. Qed.
Lemma calls_add_send m Q : calls (modify (add_output (AdminSend m))) Q.
Proof. apply calls_modify. intros a. split; try done. exists [AdminSend m]. split; [done|]. intros ??? [|[]]. done. Qed.
End behaviour.

Create HintDb calls.
#[export] Hint Resolve calls_ret calls_lift calls_abort calls_set_map calls_set_inRequest calls_set_asyncEnabled calls_add_send : calls.
Ltac calls_steps := repeat first
  [ solve [eauto 2 with calls] | apply calls_gets; intros ? | apply calls_bind; [|intros ?]
  | match goal with |- calls (let '(_, _) := ?x in _) _ => destruct x end
  | match goal with |- calls (if ?x then _ else _) _ => destruct x end
  | match goal with |- calls (match ?x with Some _ => _ | None => _ end) _ => destruct x end
  | progress cbv zeta ].

Section calls.
  Context {P : Platform} {N : NaCl} {U : AdminUsers}.
  #[local] Existing Instance sockaddr_key.
  Implicit Types Q : Z -> Prop.

Lemma calls_send m dest Q : calls (Admin_send m dest) Q.
Proof. unfold Admin_send. calls_steps. Qed.
#[local] Hint Resolve calls_send : calls.
Lemma calls_sendBenc d dest Q : calls (sendBenc d dest) Q.
Proof. unfold sendBenc. calls_steps. Qed.
#[local] Hint Resolve calls_sendBenc : calls.
Lemma calls_checkAddress i now Q : calls (checkAddress i now) Q.
Proof. unfold checkAddress. calls_steps. Qed.
#[local] Hint Resolve calls_checkAddress : calls.
Lemma calls_sendMessage d txid Q : calls (Admin_sendMessage d txid) Q.
Proof. unfold Admin_sendMessage. calls_steps. Qed.
#[local] Hint Resolve calls_sendMessage : calls.
Lemma calls_answer_all l Q : calls (answer_all l) Q.
Proof. induction l as [|[d txid] l IH]; cbn [answer_all]; calls_steps. Qed.
#[local] Hint Resolve calls_answer_all : calls.
Lemma calls_checkArgs args f txid Q : calls (checkArgs args f txid) Q.
Proof. unfold checkArgs. calls_steps. Qed.
#[local] Hint Resolve calls_checkArgs : calls.

Lemma calls_function f args txid : calls (call_function f args txid) (fun c => f.(fu_call) = Registered c).
Proof.
  unfold call_function. destruct f.(fu_call) as [| |c].
  - unfold asyncEnabled_call. calls_steps.
  - unfold availableFunctions. calls_steps.
  - apply calls_bind; [|intros _; calls_steps]. apply calls_modify. intros a. split; try done.
    eexists. split; [done|]. intros ??? [[= <- _ _]|[]]. done.
Qed.

(** A function of [fs] that this request may call. *)
Definition may_call (fs : list Function) (authed : bool) (c : Z) : Prop :=
  exists f, In f fs /\ f.(fu_call) = Registered c /\ (authed = true \/ f.(needsAuth) = false).

Lemma calls_functions_loop fs query authed args txid : calls (functions_loop fs query authed args txid) (may_call fs authed).
Proof.
  induction fs as [|f fs IH]; cbn [functions_loop]; [apply calls_ret|].
  assert (calls (functions_loop fs query authed args txid) (may_call (f :: fs) authed)) as Hrest.
  { eapply calls_weaken; [exact IH|]. intros c (g & Hg & H). exists g. split; [by right|done]. }
  destruct (_ && _) eqn:E; [|exact Hrest]. apply andb_prop in E as [_ E].
  apply calls_bind; [calls_steps|].
  intros ok. apply calls_bind; [|intros _; calls_steps]. destruct ok; [|apply calls_ret].
  eapply calls_weaken; [apply calls_function|]. intros c Hc. exists f. split; [by left|]. split; [done|]. destruct authed; [by left|right].
  by apply negb_true_iff.
Qed.

(** A request that knows the password. *)
Definition authentic (d : Dict) (msg : Message) (a : Admin) : Prop :=
  Dict_getString (Some d) (Some (chars "q")) = Some (chars "auth") /\
  exists password p h, a.(admin_password) = Some password /\ proves_password d msg password a.(admin_seconds) p h.

(** What a request may call. *)
Definition allowed (d : Dict) (msg : Message) (a : Admin) (c : Z) : Prop :=
  may_call a.(functions) false c \/ (may_call a.(functions) true c /\ authentic d msg a).

Lemma request_calls process d r msg src a : 0 <= bytes msg -> 0 <= length msg -> bytes msg + length msg < 2 ^ 64 - 2 ->
  parseDictionary process (Z.to_nat (length msg)) (ArrayReader_new msg.(buffer) msg.(bytes) msg.(length)) = Some (inr d, r) ->
  wlp (handleRequest d msg src) (fun _ a' => after (allowed d msg a) a a') a.
Proof.
  intros Hb Hl Hbl E. unfold handleRequest. destruct (Dict_getString (Some d) (Some (chars "q"))) as [query|] eqn:Eq; [|apply calls_ret].
  cbv zeta. apply wlp_bind, wlp_gets. cbn [id]. destruct (String_equals (Some query) (Some (chars "cookie"))); [apply calls_bind; calls_steps|].
  set (auth := String_equals (Some query) (Some (chars "auth"))).
  assert (forall (valid : bool) a1, after (allowed d msg a) a a1 -> a1.(functions) = a.(functions) ->
    (valid = true -> auth = true -> authentic d msg a) -> wlp (if negb valid then
      _ ← Admin_sendMessage (fst (Dict_putString Dict_new (Some (chars "error")) (Some (chars "Auth failed."))))
          (read (of_list src) 0 (Sockaddr_addrLen src) ++ default [] (Dict_getString (Some d) (Some TXID))); mret tt
      else
        _ ← (if 0 <=? Map_indexForKey src a.(admin_map) then
               _ ← modify (set_map (set_value a.(admin_map) (Map_indexForKey src a.(admin_map)) a.(admin_milliseconds))); modify (set_asyncEnabled 1)
             else if auth then _ ← modify (set_map (fst (Map_put src a.(admin_milliseconds) a.(admin_map)))); modify (set_asyncEnabled 1)
             else modify (set_asyncEnabled 0));
        called ← functions_loop a.(functions) (if auth then Dict_getString (Some d) (Some (chars "aq")) else Some query) auth
          (Dict_getDict (Some d) (Some (chars "args"))) (read (of_list src) 0 (Sockaddr_addrLen src) ++ default [] (Dict_getString (Some d) (Some TXID)));
        (if (called : bool) then mret tt else _ ← Admin_sendMessage [(chars "error", Object_STRING
             (chars "No functions matched your request, try Admin_availableFunctions()"))]
             (read (of_list src) 0 (Sockaddr_addrLen src) ++ default [] (Dict_getString (Some d) (Some TXID))); mret tt))
      (fun _ a' => after (allowed d msg a) a a') a1) as Hrest.
  { intros valid a1 H1 Hf Hauth. destruct valid; cbn [negb].
    - apply (calls_after _ _ _ _ H1), calls_bind; [calls_steps|]. intros _. apply calls_bind; [|intros called; calls_steps].
      eapply calls_weaken; [apply calls_functions_loop|]. intros c Hc. destruct auth; [right|by left]. auto.
    - apply (calls_after _ _ _ _ H1), calls_bind; calls_steps. }
  apply wlp_bind. destruct auth eqn:Ea.
  - destruct (authValid_cases process d r msg a Hb Hl Hbl E) as (ok & m & Ev & _ & Hok). apply wlp_bind. unfold wlp at 1. rewrite Ev.
    apply wlp_ret. apply Hrest; [reflexivity|done|]. intros -> _. split; [|by apply Hok].
    unfold auth in Ea. apply (proj1 (String_equals_spec _ _)) in Ea. by rewrite Eq, Ea.
  - apply wlp_ret. apply Hrest; [reflexivity|done|done].
Qed.

(** What a message may call. *)
Definition granted (process : Process) (msg : Message) (a : Admin) (c : Z) : Prop := exists d r,
  parseDictionary process (Z.to_nat (length msg)) (ArrayReader_new msg.(buffer) msg.(bytes) msg.(length)) = Some (inr d, r) /\
  allowed d msg a c.

Lemma message_calls process msg src a : 0 <= bytes msg -> 0 <= length msg -> bytes msg + length msg < 2 ^ 64 - 2 ->
  wlp (handleMessage process msg src) (fun _ a' => after (granted process msg a) a a') a.
Proof.
  intros Hb Hl Hbl. unfold handleMessage. destruct (_ <? _); [apply calls_bind; calls_steps|].
  apply wlp_bind, wlp_lift. intros [[code|d] r] E; [destruct (_ =? _); [apply wlp_abort|apply calls_ret]|]. destruct (_ <? _); [apply calls_ret|].
  eapply wlp_mono; [by apply (request_calls process d r msg src a)|]. intros x a' [F Pw L S (new & O & H)]. split; [done..|].
  exists new. split; [done|]. intros c args txid Hin. exists d, r. split; [done|]. by eapply H.
Qed.

Lemma receive_calls process message src request a code a' : 0 <= bytes request -> 0 <= length request ->
  bytes request + length request < 2 ^ 64 - 2 -> Message_pop message a.(addrLen) = Some (src, request) ->
  receiveMessage process message a = Some (code, a') -> after (granted process request a) a a'.
Proof.
  intros Hb Hl Hbl Hpop. apply (wlp_run _ (fun _ a' => after (granted process request a) a a')). unfold receiveMessage.
  apply wlp_bind, wlp_gets. cbn [id]. destruct (_ <? _); [apply wlp_abort|]. apply wlp_bind, wlp_lift. rewrite Hpop. intros ? [= <-].
  apply wlp_bind, wlp_modify, wlp_bind. eapply wlp_mono; [by apply (message_calls process request src (set_inRequest 1 a))|].
  intros x a1 [F Pw L S (new & O & H)]. apply wlp_bind, wlp_modify, wlp_ret. split; [done..|]. exists new. split; [done|exact H].
Qed.

(** C19: a function that is registered as one that needs the password runs only for
    a request that proves it: the request says "auth", its cookie is at most 20
    seconds old, and its hash is that of the message with the hash of password and
    cookie in place of the hash. *)
Theorem Admin_needs_password process message src request a code a' context args txid :
  0 <= bytes request -> 0 <= length request -> bytes request + length request < 2 ^ 64 - 2 ->
  Message_pop message a.(addrLen) = Some (src, request) -> receiveMessage process message a = Some (code, a') ->
  In (AdminCall context args txid) (drop (List.length a.(admin_outputs)) a'.(admin_outputs)) ->
  (forall f, In f a.(functions) -> f.(fu_call) = Registered context -> f.(needsAuth) = true) ->
  exists d r password p h,
    parseDictionary process (Z.to_nat (length request)) (ArrayReader_new request.(buffer) request.(bytes) request.(length)) = Some (inr d, r) /\
    Dict_getString (Some d) (Some (chars "q")) = Some (chars "auth") /\ a.(admin_password) = Some password /\
    proves_password d request password a.(admin_seconds) p h.
Proof.
  intros Hb Hl Hbl Hpop E Hin Hneeds. destruct (receive_calls _ _ _ _ _ _ _ Hb Hl Hbl Hpop E) as [_ _ _ _ (new & O & H)].
  rewrite O, drop_app_length in Hin. destruct (H _ _ _ Hin) as (d & r & Ep & [(f & Hf & Hc & [?|Hn])|(_ & Hq & password & p & h & Hpw & Hproof)]);
    [done|rewrite (Hneeds f Hf Hc) in Hn; done|]. exists d, r, password, p, h. done.
Qed.
End calls.

(** ** No request stops the daemon *)

(** The description of arguments that registering makes. *)
Definition args_ok (d : Dict) : Prop :=
  Forall (fun e => exists v, e.2 = Object_DICT v /\ Dict_getInt (Some v) (Some REQUIRED) <> None) d.

Record admin_ok `{Platform} `{AdminUsers} (a : Admin) : Prop := {
  ok_addrLen : 8 <= a.(addrLen) <= SEND_MESSAGE_PADDING;
  ok_functions : Forall (fun f => args_ok f.(fu_args)) a.(functions);
  ok_answers : forall context args txid e, In e (answers context args txid) -> e.2 = txid
}.

Section total.
  Context {P : Platform} {N : NaCl} {U : AdminUsers}.
  #[local] Existing Instance sockaddr_key.

(** A client's address is as long as the interface says. *)
Definition client_ok (a : Admin) (src : Sockaddr) : Prop :=
  Z.of_nat (List.length src) = a.(addrLen) /\ Sockaddr_addrLen src = a.(addrLen).

Lemma put_forall (Q : String * Object -> Prop) d key v : Forall Q d -> (forall k, Q (k, v)) -> Forall Q (fst (putObject d key v)).
Proof.
  intros Hd Hv. induction Hd as [|[k o] d Ho Hd IH]; cbn [putObject]; [by constructor|].
  destruct (_ <? 0); [by repeat constructor|]. destruct (_ =? 0); [by repeat constructor|].
  destruct (putObject d key v) as [d' out]. by constructor.
Qed.

Lemma register_args_ok arguments args d : args_ok args -> register_args arguments args = Some d -> args_ok d.
Proof.
  revert args. induction arguments as [|x l IH]; intros args Ha; cbn [register_args]; [by intros [= <-]|].
  destruct (if bool_decide (arg_type x = STRING) then _ else _) as [type|]; [|done]. cbn [mbind option_bind]. apply IH.
  apply (put_forall _ _ _ _ Ha). intros k. eexists. split; [done|].
  set (n := if arg_required x then 1 else 0). clearbody n. destruct P as [b c]. by destruct b, c.
Qed.

(** It does not abort, and the state stays well formed. *)
Definition same_setup (a a' : Admin) : Prop := a'.(functions) = a.(functions) /\ a'.(addrLen) = a.(addrLen).
Definition survives {A} (m : M Admin A) (a : Admin) : Prop := wp m (fun _ a' => same_setup a a') a.

Lemma survives_bind {A B} (m : M Admin A) (k : A -> M Admin B) a : survives m a ->
  (forall x a', same_setup a a' -> survives (k x) a') -> survives (m ≫= k) a.
Proof.
  intros Hm Hk. apply wp_bind. eapply wp_mono; [exact Hm|]. intros x a' H. eapply wp_mono; [exact (Hk x a' H)|].
  intros y a2 H2. destruct H as [F1 L1], H2 as [F2 L2]. split; congruence.
Qed.
Lemma survives_ret {A} (x : A) a : survives (mret x) a.
Proof. by apply wp_ret. Qed.
Lemma survives_gets {A B} (f : Admin -> A) (k : A -> M Admin B) a : survives (k (f a)) a -> survives (gets f ≫= k) a.
Proof. intros Hk. apply wp_bind, wp_gets, Hk. Qed.
Lemma survives_modify (f : Admin -> Admin) a : same_setup a (f a) -> survives (modify f) a.
Proof. intros H. by apply wp_modify. Qed.

Definition addressed (a : Admin) (txid : String) : Prop := client_ok a (take (Z.to_nat a.(addrLen)) txid) /\ admin_ok a.

Lemma addressed_same a a' txid : same_setup a a' -> addressed a txid -> addressed a' txid.
Proof. intros [Hf Hl] [H [H1 H2 H3]]. unfold addressed, client_ok in *. rewrite Hl. split; [done|]. split; [by rewrite Hl|by rewrite Hf|done]. Qed.

Lemma survives_send msg dest a : client_ok a dest -> admin_ok a -> SEND_MESSAGE_PADDING <= padding msg -> survives (Admin_send msg dest) a.
Proof.
  intros [Hl Hs] Ha Hp. destruct (ok_addrLen a Ha) as [H1 H2]. unfold Admin_send. set (obj := read _ _ _).
  assert (Z.of_nat (List.length obj) = a.(addrLen)) as Ho by (unfold obj; rewrite length_read; lia).
  assert (exists m, Message_push msg obj = Some m) as [m ->]; [|by apply wp_bind; cbn].
  unfold Message_push. rewrite shift_up by lia. by eexists.
Qed.

Lemma survives_sendBenc d dest a : client_ok a dest -> admin_ok a -> survives (sendBenc d dest) a.
Proof. intros Hd Ha. unfold sendBenc. destruct (serializeDictionary _ _) as [ret w]. by apply survives_send. Qed.

Lemma survives_checkAddress i now a : survives (checkAddress i now) a.
Proof. unfold checkAddress. apply survives_gets. cbv zeta. destruct (_ && _); [|apply survives_ret]. apply survives_bind; [by apply survives_modify|intros; apply survives_ret]. Qed.

Lemma survives_sendMessage d txid a : addressed a txid -> survives (Admin_sendMessage d txid) a.
Proof.
  intros H. pose proof H as [[Hl Hs] Ha]. unfold Admin_sendMessage. apply survives_gets. cbn [id]. destruct (ok_addrLen a Ha) as [H1 H2].
  rewrite length_take in Hl. destruct (Z.ltb_spec (Z.of_nat (List.length txid)) (addrLen a)); [lia|]. cbv zeta. apply survives_bind.
  { destruct (_ =? 0); [|apply survives_ret]. destruct (_ <? 0); [apply survives_ret|]. apply survives_bind; [apply survives_checkAddress|].
    intros. apply survives_ret. }
  intros gone a' Hs'. destruct gone; [apply survives_ret|]. destruct (addressed_same _ _ _ Hs' H) as [Hc Ha'].
  destruct Hs' as [_ El]. rewrite El in Hc. by apply survives_sendBenc.
Qed.

Lemma survives_then_ret {A B} (m : M Admin A) (y : B) a : survives m a -> survives (_ ← m; mret y) a.
Proof. intros H. apply survives_bind; [done|intros; apply survives_ret]. Qed.

Lemma survives_answer_all l txid a : (forall e, In e l -> e.2 = txid) -> addressed a txid -> survives (answer_all l) a.
Proof.
  revert a. induction l as [|[d tx] l IH]; intros a Hl H; cbn [answer_all]; [apply survives_ret|].
  pose proof (Hl (d, tx) ltac:(by left)) as Et. cbn in Et. subst tx. apply survives_bind; [by apply survives_sendMessage|]. intros x a' Hs.
  apply IH; [|by eapply addressed_same]. intros e He. apply Hl. by right.
Qed.

Lemma checkArgs_loop_some d args : args_ok d -> exists r, checkArgs_loop d args = Some r.
Proof.
  intros H. induction H as [|[k o] d (v & Ho & Hr) Hd IH]; cbn [checkArgs_loop]; [by eexists|]. cbn [snd] in Ho. subst o.
  destruct (Dict_getInt (Some v) (Some REQUIRED)) as [required|]; [|done]. cbn [mbind option_bind].
  destruct (required =? 0); [done|]. cbv zeta. destruct (Dict_getString _ _); [|done]. destruct (_ || _); [by eexists|done].
Qed.

Lemma survives_checkArgs args f txid a : args_ok f.(fu_args) -> addressed a txid -> survives (checkArgs args f txid) a.
Proof.
  intros Hf H. unfold checkArgs. destruct (checkArgs_loop_some f.(fu_args) args Hf) as [r ->]. apply survives_bind; [by apply wp_lift with (a := r)|].
  intros x a' Hs. destruct x as [[key type]|]; [|apply survives_ret]. apply survives_then_ret, survives_sendMessage. by eapply addressed_same.
Qed.

Lemma survives_call f args txid a : addressed a txid -> survives (call_function f args txid) a.
Proof.
  intros H. unfold call_function. destruct f.(fu_call).
  - unfold asyncEnabled_call. apply survives_gets. by apply survives_then_ret, survives_sendMessage.
  - unfold availableFunctions. apply survives_gets. cbv zeta. destruct (page_loop _ _ _). by apply survives_then_ret, survives_sendMessage.
  - apply survives_bind; [by apply survives_modify|]. intros _ a' Hs. apply (survives_answer_all _ txid); [|by eapply addressed_same].
    apply (ok_answers a), H.
Qed.

Lemma survives_functions_loop fs query authed args txid a : Forall (fun f => args_ok f.(fu_args)) fs -> addressed a txid ->
  survives (functions_loop fs query authed args txid) a.
Proof.
  intros Hfs. revert a. induction Hfs as [|f fs Hf Hfs IH]; intros a H; cbn [functions_loop]; [apply survives_ret|].
  destruct (_ && _); [|by apply IH]. apply survives_bind; [by apply survives_checkArgs|]. intros ok a1 H1. apply survives_bind.
  - destruct ok; [|apply survives_ret]. apply survives_call. by eapply addressed_same.
  - intros x a2 H2. apply survives_then_ret, IH. eapply addressed_same; [exact H2|]. by eapply addressed_same.
Qed.

Definition well_placed (msg : Message) : Prop := 0 <= bytes msg /\ 0 <= length msg /\ bytes msg + length msg < 2 ^ 64 - 2.

Lemma survives_request process d r msg src a : well_placed msg ->
  parseDictionary process (Z.to_nat (length msg)) (ArrayReader_new msg.(buffer) msg.(bytes) msg.(length)) = Some (inr d, r) ->
  client_ok a src -> admin_ok a -> survives (handleRequest d msg src) a.
Proof.
  intros (Hb & Hl & Hbl) E Hc Ha. unfold handleRequest. destruct (Dict_getString _ _) as [query|]; [|apply survives_ret]. cbv zeta.
  set (txid := read _ _ _ ++ _). assert (addressed a txid) as Ht.
  { split; [|done]. replace (take _ txid) with src; [done|]. unfold txid. destruct Hc as [<- Es].
    rewrite Es, Nat2Z.id, read_of_list by (destruct Ha; lia). by rewrite take_app_length. }
  apply survives_gets. cbn [id]. destruct (String_equals _ _); [by apply survives_then_ret, survives_sendMessage|].
  apply survives_bind.
  { destruct (String_equals _ _); [|apply survives_ret]. destruct (authValid_cases process d r msg a Hb Hl Hbl E) as (ok & m & Ev & _).
    apply wp_bind. unfold wp at 1. rewrite Ev. apply wp_ret. done. }
  intros valid a1 H1. pose proof (addressed_same _ _ _ H1 Ht) as Ht1. destruct valid; cbn [negb]; [|by apply survives_then_ret, survives_sendMessage].
  apply survives_bind.
  { destruct (0 <=? _); [|destruct (String_equals _ _)]; try by apply survives_modify.
    all: apply survives_bind; [by apply survives_modify|intros; by apply survives_modify]. }
  intros x a2 H2. pose proof (addressed_same _ _ _ H2 Ht1) as Ht2. apply survives_bind.
  { apply survives_functions_loop; [apply Ha|done]. }
  intros called a3 H3. destruct called; [apply survives_ret|]. apply survives_then_ret, survives_sendMessage. by eapply addressed_same.
Qed.

Lemma survives_message process msg src a : well_placed msg -> SEND_MESSAGE_PADDING <= padding msg \/ a.(addrLen) <= padding msg ->
  client_ok a src -> admin_ok a -> survives (handleMessage process msg src) a \/ (names_too_much process (content msg) /\ handleMessage process msg src a = None).
Proof.
  intros Hm Hp Hc Ha. pose proof Hm as (Hb & Hl & Hbl). unfold handleMessage. destruct (_ <? _).
  - left. apply survives_then_ret. unfold Admin_send. set (obj := read _ _ _). destruct (ok_addrLen a Ha) as [H1 H2]. destruct Hc as [Hlc Hs].
    assert (Z.of_nat (List.length obj) = a.(addrLen)) as Ho by (unfold obj; rewrite length_read; lia).
    assert (exists m, Message_push (with_length (with_buffer msg (write (buffer msg) (bytes msg) TOO_BIG)) (Z.of_nat (List.length TOO_BIG))) obj
      = Some m) as [m ->]; [|by apply wp_bind; cbn].
    unfold Message_push. rewrite shift_up by (cbn; lia). by eexists.
  - pose proof (parseDictionary_total (laws := ArrayReader_laws) process (Z.to_nat (length msg)) (Z.to_nat (length msg)) ltac:(lia)
      (ArrayReader_new msg.(buffer) msg.(bytes) msg.(length))) as Ht.
    destruct Ht as (res & r & E & _).
    { unfold valid, ArrayReader_laws, reader_ok, ArrayReader_new. cbn. rewrite u64_small; lia. }
    { unfold budget, ArrayReader_laws, reader_left, ArrayReader_new. cbn. rewrite u64_small; lia. }
    rewrite E. destruct res as [code|d].
    + destruct (Z.eqb_spec code OUT_OF_MEMORY) as [->|]; [right|left].
      * split; [by apply (memory_blamed process _ _ _ r)|done].
      * apply wp_bind. apply wp_lift with (a := (inl code, r)); [done|]. rewrite (proj2 (Z.eqb_neq _ _)) by done. apply survives_ret.
    + left. apply wp_bind. apply wp_lift with (a := (inr d, r)); [done|].
      destruct (_ <? _); [apply survives_ret|]. by apply (survives_request process d r).
Qed.

(** A dictionary whose first key has a length that is more than the allocator has. *)
Lemma oversized_aborts process msg src ds rest a : well_placed msg -> content msg = chars "d" ++ ds ++ chars ":" ++ rest -> ds <> [] ->
  Forall (fun c => is_digit c = true) ds -> process.(largest_block) < u64 (strtoul ds + 1) ->
  (List.length ds <= NUMBER_MAXLENGTH)%nat -> length msg <= Admin_MAX_REQUEST_SIZE -> handleMessage process msg src a = None.
Proof.
  intros (Hb & Hl & Hbl) Hc Hne Hd Hbig Hlen Hmax. unfold handleMessage. rewrite (proj2 (Z.ltb_ge _ _)) by done.
  set (r := ArrayReader_new msg.(buffer) msg.(bytes) msg.(length)).
  assert (u64 (msg.(bytes) + msg.(length)) = msg.(bytes) + msg.(length)) as Ee by (apply u64_small; lia).
  assert (remaining (ReaderLaws := ArrayReader_laws) r = chars "d" ++ ds ++ chars ":" ++ rest) as Er.
  { cbn. unfold reader_left, r. cbn. rewrite Ee. replace (_ - _) with msg.(length) by lia. exact Hc. }
  assert (exists r', parseDictionary process (Z.to_nat msg.(length)) r = Some (inl OUT_OF_MEMORY, r')) as [r' E].
  { unfold parseDictionary, parseDictionary_with.
    destruct (parses_char_neg (laws := ArrayReader_laws) OUT_OF_CONTENT_TO_READ 100 any r (ds ++ chars ":" ++ rest)) as (r1 & E1 & Hr1 & Er1);
      [change (reader_ok r); unfold reader_ok, r; cbn; lia|exact Er|done|].
    unfold bind at 1. rewrite E1. cbn [first_char nth Z.eqb Pos.eqb negb]. destruct ds as [|c ds]; [done|].
    apply (read_peek (ReaderLaws := ArrayReader_laws)) in Er1 as (r2 & E2 & Hr2 & Er2); [|done].
    destruct (parses_length (laws := ArrayReader_laws) NUMBER_MAXLENGTH (c :: ds) [] Hlen Hd r2 rest) as (r3 & E3 & _); [done|by rewrite Er2, <-app_assoc|done|].
    assert (c <> 101) as Hc101 by (apply Forall_inv in Hd; unfold is_digit in Hd; lia).
    exists r3. destruct (Z.to_nat msg.(length)); cbn [dict_loop]; unfold bind at 1, read_or_neg; rewrite E2; cbn [Z.ltb Z.compare first_char nth];
      rewrite (proj2 (Z.eqb_neq _ _)) by done; unfold bind at 1, parseString, bind; rewrite E3; cbn [app]; cbv zeta;
      rewrite (proj2 (Z.ltb_lt _ _)) by done; done. }
  rewrite run_bind. unfold lift. rewrite E. reflexivity.
Qed.

(** What happens to the remote control: functions are registered, clients send
    requests, other parts send messages to known clients, time passes. *)
Definition valid_request (a : Admin) (message : Message) (src : Sockaddr) (request : Message) : Prop :=
  Message_pop message a.(addrLen) = Some (src, request) /\ client_ok a src /\ well_placed request /\ 0 <= padding message /\ 0 <= length message < 2 ^ 31.

Inductive admin_step (a : Admin) : Admin -> Prop :=
| step_register name callback needs arguments a' :
    Admin_registerFunctionWithArgCount name callback needs arguments a = Some (tt, a') -> admin_step a a'
| step_receive process message src request code a' : valid_request a message src request -> receiveMessage process message a = Some (code, a') -> admin_step a a'
| step_send d txid code a' : addressed a txid -> Admin_sendMessage d txid a = Some (code, a') -> admin_step a a'
| step_expire a' : clearExpiredAddresses a = Some (tt, a') -> admin_step a a'
| step_time s ms : admin_step a (admin_at s ms a).

Definition admin_reachable (a : Admin) : Prop := exists ifaceAddrLen password s ms a0,
  8 <= ifaceAddrLen <= SEND_MESSAGE_PADDING /\ Admin_new ifaceAddrLen password s ms = Some a0 /\ rtc admin_step a0 a.

(** What a valid message does, before it is handled. *)
Lemma receive_pops process message src request a : valid_request a message src request -> admin_ok a ->
  a.(addrLen) <= padding request /\
  receiveMessage process message a = (_ ← handleMessage process request src; _ ← modify (set_inRequest 0); mret 0) (set_inRequest 1 a).
Proof.
  intros (Hpop & Hc & Hm & Hp & Hl) Ha. destruct (ok_addrLen a Ha) as [H1 H2].
  unfold receiveMessage. rewrite run_gets. cbn [id]. unfold SEND_MESSAGE_PADDING in H2. rewrite s32_small by lia.
  assert (a.(addrLen) <= length message /\ padding request = padding message + a.(addrLen)) as [Hlen Hpad].
  { unfold Message_pop, Message_shift in Hpop. rewrite (proj2 (Z.ltb_ge 0 _)) in Hpop by lia.
    destruct (Z.leb_spec (- - a.(addrLen)) (length message)); [|done]. cbn in Hpop. injection Hpop as _ <-. cbn. lia. }
  rewrite (proj2 (Z.ltb_ge _ _)) by lia. split; [lia|]. rewrite Hpop. reflexivity.
Qed.

Lemma survives_receive process message src request a : valid_request a message src request -> admin_ok a ->
  wp (receiveMessage process message) (fun code a' => code = 0 /\ same_setup a a') a \/
  (names_too_much process (content request) /\ receiveMessage process message a = None).
Proof.
  intros Hv Ha. destruct (receive_pops process message src request a Hv Ha) as [Hpad E]. destruct Hv as (_ & Hc & Hm & _).
  unfold wp at 1. rewrite E. destruct (survives_message process request src (set_inRequest 1 a) Hm) as [H|[Hw H]];
    [right; exact Hpad|exact Hc|by split; apply Ha|left|right].
  - apply wp_bind. eapply wp_mono; [exact H|]. intros x a1 Hs. apply wp_bind, wp_modify, wp_ret. split; [done|exact Hs].
  - split; [exact Hw|]. rewrite run_bind. by rewrite H.
Qed.

(** The functions of other components answer the request that they were called by. *)
Definition answers_requests : Prop := forall context args txid e, In e (answers context args txid) -> e.2 = txid.

Lemma register_ok name callback needs arguments a a' : admin_ok a ->
  Admin_registerFunctionWithArgCount name callback needs arguments a = Some (tt, a') -> admin_ok a'.
Proof.
  intros [H1 H2 H3]. unfold Admin_registerFunctionWithArgCount. destruct (register_args arguments Dict_new) as [d|] eqn:E; [|done].
  rewrite run_some. intros [= <-]. split; [done| |done]. cbn. apply Forall_app. split; [done|]. constructor; [|constructor].
  by apply (register_args_ok arguments []); [constructor|].
Qed.

Lemma ok_same a a' : same_setup a a' -> admin_ok a -> admin_ok a'.
Proof. intros [Hf Hl] [H1 H2 H3]. split; [by rewrite Hl|by rewrite Hf|done]. Qed.

Lemma survives_clear n now a : survives (clearExpiredAddresses_loop n now) a.
Proof.
  revert a. induction n as [|n IH]; intros a; cbn [clearExpiredAddresses_loop]; [apply survives_ret|].
  apply survives_bind; [apply survives_checkAddress|]. intros x a' _. apply IH.
Qed.

Lemma survives_run {A} (m : M Admin A) a x a' : survives m a -> m a = Some (x, a') -> same_setup a a'.
Proof. unfold survives, wp. intros H E. by rewrite E in H. Qed.

Lemma admin_reachable_ok a : answers_requests -> admin_reachable a -> admin_ok a.
Proof.
  intros Hans (l & password & s & ms & a0 & Hl & Hnew & Hsteps). assert (admin_ok a0) as H0.
  { unfold Admin_new in Hnew. set (a1 := {| functions := [] |}) in Hnew. assert (admin_ok a1) as H1 by (split; [exact Hl|constructor|exact Hans]).
    match type of Hnew with match ?m with _ => _ end = _ => idtac | ('(_, _) ← ?m; _) = _ => destruct m as [[[] a2]|] eqn:E; [|done] end.
    injection Hnew as <-. rewrite run_bind in E. destruct (Admin_registerFunctionWithArgCount _ _ _ _ a1) as [[[] a3]|] eqn:E1; [|done].
    eapply register_ok; [|exact E]. by eapply register_ok. }
  clear Hnew. induction Hsteps as [a|a a' a'' Hstep _ IH]; [done|]. apply IH. clear IH. destruct Hstep.
  - by eapply register_ok.
  - destruct (survives_receive process message src request a H H0) as [Hw|[_ E]]; [|congruence]. unfold wp in Hw. rewrite H1 in Hw. eapply ok_same; [apply Hw|done].
  - eapply ok_same; [|done]. by eapply survives_run; [apply survives_sendMessage|].
  - eapply ok_same; [|done]. eapply survives_run; [|exact H]. apply survives_gets, survives_clear.
  - eapply ok_same; [|exact H0]. split; reflexivity.
Qed.


(** C21: when a request proves the password, the hash is looked for and written over
    inside the message: no other byte changes. *)
Theorem authValid_stays_inside process d r msg a : well_placed msg ->
  parseDictionary process (Z.to_nat (length msg)) (ArrayReader_new msg.(buffer) msg.(bytes) msg.(length)) = Some (inr d, r) ->
  exists ok m, authValid d msg a = Some (ok, with_buffer msg m, a) /\
    forall x, x < bytes msg \/ bytes msg + length msg <= x -> m x = msg.(buffer) x.
Proof.
  intros (Hb & Hl & Hbl) E. destruct (authValid_cases process d r msg a Hb Hl Hbl E) as (ok & m & Ev & Hm & _).
  exists ok, m. split; [done|]. intros x Hx. apply Hm. unfold in_message. lia.
Qed.
End total.
