(* ===== verification/AdminSession.v ===== *)
(** * A call from the client to the function (admin/AdminClient.c, Admin.c)

    A client that knows the password asks for a cookie and makes its call: the
    function runs with the arguments that were given, and what it answers comes
    back to the client. *)
From stdpp Require Import gmap.
From S2P Require Import Prelude Memory Bits Hex Message NaCl Benc ArrayIO BencSerializer Map DHT Admin AdminClient AdminBehaviour.
Open Scope Z_scope.

(** A message as it comes from the network. *)
Definition packet (l : list Z) : Message := {| length := Z.of_nat (List.length l); padding := 0; bytes := 0; buffer := of_list l |}.

Lemma packet_content l : content (packet l) = l.
Proof. unfold content, packet. cbn. by apply read_of_list. Qed.

Lemma packet_pop l1 l2 n : n = Z.of_nat (List.length l1) ->
  exists msg, Message_pop (packet (l1 ++ l2)) n = Some (l1, msg) /\ content msg = l2 /\ length msg = Z.of_nat (List.length l2) /\
    padding msg = n /\ bytes msg = n /\ buffer msg = of_list (l1 ++ l2).
Proof.
  intros ->. unfold Message_pop, packet. cbn [buffer bytes]. rewrite shift_down by (cbn; rewrite length_app; lia). cbn [mbind option_bind].
  eexists. split.
  { do 2 f_equal. replace 0 with (Z.of_nat (List.length (@nil Z))) at 1 by done. rewrite <-(app_nil_l l1) at 1. apply (read_of_list_mid [] l1 l2); done. }
  cbn [length padding bytes buffer]. rewrite length_app. split; [|split_and!; lia || done].
  unfold content. cbn [length bytes buffer]. rewrite <-(app_nil_r (l1 ++ l2)), <-app_assoc.
  replace (Z.of_nat (List.length l1 + List.length l2) - Z.of_nat (List.length l1)) with (Z.of_nat (List.length l2)) by lia.
  apply read_of_list_mid; lia.
Qed.

(** A request is parsed, and nothing is left behind it. *)
Lemma parse_exact process m a n d : 0 <= a -> 0 <= n -> a + n < 2 ^ 64 - 2 -> n + 1 < 2 ^ 31 -> serializable (Object_DICT d) -> ints_pass process.(stale_ERANGE) (Object_DICT d) ->
  n <= process.(largest_block) ->  read m a n = encode_dict d ->
  exists r, parseDictionary process (Z.to_nat n) (ArrayReader_new m a n) = Some (inr (parsed_dict d), r) /\ n <= s32 (u32 (reader_bytesRead r)).
Proof.
  intros Ha Hn Han Hn31 Hd Hi Hm Er. set (r := ArrayReader_new m a n). assert (u64 (a + n) = a + n) as Ee by (apply u64_small; lia).
  assert (List.length (encode_dict d) = Z.to_nat n) as El by (rewrite <-Er; apply length_read).
  set (laws := ArrayReader_laws_within m a (a + n) Ha Han).
  destruct (parses_dict (laws := laws) process d (Z.to_nat n)) with (r := r) (rest := @nil Z) as (r' & E & [[Hp He] [H1 H2 H3 H4]] & Hrem).
  - apply List.Forall_forall. intros e _. apply parses_generic.
  - done.
  - done.
  - unfold room_for. lia.
  - lia.
  - split; [change (reader_ok r); unfold reader_ok, r; cbn; rewrite Ee; lia|split; unfold r; cbn; [done|done|lia|lia]].
  - rewrite app_nil_r. cbn. unfold reader_left, r. cbn. rewrite Ee. replace (a + n - a) with n by lia. exact Er.
  - done.
  - exists r'. split; [exact E|]. cbn [reader_bytesRead ArrayReader_reader]. rewrite H4.
    assert (reader_left r' <= 0) as Hle.
    { destruct (Z.leb_spec (reader_left r') 0); [done|]. cbn in Hrem. rewrite read_cons in Hrem by lia. done. }
    unfold reader_left in Hle. rewrite H2 in *. rewrite u32_small, s32_small by lia. lia.
Qed.

(** ** The hash in a request *)
Definition plain (c : Z) : Prop := c <> 0 /\ c <> 58.

Lemma hex_digit_plain d : 0 <= d < 16 -> plain (hex_digit d).
Proof.
  intros Hd. assert (negb (hex_digit d =? 0) && negb (hex_digit d =? 58) = true) as H; [|unfold plain; lia].
  apply (forall_below_spec 16 (fun d => negb (hex_digit d =? 0) && negb (hex_digit d =? 58))); [vm_compute; done|lia].
Qed.

Lemma digest_plain h : bytes_ok h -> List.length h = 32%nat -> Forall plain (hex_digest h).
Proof.
  intros Hh Hl. unfold hex_digest. pose proof (hex_encode_spec (fun _ => 0) 64 (of_list h) 32 ltac:(lia) ltac:(lia)) as H.
  destruct (Hex_encode _ 64 (of_list h) 32) as [out r]. destruct H as (_ & He & _). cbn [fst].
  apply List.Forall_nth. intros i d Hi. rewrite length_read in Hi. rewrite nth_read by done. rewrite Z.add_0_l.
  assert (forall j, is_byte (of_list h j)) as Hb by apply (of_list_ok h Hh). unfold is_byte in Hb.
  assert (Z.of_nat i = 2 * Z.of_nat (i / 2) + Z.of_nat (i mod 2)) as Ei by (pose proof (Nat.div_mod_eq i 2); lia).
  pose proof (Nat.mod_upper_bound i 2 ltac:(lia)). destruct (He (Z.of_nat (i / 2))) as [E1 E2].
  { pose proof (Nat.Div0.div_lt_upper_bound i 2 32 ltac:(lia)). lia. }
  specialize (Hb (Z.of_nat (i / 2))). destruct (i mod 2)%nat as [|[|]]; [|..].
  - replace (Z.of_nat i) with (2 * Z.of_nat (i / 2)) by lia. rewrite E1. apply hex_digit_plain. rewrite Z.shiftr_div_pow2 by lia.
    split; [apply Z.div_pos; lia|apply Z.div_lt_upper_bound; lia].
  - replace (Z.of_nat i) with (2 * Z.of_nat (i / 2) + 1) by lia. rewrite E2. apply hex_digit_plain.
    change 15 with (Z.ones 4). rewrite Z.land_ones by lia. apply Z.mod_pos_bound. lia.
  - lia.
Qed.

Lemma c_string_plain s : Forall plain s -> c_string s = s.
Proof. induction 1 as [|c s [Hc _] _ IH]; cbn [c_string]; [done|]. rewrite (proj2 (Z.eqb_neq _ _)) by done. by rewrite IH. Qed.

(** The hash is found behind its length, as it has no colon. *)
Lemma strstr_finds fuel m a pre h : read m a (Z.of_nat (List.length (pre ++ 58 :: h))) = pre ++ 58 :: h ->
  (List.length pre < List.length h)%nat -> (List.length pre + 1 < fuel)%nat -> Forall (fun c => c <> 0) pre -> Forall plain h ->
  strstr fuel m a h = Some (Some (a + Z.of_nat (List.length pre) + 1)).
Proof.
  intros Hr Hl Hf Hp Hh. revert a fuel Hr Hl Hf. induction Hp as [|c pre Hc Hp IH]; intros a fuel Hr Hl Hf;
    (destruct fuel as [|fuel]; [cbn in Hf; lia|]); cbn [strstr List.length app] in *.
  - rewrite read_cons in Hr by lia. injection Hr as Hr0 Hr. rewrite Hr0. replace (Z.of_nat (S (List.length h)) - 1) with (Z.of_nat (List.length h)) in Hr by lia.
    rewrite bool_decide_false.
    + cbn [Z.eqb]. destruct fuel as [|fuel]; [lia|]. cbn [strstr]. rewrite bool_decide_true by done. do 2 f_equal. lia.
    + intros E. destruct Hh as [|x h [_ Hx] _]; [cbn in Hl; lia|]. rewrite read_cons in E by (cbn; lia). congruence.
  - assert (m (a + Z.of_nat (S (List.length pre))) = 58) as Hcolon.
    { rewrite <-(nth_read m a (Z.of_nat (S (List.length (pre ++ 58 :: h)))) (S (List.length pre)) 0) by (rewrite length_app; cbn; lia).
      rewrite Hr. cbn [nth]. rewrite app_nth2 by lia. by rewrite Nat.sub_diag. }
    rewrite read_cons in Hr by lia. injection Hr as Hr0 Hr. rewrite Hr0, bool_decide_false.
    + rewrite (proj2 (Z.eqb_neq _ _)) by done. rewrite IH; [do 2 f_equal; lia| |lia|lia]. rewrite <-Hr at 2. f_equal. lia.
    + intros E. rewrite List.Forall_forall in Hh. destruct (Hh (m (a + Z.of_nat (S (List.length pre))))) as [_ Hn]; [|done].
      rewrite <-E. rewrite <-(nth_read m a (Z.of_nat (List.length h)) (S (List.length pre)) 0) by lia. apply nth_In. rewrite length_read. lia.
Qed.

Section session.
  Context {P : Platform} {N : NaCl} {laws : NaClLaws N} {U : AdminUsers}.
  #[local] Existing Instance sockaddr_key.

(** ** The server's answers *)
Lemma sendBenc_sends d dest a : client_ok a dest -> 8 <= a.(addrLen) <= SEND_MESSAGE_PADDING -> serializable (Object_DICT d) ->
  Z.of_nat (List.length (encode_dict d)) <= Admin_MAX_RESPONSE_SIZE ->
  exists m, sendBenc d dest a = Some (admin_code m, add_output (AdminSend m) a) /\ content m = dest ++ encode_dict d.
Proof.
  intros [Hl Hs] Ha Hd Hfit. unfold SEND_MESSAGE_PADDING, Admin_MAX_RESPONSE_SIZE in *. unfold sendBenc.
  pose proof (serializeDictionary_spec response_stack SEND_MESSAGE_PADDING Admin_MAX_RESPONSE_SIZE d ltac:(done) ltac:(done) ltac:(done) Hd) as Hw.
  destruct (serializeDictionary _ d) as [ret w]. destruct Hw as [_ Hw]. unfold Admin_MAX_RESPONSE_SIZE in Hw.
  rewrite (proj2 (Z.leb_le _ _)) in Hw by done. destruct Hw as (_ & Hn & Hr). change (writer_bytesWritten w) with (ArrayWriter_bytesWritten w).
  rewrite Hn in *. set (n := Z.of_nat (List.length (encode_dict d))) in *. unfold Admin_send. rewrite Hs, <-Hl.
  rewrite read_of_list by done.
  set (msg := {| length := _ |}). destruct (push_some msg dest) as (m & E & Hc & _).
  { cbn. rewrite u32_small, s32_small by lia. lia. } { cbn. unfold SEND_MESSAGE_PADDING. lia. }
  rewrite E. run_steps. exists m. split; [done|]. rewrite Hc. f_equal. unfold content, msg. cbn [buffer bytes length].
  rewrite u32_small, s32_small by lia. exact Hr.
Qed.

Lemma answer_in_request d client a : a.(inRequest) <> 0 -> client_ok a client -> 8 <= a.(addrLen) <= SEND_MESSAGE_PADDING ->
  serializable (Object_DICT d) -> Z.of_nat (List.length (encode_dict d)) <= Admin_MAX_RESPONSE_SIZE ->
  exists m code, Admin_sendMessage d client a = Some (code, add_output (AdminSend m) a) /\ content m = client ++ encode_dict d.
Proof.
  intros Hin Hc Ha Hd Hfit. destruct (sendBenc_sends d client a Hc Ha Hd Hfit) as (m & E & Hm). pose proof Hc as [Hl Hs].
  exists m, (admin_code m). split; [|done]. unfold Admin_sendMessage. run_steps. rewrite (proj2 (Z.ltb_ge _ _)) by lia.
  rewrite (proj2 (Z.eqb_neq _ _)) by done. run_steps. rewrite take_ge by lia. rewrite (proj2 (Z.ltb_ge _ _)) by lia. exact E.
Qed.

(** ** Requests at the server *)
Lemma padding_small n : 8 <= n <= SEND_MESSAGE_PADDING -> 8 <= n < 2 ^ 16.
Proof. unfold SEND_MESSAGE_PADDING. lia. Qed.

Definition handled (d : Dict) (request : Message) (client : Sockaddr) : M Admin Z :=
  _ ← handleRequest d request client; _ ← modify (set_inRequest 0); mret 0.

Lemma receive_request process d client a : client_ok a client -> 8 <= a.(addrLen) < 2 ^ 16 -> Admin_MAX_REQUEST_SIZE <= process.(largest_block) ->
  serializable (Object_DICT d) -> ints_pass process.(stale_ERANGE) (Object_DICT d) -> Z.of_nat (List.length (encode_dict d)) <= Admin_MAX_REQUEST_SIZE ->
  exists request, content request = encode_dict d /\ length request = Z.of_nat (List.length (encode_dict d)) /\ well_placed request /\
    receiveMessage process (packet (client ++ encode_dict d)) a = handled (parsed_dict d) request client (set_inRequest 1 a).
Proof.
  intros [Hl Hs] Ha Hm Hd Hi Hfit. unfold Admin_MAX_REQUEST_SIZE in *.
  destruct (packet_pop client (encode_dict d) a.(addrLen) ltac:(done)) as (request & Hpop & Hc & Hlen & Hpad & Hb & _).
  assert (well_placed request) as Hw by (unfold well_placed; lia).
  exists request. split; [done|]. split; [done|]. split; [done|]. unfold receiveMessage. run_steps.
  rewrite (proj2 (Z.ltb_ge _ _)) by (cbn; rewrite s32_small, length_app by lia; lia).
  rewrite Hpop. run_steps. unfold handleMessage, Admin_MAX_REQUEST_SIZE. rewrite (proj2 (Z.ltb_ge 512 (length request))) by lia.
  destruct (parse_exact process (buffer request) (bytes request) (length request) d) as (r & E & Hr); [lia|lia|lia|lia|done|done|lia|exact Hc|].
  rewrite E. run_steps. rewrite (proj2 (Z.ltb_ge _ _)) by lia. done.
Qed.

Definition cookie_reply (n : Z) : Dict := [(chars "cookie", Object_STRING (print_uint32 n))].

Lemma cookie_reply_fits n process : serializable (Object_DICT (cookie_reply n)) /\ ints_pass process.(stale_ERANGE) (Object_DICT (cookie_reply n)) /\
  Z.of_nat (List.length (encode_dict (cookie_reply n))) <= Admin_MAX_RESPONSE_SIZE.
Proof.
  assert (List.length (print_uint32 n) <= 10)%nat as Hlen by apply length_decimal. unfold cookie_reply. split; [|split].
  - apply serializable_dict. constructor; [|constructor]. split; [done|]. change (string_ok (print_uint32 n)). unfold string_ok. lia.
  - apply ints_pass_dict. repeat constructor.
  - unfold encode_dict. cbn [encode flat_map]. rewrite !length_app. pose proof (length_encode_string (print_uint32 n)).
    unfold Admin_MAX_RESPONSE_SIZE. change (List.length (encode_string (chars "cookie"))) with 8%nat. change (List.length (chars "d")) with 1%nat.
    change (List.length (chars "e")) with 1%nat. cbn [List.length]. lia.
Qed.

Lemma handle_cookie request client a : client_ok a client -> 8 <= a.(addrLen) <= SEND_MESSAGE_PADDING -> 0 <= a.(admin_seconds) < 2 ^ 32 ->
  exists m, content m = client ++ encode_dict (cookie_reply a.(admin_seconds)) /\
    handled (parsed_dict [(chars "q", Object_STRING (chars "cookie"))]) request client (set_inRequest 1 a)
    = Some (0, set_inRequest 0 (add_output (AdminSend m) (set_inRequest 1 a))).
Proof.
  intros Hc Ha Hs. pose proof Hc as [Hl Hsock]. destruct (cookie_reply_fits a.(admin_seconds) {| stale_ERANGE := false; largest_block := 0 |}) as (Hd & _ & Hfit).
  destruct (answer_in_request (cookie_reply a.(admin_seconds)) client (set_inRequest 1 a)) as (m & code & E & Hm); [done|exact Hc|exact Ha|done|done|].
  exists m. split; [exact Hm|]. unfold handled, handleRequest.
  change (Dict_getString (Some (parsed_dict _)) (Some (chars "q"))) with (Some (chars "cookie")). cbv iota zeta. run_steps.
  change (String_equals (Some (chars "cookie")) (Some (chars "cookie"))) with true. cbv iota.
  change (Dict_getString (Some (parsed_dict _)) (Some TXID)) with (@None String). cbn [default]. rewrite app_nil_r, Hsock, read_of_list by done.
  cbn [admin_seconds set_inRequest]. rewrite u32_small by lia.
  change (fst (Dict_putString Dict_new _ _)) with (cookie_reply a.(admin_seconds)). run_steps. run_by E. run_steps. done.
Qed.

(** A client's address that is longer than the room before the answer, as that
    of an IPv6 socket, stops the daemon with its first request for a cookie. *)
Theorem Admin_long_address_aborts process client a : SEND_MESSAGE_PADDING < a.(addrLen) < 2 ^ 16 -> client_ok a client ->
  Admin_MAX_REQUEST_SIZE <= process.(largest_block) ->
  receiveMessage process (packet (client ++ encode_dict [(chars "q", Object_STRING (chars "cookie"))])) a = None.
Proof.
  intros Ha Hc Hm. pose proof Hc as [Hl Hsock]. unfold SEND_MESSAGE_PADDING in Ha. set (d := [(chars "q", Object_STRING (chars "cookie"))]).
  destruct (receive_request process d client a Hc ltac:(lia) Hm) as (request & _ & _ & _ & ->);
    [apply serializable_dict; repeat constructor|apply ints_pass_dict; repeat constructor|vm_compute; discriminate|].
  unfold handled, handleRequest. change (Dict_getString (Some (parsed_dict d)) (Some (chars "q"))) with (Some (chars "cookie")). cbv iota zeta. run_steps.
  change (String_equals (Some (chars "cookie")) (Some (chars "cookie"))) with true. cbv iota.
  change (Dict_getString (Some (parsed_dict d)) (Some TXID)) with (@None String). cbn [default]. rewrite app_nil_r, Hsock, read_of_list by done.
  unfold Admin_sendMessage. run_steps. cbn [addrLen set_inRequest inRequest]. rewrite (proj2 (Z.ltb_ge _ _)) by lia. cbn [Z.eqb]. run_steps.
  rewrite take_ge by lia. unfold sendBenc. destruct (serializeDictionary _ _) as [ret w]. unfold Admin_send. rewrite Hsock, read_of_list by done.
  match goal with |- context [Message_push ?m client] => assert (Message_push m client = None) as -> end; [|done].
  unfold Message_push, Message_shift. cbn [padding]. unfold SEND_MESSAGE_PADDING.
  rewrite (proj2 (Z.ltb_lt _ _)) by lia. by rewrite (proj2 (Z.leb_gt _ _)) by lia.
Qed.

(** ** The request of a client that knows the password *)
Definition request_dict (cookie hash function : String) (args : Dict) : Dict :=
  [(chars "cookie", Object_STRING cookie); (chars "hash", Object_STRING hash); (chars "q", Object_STRING (chars "auth"));
   (chars "aq", Object_STRING function); (chars "args", Object_DICT args)].

Definition password_hash (password : String) (cookie : Z) : String := hex_digest (crypto_hash_sha256 (passAndCookie password cookie)).
Definition request_hash (password : String) (cookie : Z) (function : String) (args : Dict) : String :=
  hex_digest (crypto_hash_sha256 (encode_dict (request_dict (print_uint32 cookie) (password_hash password cookie) function args))).
Definition signed_request (password : String) (cookie : Z) (function : String) (args : Dict) : Dict :=
  request_dict (print_uint32 cookie) (request_hash password cookie function args) function args.

Lemma decimal_plain c : is_digit c = true -> plain c.
Proof. unfold is_digit, plain. lia. Qed.

Lemma leading_digits_all l : Forall (fun c => is_digit c = true) l -> leading_digits l = l.
Proof. induction 1 as [|x t Hx _ IH]; cbn [leading_digits]; [done|]. by rewrite Hx, IH. Qed.

Lemma strtoll_print n : 0 <= n < 2 ^ 32 -> strtoll (print_uint32 n) = n.
Proof.
  intros Hn. unfold print_uint32. pose proof (decimal_digits 10 n ltac:(lia)) as Hd. pose proof (number_of_decimal 10 n ltac:(lia)) as Hv.
  destruct (decimal_head 9 n ltac:(lia)) as (c & l & E & Hc). rewrite E in *. cbn [strtoll].
  rewrite (leading_digits_all _ Hd).
  unfold is_digit in Hc. unfold is_space. rewrite (proj2 (Z.eqb_neq c 32)), (proj2 (Z.eqb_neq c 45)), (proj2 (Z.eqb_neq c 43)) by lia.
  rewrite (proj2 (Z.leb_gt c 13)) by lia. rewrite andb_false_r. cbn [orb]. rewrite Hv. unfold INT64_MIN, INT64_MAX. lia.
Qed.

(** The puts of calculateAuth, in the order of the keys. *)
Lemma put_hash hash cookie function args :
  fst (Dict_putString (fst (Dict_putString [(chars "q", Object_STRING (chars "auth")); (chars "aq", Object_STRING function);
    (chars "args", Object_DICT args)] (Some (chars "hash")) (Some hash))) (Some (chars "cookie")) (Some cookie))
  = request_dict cookie hash function args.
Proof. by destruct P as [[] []]. Qed.

Lemma put_hash_again hash hash' cookie function args :
  fst (Dict_putString (request_dict cookie hash function args) (Some (chars "hash")) (Some hash')) = request_dict cookie hash' function args.
Proof. by destruct P as [[] []]. Qed.

Lemma request_dict_serializable cookie hash function args : string_ok cookie -> string_ok hash -> string_ok function ->
  serializable (Object_DICT args) -> serializable (Object_DICT (request_dict cookie hash function args)).
Proof. intros Hc Hh Hf Ha. apply serializable_dict. repeat (constructor; [split; [done|first [done|exact Ha]]|]). constructor. Qed.

Lemma encode_request cookie hash function args : encode_dict (request_dict cookie hash function args)
  = (chars "d" ++ encode_string (chars "cookie") ++ encode_string cookie ++ encode_string (chars "hash")
      ++ print_int64 (Z.of_nat (List.length hash))) ++ 58 :: hash
    ++ flat_map (fun '(k, v) => encode_string k ++ encode v) [(chars "q", Object_STRING (chars "auth"));
        (chars "aq", Object_STRING function); (chars "args", Object_DICT args)] ++ chars "e".
Proof.
  unfold encode_dict, request_dict. cbn [encode flat_map]. unfold encode_string at 4. change (chars ":") with [58]. rewrite <-!app_assoc. done.
Qed.

Lemma serialize_request_ok d m : serializable (Object_DICT d) -> Z.of_nat (List.length (encode_dict d)) <= AdminClient_MAX_MESSAGE_SIZE ->
  exists w, serialize_request d m = (0, w) /\ s32 (u32 (writer_bytesWritten w)) = Z.of_nat (List.length (encode_dict d)) /\
    read w.(w_memory) 0 (Z.of_nat (List.length (encode_dict d))) = encode_dict d.
Proof.
  intros Hd Hfit. unfold serialize_request, AdminClient_MAX_MESSAGE_SIZE in *.
  pose proof (serializeDictionary_spec m 0 1023 d ltac:(done) ltac:(done) ltac:(done) Hd) as Hw.
  destruct (serializeDictionary _ d) as [ret w]. destruct Hw as [_ Hw]. rewrite (proj2 (Z.leb_le _ _)) in Hw by done.
  destruct Hw as (-> & Hn & Hr). exists w. change (writer_bytesWritten w) with (ArrayWriter_bytesWritten w). rewrite Hn in *.
  rewrite u32_small, s32_small by lia. done.
Qed.

Lemma length_request cookie hash hash' function args : List.length hash = List.length hash' ->
  List.length (encode_dict (request_dict cookie hash function args)) = List.length (encode_dict (request_dict cookie hash' function args)).
Proof. intros E. rewrite !encode_request, !length_app. cbn [List.length]. rewrite !length_app, E. done. Qed.

Lemma calculateAuth_dict stack password cookie function args : 0 <= cookie < 2 ^ 32 -> serializable (Object_DICT args) -> string_ok function ->
  Z.of_nat (List.length (encode_dict (signed_request password cookie function args))) <= AdminClient_MAX_MESSAGE_SIZE ->
  calculateAuth stack [(chars "q", Object_STRING (chars "auth")); (chars "aq", Object_STRING function); (chars "args", Object_DICT args)]
    password (Some (print_uint32 cookie)) = (signed_request password cookie function args, 0).
Proof.
  intros Hc Ha Hf Hfit. unfold calculateAuth. rewrite strtoll_print, u32_small by lia. cbv zeta. rewrite put_hash. fold (password_hash password cookie).
  unfold signed_request in Hfit. rewrite (length_request _ _ (password_hash password cookie)) in Hfit by (unfold request_hash; by rewrite !length_digest).
  destruct (serialize_request_ok (request_dict (print_uint32 cookie) (password_hash password cookie) function args) stack) as (w & E & Hn & Hr); [|done|].
  { apply request_dict_serializable; [| |exact Hf|exact Ha]; unfold string_ok, print_uint32, password_hash; [pose proof (length_decimal 10 cookie)|rewrite length_digest]; lia. }
  rewrite E. cbn [Z.eqb negb]. rewrite Hn, Hr, put_hash_again. done.
Qed.

(** What stands before the hash has no byte that is 0. *)
Definition before_hash (cookie : String) : list Z :=
  chars "d" ++ encode_string (chars "cookie") ++ encode_string cookie ++ encode_string (chars "hash") ++ print_int64 64.

Lemma before_hash_nonzero cookie : 0 <= cookie < 2 ^ 32 -> Forall (fun c => c <> 0) (before_hash (print_uint32 cookie)).
Proof.
  intros Hc. unfold before_hash. pose proof (decimal_digits 10 cookie ltac:(lia)) as Hd.
  assert (Forall (fun c => c <> 0) (print_uint32 cookie)) as Hp.
  { eapply List.Forall_impl; [|exact Hd]. intros c H. by apply decimal_plain. }
  assert (Forall (fun c => c <> 0) (print_int64 (Z.of_nat (List.length (print_uint32 cookie))))) as Hn.
  { unfold print_int64. destruct (Z.ltb_spec (Z.of_nat (List.length (print_uint32 cookie))) 0); [lia|].
    eapply List.Forall_impl; [|apply decimal_digits; lia]. intros c H1. by apply decimal_plain. }
  unfold encode_string at 2. rewrite !Forall_app. repeat split; try assumption; vm_compute; repeat constructor; discriminate.
Qed.

Lemma length_before_hash cookie : (List.length (before_hash (print_uint32 cookie)) <= 60)%nat.
Proof.
  unfold before_hash. rewrite !length_app. pose proof (length_encode_string (print_uint32 cookie)).
  assert (List.length (print_uint32 cookie) <= 10)%nat by apply length_decimal.
  change (List.length (chars "d")) with 1%nat. change (List.length (encode_string (chars "cookie"))) with 8%nat.
  change (List.length (encode_string (chars "hash"))) with 6%nat. change (List.length (print_int64 64)) with 2%nat. lia.
Qed.

Lemma password_hash_plain password cookie : Forall plain (password_hash password cookie) /\ List.length (password_hash password cookie) = 64%nat.
Proof. split; [apply digest_plain; [apply sha256_ok|apply sha256_length]|apply length_digest]. Qed.
Lemma request_hash_plain password cookie function args :
  Forall plain (request_hash password cookie function args) /\ List.length (request_hash password cookie function args) = 64%nat.
Proof. split; [apply digest_plain; [apply sha256_ok|apply sha256_length]|apply length_digest]. Qed.

Definition after_hash (function : String) (args : Dict) : list Z :=
  flat_map (fun '(k, v) => encode_string k ++ encode v) [(chars "q", Object_STRING (chars "auth"));
    (chars "aq", Object_STRING function); (chars "args", Object_DICT args)] ++ chars "e".

Lemma encode_with_hash cookie hash function args : List.length hash = 64%nat ->
  encode_dict (request_dict cookie hash function args) = (before_hash cookie ++ chars ":") ++ hash ++ after_hash function args.
Proof.
  intros El. rewrite encode_request, El. unfold before_hash, after_hash. change (chars ":") with [58]. rewrite <-!app_assoc. done.
Qed.

Lemma authValid_signed password cookie function args request a : well_placed request ->
  content request = encode_dict (signed_request password cookie function args) -> a.(admin_password) = Some password ->
  0 <= cookie < 2 ^ 32 -> cookie <= a.(admin_seconds) <= cookie + 20 -> 20 <= a.(admin_seconds) < 2 ^ 32 ->
  exists m, authValid (parsed_dict (signed_request password cookie function args)) request a = Some (true, with_buffer request m, a).
Proof.
  intros (Hb & Hl & Hbl) Hc Hpw Hck Hage Hs. unfold authValid. run_steps.
  change (Dict_getString (Some (parsed_dict (signed_request password cookie function args))) (Some (chars "cookie")))
    with (Some (print_uint32 cookie)).
  change (Dict_getInt (Some (parsed_dict (signed_request password cookie function args))) (Some (chars "cookie"))) with (@None Z).
  change (Dict_getString (Some (parsed_dict (signed_request password cookie function args))) (Some (chars "hash")))
    with (Some (request_hash password cookie function args)).
  cbv iota. rewrite strtoll_print, u32_small by lia.
  replace (if cookie =? 0 then 0 else cookie) with cookie by (destruct (Z.eqb_spec cookie 0); lia).
  destruct (request_hash_plain password cookie function args) as [Hp Hlen]. destruct (password_hash_plain password cookie) as [Hpp Hplen].
  rewrite Hlen. rewrite (proj2 (Z.ltb_ge _ _)) by lia. rewrite u64_small by lia. rewrite (proj2 (Z.ltb_ge _ _)) by lia. cbn [orb negb Z.eqb].
  change (negb (Z.of_nat 64 =? 64)) with false. cbv iota. rewrite (c_string_plain (request_hash _ _ _ _)) by done.
  pose proof (length_before_hash cookie) as Hbh. unfold content, signed_request in Hc. rewrite encode_with_hash in Hc by done.
  pose proof (f_equal (@List.length Z) Hc) as Hcl. rewrite length_read, !length_app, Hlen in Hcl. change (List.length (chars ":")) with 1%nat in Hcl.
  set (pre := before_hash (print_uint32 cookie)) in *. set (h := request_hash password cookie function args) in *.
  rewrite (strstr_finds _ _ _ pre h); [| |lia|lia|by apply before_hash_nonzero|done].
  2:{ rewrite <-app_assoc, (app_assoc (chars ":")) in Hc. rewrite (app_assoc pre) in Hc. rewrite <-(Z.add_0_r (bytes request)).
      apply (read_field _ _ _ [] _ (after_hash function args) 0 _ Hc); done. }
  run_steps. rewrite Hpw. run_steps. set (o := Z.of_nat (List.length (pre ++ chars ":"))).
  replace (bytes request + Z.of_nat (List.length pre) + 1) with (bytes request + o)
    by (unfold o; rewrite length_app; change (List.length (chars ":")) with 1%nat; lia).
  change (hex_digest (crypto_hash_sha256 (passAndCookie password cookie))) with (password_hash password cookie).
  rewrite (read_write_field _ _ _ _ _ _ (password_hash password cookie) o Hc eq_refl) by congruence.
  unfold pre at 1. rewrite <-encode_with_hash by done. change (hex_digest (crypto_hash_sha256 (encode_dict (request_dict _ _ _ _)))) with h.
  rewrite read_write_same by (by rewrite Hlen). rewrite (proj2 (memcmp_0 h h eq_refl)) by done. by eexists.
Qed.

(** ** The call of the function *)

(** What else happened: nothing that a later request depends on. *)
Record served (a a' : Admin) (new : list AdminOutput) : Prop := {
  served_functions : a'.(functions) = a.(functions);
  served_password : a'.(admin_password) = a.(admin_password);
  served_addrLen : a'.(addrLen) = a.(addrLen);
  served_seconds : a'.(admin_seconds) = a.(admin_seconds);
  served_outputs : a'.(admin_outputs) = a.(admin_outputs) ++ new
}.

Definition named (name : String) (f : Function) : Prop := f.(fu_name) = name.

Lemma other_functions fs query authed args txid a : Forall (fun f => ~ named query f) fs ->
  functions_loop fs (Some query) authed args txid a = Some (false, a).
Proof.
  induction 1 as [|f fs Hf _ IH]; cbn [functions_loop]; [done|].
  assert (String_equals (Some query) (Some f.(fu_name)) = false) as ->; [|exact IH].
  destruct (String_equals _ _) eqn:E; [|done]. apply (proj1 (String_equals_spec _ _)) in E. by destruct Hf.
Qed.

Lemma matching_function fs1 f fs2 args txid a a' : Forall (fun g => ~ named f.(fu_name) g) (fs1 ++ fs2) ->
  checkArgs_loop f.(fu_args) args = Some None -> call_function f args txid a = Some (tt, a') ->
  functions_loop (fs1 ++ f :: fs2) (Some f.(fu_name)) true args txid a = Some (true, a').
Proof.
  intros [H1 H2]%Forall_app Hargs E. induction H1 as [|g fs1 Hg _ IH]; cbn [app functions_loop].
  - rewrite (proj2 (String_equals_spec _ _)) by done. cbn [andb orb]. unfold checkArgs. rewrite Hargs.
    rewrite run_assoc, run_some, run_ret. cbv iota. run_by E.
    by rewrite (run_ok _ _ _ _ _ (other_functions fs2 _ true args txid a' H2)).
  - assert (String_equals (Some f.(fu_name)) (Some g.(fu_name)) = false) as ->; [|exact IH].
    destruct (String_equals _ _) eqn:E1; [|done]. apply (proj1 (String_equals_spec _ _)) in E1. by destruct Hg.
Qed.

(** The function answers the request once. *)
Lemma registered_answers f c args reply client a : f.(fu_call) = Registered c -> answers c args client = [(reply, client)] ->
  a.(inRequest) <> 0 -> client_ok a client -> 8 <= a.(addrLen) <= SEND_MESSAGE_PADDING -> serializable (Object_DICT reply) ->
  Z.of_nat (List.length (encode_dict reply)) <= Admin_MAX_RESPONSE_SIZE ->
  exists m, content m = client ++ encode_dict reply /\
    call_function f args client a = Some (tt, add_output (AdminSend m) (add_output (AdminCall c args client) a)).
Proof.
  intros Hf Hans Hin Hc Ha Hr Hfit.
  destruct (answer_in_request reply client (add_output (AdminCall c args client) a)) as (m & code & E & Hm); [exact Hin|exact Hc|exact Ha|done|done|].
  exists m. split; [exact Hm|]. unfold call_function. rewrite Hf, Hans. cbn [answer_all]. run_steps. run_by E. done.
Qed.

(** A client that proved the password is known from then on. *)
Lemma known_client src a : exists clients,
  (if 0 <=? Map_indexForKey src a.(admin_map) then
     _ ← modify (set_map (set_value a.(admin_map) (Map_indexForKey src a.(admin_map)) a.(admin_milliseconds))); modify (set_asyncEnabled 1)
   else _ ← modify (set_map (fst (Map_put src a.(admin_milliseconds) a.(admin_map)))); modify (set_asyncEnabled 1)) a
  = Some (tt, set_asyncEnabled 1 (set_map clients a)).
Proof. destruct (0 <=? _); eexists; run_steps; done. Qed.

Lemma handle_call password cookie function args f c reply fs1 fs2 client request a :
  client_ok a client -> 8 <= a.(addrLen) <= SEND_MESSAGE_PADDING -> well_placed request ->
  content request = encode_dict (signed_request password cookie function args) -> a.(admin_password) = Some password ->
  0 <= cookie < 2 ^ 32 -> cookie <= a.(admin_seconds) <= cookie + 20 -> 20 <= a.(admin_seconds) < 2 ^ 32 ->
  a.(functions) = fs1 ++ f :: fs2 -> named function f -> Forall (fun g => ~ named function g) (fs1 ++ fs2) ->
  f.(fu_call) = Registered c -> checkArgs_loop f.(fu_args) (Some (parsed_dict args)) = Some None ->
  answers c (Some (parsed_dict args)) client = [(reply, client)] -> serializable (Object_DICT reply) ->
  Z.of_nat (List.length (encode_dict reply)) <= Admin_MAX_RESPONSE_SIZE ->
  exists m a', content m = client ++ encode_dict reply /\
    handled (parsed_dict (signed_request password cookie function args)) request client (set_inRequest 1 a) = Some (0, a') /\
    served a a' [AdminCall c (Some (parsed_dict args)) client; AdminSend m] /\ a'.(asyncEnabled) = 1.
Proof.
  intros Hc Ha Hw Hreq Hpw Hck Hage Hs Hfs Hname Hother Hcall Hargs Hans Hr Hfit. unfold named in Hname. subst function.
  pose proof Hc as [Hl Hsock].
  destruct (authValid_signed password cookie f.(fu_name) args request (set_inRequest 1 a) Hw Hreq Hpw Hck Hage Hs) as (m0 & Ev).
  unfold handled, handleRequest.
  change (Dict_getString (Some (parsed_dict (signed_request password cookie (fu_name f) args))) (Some (chars "q"))) with (Some (chars "auth")).
  change (Dict_getString (Some (parsed_dict (signed_request password cookie (fu_name f) args))) (Some TXID)) with (@None String).
  change (Dict_getString (Some (parsed_dict (signed_request password cookie (fu_name f) args))) (Some (chars "aq"))) with (Some f.(fu_name)).
  change (Dict_getDict (Some (parsed_dict (signed_request password cookie (fu_name f) args))) (Some (chars "args"))) with (Some (parsed_dict args)).
  cbv iota zeta. cbn [default]. rewrite app_nil_r, Hsock, read_of_list by done. run_steps.
  change (String_equals (Some (chars "auth")) (Some (chars "cookie"))) with false.
  change (String_equals (Some (chars "auth")) (Some (chars "auth"))) with true. cbv iota. rewrite run_assoc. rewrite run_assoc. run_by Ev. run_steps.
  cbn [negb]. rewrite run_assoc. destruct (known_client client (set_inRequest 1 a)) as [clients Ek]. run_by Ek.
  set (a1 := set_asyncEnabled 1 (set_map clients (set_inRequest 1 a))).
  destruct (registered_answers f c (Some (parsed_dict args)) reply client a1 Hcall Hans) as (m & Hm & E); [done|exact Hc|exact Ha|done|done|].
  change (functions (set_inRequest 1 a)) with a.(functions). rewrite Hfs, run_assoc.
  rewrite (run_ok _ _ _ _ _ (matching_function fs1 f fs2 _ client a1 _ Hother Hargs E)). cbv beta iota. run_steps.
  exists m. eexists. split; [exact Hm|]. split; [done|]. split; [|done]. split; try done. cbn. by rewrite <-app_assoc.
Qed.

(** ** The client *)
Definition target_ok (ctx : AdminClient) : Prop :=
  Sockaddr_addrLen ctx.(targetAddr) = Z.of_nat (List.length ctx.(targetAddr)) /\
  8 <= Z.of_nat (List.length ctx.(targetAddr)) <= AdminClient_Result_PADDING_SIZE.

(** An answer from the server. *)
Definition answered (res : AdminClient_Result) (reply : Dict) : Prop :=
  res.(err) = AdminClient_Error_NONE /\ res.(responseDict) = Some (parsed_dict reply).

Lemma client_receives process ctx reply res : target_ok ctx -> serializable (Object_DICT reply) -> ints_pass process.(stale_ERANGE) (Object_DICT reply) ->
  Z.of_nat (List.length (encode_dict reply)) <= Admin_MAX_RESPONSE_SIZE -> Admin_MAX_RESPONSE_SIZE <= process.(largest_block) ->
  exists res', AdminClient_receiveMessage process ctx (packet (ctx.(targetAddr) ++ encode_dict reply)) res = Some (Some res') /\ answered res' reply.
Proof.
  intros [Hs Hn] Hd Hi Hfit Hm. unfold AdminClient_Result_PADDING_SIZE, Admin_MAX_RESPONSE_SIZE in *. unfold AdminClient_receiveMessage.
  destruct (packet_pop ctx.(targetAddr) (encode_dict reply) _ Hs) as (msg & -> & Hc & Hl & _ & Hb & _). cbn [mbind option_bind].
  rewrite Hs, read_of_list by done. rewrite (proj2 (memcmp_0 ctx.(targetAddr) _ eq_refl)) by done. cbn [negb Z.eqb].
  destruct (parse_exact process (buffer msg) (bytes msg) (length msg) reply) as (r & -> & _); [lia|lia|lia|lia|done|done|lia|exact Hc|].
  cbn [mbind option_bind]. eexists. split; [done|]. split; done.
Qed.

Lemma sendRequest_answered {W} process (exchange : Message -> M W (list Message)) ctx w res d reply rest a a' : target_ok ctx ->
  s32 (u32 (writer_bytesWritten w)) = Z.of_nat (List.length (encode_dict d)) ->
  read w.(w_memory) 0 (Z.of_nat (List.length (encode_dict d))) = encode_dict d ->
  (forall m, content m = ctx.(targetAddr) ++ encode_dict d ->
    exchange m a = Some (packet (ctx.(targetAddr) ++ encode_dict reply) :: rest, a')) ->
  serializable (Object_DICT reply) -> ints_pass process.(stale_ERANGE) (Object_DICT reply) ->
  Z.of_nat (List.length (encode_dict reply)) <= Admin_MAX_RESPONSE_SIZE -> Admin_MAX_RESPONSE_SIZE <= process.(largest_block) ->
  exists res', sendRequest process exchange ctx w res a = Some (res', a') /\ answered res' reply.
Proof.
  intros Ht Hn Hw Hex Hd Hi Hfit Hm. pose proof Ht as [Hs Hl]. unfold sendRequest, AdminClient_Result_PADDING_SIZE in *. rewrite Hs, read_of_list by done.
  set (msg := {| length := _ |}). destruct (push_some msg ctx.(targetAddr)) as (m & -> & Hc & _).
  { unfold msg. cbn [length]. lia. } { unfold msg. cbn [padding]. unfold AdminClient_Result_PADDING_SIZE. lia. }
  rewrite run_some. rewrite (run_ok _ _ _ _ _ (Hex m ltac:(rewrite Hc; f_equal; unfold content, msg; cbn [buffer bytes length]; rewrite Hn; exact Hw))).
  cbv beta. cbn [beginLoop]. destruct (client_receives process ctx reply (set_messageBytes (buffer m) res) Ht Hd Hi Hfit Hm) as (res' & -> & Ha).
  exists res'. split; [done|exact Ha].
Qed.

(** ** Both of them *)
Section network.
  Variables (process : Process) (delay : Z) (client : Sockaddr) (ctx : AdminClient) (stack : mem).

(** What the server sends, as it comes in at the client: from the address that the
    client sent to. *)
Definition replies (n : Z) (outputs : list AdminOutput) : list Message :=
  omap (fun o => match o with
                 | AdminSend m => Some (packet (ctx.(targetAddr) ++ drop (Z.to_nat n) (content m)))
                 | AdminCall _ _ _ => None
                 end) outputs.

(** A message takes [delay] seconds to the server, and comes in from the client's address. *)
Definition server_exchange (m : Message) : M Admin (list Message) :=
  _ ← modify (fun a => admin_at (a.(admin_seconds) + delay) (a.(admin_milliseconds) + 1000 * delay) a);
  a ← gets id;
  _ ← receiveMessage process (packet (client ++ drop (List.length ctx.(targetAddr)) (content m)));
  a' ← gets id;
  mret (replies a.(addrLen) (drop (List.length a.(admin_outputs)) a'.(admin_outputs))).

Definition delayed (a : Admin) : Admin := admin_at (a.(admin_seconds) + delay) (a.(admin_milliseconds) + 1000 * delay) a.

Lemma exchange_served d m a a' new : content m = ctx.(targetAddr) ++ encode_dict d ->
  receiveMessage process (packet (client ++ encode_dict d)) (delayed a) = Some (0, a') -> served (delayed a) a' new ->
  server_exchange m a = Some (replies a.(addrLen) new, a').
Proof.
  intros Hm E [_ _ _ _ Ho]. unfold server_exchange. rewrite Hm, drop_app_length. rewrite run_modify. fold (delayed a). rewrite run_gets. cbv beta delta [id].
  run_by E. rewrite run_gets. cbv beta delta [id]. rewrite Ho. rewrite drop_app_length. done.
Qed.

Lemma replies_send n m new reply : content m = client ++ encode_dict reply -> n = Z.of_nat (List.length client) ->
  replies n (AdminSend m :: new) = packet (ctx.(targetAddr) ++ encode_dict reply) :: replies n new.
Proof. intros Hm ->. unfold replies. rewrite Nat2Z.id. cbn [omap list_omap]. rewrite Hm, drop_app_length. done. Qed.

(** The cookie arrives. *)
Lemma getCookie_answered a res : target_ok ctx -> client_ok a client -> 8 <= a.(addrLen) <= SEND_MESSAGE_PADDING ->
  0 <= a.(admin_seconds) + delay < 2 ^ 32 -> Admin_MAX_RESPONSE_SIZE <= process.(largest_block) ->
  exists m res' a', getCookie process server_exchange ctx res a = Some (res', a') /\ served (delayed a) a' [AdminSend m] /\
    answered res' (cookie_reply (a.(admin_seconds) + delay)).
Proof.
  intros Ht Hc Ha Hs Hm0. assert (Admin_MAX_REQUEST_SIZE <= process.(largest_block)) as Hm1 by (unfold Admin_MAX_REQUEST_SIZE, Admin_MAX_RESPONSE_SIZE in *; lia). unfold getCookie. set (d := [(chars "q", Object_STRING (chars "cookie"))]).
  assert (serializable (Object_DICT d)) as Hd by (apply serializable_dict; repeat constructor).
  destruct (serialize_request_ok d (messageBytes res) Hd) as (w & E & Hn & Hw); [vm_compute; discriminate|]. rewrite E. cbn [Z.eqb negb].
  destruct (receive_request process d client (delayed a) Hc (padding_small _ Ha) Hm1 Hd) as (request & _ & _ & _ & Er); [by apply ints_pass_dict; repeat constructor|vm_compute; discriminate|].
  destruct (handle_cookie request client (delayed a) Hc Ha Hs) as (m & Hm & Eh). fold d in Eh. rewrite Eh in Er.
  set (a' := set_inRequest 0 _) in *. assert (served (delayed a) a' [AdminSend m]) as Hserved by (split; done).
  destruct (cookie_reply_fits (a.(admin_seconds) + delay) process) as (Hsd & Hsi & Hfit).
  destruct (sendRequest_answered process server_exchange ctx w res d (cookie_reply (a.(admin_seconds) + delay)) [] a a' Ht Hn Hw) as (res' & Eres & Hans); try assumption.
  - intros msg Hmsg. rewrite (exchange_served d msg a a' [AdminSend m] Hmsg Er Hserved). rewrite (replies_send _ m [] _ Hm); [done|]. destruct Hc as [<- _]. done.
  - exists m, res', a'. split; [exact Eres|]. split; [exact Hserved|exact Hans].
Qed.

(** What a client needs to call the function [f]. *)
Record callable (a : Admin) (f : Function) (c : Z) (args reply : Dict) : Prop := {
  callable_memory : Admin_MAX_RESPONSE_SIZE <= process.(largest_block);
  callable_addrLen : 8 <= a.(addrLen) <= SEND_MESSAGE_PADDING;
  callable_client : client_ok a client;
  callable_target : target_ok ctx;
  callable_password : a.(admin_password) = Some ctx.(client_password);
  callable_delay : 0 <= delay <= 20;
  callable_time : 20 <= a.(admin_seconds) /\ a.(admin_seconds) + 2 * delay < 2 ^ 32;
  callable_function : exists fs1 fs2, a.(functions) = fs1 ++ f :: fs2 /\ Forall (fun g => ~ named f.(fu_name) g) (fs1 ++ fs2);
  callable_code : f.(fu_call) = Registered c;
  callable_args : checkArgs_loop f.(fu_args) (Some (parsed_dict args)) = Some None;
  callable_answer : answers c (Some (parsed_dict args)) client = [(reply, client)];
  callable_reply : serializable (Object_DICT reply) /\ ints_pass process.(stale_ERANGE) (Object_DICT reply) /\
    Z.of_nat (List.length (encode_dict reply)) <= Admin_MAX_RESPONSE_SIZE;
  callable_request : string_ok f.(fu_name) /\ serializable (Object_DICT args) /\ ints_pass process.(stale_ERANGE) (Object_DICT args) /\
    Z.of_nat (List.length (encode_dict (signed_request ctx.(client_password) (a.(admin_seconds) + delay) f.(fu_name) args))) <= Admin_MAX_REQUEST_SIZE
}.

Lemma signed_request_ok password cookie function args : 0 <= cookie < 2 ^ 32 -> string_ok function -> serializable (Object_DICT args) ->
  ints_pass process.(stale_ERANGE) (Object_DICT args) ->
  serializable (Object_DICT (signed_request password cookie function args)) /\ ints_pass process.(stale_ERANGE) (Object_DICT (signed_request password cookie function args)).
Proof.
  intros Hc Hf Ha Hi. split.
  - apply request_dict_serializable; [| |exact Hf|exact Ha]; unfold string_ok, print_uint32, request_hash;
      [pose proof (length_decimal 10 cookie)|rewrite length_digest]; lia.
  - apply ints_pass_dict. repeat (constructor; [first [done|exact Hi]|]). constructor.
Qed.

Lemma unsigned_request_ok password cookie function args : string_ok function -> serializable (Object_DICT args) ->
  let d := [(chars "q", Object_STRING (chars "auth")); (chars "aq", Object_STRING function); (chars "args", Object_DICT args)] in
  serializable (Object_DICT d) /\ (List.length (encode_dict d) <= List.length (encode_dict (signed_request password cookie function args)))%nat.
Proof.
  intros Hf Ha. split.
  - apply serializable_dict. repeat (constructor; [split; [done|first [done|exact Ha]]|]). constructor.
  - unfold signed_request. rewrite encode_with_hash by apply length_digest. rewrite !length_app. unfold after_hash, before_hash.
    change (encode_dict ?d) with (chars "d" ++ flat_map (fun '(k, v) => encode_string k ++ encode v) d ++ chars "e"). rewrite !length_app. lia.
Qed.

Lemma known_stays a a' new : served (delayed a) a' new -> client_ok a client -> client_ok a' client.
Proof. intros [_ _ H _ _] Hc. unfold client_ok in *. by rewrite H. Qed.

(** The second message of a call. *)
Lemma doCall_sends a f c args reply w res : callable a f c args reply ->
  s32 (u32 (writer_bytesWritten w)) = Z.of_nat (List.length (encode_dict (signed_request ctx.(client_password) (a.(admin_seconds) + delay) f.(fu_name) args))) ->
  read w.(w_memory) 0 (Z.of_nat (List.length (encode_dict (signed_request ctx.(client_password) (a.(admin_seconds) + delay) f.(fu_name) args))))
    = encode_dict (signed_request ctx.(client_password) (a.(admin_seconds) + delay) f.(fu_name) args) ->
  forall m0 a1, served (delayed a) a1 [AdminSend m0] ->
  exists m res' a', sendRequest process server_exchange ctx w res a1 = Some (res', a') /\
    served (delayed a1) a' [AdminCall c (Some (parsed_dict args)) client; AdminSend m] /\ answered res' reply.
Proof.
  intros [Hm0 Ha Hc Ht Hpw Hd Ht2 (fs1 & fs2 & Hfs & Hother) Hcode Hargs Hans (Hr1 & Hr2 & Hr3) (Hf & Ha1 & Ha2 & Hfit)] Hn Hw m0 a1 Hserved.
  assert (Admin_MAX_REQUEST_SIZE <= process.(largest_block)) as Hm1 by (unfold Admin_MAX_REQUEST_SIZE, Admin_MAX_RESPONSE_SIZE in *; lia).
  pose proof Hserved as [F1 P1 L1 S1 _]. cbn [delayed functions admin_password addrLen admin_seconds admin_at] in F1, P1, L1, S1.
  set (cookie := a.(admin_seconds) + delay) in *. set (d := signed_request ctx.(client_password) cookie f.(fu_name) args) in *.
  destruct (signed_request_ok ctx.(client_password) cookie f.(fu_name) args ltac:(unfold cookie; lia) Hf Ha1 Ha2) as [Hd1 Hd2]. fold d in Hd1, Hd2.
  assert (client_ok (delayed a1) client) as Hc1 by exact (known_stays a a1 _ Hserved Hc).
  assert (8 <= (delayed a1).(addrLen) <= SEND_MESSAGE_PADDING) as Ha3 by (cbn; congruence).
  destruct (receive_request process d client (delayed a1) Hc1 (padding_small _ Ha3) Hm1 Hd1 Hd2 Hfit) as (request & Hreq & _ & Hwell & Er).
  destruct (handle_call ctx.(client_password) cookie f.(fu_name) args f c reply fs1 fs2 client request (delayed a1)) as (m & a' & Hm & Eh & Hs & _); try assumption.
  - cbn. congruence.
  - unfold cookie. lia.
  - cbn. rewrite S1. unfold cookie. lia.
  - cbn. rewrite S1. unfold cookie. lia.
  - cbn. congruence.
  - done.
  - fold d in Eh. rewrite Eh in Er.
    destruct (sendRequest_answered process server_exchange ctx w res d reply [] a1 a' Ht Hn Hw) as (res' & Eres & Hres); try assumption.
    + intros msg Hmsg. rewrite (exchange_served d msg a1 a' _ Hmsg Er Hs).
      change (replies ?n (AdminCall _ _ _ :: ?l)) with (replies n l). rewrite (replies_send _ m [] reply Hm); [done|]. symmetry. apply Hc1.
    + exists m, res', a'. done.
Qed.

(** C18: a client that knows the password calls a function of the server: it gets a
    cookie, sends the request with its hash, the function runs once, with the
    arguments the client gave, and what it answers is what the call returns. *)
Theorem AdminClient_call_reaches_function a f c args reply : callable a f c (default [] args) reply ->
  exists cookie_message answer res a',
    AdminClient_rpcCall process stack server_exchange ctx f.(fu_name) args a = Some (res, a') /\
    res.(err) = AdminClient_Error_NONE /\ res.(responseDict) = Some (parsed_dict reply) /\
    a'.(admin_outputs) = a.(admin_outputs) ++
      [AdminSend cookie_message; AdminCall c (Some (parsed_dict (default [] args))) client; AdminSend answer].
Proof.
  intros H. pose proof H as [Hm0 Ha Hc Ht Hpw Hd Ht2 _ _ _ _ _ (Hf & Ha1 & Ha2 & Hfit)]. set (args' := default [] args) in *.
  unfold AdminClient_rpcCall, doCall. fold args'. set (res0 := {| err := _ |}).
  destruct (getCookie_answered a res0 Ht Hc Ha ltac:(lia) Hm0) as (m0 & res1 & a1 & E1 & Hs1 & [He1 Hr1]). run_by E1. rewrite He1. cbv iota.
  rewrite Hr1. set (cookie := a.(admin_seconds) + delay) in *. change (Dict_getString (Some (parsed_dict (cookie_reply cookie))) (Some (chars "cookie"))) with (Some (print_uint32 cookie)).
  cbv iota zeta. destruct (unsigned_request_ok ctx.(client_password) cookie f.(fu_name) args' Hf Ha1) as [Hu Hul].
  unfold Admin_MAX_REQUEST_SIZE in Hfit. destruct (serialize_request_ok _ (messageBytes res1) Hu) as (w1 & Ew1 & _ & _); [unfold AdminClient_MAX_MESSAGE_SIZE; lia|].
  rewrite Ew1. cbn [Z.eqb negb]. rewrite calculateAuth_dict by (first [assumption|unfold cookie; lia|unfold AdminClient_MAX_MESSAGE_SIZE; lia]).
  destruct (signed_request_ok ctx.(client_password) cookie f.(fu_name) args' ltac:(unfold cookie; lia) Hf Ha1 Ha2) as [Hsd _].
  destruct (serialize_request_ok _ (w_memory w1) Hsd) as (w2 & Ew2 & Hn & Hw); [unfold AdminClient_MAX_MESSAGE_SIZE; lia|]. rewrite Ew2. cbn [Z.eqb negb].
  destruct (doCall_sends a f c args' reply w2 res1 H Hn Hw m0 a1 Hs1) as (m & res' & a' & E2 & Hs2 & [He2 Hr2]).
  exists m0, m, res', a'. split; [exact E2|]. split; [exact He2|]. split; [exact Hr2|].
  rewrite (served_outputs _ _ _ Hs2). cbn [delayed admin_outputs admin_at]. rewrite (served_outputs _ _ _ Hs1). cbn [delayed admin_outputs admin_at].
  by rewrite <-app_assoc.
Qed.
End network.
End session.
