(* ===== verification/AdminExamples.v ===== *)
(** * The remote control: examples (admin/Admin.c, AdminClient.c)

    A daemon with one function that needs the password, and a client that calls
    it: the inputs at which the theorems are applied. *)
From stdpp Require Import gmap.
From S2P Require Import Prelude Memory Bits Hex Message NaCl Benc ArrayIO BencSerializer Map DHT Admin AdminClient AdminBehaviour AdminSession.
Open Scope Z_scope.

#[local] Existing Instance x86.

Definition demo_reply : Dict := [(chars "nodes", Object_INTEGER 3)].

(** Whatever runs answers its request with [demo_reply]. *)
#[local] Instance demo_users : AdminUsers := {|
  admin_code _ := 0; answers _ _ txid := [(demo_reply, txid)]; response_stack := fun _ => 0
|}.

(** Addresses of sockets: the length, the family, a port and an address. *)
Definition demo_sockaddr (n : nat) (port : Z) : Sockaddr := store 8 (Z.of_nat n + 8) ++ take n ([2; 0; port; 1; 127; 0; 0; 1] ++ repeat 0 64).
Definition demo_user : Sockaddr := demo_sockaddr 16 40.
Definition demo_target : Sockaddr := demo_sockaddr 16 43.
Definition demo_new (n : Z) : Admin :=
  default {| functions := []; admin_password := None; admin_map := Map_new; inRequest := 0; asyncEnabled := 0; addrLen := 0;
             admin_seconds := 0; admin_milliseconds := 0; admin_outputs := [] |} (Admin_new n (Some (chars "secret")) 1000 1000000).

(** The function 7 wants an integer and a string. *)
Definition demo_arguments : list Admin_FunctionArg :=
  [{| arg_name := chars "page"; arg_type := INTEGER; arg_required := true |};
   {| arg_name := chars "format"; arg_type := STRING; arg_required := false |}].
Definition demo_register : M Admin unit := Admin_registerFunctionWithArgCount (chars "NodeStore_dump") (Registered 7) true demo_arguments.
Definition demo_after {A} (f : M Admin A) (a : Admin) : Admin := match f a with Some (_, a') => a' | None => a end.
Definition demo_admin : Admin := demo_after demo_register (demo_new 24).
Definition demo_args : Dict := [(chars "page", Object_INTEGER 0)].
Definition demo_request : list Z := encode_dict (signed_request (chars "secret") 995 (chars "NodeStore_dump") demo_args).

Lemma admin_demo_reachable : admin_reachable demo_admin.
Proof.
  exists 24, (Some (chars "secret")), 1000, 1000000, (demo_new 24). split; [unfold SEND_MESSAGE_PADDING; lia|]. split; [vm_compute; reflexivity|].
  apply rtc_once. apply (step_register (demo_new 24) (chars "NodeStore_dump") (Registered 7) true demo_arguments demo_admin).
  vm_compute. reflexivity.
Qed.

Lemma demo_answers : answers_requests.
Proof. intros context args txid e [<-|[]]. done. Qed.

Lemma admin_demo_popped l : exists msg, Message_pop (packet (demo_user ++ l)) 24 = Some (demo_user, msg) /\ content msg = l /\
  length msg = Z.of_nat (List.length l) /\ padding msg = 24 /\ bytes msg = 24.
Proof.
  destruct (packet_pop demo_user l 24) as (msg & E & Hc & Hl & Hp & Hb & _); [vm_compute; reflexivity|]. by exists msg.
Qed.

Lemma demo_request_valid l : (List.length l < 1000)%nat -> exists request, content request = l /\ length request = Z.of_nat (List.length l) /\
  valid_request demo_admin (packet (demo_user ++ l)) demo_user request.
Proof.
  intros Hlen. destruct (admin_demo_popped l) as (msg & E & Hc & Hl & Hp & Hb). exists msg. split; [done|]. split; [done|].
  split; [exact E|]. split; [split; vm_compute; reflexivity|].
  split; [unfold well_placed; rewrite Hl, Hb; lia|]. unfold packet. cbn [padding length]. rewrite length_app.
  change (List.length demo_user) with 24%nat. lia.
Qed.


Definition demo_message : Message := packet demo_request.
Definition demo_parsed : Dict := parsed_dict (signed_request (chars "secret") 995 (chars "NodeStore_dump") demo_args).

Lemma authValid_stays_inside_witness : exists ok m, authValid demo_parsed demo_message demo_admin = Some (ok, with_buffer demo_message m, demo_admin) /\
  forall x, x < bytes demo_message \/ bytes demo_message + length demo_message <= x -> m x = demo_message.(buffer) x.
Proof.
  eapply (authValid_stays_inside demo_process demo_parsed); [unfold well_placed; split_and!; vm_compute; first [discriminate|reflexivity]|].
  vm_compute. reflexivity.
Defined.

(** The request, received: its cookie is five seconds old, and the function runs. *)
Definition demo_receive : M Admin Z := receiveMessage demo_process (packet (demo_user ++ demo_request)).

Lemma demo_runs {A} (f : M Admin A) a : (match f a with Some _ => true | None => false end) = true -> exists x, f a = Some (x, demo_after f a).
Proof. unfold demo_after. destruct (f a) as [[x a']|]; [|done]. by exists x. Qed.

Lemma head_in {A} (l : list A) x : head l = Some x -> In x l.
Proof. destruct l; [done|]. intros [= ->]. by left. Qed.

Lemma Admin_needs_password_witness : exists request, Message_pop (packet (demo_user ++ demo_request)) 24 = Some (demo_user, request) /\
  exists d r password p h,
    parseDictionary demo_process (Z.to_nat (length request)) (ArrayReader_new request.(buffer) request.(bytes) request.(length)) = Some (inr d, r) /\
    Dict_getString (Some d) (Some (chars "q")) = Some (chars "auth") /\ demo_admin.(admin_password) = Some password /\
    proves_password d request password demo_admin.(admin_seconds) p h.
Proof.
  destruct (admin_demo_popped demo_request) as (request & E & _ & Hl & _ & Hb). exists request. split; [exact E|].
  destruct (demo_runs demo_receive demo_admin) as [code Er]; [vm_compute; reflexivity|].
  apply (Admin_needs_password demo_process (packet (demo_user ++ demo_request)) demo_user request demo_admin code (demo_after demo_receive demo_admin)
    7 (Some demo_args) demo_user).
  - rewrite Hb. discriminate.
  - rewrite Hl. vm_compute. discriminate.
  - rewrite Hl, Hb. vm_compute. reflexivity.
  - exact E.
  - exact Er.
  - apply head_in. vm_compute. reflexivity.
  - intros f Hf. assert (Forall (fun f => match f.(fu_call) with Registered _ => f.(needsAuth) | _ => true end = true) demo_admin.(functions)) as H
      by (vm_compute; repeat constructor).
    rewrite List.Forall_forall in H. specialize (H f Hf). intros Hc. by rewrite Hc in H.
Defined.

Lemma demo_long_address : receiveMessage demo_process
  (packet (demo_sockaddr 28 40 ++ encode_dict [(chars "q", Object_STRING (chars "cookie"))])) (demo_new 36) = None.
Proof.
  apply Admin_long_address_aborts; [vm_compute; split; reflexivity|split; vm_compute; reflexivity|vm_compute; discriminate].
Defined.

(** ** A call *)
Definition demo_client : AdminClient := {| targetAddr := demo_target; client_password := chars "secret" |}.
Definition demo_function : Function := nth 2 demo_admin.(functions) {| fu_name := []; fu_call := Admin_asyncEnabled; needsAuth := true; fu_args := [] |}.

Lemma demo_callable : callable demo_process 3 demo_user demo_client demo_admin demo_function 7 demo_args demo_reply.
Proof.
  split.
  - vm_compute. discriminate.
  - vm_compute. split; discriminate.
  - split; vm_compute; reflexivity.
  - split; [vm_compute; reflexivity|]. vm_compute. split; discriminate.
  - vm_compute. reflexivity.
  - lia.
  - vm_compute. split; [discriminate|reflexivity].
  - exists (take 2 demo_admin.(functions)), []. split; [vm_compute; reflexivity|].
    repeat constructor; first [discriminate|lia|idtac]; intros H; vm_compute in H; discriminate.
  - vm_compute. reflexivity.
  - vm_compute. reflexivity.
  - reflexivity.
  - split; [|split]; [apply serializable_dict; repeat constructor; first [discriminate|lia|idtac]|apply ints_pass_dict; repeat constructor; first [discriminate|lia|idtac]|vm_compute; discriminate].
  - split; [vm_compute; reflexivity|]. split; [|split]; [apply serializable_dict; repeat constructor; first [discriminate|lia|idtac]|apply ints_pass_dict; repeat constructor; first [discriminate|lia|idtac]|vm_compute; discriminate].
Qed.

Lemma AdminClient_call_reaches_function_witness : exists cookie_message answer res a',
  AdminClient_rpcCall demo_process (fun _ => 0) (server_exchange demo_process 3 demo_user demo_client) demo_client (chars "NodeStore_dump") (Some demo_args) demo_admin
    = Some (res, a') /\ res.(err) = AdminClient_Error_NONE /\ res.(responseDict) = Some demo_reply /\
  a'.(admin_outputs) = [AdminSend cookie_message; AdminCall 7 (Some demo_args) demo_user; AdminSend answer].
Proof.
  exact (AdminClient_call_reaches_function demo_process 3 demo_user demo_client (fun _ => 0) demo_admin demo_function 7 (Some demo_args) demo_reply demo_callable).
Defined.
