(* ===== verification/TUNMessageType.v ===== *)
(** * Types of packets on the TUN device (interface/TUNMessageType.c, wire/Ethernet.h)

    The four bytes in front of a packet say whether it is IPv4 or IPv6, on BSD by
    the address family; on Illumos there is nothing in front and the version in
    the packet tells. [None] is an aborted program. *)
From S2P Require Import Prelude Memory Endian Message.

Section types.
  Context {P : Platform}.

Definition Ethernet_TYPE_IP4 : Z := Endian_hostToBigEndian16 0x0800.
Definition Ethernet_TYPE_IP6 : Z := Endian_hostToBigEndian16 0x86DD.

Definition TUNMessageType_push_Linux (message : Message) (ethertype : Z) : option Message :=
  message ← Message_shift message 4;
  let m := write message.(buffer) message.(bytes) (store 2 0) in
  let m := write m (message.(bytes) + 2) (store 2 ethertype) in
  Some (with_buffer message m).

Definition TUNMessageType_pop_Linux (message : Message) : option (Z * Message) :=
  message ← Message_shift message (-4);
  Some (load 2 message.(buffer) (message.(bytes) - 2), message).

(** The numbers of the address families belong to the operating system. *)
Section bsd.
  Variables AF_INET AF_INET6 : Z.

Definition AF_INET_BE : Z := Endian_hostToBigEndian16 AF_INET.
Definition AF_INET6_BE : Z := Endian_hostToBigEndian16 AF_INET6.

Definition TUNMessageType_push_BSD (message : Message) (ethertype : Z) : option Message :=
  let afType_be := if ethertype =? Ethernet_TYPE_IP6 then AF_INET6_BE else AF_INET_BE in
  message ← Message_shift message 4;
  let m := write message.(buffer) message.(bytes) (store 2 0) in
  let m := write m (message.(bytes) + 2) (store 2 afType_be) in
  Some (with_buffer message m).

Definition TUNMessageType_pop_BSD (message : Message) : option (Z * Message) :=
  message ← Message_shift message (-4);
  let afType_be := load 2 message.(buffer) (message.(bytes) - 2) in
  Some ((if afType_be =? AF_INET6_BE then Ethernet_TYPE_IP6 else Ethernet_TYPE_IP4), message).
End bsd.

Definition ethertypeForPacketType (highByte : Z) : Z :=
  if highByte >> 4 =? 6 then Ethernet_TYPE_IP6 else Ethernet_TYPE_IP4.

Definition TUNMessageType_push_Illumos (message : Message) (ethertype : Z) : option Message :=
  if ethertype =? ethertypeForPacketType (message.(buffer) message.(bytes)) then Some message else None.

Definition TUNMessageType_pop_Illumos (message : Message) : option (Z * Message) :=
  Some (ethertypeForPacketType (message.(buffer) message.(bytes)), message).
End types.

(** ** What the tunnel needs of a way to mark packets *)
Class TunType (P : Platform) := {
  TUNMessageType_push : Message -> Z -> option Message;
  TUNMessageType_pop : Message -> option (Z * Message)
}.

(** A packet that is marked comes out with its type, content and place. *)
Class TunTypeLaws (P : Platform) (T : TunType P) : Prop := {
  push_pop msg ethertype : message_ok msg -> 4 <= padding msg ->
    (ethertype = Ethernet_TYPE_IP4 /\ msg.(buffer) msg.(bytes) >> 4 <> 6 \/
     ethertype = Ethernet_TYPE_IP6 /\ msg.(buffer) msg.(bytes) >> 4 = 6) ->
    exists msg1 msg2, TUNMessageType_push msg ethertype = Some msg1 /\
      TUNMessageType_pop msg1 = Some (ethertype, msg2) /\
      content msg2 = content msg /\ length msg2 = length msg /\ padding msg2 = padding msg /\ bytes msg2 = bytes msg
}.

Section instances.
  Context {P : Platform}.

Definition tun_Linux : TunType P :=
  {| TUNMessageType_push := TUNMessageType_push_Linux; TUNMessageType_pop := TUNMessageType_pop_Linux |}.
Definition tun_BSD (AF_INET AF_INET6 : Z) : TunType P :=
  {| TUNMessageType_push := TUNMessageType_push_BSD AF_INET AF_INET6;
     TUNMessageType_pop := TUNMessageType_pop_BSD AF_INET6 |}.
Definition tun_Illumos : TunType P :=
  {| TUNMessageType_push := TUNMessageType_push_Illumos; TUNMessageType_pop := TUNMessageType_pop_Illumos |}.

Lemma ethernet_types : Ethernet_TYPE_IP4 <> Ethernet_TYPE_IP6 /\ 0 <= Ethernet_TYPE_IP4 < 2 ^ 16 /\ 0 <= Ethernet_TYPE_IP6 < 2 ^ 16.
Proof.
  unfold Ethernet_TYPE_IP4, Ethernet_TYPE_IP6, Endian_hostToBigEndian16.
  destruct host_is_big_endian; vm_compute; intuition discriminate.
Qed.

(** Four bytes in front, the last two of which hold [t]. *)
Lemma marked msg t : message_ok msg -> 4 <= padding msg -> 0 <= t < 2 ^ 16 ->
  let m := write (write msg.(buffer) (msg.(bytes) - 4) (store 2 0)) (msg.(bytes) - 4 + 2) (store 2 t) in
  let msg1 := {| length := length msg + 4; padding := padding msg - 4; bytes := msg.(bytes) - 4; buffer := m |} in
  Message_shift msg 4 = Some (with_buffer msg1 msg.(buffer)) /\
  Message_shift msg1 (-4) = Some (with_buffer msg m) /\
  load 2 m (msg.(bytes) - 2) = t /\ content (with_buffer msg m) = content msg.
Proof.
  intros (Hl & Hp & Ht & Hm) Hpad Hr m msg1. split; [|split; [|split]].
  - rewrite shift_up by lia. done.
  - change (Message_shift msg1 (-4)) with (Message_shift msg1 (Z.opp 4)). rewrite (shift_down msg1 4) by (cbn; lia). cbn. unfold with_buffer. do 2 f_equal; lia.
  - unfold m. replace (bytes msg - 4 + 2) with (bytes msg - 2) by lia. rewrite load_write_store. apply Z.mod_small, Hr.
  - unfold content, with_buffer, m. cbn. rewrite !read_write_disj by (rewrite length_store; lia). done.
Qed.

#[export] Instance tun_Linux_laws : TunTypeLaws P tun_Linux.
Proof.
  split. intros msg t Hok Hpad Ht. destruct ethernet_types as (_ & R4 & R6).
  assert (0 <= t < 2 ^ 16) as Hr by (destruct Ht as [[-> _]|[-> _]]; done).
  destruct (marked msg t Hok Hpad Hr) as (E1 & E2 & E3 & E4). cbn [TUNMessageType_push TUNMessageType_pop tun_Linux].
  unfold TUNMessageType_push_Linux, TUNMessageType_pop_Linux. rewrite E1. cbn [mbind option_bind with_buffer bytes buffer length padding] in *.
  do 2 eexists. split; [done|]. unfold with_buffer. cbn [bytes buffer length padding]. rewrite E2. cbn [mbind option_bind with_buffer bytes buffer]. rewrite E3. done.
Qed.

#[export] Instance tun_BSD_laws AF_INET AF_INET6 :
  0 <= AF_INET < 2 ^ 16 -> 0 <= AF_INET6 < 2 ^ 16 -> AF_INET <> AF_INET6 -> TunTypeLaws P (tun_BSD AF_INET AF_INET6).
Proof.
  intros H4 H6 Hne. split. intros msg t Hok Hpad Ht. destruct ethernet_types as (Hd & _ & _).
  set (af := if t =? Ethernet_TYPE_IP6 then AF_INET6_BE AF_INET6 else AF_INET_BE AF_INET).
  assert (0 <= af < 2 ^ 16) as Hr by (unfold af; destruct (_ =? _); apply hostToBigEndian16_range; done).
  assert ((if af =? AF_INET6_BE AF_INET6 then Ethernet_TYPE_IP6 else Ethernet_TYPE_IP4) = t) as Haf.
  { unfold af. destruct Ht as [[-> _]|[-> _]].
    - rewrite (proj2 (Z.eqb_neq _ _) Hd). destruct (Z.eqb_spec (AF_INET_BE AF_INET) (AF_INET6_BE AF_INET6)) as [E|]; [|done].
      exfalso. apply Hne. apply (f_equal Endian_bigEndianToHost16) in E. unfold AF_INET_BE, AF_INET6_BE in E.
      rewrite !bigEndianToHost16_host in E by done. done.
    - rewrite !Z.eqb_refl. done. }
  destruct (marked msg af Hok Hpad Hr) as (E1 & E2 & E3 & E4). cbn [TUNMessageType_push TUNMessageType_pop tun_BSD].
  unfold TUNMessageType_push_BSD, TUNMessageType_pop_BSD. fold af. rewrite E1. cbn [mbind option_bind with_buffer bytes buffer length padding] in *.
  do 2 eexists. split; [done|]. unfold with_buffer. cbn [bytes buffer length padding]. rewrite E2. cbn [mbind option_bind with_buffer bytes buffer]. rewrite E3, Haf. done.
Qed.

#[export] Instance tun_Illumos_laws : TunTypeLaws P tun_Illumos.
Proof.
  split. intros msg t Hok Hpad Ht. cbn [TUNMessageType_push TUNMessageType_pop tun_Illumos].
  unfold TUNMessageType_push_Illumos, TUNMessageType_pop_Illumos.
  assert (ethertypeForPacketType (buffer msg (bytes msg)) = t) as E.
  { unfold ethertypeForPacketType. destruct Ht as [[-> Hv]|[-> Hv]]; [rewrite (proj2 (Z.eqb_neq _ _) Hv)|rewrite Hv]; done. }
  rewrite E, Z.eqb_refl. exists msg, msg. rewrite E. done.
Qed.
End instances.
