(* ===== verification/IpTunnel.v ===== *)
(** * The IP tunnel (tunnel/IpTunnel.c)

    Nodes can carry IPv4 and public IPv6 packets for one another. A server allows
    a client's key and issues it addresses; the client asks for them with a
    control message, a bencoded dictionary in a UDP packet between zero
    addresses. Packets from the TUN device go to the connection whose address
    they have; packets from a node are checked against the address issued.

    A pointer to a connection is its index. The array is a total function: what
    lies behind the connections is whatever memory holds, and an access there is
    visible as such. The other ends of the two interfaces are the parameters
    [nodeInterface] and [tunInterface], the error code each returns for a message,
    or None while it is not connected. What is given to them, and to the angel
    process, is the list of [TunnelEvent]s, in order. [None] is an aborted
    program; running out of memory in the buffer allocators is not modelled. *)
From stdpp Require Import gmap.
From S2P Require Import Prelude Memory Endian Bits Checksum NaCl Headers Benc ArrayIO BencSerializer Message TUNMessageType.
Open Scope Z_scope.

Definition IpTunnel_PacketInfoHeader_SIZE : Z := 48.
Definition PacketInfoHeader_nodeKey : Z := 16.

(** [struct Headers_UDPHeader]: the offsets of its fields. *)
Definition UDPHeader_sourceAndDestPorts : Z := 0.
Definition UDPHeader_length_be : Z := 4.
Definition UDPHeader_checksum_be : Z := 6.

Record IpTunnel_Connection := {
  nodeIp6Addr : list Z;
  nodeKey : list Z;
  connectionIp6 : list Z;
  connectionIp4 : list Z;
  isOutgoing : bool;
  number : Z
}.

Record IpTunnel := {
  count : Z;
  connections : Z -> IpTunnel_Connection;
  connectionCapacity : Z;
  nextConnectionNumber : Z;
  ifName : option String
}.

Inductive TunnelEvent :=
| ToNode (msg : Message)
| ToTun (msg : Message)
| CallAngel (msg : Dict).

(** A signed field of 31 bits. *)
Definition s31 (z : Z) : Z := (z + 2 ^ 30) mod 2 ^ 31 - 2 ^ 30.

Definition zero_connection : IpTunnel_Connection :=
  {| nodeIp6Addr := repeat 0 16; nodeKey := repeat 0 32; connectionIp6 := repeat 0 16; connectionIp4 := repeat 0 4;
     isOutgoing := false; number := 0 |}.

Definition set_at (connections : Z -> IpTunnel_Connection) (i : Z) (c : IpTunnel_Connection) : Z -> IpTunnel_Connection :=
  fun j => if j =? i then c else connections j.
Definition set_connection (context : IpTunnel) (i : Z) (c : IpTunnel_Connection) : IpTunnel :=
  {| count := context.(count); connections := set_at context.(connections) i c;
     connectionCapacity := context.(connectionCapacity); nextConnectionNumber := context.(nextConnectionNumber);
     ifName := context.(ifName) |}.
Definition set_node (c : IpTunnel_Connection) (ip6 key : list Z) : IpTunnel_Connection :=
  {| nodeIp6Addr := ip6; nodeKey := key; connectionIp6 := c.(connectionIp6); connectionIp4 := c.(connectionIp4);
     isOutgoing := c.(isOutgoing); number := c.(number) |}.
Definition set_ip6 (c : IpTunnel_Connection) (ip6 : list Z) : IpTunnel_Connection :=
  {| nodeIp6Addr := c.(nodeIp6Addr); nodeKey := c.(nodeKey); connectionIp6 := ip6; connectionIp4 := c.(connectionIp4);
     isOutgoing := c.(isOutgoing); number := c.(number) |}.
Definition set_ip4 (c : IpTunnel_Connection) (ip4 : list Z) : IpTunnel_Connection :=
  {| nodeIp6Addr := c.(nodeIp6Addr); nodeKey := c.(nodeKey); connectionIp6 := c.(connectionIp6); connectionIp4 := ip4;
     isOutgoing := c.(isOutgoing); number := c.(number) |}.

(** [memory] is what lies in the array before connections are put there. *)
Definition IpTunnel_new (memory : Z -> IpTunnel_Connection) : IpTunnel :=
  {| count := 0; connections := memory; connectionCapacity := 0; nextConnectionNumber := 0; ifName := None |}.

Definition IpTunnel_setTunName (interfaceName : String) (context : IpTunnel) : IpTunnel :=
  {| count := context.(count); connections := context.(connections); connectionCapacity := context.(connectionCapacity);
     nextConnectionNumber := context.(nextConnectionNumber); ifName := Some interfaceName |}.

(** The loop of [newConnection], for the indices below [n], highest first. *)
Fixpoint make_room (n : nat) (connections : Z -> IpTunnel_Connection) (conn : Z) : (Z -> IpTunnel_Connection) * Z :=
  match n with
  | O => (connections, conn)
  | S n =>
      let i := Z.of_nat n in
      if negb (connections i).(isOutgoing) && negb (conn =? i + 1)
      then make_room n (set_at connections conn (connections (i + 1))) (i + 1)
      else make_room n connections conn
  end.

Definition newConnection (isOutgoing : bool) (context : IpTunnel) : option (IpTunnel * Z) :=
  let connectionCapacity :=
    if context.(count) =? context.(connectionCapacity) then u32 (context.(connectionCapacity) + 4)
    else context.(connectionCapacity) in
  let conn := context.(count) in
  let '(connections, conn) :=
    if isOutgoing then (context.(connections), conn)
    else make_room (Z.to_nat (s32 context.(count))) context.(connections) conn in
  let number := context.(nextConnectionNumber) in
  let c :=
    {| nodeIp6Addr := repeat 0 16; nodeKey := repeat 0 32; connectionIp6 := repeat 0 16; connectionIp4 := repeat 0 4;
       isOutgoing := isOutgoing; number := s31 number |} in
  let nextConnectionNumber := u32 (number + 1) in
  if nextConnectionNumber <? UINT32_MAX >> 1
  then Some ({| count := u32 (context.(count) + 1); connections := set_at connections conn c;
                connectionCapacity := connectionCapacity; nextConnectionNumber := nextConnectionNumber;
                ifName := context.(ifName) |}, conn)
  else None.

Definition connectionByPubKey (pubKey : list Z) (context : IpTunnel) : option Z :=
  match for_until (Z.to_nat (s32 context.(count))) 0
    (fun i _ => if Bits_memcmp pubKey (context.(connections) i).(nodeKey) =? 0 then inr i else inl tt) tt with
  | inr i => Some i
  | inl _ => None
  end.

(** The index of the connection, or NULL. The do-while loop runs up to and
    including [lastConnection], the place behind the last one; [n] more
    connections follow [conn]. *)
Fixpoint getConnection_loop (n : nat) (conn : Z) (source destination : list Z) (isIp6 isFromTun : bool)
    (connections : Z -> IpTunnel_Connection) : option Z :=
  let c := connections conn in
  let compareAddr :=
    if isFromTun then (if c.(isOutgoing) then source else destination)
    else (if c.(isOutgoing) then destination else source) in
  let connectionAddr := if isIp6 then c.(connectionIp6) else c.(connectionIp4) in
  if Bits_memcmp compareAddr connectionAddr =? 0 then Some conn
  else match n with
       | O => None
       | S n => getConnection_loop n (conn + 1) source destination isIp6 isFromTun connections
       end.

(** [isIp6]: whether [sourceAndDestIp6] is given, else [sourceAndDestIp4]. *)
Definition getConnection (conn : Z) (source destination : list Z) (isIp6 isFromTun : bool) (context : IpTunnel) : option Z :=
  getConnection_loop (Z.to_nat (context.(count) - conn)) conn source destination isIp6 isFromTun context.(connections).

Section tunnel.
  Context {P : Platform} {N : NaCl} {T : TunType P}.
  Variables nodeInterface tunInterface : option (Message -> Z).
  (** The text of an address: [inet_ntop] of the system, with no port. *)
  Variable Sockaddr_print : list Z -> String.
  (** What lies in the buffers that are taken from the stack. *)
  Variable stack : mem.
  (** [errno] before the parser runs, see BencSerializer. *)
  Variable erange : bool.

Definition Result : Type := option (IpTunnel * Z * list TunnelEvent).

Definition IpTunnel_allowConnection (publicKeyOfAuthorizedNode : list Z) (ip6Address ip4Address : option (list Z))
    (context : IpTunnel) : option (IpTunnel * Z) :=
  '(context, i) ← newConnection false context;
  let c := context.(connections) i in
  let key := take 32 publicKeyOfAuthorizedNode in
  let c := set_node c (fst (AddressCalc_addressForPublicKey key)) key in
  let c := match ip4Address with Some ip4 => set_ip4 c (take 4 ip4) | None => c end in
  let c := match ip6Address with Some ip6 => set_ip6 c (take 16 ip6) | None => c end in
  Some (set_connection context i c, c.(number)).

Definition sendToNode (message : Message) (connection : IpTunnel_Connection) : option (Z * list TunnelEvent) :=
  message ← Message_push message (connection.(nodeIp6Addr) ++ connection.(nodeKey));
  match nodeInterface with
  | Some receiveMessage => Some (receiveMessage message, [ToNode message])
  | None => Some (Error_UNDELIVERABLE, [])
  end.

Definition sendControlMessage (dict : Dict) (connection : IpTunnel_Connection) : option (Z * list TunnelEvent) :=
  let message := {| length := 512; padding := 512; bytes := 512; buffer := stack |} in
  let w := ArrayWriter_new message.(buffer) message.(bytes) (length message) in
  let '(_, w) := serializeDictionary w dict in
  let message := with_length (with_buffer message w.(w_memory)) (s32 (ArrayWriter_bytesWritten w)) in
  message ← Message_shift message Headers_UDPHeader_SIZE;
  let uh := message.(bytes) in
  let m := write message.(buffer) (uh + UDPHeader_sourceAndDestPorts) (store 4 0) in
  let m := write m (uh + UDPHeader_length_be) (store 2 (Endian_hostToBigEndian16 (u16 (ArrayWriter_bytesWritten w)))) in
  let m := write m (uh + UDPHeader_checksum_be) (store 2 0) in
  let payloadLength := u16 (length message) in
  message ← Message_shift (with_buffer message m) Headers_IP6Header_SIZE;
  let header := message.(bytes) in
  let m := write message.(buffer) (header + IP6Header_versionClassAndFlowLabel) (store 2 0) in
  let m := write m (header + IP6Header_flowLabelLow_be) (store 2 0) in
  let m := set m (header + IP6Header_nextHeader) 17 in
  let m := set m (header + IP6Header_hopLimit) 0 in
  let m := write m (header + IP6Header_payloadLength_be) (store 2 (Endian_hostToBigEndian16 payloadLength)) in
  let m := Headers_setIpVersion m header Headers_IP6Header_SIZE in
  let m := Bits_memset m (header + IP6Header_sourceAddr) 0 32 in
  let m := write m (uh + UDPHeader_checksum_be)
             (store 2 (Checksum_udpIp6 m (header + IP6Header_sourceAddr) m uh (length message - Headers_IP6Header_SIZE))) in
  sendToNode (with_buffer message m) connection.

Definition requestAddresses (conn : IpTunnel_Connection) : option (Z * list TunnelEvent) :=
  let d : Dict := [(chars "q", Object_STRING (chars "IpTunnel_getAddresses"));
                   (chars "txid", Object_STRING (store 4 conn.(number)))] in
  sendControlMessage d conn.

(** The connection number, and the call that asks for addresses. *)
Definition IpTunnel_connectTo (publicKeyOfNodeToConnectTo : list Z) (context : IpTunnel) : Result :=
  '(context, i) ← newConnection true context;
  let key := take 32 publicKeyOfNodeToConnectTo in
  let c := set_node (context.(connections) i) (fst (AddressCalc_addressForPublicKey key)) key in
  '(_, events) ← requestAddresses c;
  Some (set_connection context i c, c.(number), events).

Definition IpTunnel_removeConnection (connectionNumber : Z) (context : IpTunnel) : IpTunnel * Z := (context, 0).

(** The code, and the message aligned on the content. *)
Definition isControlMessageInvalid (message : Message) : option (Z * Message) :=
  let header := message.(bytes) in
  let m := message.(buffer) in
  let length := Endian_bigEndianToHost16 (load 2 m (header + IP6Header_payloadLength_be)) in
  if negb (m (header + IP6Header_nextHeader) =? 17) || (Message.length message <? length + Headers_IP6Header_SIZE)
  then Some (Error_INVALID, message)
  else
    message ← Message_shift message (- Headers_IP6Header_SIZE);
    let udp := message.(bytes) in
    if negb (Checksum_udpIp6 m (header + IP6Header_sourceAddr) m message.(bytes) length =? 0)
    then Some (Error_INVALID, message)
    else
      let length := u16 (length - Headers_UDPHeader_SIZE) in
      if negb (Endian_bigEndianToHost16 (load 2 m (udp + UDPHeader_length_be)) =? length)
         || negb (load 4 m (udp + UDPHeader_sourceAndDestPorts) =? 0)
      then Some (Error_INVALID, message)
      else
        message ← Message_shift message (- Headers_UDPHeader_SIZE);
        Some (0, with_length message length).

Definition requestForAddresses (request : Dict) (conn : IpTunnel_Connection) : option (Z * list TunnelEvent) :=
  if conn.(isOutgoing) then Some (Error_INVALID, [])
  else
    let addresses := Dict_new in
    let has6 := negb (Bits_isZero (of_list conn.(connectionIp6)) 0 16) in
    let has4 := negb (Bits_isZero (of_list conn.(connectionIp4)) 0 4) in
    let addresses :=
      if has6 then fst (Dict_putString addresses (Some (chars "ip6")) (Some (String_newBinary (Some (of_list conn.(connectionIp6))) 16)))
      else addresses in
    let addresses :=
      if has4 then fst (Dict_putString addresses (Some (chars "ip4")) (Some (String_newBinary (Some (of_list conn.(connectionIp4))) 4)))
      else addresses in
    if negb has6 && negb has4 then Some (0, [])
    else
      let msg := Dict_new in
      let msg := fst (Dict_putDict msg (Some (chars "addresses")) (Some addresses)) in
      let txid := Dict_getString (Some request) (Some (chars "txid")) in
      let msg := match txid with Some _ => fst (Dict_putString msg (Some (chars "txid")) txid) | None => msg end in
      sendControlMessage msg conn.

(** The prefix length is that of the systems other than OS X. *)
Definition addAddress (printedAddr : String) (context : IpTunnel) : list TunnelEvent :=
  match context.(ifName) with
  | None => []
  | Some ifName =>
      let args : Dict := [(chars "address", Object_STRING printedAddr); (chars "interfaceName", Object_STRING ifName);
                          (chars "prefixLen", Object_INTEGER 0)] in
      [CallAngel [(chars "args", Object_DICT args); (chars "q", Object_STRING (chars "Angel_addIp"))]]
  end.

(** The connection that the number of a transaction belongs to, looking from
    index [i] on; [None] if one with that number is another node's. *)
Fixpoint connection_for (n : nat) (i number conn : Z) (connections : Z -> IpTunnel_Connection) : option Z :=
  match n with
  | O => Some conn
  | S n =>
      if (connections i).(IpTunnel.number) =? number then
        if negb (Bits_memcmp (connections conn).(nodeKey) (connections i).(nodeKey) =? 0) then None
        else connection_for n (i + 1) number i connections
      else connection_for n (i + 1) number conn connections
  end.

Definition incomingAddresses (d : Dict) (conn : Z) (context : IpTunnel) : IpTunnel * Z * list TunnelEvent :=
  if negb (context.(connections) conn).(isOutgoing) then (context, Error_INVALID, [])
  else
    match Dict_getString (Some d) (Some (chars "txid")) with
    | None => (context, Error_INVALID, [])
    | Some txid =>
        if negb (List.length txid =? 4)%nat then (context, Error_INVALID, [])
        else
          let number := s32 (load 4 (of_list txid) 0) in
          if (number <? 0) || (s32 context.(nextConnectionNumber) <=? number) then (context, Error_INVALID, [])
          else
            let conn :=
              if negb (number =? (context.(connections) conn).(IpTunnel.number))
              then connection_for (Z.to_nat (s32 context.(count))) 0 number conn context.(connections) else Some conn in
            match conn with
            | None => (context, Error_INVALID, [])
            | Some conn =>
                let addresses := Dict_getDict (Some d) (Some (chars "addresses")) in
                let '(context, events) :=
                  match Dict_getString addresses (Some (chars "ip4")) with
                  | Some ip4 =>
                      if (List.length ip4 =? 4)%nat
                      then (set_connection context conn (set_ip4 (context.(connections) conn) ip4),
                            addAddress (Sockaddr_print ip4) context)
                      else (context, [])
                  | None => (context, [])
                  end in
                let '(context, events) :=
                  match Dict_getString addresses (Some (chars "ip6")) with
                  | Some ip6 =>
                      if (List.length ip6 =? 16)%nat
                      then (set_connection context conn (set_ip6 (context.(connections) conn) ip6),
                            events ++ addAddress (Sockaddr_print ip6) context)
                      else (context, events)
                  | None => (context, events)
                  end in
                (context, 0, events)
            end
    end.

(** The fuel of the parser is more than the bytes of the message. Its allocator
    is a buffer of 1024 bytes on the stack, which aborts the process when it has
    not got a block. *)
Definition control_process : Process := {| stale_ERANGE := erange; largest_block := 1024 |}.

Definition incomingControlMessage (message : Message) (conn : Z) (context : IpTunnel) : Result :=
  '(code, message) ← isControlMessageInvalid message;
  if negb (code =? 0) then Some (context, Error_INVALID, [])
  else
    let r := ArrayReader_new message.(buffer) message.(bytes) (u64 (length message)) in
    '(parsed, _) ← parseDictionary control_process (S (Z.to_nat (length message))) r;
    match parsed with
    | inl code => if code =? OUT_OF_MEMORY then None else Some (context, Error_INVALID, [])
    | inr d =>
        match Dict_getDict (Some d) (Some (chars "addresses")) with
        | Some _ => Some (incomingAddresses d conn context)
        | None =>
            if String_equals (Some (chars "IpTunnel_getAddresses")) (Dict_getString (Some d) (Some (chars "q"))) then
              '(code, events) ← requestForAddresses d (context.(connections) conn);
              Some (context, code, events)
            else Some (context, Error_INVALID, [])
        end
    end.

(** ** Packets *)
Definition incomingFromTun (message : Message) (context : IpTunnel) : option (Z * list TunnelEvent) :=
  let header := message.(bytes) in
  let m := message.(buffer) in
  let send conn :=
    match conn with
    | None => Some (Error_INVALID, [])
    | Some conn => sendToNode message (context.(connections) conn)
    end in
  if context.(connectionCapacity) =? 0 then send None
  else if (40 <? length message) && (Headers_getIpVersion m header =? 6) then
    send (getConnection 0 (read m (header + IP6Header_sourceAddr) 16) (read m (header + IP6Header_destinationAddr) 16) true true context)
  else if (20 <? length message) && (Headers_getIpVersion m header =? 4) then
    send (getConnection 0 (read m (header + IP4Header_sourceAddr) 4) (read m (header + IP4Header_destAddr) 4) false true context)
  else Some (Error_INVALID, []).

Definition ip6FromNode (message : Message) (conn : Z) (context : IpTunnel) : Result :=
  let header := message.(bytes) in
  let m := message.(buffer) in
  let source := header + IP6Header_sourceAddr in
  let destination := header + IP6Header_destinationAddr in
  if Bits_isZero m source 16 || Bits_isZero m destination 16 then
    if Bits_isZero m source 32 then incomingControlMessage message conn context
    else Some (context, Error_INVALID, [])
  else
    match getConnection conn (read m source 16) (read m destination 16) true false context with
    | None => Some (context, Error_INVALID, [])
    | Some _ =>
        message ← TUNMessageType_push message Ethernet_TYPE_IP6;
        match tunInterface with
        | Some _ => Some (context, 0, [ToTun message])
        | None => Some (context, 0, [])
        end
    end.

Definition ip4FromNode (message : Message) (conn : Z) (context : IpTunnel) : Result :=
  let header := message.(bytes) in
  let m := message.(buffer) in
  let source := header + IP4Header_sourceAddr in
  let destination := header + IP4Header_destAddr in
  if Bits_isZero m source 4 || Bits_isZero m destination 4 then Some (context, Error_INVALID, [])
  else
    match getConnection conn (read m source 4) (read m destination 4) false false context with
    | None => Some (context, Error_INVALID, [])
    | Some _ =>
        message ← TUNMessageType_push message Ethernet_TYPE_IP4;
        match tunInterface with
        | Some receiveMessage => Some (context, receiveMessage message, [ToTun message])
        | None => Some (context, 0, [])
        end
    end.

Definition incomingFromNode (message : Message) (context : IpTunnel) : Result :=
  if negb (IpTunnel_PacketInfoHeader_SIZE <=? length message) then None
  else
    let header := message.(bytes) in
    match connectionByPubKey (read message.(buffer) (header + PacketInfoHeader_nodeKey) 32) context with
    | None => Some (context, 0, [])
    | Some conn =>
        message ← Message_shift message (- IpTunnel_PacketInfoHeader_SIZE);
        let version := Headers_getIpVersion message.(buffer) message.(bytes) in
        if (40 <? length message) && (version =? 6) then ip6FromNode message conn context
        else if (20 <? length message) && (version =? 4) then ip4FromNode message conn context
        else Some (context, 0, [])
    end.

(** ** Polling *)
Definition needs_addresses (c : IpTunnel_Connection) : bool :=
  c.(isOutgoing) && Bits_isZero (of_list c.(connectionIp6)) 0 16 && Bits_isZero (of_list c.(connectionIp4)) 0 4.

(** The do-while loop; the index is reduced in the test but not in the access. *)
Fixpoint timeout_loop (fuel : nat) (i beginning : Z) (context : IpTunnel) : option Z :=
  match fuel with
  | O => None
  | S fuel =>
      if needs_addresses (context.(connections) i) then Some i
      else if (i + 1) mod context.(count) =? beginning then None
      else timeout_loop fuel (i + 1) beginning context
  end.

Definition timeout (random : Z) (context : IpTunnel) : option (list TunnelEvent) :=
  if context.(count) =? 0 then Some []
  else
    let beginning := s32 (u32 random mod context.(count)) in
    match timeout_loop (Z.to_nat context.(count)) beginning beginning context with
    | None => Some []
    | Some i => '(_, events) ← requestAddresses (context.(connections) i); Some events
    end.
End tunnel.

(** ** The bytes of a control message *)
Section control.
  Context {P : Platform}.

Definition tunnel_fields (checksum : Z) (data : list Z) : list (list Z) :=
  let n := Z.of_nat (List.length data) in
  [[96]; [0]; store 2 0; store 2 (Endian_hostToBigEndian16 (n + 8)); [17]; [0]; repeat 0 32;
   store 4 0; store 2 (Endian_hostToBigEndian16 n); store 2 checksum; data].

Definition tunnel_checksum (data : list Z) : Z :=
  let l := of_list (concat (tunnel_fields 0 data)) in
  Checksum_udpIp6 l 8 l 40 (Z.of_nat (List.length data) + 8).

Definition tunnel_packet (data : list Z) : list Z := concat (tunnel_fields (tunnel_checksum data) data).

Lemma length_tunnel c d : Z.of_nat (List.length (concat (tunnel_fields c d))) = 48 + Z.of_nat (List.length d).
Proof. unfold tunnel_fields. cbn [concat]. rewrite !length_app, !length_store, repeat_length. cbn [List.length]. lia. Qed.

Lemma tunnel_fields_ok c d : bytes_ok d -> bytes_ok (concat (tunnel_fields c d)).
Proof.
  intros Hd. unfold tunnel_fields. cbn [concat]. rewrite app_nil_r.
  repeat (apply Forall_app; split); first [apply store_ok|exact Hd|by apply bytes_ok_check].
Qed.

(** The part of it behind the addresses. *)
Lemma read_tunnel_udp mm a n c d : read mm a (48 + n) = concat (tunnel_fields c d) -> n = Z.of_nat (List.length d) ->
  read mm (a + 8) 32 = repeat 0 32 /\
  read mm (a + 40) (n + 8) = concat [store 4 0; store 2 (Endian_hostToBigEndian16 n); store 2 c; d].
Proof.
  intros E ->. unfold tunnel_fields in E. cbv zeta in E. split.
  - apply (read_fields _ _ _ _ E 6); [done|field_length|done].
  - apply (read_field mm a (48 + Z.of_nat (List.length d)) ([96] ++ [0] ++ store 2 0 ++
      store 2 (Endian_hostToBigEndian16 (Z.of_nat (List.length d) + 8)) ++ [17] ++ [0] ++ repeat 0 32) _ []).
    + rewrite E. cbn [concat]. rewrite !app_nil_r, <-!app_assoc. done.
    + field_length.
    + field_length.
Qed.

(** The checksum of a buffer that holds the fields with a zero checksum. *)
Lemma tunnel_checksum_read d mm a n :
  read mm a (48 + n) = concat (tunnel_fields 0 d) -> n = Z.of_nat (List.length d) ->
  Checksum_udpIp6 mm (a + 8) mm (a + 40) (n + 8) = tunnel_checksum d.
Proof.
  intros E En. destruct (read_tunnel_udp _ _ _ _ _ E En) as [E1 E2].
  destruct (read_tunnel_udp (of_list (concat (tunnel_fields 0 d))) 0 n 0 d) as [E1' E2'];
    [rewrite En; apply read_of_list; rewrite length_tunnel; done|done|].
  rewrite Z.add_0_l in E1', E2'. unfold tunnel_checksum, Checksum_udpIp6. rewrite <-En.
  apply Ip6_read_at; [lia|congruence|congruence].
Qed.

Lemma tunnel_packet_verifies d mm a n : bytes_ok d -> n + 8 < 2 ^ 16 ->
  read mm a (48 + n) = tunnel_packet d -> n = Z.of_nat (List.length d) ->
  Checksum_udpIp6 mm (a + 8) mm (a + 40) (n + 8) = 0.
Proof.
  intros Hd Hn E En. set (l := of_list (concat (tunnel_fields 0 d))).
  assert (read l 0 (48 + n) = concat (tunnel_fields 0 d)) as E0 by (rewrite En; apply read_of_list; rewrite length_tunnel; done).
  assert (mem_ok l) as Hl by (apply of_list_ok, tunnel_fields_ok, Hd).
  assert (tunnel_checksum d = Checksum_udpIp6 l 8 l 40 (n + 8)) as Ec by (rewrite En; done).
  destruct (read_tunnel_udp _ _ _ _ _ E En) as [E1 E2].
  destruct (read_tunnel_udp _ _ _ _ _ E0 En) as [E1' E2']. rewrite Z.add_0_l in E1', E2'.
  unfold Checksum_udpIp6 in *.
  rewrite (Ip6_read_at mm l (a + 8) 8 mm (write l (40 + 2 * 3) (store 2 (tunnel_checksum d))) (a + 40) 40);
    [|lia|congruence|].
  - rewrite Ec. apply Checksum_Ip6_verifies; [done|done|lia|apply hostToBigEndian32_range; lia|lia|lia|].
    unfold tunnel_fields in E0. cbv zeta in E0. apply (load_fields _ _ _ _ E0 9 2 0 46); [done|field_length].
  - rewrite E2. symmetry. set (c := tunnel_checksum d).
    set_field E2' 2%nat (store 2 c) 6 E3. exact E3.
Qed.

(** The writes of [sendControlMessage], in order, in front of data at [a + 48]. *)
Lemma control_memory m0 a data :
  let n := Z.of_nat (List.length data) in
  read m0 (a + 48) n = data ->
  let m := write m0 (a + 40 + 0) (store 4 0) in
  let m := write m (a + 40 + 4) (store 2 (Endian_hostToBigEndian16 n)) in
  let m := write m (a + 40 + 6) (store 2 0) in
  let m := write m (a + 0) (store 2 0) in
  let m := write m (a + 2) (store 2 0) in
  let m := set m (a + 6) 17 in
  let m := set m (a + 7) 0 in
  let m := write m (a + 4) (store 2 (Endian_hostToBigEndian16 (n + 8))) in
  let m := Headers_setIpVersion m a Headers_IP6Header_SIZE in
  let m := Bits_memset m (a + 8) 0 32 in
  let m := write m (a + 40 + 6) (store 2 (Checksum_udpIp6 m (a + 8) m (a + 40) (n + 8))) in
  read m a (48 + n) = tunnel_packet data.
Proof.
  intros n Hdata. assert (n = Z.of_nat (List.length data)) as Hn by done. clearbody n.
  replace (a + 40 + 0) with (a + 40) by lia. replace (a + 40 + 4) with (a + 44) by lia.
  replace (a + 40 + 6) with (a + 46) by lia.
  assert (store 2 0 = [0; 0]) as E20 by (unfold store; destruct host_is_big_endian; done).
  pose proof (read_pieces m0 [2; 2; 2; 1; 1; 32; 4; 2; 2; n] a) as E0. cbn [fold_right pieces] in E0.
  replace (2 + (2 + (2 + (1 + (1 + (32 + (4 + (2 + (2 + (n + 0)))))))))) with (48 + n) in E0 by lia.
  specialize (E0 ltac:(repeat constructor; lia)).
  replace (a + 2 + 2 + 2 + 1 + 1 + 32 + 4 + 2 + 2) with (a + 48) in E0 by lia. rewrite Hdata in E0.
  set_field E0 6%nat (store 4 0) 40 E1.
  set_field E1 7%nat (store 2 (Endian_hostToBigEndian16 n)) 44 E2.
  set_field E2 8%nat (store 2 0) 46 E3.
  set_field E3 0%nat (store 2 0) 0 E4.
  set_field E4 1%nat (store 2 0) 2 E5.
  set_byte E5 3%nat 17 6 E6. set_byte E6 4%nat 0 7 E7.
  set_field E7 2%nat (store 2 (Endian_hostToBigEndian16 (n + 8))) 4 E8.
  cbv zeta. unfold Headers_setIpVersion, Bits_memset.
  set (m8 := write _ (a + 4) _) in *.
  assert (m8 a = 0) as Hb.
  { pose proof (read_fields _ _ _ _ E8 0 (store 2 0) 0 2) as H. rewrite E20 in H.
    specialize (H eq_refl eq_refl eq_refl). rewrite Z.add_0_r, read_cons in H by lia. injection H as H _. exact H. }
  rewrite Hb. change (0 .| _) with 96. change (repeat (u8 0) (Z.to_nat 32)) with (repeat 0 32).
  assert (read m8 a (48 + n) = concat [[0]; [0]; store 2 0; store 2 (Endian_hostToBigEndian16 (n + 8)); [17]; [0];
    read m0 (a + 2 + 2 + 2 + 1 + 1) 32; store 4 0; store 2 (Endian_hostToBigEndian16 n); store 2 0; data]) as E9
    by (rewrite E8, E20; done).
  set_byte E9 0%nat 96 0 E10. set_field E10 6%nat (repeat 0 32) 8 E11. rewrite Z.add_0_r in E11.
  set (m11 := write _ (a + 8) _) in *.
  assert (Checksum_udpIp6 m11 (a + 8) m11 (a + 40) (n + 8) = tunnel_checksum data) as ->.
  { apply tunnel_checksum_read; [rewrite E11, Hn; done|done]. }
  set_field E11 9%nat (store 2 (tunnel_checksum data)) 46 E12. etrans; [exact E12|]. rewrite Hn. done.
Qed.

Lemma sendControlMessage_spec (f : Message -> Z) stack d c :
  serializable (Object_DICT d) -> Z.of_nat (List.length (encode_dict d)) <= 512 ->
  List.length c.(nodeIp6Addr) = 16%nat -> List.length c.(nodeKey) = 32%nat ->
  exists msg, sendControlMessage (Some f) stack d c = Some (f msg, [ToNode msg]) /\
    content msg = c.(nodeIp6Addr) ++ c.(nodeKey) ++ tunnel_packet (encode_dict d) /\
    length msg = 96 + Z.of_nat (List.length (encode_dict d)).
Proof.
  intros Hd Hlen Hip Hkey. unfold sendControlMessage. cbn [buffer bytes length].
  pose proof (serializeDictionary_spec stack 512 512 d ltac:(lia) ltac:(lia) ltac:(lia) Hd) as H.
  destruct (serializeDictionary _ d) as [ret w]. destruct H as [_ H].
  rewrite (proj2 (Z.leb_le _ _)) in H by lia. destruct H as (_ & Ew & Er). rewrite Ew in *.
  set (data := encode_dict d) in *. set (n := Z.of_nat (List.length data)) in *.
  assert (0 <= n) by (unfold n; lia). rewrite (s32_small n), (u16_small n) by lia. unfold with_length, with_buffer. cbn [buffer bytes length padding].
  unfold Headers_UDPHeader_SIZE. rewrite shift_up by (cbn; lia). cbn [mbind option_bind buffer bytes length padding].
  unfold Headers_IP6Header_SIZE in *. rewrite shift_up by (cbn; lia). cbn [mbind option_bind buffer bytes length padding].
  rewrite u16_small by lia. replace (n + 8 + 40 - 40) with (n + 8) by lia.
  pose proof (control_memory (w_memory w) 464 data Er) as Hm. cbv zeta in Hm. unfold Headers_IP6Header_SIZE in Hm. fold n in Hm.
  unfold UDPHeader_sourceAndDestPorts, UDPHeader_length_be, UDPHeader_checksum_be, IP6Header_versionClassAndFlowLabel,
    IP6Header_flowLabelLow_be, IP6Header_nextHeader, IP6Header_hopLimit, IP6Header_payloadLength_be, IP6Header_sourceAddr.
  replace (512 - 8 - 40) with 464 by lia. replace (512 - 8) with (464 + 40) by lia.
  match type of Hm with read ?m _ _ = _ => set (m11 := m) in * end.
  unfold sendToNode.
  destruct (push_some {| length := n + 8 + 40; padding := 464; bytes := 464; buffer := m11 |}
              (nodeIp6Addr c ++ nodeKey c)) as (msg & E & Ec & El & _).
  { cbn. lia. }
  { cbn [padding]. rewrite length_app. lia. }
  rewrite E. cbn [mbind option_bind]. exists msg. split; [done|]. split.
  - rewrite Ec. unfold content. cbn [length bytes buffer]. rewrite <-app_assoc. do 2 f_equal.
    replace (n + 8 + 40) with (48 + n) by lia. exact Hm.
  - rewrite El, length_app. cbn [length]. lia.
Qed.

(** What the other end makes of it. *)
Lemma isControlMessageInvalid_accepts q data :
  content q = tunnel_packet data -> length q = 48 + Z.of_nat (List.length data) -> bytes_ok data ->
  Z.of_nat (List.length data) + 8 < 2 ^ 16 ->
  exists q', isControlMessageInvalid q = Some (0, q') /\ buffer q' = buffer q /\ bytes q' = bytes q + 48 /\
    length q' = Z.of_nat (List.length data) /\ content q' = data.
Proof.
  intros E El Hd Hn. unfold content in *. rewrite El in E. set (n := Z.of_nat (List.length data)) in *.
  assert (0 <= n) by (unfold n; lia). unfold isControlMessageInvalid.
  pose proof (tunnel_packet_verifies data (buffer q) (bytes q) n Hd Hn E eq_refl) as Hsum.
  pose proof E as E'. unfold tunnel_packet, tunnel_fields in E'. cbv zeta in E'.
  rewrite (load_fields _ _ _ _ E' 3 2 (Endian_hostToBigEndian16 (n + 8)) 4) by (done || field_length).
  rewrite Z.mod_small, bigEndianToHost16_host by (lia || apply hostToBigEndian16_range; lia).
  pose proof (read_fields _ _ _ _ E' 4 [17] 6 1 eq_refl ltac:(field_length) eq_refl) as H17.
  rewrite read_cons in H17 by lia. injection H17 as H17. unfold IP6Header_nextHeader. rewrite H17.
  unfold Headers_IP6Header_SIZE. rewrite El, (proj2 (Z.ltb_ge _ _)) by lia. cbn [negb Z.eqb Pos.eqb orb].
  rewrite shift_down by lia. cbn [mbind option_bind bytes].
  unfold IP6Header_sourceAddr. rewrite Hsum. cbn [negb Z.eqb].
  rewrite u16_small by (unfold Headers_UDPHeader_SIZE; lia).
  rewrite <-!Z.add_assoc, (load_fields _ _ _ _ E' 8 2 (Endian_hostToBigEndian16 n) (40 + UDPHeader_length_be)) by (done || (unfold UDPHeader_length_be; field_length)).
  rewrite (load_fields _ _ _ _ E' 7 4 0 (40 + UDPHeader_sourceAndDestPorts)) by (done || (unfold UDPHeader_sourceAndDestPorts; field_length)).
  rewrite Z.mod_small, bigEndianToHost16_host by (lia || apply hostToBigEndian16_range; lia).
  change Headers_UDPHeader_SIZE with 8. replace (n + 8 - 8) with n by lia. rewrite Z.eqb_refl.
  change (negb (0 mod 2 ^ (8 * Z.of_nat 4) =? 0)) with false. cbn [negb orb].
  rewrite shift_down by (cbn; lia). cbn [mbind option_bind]. unfold with_length. cbn [length bytes buffer padding].
  eexists. split; [done|]. cbn [length bytes buffer]. split; [done|]. split; [lia|]. split; [done|].
  replace (bytes q + 40 + 8) with (bytes q + 48) by lia.
  apply (read_fields _ _ _ _ E' 10); [done|field_length|done].
Qed.
End control.

(** The packet is the same on every host. *)
Lemma tunnel_fields_host (P P' : Platform) c c' d : Z.of_nat (List.length d) + 8 < 2 ^ 16 ->
  @store P 2 c = @store P' 2 c' -> @tunnel_fields P c d = @tunnel_fields P' c' d.
Proof.
  intros Hn E. unfold tunnel_fields. rewrite !store_be16, E by lia.
  assert (forall (Q : Platform) n, @store Q n 0 = repeat 0 n) as E0.
  { intros Q n. unfold store. assert (le_split n 0 = repeat 0 n) as E0.
    { induction n as [|n IH]; cbn [le_split repeat]; [done|]. f_equal. exact IH. }
    destruct host_is_big_endian; [|exact E0]. unfold be_split. rewrite E0. clear E0.
    induction n as [|n IH]; [done|]. change (rev (0 :: repeat 0 n) = repeat 0 (S n)). cbn [rev]. rewrite IH.
    symmetry. apply repeat_cons. }
  rewrite !E0. done.
Qed.

Lemma tunnel_packet_host (P P' : Platform) d : bytes_ok d -> Z.of_nat (List.length d) + 8 < 2 ^ 16 ->
  @tunnel_packet P d = @tunnel_packet P' d.
Proof.
  intros Hd Hn. unfold tunnel_packet. f_equal. apply tunnel_fields_host; [done|].
  unfold tunnel_checksum, Checksum_udpIp6.
  rewrite (tunnel_fields_host P P' 0 0 d Hn) by (unfold store; destruct (@host_is_big_endian P), (@host_is_big_endian P'); done).
  set (l := of_list _). assert (mem_ok l) by (apply of_list_ok, tunnel_fields_ok, Hd).
  rewrite !Ip6_rfc by (done || lia). done.
Qed.

(** ** The array of connections *)
Definition connection_list (context : IpTunnel) : list IpTunnel_Connection :=
  map context.(connections) (seqZ 0 context.(count)).

Definition connection_ok (c : IpTunnel_Connection) : Prop :=
  List.length c.(nodeIp6Addr) = 16%nat /\ List.length c.(nodeKey) = 32%nat /\
  List.length c.(connectionIp6) = 16%nat /\ List.length c.(connectionIp4) = 4%nat.

(** Numbers are handed out in order and fit their field of 31 bits, which wraps
    to negative ones in the middle. *)
Definition numbers_ok (l : list IpTunnel_Connection) (next : Z) : Prop :=
  NoDup (map number l) /\ Forall (fun c => exists k, 0 <= k < next /\ c.(number) = s31 k) l.

Definition tunnel_ok (context : IpTunnel) : Prop :=
  0 <= context.(count) <= context.(connectionCapacity) /\
  context.(connectionCapacity) <= context.(count) + 4 /\
  context.(count) <= context.(nextConnectionNumber) < 2 ^ 31 - 1 /\
  Forall connection_ok (connection_list context) /\
  numbers_ok (connection_list context) context.(nextConnectionNumber).

(** Everything but the place [conn], among the first [k + 1] places. *)
Definition others (cs : Z -> IpTunnel_Connection) (conn k : Z) : list IpTunnel_Connection :=
  map cs (seqZ 0 conn) ++ map cs (seqZ (conn + 1) (k - conn)).

Lemma seqZ_app_at a n k : 0 <= k <= n -> seqZ a n = seqZ a k ++ seqZ (a + k) (n - k).
Proof.
  intros H. replace n with (k + (n - k)) at 1 by lia. apply seqZ_app; lia.
Qed.

Lemma map_set_at cs i c a n : i < a \/ a + n <= i -> map (set_at cs i c) (seqZ a n) = map cs (seqZ a n).
Proof.
  intros H. apply map_ext_in. intros j Hj. apply list_elem_of_In, elem_of_seqZ in Hj.
  unfold set_at. destruct (Z.eqb_spec j i); [lia|done].
Qed.

Lemma place cs conn c k : 0 <= conn <= k ->
  map (set_at cs conn c) (seqZ 0 (k + 1)) ≡ₚ c :: others cs conn k.
Proof.
  intros H. unfold others. rewrite (seqZ_app_at 0 (k + 1) conn) by lia.
  rewrite (seqZ_cons (0 + conn)) by lia. rewrite map_app. cbn [map]. rewrite !map_set_at by lia.
  replace (set_at cs conn c (0 + conn)) with c by (unfold set_at; rewrite (proj2 (Z.eqb_eq _ _)) by lia; done).
  replace (Z.succ (0 + conn)) with (conn + 1) by lia. replace (Z.pred (k + 1 - conn)) with (k - conn) by lia.
  rewrite <-Permutation_middle. done.
Qed.

Lemma others_move cs i conn k : 0 <= i + 1 < conn -> conn <= k ->
  others (set_at cs conn (cs (i + 1))) (i + 1) k ≡ₚ others cs conn k.
Proof.
  intros H Hk. unfold others. set (cs' := set_at cs conn (cs (i + 1))).
  rewrite (seqZ_app_at (i + 1 + 1) (k - (i + 1)) (conn - i - 2)) by lia.
  rewrite (seqZ_cons (i + 1 + 1 + (conn - i - 2))) by lia.
  rewrite (seqZ_app_at 0 conn (i + 1)) by lia. rewrite (seqZ_cons (0 + (i + 1))) by lia.
  rewrite !map_app. cbn [map]. unfold cs'. rewrite !map_set_at by lia. fold cs'.
  assert (cs' (i + 1 + 1 + (conn - i - 2)) = cs (0 + (i + 1))) as ->.
  { unfold cs', set_at. replace (i + 1 + 1 + (conn - i - 2)) with conn by lia. rewrite Z.eqb_refl. f_equal; lia. }
  replace (i + 1 + 1 + (conn - i - 2) + 1) with (conn + 1) by lia.
  replace (Z.succ (i + 1 + 1 + (conn - i - 2))) with (conn + 1) by lia.
  replace (Z.succ (0 + (i + 1))) with (i + 1 + 1) by lia.
  replace (Z.pred (conn - (i + 1))) with (conn - i - 2) by lia.
  replace (Z.pred (k - (i + 1) - (conn - i - 2))) with (k - conn) by lia.
  rewrite <-!app_assoc. f_equiv. cbn [app]. rewrite Permutation_middle. done.
Qed.

Lemma make_room_others n : forall cs conn k, Z.of_nat n <= conn <= k ->
  let '(cs', conn') := make_room n cs conn in
  0 <= conn' <= k /\ others cs' conn' k ≡ₚ others cs conn k.
Proof.
  induction n as [|n IH]; intros cs conn k H; cbn [make_room]; [split; [lia|done]|].
  destruct (negb (isOutgoing (cs (Z.of_nat n)))); cbn [andb]; [|apply IH; lia].
  destruct (Z.eqb_spec conn (Z.of_nat n + 1)) as [E|E]; cbn [negb]; [apply IH; lia|].
  specialize (IH (set_at cs conn (cs (Z.of_nat n + 1))) (Z.of_nat n + 1) k ltac:(lia)).
  destruct (make_room _ _ _) as [cs' conn']. destruct IH as [H1 H2]. split; [done|].
  rewrite H2. apply others_move; lia.
Qed.

Definition fresh_connection (isOutgoing : bool) (next : Z) : IpTunnel_Connection :=
  {| nodeIp6Addr := repeat 0 16; nodeKey := repeat 0 32; connectionIp6 := repeat 0 16; connectionIp4 := repeat 0 4;
     isOutgoing := isOutgoing; number := s31 next |}.

(** A new connection, and whatever is put in its place. *)
Lemma newConnection_spec out context : tunnel_ok context ->
  if nextConnectionNumber context + 1 <? 2 ^ 31 - 1 then
    exists context' i, newConnection out context = Some (context', i) /\
      0 <= i < count context' /\ count context' = count context + 1 /\ count context' <= connectionCapacity context' <= count context' + 4 /\
      nextConnectionNumber context' = nextConnectionNumber context + 1 /\ ifName context' = ifName context /\
      connections context' i = fresh_connection out (nextConnectionNumber context) /\
      forall c, connection_list (set_connection context' i c) ≡ₚ c :: connection_list context
  else newConnection out context = None.
Proof.
  intros (Hc & Hcap & Hn & _). unfold newConnection. change (UINT32_MAX >> 1) with (2 ^ 31 - 1).
  rewrite !u32_small by (try (destruct (_ =? _)); lia). rewrite s32_small by lia.
  assert (forall cs j c, others cs j (count context) ≡ₚ connection_list context -> 0 <= j <= count context ->
    map (set_at (set_at cs j (fresh_connection out (nextConnectionNumber context))) j c) (seqZ 0 (count context + 1))
    ≡ₚ c :: connection_list context) as Hput.
  { intros cs j c Ho Hj. rewrite place by done. unfold others in *. rewrite !map_set_at by lia. rewrite Ho. done. }
  assert (others (connections context) (count context) (count context) ≡ₚ connection_list context) as Ho.
  { unfold others, connection_list. rewrite Z.sub_diag. cbn. rewrite app_nil_r. done. }
  destruct out.
  - destruct (Z.ltb_spec (nextConnectionNumber context + 1) (2 ^ 31 - 1)); [|done].
    do 2 eexists. split; [done|]. cbn. split; [lia|]. split; [done|].
    split; [destruct (Z.eqb_spec (count context) (connectionCapacity context)); lia|]. do 2 (split; [done|]).
    split; [unfold set_at; rewrite Z.eqb_refl; done|]. intros c. apply (Hput _ _ c Ho). lia.
  - pose proof (make_room_others (Z.to_nat (count context)) (connections context) (count context) (count context) ltac:(lia)) as Hr.
    destruct (make_room _ _ _) as [cs conn]. destruct Hr as [Hr1 Hr2].
    destruct (Z.ltb_spec (nextConnectionNumber context + 1) (2 ^ 31 - 1)); [|done].
    do 2 eexists. split; [done|]. cbn. split; [lia|]. split; [done|].
    split; [destruct (Z.eqb_spec (count context) (connectionCapacity context)); lia|]. do 2 (split; [done|]).
    split; [unfold set_at; rewrite Z.eqb_refl; done|]. intros c. apply Hput; [rewrite Hr2; exact Ho|lia].
Qed.

Lemma connection_list_lookup context i : 0 <= i < count context ->
  connection_list context !! Z.to_nat i = Some (connections context i).
Proof.
  intros H. unfold connection_list. change (map ?f ?l) with (f <$> l).
  rewrite list_lookup_fmap, lookup_seqZ_lt by lia. cbn. do 2 f_equal. lia.
Qed.

Lemma connection_list_set context i c : 0 <= i < count context ->
  connection_list (set_connection context i c) = <[Z.to_nat i := c]> (connection_list context).
Proof.
  intros H. apply list_eq. intros k. destruct (decide (Z.of_nat k < count context)) as [Hk|Hk].
  - replace k with (Z.to_nat (Z.of_nat k)) at 1 by lia.
    rewrite (connection_list_lookup (set_connection context i c)) by (cbn; lia). cbn [connections set_connection].
    unfold set_at. destruct (Z.eqb_spec (Z.of_nat k) i) as [<-|Hne].
    + rewrite Nat2Z.id, list_lookup_insert_eq; [done|]. unfold connection_list. rewrite length_map, length_seqZ. lia.
    + rewrite list_lookup_insert_ne by lia. symmetry.
      replace k with (Z.to_nat (Z.of_nat k)) at 1 by lia. apply connection_list_lookup. lia.
  - rewrite !lookup_ge_None_2; [done|..]; rewrite ?length_insert; unfold connection_list; rewrite length_map, length_seqZ; cbn; lia.
Qed.

Lemma connection_in context i : 0 <= i < count context -> In (connections context i) (connection_list context).
Proof. intros H. apply list_elem_of_In, list_elem_of_lookup. exists (Z.to_nat i). apply connection_list_lookup, H. Qed.

Lemma in_connection context c : In c (connection_list context) -> exists i, 0 <= i < count context /\ connections context i = c.
Proof.
  unfold connection_list. intros H. apply in_map_iff in H as (i & E & H).
  apply list_elem_of_In, elem_of_seqZ in H. exists i. split; [lia|done].
Qed.

(** A number belongs to one connection. *)
Lemma number_inj context i j : tunnel_ok context -> 0 <= i < count context -> 0 <= j < count context ->
  number (connections context i) = number (connections context j) -> i = j.
Proof.
  intros (_ & _ & _ & _ & Hd & _) Hi Hj E. rewrite NoDup_alt in Hd.
  specialize (Hd (Z.to_nat i) (Z.to_nat j) (number (connections context i))).
  change (map number) with (fmap number : list _ -> list _) in Hd.
  rewrite !list_lookup_fmap, !connection_list_lookup in Hd by done. cbn [fmap option_fmap option_map] in Hd.
  rewrite E in Hd. specialize (Hd eq_refl eq_refl). lia.
Qed.

Lemma conn_ok_at context i : tunnel_ok context -> 0 <= i < count context -> connection_ok (connections context i).
Proof. intros (_ & _ & _ & Hc & _) Hi. rewrite Forall_forall in Hc. apply Hc, connection_in, Hi. Qed.

(** Writing a connection that keeps its number. *)
Lemma set_connection_ok context i c : tunnel_ok context -> 0 <= i < count context ->
  connection_ok c -> number c = number (connections context i) -> tunnel_ok (set_connection context i c).
Proof.
  intros (H1 & H2 & H3 & Hc & Hd & Hn) Hi Hok E. unfold tunnel_ok, numbers_ok. rewrite connection_list_set by done.
  cbn [count connectionCapacity nextConnectionNumber set_connection]. do 3 (split; [done|]).
  split; [apply Forall_insert; done|]. split.
  - change (map number) with (fmap number : list _ -> list _). rewrite list_fmap_insert, list_insert_id; [done|].
    rewrite list_lookup_fmap, connection_list_lookup, E by done. done.
  - apply Forall_insert; [done|]. rewrite E. rewrite Forall_forall in Hn. apply (Hn _ (connection_in context i Hi)).
Qed.

Lemma s31_inj a b : 0 <= a < 2 ^ 31 -> 0 <= b < 2 ^ 31 -> s31 a = s31 b -> a = b.
Proof.
  unfold s31. intros Ha Hb E.
  pose proof (Z.div_mod (a + 2 ^ 30) (2 ^ 31) ltac:(lia)). pose proof (Z.div_mod (b + 2 ^ 30) (2 ^ 31) ltac:(lia)).
  assert (0 <= (a + 2 ^ 30) / 2 ^ 31 <= 1) by (split; [apply Z.div_pos|apply Z.lt_succ_r, Z.div_lt_upper_bound]; lia).
  assert (0 <= (b + 2 ^ 30) / 2 ^ 31 <= 1) by (split; [apply Z.div_pos|apply Z.lt_succ_r, Z.div_lt_upper_bound]; lia).
  lia.
Qed.

Lemma new_connection_ok context context' i c out : tunnel_ok context -> newConnection out context = Some (context', i) ->
  connection_ok c -> number c = number (connections context' i) -> tunnel_ok (set_connection context' i c).
Proof.
  intros Hok E Hc En. pose proof (newConnection_spec out context Hok) as H.
  destruct (Z.ltb_spec (nextConnectionNumber context + 1) (2 ^ 31 - 1)); [|congruence].
  destruct H as (ctx & j & E' & Hi & Ec & Ecap & Enext & _ & Ef & Hl). rewrite E' in E. injection E as -> ->.
  destruct Hok as (H1 & H2 & H3 & Hall & Hd & Hn). rewrite Ef in En. cbn [number fresh_connection] in En.
  unfold tunnel_ok, numbers_ok. rewrite (Hl c). cbn [count connectionCapacity nextConnectionNumber set_connection map].
  split; [lia|]. split; [lia|]. split; [lia|]. split; [constructor; done|].
  rewrite Enext, En. split.
  - constructor; [|done]. intros Hin%list_elem_of_In. apply in_map_iff in Hin as (c' & E2 & Hin).
    rewrite Forall_forall in Hn. destruct (Hn c' Hin) as (k & Hk & E3).
    rewrite E3 in E2. apply s31_inj in E2; lia.
  - constructor; [exists (nextConnectionNumber context); split; [lia|done]|].
    eapply Forall_impl; [|exact Hn]. intros c' (k & Hk & E2). exists k. split; [lia|done].
Qed.

(** ** An offer of addresses *)

(** The connection a number belongs to, if another node's is not. *)
Lemma connection_for_spec context i j n : forall a, tunnel_ok context -> 0 <= j < count context ->
  0 <= a -> a + Z.of_nat n <= count context ->
  connection_for n a (number (connections context j)) i (connections context) =
    if bool_decide (a <= j < a + Z.of_nat n) then
      if Bits_memcmp (nodeKey (connections context i)) (nodeKey (connections context j)) =? 0 then Some j else None
    else Some i.
Proof.
  revert i. induction n as [|n IH]; intros i a Hok Hj Ha Hn; cbn [connection_for].
  { rewrite bool_decide_eq_false_2 by lia. done. }
  destruct (Z.eqb_spec (number (connections context a)) (number (connections context j))) as [E|E].
  - apply number_inj in E as ->; [|done|lia|done]. rewrite bool_decide_eq_true_2 by lia.
    destruct (_ =? 0); cbn [negb]; [|done]. rewrite IH by (done || lia). rewrite bool_decide_eq_false_2 by lia. done.
  - assert (a <> j) by congruence. rewrite IH by (done || lia).
    destruct (decide (a <= j < a + Z.of_nat (S n))).
    + rewrite !bool_decide_eq_true_2 by lia. done.
    + rewrite !bool_decide_eq_false_2 by lia. done.
Qed.

Lemma load_txid `{Platform} n : 0 <= n < 2 ^ 31 -> s32 (load 4 (of_list (store 4 n)) 0) = n.
Proof.
  intros Hn. rewrite <-(app_nil_l (store 4 n)), <-(app_nil_r (store 4 n)).
  rewrite (load_of_list_mid 4 n [] [] 0) by done. rewrite Z.mod_small, s32_small by lia. done.
Qed.

Section offers.
  Context {P : Platform}.
  Variable Sockaddr_print : list Z -> String.

(** What an offer writes into a connection, and asks of the angel. *)
Definition offered (d : Dict) (name : list Z) (size : nat) : option (list Z) :=
  match Dict_getString (Dict_getDict (Some d) (Some (chars "addresses"))) (Some name) with
  | Some a => if (List.length a =? size)%nat then Some a else None
  | None => None
  end.
Definition issue (ip6 ip4 : option (list Z)) (c : IpTunnel_Connection) : IpTunnel_Connection :=
  let c := match ip4 with Some a => set_ip4 c a | None => c end in
  match ip6 with Some a => set_ip6 c a | None => c end.
Definition offer_events (ip6 ip4 : option (list Z)) (context : IpTunnel) : list TunnelEvent :=
  match ip4 with Some a => addAddress (Sockaddr_print a) context | None => [] end ++
  match ip6 with Some a => addAddress (Sockaddr_print a) context | None => [] end.

Lemma incomingAddresses_spec d i j context :
  tunnel_ok context -> 0 <= i < count context -> 0 <= j < count context ->
  isOutgoing (connections context i) = true -> 0 <= number (connections context j) < nextConnectionNumber context ->
  Dict_getString (Some d) (Some (chars "txid")) = Some (store 4 (number (connections context j))) ->
  exists context', incomingAddresses Sockaddr_print d i context =
    (if decide (nodeKey (connections context i) = nodeKey (connections context j)) then
       (context', 0, offer_events (offered d (chars "ip6") 16) (offered d (chars "ip4") 4) context)
     else (context, Error_INVALID, [])) /\
    count context' = count context /\ ifName context' = ifName context /\
    connectionCapacity context' = connectionCapacity context /\ nextConnectionNumber context' = nextConnectionNumber context /\
    forall k, connections context' k =
      connections (set_connection context j (issue (offered d (chars "ip6") 16) (offered d (chars "ip4") 4) (connections context j))) k.
Proof.
  intros Hok Hi Hj Ho Hn Ht. unfold incomingAddresses. rewrite Ho, Ht. cbn [negb].
  rewrite length_store. cbn [Nat.eqb negb]. pose proof Hok as (_ & _ & Hnext & _).
  rewrite load_txid by lia. rewrite (s32_small (nextConnectionNumber context)) by lia.
  rewrite (proj2 (Z.ltb_ge _ _)), (proj2 (Z.leb_gt _ _)) by lia. cbn [orb].
  set (number_j := number (connections context j)) in *.
  assert ((if negb (number_j =? number (connections context i))
           then connection_for (Z.to_nat (s32 (count context))) 0 number_j i (connections context) else Some i) =
          if decide (nodeKey (connections context i) = nodeKey (connections context j)) then Some j else None) as ->.
  { assert (s32 (count context) = count context) as -> by (apply s32_small; lia).
    destruct (conn_ok_at context i Hok Hi) as (_ & Ki & _). destruct (conn_ok_at context j Hok Hj) as (_ & Kj & _).
    destruct (Z.eqb_spec number_j (number (connections context i))) as [E|E]; cbn [negb].
    - apply number_inj in E as ->; [|done..]. rewrite decide_True by done. done.
    - unfold number_j. rewrite connection_for_spec, bool_decide_eq_true_2 by (done || lia).
      destruct (decide _) as [Ek|Ek].
      + rewrite Ek, (proj2 (memcmp_0 _ _ eq_refl)) by done. done.
      + destruct (Z.eqb_spec (Bits_memcmp (nodeKey (connections context i)) (nodeKey (connections context j))) 0) as [E0|]; [|done].
        apply memcmp_0 in E0; [done|congruence]. }
  destruct (decide _); [|exists (set_connection context j (issue (offered d (chars "ip6") 16) (offered d (chars "ip4") 4) (connections context j))); done].
  cbv zeta. unfold offer_events, offered, issue.
  destruct (Dict_getString _ (Some (chars "ip4"))) as [ip4|]; [destruct (Nat.eqb_spec (List.length ip4) 4)|];
    (destruct (Dict_getString _ (Some (chars "ip6"))) as [ip6|]; [destruct (Nat.eqb_spec (List.length ip6) 16)|]);
    eexists; (split; [rewrite ?app_nil_r; reflexivity|]); cbn [count ifName connectionCapacity nextConnectionNumber set_connection connections];
    do 4 (split; [done|]); intros k; unfold set_at; rewrite ?Z.eqb_refl; destruct (Z.eqb_spec k j) as [->|]; done.
Qed.
End offers.

(** ** A control message on its way *)
Section flow.
  Context {P : Platform} {T : TunType P}.
  Variables nodeInterface tunInterface : option (Message -> Z).
  Variable Sockaddr_print : list Z -> String.
  Variable stack : mem.
  Variable erange : bool.

(** The message a node is handed: [packet], from the node with [key]. *)
Definition arrives (q : Message) (ip6 key packet : list Z) : Prop :=
  content q = ip6 ++ key ++ packet /\ length q = 48 + Z.of_nat (List.length packet) /\
  List.length ip6 = 16%nat /\ List.length key = 32%nat /\ 0 <= bytes q < 2 ^ 62.

Lemma arrives_key q ip6 key packet : arrives q ip6 key packet ->
  read (buffer q) (bytes q + 16) 32 = key /\
  exists q', Message_shift q (Z.opp 48) = Some q' /\ content q' = packet /\ length q' = Z.of_nat (List.length packet) /\
    buffer q' = buffer q /\ bytes q' = bytes q + 48 /\ padding q' = padding q + 48.
Proof.
  intros (E & El & Hip & Hkey & _). unfold content in *. split.
  - apply (read_field _ _ _ _ _ _ _ _ E); rewrite ?Hip, ?Hkey; done.
  - rewrite shift_down by lia. eexists. split; [done|]. cbn. split; [|split; [lia|done]].
    rewrite app_assoc, <-(app_nil_r packet) in E.
    apply (read_field _ _ _ (ip6 ++ key) packet [] _ _ E); [rewrite length_app, Hip, Hkey; done|lia].
Qed.

Lemma incomingFromNode_control q ip6 key d conn context :
  arrives q ip6 key (tunnel_packet (encode_dict d)) -> Z.of_nat (List.length (encode_dict d)) <= 512 ->
  bytes_ok (encode_dict d) -> serializable (Object_DICT d) -> ints_pass erange (Object_DICT d) ->
  connectionByPubKey key context = Some conn ->
  incomingFromNode nodeInterface tunInterface Sockaddr_print stack erange q context =
  match Dict_getDict (Some (parsed_dict d)) (Some (chars "addresses")) with
  | Some _ => Some (incomingAddresses Sockaddr_print (parsed_dict d) conn context)
  | None =>
      if String_equals (Some (chars "IpTunnel_getAddresses")) (Dict_getString (Some (parsed_dict d)) (Some (chars "q"))) then
        '(code, events) ← requestForAddresses nodeInterface stack (parsed_dict d) (connections context conn);
        Some (context, code, events)
      else Some (context, Error_INVALID, [])
  end.
Proof.
  intros Hq Hlen Hb Hd Hi Hc. destruct (arrives_key _ _ _ _ Hq) as (Ek & q1 & E1 & Ec1 & El1 & Eb1 & Ea1 & _).
  destruct Hq as (_ & El & _ & _ & Hbytes). set (data := encode_dict d) in *.
  assert (Z.of_nat (List.length (tunnel_packet data)) = 48 + Z.of_nat (List.length data)) as Hpl by apply length_tunnel.
  rewrite Hpl in *. unfold incomingFromNode, IpTunnel_PacketInfoHeader_SIZE, PacketInfoHeader_nodeKey.
  rewrite (proj2 (Z.leb_le _ _)) by lia. cbn [negb]. rewrite Ek, Hc, E1. cbn [mbind option_bind].
  pose proof Ec1 as E'. unfold content, tunnel_packet, tunnel_fields in E'. cbv zeta in E'.
  pose proof (read_fields _ _ _ _ E' 0 [96] 0 1 eq_refl eq_refl eq_refl) as E96.
  rewrite Z.add_0_r, read_cons in E96 by lia. injection E96 as E96.
  pose proof (read_fields _ _ _ _ E' 6 (repeat 0 32) 8 32 eq_refl ltac:(field_length) eq_refl) as Ezero.
  unfold Headers_getIpVersion. rewrite E96. change ((96 .& 0xF0) >> 4 =? 6) with true.
  rewrite (proj2 (Z.ltb_lt _ _)) by lia. cbn [andb]. unfold ip6FromNode.
  rewrite (proj2 (isZero_spec (buffer q1) (bytes q1 + IP6Header_sourceAddr) 32) Ezero).
  assert (Bits_isZero (buffer q1) (bytes q1 + IP6Header_sourceAddr) 16 = true) as ->.
  { apply isZero_spec. apply (read_field _ _ _ [] (repeat 0 16) (repeat 0 16) 0 16) in Ezero; [|done..].
    rewrite Z.add_0_r in Ezero. exact Ezero. }
  cbn [orb]. unfold incomingControlMessage.
  destruct (isControlMessageInvalid_accepts q1 data) as (q2 & -> & Eb2 & Ea2 & El2 & Ec2); [done|lia|done|lia|].
  cbn [mbind option_bind Z.eqb negb]. rewrite u64_small by lia.
  destruct (parseDictionary_encoded (buffer q2) (bytes q2) (length q2) d (control_process erange) (S (Z.to_nat (length q2))))
    as (r & ->); [lia|lia|lia|done|done|unfold room_for; cbn [largest_block control_process]; fold data; lia|fold data; lia|exact Ec2|]. done.
Qed.
End flow.

(** ** The two dictionaries *)
Section dictionaries.
  Context {P : Platform}.

Definition request_dict (txid : list Z) : Dict :=
  [(chars "q", Object_STRING (chars "IpTunnel_getAddresses")); (chars "txid", Object_STRING txid)].

(** An address, unless it is zero. *)
Definition nonzero (a : list Z) : option (list Z) :=
  if Bits_isZero (of_list a) 0 (Z.of_nat (List.length a)) then None else Some a.

Definition optional (key : list Z) (a : option (list Z)) : Dict :=
  match a with Some a => [(key, Object_STRING a)] | None => [] end.
Definition offer_dict (ip6 ip4 : option (list Z)) (txid : list Z) : Dict :=
  [(chars "addresses", Object_DICT (optional (chars "ip4") ip4 ++ optional (chars "ip6") ip6));
   (chars "txid", Object_STRING txid)].

Definition short_bytes (l : list Z) : Prop := (List.length l <= 16)%nat /\ bytes_ok l.

(** What the properties need of a dictionary that is sent. *)
Definition sendable (erange : bool) (d : Dict) : Prop :=
  serializable (Object_DICT d) /\ ints_pass erange (Object_DICT d) /\ bytes_ok (encode_dict d) /\
  Z.of_nat (List.length (encode_dict d)) <= 512.

Ltac bytes := repeat first [done | by apply bytes_ok_check | apply encode_string_ok | apply Forall_app; split].
Ltac literals := repeat match goal with
  | |- context [List.length (chars ?x)] => let n := eval vm_compute in (List.length (chars x)) in change (List.length (chars x)) with n
  | H : context [List.length (chars ?x)] |- _ =>
      let n := eval vm_compute in (List.length (chars x)) in change (List.length (chars x)) with n in H
  end.
Ltac lengths := rewrite !length_app; repeat match goal with |- context [encode_string ?s] =>
  pose proof (length_encode_string s); generalize dependent (List.length (encode_string s)); intros end; literals.

Lemma request_sendable erange txid : short_bytes txid -> sendable erange (request_dict txid).
Proof.
  intros [Hl Hb]. split; [|split; [done|]].
  { cbn. unfold string_ok. cbn. repeat split; lia. }
  unfold request_dict, encode_dict. cbn [encode flat_map]. rewrite <-!app_assoc. split; [bytes|].
  lengths. cbn [List.length]. lia.
Qed.

Definition short_option (a : option (list Z)) : Prop := match a with Some a => short_bytes a | None => True end.

Lemma offer_sendable erange ip6 ip4 txid : short_option ip6 -> short_option ip4 -> short_bytes txid ->
  sendable erange (offer_dict ip6 ip4 txid).
Proof.
  intros H6 H4 [Hl Hb]. split; [|split].
  - destruct ip6, ip4; cbn in *; unfold short_bytes, string_ok in *; cbn; repeat split; lia.
  - destruct ip6, ip4; done.
  - unfold offer_dict, encode_dict. destruct ip6 as [ip6|], ip4 as [ip4|]; cbn [optional app encode flat_map short_option] in *;
      unfold short_bytes in *; destruct_and?; rewrite <-?app_assoc; split; [bytes|lengths; cbn [List.length]; lia|bytes|lengths; cbn [List.length]; lia|bytes|lengths; cbn [List.length]; lia|bytes|lengths; cbn [List.length]; lia].
Qed.

(** What is found in them once they are parsed. *)
Lemma request_parsed txid :
  Dict_getDict (Some (parsed_dict (request_dict txid))) (Some (chars "addresses")) = None /\
  String_equals (Some (chars "IpTunnel_getAddresses")) (Dict_getString (Some (parsed_dict (request_dict txid))) (Some (chars "q"))) = true /\
  Dict_getString (Some (parsed_dict (request_dict txid))) (Some (chars "txid")) = Some txid.
Proof. done. Qed.

Lemma offer_parsed ip6 ip4 txid :
  Dict_getDict (Some (parsed_dict (offer_dict ip6 ip4 txid))) (Some (chars "addresses")) <> None /\
  Dict_getString (Some (parsed_dict (offer_dict ip6 ip4 txid))) (Some (chars "txid")) = Some txid /\
  offered (parsed_dict (offer_dict ip6 ip4 txid)) (chars "ip6") 16 =
    (match ip6 with Some a => if (List.length a =? 16)%nat then Some a else None | None => None end) /\
  offered (parsed_dict (offer_dict ip6 ip4 txid)) (chars "ip4") 4 =
    (match ip4 with Some a => if (List.length a =? 4)%nat then Some a else None | None => None end).
Proof. destruct ip6, ip4; done. Qed.

(** The answer of a server. *)
Lemma requestForAddresses_spec nodeInterface stack request conn txid :
  connection_ok conn -> isOutgoing conn = false ->
  Dict_getString (Some request) (Some (chars "txid")) = Some txid ->
  requestForAddresses nodeInterface stack request conn =
  match nonzero conn.(connectionIp6), nonzero conn.(connectionIp4) with
  | None, None => Some (0, [])
  | ip6, ip4 => sendControlMessage nodeInterface stack (offer_dict ip6 ip4 txid) conn
  end.
Proof.
  intros (_ & _ & L6 & L4) Ho Ht. unfold requestForAddresses, nonzero. rewrite Ho, L6, L4, Ht.
  change (Z.of_nat 16) with 16. change (Z.of_nat 4) with 4. unfold String_newBinary. rewrite !read_of_list by lia.
  destruct (Bits_isZero (of_list (connectionIp6 conn)) 0 16), (Bits_isZero (of_list (connectionIp4 conn)) 0 4);
    cbn [negb andb]; [done|..]; (f_equal; [cbn; unfold as_char; destruct char_is_signed; done]).
Qed.
End dictionaries.

(** The connection of a key: the first one that has it. *)
Lemma connectionByPubKey_spec key context : tunnel_ok context -> List.length key = 32%nat ->
  match connectionByPubKey key context with
  | Some i => 0 <= i < count context /\ nodeKey (connections context i) = key /\
      forall j, 0 <= j < i -> nodeKey (connections context j) <> key
  | None => forall j, 0 <= j < count context -> nodeKey (connections context j) <> key
  end.
Proof.
  intros Hok Hk. unfold connectionByPubKey. pose proof Hok as (Hc & Hc' & Hn & _). rewrite s32_small by lia.
  pose proof (search_spec (Z.to_nat (count context)) 0 (fun i => Bits_memcmp key (nodeKey (connections context i)) =? 0) id) as H.
  assert (forall j, 0 <= j < count context ->
    (Bits_memcmp key (nodeKey (connections context j)) =? 0) = bool_decide (key = nodeKey (connections context j))) as Hkey.
  { intros j Hj. destruct (conn_ok_at context j Hok Hj) as (_ & Lj & _). apply eq_true_iff_eq.
    rewrite Z.eqb_eq, bool_decide_eq_true. apply memcmp_0. congruence. }
  unfold id in H. cbn beta in H. destruct (for_until _ _ _ _) as [u|i].
  - intros j Hj E. specialize (H j ltac:(lia)). rewrite Hkey, bool_decide_eq_true_2 in H by (lia || done). done.
  - destruct H as (i' & Hi & Hp & -> & Hlow). split; [lia|]. rewrite Hkey in Hp by lia. apply bool_decide_eq_true in Hp.
    split; [done|]. intros j Hj E. specialize (Hlow j ltac:(lia)). rewrite Hkey, bool_decide_eq_true_2 in Hlow by (lia || done). done.
Qed.

(** C23: a client gets its addresses. The request a client's connection sends,
    handed to a server that allows the client's key, is answered with the
    addresses allowed; the answer, handed to the client, puts them in the very
    connection that asked, also when there are several to the same server, and
    asks the angel to set them. Nothing else changes. The two hosts may have
    different byte orders. *)
Theorem IpTunnel_addresses_issued (Pc Ps : Platform) (Tc : TunType Pc) (Ts : TunType Ps)
    (fc fs : Message -> Z) (tunc tuns : option (Message -> Z)) printc prints stackc stacks ec es
    (client server : IpTunnel) (serverKey clientKey : list Z) (i j s : Z) :
  tunnel_ok client -> tunnel_ok server -> List.length serverKey = 32%nat -> List.length clientKey = 32%nat ->
  connectionByPubKey serverKey client = Some i -> isOutgoing (connections client i) = true ->
  0 <= j < count client -> nodeKey (connections client j) = serverKey ->
  0 <= number (connections client j) < nextConnectionNumber client ->
  connectionByPubKey clientKey server = Some s -> isOutgoing (connections server s) = false ->
  bytes_ok (connectionIp6 (connections server s)) -> bytes_ok (connectionIp4 (connections server s)) ->
  let ip6 := nonzero (connectionIp6 (connections server s)) in
  let ip4 := nonzero (connectionIp4 (connections server s)) in
  ip6 <> None \/ ip4 <> None ->
  exists m1 packet1, @requestAddresses Pc (Some fc) stackc (connections client j) = Some (fc m1, [ToNode m1]) /\
    content m1 = nodeIp6Addr (connections client j) ++ serverKey ++ packet1 /\
    forall q1 from1, arrives q1 from1 clientKey packet1 ->
    exists m2 packet2, @incomingFromNode Ps Ts (Some fs) tuns prints stacks es q1 server = Some (server, fs m2, [ToNode m2]) /\
      content m2 = nodeIp6Addr (connections server s) ++ clientKey ++ packet2 /\
      forall q2 from2, arrives q2 from2 serverKey packet2 ->
      exists client', @incomingFromNode Pc Tc (Some fc) tunc printc stackc ec q2 client =
          Some (client', 0, offer_events printc ip6 ip4 client) /\
        count client' = count client /\
        forall k, connections client' k =
          if k =? j then issue ip6 ip4 (connections client j) else connections client k.
Proof.
  intros Hc Hs Lsk Lck Ei Hi Hj Ekj Hn Es Hso B6 B4 ip6 ip4 Hsome.
  pose proof (connectionByPubKey_spec serverKey client Hc Lsk) as Hki. rewrite Ei in Hki. destruct Hki as (Ri & Eki & _).
  pose proof (connectionByPubKey_spec clientKey server Hs Lck) as Hks. rewrite Es in Hks. destruct Hks as (Rs & Eks & _).
  pose proof (conn_ok_at client j Hc Hj) as (Lj & Lkj & _).
  pose proof (conn_ok_at server s Hs Rs) as Hoks. pose proof Hoks as (Ls & Lks & L6 & L4).
  set (txid := @store Pc 4 (number (connections client j))).
  assert (short_bytes txid) as Htx by (split; [unfold txid; rewrite length_store; lia|apply store_ok]).
  assert (short_option ip6) as S6 by (unfold ip6, nonzero; destruct (Bits_isZero _ _ _); cbn; [done|split; [lia|done]]).
  assert (short_option ip4) as S4 by (unfold ip4, nonzero; destruct (Bits_isZero _ _ _); cbn; [done|split; [lia|done]]).
  destruct (request_sendable es txid Htx) as (D1 & I1 & O1 & N1).
  destruct (@sendControlMessage_spec Pc fc stackc (request_dict txid) (connections client j) D1 N1 Lj Lkj) as (m1 & Em1 & Cm1 & _).
  exists m1, (@tunnel_packet Pc (encode_dict (request_dict txid))). split; [exact Em1|]. split; [rewrite Cm1, Ekj; done|].
  intros q1 from1 Hq1. rewrite (tunnel_packet_host Pc Ps _ O1 ltac:(lia)) in Hq1.
  destruct (offer_sendable ec ip6 ip4 txid S6 S4 Htx) as (D2 & I2 & O2 & N2).
  destruct (@sendControlMessage_spec Ps fs stacks (offer_dict ip6 ip4 txid) (connections server s) D2 N2 Ls Lks) as (m2 & Em2 & Cm2 & _).
  exists m2, (@tunnel_packet Ps (encode_dict (offer_dict ip6 ip4 txid))).
  rewrite (@incomingFromNode_control Ps Ts (Some fs) tuns prints stacks es q1 from1 clientKey (request_dict txid) s server Hq1 N1 O1 D1 I1 Es).
  destruct (request_parsed txid) as (-> & -> & Etx).
  rewrite (requestForAddresses_spec _ _ _ _ txid Hoks Hso Etx). fold ip6 ip4.
  assert ((match ip6 with Some a => if (List.length a =? 16)%nat then Some a else None | None => None end) = ip6) as V6
    by (unfold ip6, nonzero; destruct (Bits_isZero _ _ _); [done|]; rewrite L6; done).
  assert ((match ip4 with Some a => if (List.length a =? 4)%nat then Some a else None | None => None end) = ip4) as V4
    by (unfold ip4, nonzero; destruct (Bits_isZero _ _ _); [done|]; rewrite L4; done).
  clearbody ip6 ip4.
  split; [|split; [rewrite Cm2, Eks; done|]].
  { destruct ip6 as [a|], ip4 as [b|]; [rewrite Em2; reflexivity..|]. destruct Hsome as [Hs0|Hs0]; destruct Hs0; reflexivity. }
  intros q2 from2 Hq2. rewrite (tunnel_packet_host Ps Pc _ O2 ltac:(lia)) in Hq2.
  rewrite (@incomingFromNode_control Pc Tc (Some fc) tunc printc stackc ec q2 from2 serverKey (offer_dict ip6 ip4 txid) i client Hq2 N2 O2 D2 I2 Ei).
  destruct (offer_parsed ip6 ip4 txid) as (Ha & Etx2 & E6 & E4). 
  destruct (Dict_getDict (Some (parsed_dict (offer_dict ip6 ip4 txid))) (Some (chars "addresses"))) as [o|]; [|contradiction Ha; reflexivity]. clear Ha.
  destruct (@incomingAddresses_spec Pc printc (parsed_dict (offer_dict ip6 ip4 txid)) i j client)
    as (client' & Ein & Ec & _ & _ & _ & Eall); [done..|].
  rewrite decide_True in Ein by congruence. rewrite E6, E4, V6, V4 in *.
  exists client'. rewrite Ein. split; [done|]. split; [done|]. intros k. rewrite Eall. cbn [connections set_connection].
  unfold set_at. done.
Qed.

(** ** The filter on packets *)
Definition slice (l : list Z) (o k : nat) : list Z := take k (drop o l).

Lemma read_slice m a n l o k : read m a n = l -> Z.of_nat (o + k) <= n ->
  read m (a + Z.of_nat o) (Z.of_nat k) = slice l o k.
Proof.
  intros E H. assert (List.length l = Z.to_nat n) as Hl by (rewrite <-E; apply length_read).
  apply (read_field m a n (take o l) _ (drop k (drop o l))).
  - unfold slice. rewrite !take_drop. exact E.
  - rewrite length_take. lia.
  - unfold slice. rewrite length_take, length_drop. lia.
Qed.

(** The addresses of a packet, and the zero ones. *)
Definition source_of (isIp6 : bool) (packet : list Z) : list Z := if isIp6 then slice packet 8 16 else slice packet 12 4.
Definition destination_of (isIp6 : bool) (packet : list Z) : list Z := if isIp6 then slice packet 24 16 else slice packet 16 4.
Definition version_of (packet : list Z) : Z := (nth 0 packet 0 .& 0xF0) >> 4.

(** A connection whose address lets a packet through. *)
Definition lets_through (isIp6 isFromTun : bool) (source destination : list Z) (c : IpTunnel_Connection) : bool :=
  bool_decide ((if Bool.eqb c.(isOutgoing) isFromTun then source else destination) =
               (if isIp6 then c.(connectionIp6) else c.(connectionIp4))).

(** Places [i] to [count], which is the place behind the last connection. *)
Definition passing_places (context : IpTunnel) (i : Z) : list IpTunnel_Connection :=
  map context.(connections) (seqZ i (context.(count) - i + 1)).

Lemma getConnection_loop_spec n : forall i source destination (isIp6 isFromTun : bool) cs,
  List.length source = (if isIp6 then 16 else 4)%nat -> List.length destination = (if isIp6 then 16 else 4)%nat ->
  (forall k, i <= k <= i + Z.of_nat n -> connection_ok (cs k)) ->
  match getConnection_loop n i source destination isIp6 isFromTun cs with
  | Some k => i <= k <= i + Z.of_nat n /\ lets_through isIp6 isFromTun source destination (cs k) = true /\
      forall j, i <= j < k -> lets_through isIp6 isFromTun source destination (cs j) = false
  | None => forall j, i <= j <= i + Z.of_nat n -> lets_through isIp6 isFromTun source destination (cs j) = false
  end.
Proof.
  induction n as [|n IH]; intros i source destination isIp6 isFromTun cs Ls Ld Hok; cbn [getConnection_loop].
  all: destruct (Hok i ltac:(lia)) as (_ & _ & L6 & L4).
  all: assert ((Bits_memcmp (if isFromTun then if isOutgoing (cs i) then source else destination
         else if isOutgoing (cs i) then destination else source) (if isIp6 then connectionIp6 (cs i) else connectionIp4 (cs i)) =? 0)
       = lets_through isIp6 isFromTun source destination (cs i)) as ->
    by (apply eq_true_iff_eq; unfold lets_through; rewrite Z.eqb_eq, bool_decide_eq_true;
        destruct isFromTun, (isOutgoing (cs i)), isIp6; apply memcmp_0; cbn in *; congruence).
  all: destruct (lets_through _ _ _ _ (cs i)) eqn:E.
  1, 3: split; [lia|]; split; [done|]; intros j Hj; lia.
  - intros j Hj. replace j with i by lia. exact E.
  - specialize (IH (i + 1) source destination isIp6 isFromTun cs Ls Ld ltac:(intros k Hk; apply Hok; lia)).
    destruct (getConnection_loop _ _ _ _ _ _ _) as [k|].
    + destruct IH as (H1 & H2 & H3). split; [lia|]. split; [done|]. intros j Hj.
      destruct (decide (j = i)) as [->|]; [exact E|]. apply H3. lia.
    + intros j Hj. destruct (decide (j = i)) as [->|]; [exact E|]. apply IH. lia.
Qed.

(** Whether a connection is found, for the guard of the packets of a node. *)
Lemma getConnection_found context i source destination (isIp6 isFromTun : bool) :
  tunnel_ok context -> connection_ok (connections context (count context)) -> 0 <= i <= count context ->
  List.length source = (if isIp6 then 16 else 4)%nat -> List.length destination = (if isIp6 then 16 else 4)%nat ->
  match getConnection i source destination isIp6 isFromTun context with
  | Some k => i <= k <= count context /\ lets_through isIp6 isFromTun source destination (connections context k) = true /\
      forall j, i <= j < k -> lets_through isIp6 isFromTun source destination (connections context j) = false
  | None => forall j, i <= j <= count context -> lets_through isIp6 isFromTun source destination (connections context j) = false
  end.
Proof.
  intros Hok Hlast Hi Ls Ld. unfold getConnection.
  pose proof (getConnection_loop_spec (Z.to_nat (count context - i)) i source destination isIp6 isFromTun (connections context) Ls Ld) as H.
  replace (i + Z.of_nat (Z.to_nat (count context - i))) with (count context) in H by lia. apply H.
  intros k Hk. destruct (decide (k = count context)) as [->|]; [done|]. apply conn_ok_at; [done|lia].
Qed.

Lemma found_existsb context i source destination (isIp6 isFromTun : bool) :
  tunnel_ok context -> connection_ok (connections context (count context)) -> 0 <= i <= count context ->
  List.length source = (if isIp6 then 16 else 4)%nat -> List.length destination = (if isIp6 then 16 else 4)%nat ->
  (match getConnection i source destination isIp6 isFromTun context with Some _ => true | None => false end) =
  existsb (lets_through isIp6 isFromTun source destination) (passing_places context i).
Proof.
  intros Hok Hlast Hi Ls Ld. pose proof (getConnection_found context i source destination isIp6 isFromTun Hok Hlast Hi Ls Ld) as H.
  symmetry. destruct (getConnection _ _ _ _ _ _) as [k|].
  - destruct H as (Hk & E & _). apply existsb_exists. exists (connections context k). split; [|done].
    unfold passing_places. apply in_map, list_elem_of_In, elem_of_seqZ. lia.
  - apply not_true_iff_false. intros Hex. apply existsb_exists in Hex as (c & Hin & E).
    unfold passing_places in Hin. apply in_map_iff in Hin as (j & <- & Hin). apply list_elem_of_In, elem_of_seqZ in Hin.
    rewrite H in E by lia. discriminate.
Qed.

Lemma version_shift b : is_byte b -> (b .& 0xF0) >> 4 = b >> 4.
Proof.
  unfold is_byte. intros Hb. rewrite Z.shiftr_land. change (0xF0 >> 4) with (Z.ones 4). rewrite Z.land_ones by lia.
  rewrite Z.shiftr_div_pow2 by lia. apply Z.mod_small. split; [apply Z.div_pos; lia|apply Z.div_lt_upper_bound; lia].
Qed.

Lemma slice_zero m a n o k l : read m a n = l -> Z.of_nat (o + k) <= n ->
  Bits_isZero m (a + Z.of_nat o) (Z.of_nat k) = bool_decide (slice l o k = repeat 0 k).
Proof.
  intros E H. apply eq_true_iff_eq. rewrite isZero_spec, bool_decide_eq_true, Nat2Z.id, (read_slice m a n l o k E H). done.
Qed.

Section guard.
  Context {P : Platform} {T : TunType P} {laws : TunTypeLaws P T}.
  Variables (nodeInterface : option (Message -> Z)) (tun : Message -> Z).
  Variable Sockaddr_print : list Z -> String.
  Variable stack : mem.
  Variable erange : bool.

(** C24: what reaches the TUN device. A packet of a node that has a connection,
    with addresses that are not zero, goes to the device, unchanged and marked
    with its type, exactly if one of the connections from the node's first one
    on lets it through (a client's: by its source, a server's: by its
    destination); the place behind the last connection, which is not one, counts
    too. Any other IPv4 or IPv6 packet with such addresses and a content is refused,
    and packets of other nodes are dropped. *)
Theorem IpTunnel_guards_tun (isIp6 : bool) (q : Message) (context : IpTunnel) (from key packet : list Z) :
  message_ok q -> arrives q from key packet -> tunnel_ok context ->
  connection_ok (connections context (count context)) ->
  version_of packet = (if isIp6 then 6 else 4) -> (if isIp6 then 40 else 20) < Z.of_nat (List.length packet) ->
  source_of isIp6 packet <> repeat 0 (if isIp6 then 16 else 4) ->
  destination_of isIp6 packet <> repeat 0 (if isIp6 then 16 else 4) ->
  let result := incomingFromNode nodeInterface (Some tun) Sockaddr_print stack erange q context in
  match connectionByPubKey key context with
  | None => result = Some (context, 0, [])
  | Some i =>
      if existsb (lets_through isIp6 false (source_of isIp6 packet) (destination_of isIp6 packet)) (passing_places context i)
      then exists m m', result = Some (context, if isIp6 then 0 else tun m, [ToTun m]) /\
        TUNMessageType_pop m = Some (if isIp6 then Ethernet_TYPE_IP6 else Ethernet_TYPE_IP4, m') /\ content m' = packet
      else result = Some (context, Error_INVALID, [])
  end.
Proof.
  intros Hq Harr Hok Hlast Hv Hlen Hs Hd. cbv zeta. destruct (arrives_key _ _ _ _ Harr) as (Ek & q1 & E1 & Ec & El & Eb & Ea & Ep).
  destruct Harr as (_ & Elq & _ & Lkey & _). unfold incomingFromNode, IpTunnel_PacketInfoHeader_SIZE, PacketInfoHeader_nodeKey.
  rewrite (proj2 (Z.leb_le _ _)) by lia. cbn [negb]. rewrite Ek. pose proof (connectionByPubKey_spec key context Hok Lkey) as Hkey.
  destruct (connectionByPubKey key context) as [i|]; [|done]. destruct Hkey as (Hi & _). rewrite E1. cbn [mbind option_bind].
  pose proof (shift_some _ _ _ Hq E1) as (Hq1 & _). assert (20 < Z.of_nat (List.length packet)) by (destruct isIp6; lia).
  assert (Headers_getIpVersion (buffer q1) (bytes q1) = version_of packet) as Ever.
  { unfold Headers_getIpVersion, version_of. rewrite <-Ec. unfold content. rewrite nth_read by lia. rewrite Z.add_0_r. done. }
  assert (buffer q1 (bytes q1) >> 4 = version_of packet) as Ever'.
  { rewrite <-Ever. symmetry. apply version_shift. apply Hq1. }
  assert (0 <= i <= count context) as Hi' by lia.
  rewrite Ever, Hv, El. unfold content in Ec. rewrite El in Ec.
  destruct isIp6; cbv iota in Hlen, Hs, Hd; cbn [source_of destination_of] in *.
  - change (6 =? 6) with true. rewrite (proj2 (Z.ltb_lt _ _)) by lia. cbn [andb]. unfold ip6FromNode.
    change 16 with (Z.of_nat 16). change IP6Header_sourceAddr with (Z.of_nat 8). change IP6Header_destinationAddr with (Z.of_nat 24).
    rewrite !(slice_zero _ _ _ _ _ _ Ec), !(read_slice _ _ _ _ _ _ Ec) by lia. rewrite !bool_decide_eq_false_2 by done. cbn [orb].
    rewrite <-(found_existsb context i) by (done || (unfold slice; rewrite length_take, length_drop; lia)).
    destruct (getConnection i (slice packet 8 16) (slice packet 24 16) true false context); [|done].
    destruct (push_pop q1 Ethernet_TYPE_IP6 Hq1 ltac:(destruct Hq as (_ & ? & _); lia)) as (m & m' & -> & Em & Em' & _);
      [right; split; [done|congruence]|]. exists m, m'. split; [done|]. split; [done|]. rewrite Em'. unfold content. rewrite El. exact Ec.
  - change (4 =? 6) with false. change (4 =? 4) with true. rewrite (proj2 (Z.ltb_lt 20 _)), andb_false_r by lia. cbn [andb].
    unfold ip4FromNode.
    change (bytes q1 + IP4Header_sourceAddr) with (bytes q1 + Z.of_nat 12). change (bytes q1 + IP4Header_destAddr) with (bytes q1 + Z.of_nat 16).
    change (Bits_isZero ?a ?b 4) with (Bits_isZero a b (Z.of_nat 4)). change (read ?a ?b 4) with (read a b (Z.of_nat 4)).
    rewrite !(slice_zero _ _ _ _ _ _ Ec), !(read_slice _ _ _ _ _ _ Ec) by lia. rewrite !bool_decide_eq_false_2 by done. cbn [orb].
    rewrite <-(found_existsb context i) by (done || (unfold slice; rewrite length_take, length_drop; lia)).
    destruct (getConnection i (slice packet 12 4) (slice packet 16 4) false false context); [|done].
    destruct (push_pop q1 Ethernet_TYPE_IP4 Hq1 ltac:(destruct Hq as (_ & ? & _); lia)) as (m & m' & -> & Em & Em' & _);
      [left; split; [done|rewrite Ever', Hv; done]|]. exists m, m'. split; [done|]. split; [done|]. rewrite Em'. unfold content. rewrite El. exact Ec.
Qed.
End guard.

(** ** Reachable states *)

(** The connection of the same number: its node and its direction stay. *)
Definition same_connection (c c' : IpTunnel_Connection) : Prop :=
  number c' = number c /\ nodeKey c' = nodeKey c /\ nodeIp6Addr c' = nodeIp6Addr c /\ isOutgoing c' = isOutgoing c.
Definition keeps (context context' : IpTunnel) : Prop :=
  forall c, In c (connection_list context) -> exists c', In c' (connection_list context') /\ same_connection c c'.

Lemma keeps_refl context : keeps context context.
Proof. intros c Hc. exists c. done. Qed.

Lemma keeps_trans c1 c2 c3 : keeps c1 c2 -> keeps c2 c3 -> keeps c1 c3.
Proof.
  intros H1 H2 c Hc. destruct (H1 c Hc) as (c' & Hc' & S1). destruct (H2 c' Hc') as (c'' & Hc'' & S2).
  exists c''. split; [done|]. unfold same_connection in *. intuition congruence.
Qed.

Lemma set_connection_keeps context i c : 0 <= i < count context -> same_connection (connections context i) c ->
  keeps context (set_connection context i c).
Proof.
  intros Hi Hs c0 Hc. apply in_connection in Hc as (j & Hj & <-).
  exists (connections (set_connection context i c) j). split; [apply connection_in; done|].
  cbn. unfold set_at. destruct (Z.eqb_spec j i) as [->|]; [exact Hs|done].
Qed.

Lemma connection_for_range n : forall a num i cs j, connection_for n a num i cs = Some j -> j = i \/ a <= j < a + Z.of_nat n.
Proof.
  induction n as [|n IH]; intros a num i cs j E; cbn [connection_for] in E; [injection E as <-; lia|].
  destruct (_ =? _); [destruct (negb _); [done|]|]; apply IH in E; lia.
Qed.

Section reachable.
  Context {P : Platform} {N : NaCl} {T : TunType P} {claws : NaClLaws N}.
  Variables (nodeInterface tunInterface : option (Message -> Z)).
  Variable Sockaddr_print : list Z -> String.
  Variable stack : mem.
  Variable erange : bool.

Definition good (context context' : IpTunnel) : Prop := tunnel_ok context' /\ keeps context context'.

Lemma good_refl context : tunnel_ok context -> good context context.
Proof. intros H. split; [done|apply keeps_refl]. Qed.

Lemma good_set context context0 j c : good context0 context -> 0 <= j < count context ->
  connection_ok c -> same_connection (connections context j) c -> good context0 (set_connection context j c).
Proof.
  intros [H1 H2] Hj Hc Hs. split; [apply set_connection_ok; [done..|apply Hs]|].
  eapply keeps_trans; [exact H2|]. apply set_connection_keeps; done.
Qed.

Lemma incomingAddresses_good d i context : tunnel_ok context -> 0 <= i < count context ->
  let '(context', _, _) := incomingAddresses Sockaddr_print d i context in good context context'.
Proof.
  intros Hok Hi. unfold incomingAddresses. pose proof (good_refl context Hok) as Hg.
  destruct (negb (isOutgoing _)); [exact Hg|]. destruct (Dict_getString (Some d) _) as [txid|]; [|exact Hg].
  destruct (negb _); [exact Hg|]. destruct (_ || _); [exact Hg|]. cbv zeta.
  match goal with |- context [match ?o with Some _ => _ | None => _ end] => destruct o as [j|] eqn:Ej end; [|exact Hg].
  assert (0 <= j < count context) as Hj.
  { destruct (negb (_ =? _)); [apply connection_for_range in Ej|injection Ej as <-; done].
    pose proof Hok as (? & ? & ? & _). rewrite s32_small in Ej by lia. lia. }
  clear Ej. destruct (conn_ok_at context j Hok Hj) as (L1 & L2 & L3 & L4).
  match goal with |- context [match ?o with Some ip4 => _ | None => _ end] => set (o4 := o) end.
  assert (exists ctx ev, (match o4 with
     | Some ip4 => if (List.length ip4 =? 4)%nat
         then (set_connection context j (set_ip4 (connections context j) ip4), addAddress (Sockaddr_print ip4) context)
         else (context, [])
     | None => (context, []) end) = (ctx, ev) /\ good context ctx /\ count ctx = count context) as (ctx & ev & -> & Hg' & Ecount).
  { destruct o4 as [ip4|]; [destruct (Nat.eqb_spec (List.length ip4) 4)|]; (do 2 eexists; split; [reflexivity|]; split; [|done]);
      try exact Hg. apply good_set; done. }
  destruct (conn_ok_at ctx j) as (L1' & L2' & L3' & L4'); [apply Hg'|lia|].
  destruct (Dict_getString _ (Some (chars "ip6"))) as [ip6|]; [|exact Hg'].
  destruct (Nat.eqb_spec (List.length ip6) 16); [|exact Hg']. apply good_set; [exact Hg'|lia|done|done].
Qed.

Lemma incomingFromNode_good q context context' code events : tunnel_ok context ->
  incomingFromNode nodeInterface tunInterface Sockaddr_print stack erange q context = Some (context', code, events) ->
  good context context'.
Proof.
  intros Hok E. pose proof (good_refl context Hok) as Hg. unfold incomingFromNode in E. destruct (negb _); [done|].
  set (key := read _ _ 32) in E. pose proof (connectionByPubKey_spec key context Hok ltac:(apply length_read)) as Hkey.
  destruct (connectionByPubKey key context) as [i|]; [|by simplify_eq]. destruct Hkey as (Hi & _).
  destruct (Message_shift q _) as [q1|]; cbn [mbind option_bind] in E; [|done].
  assert (forall q1, incomingControlMessage nodeInterface Sockaddr_print stack erange q1 i context = Some (context', code, events) -> good context context') as Hcontrol.
  { clear E. intros q2 E. unfold incomingControlMessage in E.
    destruct (isControlMessageInvalid q2) as [[code0 q3]|]; cbn [mbind option_bind] in E; [|done].
    destruct (negb _); [by simplify_eq|]. destruct (parseDictionary _ _ _) as [[[?|d] ?]|]; cbn [mbind option_bind] in E; [destruct (_ =? OUT_OF_MEMORY); by simplify_eq| |done].
    destruct (Dict_getDict (Some d) _).
    - pose proof (incomingAddresses_good d i context Hok Hi) as H. injection E as E. rewrite E in H. exact H.
    - destruct (String_equals _ _); [|by simplify_eq].
      destruct (requestForAddresses _ _ _ _) as [[? ?]|]; cbn [mbind option_bind] in E; [by simplify_eq|done]. }
  unfold ip6FromNode, ip4FromNode in E.
  repeat (case_match; try done; simplify_eq; eauto).
  all: destruct (TUNMessageType_push _ _); cbn [mbind option_bind] in E; repeat case_match; simplify_eq; done.
Qed.

Lemma put_new_good context context' i c out : tunnel_ok context -> newConnection out context = Some (context', i) ->
  connection_ok c -> number c = number (connections context' i) -> good context (set_connection context' i c).
Proof.
  intros Hok E Hc En. split; [eapply new_connection_ok; done|]. pose proof (newConnection_spec out context Hok) as H.
  destruct (_ <? _) in H; [|congruence]. destruct H as (ctx & j & E' & _ & _ & _ & _ & _ & _ & Hl).
  rewrite E' in E. injection E as -> ->. intros c0 Hc0. exists c0. split; [|done]. rewrite (Hl c). right. exact Hc0.
Qed.

Lemma address_length key : List.length (fst (AddressCalc_addressForPublicKey key)) = 16%nat.
Proof. cbn. rewrite length_take, sha512_length. done. Qed.

(** What happens to a tunnel. Packets from the TUN device and polls change nothing. *)
Inductive tunnel_step : IpTunnel -> IpTunnel -> Prop :=
| step_allow key ip6 ip4 context context' n : List.length key = 32%nat ->
    (forall a, ip6 = Some a -> List.length a = 16%nat) -> (forall a, ip4 = Some a -> List.length a = 4%nat) ->
    IpTunnel_allowConnection key ip6 ip4 context = Some (context', n) -> tunnel_step context context'
| step_connect key context context' n events : List.length key = 32%nat ->
    IpTunnel_connectTo nodeInterface stack key context = Some (context', n, events) -> tunnel_step context context'
| step_remove n context : tunnel_step context (fst (IpTunnel_removeConnection n context))
| step_name name context : tunnel_step context (IpTunnel_setTunName name context)
| step_message q context context' code events :
    incomingFromNode nodeInterface tunInterface Sockaddr_print stack erange q context = Some (context', code, events) ->
    tunnel_step context context'.

Lemma set_node_ok c ip key : List.length ip = 16%nat -> List.length key = 32%nat ->
  List.length c.(connectionIp6) = 16%nat -> List.length c.(connectionIp4) = 4%nat -> connection_ok (set_node c ip key).
Proof. done. Qed.
Lemma set_ip4_ok c ip4 : connection_ok c -> List.length ip4 = 4%nat -> connection_ok (set_ip4 c ip4).
Proof. intros (H1 & H2 & H3 & _) H. done. Qed.
Lemma set_ip6_ok c ip6 : connection_ok c -> List.length ip6 = 16%nat -> connection_ok (set_ip6 c ip6).
Proof. intros (H1 & H2 & _ & H4) H. done. Qed.

Lemma key_length_32 (key : list Z) : List.length key = 32%nat -> List.length (take 32 key) = 32%nat.
Proof. intros H. rewrite length_take, H. done. Qed.

(** The connection that is new, with the node it is to. *)
Lemma fresh_node_ok out key n : List.length key = 32%nat ->
  let key := take 32 key in connection_ok (set_node (fresh_connection out n) (fst (AddressCalc_addressForPublicKey key)) key).
Proof. intros Lk k. apply set_node_ok; [apply address_length|by apply key_length_32|done|done]. Qed.

(** The addresses that the other end is given. *)
Definition with_addresses (ip6 ip4 : option (list Z)) (c : IpTunnel_Connection) : IpTunnel_Connection :=
  let c := match ip4 with Some ip4 => set_ip4 c (take 4 ip4) | None => c end in
  match ip6 with Some ip6 => set_ip6 c (take 16 ip6) | None => c end.

Lemma with_addresses_ok ip6 ip4 c : connection_ok c ->
  (forall a, ip6 = Some a -> List.length a = 16%nat) -> (forall a, ip4 = Some a -> List.length a = 4%nat) ->
  connection_ok (with_addresses ip6 ip4 c) /\ number (with_addresses ip6 ip4 c) = number c.
Proof.
  intros Hc L6 L4. unfold with_addresses.
  assert (connection_ok (match ip4 with Some ip4 => set_ip4 c (take 4 ip4) | None => c end)) as Hc4.
  { destruct ip4 as [ip4|]; [|done]. apply set_ip4_ok; [done|]. rewrite length_take, (L4 _ eq_refl). done. }
  split; [|by destruct ip6, ip4].
  destruct ip6 as [ip6|]; [|done]. apply set_ip6_ok; [done|]. rewrite length_take, (L6 _ eq_refl). done.
Qed.

Lemma newConnection_fresh out context context' i : tunnel_ok context -> newConnection out context = Some (context', i) ->
  connections context' i = fresh_connection out (nextConnectionNumber context).
Proof.
  intros Hok E. pose proof (newConnection_spec out context Hok) as H. destruct (_ <? _) in H; [|congruence].
  destruct H as (ctx & j & E' & _ & _ & _ & _ & _ & Ef & _). rewrite E' in E. injection E as <- <-. exact Ef.
Qed.

Lemma put_node_good out context context' i key ip6 ip4 : tunnel_ok context -> newConnection out context = Some (context', i) ->
  List.length key = 32%nat ->
  (forall a, ip6 = Some a -> List.length a = 16%nat) -> (forall a, ip4 = Some a -> List.length a = 4%nat) ->
  let key := take 32 key in
  good context (set_connection context' i
    (with_addresses ip6 ip4 (set_node (connections context' i) (fst (AddressCalc_addressForPublicKey key)) key))).
Proof.
  intros Hok En Lk L6 L4 k. pose proof (fresh_node_ok out key (nextConnectionNumber context) Lk) as Hc. cbv zeta in Hc.
  rewrite <-(newConnection_fresh out context context' i Hok En) in Hc.
  destruct (with_addresses_ok ip6 ip4 _ Hc L6 L4) as [Hok' Hnum]. exact (put_new_good _ _ _ _ _ Hok En Hok' Hnum).
Qed.

Lemma allowConnection_good key ip6 ip4 context context' n : tunnel_ok context -> List.length key = 32%nat ->
  (forall a, ip6 = Some a -> List.length a = 16%nat) -> (forall a, ip4 = Some a -> List.length a = 4%nat) ->
  IpTunnel_allowConnection key ip6 ip4 context = Some (context', n) -> good context context'.
Proof.
  intros Hok Lk L6 L4 E. unfold IpTunnel_allowConnection in E.
  destruct (newConnection false context) as [[c1 i]|] eqn:En; [|done]. cbn [mbind option_bind] in E. injection E as <- _.
  exact (put_node_good false context c1 i key ip6 ip4 Hok En Lk L6 L4).
Qed.

Lemma connectTo_good key context context' n events : tunnel_ok context -> List.length key = 32%nat ->
  IpTunnel_connectTo nodeInterface stack key context = Some (context', n, events) -> good context context'.
Proof.
  intros Hok Lk E. unfold IpTunnel_connectTo in E. apply bind_Some in E as ([c1 i] & En & E).
  apply bind_Some in E as ([code events'] & _ & E). injection E as <- _ _.
  apply (put_node_good true context c1 i key None None Hok En Lk); done.
Qed.

Lemma setTunName_good name context : tunnel_ok context -> good context (IpTunnel_setTunName name context).
Proof. intros Hok. destruct context as [? ? ? ? ?]. split; [exact Hok|]. intros c Hc. exists c. done. Qed.

Lemma tunnel_step_good context context' : tunnel_ok context -> tunnel_step context context' -> good context context'.
Proof.
  intros Hok Hstep. destruct Hstep as [key ip6 ip4 ctx ctx' n Lk L6 L4 E|key ctx ctx' n ev Lk E| | |q ctx ctx' code ev E].
  - by eapply allowConnection_good.
  - by eapply connectTo_good.
  - apply good_refl, Hok.
  - by apply setTunName_good.
  - by eapply incomingFromNode_good.
Qed.

(** C34: every state a tunnel can get into is well-formed: the connections fit
    the array, their keys and addresses have their sizes, and no two have the
    same number. And a connection is for ever: no operation or message removes it
    or changes its number, its node or its direction. That goes for
    IpTunnel_removeConnection too, which returns 0 and does nothing, although
    IpTunnel.h and the description of the admin call say that it disconnects from
    the node, that the other end can no longer send over the connection, and that a
    number that is not in use gives IpTunnel_removeConnection_NOT_FOUND. *)
Theorem IpTunnel_reachable (memory : Z -> IpTunnel_Connection) (context context' : IpTunnel) :
  rtc tunnel_step (IpTunnel_new memory) context -> rtc tunnel_step context context' ->
  tunnel_ok context /\ tunnel_ok context' /\ keeps context context'.
Proof.
  intros H1 H2. assert (tunnel_ok context) as Hok.
  { assert (tunnel_ok (IpTunnel_new memory)) as H0.
    { unfold tunnel_ok, numbers_ok. cbn. repeat split; try lia; constructor. }
    clear H2. induction H1 as [c|c1 c2 c3 Hs _ IH]; [done|]. apply IH. apply (tunnel_step_good c1 c2); done. }
  split; [done|]. clear H1. induction H2 as [c|c1 c2 c3 Hs _ IH]; [split; [done|apply keeps_refl]|].
  destruct (tunnel_step_good c1 c2 Hok Hs) as [Hok2 Hk]. destruct (IH Hok2) as [Hok3 Hk']. split; [done|].
  eapply keeps_trans; done.
Qed.
End reachable.

(** ** An offer to a connection that asked for nothing *)
Section any_connection.
  Context {P : Platform} {T : TunType P}.
  Variables (nodeInterface tunInterface : option (Message -> Z)).
  Variable Sockaddr_print : list Z -> String.
  Variable stack : mem.
  Variable erange : bool.

(** If the first connection with a node's key is outgoing, an offer of that
    node is written into whichever connection with that key has the number of
    the transaction: also into an incoming one, whose addresses this node, the
    server, had chosen. *)
Theorem IpTunnel_offer_to_any_connection (q : Message) (context : IpTunnel) (from key ip6 ip4 : list Z) (i j : Z) :
  tunnel_ok context -> List.length key = 32%nat -> connectionByPubKey key context = Some i ->
  isOutgoing (connections context i) = true ->
  0 <= j < count context -> nodeKey (connections context j) = key ->
  0 <= number (connections context j) < nextConnectionNumber context ->
  List.length ip6 = 16%nat -> List.length ip4 = 4%nat -> bytes_ok ip6 -> bytes_ok ip4 ->
  arrives q from key (tunnel_packet (encode_dict (offer_dict (Some ip6) (Some ip4) (store 4 (number (connections context j)))))) ->
  exists context' events,
    incomingFromNode nodeInterface tunInterface Sockaddr_print stack erange q context = Some (context', 0, events) /\
    connections context' j = set_ip6 (set_ip4 (connections context j) ip4) ip6.
Proof.
  intros Hok Lk Ei Ho Hj Ekj Hn L6 L4 B6 B4 Hq. set (txid := store 4 _) in *.
  pose proof (connectionByPubKey_spec key context Hok Lk) as Hki. rewrite Ei in Hki. destruct Hki as (Ri & Eki & _).
  assert (short_bytes txid) as Htx by (split; [unfold txid; rewrite length_store; lia|apply store_ok]).
  destruct (offer_sendable erange (Some ip6) (Some ip4) txid) as (D & I & O & L); [split; [lia|done]|split; [lia|done]|done|].
  rewrite (incomingFromNode_control nodeInterface tunInterface Sockaddr_print stack erange q from key _ i context Hq L O D I Ei).
  destruct (offer_parsed (Some ip6) (Some ip4) txid) as (Ha & Etx & E6 & E4).
  destruct (Dict_getDict (Some (parsed_dict (offer_dict (Some ip6) (Some ip4) txid))) (Some (chars "addresses"))) as [o|];
    [|contradiction Ha; reflexivity]. clear Ha.
  destruct (incomingAddresses_spec Sockaddr_print (parsed_dict (offer_dict (Some ip6) (Some ip4) txid)) i j context)
    as (context' & Ein & _ & _ & _ & _ & Eall); [done..|].
  rewrite decide_True in Ein by congruence. rewrite E6, E4, L6, L4 in *. cbn [Nat.eqb] in *.
  exists context'. eexists. split; [rewrite Ein; reflexivity|]. rewrite Eall. cbn [connections set_connection].
  unfold set_at. rewrite Z.eqb_refl. done.
Qed.
End any_connection.

(** ** The order of the connections *)

(** The connections of clients come before those to servers. *)
Definition incoming_first (context : IpTunnel) : Prop :=
  exists p, 0 <= p <= count context /\
    forall i, 0 <= i < count context -> isOutgoing (connections context i) = (p <=? i).

(** Places [0..k] but [conn] are incoming below [b] and outgoing from [b] on. *)
Definition ordered_but (cs : Z -> IpTunnel_Connection) (conn k b : Z) : Prop :=
  forall j, 0 <= j <= k -> j <> conn -> isOutgoing (cs j) = (b <=? j).

(** Above the last incoming connection nothing moves. *)
Lemma make_room_outgoing n : forall p cs conn, (p <= n)%nat ->
  (forall i, Z.of_nat p <= i < Z.of_nat n -> isOutgoing (cs i) = true) ->
  make_room n cs conn = make_room p cs conn.
Proof.
  induction n as [|n IH]; intros p cs conn Hp Ho; [replace p with 0%nat by lia; done|].
  destruct (decide (p = S n)) as [->|]; [done|]. cbn [make_room]. rewrite Ho by lia. cbn [negb andb].
  apply IH; [lia|]. intros i Hi. apply Ho. lia.
Qed.

(** Below it the hole moves down to the second place. *)
Lemma make_room_incoming n : forall cs k p, (0 < n)%nat -> Z.of_nat n <= p -> p <= k ->
  ordered_but cs (Z.of_nat n) k (p + 1) ->
  let '(cs', conn') := make_room (n - 1) cs (Z.of_nat n) in conn' = 1 /\ ordered_but cs' 1 k (p + 1).
Proof.
  induction n as [|[|n] IH]; intros cs k p Hn Hp Hk Ho; [lia|done|].
  replace (S (S n) - 1)%nat with (S n) by lia. cbn [make_room].
  rewrite (Ho (Z.of_nat n)) by lia. rewrite (proj2 (Z.leb_gt _ _)) by lia.
  destruct (Z.eqb_spec (Z.of_nat (S (S n))) (Z.of_nat n + 1)); [lia|]. cbn [negb andb].
  replace (Z.of_nat n + 1) with (Z.of_nat (S n)) by lia.
  specialize (IH (set_at cs (Z.of_nat (S (S n))) (cs (Z.of_nat (S n)))) k p ltac:(lia) ltac:(lia) Hk).
  replace (S n - 1)%nat with n in IH by lia. apply IH. intros j Hj Hne. unfold set_at.
  destruct (Z.eqb_spec j (Z.of_nat (S (S n)))) as [->|]; [|apply Ho; lia].
  rewrite Ho by lia. rewrite !(proj2 (Z.leb_gt _ _)) by lia. done.
Qed.

(** Where a new connection goes. One to a server goes last; one of a client
    goes second, and the order is kept, if there is a client already; but if
    there are only connections to servers it goes behind them, and the order on
    which the search for a connection relies is broken. *)
Theorem IpTunnel_newConnection_order (out : bool) (context context' : IpTunnel) (i : Z) :
  tunnel_ok context -> incoming_first context -> newConnection out context = Some (context', i) ->
  if (0 <? count context) && negb out && isOutgoing (connections context 0) then
    i = count context /\ isOutgoing (connections context' 0) = true /\ isOutgoing (connections context' i) = false /\
    ~ incoming_first context'
  else incoming_first context' /\ i = (if out then count context else Z.min 1 (count context)).
Proof.
  intros Hok (p & Hp & Ho) E. pose proof Hok as (Hc & Hc' & Hn & _).
  unfold newConnection in E. rewrite s32_small in E by lia.
  destruct out.
  { rewrite andb_false_r. cbn [andb]. destruct (_ <? _) in E; [|done]. injection E as <- <-. split; [|done].
    exists p. cbn [count connections]. rewrite u32_small by lia. split; [lia|]. intros i Hi. unfold set_at. cbn [isOutgoing].
    destruct (Z.eqb_spec i (count context)) as [->|]; [symmetry; apply Z.leb_le; lia|apply Ho; lia]. }
  rewrite andb_true_r. assert (make_room (Z.to_nat (count context)) (connections context) (count context) =
    make_room (Z.to_nat p) (connections context) (count context)) as Em.
  { apply make_room_outgoing; [lia|]. intros k Hk. rewrite Ho by lia. apply Z.leb_le. lia. }
  rewrite Em in E. destruct (decide (p = 0)) as [->|Hp0].
  - cbn [make_room Z.to_nat] in E. destruct (_ <? _) in E; [|done]. injection E as <- <-.
    destruct (Z.ltb_spec 0 (count context)) as [Hpos|Hpos]; cbn [andb].
    + rewrite Ho by lia. change (0 <=? 0) with true. cbv iota. split; [done|]. cbn [count connections]. unfold set_at.
      rewrite Z.eqb_refl, (proj2 (Z.eqb_neq 0 _)) by lia. rewrite Ho by lia. split; [done|]. split; [done|].
      intros (p' & Hp' & Ho'). cbn [count connections] in *. rewrite u32_small in * by lia.
      pose proof (Ho' 0 ltac:(lia)) as H0. pose proof (Ho' (count context) ltac:(lia)) as H1. cbn beta in *.
      rewrite Z.eqb_refl in H1. rewrite (proj2 (Z.eqb_neq 0 _)), Ho in H0 by lia. cbn [isOutgoing] in H1. lia.
    + split; [|lia]. exists 1. cbn [count connections]. rewrite u32_small by lia. split; [lia|]. intros i Hi.
      unfold set_at. replace i with 0 by lia. replace (count context) with 0 by lia. done.
  - assert (isOutgoing (connections context 0) = false) as -> by (rewrite Ho by lia; apply Z.leb_gt; lia). rewrite andb_false_r.
    set (cs0 := if count context =? p then connections context else set_at (connections context) (count context) (connections context p)).
    assert (make_room (Z.to_nat p) (connections context) (count context) = make_room (Z.to_nat p - 1) cs0 (Z.of_nat (Z.to_nat p))) as E1.
    { destruct (Z.to_nat p) as [|n] eqn:En; [lia|]. cbn [make_room]. replace (S n - 1)%nat with n by lia.
      assert (p = Z.of_nat n + 1) as Ep by lia. rewrite Ho by lia. rewrite (proj2 (Z.leb_gt _ _)) by lia. cbn [negb andb].
      unfold cs0. rewrite Ep. replace (Z.of_nat (S n)) with (Z.of_nat n + 1) by lia.
      destruct (Z.eqb_spec (count context) (Z.of_nat n + 1)) as [Ec|]; cbn [negb]; [rewrite Ec|]; done. }
    rewrite E1 in E. pose proof (make_room_incoming (Z.to_nat p) cs0 (count context) p ltac:(lia) ltac:(lia) ltac:(lia)) as Hr.
    destruct (make_room _ _ _) as [cs conn]. destruct Hr as [-> Hr].
    { intros j Hj Hne. unfold cs0. destruct (Z.eqb_spec (count context) p).
      - rewrite Ho by lia. destruct (Z.leb_spec p j), (Z.leb_spec (p + 1) j); lia || done.
      - unfold set_at. destruct (Z.eqb_spec j (count context)) as [->|]; rewrite Ho by lia.
        + rewrite !(proj2 (Z.leb_le _ _)) by lia. done.
        + destruct (Z.leb_spec p j), (Z.leb_spec (p + 1) j); lia || done. }
    destruct (_ <? _) in E; [|done]. injection E as <- <-. split; [|lia]. exists (p + 1). cbn [count connections].
    rewrite u32_small by lia. split; [lia|]. intros i Hi. unfold set_at. destruct (Z.eqb_spec i 1) as [->|]; [|apply Hr; lia].
    cbn [isOutgoing]. symmetry. apply Z.leb_gt. lia.
Qed.

(** ** The poll *)
Lemma timeout_loop_spec fuel : forall i beginning context,
  0 <= beginning < count context -> beginning <= i -> i + Z.of_nat fuel = beginning + count context ->
  match timeout_loop fuel i beginning context with
  | Some k => i <= k < beginning + count context /\ needs_addresses (connections context k) = true /\
      forall j, i <= j < k -> needs_addresses (connections context j) = false
  | None => forall j, i <= j < beginning + count context -> needs_addresses (connections context j) = false
  end.
Proof.
  induction fuel as [|fuel IH]; intros i beginning context Hb Hi Hf; cbn [timeout_loop]; [intros j Hj; lia|].
  destruct (needs_addresses (connections context i)) eqn:E; [split; [lia|]; split; [done|]; intros j Hj; lia|].
  destruct (Z.eqb_spec ((i + 1) mod count context) beginning) as [Em|Em].
  - assert (i + 1 = beginning + count context) as Ei.
    { pose proof (Z.div_mod (i + 1) (count context) ltac:(lia)) as D. rewrite Em in D.
      assert ((i + 1) / count context = 1 \/ (i + 1) / count context < 1 \/ 1 < (i + 1) / count context) as [H|[H|H]] by lia; [lia|nia|nia]. }
    intros j Hj. replace j with i by lia. exact E.
  - specialize (IH (i + 1) beginning context Hb ltac:(lia) ltac:(lia)).
    destruct (timeout_loop fuel (i + 1) beginning context) as [k|].
    + destruct IH as (H1 & H2 & H3). split; [lia|]. split; [done|]. intros j Hj.
      destruct (decide (j = i)) as [->|]; [exact E|]. apply H3. lia.
    + intros j Hj. destruct (decide (j = i)) as [->|]; [exact E|]. apply IH. lia.
Qed.

(** The poll goes on behind the array. It begins at a random connection and
    asks for the first that is outgoing and has no address, among as many places
    as there are connections; but the places are not counted modulo their number.
    So the connections before the first one looked at are not seen, and what lies
    behind the array is. *)
Theorem IpTunnel_timeout_never_wraps `{Platform} (nodeInterface : option (Message -> Z)) (stack : mem) (random : Z)
    (context : IpTunnel) :
  tunnel_ok context -> 0 < count context ->
  let beginning := u32 random mod count context in
  timeout nodeInterface stack random context =
    match list_find (fun i => needs_addresses (connections context i)) (seqZ beginning (count context)) with
    | Some (_, i) => '(_, events) ← requestAddresses nodeInterface stack (connections context i); Some events
    | None => Some []
    end.
Proof.
  intros (Hc & Hcap & Hn & _) Hpos beginning. pose proof (Z.mod_pos_bound (u32 random) (count context) ltac:(lia)) as Hb.
  fold beginning in Hb. unfold timeout. rewrite (proj2 (Z.eqb_neq _ 0)) by lia. fold beginning. rewrite s32_small by lia.
  pose proof (timeout_loop_spec (Z.to_nat (count context)) beginning beginning context Hb ltac:(lia) ltac:(lia)) as Hs.
  destruct (timeout_loop _ _ _ _) as [k|].
  - destruct Hs as (Hk & Ek & Hlow).
    assert (list_find (fun i => needs_addresses (connections context i)) (seqZ beginning (count context)) = Some (Z.to_nat (k - beginning), k)) as ->; [|done].
    apply list_find_Some. split; [rewrite lookup_seqZ_lt by lia; f_equal; lia|]. split; [rewrite Ek; done|].
    intros j y Hj Hlt. apply lookup_seqZ in Hj as [-> Hj]. rewrite Hlow by lia. tauto.
  - assert (list_find (fun i => needs_addresses (connections context i)) (seqZ beginning (count context)) = None) as ->; [|done].
    apply list_find_None. apply Forall_forall. intros j Hj. apply list_elem_of_In, elem_of_seqZ in Hj. rewrite Hs by lia. tauto.
Qed.

(** ** Tunnels and messages for the witnesses *)
Definition demo_tunnel (l : list IpTunnel_Connection) : IpTunnel :=
  {| count := Z.of_nat (List.length l); connections := fun i => nth (Z.to_nat i) l zero_connection;
     connectionCapacity := 4; nextConnectionNumber := Z.of_nat (List.length l); ifName := Some (chars "tun0") |}.
Definition demo_connection (key : Z) (out : bool) (n a : Z) : IpTunnel_Connection :=
  {| nodeIp6Addr := repeat 0xFC 16; nodeKey := repeat key 32; connectionIp6 := repeat a 16; connectionIp4 := repeat a 4;
     isOutgoing := out; number := n |}.
Definition demo_message (l : list Z) : Message :=
  {| length := Z.of_nat (List.length l); padding := 0; bytes := 0; buffer := of_list l |}.

Lemma demo_list l : connection_list (demo_tunnel l) = l.
Proof.
  apply list_eq. intros k. unfold connection_list. change (map ?f ?x) with (f <$> x). rewrite list_lookup_fmap.
  destruct (decide (k < List.length l)%nat) as [Hk|Hk].
  - rewrite lookup_seqZ_lt by (cbn; lia). cbn. replace (Z.to_nat (0 + Z.of_nat k)) with k by lia.
    symmetry. destruct (lookup_lt_is_Some_2 l k Hk) as [x Ex]. rewrite Ex. f_equal. symmetry. apply nth_lookup_Some, Ex.
  - rewrite lookup_seqZ_ge by (cbn; lia). cbn. symmetry. apply lookup_ge_None. lia.
Qed.

Lemma demo_ok l : (1 <= List.length l <= 4)%nat -> Forall connection_ok l ->
  map number l = map s31 (seqZ 0 (Z.of_nat (List.length l))) -> tunnel_ok (demo_tunnel l).
Proof.
  intros Hl Hok En. unfold tunnel_ok, numbers_ok. rewrite demo_list. cbn [count connectionCapacity nextConnectionNumber demo_tunnel].
  split; [lia|]. split; [lia|]. split; [lia|]. split; [exact Hok|]. split.
  - rewrite En. apply NoDup_fmap_2_strong; [|apply NoDup_seqZ]. intros x y Hx Hy. apply elem_of_seqZ in Hx, Hy. apply s31_inj; lia.
  - apply Forall_forall. intros c Hc. apply (in_map number) in Hc. rewrite En in Hc. apply in_map_iff in Hc as (k & E & Hk).
    apply list_elem_of_In, elem_of_seqZ in Hk. exists k. split; [lia|done].
Qed.

Lemma demo_arrives ip6 key packet : List.length ip6 = 16%nat -> List.length key = 32%nat ->
  arrives (demo_message (ip6 ++ key ++ packet)) ip6 key packet.
Proof.
  intros L6 Lk. unfold arrives, content, demo_message. cbn [length bytes buffer]. rewrite read_of_list by done.
  split; [done|]. rewrite !length_app, L6, Lk. lia.
Qed.

Definition demo_client : IpTunnel := demo_tunnel [demo_connection 2 true 0 0].
Definition demo_server : IpTunnel := demo_tunnel [demo_connection 1 false 0 7].

Lemma IpTunnel_addresses_issued_witness : exists m1 packet1 m2 packet2 client',
  @requestAddresses x86 (Some (fun _ => 0)) scratch (demo_connection 2 true 0 0) = Some (0, [ToNode m1]) /\
  content m1 = repeat 0xFC 16 ++ repeat 2 32 ++ packet1 /\
  @incomingFromNode x86 tun_Linux (Some (fun _ => 0)) None (fun a => a) scratch false
    (demo_message (repeat 0xFC 16 ++ repeat 1 32 ++ packet1)) demo_server = Some (demo_server, 0, [ToNode m2]) /\
  content m2 = repeat 0xFC 16 ++ repeat 1 32 ++ packet2 /\
  @incomingFromNode x86 tun_Linux (Some (fun _ => 0)) None (fun a => a) scratch false
    (demo_message (repeat 0xFC 16 ++ repeat 2 32 ++ packet2)) demo_client =
    Some (client', 0, offer_events (fun a => a) (Some (repeat 7 16)) (Some (repeat 7 4)) demo_client) /\
  connectionIp4 (connections client' 0) = repeat 7 4.
Proof.
  destruct (IpTunnel_addresses_issued x86 x86 tun_Linux tun_Linux (fun _ => 0) (fun _ => 0) None None (fun a => a) (fun a => a)
    scratch scratch false false demo_client demo_server (repeat 2 32) (repeat 1 32) 0 0 0) as (m1 & packet1 & E1 & C1 & H).
  1, 2: apply demo_ok; [cbn; lia|repeat constructor|reflexivity].
  1, 2, 3, 4: reflexivity.
  1, 3: vm_compute; intuition discriminate.
  1, 2, 3: reflexivity.
  1, 2: apply bytes_ok_check; reflexivity.
  1: left; vm_compute; discriminate.
  destruct (H _ _ (demo_arrives (repeat 0xFC 16) (repeat 1 32) packet1 eq_refl eq_refl)) as (m2 & packet2 & E2 & C2 & H2).
  destruct (H2 _ _ (demo_arrives (repeat 0xFC 16) (repeat 2 32) packet2 eq_refl eq_refl)) as (client' & E3 & _ & E4).
  exists m1, packet1, m2, packet2, client'. split; [exact E1|]. split; [exact C1|]. split; [exact E2|]. split; [exact C2|].
  split; [exact E3|]. rewrite E4. reflexivity.
Defined.

(** A client uses the address of another one: accepted. *)
Definition demo_packet : list Z := [0x45] ++ repeat 0 11 ++ repeat 9 4 ++ repeat 8 4 ++ repeat 0 8.
Definition demo_two_clients : IpTunnel := demo_tunnel [demo_connection 1 false 0 7; demo_connection 3 false 1 9].

Lemma IpTunnel_guards_tun_witness : exists m m',
  @incomingFromNode x86 tun_Linux None (Some (fun _ => 5)) (fun a => a) scratch false
    (demo_message (repeat 0xFC 16 ++ repeat 1 32 ++ demo_packet)) demo_two_clients = Some (demo_two_clients, 5, [ToTun m]) /\
  @TUNMessageType_pop x86 tun_Linux m = Some (@Ethernet_TYPE_IP4 x86, m') /\ content m' = demo_packet.
Proof.
  pose proof (@IpTunnel_guards_tun x86 tun_Linux tun_Linux_laws None (fun _ => 5) (fun a => a) scratch false false
    (demo_message (repeat 0xFC 16 ++ repeat 1 32 ++ demo_packet)) demo_two_clients (repeat 0xFC 16) (repeat 1 32) demo_packet) as H.
  destruct H as (m & m' & H); [| | | | | | | |exists m, m'; exact H].
  - split; [vm_compute; intuition discriminate|]. split; [cbn; lia|]. split; [vm_compute; reflexivity|].
    apply of_list_ok, bytes_ok_check. reflexivity.
  - apply demo_arrives; reflexivity.
  - apply demo_ok; [cbn; lia|repeat constructor|reflexivity].
  - repeat constructor.
  - reflexivity.
  - reflexivity.
  - discriminate.
  - discriminate.
Defined.

Lemma IpTunnel_reachable_witness :
  let context := fst (default (IpTunnel_new (fun _ => zero_connection), 0)
    (IpTunnel_allowConnection (repeat 1 32) (Some (repeat 7 16)) None (IpTunnel_new (fun _ => zero_connection)))) in
  tunnel_ok context /\ tunnel_ok (IpTunnel_setTunName (chars "tun0") context) /\
  keeps context (IpTunnel_setTunName (chars "tun0") context).
Proof.
  apply (@IpTunnel_reachable x86 toy_nacl tun_Linux toy_laws None None (fun a => a) scratch false (fun _ => zero_connection)).
  - apply rtc_once. apply (step_allow _ _ _ _ _ (repeat 1 32) (Some (repeat 7 16)) None _ _ 0).
    + reflexivity.
    + intros a [= <-]. reflexivity.
    + discriminate.
    + reflexivity.
  - apply rtc_once, step_name.
Defined.

(** A server that was its client's client first. *)
Definition demo_both : IpTunnel := demo_tunnel [demo_connection 1 true 0 7; demo_connection 1 false 1 9].

Lemma IpTunnel_offer_to_any_connection_witness : exists q context' events,
  @incomingFromNode x86 tun_Linux None None (fun a => a) scratch false q demo_both = Some (context', 0, events) /\
  connections demo_both 1 = demo_connection 1 false 1 9 /\
  connections context' 1 = set_ip6 (set_ip4 (demo_connection 1 false 1 9) (repeat 3 4)) (repeat 3 16).
Proof.
  set (q := demo_message (repeat 0xFC 16 ++ repeat 1 32 ++
    @tunnel_packet x86 (encode_dict (offer_dict (Some (repeat 3 16)) (Some (repeat 3 4)) (@store x86 4 1))))).
  destruct (@IpTunnel_offer_to_any_connection x86 tun_Linux None None (fun a => a) scratch false q demo_both
    (repeat 0xFC 16) (repeat 1 32) (repeat 3 16) (repeat 3 4) 0 1) as (context' & events & E & Ec).
  - apply demo_ok; [cbn; lia|repeat constructor|reflexivity].
  - reflexivity.
  - reflexivity.
  - reflexivity.
  - vm_compute. intuition discriminate.
  - reflexivity.
  - vm_compute. intuition discriminate.
  - reflexivity.
  - reflexivity.
  - apply bytes_ok_check. reflexivity.
  - apply bytes_ok_check. reflexivity.
  - apply demo_arrives; reflexivity.
  - exists q, context', events. split; [exact E|]. split; [reflexivity|exact Ec].
Defined.

Lemma IpTunnel_newConnection_order_witness : exists context' i,
  newConnection false demo_client = Some (context', i) /\ i = 1 /\
  isOutgoing (connections context' 0) = true /\ isOutgoing (connections context' i) = false /\ ~ incoming_first context'.
Proof.
  destruct (newConnection false demo_client) as [[context' i]|] eqn:E; [|vm_compute in E; discriminate E].
  exists context', i. split; [reflexivity|]. apply (IpTunnel_newConnection_order false demo_client context' i).
  - apply demo_ok; [cbn; lia|repeat constructor|reflexivity].
  - exists 0. split; [vm_compute; intuition discriminate|]. intros k Hk. cbn in Hk. replace k with 0 by lia. reflexivity.
  - exact E.
Defined.

(** The connection that has no address is the first; the poll begins with the second. *)
Lemma IpTunnel_timeout_never_wraps_witness :
  @timeout x86 None scratch 1 (demo_tunnel [demo_connection 1 true 0 0; demo_connection 2 true 1 7]) = Some [].
Proof.
  rewrite (@IpTunnel_timeout_never_wraps x86 None scratch 1 (demo_tunnel [demo_connection 1 true 0 0; demo_connection 2 true 1 7])).
  - vm_compute. reflexivity.
  - apply demo_ok; [cbn; lia|repeat constructor|reflexivity].
  - vm_compute. reflexivity.
Defined.
