(* ===== verification/DucttapeData.v ===== *)
(** * The data path of the router (net/Ducttape.c, Ducttape_pvt.h)

    Ducttape joins the switch, the sessions, the routing table, the IP tunnel and
    the user's device. A packet from the device is encrypted for a node that is
    nearer to its destination, and, if that is not the destination itself, before
    that for the destination; a packet from the switch is decrypted and goes to
    the device, the tunnel, the DHT or on to another node.

    A session calls back while it handles a message. The actions below have the
    C functions' names and are given what happens on a callback ([handle]);
    [handle_event] ties the knot, and counts the callbacks that may be nested.
    The state of a session is stored before its callbacks run (see CryptoAuth).

    A pointer into a packet is its address in the buffer of the message that is
    handled; what the C code keeps in a variable of its own is a list of bytes. A
    pointer to a session is its index in the session manager. The clock stands
    still while a packet is handled. The messages that the DHT sends when it is
    given one, or asked to search, are sent when it is done with it: nothing that
    it does after sending depends on what Ducttape does with a message. *)
From stdpp Require Import gmap.
From S2P Require Import Prelude Memory Endian Bits Checksum Headers Message NaCl CryptoAuth Benc Address NodeCollector Map SessionManager DHT Ducttape TUNMessageType IpTunnel.
Open Scope Z_scope.

(** ** Interfaces *)

(** What Ducttape needs of the router: [W] is its state; a node is an index. The
    messages that [beginSearch] and [handleDHT] return are for other nodes. *)
Class Router (W : Type) : Type := {
  lookup : list Z -> M W (option Z);
  getNode : Z -> M W (option Z);
  node_of : W -> Z -> Node;
  set_node_version : Z -> Z -> W -> W;
  beginSearch : list Z -> M W (list DHTMessage);
  brokenPath : Z -> M W unit;
  handleDHT : list Z -> Address -> M W (list DHTMessage)
}.

(** The clock, what the other ends of the interfaces return, the text of an
    address, and what is not initialized: [stack_version] is the version of a
    node on the stack, [stack_distance] lies between a packet and a variable. *)
Class Surroundings : Type := {
  seconds : Z;
  milliseconds : Z;
  switch_code : Message -> Z;
  tun_code : Message -> Z;
  print_address : list Z -> String;
  stack : mem;
  errno_erange : bool;
  stack_version : Z;
  stack_distance : Z
}.

(** ** State *)
Inductive Header := NULL | InPacket (a : Z) | Local (l : list Z).
Inductive SessionRef := NoSession | Managed (i : Z) | OnStack (s : SessionManager_Session).
Inductive Ducttape_SessionLayer := INVALID | INNER | OUTER.
Inductive NodeRef := InStore (i : Z) | Given (n : Node).

(** "Changes on a message-by-message basis." *)
Record Current := {
  switchHeader : Header;
  ip6Header : Header;
  forwardTo : option Z;
  session : SessionRef;
  layer : Ducttape_SessionLayer;
  initMessage : bool;
  currentSessionSendHandle_be : Z;
  currentSessionVersion : Z
}.

(** What goes out: to the switch, the user's device, the switch pinger and the
    angel process. *)
Inductive Output :=
| SwitchOut (message : Message)
| TunOut (message : Message)
| PingerOut (message : Message)
| AngelOut (call : Dict).

Definition HANDLE_FLAG_BIT_be `{Platform} : Z := Endian_hostToBigEndian32 0x80000000.

Section ducttape.
  Context {P : Platform} {N : NaCl} {T : TunType P} {R : RandomSource} {W : Type} {Rt : Router W} {S : Surroundings}.

Record Ducttape := {
  router : W;
  ipTunnel : IpTunnel;
  cryptoAuth : Context;
  sm : SessionManager;
  rng : Rand;
  myAddr : Address;
  userIf : bool;
  switchPingerIf : bool;
  timeBetweenSearches : Z;
  timeOfLastSearch : Z;
  current : Current;
  output : list Output
}.

Abbreviation act := (M Ducttape).

Definition with_router (w : W) (d : Ducttape) : Ducttape :=
  {| router := w; ipTunnel := d.(ipTunnel); cryptoAuth := d.(cryptoAuth); sm := d.(sm); rng := d.(rng); myAddr := d.(myAddr);
     userIf := d.(userIf); switchPingerIf := d.(switchPingerIf); timeBetweenSearches := d.(timeBetweenSearches);
     timeOfLastSearch := d.(timeOfLastSearch); current := d.(current); output := d.(output) |}.
Definition with_tunnel (t : IpTunnel) (d : Ducttape) : Ducttape :=
  {| router := d.(router); ipTunnel := t; cryptoAuth := d.(cryptoAuth); sm := d.(sm); rng := d.(rng); myAddr := d.(myAddr);
     userIf := d.(userIf); switchPingerIf := d.(switchPingerIf); timeBetweenSearches := d.(timeBetweenSearches);
     timeOfLastSearch := d.(timeOfLastSearch); current := d.(current); output := d.(output) |}.
Definition with_sessions (s : SessionManager) (r : Rand) (d : Ducttape) : Ducttape :=
  {| router := d.(router); ipTunnel := d.(ipTunnel); cryptoAuth := d.(cryptoAuth); sm := s; rng := r; myAddr := d.(myAddr);
     userIf := d.(userIf); switchPingerIf := d.(switchPingerIf); timeBetweenSearches := d.(timeBetweenSearches);
     timeOfLastSearch := d.(timeOfLastSearch); current := d.(current); output := d.(output) |}.
Definition with_search_time (t : Z) (d : Ducttape) : Ducttape :=
  {| router := d.(router); ipTunnel := d.(ipTunnel); cryptoAuth := d.(cryptoAuth); sm := d.(sm); rng := d.(rng);
     myAddr := d.(myAddr); userIf := d.(userIf); switchPingerIf := d.(switchPingerIf);
     timeBetweenSearches := d.(timeBetweenSearches); timeOfLastSearch := t; current := d.(current); output := d.(output) |}.
Definition with_current (f : Current -> Current) (d : Ducttape) : Ducttape :=
  {| router := d.(router); ipTunnel := d.(ipTunnel); cryptoAuth := d.(cryptoAuth); sm := d.(sm); rng := d.(rng);
     myAddr := d.(myAddr); userIf := d.(userIf); switchPingerIf := d.(switchPingerIf);
     timeBetweenSearches := d.(timeBetweenSearches); timeOfLastSearch := d.(timeOfLastSearch); current := f d.(current);
     output := d.(output) |}.
Definition with_output (o : Output) (d : Ducttape) : Ducttape :=
  {| router := d.(router); ipTunnel := d.(ipTunnel); cryptoAuth := d.(cryptoAuth); sm := d.(sm); rng := d.(rng);
     myAddr := d.(myAddr); userIf := d.(userIf); switchPingerIf := d.(switchPingerIf);
     timeBetweenSearches := d.(timeBetweenSearches); timeOfLastSearch := d.(timeOfLastSearch); current := d.(current);
     output := d.(output) ++ [o] |}.

Definition set_switchHeader (h : Header) (c : Current) : Current :=
  {| switchHeader := h; ip6Header := c.(ip6Header); forwardTo := c.(forwardTo); session := c.(session); layer := c.(layer);
     initMessage := c.(initMessage); currentSessionSendHandle_be := c.(currentSessionSendHandle_be);
     currentSessionVersion := c.(currentSessionVersion) |}.
Definition set_ip6Header (h : Header) (c : Current) : Current :=
  {| switchHeader := c.(switchHeader); ip6Header := h; forwardTo := c.(forwardTo); session := c.(session); layer := c.(layer);
     initMessage := c.(initMessage); currentSessionSendHandle_be := c.(currentSessionSendHandle_be);
     currentSessionVersion := c.(currentSessionVersion) |}.
Definition set_forwardTo (n : option Z) (c : Current) : Current :=
  {| switchHeader := c.(switchHeader); ip6Header := c.(ip6Header); forwardTo := n; session := c.(session); layer := c.(layer);
     initMessage := c.(initMessage); currentSessionSendHandle_be := c.(currentSessionSendHandle_be);
     currentSessionVersion := c.(currentSessionVersion) |}.
Definition set_session (s : SessionRef) (c : Current) : Current :=
  {| switchHeader := c.(switchHeader); ip6Header := c.(ip6Header); forwardTo := c.(forwardTo); session := s; layer := c.(layer);
     initMessage := c.(initMessage); currentSessionSendHandle_be := c.(currentSessionSendHandle_be);
     currentSessionVersion := c.(currentSessionVersion) |}.
Definition set_layer (l : Ducttape_SessionLayer) (c : Current) : Current :=
  {| switchHeader := c.(switchHeader); ip6Header := c.(ip6Header); forwardTo := c.(forwardTo); session := c.(session); layer := l;
     initMessage := c.(initMessage); currentSessionSendHandle_be := c.(currentSessionSendHandle_be);
     currentSessionVersion := c.(currentSessionVersion) |}.
Definition set_initMessage (b : bool) (c : Current) : Current :=
  {| switchHeader := c.(switchHeader); ip6Header := c.(ip6Header); forwardTo := c.(forwardTo); session := c.(session);
     layer := c.(layer); initMessage := b; currentSessionSendHandle_be := c.(currentSessionSendHandle_be);
     currentSessionVersion := c.(currentSessionVersion) |}.
Definition set_currentSession (handle_be version : Z) (c : Current) : Current :=
  {| switchHeader := c.(switchHeader); ip6Header := c.(ip6Header); forwardTo := c.(forwardTo); session := c.(session);
     layer := c.(layer); initMessage := c.(initMessage); currentSessionSendHandle_be := handle_be;
     currentSessionVersion := version |}.

Definition assign (f : Current -> Current) : act unit := modify (with_current f).
Definition the {A} (f : Current -> A) : act A := gets (fun d => f d.(current)).
Definition emit (o : Output) : act unit := modify (with_output o).
Definition router_call {A} (f : M W A) : act A := fun d =>
  match f d.(router) with Some (a, w) => Some (a, with_router w d) | None => None end.

(** A header: where its bytes are. A header pointed to is only used while a
    message in its buffer is handled. *)
Definition header_in (m : mem) (h : Header) : option (mem * Z) :=
  match h with
  | NULL => None
  | InPacket a => Some (m, a)
  | Local l => Some (of_list l, 0)
  end.

(** ** Sessions *)
Definition session_at (d : Ducttape) (i : Z) : SessionManager_Session := d.(sm).(ifaceMap).(values) i.
Definition put_session_at (i : Z) (s : SessionManager_Session) (d : Ducttape) : Ducttape :=
  with_sessions {| ifaceMap := set_value d.(sm).(ifaceMap) i s |} d.(rng) d.
Definition set_handle_and_version (handle_be version : Z) (s : SessionManager_Session) : SessionManager_Session :=
  {| iface := s.(iface); lastMessageTime := s.(lastMessageTime); receiveHandle_be := s.(receiveHandle_be);
     sendHandle_be := handle_be; session_version := version; session_ip6 := s.(session_ip6) |}.

Definition the_session : act SessionManager_Session :=
  d ← gets id;
  lift match d.(current).(session) with
       | NoSession => None
       | Managed i => Some (session_at d i)
       | OnStack s => Some s
       end.
Definition put_session (s : SessionManager_Session) : act unit :=
  ref ← the session;
  match ref with
  | NoSession => abort
  | Managed i => modify (put_session_at i s)
  | OnStack _ => assign (set_session (OnStack s))
  end.

Definition getSession (lookupKey : list Z) (cryptoKey : option (list Z)) : act Z :=
  d ← gets id;
  let '(sessions, i) := SessionManager_getSession lookupKey cryptoKey seconds d.(sm) in
  _ ← modify (with_sessions sessions d.(rng)); mret i.

Definition sessionForHandle (handle : Z) : act (option Z) :=
  d ← gets id; mret (SessionManager_sessionForHandle handle d.(sm)).

Section callbacks.
  Variable handle : event -> act Z.

(** The result is the one of the last callback. *)
Fixpoint handle_all (events : list event) (code : Z) : act Z :=
  match events with
  | [] => mret code
  | e :: events => code ← handle e; handle_all events code
  end.

(** [session->iface.sendMessage] and [session->iface.receiveMessage]. *)
Definition call_session (f : Context -> Z -> Message -> Wrapper -> Rand -> option (Wrapper * Rand * list event * ret))
    (i : Z) (message : Message) : act Z :=
  d ← gets id;
  let s := session_at d i in
  '(wrapper, r, events, result) ← lift (f d.(cryptoAuth) seconds message s.(iface) d.(rng));
  _ ← modify (with_sessions {| ifaceMap := set_value d.(sm).(ifaceMap) i (set_iface s wrapper) |} r);
  code ← handle_all events 0;
  mret (match result with Code c => c | FromCallee => code end).

(** ** Sending *)
Definition the_node (n : NodeRef) : act Node :=
  d ← gets id; mret (match n with InStore i => node_of d.(router) i | Given n => n end).
Definition put_version (n : NodeRef) (version : Z) : act unit :=
  match n with
  | InStore i => modify (fun d => with_router (set_node_version i version d.(router)) d)
  | Given _ => mret tt
  end.

(** A copy of the switch header, or zeros; [m] is the buffer of the message. *)
Definition copied_header (m : mem) : act (list Z) :=
  h ← the switchHeader;
  match h with
  | NULL => mret (repeat 0 12)
  | _ => '(m, a) ← lift (header_in m h); mret (read m a Headers_SwitchHeader_SIZE)
  end.

Definition sendToRouter (node : NodeRef) (message : Message) : act Z :=
  n ← the_node node;
  let addr := n.(address) in
  header ← copied_header message.(buffer);
  _ ← assign (set_switchHeader (Local (store 8 (Endian_hostToBigEndian64 addr.(path)) ++ drop 8 header)));
  i ← getSession addr.(ip6) (Some addr.(key));
  d ← gets id;
  let s := session_at d i in
  let version := if s.(session_version) <? n.(node_version) then n.(node_version) else s.(session_version) in
  _ ← modify (put_session_at i (set_handle_and_version s.(sendHandle_be) version s));
  _ ← put_version node version;
  _ ← assign (set_session (Managed i));
  _ ← assign (set_layer OUTER);
  call_session sendMessage i message.

(** The message of the DHT has its bytes at address 0. *)
Definition handleOutgoing (dmessage : DHTMessage) : act Z :=
  d ← gets id;
  let message := {| length := dmessage.(dht_length); padding := 512; bytes := 0; buffer := dmessage.(dht_bytes) |} in
  message ← lift (Message_shift message Headers_UDPHeader_SIZE);
  let uh := message.(bytes) in
  let m := write message.(buffer) (uh + UDPHeader_sourceAndDestPorts) (store 4 0) in
  let m := write m (uh + UDPHeader_length_be) (store 2 (Endian_hostToBigEndian16 (u16 dmessage.(dht_length)))) in
  let m := write m (uh + UDPHeader_checksum_be) (store 2 0) in
  let payloadLength := u16 (length message) in
  message ← lift (Message_shift message Headers_IP6Header_SIZE);
  let header := message.(bytes) in
  let m := write m (header + IP6Header_versionClassAndFlowLabel) (store 2 0) in
  let m := write m (header + IP6Header_flowLabelLow_be) (store 2 0) in
  let m := set m (header + IP6Header_nextHeader) 17 in
  let m := set m (header + IP6Header_hopLimit) 0 in
  let m := write m (header + IP6Header_payloadLength_be) (store 2 (Endian_hostToBigEndian16 payloadLength)) in
  let m := write m (header + IP6Header_sourceAddr) (take 16 d.(myAddr).(ip6)) in
  let m := write m (header + IP6Header_destinationAddr) (take 16 dmessage.(dht_address).(ip6)) in
  let m := write m (uh + UDPHeader_checksum_be)
             (store 2 (Checksum_udpIp6 m (header + IP6Header_sourceAddr) m uh (length message - Headers_IP6Header_SIZE))) in
  _ ← assign (set_ip6Header (InPacket header));
  _ ← assign (set_switchHeader NULL);
  n ← router_call (getNode dmessage.(dht_address).(path));
  let n := match n with
           | Some i => InStore i
           | None =>
               let version := match dmessage.(replyTo) with
                              | Some query => match Dict_getInt query.(asDict) (Some (chars "p")) with
                                              | Some v => u32 v
                                              | None => 0
                                              end
                              | None => stack_version
                              end in
               Given {| node_reach := 0; node_version := version; address := dmessage.(dht_address) |}
           end in
  _ ← sendToRouter n (with_buffer message m);
  mret 0.

(** To another switch; the header is copied in front of the message. The wrapper
    is looked at, which may reset it. *)
Definition sendToSwitch (message : Message) (destinationSwitchHeader : Header) : act Z :=
  d ← gets id;
  s ← the_session;
  if negb (0 <? s.(session_version)) then abort
  else
    let '(wrapper, state) := CryptoAuth_getState d.(cryptoAuth) seconds s.(iface) in
    _ ← put_session (set_iface s wrapper);
    message ← lift (Message_push message
                      (store 4 (if CryptoAuth_HANDSHAKE3 <=? state then s.(sendHandle_be) else s.(receiveHandle_be))));
    message ← lift (Message_shift message Headers_SwitchHeader_SIZE);
    '(m, a) ← lift (header_in message.(buffer) destinationSwitchHeader);
    let message := with_buffer message (write message.(buffer) message.(bytes) (read m a Headers_SwitchHeader_SIZE)) in
    _ ← emit (SwitchOut message);
    mret (switch_code message).

(** ** Packets for this node *)
Fixpoint send_all (messages : list DHTMessage) : act unit :=
  match messages with
  | [] => mret tt
  | m :: messages => _ ← handleOutgoing m; send_all messages
  end.

Definition incomingDHT (message : Message) (addr : Address) : act Z :=
  let length := if length message <? DHTMessage_MAX_SIZE then length message else DHTMessage_MAX_SIZE in
  messages ← router_call (handleDHT (read message.(buffer) message.(bytes) length) addr);
  _ ← send_all messages;
  mret Error_NONE.

(** [message] is aligned on the content, [(m, ip6)] is where the header is. *)
Definition isRouterTraffic (message : Message) (m : mem) (ip6 : Z) : bool :=
  if negb (m (ip6 + IP6Header_nextHeader) =? 17) || negb (m (ip6 + IP6Header_hopLimit) =? 0) then false
  else
    let uh := message.(bytes) in
    (Headers_UDPHeader_SIZE <=? length message)
    && (load 4 message.(buffer) (uh + UDPHeader_sourceAndDestPorts) =? 0)
    && (Endian_bigEndianToHost16 (load 2 message.(buffer) (uh + UDPHeader_length_be)) =? length message - Headers_UDPHeader_SIZE).

(** The handle of a session that is new is in front of the content. *)
Definition takeHandle (message : Message) (containsHandle : bool) : act Message :=
  if containsHandle && (4 <=? length message) then
    '(handle_be, message) ← lift (Message_pop message 4);
    s ← the_session;
    _ ← put_session (set_handle_and_version (load 4 (of_list handle_be) 0 .| HANDLE_FLAG_BIT_be)
                       (if s.(session_version) =? 0 then Version_CURRENT_PROTOCOL else s.(session_version)) s);
    mret message
  else mret message.

(** A header that lies elsewhere than directly before the content is moved
    there; [sizeDiff] is the distance, and the packet is that much shorter. *)
Definition writeToTun (message : Message) : act Z :=
  h ← the ip6Header;
  '(m, a) ← lift (header_in message.(buffer) h);
  let limited (m : mem) :=
    if m (a + IP6Header_hopLimit) =? 255 then set m (a + IP6Header_hopLimit) (m (a + IP6Header_hopLimit) - 1) else m in
  message ← lift (Message_shift message Headers_IP6Header_SIZE);
  let sizeDiff := u16 (match h with InPacket a => message.(bytes) - a | _ => stack_distance end) in
  let shorter (m : mem) :=
    write m (a + IP6Header_payloadLength_be) (store 2 (Endian_hostToBigEndian16
      (u16 (Endian_bigEndianToHost16 (load 2 m (a + IP6Header_payloadLength_be)) - sizeDiff)))) in
  let m := limited m in
  let message :=
    match h with
    | InPacket _ =>
        if sizeDiff =? 0 then with_buffer message m
        else let m := shorter m in with_buffer message (write m message.(bytes) (read m a Headers_IP6Header_SIZE))
    | _ =>
        if sizeDiff =? 0 then message
        else with_buffer message (write message.(buffer) message.(bytes) (read (shorter m) a Headers_IP6Header_SIZE))
    end in
  message ← lift (TUNMessageType_push message Ethernet_TYPE_IP6);
  _ ← emit (TunOut message);
  mret Error_NONE.

Definition incomingForMe (message : Message) (herPubKey : list Z) (containsHandle : bool) : act Z :=
  message ← takeHandle message containsHandle;
  s ← the_session;
  h ← the ip6Header;
  '(m, a) ← lift (header_in message.(buffer) h);
  if negb (Bits_memcmp s.(session_ip6) (read m (a + IP6Header_sourceAddr) 16) =? 0) then mret Error_INVALID
  else if length message =? 0 then mret Error_INVALID
  else if isRouterTraffic message m a then
    if negb (Checksum_udpIp6 m (a + IP6Header_sourceAddr) message.(buffer) message.(bytes) (length message) =? 0)
    then mret Error_INVALID
    else
      message ← lift (Message_shift message (- Headers_UDPHeader_SIZE));
      sh ← the switchHeader;
      '(m, a) ← lift (header_in message.(buffer) sh);
      incomingDHT message
        {| ip6 := s.(session_ip6); key := herPubKey;
           path := Endian_bigEndianToHost64 (load 8 m (a + SwitchHeader_label_be)) |}
  else
    d ← gets id;
    if negb d.(userIf) then mret Error_UNDELIVERABLE else writeToTun message.

(** Of the session on the stack only the address and the version are set. *)
Definition Ducttape_injectIncomingForMe (message : Message) (herPublicKey : list Z) (garbage : SessionManager_Session) : act Z :=
  _ ← assign (set_switchHeader (Local (read message.(buffer) message.(bytes) Headers_SwitchHeader_SIZE)));
  message ← lift (Message_shift message (- Headers_SwitchHeader_SIZE));
  _ ← assign (set_ip6Header (Local (read message.(buffer) message.(bytes) Headers_IP6Header_SIZE)));
  message ← lift (Message_shift message (- Headers_IP6Header_SIZE));
  let s := set_handle_and_version garbage.(sendHandle_be) Version_CURRENT_PROTOCOL
             (set_identity garbage garbage.(receiveHandle_be) (fst (AddressCalc_addressForPublicKey herPublicKey))) in
  _ ← assign (set_session (OnStack s));
  ret ← incomingForMe message herPublicKey false;
  _ ← assign (set_session NoSession);
  mret ret.

(** ** Forwarding *)
Definition validEncryptedIP6 (message : Message) : bool :=
  let header := message.(bytes) in
  (Headers_IP6Header_SIZE <=? length message)
  && AddressCalc_validAddress (read message.(buffer) (header + IP6Header_sourceAddr) 16)
  && AddressCalc_validAddress (read message.(buffer) (header + IP6Header_destinationAddr) 16).

Definition isForMe (message : Message) (myAddr : Address) : bool :=
  Bits_memcmp (read message.(buffer) (message.(bytes) + IP6Header_destinationAddr) 16) myAddr.(ip6) =? 0.

Definition getHerPublicKey : act (list Z) := s ← the_session; mret (CryptoAuth_getHerPublicKey s.(iface)).

Definition core (message : Message) : act Z :=
  let header := message.(bytes) in
  _ ← assign (set_ip6Header (InPacket header));
  d ← gets id;
  if isForMe message d.(myAddr) then
    message ← lift (Message_shift message (- Headers_IP6Header_SIZE));
    s ← the_session;
    let source := read message.(buffer) (header + IP6Header_sourceAddr) 16 in
    if negb (Bits_memcmp s.(session_ip6) source =? 0) then
      i ← getSession source None;
      let nonce_be := load 4 message.(buffer) message.(bytes) in
      _ ← assign (set_initMessage (Endian_bigEndianToHost32 nonce_be <=? 3));
      _ ← assign (set_session (Managed i));
      _ ← assign (set_layer INNER);
      call_session receiveMessage i message
    else
      herPubKey ← getHerPublicKey;
      incomingForMe message herPubKey false
  else if message.(buffer) (header + IP6Header_hopLimit) =? 0 then mret Error_UNDELIVERABLE
  else
    let m := set message.(buffer) (header + IP6Header_hopLimit) (message.(buffer) (header + IP6Header_hopLimit) - 1) in
    nextHop ← the forwardTo;
    _ ← assign (set_forwardTo None);
    nextHop ← match nextHop with
              | Some n => mret (Some n)
              | None => router_call (lookup (read m (header + IP6Header_destinationAddr) 16))
              end;
    match nextHop with
    | Some n => sendToRouter (InStore n) (with_buffer message m)
    | None => mret Error_UNDELIVERABLE
    end.

(** The sanity check is an assertion. *)
Definition outgoingFromMe (message : Message) : act Z :=
  d ← gets id;
  message ← lift (Message_shift message Headers_IP6Header_SIZE);
  let header := message.(bytes) in
  let m := message.(buffer) in
  m ← (if isForMe message d.(myAddr) then
         let m := write m (header + IP6Header_destinationAddr) (read m (header + IP6Header_sourceAddr) 16) in
         mret (write m (header + IP6Header_sourceAddr) (take 16 d.(myAddr).(ip6)))
       else if Bits_memcmp (read m (header + IP6Header_sourceAddr) 16) d.(myAddr).(ip6) =? 0 then mret m else abort);
  let m := write m (header + IP6Header_payloadLength_be)
             (store 2 (Endian_hostToBigEndian16 (u16 (length message - Headers_IP6Header_SIZE)))) in
  core (with_buffer message m).

(** ** The IP tunnel's interfaces *)
Definition sendToTun (message : Message) : act Z :=
  d ← gets id;
  if d.(userIf) then _ ← emit (TunOut message); mret (tun_code message) else mret 0.

(** The header of the tunnel stays where it is when it is shifted off. *)
Definition sendToNode (message : Message) : act Z :=
  _ ← assign (set_switchHeader NULL);
  let header := message.(bytes) in
  message ← lift (Message_shift message (- IpTunnel_PacketInfoHeader_SIZE));
  let nodeIp6Addr := read message.(buffer) header 16 in
  n ← router_call (lookup nodeIp6Addr);
  d ← gets id;
  let nodeKey := read message.(buffer) (header + PacketInfoHeader_nodeKey) 32 in
  let found := match n with
               | Some i => if Bits_memcmp nodeKey (node_of d.(router) i).(address).(key) =? 0 then Some i else None
               | None => None
               end in
  match found with
  | Some i => sendToRouter (InStore i) message
  | None =>
      if u64 (d.(timeOfLastSearch) + d.(timeBetweenSearches)) <? milliseconds then
        _ ← modify (with_search_time milliseconds);
        messages ← router_call (beginSearch nodeIp6Addr); _ ← send_all messages; mret 0
      else mret 0
  end.

Definition tunnel_event (e : TunnelEvent) : act Z :=
  match e with
  | ToNode message => sendToNode message
  | ToTun message => sendToTun message
  | CallAngel call => _ ← emit (AngelOut call); mret 0
  end.

Fixpoint tunnel_events (events : list TunnelEvent) : act unit :=
  match events with
  | [] => mret tt
  | e :: events => _ ← tunnel_event e; tunnel_events events
  end.

(** What the tunnel gets back when it calls. *)
Definition code_of (f : Message -> act Z) (d : Ducttape) (message : Message) : Z :=
  match f message d with Some (code, _) => code | None => 0 end.

Definition tunnel_fromTun (message : Message) : act Z :=
  d ← gets id;
  '(code, events) ← lift (IpTunnel.incomingFromTun (Some (code_of sendToNode d)) message d.(ipTunnel));
  _ ← tunnel_events events; mret code.

Definition tunnel_fromNode (message : Message) : act Z :=
  d ← gets id;
  '(tunnel, code, events) ← lift (IpTunnel.incomingFromNode (Some (code_of sendToNode d)) (Some (code_of sendToTun d))
                                    print_address stack errno_erange message d.(ipTunnel));
  _ ← modify (with_tunnel tunnel);
  _ ← tunnel_events events; mret code.

(** ** Packets from the user *)

(** For another node than the next hop the header is moved to where it will be in
    front of the inner CryptoAuth header, or of the data of a running session. *)
Definition makeRoom (message : Message) (header state receiveHandle_be : Z) : option Message :=
  if state <? CryptoAuth_HANDSHAKE3 then
    message ← Message_shift message (Headers_CryptoAuth_SIZE + 4);
    let m := write message.(buffer) message.(bytes) (read message.(buffer) header Headers_IP6Header_SIZE) in
    message ← Message_shift (with_buffer message m) (- (Headers_IP6Header_SIZE + Headers_CryptoAuth_SIZE + 4));
    Message_push message (store 4 receiveHandle_be)
  else
    message ← Message_shift message 20;
    let m := write message.(buffer) message.(bytes) (read message.(buffer) header Headers_IP6Header_SIZE) in
    Message_shift (with_buffer message m) (- (20 + Headers_IP6Header_SIZE)).

(** The message, aligned on its header, goes through the session with its
    destination; it comes out at [outgoingFromCryptoAuth]. *)
Definition sendInner (message : Message) (destination : list Z) : act Z :=
  i ← getSession destination None;
  d ← gets id;
  let s := session_at d i in
  let '(wrapper, state) := CryptoAuth_getState d.(cryptoAuth) seconds s.(iface) in
  _ ← modify (put_session_at i (set_iface s wrapper));
  message ← lift (makeRoom message message.(bytes) state s.(receiveHandle_be));
  _ ← assign (set_session (Managed i));
  _ ← assign (set_layer INNER);
  call_session sendMessage i message.

Definition incomingFromTun (message : Message) : act Z :=
  '(ethertype, message) ← lift (TUNMessageType_pop message);
  let header := message.(bytes) in
  let m := message.(buffer) in
  let version := Headers_getIpVersion m message.(bytes) in
  let source := read m (header + IP6Header_sourceAddr) 16 in
  let destination := read m (header + IP6Header_destinationAddr) 16 in
  d ← gets id;
  if (ethertype =? Ethernet_TYPE_IP4) && negb (version =? 4) || (ethertype =? Ethernet_TYPE_IP6) && negb (version =? 6)
  then mret Error_INVALID
  else if negb (ethertype =? Ethernet_TYPE_IP6) || negb (AddressCalc_validAddress source) then tunnel_fromTun message
  else if negb (Bits_memcmp source d.(myAddr).(ip6) =? 0) then mret Error_INVALID
  else if Bits_memcmp destination d.(myAddr).(ip6) =? 0 then _ ← emit (TunOut message); mret Error_NONE
  else
    _ ← assign (set_switchHeader NULL);
    bestNext ← router_call (lookup destination);
    _ ← assign (set_forwardTo bestNext);
    match bestNext with
    | None => mret Error_UNDELIVERABLE
    | Some n =>
        d ← gets id;
        if Bits_memcmp destination (node_of d.(router) n).(address).(ip6) =? 0 then sendToRouter (InStore n) message
        else sendInner message destination
    end.

(** ** Packets from the switch *)
Definition incomingFromRouter (message : Message) : act Z :=
  c ← the id;
  _ ← (if 0 <? c.(currentSessionVersion) then
         s ← the_session;
         _ ← put_session (set_handle_and_version c.(currentSessionSendHandle_be) c.(currentSessionVersion) s);
         assign (set_currentSession c.(currentSessionSendHandle_be) 0)
       else mret tt);
  if negb (validEncryptedIP6 message) then
    message ← lift (Message_shift message IpTunnel_PacketInfoHeader_SIZE);
    s ← the_session;
    let m := write message.(buffer) message.(bytes) (take 16 s.(session_ip6)) in
    let m := write m (message.(bytes) + PacketInfoHeader_nodeKey) (take 32 (CryptoAuth_getHerPublicKey s.(iface))) in
    tunnel_fromNode (with_buffer message m)
  else core message.

Definition incomingFromCryptoAuth (message : Message) : act Z :=
  c ← the id;
  _ ← assign (set_layer INVALID);
  match c.(layer) with
  | OUTER => incomingFromRouter message
  | INNER =>
      herPubKey ← getHerPublicKey;
      incomingForMe message herPubKey c.(initMessage)
  | INVALID => abort
  end.

Definition outgoingFromCryptoAuth (message : Message) : act Z :=
  c ← the id;
  _ ← assign (set_layer INVALID);
  match c.(layer) with
  | OUTER => sendToSwitch message c.(switchHeader)
  | _ => outgoingFromMe message
  end.

Fixpoint control_effects (effects : list Effect) : act unit :=
  match effects with
  | [] => mret tt
  | BrokenPath label :: effects => _ ← router_call (brokenPath label); control_effects effects
  | ToSwitch message :: effects => _ ← emit (SwitchOut message); control_effects effects
  | ToPinger message :: effects => _ ← emit (PingerOut message); control_effects effects
  end.

(** The session a packet belongs to: the one the handle names, or, for the start
    of a session, that of the key in the packet. *)
Definition findSession (message : Message) (handle_be nonce : Z) : act (option Z) :=
  if 3 <? nonce then
    sessionForHandle (Endian_bigEndianToHost32 (handle_be .& (UINT32_MAX .^ HANDLE_FLAG_BIT_be)))
  else if Headers_CryptoAuth_SIZE <=? length message then
    let herKey := read message.(buffer) (message.(bytes) + CryptoAuth_publicKey) 32 in
    let ip6 := fst (AddressCalc_addressForPublicKey herKey) in
    if AddressCalc_validAddress ip6 then
      i ← getSession ip6 (Some herKey);
      _ ← assign (set_currentSession (handle_be .| HANDLE_FLAG_BIT_be) 1);
      mret (Some i)
    else mret None
  else mret None.

Definition incomingFromSwitch (message : Message) : act Z :=
  let switchHeader := message.(bytes) in
  message ← lift (Message_shift message (- Headers_SwitchHeader_SIZE));
  let m := message.(buffer) in
  let m := write m (switchHeader + SwitchHeader_label_be)
             (store 8 (Bits_bitReverse64 (load 8 m (switchHeader + SwitchHeader_label_be)))) in
  let message := with_buffer message m in
  d ← gets id;
  if Headers_getMessageType m switchHeader =? Headers_SwitchHeader_TYPE_CONTROL then
    '(code, effects) ← lift (handleControlMessage d.(switchPingerIf) message switchHeader);
    _ ← control_effects effects; mret code
  else if length message <? 8 then mret Error_INVALID
  else
    '(handle, message) ← lift (Message_pop message 4);
    let nonce := Endian_bigEndianToHost32 (load 4 message.(buffer) message.(bytes)) in
    found ← findSession message (load 4 (of_list handle) 0) nonce;
    match found with
    | None => mret 0
    | Some i =>
        if nonce =? UINT32_MAX then mret 0
        else
          _ ← assign (set_switchHeader (InPacket switchHeader));
          _ ← assign (set_session (Managed i));
          _ ← assign (set_layer OUTER);
          _ ← call_session receiveMessage i message;
          c ← the id;
          _ ← assign (set_currentSession c.(currentSessionSendHandle_be) 0);
          mret 0
    end.

Definition incomingFromPinger (message : Message) : act Z := _ ← emit (SwitchOut message); mret (switch_code message).
End callbacks.

(** ** Callbacks of the sessions *)

(** A message that a session buffered lies in another buffer than the packet
    whose header the context points to: the header is read from that packet. *)
Definition pinned (m : mem) (h : Header) : Header :=
  match h with InPacket a => Local (read m a Headers_SwitchHeader_SIZE) | h => h end.

(** [fuel] callbacks may be nested. *)
Fixpoint handle_event (fuel : nat) (e : event) : act Z :=
  match fuel with
  | O => abort
  | Datatypes.S fuel =>
      match e with
      | SendWrapped message => outgoingFromCryptoAuth (handle_event fuel) message
      | SendBuffered message received =>
          c ← the id;
          _ ← assign (set_switchHeader (pinned received.(buffer) c.(switchHeader)));
          outgoingFromCryptoAuth (handle_event fuel) message
      | Deliver message => incomingFromCryptoAuth (handle_event fuel) message
      end
  end.

(** ** Set-up

    Fields that are not given are zero. *)
Definition no_current : Current :=
  {| switchHeader := NULL; ip6Header := NULL; forwardTo := None; session := NoSession; layer := INVALID; initMessage := false;
     currentSessionSendHandle_be := 0; currentSessionVersion := 0 |}.

Definition Ducttape_register (privateKey : list Z) (routerModule : W) (ipTun : IpTunnel) (rand : Rand) : Ducttape :=
  let '(context, rand) := CryptoAuth_new (Some privateKey) rand in
  {| router := routerModule; ipTunnel := ipTun; cryptoAuth := context; sm := SessionManager_new; rng := rand;
     myAddr := snd (Address_getPrefix {| ip6 := repeat 0 16; key := take 32 context.(publicKey); path := 0 |});
     userIf := false; switchPingerIf := false; timeBetweenSearches := 0; timeOfLastSearch := 0; current := no_current;
     output := [] |}.

Definition Ducttape_setUserInterface (d : Ducttape) : Ducttape :=
  {| router := d.(router); ipTunnel := d.(ipTunnel); cryptoAuth := d.(cryptoAuth); sm := d.(sm); rng := d.(rng);
     myAddr := d.(myAddr); userIf := true; switchPingerIf := d.(switchPingerIf);
     timeBetweenSearches := d.(timeBetweenSearches); timeOfLastSearch := d.(timeOfLastSearch); current := d.(current);
     output := d.(output) |}.
End ducttape.
