(* ===== verification/DucttapeDelivery.v ===== *)
(** * Packets between nodes (net/Ducttape.c)

    What is proved of the data path: a packet from the user's device of one node
    arrives at the device of the other, over the sessions the two have; a message
    of the DHT arrives at the other's DHT; a node in between passes a packet on.
    The lemmas come first: what a running session does to a message and to the
    bytes in front of it, how sessions are found, and how a packet leaves by the
    switch and comes back from it. *)
From stdpp Require Import gmap.
From S2P Require Import Prelude Memory Endian Bits Checksum Headers Message NaCl ReplayProtector CryptoAuth Benc Address NodeCollector Map SessionManager DHT Ducttape TUNMessageType IpTunnel DucttapeData.
Open Scope Z_scope.

(** ** Running sessions *)
Section running.
  Context {P : Platform} {N : NaCl} {L : NaClLaws N} {R : RandomSource}.

(** What a running session's end is after a packet with nonce [n] came in. *)
Definition received (w : Wrapper) (n now : Z) : Wrapper :=
  set_timeOfLastPacket (set_replayProtector w (snd (ReplayProtector_checkNonce n w.(replayProtector)))) (u32 now).

Lemma send_running ctx now msg w r :
  w.(authenticatePackets) = true -> 5 <= w.(nextNonce) < UINT32_MAX ->
  u64 (now - w.(timeOfLastPacket)) <= ctx.(resetAfterInactivitySeconds) ->
  message_ok msg -> 36 <= padding msg ->
  exists p, sendMessage ctx now msg w r = Some (set_nextNonce w (w.(nextNonce) + 1), r, [SendWrapped p], FromCallee)
    /\ message_ok p /\ length p = length msg + 20 /\ padding p = padding msg - 20 /\ bytes p = bytes msg - 20
    /\ content p = be_split 4 w.(nextNonce) ++ seal (nonceAs w.(isInitiator) w.(nextNonce)) w.(secret) (content msg)
    /\ forall x, x < bytes p -> buffer p x = buffer msg x.
Proof.
  intros Ha Hn Hlive Hok Hpad. unfold UINT32_MAX in Hn. rewrite sendMessage_live by done.
  rewrite (proj2 (Z.ltb_ge _ _)) by lia. unfold encryptMessage. rewrite (proj2 (Z.ltb_ge _ _)) by lia.
  unfold encrypt. rewrite Ha. set (nonce := nonceAs _ _).
  destruct (encryptRndNonce_spec nonce msg w.(secret) Hok ltac:(lia)) as (m & -> & Hokm & Hl & Hb & Hp & Hc & Hf).
  cbn [mbind option_bind]. rewrite shift_up by lia. cbn [mbind option_bind length padding bytes buffer with_buffer].
  rewrite u32_small by lia. eexists. split; [reflexivity|]. unfold CryptoAuth_handshakeStage. rewrite Z.add_0_r.
  destruct Hokm as (Hl1 & Hp1 & Ht1 & Hm1). cbn [with_buffer length padding bytes buffer]. split; [|split; [lia|split; [lia|split; [lia|split]]]].
  - unfold message_ok. cbn [with_buffer length padding bytes buffer]. split_and!; try lia.
    apply write_ok; [done|apply store_ok].
  - unfold content at 1. cbn [with_buffer length padding bytes buffer]. rewrite (read_split _ _ _ 4) by lia.
    rewrite store_be_read by lia. f_equal. rewrite read_write_disj by (rewrite length_store; lia).
    replace (bytes m - 4 + 4) with (bytes m) by lia. replace (length m + 4 - 4) with (length m) by lia. exact Hc.
  - intros x Hx. rewrite write_out by lia. apply Hf. lia.
Qed.

Lemma receive_running ctx now q w r n plain :
  w.(authenticatePackets) = true -> 5 <= w.(nextNonce) -> 4 < n < 2 ^ 32 ->
  message_ok q -> 12 <= padding q ->
  content q = be_split 4 n ++ seal (nonceAs (negb w.(isInitiator)) n) w.(secret) plain ->
  fst (ReplayProtector_checkNonce n w.(replayProtector)) = true ->
  exists d, receiveMessage ctx now q w r = Some (received w n now, r, [Deliver d], FromCallee)
    /\ message_ok d /\ length d = length q - 20 /\ padding d = padding q + 20 /\ bytes d = bytes q + 20
    /\ content d = plain /\ forall x, x < bytes q + 4 -> buffer d x = buffer q x.
Proof.
  intros Ha Hnn Hn Hok Hpad Hc Hfresh. pose proof Hok as (Hl0 & Hp0 & Ht0 & Hm0).
  destruct (receive_split q n _ Hok ltac:(lia) Hc) as (Hlq & Hnonce & _).
  rewrite seal_length in Hlq. unfold receiveMessage. rewrite Ha, Hnonce.
  rewrite (proj2 (Z.ltb_ge _ _)) by lia. change (-4) with (- (4)). rewrite (shift_down q 4) by lia. cbn [mbind option_bind].
  rewrite (proj2 (Z.ltb_ge _ 5)) by lia. rewrite (proj2 (Z.ltb_lt 4 n)) by lia.
  set (q4 := {| length := length q - 4; padding := padding q + 4; bytes := bytes q + 4; buffer := buffer q |}).
  assert (content q4 = seal (nonceAs (negb w.(isInitiator)) n) w.(secret) plain) as Hc4.
  { unfold content in Hc. rewrite (read_split _ _ _ 4) in Hc by lia. apply app_inj_1 in Hc as [_ Hc]; [exact Hc|].
    rewrite length_read, length_be_split. done. }
  unfold decryptMessage. rewrite Ha. unfold decrypt.
  destruct (decryptRndNonce_spec _ q4 w.(secret) plain ltac:(unfold message_ok; cbn; split_and!; done || lia) ltac:(cbn; lia) Hc4)
    as (d & -> & Hokd & Hld & Hbd & Hpd & Hcd & Hfd).
  cbn [mbind option_bind negb]. destruct (ReplayProtector_checkNonce n (replayProtector w)) as [ok rp] eqn:Erp.
  cbn [fst] in Hfresh. subst ok. cbn [mbind option_bind]. unfold callReceivedMessage. cbn [set_replayProtector authenticatePackets]. rewrite Ha.
  unfold received. rewrite Erp. cbn [snd]. exists d. split; [reflexivity|]. cbn [q4 length padding bytes buffer] in *.
  split; [exact Hokd|]. split; [lia|]. split; [lia|]. split; [lia|]. split; [exact Hcd|]. exact Hfd.
Qed.
End running.

(** ** Finding sessions *)
Section found.
  Context {P : Platform}.
  #[local] Existing Instance bytes_key.

(** The session manager has the session [s] of [k] under handle [h], in row [i]. *)
Definition session_row (sm : SessionManager) (k : Ip6) (h : Z) (s : SessionManager_Session) (i : Z) : Prop :=
  0 <= i < sm.(ifaceMap).(Map.count) /\ sm.(ifaceMap).(keys) i = k /\ sm.(ifaceMap).(handles) i = h /\ sm.(ifaceMap).(values) i = s.

Lemma getSession_found sm g k h s ck now : sm_ok sm g -> Ip6_valid k -> g !! k = Some (h, s) ->
  exists i, session_row sm k h s i /\
    SessionManager_getSession k ck now sm = ({| ifaceMap := set_value sm.(ifaceMap) i (touched ck now s) |}, i).
Proof.
  intros [Hm _] Hk Hg. pose proof (indexForKey_spec _ _ k Hm Hk) as Hi. rewrite Hg in Hi.
  destruct Hi as (Hir & Ek & Eh & Es). exists (Map_indexForKey k (ifaceMap sm)). split; [done|].
  unfold SessionManager_getSession. rewrite (proj2 (Z.eqb_neq _ (-1))) by lia.
  fold (touched ck now (values (ifaceMap sm) (Map_indexForKey k (ifaceMap sm)))). rewrite Es. done.
Qed.

Lemma handle_found sm g k h s : sm_ok sm g -> g !! k = Some (h, s) ->
  exists i, session_row sm k h s i /\ SessionManager_sessionForHandle h sm = Some i.
Proof.
  intros [Hm _] Hg. destruct (rep_all _ _ Hm _ _ _ Hg) as (i & Hi & Ek & Eh & Es). exists i. split; [done|].
  unfold SessionManager_sessionForHandle.
  destruct (indexForHandle_spec _ _ h Hm) as [[_ Hno]|[Hr Er]]; [by apply Hno in Hg|].
  rewrite (proj2 (Z.eqb_neq _ _)) by lia. f_equal. apply (handles_inj _ _ _ _ Hm); congruence || lia.
Qed.

(** The mark on a handle does not disturb it. *)
Lemma marked_handle h : 0 <= h < 2 ^ 31 ->
  Endian_bigEndianToHost32 ((Endian_hostToBigEndian32 h .| HANDLE_FLAG_BIT_be) .& (UINT32_MAX .^ HANDLE_FLAG_BIT_be)) = h.
Proof.
  intros Hh. assert ((Endian_hostToBigEndian32 h .| HANDLE_FLAG_BIT_be) .& (UINT32_MAX .^ HANDLE_FLAG_BIT_be) = Endian_hostToBigEndian32 h) as ->.
  2: { apply bigEndianToHost32_host. lia. }
  assert (0 <= Endian_hostToBigEndian32 h < 2 ^ 32) as Hr by (apply hostToBigEndian32_range; lia).
  assert (exists b, 0 <= b < 32 /\ HANDLE_FLAG_BIT_be = 2 ^ b /\ Z.testbit (Endian_hostToBigEndian32 h) b = false) as (b & Hb & EF & Hbit).
  { unfold HANDLE_FLAG_BIT_be, Endian_hostToBigEndian32. destruct host_is_big_endian.
    - exists 31. split; [lia|]. split; [reflexivity|]. apply (testbit_high _ 31); lia.
    - exists 7. split; [lia|]. split; [reflexivity|]. unfold Endian_byteSwap32, u32. rewrite testbit_mod by lia.
      rewrite byteSwap32_bit by lia. rewrite Z.mod_small by lia. change (Z.lxor 7 24) with 31.
      rewrite (testbit_high h 31) by lia. apply andb_false_r. }
  rewrite EF. apply (bits_inj_bounded 32); [|done|].
  - rewrite Z.land_comm. apply land_range_l. change UINT32_MAX with (Z.ones 32).
    split; [apply Z.lxor_nonneg; split; intros _; [|vm_compute]; lia || discriminate|].
    destruct (Z.eq_dec (Z.ones 32 .^ 2 ^ b) 0) as [->|]; [lia|]. apply Z.log2_lt_pow2; [apply Z.le_neq; split; [|congruence]|].
    + apply Z.lxor_nonneg. split; intros _; [lia|vm_compute; discriminate].
    + eapply Z.le_lt_trans; [apply Z.log2_lxor; [vm_compute; discriminate|lia]|]. rewrite Z.log2_pow2 by lia. vm_compute Z.log2. lia.
  - intros i Hi. rewrite Z.land_spec, Z.lor_spec, Z.lxor_spec, Z.pow2_bits_eqb by lia. change UINT32_MAX with (Z.ones 32).
    rewrite Z.ones_spec_low by lia. destruct (Z.eqb_spec b i) as [->|]; [rewrite Hbit; done|].
    rewrite orb_false_r, andb_true_r. done.
Qed.
End found.

(** The next steps of an action on Ducttape. *)
Ltac run := unfold emit, assign, the; run_steps.

(** ** Packets to the switch *)
Section paths.
  Context {P : Platform} {N : NaCl} {L : NaClLaws N} {T : TunType P} {TL : TunTypeLaws P T} {R : RandomSource}
    {W : Type} {Rt : Router W} {Su : Surroundings}.
  #[local] Existing Instance bytes_key.

#[local] Abbreviation sessions := (gmap Ip6 (Z * SessionManager_Session)).
#[local] Abbreviation state := (Ducttape (W := W)).

(** A session whose end is running: data packets are authenticated and it did
    not time out. *)
Record running (ca : Context) (w : Wrapper) : Prop := {
  running_auth : w.(authenticatePackets) = true;
  running_nonce : 5 <= w.(nextNonce);
  running_live : u64 (seconds - w.(timeOfLastPacket)) <= ca.(resetAfterInactivitySeconds)
}.

Lemma put_ok sm g k h s i s' : sm_ok sm g -> session_row sm k h s i ->
  s'.(session_ip6) = k -> s'.(receiveHandle_be) = Endian_hostToBigEndian32 h ->
  let sm' := {| ifaceMap := set_value sm.(ifaceMap) i s' |} in
  sm_ok sm' (<[k := (h, s')]> g) /\ session_row sm' k h s' i.
Proof.
  intros [Hm Hid] (Hi & Ek & Eh & Es) H1 H2. cbn zeta. split; [split|].
  - pose proof (set_value_rep _ _ i s' Hm Hi) as H. rewrite Ek, Eh in H. exact H.
  - intros k' h' s0. destruct (decide (k' = k)) as [->|Hne].
    + rewrite lookup_insert_eq. intros [= <- <-]. done.
    + rewrite lookup_insert_ne by done. apply Hid.
  - unfold session_row. cbn. unfold array_set. rewrite Z.eqb_refl. done.
Qed.

Lemma run_getSession (d : state) g k ck h s : sm_ok d.(sm) g -> Ip6_valid k -> g !! k = Some (h, s) ->
  exists i, session_row d.(sm) k h s i /\
    getSession k ck d = Some (i, with_sessions {| ifaceMap := set_value d.(sm).(ifaceMap) i (touched ck seconds s) |} d.(rng) d).
Proof.
  intros Hok Hk Hg. destruct (getSession_found _ _ _ _ _ ck seconds Hok Hk Hg) as (i & Hi & E). exists i. split; [done|].
  unfold getSession. run. rewrite E. done.
Qed.

Lemma row_value (d : state) i k h s : session_row d.(sm) k h s i -> session_at d i = s.
Proof. intros (_ & _ & _ & H). exact H. Qed.

Lemma session_ids (sm : SessionManager) (g : sessions) k h s : sm_ok sm g -> g !! k = Some (h, s) ->
  s.(session_ip6) = k /\ s.(receiveHandle_be) = Endian_hostToBigEndian32 h.
Proof. intros [_ Hid]. apply Hid. Qed.

Lemma running_state ca w : running ca w -> CryptoAuth_getState ca seconds w = (w, CryptoAuth_ESTABLISHED).
Proof.
  intros [_ Hn Hl]. unfold CryptoAuth_getState. rewrite (proj2 (Z.ltb_ge _ _)) by exact Hl.
  rewrite !(proj2 (Z.eqb_neq (nextNonce w) _)) by lia. done.
Qed.

(** A message of a running session, put behind a header. *)
Definition running_packet (header : list Z) (handle_be : Z) (w : Wrapper) (plain : list Z) : list Z :=
  header ++ store 4 handle_be ++ be_split 4 w.(nextNonce) ++ seal (nonceAs w.(isInitiator) w.(nextNonce)) w.(secret) plain.

(** The session in a row, and the effects of an action on it. *)
Definition holds (d : state) (g : sessions) (k : Ip6) (h : Z) (s : SessionManager_Session) (i : Z) : Prop :=
  sm_ok d.(sm) g /\ g !! k = Some (h, s) /\ session_row d.(sm) k h s i.

Lemma holds_ids d g k h s i : holds d g k h s i -> s.(session_ip6) = k /\ s.(receiveHandle_be) = Endian_hostToBigEndian32 h.
Proof. intros (Hok & Hg & _). by apply (session_ids (sm d) g). Qed.

(** Putting a session in its row. *)
Lemma holds_put d g k h s i s' r : holds d g k h s i ->
  s'.(session_ip6) = s.(session_ip6) -> s'.(receiveHandle_be) = s.(receiveHandle_be) ->
  holds (with_sessions {| ifaceMap := set_value d.(sm).(ifaceMap) i s' |} r d) (<[k := (h, s')]> g) k h s' i.
Proof.
  intros Hh E1 E2. destruct (holds_ids _ _ _ _ _ _ Hh) as [I1 I2]. destruct Hh as (Hok & Hg & Hrow).
  destruct (put_ok _ _ _ _ _ _ s' Hok Hrow) as [H1 H2]; [congruence..|]. split; [exact H1|]. split; [|exact H2].
  apply lookup_insert_eq.
Qed.

Lemma run_session (d : state) i s : d.(current).(session) = Managed i -> session_at d i = s -> the_session d = Some (s, d).
Proof. intros E <-. unfold the_session. run. rewrite E. done. Qed.
Lemma run_put (d : state) i s : d.(current).(session) = Managed i -> put_session s d = Some (tt, put_session_at i s d).
Proof. intros E. unfold put_session. run. rewrite E. done. Qed.

Lemma sendToSwitch_running (d : state) g k h s i msg hdr :
  holds d g k h s i -> d.(current).(session) = Managed i -> running d.(cryptoAuth) s.(iface) ->
  0 < s.(session_version) -> message_ok msg -> 16 <= padding msg -> List.length hdr = 12%nat -> bytes_ok hdr ->
  exists p d', sendToSwitch msg (Local hdr) d = Some (switch_code p, d') /\
    d'.(output) = d.(output) ++ [SwitchOut p] /\ content p = hdr ++ store 4 s.(sendHandle_be) ++ content msg /\ message_ok p /\
    d' = with_output (SwitchOut p) (put_session_at i s d).
Proof.
  intros (Hok & Hg & Hrow) Hses Hrun Hv (Hl & Hp & Ht & Hm) Hpad Hlh Hbh.
  unfold sendToSwitch. run. run_by (run_session _ _ _ Hses (row_value _ _ _ _ _ Hrow)).
  rewrite (proj2 (Z.ltb_lt _ _) Hv). cbn [negb]. rewrite (running_state _ _ Hrun). run_by (run_put _ _ (set_iface s (iface s)) Hses).
  assert (set_iface s (iface s) = s) as -> by (destruct s; done).
  change (CryptoAuth_HANDSHAKE3 <=? CryptoAuth_ESTABLISHED) with true. cbv iota.
  destruct (push_some msg (store 4 s.(sendHandle_be)) ltac:(lia) ltac:(rewrite length_store; lia)) as (m1 & E1 & C1 & L1 & P1 & B1).
  rewrite E1. rewrite length_store in *. run. unfold Headers_SwitchHeader_SIZE. rewrite shift_up by lia. run.
  cbn [header_in]. run. cbn [buffer length bytes]. rewrite read_of_list by lia.
  assert (mem_ok (buffer m1)) as Hm1.
  { unfold Message_push in E1. rewrite length_store in E1. rewrite shift_up in E1 by lia. injection E1 as <-. cbn. apply write_ok; [done|apply store_ok]. }
  do 2 eexists. split; [reflexivity|]. split; [reflexivity|]. split; [|split; [|reflexivity]].
  - unfold content at 1. cbn [with_buffer length bytes buffer]. rewrite (read_split _ _ _ 12) by lia.
    rewrite read_write_same by lia. f_equal. rewrite read_write_disj by lia. rewrite <-C1. unfold content. f_equal; lia.
  - unfold message_ok. cbn [with_buffer length padding bytes buffer]. split_and!; try lia. apply write_ok; done.
Qed.

(** What is in front of a message that goes to the switch: the header the context
    points to, or nothing. *)
Definition header_bytes (d : state) (m : mem) : list Z :=
  match d.(current).(switchHeader) with
  | NULL => repeat 0 12
  | InPacket a => read m a 12
  | Local l => read (of_list l) 0 12
  end.

Definition node_value (d : state) (n : NodeRef) : Node :=
  match n with InStore i => node_of d.(router) i | Given n => n end.
Definition node_router (n : NodeRef) (version : Z) (w : W) : W :=
  match n with InStore i => set_node_version i version w | Given _ => w end.

Definition newer (v v' : Z) : Z := if v <? v' then v' else v.

(** The session after a packet was sent through it to a node of version [v]. *)
Definition after_send (ck : option (list Z)) (v : Z) (s : SessionManager_Session) : SessionManager_Session :=
  let s := touched ck seconds s in
  set_iface (set_handle_and_version s.(sendHandle_be) (newer s.(session_version) v) s)
    (set_nextNonce s.(iface) (s.(iface).(nextNonce) + 1)).

(** A session in use has a key, and a packet does not change what it runs on. *)
Lemma touched_iface ck now (s : SessionManager_Session) :
  Bits_isZero (of_list s.(iface).(herPerminentPubKey)) 0 32 = false -> touched ck now s = set_lastMessageTime s (u32 now).
Proof. intros H. unfold touched. destruct ck; [|done]. cbn. rewrite H. done. Qed.

Lemma run_header (d : state) m : copied_header m d = Some (header_bytes d m, d).
Proof. unfold copied_header, header_bytes. run. destruct (switchHeader (current d)); done. Qed.

Lemma run_version (d : state) n v : put_version n v d = Some (tt, with_router (node_router n v d.(router)) d).
Proof. destruct n; [done|]. destruct d. done. Qed.

Lemma header_ok d msg : message_ok msg -> (forall l, d.(current).(switchHeader) = Local l -> bytes_ok l) ->
  bytes_ok (header_bytes d msg.(buffer)) /\ List.length (header_bytes d msg.(buffer)) = 12%nat.
Proof.
  intros (_ & _ & _ & Hm) Hl. unfold header_bytes. destruct (switchHeader (current d)); rewrite ?length_read; (split; [|done]).
  - apply zeros_ok.
  - apply read_ok, Hm.
  - apply read_ok, of_list_ok, Hl. done.
Qed.

(** Calling a session whose handler calls back once. *)
Lemma call_once handle f i msg (d : state) w r e : f d.(cryptoAuth) seconds msg (session_at d i).(iface) d.(rng) = Some (w, r, [e], FromCallee) ->
  call_session handle f i msg d =
    handle e (with_sessions {| ifaceMap := set_value d.(sm).(ifaceMap) i (set_iface (session_at d i) w) |} r d).
Proof.
  intros E. unfold call_session. run. rewrite E. run. cbn [handle_all]. run. rewrite !run_bind.
  destruct (handle e _) as [[code d']|]; done.
Qed.

Lemma call_send handle (d : state) g k h s i msg :
  holds d g k h s i -> running d.(cryptoAuth) s.(iface) -> s.(iface).(nextNonce) < UINT32_MAX ->
  message_ok msg -> 36 <= padding msg ->
  let s' := set_iface s (set_nextNonce s.(iface) (s.(iface).(nextNonce) + 1)) in
  let d' := with_sessions {| ifaceMap := set_value d.(sm).(ifaceMap) i s' |} d.(rng) d in
  exists p, call_session handle sendMessage i msg d = handle (SendWrapped p) d' /\
    message_ok p /\ length p = length msg + 20 /\ padding p = padding msg - 20 /\ bytes p = bytes msg - 20 /\
    content p = be_split 4 s.(iface).(nextNonce)
      ++ seal (nonceAs s.(iface).(isInitiator) s.(iface).(nextNonce)) s.(iface).(secret) (content msg) /\
    (forall x, x < bytes p -> buffer p x = buffer msg x) /\
    holds d' (<[k := (h, s')]> g) k h s' i.
Proof.
  intros Hh [Ha Hn Hl] Hmax Hok Hpad s' d'. destruct Hh as (H1 & H2 & Hrow).
  destruct (send_running d.(cryptoAuth) seconds msg s.(iface) d.(rng) Ha (conj Hn Hmax) Hl Hok Hpad) as (p & E & Hp). exists p.
  rewrite <-(row_value _ _ _ _ _ Hrow) in E. rewrite (call_once _ _ _ _ _ _ _ _ E), (row_value _ _ _ _ _ Hrow).
  split; [reflexivity|]. destruct Hp as (P1 & P2 & P3 & P4 & P5 & P6). do 6 (split; [assumption|]).
  apply (holds_put d g k h s i s' d.(rng)); [exact (conj H1 (conj H2 Hrow))|done|done].
Qed.

(** What a packet on its way through the node leaves alone. *)
Definition same_node (d d' : state) : Prop :=
  d'.(ipTunnel) = d.(ipTunnel) /\ d'.(cryptoAuth) = d.(cryptoAuth) /\ d'.(myAddr) = d.(myAddr) /\ d'.(userIf) = d.(userIf).

#[local] Instance same_node_preorder : PreOrder same_node.
Proof. split; [done|]. intros d1 d2 d3 (A1 & A2 & A3 & A4) (B1 & B2 & B3 & B4). unfold same_node. split_and!; congruence. Qed.

(** Sending to a node with which there is a running session: the switch is given
    the packet behind the node's label; the session's counter goes up. *)
Lemma sendToRouter_running fuel (d : state) g n msg h s :
  let node := node_value d n in
  let hdr := be_split 8 node.(address).(path) ++ drop 8 (header_bytes d msg.(buffer)) in
  sm_ok d.(sm) g -> Ip6_valid node.(address).(ip6) -> g !! node.(address).(ip6) = Some (h, s) ->
  Bits_isZero (of_list s.(iface).(herPerminentPubKey)) 0 32 = false ->
  running d.(cryptoAuth) s.(iface) -> s.(iface).(nextNonce) < UINT32_MAX ->
  0 < newer s.(session_version) node.(node_version) ->
  0 <= node.(address).(path) < 2 ^ 64 -> message_ok msg -> 36 <= padding msg ->
  (forall l, d.(current).(switchHeader) = Local l -> bytes_ok l) ->
  exists p d', sendToRouter (handle_event (Datatypes.S fuel)) n msg d = Some (switch_code p, d') /\
    content p = running_packet hdr s.(sendHandle_be) s.(iface) (content msg) /\ message_ok p /\
    d'.(output) = d.(output) ++ [SwitchOut p] /\
    sm_ok d'.(sm) (<[node.(address).(ip6) := (h, after_send (Some node.(address).(key)) node.(node_version) s)]> g) /\
    d'.(router) = node_router n (newer s.(session_version) node.(node_version)) d.(router) /\
    same_node d d' /\ d'.(current).(forwardTo) = d.(current).(forwardTo) /\
    d'.(current).(currentSessionVersion) = d.(current).(currentSessionVersion).
Proof.
  intros node hdr Hok Hk Hg Hkey Hrun Hmax Hv Hpath Hmsg Hpad Hlocal. set (k := node.(address).(ip6)) in *.
  destruct (header_ok d msg Hmsg Hlocal) as [Hhb Hhl].
  assert (List.length hdr = 12%nat) as Hl by (unfold hdr; rewrite length_app, length_be_split, length_drop; lia).
  assert (bytes_ok hdr) as Hb by (apply Forall_app; split; [apply be_split_ok|apply Forall_drop, Hhb]).
  unfold sendToRouter, the_node. run. fold (node_value d n). fold node. run_by (run_header d (buffer msg)). rewrite store_be64 by exact Hpath.
  fold hdr. run. set (d1 := with_current _ d).
  destruct (run_getSession d1 g k (Some node.(address).(key)) h s Hok Hk Hg) as (i & Hrow & Eg).
  rewrite (touched_iface _ _ _ Hkey) in Eg. run_by Eg. clear Eg. set (s1 := set_lastMessageTime s (u32 seconds)).
  assert (holds d1 g k h s i) as Hd1 by (split; [exact Hok|split; [exact Hg|exact Hrow]]).
  pose proof (holds_put d1 g k h s i s1 d1.(rng) Hd1 eq_refl eq_refl) as Hd2. set (d2 := with_sessions _ _ d1) in *. run.
  rewrite (row_value _ _ _ _ _ (proj2 (proj2 Hd2))). fold (newer s1.(session_version) node.(node_version)).
  set (v := newer _ _). set (s2 := set_handle_and_version _ v s1).
  pose proof (holds_put d2 _ k h s1 i s2 d2.(rng) Hd2 eq_refl eq_refl) as Hd3. fold (put_session_at i s2 d2) in Hd3.
  rewrite insert_insert_eq in Hd3. set (d3 := put_session_at i s2 d2) in *.
  rewrite (run_ok _ _ _ _ _ (run_version d3 n v)). run. set (d4 := with_current (set_layer OUTER) _).
  assert (holds d4 (<[k := (h, s2)]> g) k h s2 i) as Hd4 by exact Hd3.
  assert (running d4.(cryptoAuth) s2.(iface)) as Hrun4 by (destruct Hrun; split; done).
  destruct (call_send (handle_event (Datatypes.S fuel)) d4 _ k h s2 i msg Hd4 Hrun4 Hmax Hmsg Hpad)
    as (p & -> & P1 & P2 & P3 & P4 & P5 & P6 & Hd5). rewrite insert_insert_eq in Hd5.
  set (s3 := set_iface s2 _) in *. set (d5 := with_sessions _ _ d4) in *.
  cbn [handle_event]. unfold outgoingFromCryptoAuth. run. set (d6 := with_current (set_layer INVALID) d5).
  change (layer (current d5)) with OUTER. cbv iota. change (switchHeader (current d5)) with (Local hdr).
  assert (running d6.(cryptoAuth) s3.(iface)) as Hrun6 by (destruct Hrun; split; cbn; done || lia).
  destruct (sendToSwitch_running d6 _ k h s3 i p hdr Hd5 eq_refl Hrun6 Hv P1 ltac:(lia) Hl Hb) as (p' & d' & E & Ho & C & Hp' & Ed).
  exists p', d'. split; [exact E|]. split; [rewrite C, P5; reflexivity|]. split; [exact Hp'|]. split; [exact Ho|].
  pose proof (holds_put d6 _ k h s3 i s3 d6.(rng) Hd5 eq_refl eq_refl) as Hd7. rewrite insert_insert_eq in Hd7.
  rewrite Ed. split; [|unfold same_node; split_and!; reflexivity]. unfold after_send. cbv zeta. rewrite (touched_iface _ _ _ Hkey). apply Hd7.
Qed.

(** ** Packets from the switch *)

(** The session after a packet with nonce [n] came in through it. *)
Definition after_receive (n : Z) (s : SessionManager_Session) : SessionManager_Session :=
  set_iface s (received s.(iface) n seconds).

Definition label_of (m : mem) (header : Z) : Z := Endian_bigEndianToHost64 (load 8 m (header + SwitchHeader_label_be)).

Lemma load_stored (n : nat) z : load n (of_list (store n z)) 0 = z mod 2 ^ (8 * Z.of_nat n).
Proof. pose proof (load_of_list_mid n z [] [] 0 eq_refl) as H. cbn [app] in H. rewrite app_nil_r in H. exact H. Qed.

Lemma call_receive handle (d : state) g k h s i q n plain :
  holds d g k h s i -> s.(iface).(authenticatePackets) = true -> 5 <= s.(iface).(nextNonce) -> 4 < n < 2 ^ 32 ->
  message_ok q -> 12 <= padding q ->
  content q = be_split 4 n ++ seal (nonceAs (negb s.(iface).(isInitiator)) n) s.(iface).(secret) plain ->
  fst (ReplayProtector_checkNonce n s.(iface).(replayProtector)) = true ->
  let d' := with_sessions {| ifaceMap := set_value d.(sm).(ifaceMap) i (after_receive n s) |} d.(rng) d in
  exists dm, call_session handle receiveMessage i q d = handle (Deliver dm) d' /\
    message_ok dm /\ length dm = length q - 20 /\ padding dm = padding q + 20 /\ bytes dm = bytes q + 20 /\ content dm = plain /\
    (forall x, x < bytes q + 4 -> buffer dm x = buffer q x) /\
    holds d' (<[k := (h, after_receive n s)]> g) k h (after_receive n s) i.
Proof.
  intros Hh Ha Hnn Hn Hok Hpad Hc Hfresh d'. destruct Hh as (H1 & H2 & Hrow).
  destruct (receive_running d.(cryptoAuth) seconds q s.(iface) d.(rng) n plain Ha Hnn Hn Hok Hpad Hc Hfresh) as (dm & E & Hp). exists dm.
  rewrite <-(row_value _ _ _ _ _ Hrow) in E. rewrite (call_once _ _ _ _ _ _ _ _ E), (row_value _ _ _ _ _ Hrow).
  split; [reflexivity|]. destruct Hp as (P1 & P2 & P3 & P4 & P5 & P6). do 6 (split; [assumption|]).
  apply (holds_put d g k h s i _ d.(rng)); [exact (conj H1 (conj H2 Hrow))|done|done].
Qed.

(** A packet of a running session comes from the switch: its content goes on to
    [incomingFromRouter]. *)
Lemma incomingFromSwitch_running fuel (d : state) g k h s q hdr n plain :
  sm_ok d.(sm) g -> g !! k = Some (h, s) -> 0 <= h < 2 ^ 31 ->
  s.(iface).(authenticatePackets) = true -> 5 <= s.(iface).(nextNonce) -> 4 < n < UINT32_MAX ->
  fst (ReplayProtector_checkNonce n s.(iface).(replayProtector)) = true ->
  message_ok q -> List.length hdr = 12%nat ->
  content q = hdr ++ store 4 (Endian_hostToBigEndian32 h .| HANDLE_FLAG_BIT_be) ++ be_split 4 n
    ++ seal (nonceAs (negb s.(iface).(isInitiator)) n) s.(iface).(secret) plain ->
  Headers_getMessageType q.(buffer) q.(bytes) <> Headers_SwitchHeader_TYPE_CONTROL ->
  exists dm d1 i,
    incomingFromSwitch (handle_event (Datatypes.S fuel)) q d =
      (incomingFromRouter (handle_event fuel) dm ≫= fun _ =>
        c ← the id; _ ← assign (set_currentSession c.(currentSessionSendHandle_be) 0); mret 0) d1 /\
    message_ok dm /\ length dm = length q - 36 /\ padding dm = padding q + 36 /\ bytes dm = bytes q + 36 /\ content dm = plain /\
    label_of dm.(buffer) q.(bytes) = Bits_bitReverse64 (label_of q.(buffer) q.(bytes)) /\
    read dm.(buffer) (q.(bytes) + 8) 4 = read q.(buffer) (q.(bytes) + 8) 4 /\
    holds d1 (<[k := (h, after_receive n s)]> g) k h (after_receive n s) i /\
    same_node d d1 /\ d1.(router) = d.(router) /\ d1.(output) = d.(output) /\
    d1.(current).(switchHeader) = InPacket q.(bytes) /\ d1.(current).(session) = Managed i /\
    d1.(current).(forwardTo) = d.(current).(forwardTo) /\
    d1.(current).(currentSessionVersion) = d.(current).(currentSessionVersion) /\
    d1.(sm).(ifaceMap).(nextHandle) = d.(sm).(ifaceMap).(nextHandle).
Proof.
  intros Hok Hg Hh Ha Hnn Hn Hfresh (Hl & Hp & Ht & Hm) Hlh Hc Htype.
  assert (Z.of_nat (List.length (content q)) = length q) as Hcl by (apply content_length; lia).
  rewrite Hc, !length_app, length_store, length_be_split, seal_length, Hlh in Hcl. unfold UINT32_MAX in *.
  pose proof (content_length q) as _. unfold content in Hc. set (a := bytes q) in *. set (handle_be := _ .| HANDLE_FLAG_BIT_be) in *.
  unfold incomingFromSwitch. run. unfold Headers_SwitchHeader_SIZE. change (-12) with (- (12)). rewrite shift_down by lia. run.
  cbn [buffer with_buffer length]. fold a. run. set (m := write _ _ _).
  assert (forall x, a + 8 <= x -> m x = buffer q x) as Hrest.
  { intros x Hx. unfold m. apply write_out. rewrite length_store. unfold SwitchHeader_label_be. lia. }
  assert (mem_ok m) as Hmm by (apply write_ok; [done|apply store_ok]).
  assert (forall o k, 8 <= o -> read m (a + o) k = read q.(buffer) (a + o) k) as Hread.
  { intros o k' Ho. apply read_ext. intros j Hj. rewrite <-Z.add_assoc. apply Hrest. lia. }
  assert (Headers_getMessageType m a = Headers_getMessageType (buffer q) a) as ->.
  { unfold Headers_getMessageType. do 2 f_equal. apply load_read, (Hread 8 (Z.of_nat 4)). lia. }
  rewrite (proj2 (Z.eqb_neq _ _) Htype), (proj2 (Z.ltb_ge _ 8)) by lia.
  unfold Message_pop. cbn [bytes buffer length with_buffer padding]. change (-4) with (- (4)). rewrite shift_down by (cbn; lia).
  cbn [mbind option_bind]. run. cbn [with_buffer bytes buffer length padding].
  assert (read (buffer q) (a + 12) 4 = store 4 handle_be) as Eh by (apply (read_field _ _ _ _ _ _ _ _ Hc); [lia|rewrite length_store; done]).
  assert (read (buffer q) (a + 12 + 4) (length q - 12 - 4) = be_split 4 n ++ seal (nonceAs (negb (isInitiator (iface s))) n) (secret (iface s)) plain) as Er.
  { replace (a + 12 + 4) with (a + 16) by lia. rewrite (app_assoc hdr) in Hc.
    apply (read_field _ _ (length q) (hdr ++ store 4 handle_be) _ []); [rewrite app_nil_r; exact Hc|rewrite length_app, length_store; lia|].
    rewrite length_app, length_be_split, seal_length. lia. }
  rewrite (Hread 12 4), Eh, load_stored by lia.
  assert (Endian_bigEndianToHost32 (load 4 m (a + 12 + 4)) = n) as ->.
  { apply load_be_split; [lia|done|]. replace (a + 12 + 4) with (a + 16) by lia. rewrite Hread by lia.
    replace (a + 16) with (a + 12 + 4) by lia. rewrite (read_split _ _ (length q - 12 - 4) 4) in Er by lia.
    apply app_inj_1 in Er as [Er _]; [exact Er|rewrite length_read, length_be_split; done]. }
  destruct (handle_found _ _ _ _ _ Hok Hg) as (i & Hrow & Ei).
  unfold findSession. rewrite (proj2 (Z.ltb_lt 3 n)) by lia. unfold sessionForHandle. run.
  rewrite Z.mod_small by (apply lor_range; [lia|apply hostToBigEndian32_range; lia|apply hostToBigEndian32_range; lia]).
  unfold handle_be. rewrite marked_handle, Ei by done. cbv beta iota.
  rewrite (proj2 (Z.eqb_neq n UINT32_MAX)) by (unfold UINT32_MAX; lia). run. set (d0 := with_current (set_layer OUTER) _).
  assert (holds d0 g k h s i) as Hd0 by (split; [exact Hok|split; [exact Hg|exact Hrow]]).
  set (q2 := {| length := length q - 12 - 4; padding := _; bytes := _; buffer := m |}).
  assert (message_ok q2) as Hok2 by (unfold message_ok; cbn; split_and!; done || lia).
  assert (content q2 = be_split 4 n ++ seal (nonceAs (negb (isInitiator (iface s))) n) (secret (iface s)) plain) as Hc2.
  { rewrite <-Er. unfold content. cbn [q2 buffer bytes length]. replace (a + 12 + 4) with (a + 16) by lia. apply Hread. lia. }
  destruct (call_receive (handle_event (Datatypes.S fuel)) d0 g k h s i q2 n plain Hd0 Ha Hnn ltac:(lia) Hok2 ltac:(cbn; lia) Hc2 Hfresh)
    as (dm & E & P1 & P2 & P3 & P4 & P5 & P6 & Hd1).
  set (d1 := with_sessions _ _ d0) in *. exists dm, (with_current (set_layer INVALID) d1), i. cbn [q2 length padding bytes] in *.
  split. { rewrite run_bind, E. cbn [handle_event]. unfold incomingFromCryptoAuth. run. change (layer (current d1)) with OUTER. done. }
  split; [exact P1|]. split; [lia|]. split; [lia|]. split; [lia|]. split; [exact P5|]. split.
  { unfold label_of, SwitchHeader_label_be. rewrite (load_read 8 (buffer dm) (write (buffer q) (a + 0) (store 8 (Bits_bitReverse64 (load 8 (buffer q) (a + 0))))) (a + 0) (a + 0)).
    - rewrite load_write_store, Z.mod_small by apply bitReverse64_range. unfold Endian_bigEndianToHost64.
      rewrite <-bitReverse64_hostToBigEndian by (apply (load_range 8), Hm). done.
    - apply read_ext. intros j Hj. apply P6. lia. }
  split. { rewrite <-Hread by lia. apply read_ext. intros j Hj. apply P6. lia. }
  split; [exact Hd1|]. unfold same_node. split_and!; reflexivity.
Qed.

(** ** Packets to the user's device *)

(** The header as the device gets it: the highest hop limit is lowered, and the
    packet is shorter by the [k] bytes that lay between header and content. *)
Definition limited (hd : list Z) : list Z := if nth 7 hd 0 =? 255 then <[7%nat := 254]> hd else hd.
Definition set_payload (n : Z) (hd : list Z) : list Z := take 4 hd ++ be_split 2 n ++ drop 6 hd.
Definition shorter (k : Z) (hd : list Z) : list Z :=
  if k =? 0 then hd else set_payload (u16 (be_combine (take 2 (drop 4 hd)) - k)) hd.

Lemma read_set_nth m a n i b : 0 <= i < n -> read (set m (a + i) b) a n = <[Z.to_nat i := b]> (read m a n).
Proof.
  intros Hi. apply (nth_ext _ _ 0 0); [rewrite length_insert, !length_read; done|]. rewrite length_read. intros j Hj.
  rewrite nth_read by done. destruct (decide (j = Z.to_nat i)) as [->|Hne].
  - rewrite Z2Nat.id by lia. rewrite set_eq. symmetry. apply nth_lookup_Some, list_lookup_insert_eq. rewrite length_read. lia.
  - rewrite set_ne by lia. rewrite (nth_lookup (<[_ := _]> _)), list_lookup_insert_ne by done. rewrite <-nth_lookup, nth_read by done. done.
Qed.

Lemma read_limited m a k : 40 <= k ->
  let m' := if m (a + 7) =? 255 then set m (a + 7) (m (a + 7) - 1) else m in
  read m' a 40 = limited (read m a 40) /\ (forall x, x <> a + 7 -> m' x = m x) /\ (mem_ok m -> mem_ok m').
Proof.
  intros Hk. unfold limited. rewrite nth_read by lia. change (Z.of_nat 7) with 7. destruct (Z.eqb_spec (m (a + 7)) 255) as [E|]; cbv zeta.
  - rewrite E. split; [apply (read_set_nth _ _ _ 7); lia|]. split; [intros x Hx; by apply set_ne|]. intros Hm. apply set_ok; [done|]. unfold is_byte. lia.
  - done.
Qed.

Lemma header_split m a : read m a 40 = read m a 4 ++ read m (a + 4) 2 ++ read m (a + 6) 34.
Proof.
  rewrite (read_split m a 40 4), (read_split m (a + 4) (40 - 4) 2) by lia. replace (a + 4 + 2) with (a + 6) by lia. reflexivity.
Qed.

Lemma read_payload m a z : 0 <= z < 2 ^ 16 ->
  read (write m (a + 4) (store 2 (Endian_hostToBigEndian16 z))) a 40 = set_payload z (read m a 40).
Proof.
  intros Hz. pose proof (header_split m a) as E. rewrite store_be16 by done.
  rewrite (read_write_field m a 40 (read m a 4) (read m (a + 4) 2) (read m (a + 6) 34) _ 4 E); [|rewrite length_read; done|rewrite length_be_split, length_read; done].
  rewrite E. reflexivity.
Qed.

Lemma read_shorter m a k : mem_ok m -> k <> 0 ->
  let m' := write m (a + 4) (store 2 (Endian_hostToBigEndian16 (u16 (Endian_bigEndianToHost16 (load 2 m (a + 4)) - k)))) in
  read m' a 40 = shorter k (read m a 40).
Proof.
  intros Hm Hk m'. unfold shorter. rewrite (proj2 (Z.eqb_neq k 0)) by done. unfold m'. rewrite read_payload by apply u16_range.
  rewrite be_load16 by done.
  assert (take 2 (drop 4 (read m a 40)) = read m (a + 4) 2) as -> by (rewrite header_split; reflexivity). done.
Qed.

Lemma limited_first hd : nth 0 (limited hd) 0 = nth 0 hd 0.
Proof. unfold limited. destruct (_ =? _); [|done]. destruct hd; done. Qed.
Lemma shorter_first k hd : List.length hd = 40%nat -> nth 0 (shorter k hd) 0 = nth 0 hd 0.
Proof. unfold shorter, set_payload. destruct (_ =? _); [done|]. destruct hd; done. Qed.
Lemma limited_length hd : List.length (limited hd) = List.length hd.
Proof. unfold limited. destruct (_ =? _); [apply length_insert|done]. Qed.
Lemma shorter_length k hd : List.length hd = 40%nat -> List.length (shorter k hd) = 40%nat.
Proof.
  intros Hl. unfold shorter, set_payload. destruct (_ =? _); [done|]. rewrite !length_app, length_take, length_drop, length_be_split. lia.
Qed.

(** A packet whose header lies [k] bytes in front of where it belongs. *)
Lemma writeToTun_spec (d : state) msg a k hd :
  d.(current).(ip6Header) = InPacket a -> message_ok msg -> 44 <= padding msg -> bytes msg - 40 = a + k -> 0 <= k < 2 ^ 16 ->
  read msg.(buffer) a 40 = hd -> nth 0 hd 0 >> 4 = 6 ->
  exists t, writeToTun msg d = Some (Error_NONE, with_output (TunOut t) d) /\
    exists t', TUNMessageType_pop t = Some (Ethernet_TYPE_IP6, t') /\ content t' = shorter k (limited hd) ++ content msg.
Proof.
  intros Hh (Hl & Hp & Ht & Hm) Hpad Ha Hk Ehd Hv. unfold writeToTun. run. rewrite Hh. cbn [header_in]. run.
  unfold Headers_IP6Header_SIZE. rewrite shift_up by lia. run. cbn [bytes buffer].
  replace (bytes msg - 40 - a) with k by lia. rewrite u16_small by lia.
  destruct (read_limited (buffer msg) a 40 ltac:(lia)) as (R1 & R2 & R3). unfold IP6Header_hopLimit. set (m1 := if _ =? 255 then _ else _) in *.
  rewrite Ehd in R1. specialize (R3 Hm). assert (List.length hd = 40%nat) as Hhl by (rewrite <-Ehd, length_read; done).
  assert (forall m2, mem_ok m2 -> read m2 (bytes msg - 40) 40 = shorter k (limited hd) -> (forall x, bytes msg <= x -> m2 x = buffer msg x) ->
    exists t, (t0 ← lift (TUNMessageType_push {| length := length msg + 40; padding := padding msg - 40; bytes := bytes msg - 40; buffer := m2 |}
                 Ethernet_TYPE_IP6); _ ← modify (with_output (TunOut t0)); mret Error_NONE) d = Some (Error_NONE, with_output (TunOut t) d) /\
      exists t', TUNMessageType_pop t = Some (Ethernet_TYPE_IP6, t') /\ content t' = shorter k (limited hd) ++ content msg) as Hpush.
  { intros m2 Hm2 Hr Hrest. set (M := {| length := _; padding := _; bytes := _; buffer := m2 |}).
    destruct (push_pop M Ethernet_TYPE_IP6) as (t & t' & E1 & E2 & E3 & _).
    - unfold message_ok. cbn. split_and!; done || lia.
    - cbn. lia.
    - right. split; [done|]. cbn [M bytes buffer]. pose proof (nth_read m2 (bytes msg - 40) 40 0 0 ltac:(lia)) as H0.
      rewrite Z.add_0_r in H0. rewrite <-H0, Hr, shorter_first, limited_first by (rewrite limited_length; done). exact Hv.
    - exists t. rewrite E1. run. split; [done|]. exists t'. split; [exact E2|]. rewrite E3. unfold content. cbn [M bytes buffer length].
      rewrite (read_split _ _ _ 40), Hr by lia. f_equal. replace (bytes msg - 40 + 40) with (bytes msg) by lia.
      replace (length msg + 40 - 40) with (length msg) by lia. apply read_ext. intros j Hj. apply Hrest. lia. }
  destruct (Z.eqb_spec k 0) as [->|Hk0].
  - apply Hpush; [done| |intros x Hx; apply R2; lia]. unfold shorter. cbn [Z.eqb]. rewrite <-R1. f_equal. lia.
  - unfold IP6Header_payloadLength_be. set (m2 := write m1 (a + 4) _).
    assert (read m2 a 40 = shorter k (limited hd)) as E2 by (rewrite <-R1; apply (read_shorter m1 a k R3 Hk0)).
    apply Hpush.
    + apply write_ok; [apply write_ok; [done|apply store_ok]|]. apply read_ok, write_ok; [done|apply store_ok].
    + rewrite read_write_same by (rewrite length_read; done). exact E2.
    + intros x Hx. rewrite write_out by (rewrite length_read; lia). unfold m2. rewrite write_out by (rewrite length_store; lia). apply R2. lia.
Qed.

(** The fields of a packet. *)
Definition source_of (packet : list Z) : list Z := take 16 (drop 8 packet).
Definition destination_of (packet : list Z) : list Z := take 16 (drop 24 packet).
Definition router_traffic (packet : list Z) : Prop := nth 6 packet 0 = 17 /\ nth 7 packet 0 = 0.

Lemma content_slice msg o n : 0 <= o -> 0 <= n -> o + n <= length msg ->
  read msg.(buffer) (msg.(bytes) + o) n = take (Z.to_nat n) (drop (Z.to_nat o) (content msg)).
Proof.
  intros Ho Hn Hl. unfold content. rewrite (read_split _ _ (length msg) o) by lia.
  rewrite drop_app_length' by (rewrite length_read; lia). rewrite (read_split _ _ (length msg - o) n) by lia.
  rewrite take_app_length' by (rewrite length_read; lia). done.
Qed.

Lemma content_nth msg o : 0 <= o < length msg -> msg.(buffer) (msg.(bytes) + o) = nth (Z.to_nat o) (content msg) 0.
Proof. intros Ho. unfold content. rewrite nth_read by lia. f_equal. lia. Qed.

Lemma memcmp_same l l' : List.length l = List.length l' -> (Bits_memcmp l l' =? 0) = bool_decide (l = l').
Proof.
  intros Hl. pose proof (memcmp_0 l l' Hl) as H. destruct (Z.eqb_spec (Bits_memcmp l l') 0); symmetry.
  - apply bool_decide_eq_true. tauto.
  - apply bool_decide_eq_false. tauto.
Qed.

(** A packet of the user's for this node, [k] bytes behind its header. *)
Lemma incomingForMe_tun handle (d : state) msg key a k hd i s :
  d.(current).(session) = Managed i -> session_at d i = s -> d.(current).(ip6Header) = InPacket a -> d.(userIf) = true ->
  message_ok msg -> 0 < length msg -> 44 <= padding msg -> bytes msg - 40 = a + k -> 0 <= k < 2 ^ 16 ->
  read msg.(buffer) a 40 = hd -> nth 0 hd 0 >> 4 = 6 -> source_of hd = s.(session_ip6) -> ~ router_traffic hd ->
  exists t, incomingForMe handle msg key false d = Some (Error_NONE, with_output (TunOut t) d) /\
    exists t', TUNMessageType_pop t = Some (Ethernet_TYPE_IP6, t') /\ content t' = shorter k (limited hd) ++ content msg.
Proof.
  intros Hses Hs Hh Hu Hok Hlen Hpad Ha Hk Ehd Hv Hsrc Hnr. unfold incomingForMe, takeHandle. cbn [andb]. run.
  run_by (run_session _ _ _ Hses Hs). run. rewrite Hh. cbn [header_in]. run.
  assert (read (buffer msg) (a + IP6Header_sourceAddr) 16 = source_of hd) as ->.
  { rewrite <-Ehd. unfold source_of, IP6Header_sourceAddr. rewrite (read_split _ a 40 8), (read_split _ (a + 8) (40 - 8) 16) by lia.
    rewrite drop_app_length' by (rewrite length_read; done). rewrite take_app_length' by (rewrite length_read; done). done. }
  assert (forall o, 0 <= o < 40 -> buffer msg (a + o) = nth (Z.to_nat o) hd 0) as Hn.
  { intros o Ho. rewrite <-Ehd, nth_read by lia. f_equal. lia. }
  rewrite Hsrc, (proj2 (memcmp_0 _ _ eq_refl) eq_refl). cbn [Z.eqb negb]. rewrite (proj2 (Z.eqb_neq (length msg) 0)) by lia.
  assert (isRouterTraffic msg (buffer msg) a = false) as ->.
  { unfold isRouterTraffic, IP6Header_nextHeader, IP6Header_hopLimit. rewrite !Hn by lia. change (Z.to_nat 6) with 6%nat. change (Z.to_nat 7) with 7%nat.
    destruct (Z.eqb_spec (nth 6 hd 0) 17), (Z.eqb_spec (nth 7 hd 0) 0); try done. exfalso. apply Hnr. done. }
  run. rewrite Hu. cbn [negb]. by apply (writeToTun_spec d msg a k hd).
Qed.

(** Packets of another node: what [core] does with one for this node from the
    other end of the outer session. *)
Lemma core_direct handle (d : state) msg hd pl i s :
  d.(current).(session) = Managed i -> session_at d i = s -> d.(userIf) = true ->
  message_ok msg -> 4 <= padding msg -> content msg = hd ++ pl -> List.length hd = 40%nat -> pl <> [] ->
  nth 0 hd 0 >> 4 = 6 -> source_of hd = s.(session_ip6) -> List.length (ip6 (myAddr d)) = 16%nat ->
  destination_of hd = d.(myAddr).(ip6) -> ~ router_traffic hd ->
  exists t d', core handle msg d = Some (Error_NONE, d') /\ d' = with_output (TunOut t) (with_current (set_ip6Header (InPacket msg.(bytes))) d) /\
    exists t', TUNMessageType_pop t = Some (Ethernet_TYPE_IP6, t') /\ content t' = limited hd ++ pl.
Proof.
  intros Hses Hs Hu Hok Hpad Hc Hlh Hpl Hv Hsrc Hmy Hdst Hnr. pose proof Hok as (Hl & Hp & Ht & Hm).
  pose proof (content_length msg ltac:(lia)) as Hcl. rewrite Hc, length_app, Hlh in Hcl.
  assert (0 < List.length pl)%nat as Hpl' by (destruct pl; [done|cbn; lia]).
  unfold core. run. set (d1 := with_current _ d).
  assert (take 40 (content msg) = hd /\ drop 40 (content msg) = pl) as [Eh Ep].
  { rewrite Hc. rewrite take_app_length', drop_app_length' by done. done. }
  assert (isForMe msg (myAddr d1) = true) as ->.
  { unfold isForMe, IP6Header_destinationAddr. rewrite content_slice by lia. change (Z.to_nat 16) with 16%nat. change (Z.to_nat 24) with 24%nat.
    rewrite Hc, drop_app_le, take_app_le by (rewrite ?length_drop; lia). fold (destination_of hd). rewrite Hdst.
    rewrite (proj2 (memcmp_0 _ _ eq_refl) eq_refl). done. }
  unfold Headers_IP6Header_SIZE. change (-40) with (- (40)). rewrite shift_down by lia. run. cbn [buffer bytes].
  run_by (run_session d1 i s Hses Hs).
  assert (read (buffer msg) (bytes msg + IP6Header_sourceAddr) 16 = source_of hd) as ->.
  { unfold IP6Header_sourceAddr. rewrite content_slice by lia. change (Z.to_nat 16) with 16%nat. change (Z.to_nat 8) with 8%nat.
    rewrite Hc, drop_app_le, take_app_le by (rewrite ?length_drop; lia). done. }
  rewrite Hsrc, (proj2 (memcmp_0 _ _ eq_refl) eq_refl). cbn [Z.eqb negb]. unfold getHerPublicKey. run. run_by (run_session d1 i s Hses Hs). run.
  set (msg' := {| length := length msg - 40; padding := padding msg + 40; bytes := bytes msg + 40; buffer := buffer msg |}).
  assert (content msg' = pl) as Ecp.
  { rewrite <-Ep. unfold content. cbn [msg' length bytes buffer]. rewrite (read_split _ _ (length msg) 40) by lia.
    rewrite drop_app_length' by (rewrite length_read; done). done. }
  destruct (incomingForMe_tun handle d1 msg' (CryptoAuth_getHerPublicKey (iface s)) (bytes msg) 0 hd i s) as (t & E & t' & E1 & E2); try done.
  - unfold message_ok. cbn. split_and!; done || lia.
  - cbn. lia.
  - cbn. lia.
  - cbn. lia.
  - cbn [msg' buffer]. rewrite <-(Z.add_0_r (bytes msg)), content_slice by lia. rewrite drop_0. exact Eh.
  - exists t, (with_output (TunOut t) d1). split; [exact E|]. split; [done|]. exists t'. split; [exact E1|]. rewrite E2, Ecp. done.
Qed.

(** ** From one user's device to another's *)

(** [A] can send to [B]: each has a session for the other's address, the two are
    ends of one CryptoAuth session, [A]'s is running and has [B]'s handle, and
    [B] takes the next nonce. *)
Record connected (A B : state) (gA gB : sessions) (hA hB : Z) (sA sB : SessionManager_Session) : Prop := {
  con_sessions_A : sm_ok A.(sm) gA;
  con_sessions_B : sm_ok B.(sm) gB;
  con_session_A : gA !! B.(myAddr).(ip6) = Some (hA, sA);
  con_session_B : gB !! A.(myAddr).(ip6) = Some (hB, sB);
  con_linked : linked sA.(iface) sB.(iface);
  con_running : running A.(cryptoAuth) sA.(iface);
  con_key : Bits_isZero (of_list sA.(iface).(herPerminentPubKey)) 0 32 = false;
  con_handle : 0 <= hB < 2 ^ 31 /\ sA.(sendHandle_be) = Endian_hostToBigEndian32 hB .| HANDLE_FLAG_BIT_be;
  con_nonce : sA.(iface).(nextNonce) < UINT32_MAX;
  con_fresh : fst (ReplayProtector_checkNonce sA.(iface).(nextNonce) sB.(iface).(replayProtector)) = true
}.

(** The switches carry what is behind the header to the other node, under another
    header that is not that of a control packet. *)
Definition carried (p q : Message) : Prop :=
  message_ok q /\ Headers_getMessageType q.(buffer) q.(bytes) <> Headers_SwitchHeader_TYPE_CONTROL /\
  exists header, List.length header = 12%nat /\ content q = header ++ drop 12 (content p).

(** A packet of the user of a node with address [source]. *)
Record user_packet (hd payload source destination : list Z) : Prop := {
  up_length : List.length hd = 40%nat;
  up_payload : payload <> [];
  up_version : nth 0 hd 0 >> 4 = 6;
  up_source : source_of hd = source;
  up_destination : destination_of hd = destination;
  up_valid : AddressCalc_validAddress source = true /\ AddressCalc_validAddress destination = true;
  up_other : source <> destination;
  up_not_router : ~ router_traffic hd
}.

Lemma packet_fields msg hd pl : 0 <= length msg -> content msg = hd ++ pl -> List.length hd = 40%nat ->
  length msg = 40 + Z.of_nat (List.length pl) /\
  read msg.(buffer) (msg.(bytes) + IP6Header_sourceAddr) 16 = source_of hd /\
  read msg.(buffer) (msg.(bytes) + IP6Header_destinationAddr) 16 = destination_of hd /\
  (forall o, 0 <= o < 40 -> msg.(buffer) (msg.(bytes) + o) = nth (Z.to_nat o) hd 0).
Proof.
  intros Hl Hc Hlh. pose proof (content_length msg Hl) as Hcl. rewrite Hc, length_app, Hlh in Hcl. split; [lia|].
  unfold IP6Header_sourceAddr, IP6Header_destinationAddr. rewrite !content_slice, Hc by lia.
  split; [|split].
  - rewrite drop_app_le, take_app_le by (rewrite ?length_drop; lia). done.
  - rewrite drop_app_le, take_app_le by (rewrite ?length_drop; lia). done.
  - intros o Ho. rewrite content_nth, Hc, app_nth1 by lia. done.
Qed.

Lemma valid_packet msg hd pl : 0 <= length msg -> content msg = hd ++ pl -> List.length hd = 40%nat ->
  AddressCalc_validAddress (source_of hd) = true -> AddressCalc_validAddress (destination_of hd) = true ->
  validEncryptedIP6 msg = true.
Proof.
  intros Hl Hc Hlh Hs Hd. destruct (packet_fields msg hd pl Hl Hc Hlh) as (E1 & E2 & E3 & _).
  unfold validEncryptedIP6. rewrite E2, E3, Hs, Hd, (proj2 (Z.leb_le _ _)) by (unfold Headers_IP6Header_SIZE; lia). done.
Qed.

(** What an arrived packet of a connected node is. *)
Lemma connected_arrival fuel A B gA gB hA hB sA sB v hdr plain p q :
  connected A B gA gB hA hB sA sB -> List.length hdr = 12%nat ->
  content p = running_packet hdr sA.(sendHandle_be) sA.(iface) plain -> carried p q -> v = sA.(iface).(nextNonce) ->
  exists dm d1 i,
    incomingFromSwitch (handle_event (Datatypes.S fuel)) q B =
      (incomingFromRouter (handle_event fuel) dm ≫= fun _ =>
        c ← the id; _ ← assign (set_currentSession c.(currentSessionSendHandle_be) 0); mret 0) d1 /\
    message_ok dm /\ length dm = length q - 36 /\ padding dm = padding q + 36 /\ bytes dm = bytes q + 36 /\ content dm = plain /\
    label_of dm.(buffer) q.(bytes) = Bits_bitReverse64 (label_of q.(buffer) q.(bytes)) /\
    read dm.(buffer) (q.(bytes) + 8) 4 = read q.(buffer) (q.(bytes) + 8) 4 /\
    holds d1 (<[A.(myAddr).(ip6) := (hB, after_receive v sB)]> gB) A.(myAddr).(ip6) hB (after_receive v sB) i /\
    same_node B d1 /\ d1.(router) = B.(router) /\ d1.(output) = B.(output) /\
    d1.(current).(switchHeader) = InPacket q.(bytes) /\ d1.(current).(session) = Managed i /\
    d1.(current).(forwardTo) = B.(current).(forwardTo) /\
    d1.(current).(currentSessionVersion) = B.(current).(currentSessionVersion) /\
    d1.(sm).(ifaceMap).(nextHandle) = B.(sm).(ifaceMap).(nextHandle).
Proof.
  intros [C1 C2 C3 C4 [L1 L2 L3 L4 L5] [R1 R2 R3] C7 [C8 C9] C10 C11] Hl Hc (Hok & Htype & header & Hlh & Hcq) ->.
  apply (incomingFromSwitch_running fuel B gB (ip6 (myAddr A)) hB sB q header (nextNonce (iface sA)) plain); try done.
  - congruence.
  - lia.
  - lia.
  - rewrite Hcq, Hc. unfold running_packet. rewrite drop_app_length' by done. rewrite C9, <-L1, L2. done.
Qed.

(** Without its handle a packet is as any other. *)
Lemma incomingForMe_handle handle (d d' : state) msg msg' key : takeHandle msg true d = Some (msg', d') ->
  incomingForMe handle msg key true d = incomingForMe handle msg' key false d'.
Proof. intros E. unfold incomingForMe at 1. rewrite (run_ok _ _ _ _ _ E). done. Qed.

(** The node when it is done with a packet from the switch. *)
Definition finished (d : state) : state := with_current (set_currentSession d.(current).(currentSessionSendHandle_be) 0) d.

(** A packet from a connected node comes to [core]. *)
Lemma comes_to_core fuel A C gA gC hA hC sA sC hdr hd payload p q :
  connected A C gA gC hA hC sA sC -> List.length hdr = 12%nat ->
  content p = running_packet hdr sA.(sendHandle_be) sA.(iface) (hd ++ payload) -> carried p q ->
  C.(current).(currentSessionVersion) = 0 -> List.length hd = 40%nat ->
  AddressCalc_validAddress (source_of hd) = true -> AddressCalc_validAddress (destination_of hd) = true ->
  exists dm d i, message_ok dm /\ 36 <= padding dm /\ content dm = hd ++ payload /\ bytes dm = bytes q + 36 /\
    (forall code d', core (handle_event fuel) dm d = Some (code, d') ->
      incomingFromSwitch (handle_event (Datatypes.S fuel)) q C = Some (0, finished d')) /\
    read dm.(buffer) (q.(bytes) + 8) 4 = take 4 (drop 8 (content q)) /\
    label_of dm.(buffer) q.(bytes) = Bits_bitReverse64 (label_of q.(buffer) q.(bytes)) /\
    holds d (<[A.(myAddr).(ip6) := (hC, after_receive sA.(iface).(nextNonce) sC)]> gC) A.(myAddr).(ip6) hC
      (after_receive sA.(iface).(nextNonce) sC) i /\
    same_node C d /\ d.(router) = C.(router) /\ d.(output) = C.(output) /\
    d.(current).(switchHeader) = InPacket q.(bytes) /\ d.(current).(session) = Managed i /\
    d.(current).(forwardTo) = C.(current).(forwardTo) /\
    d.(sm).(ifaceMap).(nextHandle) = C.(sm).(ifaceMap).(nextHandle).
Proof.
  intros Hcon Hlh Cp Hq Hcur Hhd Hvs Hvd.
  destruct (connected_arrival fuel A C gA gC hA hC sA sC _ hdr _ p q Hcon Hlh Cp Hq eq_refl)
    as (dm & d & i & Eq & Okd & Ld & Pd & Bd & Cd & Lab & Low & Hold & Sn & Sr & So & Sh & Ses & Sf & Sv & Snh).
  destruct Hq as (Okq & _). pose proof Okq as (Q1 & Q2 & Q3 & Q4). exists dm, d, i.
  destruct (packet_fields dm hd payload ltac:(destruct Okd; lia) Cd Hhd) as (El & _).
  split; [exact Okd|]. split; [lia|]. split; [exact Cd|]. split; [exact Bd|]. split.
  { intros code d' E. rewrite Eq, run_bind. unfold incomingFromRouter. run. rewrite Sv, Hcur.
    rewrite (valid_packet dm hd payload) by (done || lia). cbn [Z.ltb Z.compare negb]. run. rewrite E. done. }
  split; [rewrite Low; apply (content_slice q 8 4); lia|]. done.
Qed.

(** A packet from the user's device, when the table has a node for it. *)
Lemma incomingFromTun_known handle (A : state) (destination : list Z) w n msg m0 hd payload :
  Ip6_valid A.(myAddr).(ip6) -> Ip6_valid destination -> user_packet hd payload A.(myAddr).(ip6) destination ->
  TUNMessageType_pop msg = Some (Ethernet_TYPE_IP6, m0) -> message_ok m0 -> content m0 = hd ++ payload ->
  lookup destination A.(router) = Some (Some n, w) -> Ip6_valid (node_of w n).(address).(ip6) ->
  let d := with_current (set_forwardTo (Some n)) (with_router w (with_current (set_switchHeader NULL) A)) in
  incomingFromTun handle msg A =
    if bool_decide (destination = (node_of w n).(address).(ip6)) then sendToRouter handle (InStore n) m0 d
    else sendInner handle m0 destination d.
Proof.
  intros HkA HkB [U1 U2 U3 U4 U5 [U6 U7] U8 U9] Hpop Hm0 Hc0 Hlook Hkn d.
  destruct (packet_fields m0 hd payload ltac:(destruct Hm0; lia) Hc0 U1) as (_ & F1 & F2 & F3).
  assert (Headers_getIpVersion (buffer m0) (bytes m0) = 6) as Hv6.
  { unfold Headers_getIpVersion. rewrite <-(Z.add_0_r (bytes m0)), F3 by lia. change (Z.to_nat 0) with 0%nat. rewrite Z.shiftr_land, U3. reflexivity. }
  destruct ethernet_types as (Ht46 & _). unfold incomingFromTun. rewrite Hpop. run. rewrite Hv6, F1, F2, U4, U5, U6.
  rewrite (proj2 (Z.eqb_neq Ethernet_TYPE_IP6 Ethernet_TYPE_IP4)) by congruence. rewrite !Z.eqb_refl. cbn [andb orb negb].
  rewrite !memcmp_same by (rewrite ?HkA, ?HkB; done). rewrite (bool_decide_eq_true_2 (_ = _)) by done. cbn [negb].
  rewrite bool_decide_eq_false_2 by congruence. run.
  rewrite (run_ok _ _ _ (Some n) (with_router w (with_current (set_switchHeader NULL) A))) by (unfold router_call; cbn; rewrite Hlook; done).
  run. cbn [router with_current with_router]. rewrite memcmp_same by (rewrite HkB, Hkn; done). fold d.
  case_bool_decide; done.
Qed.

(** C2: a packet that the user of a node gives to its device for a node that is
    in the routing table, and with which it has a running session, leaves by the
    switch in one packet with the label from the table; whatever way it is
    carried, the other node gives its user the same packet (a hop limit of 255 is
    lowered to 254). Nothing else leaves either node. *)
Theorem Ducttape_delivers_packet fuel A B gA gB hA hB sA sB w n msg m0 hd payload :
  connected A B gA gB hA hB sA sB ->
  Ip6_valid A.(myAddr).(ip6) -> Ip6_valid B.(myAddr).(ip6) ->
  B.(userIf) = true -> B.(current).(currentSessionVersion) = 0 ->
  user_packet hd payload A.(myAddr).(ip6) B.(myAddr).(ip6) ->
  TUNMessageType_pop msg = Some (Ethernet_TYPE_IP6, m0) -> message_ok m0 -> 36 <= padding m0 -> content m0 = hd ++ payload ->
  lookup B.(myAddr).(ip6) A.(router) = Some (Some n, w) ->
  let node := node_of w n in
  node.(address).(ip6) = B.(myAddr).(ip6) -> 0 <= node.(address).(path) < 2 ^ 64 ->
  0 < newer sA.(session_version) node.(node_version) ->
  exists p A', incomingFromTun (handle_event (Datatypes.S fuel)) msg A = Some (switch_code p, A') /\
    A'.(output) = A.(output) ++ [SwitchOut p] /\ message_ok p /\
    take 12 (content p) = be_split 8 node.(address).(path) ++ [0; 0; 0; 0] /\
    forall q, carried p q ->
    exists t B', incomingFromSwitch (handle_event (Datatypes.S fuel)) q B = Some (0, B') /\
      B'.(output) = B.(output) ++ [TunOut t] /\
      exists t', TUNMessageType_pop t = Some (Ethernet_TYPE_IP6, t') /\ content t' = limited hd ++ payload.
Proof.
  intros Hcon HkA HkB Hu Hcur Hup Hpop Hm0 Hpad Hc0 Hlook node Hnode Hpath Hver.
  rewrite (incomingFromTun_known _ A _ w n msg m0 hd payload HkA HkB Hup Hpop Hm0 Hc0 Hlook) by (fold node; congruence).
  fold node. rewrite bool_decide_eq_true_2 by done. destruct Hup as [U1 U2 U3 U4 U5 [U6 U7] U8 U9].
  set (A1 := with_current (set_forwardTo (Some n)) _).
  pose proof (sendToRouter_running fuel A1 gA (InStore n) m0 hA sA) as Hs. cbv zeta in Hs.
  change (node_value A1 (InStore n)) with node in Hs. rewrite Hnode in Hs. pose proof Hcon as [C1 C2 C3 C4 C5 C6 C7 C8 C9 C10].
  destruct Hs as (p & A' & E & Cp & Okp & Out & _); try done. 
  exists p, A'. split; [exact E|]. split; [exact Out|]. split; [exact Okp|].
  assert (forall l, content p = running_packet (be_split 8 (path (address node)) ++ l) (sendHandle_be sA) (iface sA) (content m0) -> List.length l = 4%nat ->
    take 12 (content p) = be_split 8 (path (address node)) ++ l) as Ht12.
  { intros l -> Hl. unfold running_packet. rewrite take_app_length'; [done|]. rewrite length_app, length_be_split. lia. }
  split. { rewrite (Ht12 _ Cp); [done|]. done. }
  intros q Hq.
  rewrite Hc0 in Cp.
  edestruct (comes_to_core fuel A B gA gB hA hB sA sB)
    as (dm & d & i & Okd & Pd & Cd & Bd & Hrun_core & Low & Lab & Hold & (S1 & S2 & S3 & S4) & Sr & So & Sh & Ses & Sf & _);
    [exact Hcon| |exact Cp|exact Hq|exact Hcur|exact U1|congruence..|]; [reflexivity|].
  destruct (core_direct (handle_event fuel) d dm hd payload i (after_receive (nextNonce (iface sA)) sB))
    as (t & d2 & Ecore & Ed2 & t' & Et & Ct); try done.
  - exact (row_value _ _ _ _ _ (proj2 (proj2 Hold))).
  - congruence.
  - lia.
  - rewrite U4. symmetry. apply (holds_ids _ _ _ _ _ _ Hold).
  - rewrite S3. exact HkB.
  - congruence.
  - exists t, (finished d2). split; [exact (Hrun_core _ _ Ecore)|]. split; [rewrite Ed2; cbn; congruence|].
    exists t'. done.
Qed.

(** ** Passing packets on *)
Definition lower_hop (hd : list Z) : list Z := <[7%nat := nth 7 hd 0 - 1]> hd.

Lemma lower_hop_length hd : List.length (lower_hop hd) = List.length hd.
Proof. apply length_insert. Qed.

(** The node that a packet for [destination] goes to next. *)
Definition next_hop (d : state) (destination : list Z) (n : option Z) (w : W) : Prop :=
  match d.(current).(forwardTo) with
  | Some f => n = Some f /\ w = d.(router)
  | None => lookup destination d.(router) = Some (n, w)
  end.

Lemma core_drops handle (d : state) msg hd pl w :
  message_ok msg -> content msg = hd ++ pl -> List.length hd = 40%nat -> List.length d.(myAddr).(ip6) = 16%nat ->
  destination_of hd <> d.(myAddr).(ip6) -> nth 7 hd 0 = 0 \/ next_hop d (destination_of hd) None w ->
  exists d', core handle msg d = Some (Error_UNDELIVERABLE, d') /\ d'.(output) = d.(output).
Proof.
  intros (Hl & _) Hc Hlh Hmy Hdst Hdrop. destruct (packet_fields msg hd pl ltac:(lia) Hc Hlh) as (E1 & _ & E3 & E4).
  unfold core. run. set (d1 := with_current _ d). unfold isForMe. rewrite E3, memcmp_same, bool_decide_eq_false_2;
    [|done|rewrite <-E3, length_read; symmetry; exact Hmy].
  unfold IP6Header_hopLimit. rewrite E4 by lia. change (Z.to_nat 7) with 7%nat. destruct (Z.eqb_spec (nth 7 hd 0) 0); [by eexists|].
  destruct Hdrop as [?|Hn]; [done|]. unfold next_hop in Hn. run. change (forwardTo (current d1)) with (forwardTo (current d)).
  destruct (forwardTo (current d)); [by destruct Hn|]. set (d2 := with_current (set_forwardTo None) d1).
  assert (read (set (buffer msg) (bytes msg + 7) (nth 7 hd 0 - 1)) (bytes msg + IP6Header_destinationAddr) 16 = destination_of hd) as ->.
  { rewrite <-E3. apply read_ext. intros j Hj. apply set_ne. unfold IP6Header_destinationAddr. lia. }
  rewrite (run_ok _ _ _ None (with_router w d2)) by (unfold router_call; cbn; rewrite Hn; done). by eexists.
Qed.

(** With a running session to the next hop the packet leaves with its hop limit
    lowered. *)
Lemma core_forwards fuel (d : state) msg hd pl n w g h s :
  message_ok msg -> 36 <= padding msg -> content msg = hd ++ pl -> List.length hd = 40%nat -> List.length d.(myAddr).(ip6) = 16%nat ->
  destination_of hd <> d.(myAddr).(ip6) -> nth 7 hd 0 <> 0 -> next_hop d (destination_of hd) (Some n) w ->
  (forall l, d.(current).(switchHeader) = Local l -> bytes_ok l) ->
  let node := node_of w n in
  sm_ok d.(sm) g -> Ip6_valid node.(address).(ip6) -> g !! node.(address).(ip6) = Some (h, s) ->
  Bits_isZero (of_list s.(iface).(herPerminentPubKey)) 0 32 = false ->
  running d.(cryptoAuth) s.(iface) -> s.(iface).(nextNonce) < UINT32_MAX ->
  0 < newer s.(session_version) node.(node_version) -> 0 <= node.(address).(path) < 2 ^ 64 ->
  exists p d', core (handle_event (Datatypes.S fuel)) msg d = Some (switch_code p, d') /\ message_ok p /\
    (exists m, (forall x, x <> bytes msg + 7 -> m x = msg.(buffer) x) /\
      content p = running_packet (be_split 8 node.(address).(path) ++ drop 8 (header_bytes d m)) s.(sendHandle_be) s.(iface) (lower_hop hd ++ pl)) /\
    d'.(output) = d.(output) ++ [SwitchOut p].
Proof.
  intros Hok Hpad Hc Hlh Hmy Hdst Hhop Hnext Hloc node Hsm Hk Hg Hkey Hrun Hmax Hver Hpath. pose proof Hok as (Hl & Hp & Ht & Hm).
  destruct (packet_fields msg hd pl ltac:(lia) Hc Hlh) as (E1 & _ & E3 & E4).
  unfold core. run. set (d1 := with_current _ d). unfold isForMe. rewrite E3, memcmp_same, bool_decide_eq_false_2;
    [|done|rewrite <-E3, length_read; symmetry; exact Hmy].
  unfold IP6Header_hopLimit. rewrite E4 by lia. change (Z.to_nat 7) with 7%nat. rewrite (proj2 (Z.eqb_neq _ _) Hhop).
  set (m := set _ _ _). run. change (forwardTo (current d1)) with (forwardTo (current d)). set (d2 := with_current (set_forwardTo None) d1).
  assert (read m (bytes msg + IP6Header_destinationAddr) 16 = destination_of hd) as ->.
  { rewrite <-E3. apply read_ext. intros j Hj. apply set_ne. unfold IP6Header_destinationAddr. lia. }
  assert ((match forwardTo (current d) with Some n => mret (Some n) | None => router_call (lookup (destination_of hd)) end) d2
    = Some (Some n, with_router w d2)) as Hr.
  { unfold next_hop in Hnext. destruct (forwardTo (current d)); [destruct Hnext as [[= <-] ->]; by destruct d|].
    unfold router_call. cbn. rewrite Hnext. done. }
  rewrite (run_ok _ _ _ _ _ Hr). set (d3 := with_router w d2).
  pose proof (content_nth msg 7 ltac:(lia)) as H7. rewrite Hc, app_nth1 in H7 by (rewrite Hlh; lia). change (Z.to_nat 7) with 7%nat in H7.
  assert (is_byte (nth 7 hd 0)) as Hbyte by (rewrite <-H7; apply Hm).
  assert (content (with_buffer msg m) = lower_hop hd ++ pl) as Hc'.
  { unfold content. cbn [with_buffer buffer bytes length]. unfold m. rewrite read_set_nth by lia. fold (content msg). rewrite Hc.
    unfold lower_hop. rewrite insert_app_l by (rewrite Hlh; lia). done. }
  assert (message_ok (with_buffer msg m)) as Hok'.
  { unfold message_ok. cbn. split_and!; try lia. apply set_ok; [done|]. unfold is_byte in *. lia. }
  destruct (sendToRouter_running fuel d3 g (InStore n) (with_buffer msg m) h s) as (p & d' & E & Cp & Okp & Out & _); try done.
  exists p, d'. split; [exact E|]. split; [exact Okp|]. split; [|exact Out]. exists m. split; [intros x Hx; by apply set_ne|].
  rewrite Cp, Hc'. done.
Qed.

Lemma passes_on fuel A C gA gC hA hC sA sC hdr hd payload p q w n h s :
  connected A C gA gC hA hC sA sC -> List.length hdr = 12%nat ->
  content p = running_packet hdr sA.(sendHandle_be) sA.(iface) (hd ++ payload) -> carried p q ->
  C.(current).(currentSessionVersion) = 0 -> List.length C.(myAddr).(ip6) = 16%nat -> List.length hd = 40%nat ->
  AddressCalc_validAddress (source_of hd) = true -> AddressCalc_validAddress (destination_of hd) = true ->
  destination_of hd <> C.(myAddr).(ip6) ->
  let node := node_of w n in
  nth 7 hd 0 <> 0 -> next_hop C (destination_of hd) (Some n) w ->
  gC !! node.(address).(ip6) = Some (h, s) -> Ip6_valid node.(address).(ip6) -> node.(address).(ip6) <> A.(myAddr).(ip6) ->
  Bits_isZero (of_list s.(iface).(herPerminentPubKey)) 0 32 = false ->
  running C.(cryptoAuth) s.(iface) -> s.(iface).(nextNonce) < UINT32_MAX ->
  0 < newer s.(session_version) node.(node_version) -> 0 <= node.(address).(path) < 2 ^ 64 ->
  exists p' C', incomingFromSwitch (handle_event (Datatypes.S (Datatypes.S fuel))) q C = Some (0, C') /\
    C'.(output) = C.(output) ++ [SwitchOut p'] /\ message_ok p' /\
    content p' = running_packet (be_split 8 node.(address).(path) ++ take 4 (drop 8 (content q))) s.(sendHandle_be) s.(iface)
                   (lower_hop hd ++ payload).
Proof.
  intros Hcon Hlh Cp Hq Hcur Hmy Hhd Hvs Hvd Hdst node Hhop Hn Hg Hk Hne Hkey Hrun Hmax Hver Hpath.
  destruct (comes_to_core (Datatypes.S fuel) A C gA gC hA hC sA sC hdr hd payload p q Hcon Hlh Cp Hq Hcur Hhd Hvs Hvd)
    as (dm & d & i & Okd & Pd & Cd & Bd & Hrun_core & Low & Lab & Hold & (S1 & S2 & S3 & S4) & Sr & So & Sh & Ses & Sf & _).
  rewrite <-S3 in Hmy, Hdst. rewrite <-S2 in Hrun.
  destruct (core_forwards fuel d dm hd payload n w (<[A.(myAddr).(ip6) := (hC, after_receive (nextNonce (iface sA)) sC)]> gC) h s)
    as (p' & d2 & E & Okp & (m & Hm & Cp') & Out); try done.
  - unfold next_hop in *. rewrite Sf, Sr. exact Hn.
  - intros l. rewrite Sh. done.
  - apply Hold.
  - rewrite lookup_insert_ne by exact (not_eq_sym Hne). exact Hg.
  - exists p', (finished d2). split; [exact (Hrun_core _ _ E)|]. split; [change (output (finished d2)) with (output d2); rewrite Out, So; done|].
    split; [exact Okp|]. rewrite Cp'. f_equal. f_equal. rewrite <-Low. unfold header_bytes. rewrite Sh.
    rewrite (read_split _ _ 12 8), drop_app_length' by (lia || (rewrite length_read; done)).
    apply read_ext. intros j Hj. apply Hm. lia.
Qed.

(** C8: a node passes a packet on that it has from a node with which it is
    connected and that is for a third: to the node of its table, in one packet
    behind that node's label and the priority of the one that came, with the hop
    limit lowered and otherwise unchanged. When the hop limit is used up or the
    table has no node, nothing leaves it. *)
Theorem Ducttape_passes_on fuel A C gA gC hA hC sA sC hdr hd payload p q w :
  connected A C gA gC hA hC sA sC -> List.length hdr = 12%nat ->
  content p = running_packet hdr sA.(sendHandle_be) sA.(iface) (hd ++ payload) -> carried p q ->
  C.(current).(currentSessionVersion) = 0 -> List.length C.(myAddr).(ip6) = 16%nat -> List.length hd = 40%nat ->
  AddressCalc_validAddress (source_of hd) = true -> AddressCalc_validAddress (destination_of hd) = true ->
  destination_of hd <> C.(myAddr).(ip6) ->
  (nth 7 hd 0 = 0 \/ next_hop C (destination_of hd) None w ->
    exists C', incomingFromSwitch (handle_event (Datatypes.S (Datatypes.S fuel))) q C = Some (0, C') /\ C'.(output) = C.(output)) /\
  (forall n h s, let node := node_of w n in
    nth 7 hd 0 <> 0 -> next_hop C (destination_of hd) (Some n) w ->
    gC !! node.(address).(ip6) = Some (h, s) -> Ip6_valid node.(address).(ip6) -> node.(address).(ip6) <> A.(myAddr).(ip6) ->
    Bits_isZero (of_list s.(iface).(herPerminentPubKey)) 0 32 = false ->
    running C.(cryptoAuth) s.(iface) -> s.(iface).(nextNonce) < UINT32_MAX ->
    0 < newer s.(session_version) node.(node_version) -> 0 <= node.(address).(path) < 2 ^ 64 ->
    exists p' C', incomingFromSwitch (handle_event (Datatypes.S (Datatypes.S fuel))) q C = Some (0, C') /\
      C'.(output) = C.(output) ++ [SwitchOut p'] /\ message_ok p' /\
      content p' = running_packet (be_split 8 node.(address).(path) ++ take 4 (drop 8 (content q))) s.(sendHandle_be) s.(iface)
                     (lower_hop hd ++ payload)).
Proof.
  intros Hcon Hlh Cp Hq Hcur Hmy Hhd Hvs Hvd Hdst. split.
  - intros Hdrop.
    destruct (comes_to_core (Datatypes.S fuel) A C gA gC hA hC sA sC hdr hd payload p q Hcon Hlh Cp Hq Hcur Hhd Hvs Hvd)
      as (dm & d & i & Okd & Pd & Cd & Bd & Hrun_core & _ & _ & _ & (_ & _ & S3 & _) & Sr & So & _ & _ & Sf & _).
    rewrite <-S3 in Hmy, Hdst.
    destruct (core_drops (handle_event (Datatypes.S fuel)) d dm hd payload w Okd Cd Hhd Hmy Hdst) as (d2 & E & Eo).
    { unfold next_hop in *. rewrite Sf, Sr. exact Hdrop. }
    exists (finished d2). split; [exact (Hrun_core _ _ E)|]. change (output (finished d2)) with (output d2). congruence.
  - intros n h s. by apply (passes_on fuel A C gA gC hA hC sA sC hdr hd payload p q w n h s).
Qed.
End paths.
