(* ===== verification/DucttapeThrough.v ===== *)
(** * Packets over a third node (net/Ducttape.c)

    A node that has no way to a destination gives the packet to a node that is
    nearer to it. The content is encrypted for the destination, and the whole for
    the next node, who passes it on. Here the three are put together. *)
From stdpp Require Import gmap.
From S2P Require Import Prelude Memory Endian Bits Checksum Headers Message NaCl ReplayProtector CryptoAuth Benc Address NodeCollector Map SessionManager DHT Ducttape TUNMessageType IpTunnel DucttapeData DucttapeDelivery.
Open Scope Z_scope.

Section through.
  Context {P : Platform} {N : NaCl} {L : NaClLaws N} {T : TunType P} {TL : TunTypeLaws P T} {R : RandomSource}
    {W : Type} {Rt : Router W} {Su : Surroundings}.
  #[local] Existing Instance bytes_key.

#[local] Abbreviation sessions := (gmap Ip6 (Z * SessionManager_Session)).
#[local] Abbreviation state := (Ducttape (W := W)).

(** The content as the inner session sends it. *)
Definition inner_packet (w : Wrapper) (payload : list Z) : list Z :=
  be_split 4 w.(nextNonce) ++ seal (nonceAs w.(isInitiator) w.(nextNonce)) w.(secret) payload.

Lemma inner_length w payload : List.length (inner_packet w payload) = (20 + List.length payload)%nat.
Proof. unfold inner_packet. rewrite length_app, length_be_split, seal_length. lia. Qed.

(** Where the header goes: in front of the 20 bytes that the session will put in
    front of the content. *)
Lemma makeRoom_running msg hd pl h_be : message_ok msg -> 20 <= padding msg -> content msg = hd ++ pl -> List.length hd = 40%nat ->
  exists m, makeRoom msg msg.(bytes) CryptoAuth_ESTABLISHED h_be = Some m /\ message_ok m /\ content m = pl /\
    length m = length msg - 40 /\ padding m = padding msg + 40 /\ bytes m = bytes msg + 40 /\ read m.(buffer) (bytes m - 60) 40 = hd.
Proof.
  intros (Hl & Hp & Ht & Hm) Hpad Hc Hlh. destruct (packet_fields msg hd pl ltac:(lia) Hc Hlh) as (El & _).
  unfold makeRoom. change (CryptoAuth_ESTABLISHED <? CryptoAuth_HANDSHAKE3) with false. cbv iota. unfold Headers_IP6Header_SIZE.
  rewrite shift_up by lia. cbn [mbind option_bind buffer bytes]. change (- (20 + 40)) with (- (60)).
  rewrite (shift_down _ 60) by (cbn; lia). cbn [with_buffer length padding bytes buffer]. eexists. split; [reflexivity|].
  cbn [length padding bytes buffer].
  assert (read (buffer msg) (bytes msg) 40 = hd) as Eh.
  { pose proof (content_slice msg 0 40 ltac:(lia) ltac:(lia) ltac:(lia)) as H. rewrite Z.add_0_r, drop_0, Hc in H.
    rewrite take_app_length' in H by (rewrite Hlh; done). exact H. }
  split. { unfold message_ok. cbn. split_and!; try lia. apply write_ok; [done|apply read_ok, Hm]. }
  split; [|split; [lia|split; [lia|split; [lia|]]]].
  - unfold content. cbn [bytes buffer length]. rewrite read_write_disj by (rewrite length_read; lia).
    unfold content in Hc. rewrite (read_split _ _ _ 40), Eh in Hc by lia. apply app_inv_head in Hc. rewrite <-Hc. f_equal; lia.
  - rewrite Eh. replace (bytes msg - 20 + 60 - 60) with (bytes msg - 20) by lia. apply read_write_same. lia.
Qed.

(** A packet of the inner session on its way out. *)
Lemma outgoingFromMe_running fuel (d : state) p hd inner n w g h s :
  message_ok p -> 76 <= padding p -> content p = inner -> 40 + length p < 2 ^ 16 ->
  read p.(buffer) (bytes p - 40) 40 = hd ->
  List.length d.(myAddr).(ip6) = 16%nat -> source_of hd = d.(myAddr).(ip6) -> destination_of hd <> d.(myAddr).(ip6) ->
  nth 7 hd 0 <> 0 -> next_hop d (destination_of hd) (Some n) w -> d.(current).(switchHeader) = NULL ->
  let node := node_of w n in
  sm_ok d.(sm) g -> Ip6_valid node.(address).(ip6) -> g !! node.(address).(ip6) = Some (h, s) ->
  Bits_isZero (of_list s.(iface).(herPerminentPubKey)) 0 32 = false ->
  running d.(cryptoAuth) s.(iface) -> s.(iface).(nextNonce) < UINT32_MAX ->
  0 < newer s.(session_version) node.(node_version) -> 0 <= node.(address).(path) < 2 ^ 64 ->
  exists p' d', outgoingFromMe (handle_event (Datatypes.S fuel)) p d = Some (switch_code p', d') /\ message_ok p' /\
    content p' = running_packet (be_split 8 node.(address).(path) ++ [0; 0; 0; 0]) s.(sendHandle_be) s.(iface)
                   (lower_hop (set_payload (length p) hd) ++ inner) /\
    d'.(output) = d.(output) ++ [SwitchOut p'].
Proof.
  intros (Hl & Hp & Ht & Hm) Hpad Hc Hmax16 Ehd Hmy Hsrc Hdst Hhop Hnext Hsh node Hsm Hk Hg Hkey Hrun Hmax Hver Hpath.
  unfold outgoingFromMe. run. unfold Headers_IP6Header_SIZE. rewrite shift_up by lia. run.
  set (M := {| length := length p + 40; padding := _; bytes := _; buffer := _ |}). cbn [M bytes buffer length].
  assert (List.length hd = 40%nat) as Hlh by (rewrite <-Ehd, length_read; done).
  assert (content M = hd ++ inner) as HcM.
  { unfold content. cbn [M bytes buffer length]. rewrite (read_split _ _ _ 40), Ehd by lia. f_equal.
    replace (bytes p - 40 + 40) with (bytes p) by lia. replace (length p + 40 - 40) with (length p) by lia. exact Hc. }
  destruct (packet_fields M hd inner ltac:(cbn; lia) HcM Hlh) as (_ & F1 & F2 & _). cbn [M bytes buffer] in F1, F2.
  unfold isForMe. cbn [M bytes buffer]. rewrite F1, F2, Hsrc, !memcmp_same by (rewrite <-?F2, ?length_read, ?Hmy; done).
  rewrite bool_decide_eq_false_2, bool_decide_eq_true_2 by done. run.
  replace (length p + 40 - 40) with (length p) by lia. rewrite u16_small by lia. unfold IP6Header_payloadLength_be. set (m := write _ _ _).
  assert (content (with_buffer M m) = set_payload (length p) hd ++ inner) as Hcm.
  { unfold content. cbn [M with_buffer bytes buffer length]. rewrite (read_split _ _ _ 40) by lia. unfold m. rewrite read_payload, Ehd by lia.
    f_equal. rewrite read_write_disj by (rewrite length_store; lia). replace (bytes p - 40 + 40) with (bytes p) by lia.
    replace (length p + 40 - 40) with (length p) by lia. exact Hc. }
  assert (List.length (set_payload (length p) hd) = 40%nat) as Hls
    by (unfold set_payload; rewrite !length_app, length_take, length_drop, length_be_split; lia).
  assert (destination_of (set_payload (length p) hd) = destination_of hd /\ nth 7 (set_payload (length p) hd) 0 = nth 7 hd 0) as [Ed E7].
  { do 8 (destruct hd as [|? hd]; [done|]). done. }
  assert (message_ok (with_buffer M m)) as HokM.
  { unfold message_ok. cbn. split_and!; try lia. apply write_ok; [done|apply store_ok]. }
  destruct (core_forwards fuel d (with_buffer M m) _ inner n w g h s HokM ltac:(cbn; lia) Hcm Hls Hmy)
    as (p' & d' & E & Okp & (mm & _ & Cp) & Out); rewrite ?Ed, ?E7; try done.
  { intros l. rewrite Hsh. done. }
  exists p', d'. split; [exact E|]. split; [exact Okp|]. split; [|exact Out]. rewrite Cp. unfold header_bytes. rewrite Hsh. reflexivity.
Qed.

(** The first of the three: the packet leaves, encrypted twice. *)
Lemma sendInner_running fuel (A : state) m0 hd payload (destination : list Z) n w g hI sI hO sO :
  user_packet hd payload A.(myAddr).(ip6) destination -> List.length A.(myAddr).(ip6) = 16%nat -> Ip6_valid destination ->
  message_ok m0 -> 56 <= padding m0 -> content m0 = hd ++ payload -> Z.of_nat (List.length payload) < 60000 ->
  nth 7 hd 0 <> 0 -> A.(current).(forwardTo) = Some n -> A.(current).(switchHeader) = NULL -> w = A.(router) ->
  sm_ok A.(sm) g -> g !! destination = Some (hI, sI) -> running A.(cryptoAuth) sI.(iface) -> sI.(iface).(nextNonce) < UINT32_MAX ->
  let node := node_of w n in
  Ip6_valid node.(address).(ip6) -> node.(address).(ip6) <> destination -> g !! node.(address).(ip6) = Some (hO, sO) ->
  Bits_isZero (of_list sO.(iface).(herPerminentPubKey)) 0 32 = false ->
  running A.(cryptoAuth) sO.(iface) -> sO.(iface).(nextNonce) < UINT32_MAX ->
  0 < newer sO.(session_version) node.(node_version) -> 0 <= node.(address).(path) < 2 ^ 64 ->
  exists p A', sendInner (handle_event (Datatypes.S (Datatypes.S fuel))) m0 destination A = Some (switch_code p, A') /\ message_ok p /\
    content p = running_packet (be_split 8 node.(address).(path) ++ [0; 0; 0; 0]) sO.(sendHandle_be) sO.(iface)
                  (lower_hop (set_payload (20 + Z.of_nat (List.length payload)) hd) ++ inner_packet sI.(iface) payload) /\
    A'.(output) = A.(output) ++ [SwitchOut p].
Proof.
  intros [U1 U2 U3 U4 U5 [U6 U7] U8 U9] Hmy Hkd Hm0 Hpad Hc0 Hlen Hhop Hfwd Hsh Hw Hsm HgI HrunI HmaxI node Hkn Hne HgO HkeyO HrunO HmaxO Hver Hpath.
  pose proof Hm0 as (Hl & Hp & Ht & Hm). destruct (packet_fields m0 hd payload ltac:(lia) Hc0 U1) as (El & _).
  unfold sendInner. destruct (run_getSession A g destination None hI sI Hsm Hkd HgI) as (i & Hrow & Eg). run_by Eg. run. clear Eg.
  change (touched None seconds sI) with (set_lastMessageTime sI (u32 seconds)). set (s1 := set_lastMessageTime sI (u32 seconds)).
  pose proof (holds_put A g destination hI sI i s1 A.(rng) (conj Hsm (conj HgI Hrow)) eq_refl eq_refl) as H1. set (d1 := with_sessions _ _ A) in *.
  rewrite (row_value _ _ _ _ _ (proj2 (proj2 H1))). change (cryptoAuth d1) with (cryptoAuth A). rewrite (running_state _ s1.(iface) HrunI). run.
  assert (set_iface s1 (iface s1) = s1) as -> by done.
  pose proof (holds_put d1 _ destination hI s1 i s1 d1.(rng) H1 eq_refl eq_refl) as H2. fold (put_session_at i s1 d1) in H2.
  rewrite insert_insert_eq in H2.
  destruct (makeRoom_running m0 hd payload (receiveHandle_be s1) Hm0 ltac:(lia) Hc0 U1) as (m & -> & M1 & M2 & M3 & M4 & M5 & M6). run.
  set (d3 := with_current (set_layer INNER) _).
  destruct (call_send (handle_event (Datatypes.S (Datatypes.S fuel))) d3 _ destination hI s1 i m H2 HrunI HmaxI M1 ltac:(lia))
    as (p & -> & P1 & P2 & P3 & P4 & P5 & P6 & H4). rewrite insert_insert_eq in H4. set (s4 := set_iface s1 _) in *. set (d4 := with_sessions _ _ d3) in *.
  remember (Datatypes.S fuel) as fuel1. cbn [handle_event]. unfold outgoingFromCryptoAuth. run. change (layer (current d4)) with INNER. cbv iota.
  set (d5 := with_current (set_layer INVALID) d4). subst fuel1.
  destruct (outgoingFromMe_running fuel d5 p hd (inner_packet sI.(iface) payload) n w (<[destination := (hI, s4)]> g) hO sO)
    as (p' & d' & E & Okp & Cp & Out); try done.
  - lia.
  - rewrite P5, M2. done.
  - lia.
  - rewrite <-M6. replace (bytes p - 40) with (bytes m - 60) by lia. apply read_ext. intros j Hj. apply P6. lia.
  - rewrite U5. exact (not_eq_sym U8).
  - unfold next_hop. change (forwardTo (current d5)) with (forwardTo (current A)). rewrite Hfwd. done.
  - apply H4.
  - rewrite lookup_insert_ne by exact (not_eq_sym Hne). exact HgO.
  - exists p', d'. split; [exact E|]. split; [exact Okp|]. split; [|exact Out]. rewrite Cp, P2, M3.
    replace (length m0 - 40 + 20) with (20 + Z.of_nat (List.length payload)) by lia. done.
Qed.

(** The last: a packet from the node in between, of whose session it is not. *)
Lemma core_inner fuel (d : state) msg hd payload i sO g hI sI v :
  d.(current).(session) = Managed i -> session_at d i = sO -> d.(userIf) = true ->
  message_ok msg -> content msg = hd ++ be_split 4 v ++ seal (nonceAs (negb sI.(iface).(isInitiator)) v) sI.(iface).(secret) payload ->
  List.length hd = 40%nat -> payload <> [] -> nth 0 hd 0 >> 4 = 6 -> 4 < v < 2 ^ 32 ->
  List.length sO.(session_ip6) = 16%nat -> source_of hd <> sO.(session_ip6) ->
  List.length d.(myAddr).(ip6) = 16%nat -> destination_of hd = d.(myAddr).(ip6) -> ~ router_traffic hd ->
  sm_ok d.(sm) g -> g !! source_of hd = Some (hI, sI) ->
  sI.(iface).(authenticatePackets) = true -> 5 <= sI.(iface).(nextNonce) ->
  fst (ReplayProtector_checkNonce v sI.(iface).(replayProtector)) = true ->
  exists t d', core (handle_event (Datatypes.S fuel)) msg d = Some (Error_NONE, d') /\ d'.(output) = d.(output) ++ [TunOut t] /\
    exists t', TUNMessageType_pop t = Some (Ethernet_TYPE_IP6, t') /\ content t' = shorter 20 (limited hd) ++ payload.
Proof.
  intros Hses HsO Hu Hok Hc Hlh Hpl Hv Hrange HlO Hsrc Hmy Hdst Hnr Hsm HgI Hauth Hnn Hfresh. pose proof Hok as (Hl & Hp & Ht & Hm).
  destruct (packet_fields msg hd _ ltac:(lia) Hc Hlh) as (El & F1 & F2 & F3). rewrite length_app, length_be_split, seal_length in El.
  unfold core. run. set (d1 := with_current _ d). unfold isForMe. rewrite F2, Hdst, memcmp_same, bool_decide_eq_true_2 by done.
  unfold Headers_IP6Header_SIZE. change (-40) with (- (40)). rewrite shift_down by lia. run. cbn [buffer bytes].
  run_by (run_session d1 i sO Hses HsO).
  assert (List.length (source_of hd) = 16%nat) as Hls by (rewrite <-F1, length_read; done).
  rewrite F1, memcmp_same, bool_decide_eq_false_2 by congruence. cbn [negb].
  destruct (run_getSession d1 g (source_of hd) None hI sI Hsm Hls HgI) as (k & Hrow & Eg). run_by Eg. clear Eg. run.
  change (touched None seconds sI) with (set_lastMessageTime sI (u32 seconds)). set (s1 := set_lastMessageTime sI (u32 seconds)).
  pose proof (holds_put d1 g (source_of hd) hI sI k s1 d1.(rng) (conj Hsm (conj HgI Hrow)) eq_refl eq_refl) as H1. set (d2 := with_sessions _ _ d1) in *.
  set (q := {| length := length msg - 40; padding := _; bytes := _; buffer := _ |}).
  assert (content q = be_split 4 v ++ seal (nonceAs (negb (isInitiator (iface sI))) v) (secret (iface sI)) payload) as Hcq.
  { unfold content in Hc. rewrite (read_split _ _ _ 40) in Hc by lia. apply app_inj_1 in Hc as [_ Hc]; [exact Hc|rewrite length_read, Hlh; done]. }
  assert (Endian_bigEndianToHost32 (load 4 (buffer msg) (bytes msg + 40)) = v) as ->.
  { apply load_be_split; [lia|done|]. unfold content in Hcq. cbn [q buffer bytes length] in Hcq.
    rewrite (read_split _ _ _ 4) in Hcq by lia. apply app_inj_1 in Hcq as [Hcq _]; [exact Hcq|rewrite length_read, length_be_split; done]. }
  rewrite (proj2 (Z.leb_gt v 3)) by lia. set (d3 := with_current (set_layer INNER) _).
  destruct (call_receive (handle_event (Datatypes.S fuel)) d3 _ (source_of hd) hI s1 k q v payload H1 Hauth Hnn ltac:(lia)
    ltac:(unfold message_ok; cbn; split_and!; done || lia) ltac:(cbn; lia) Hcq Hfresh) as (dm & -> & P1 & P2 & P3 & P4 & P5 & P6 & H4).
  rewrite insert_insert_eq in H4. set (s4 := after_receive v s1) in *. set (d4 := with_sessions _ _ d3) in *. cbn [q length padding bytes buffer] in *.
  cbn [handle_event]. unfold incomingFromCryptoAuth. run. change (layer (current d4)) with INNER. cbv iota.
  set (d5 := with_current (set_layer INVALID) d4). change (initMessage (current d4)) with false.
  unfold getHerPublicKey. run. run_by (run_session d5 k s4 eq_refl (row_value _ _ _ _ _ (proj2 (proj2 H4)))). run.
  assert (read (buffer dm) (bytes msg) 40 = hd) as Eh.
  { rewrite (read_ext _ (buffer msg) _ (bytes msg)) by (intros j Hj; apply P6; lia).
    unfold content in Hc. rewrite (read_split _ _ _ 40) in Hc by lia. apply app_inj_1 in Hc as [Hc _]; [exact Hc|rewrite length_read, Hlh; done]. }
  assert (0 < List.length payload)%nat by (destruct payload; [done|cbn; lia]).
  destruct (incomingForMe_tun (handle_event fuel) d5 dm (CryptoAuth_getHerPublicKey (iface s4)) (bytes msg) 20 hd k s4) as (t & E & t' & E1 & E2); try done.
  - exact (row_value _ _ _ _ _ (proj2 (proj2 H4))).
  - lia.
  - lia.
  - lia.
  - symmetry. exact (proj1 (holds_ids _ _ _ _ _ _ H4)).
  - exists t. eexists. split; [exact E|]. split; [done|]. exists t'. rewrite E2, P5. done.
Qed.

(** What the header has gone through when it arrives. *)
Lemma header_restored hd n : List.length hd = 40%nat -> 2 <= nth 7 hd 0 < 256 -> 0 <= n -> 20 + n < 2 ^ 16 ->
  shorter 20 (limited (lower_hop (lower_hop (set_payload (20 + n) hd)))) = lower_hop (lower_hop (set_payload n hd)).
Proof.
  intros Hl Hhop Hn Hmax. do 8 (destruct hd as [|? hd]; [done|]). unfold set_payload, lower_hop. cbn in Hhop.
  change (take 4 _) with [z; z0; z1; z2]. change (drop 6 _) with (z5 :: z6 :: hd).
  unfold shorter, limited. rewrite (proj2 (Z.eqb_neq 20 0)) by done.
  pose proof (length_be_split 2 (20 + n)) as Hb. pose proof (be_combine_split 2 (20 + n)) as Hc. rewrite Z.mod_small in Hc by (cbn; lia).
  destruct (be_split 2 (20 + n)) as [|a [|b [|]]]; try done.
  pose proof (length_be_split 2 n) as Hb'. destruct (be_split 2 n) as [|a' [|b' [|]]] eqn:E2; try done.
  cbn [app list_insert insert nth]. rewrite (proj2 (Z.eqb_neq (z6 - 1 - 1) 255)) by lia. cbn [take drop]. unfold set_payload. cbn [take drop app].
  rewrite Hc. replace (20 + n - 20) with n by lia. rewrite u16_small, E2 by lia. done.
Qed.

(** The fields that routing looks at, and what the changes on the way do to them. *)
Definition same_route (hd hd' : list Z) : Prop :=
  source_of hd' = source_of hd /\ destination_of hd' = destination_of hd /\ nth 0 hd' 0 = nth 0 hd 0 /\
  nth 6 hd' 0 = nth 6 hd 0 /\ List.length hd' = List.length hd.

Lemma paid_route hd k : List.length hd = 40%nat -> same_route hd (set_payload k hd) /\ nth 7 (set_payload k hd) 0 = nth 7 hd 0.
Proof.
  intros Hl. unfold set_payload, same_route. pose proof (length_be_split 2 k) as Hb. destruct (be_split 2 k) as [|a [|b [|]]]; try done.
  do 8 (destruct hd as [|? hd]; [done|]). done.
Qed.

Lemma lowered_route hd : List.length hd = 40%nat -> same_route hd (lower_hop hd) /\ nth 7 (lower_hop hd) 0 = nth 7 hd 0 - 1.
Proof. intros Hl. unfold lower_hop, same_route. do 8 (destruct hd as [|? hd]; [done|]). done. Qed.

Lemma route_trans hd hd' hd'' : same_route hd hd' -> same_route hd' hd'' -> same_route hd hd''.
Proof. unfold same_route. intros (A1 & A2 & A3 & A4 & A5) (B1 & B2 & B3 & B4 & B5). split_and!; congruence. Qed.

Lemma labelled hdr h_be w plain : List.length hdr = 12%nat -> take 12 (running_packet hdr h_be w plain) = hdr.
Proof. intros Hl. unfold running_packet. rewrite take_app_length'; done. Qed.

Lemma carried_content p q : carried p q -> (12 <= List.length (content q))%nat.
Proof. intros (_ & _ & header & Hl & ->). rewrite length_app. lia. Qed.

(** C3: a packet for a node that a node in between is nearer to. The user's node
    sends one packet to the node in between; that sends one packet on, to the
    destination; and the destination gives its user the packet, with the hop limit
    lowered by two and the right length. Nothing else leaves any of the three. *)
Theorem Ducttape_delivers_through fuel A C B gA gC gB hO sO hC sC hN sN hB sB hI sI hJ sJ w n w' n' msg m0 hd payload :
  connected A C gA gC hO hC sO sC -> connected C B gC gB hN hB sN sB ->
  gA !! B.(myAddr).(ip6) = Some (hI, sI) -> gB !! A.(myAddr).(ip6) = Some (hJ, sJ) ->
  linked sI.(iface) sJ.(iface) -> running A.(cryptoAuth) sI.(iface) -> sI.(iface).(nextNonce) < UINT32_MAX ->
  fst (ReplayProtector_checkNonce sI.(iface).(nextNonce) sJ.(iface).(replayProtector)) = true ->
  Ip6_valid A.(myAddr).(ip6) -> Ip6_valid B.(myAddr).(ip6) -> Ip6_valid C.(myAddr).(ip6) ->
  A.(myAddr).(ip6) <> C.(myAddr).(ip6) -> B.(myAddr).(ip6) <> C.(myAddr).(ip6) ->
  B.(userIf) = true -> B.(current).(currentSessionVersion) = 0 -> C.(current).(currentSessionVersion) = 0 ->
  user_packet hd payload A.(myAddr).(ip6) B.(myAddr).(ip6) -> 3 <= nth 7 hd 0 -> Z.of_nat (List.length payload) < 60000 ->
  TUNMessageType_pop msg = Some (Ethernet_TYPE_IP6, m0) -> message_ok m0 -> 56 <= padding m0 -> content m0 = hd ++ payload ->
  lookup B.(myAddr).(ip6) A.(router) = Some (Some n, w) ->
  (node_of w n).(address).(ip6) = C.(myAddr).(ip6) -> 0 <= (node_of w n).(address).(path) < 2 ^ 64 ->
  0 < newer sO.(session_version) (node_of w n).(node_version) ->
  next_hop C B.(myAddr).(ip6) (Some n') w' ->
  (node_of w' n').(address).(ip6) = B.(myAddr).(ip6) -> 0 <= (node_of w' n').(address).(path) < 2 ^ 64 ->
  0 < newer sN.(session_version) (node_of w' n').(node_version) ->
  let handle := handle_event (Datatypes.S (Datatypes.S fuel)) in
  exists p A', incomingFromTun handle msg A = Some (switch_code p, A') /\ A'.(output) = A.(output) ++ [SwitchOut p] /\
    message_ok p /\ take 12 (content p) = be_split 8 (node_of w n).(address).(path) ++ [0; 0; 0; 0] /\
  forall q, carried p q -> exists p' C', incomingFromSwitch handle q C = Some (0, C') /\ C'.(output) = C.(output) ++ [SwitchOut p'] /\
    message_ok p' /\ take 12 (content p') = be_split 8 (node_of w' n').(address).(path) ++ take 4 (drop 8 (content q)) /\
  forall q', carried p' q' -> exists t B', incomingFromSwitch handle q' B = Some (0, B') /\ B'.(output) = B.(output) ++ [TunOut t] /\
    exists t', TUNMessageType_pop t = Some (Ethernet_TYPE_IP6, t') /\
      content t' = lower_hop (lower_hop (set_payload (Z.of_nat (List.length payload)) hd)) ++ payload.
Proof.
  intros HAC HCB HgI HgJ Hlink HrunI HmaxI Hfresh HkA HkB HkC HneA HneB Hu HcurB HcurC Hup Hhop Hlen Hpop Hm0 Hpad Hc0 Hlook Hn Hpath Hver
    Hnext Hn' Hpath' Hver' handle.
  unfold handle. rewrite (incomingFromTun_known _ A _ w n msg m0 hd payload HkA HkB Hup Hpop Hm0 Hc0 Hlook) by (rewrite Hn; exact HkC).
  rewrite Hn, bool_decide_eq_false_2 by congruence. set (A1 := with_current (set_forwardTo (Some n)) _).
  pose proof HAC as [C1 C2 C3 C4 C5 C6 C7 C8 C9 C10]. pose proof HCB as [D1 D2 D3 D4 D5 D6 D7 D8 D9 D10].
  destruct (sendInner_running fuel A1 m0 hd payload (ip6 (myAddr B)) n w gA hI sI hO sO) as (p & A' & E & Okp & Cp & Out);
    rewrite ?Hn; try done; try lia; try congruence.
  exists p, A'. split; [exact E|]. split; [exact Out|].
  split; [exact Okp|]. split; [rewrite Cp; apply labelled; rewrite length_app, length_be_split; done|]. intros q Hq. destruct Hup as [U1 U2 U3 U4 U5 [U6 U7] U8 U9].
  set (k := Z.of_nat (List.length payload)) in *. set (h0 := set_payload (20 + k) hd) in *. set (h1 := lower_hop h0) in *. set (h2 := lower_hop h1).
  destruct (paid_route hd (20 + k) U1) as [R0 T0]. fold h0 in R0, T0.
  destruct (lowered_route h0 ltac:(destruct R0 as (_ & _ & _ & _ & ->); exact U1)) as [R1 T1]. fold h1 in R1, T1.
  pose proof (route_trans _ _ _ R0 R1) as R01. destruct R01 as (V1 & V2 & V3 & V4 & V5).
  destruct (lowered_route h1 ltac:(rewrite V5; exact U1)) as [R2 T2]. fold h2 in R2, T2.
  pose proof (route_trans _ _ _ (route_trans _ _ _ R0 R1) R2) as (X1 & X2 & X3 & X4 & X5).
  destruct (passes_on fuel A C gA gC hO hC sO sC (be_split 8 (path (address (node_of w n))) ++ [0; 0; 0; 0]) h1 (inner_packet (iface sI) payload) p q w' n' hN sN)
    as (p' & C' & EC & OC & Okp' & Cp'); rewrite ?V1, ?V2, ?V5, ?U4, ?U5, ?Hn'; try done; try lia; try congruence.
  assert (List.length (be_split 8 (path (address (node_of w' n'))) ++ take 4 (drop 8 (content q))) = 12%nat) as Hl12
    by (rewrite length_app, length_be_split, length_take, length_drop; pose proof (carried_content p q Hq); lia).
  exists p', C'. split; [exact EC|]. split; [exact OC|]. split; [exact Okp'|]. split; [rewrite Cp'; by apply labelled|]. intros q' Hq'.
  assert (h2 = lower_hop h1) as Eh2 by done. assert (lower_hop h1 ++ inner_packet (iface sI) payload = h2 ++ inner_packet (iface sI) payload) as E2 by done.
  rewrite E2 in Cp'.
  destruct (comes_to_core (Datatypes.S fuel) C B gC gB hN hB sN sB (be_split 8 (path (address (node_of w' n'))) ++ take 4 (drop 8 (content q))) h2 (inner_packet (iface sI) payload) p' q' HCB Hl12 Cp' Hq' HcurB)
    as (dm & d & i & Okd & Pd & Cd & Bd & Hrun_core & Low & Lab & Hold & (S1 & S2 & S3 & S4) & Sr & So & Sh & Ses & Sf & _);
    rewrite ?X1, ?X2, ?X5, ?U4, ?U5; try done.
  destruct (holds_ids _ _ _ _ _ _ Hold) as [I1 I2]. destruct Hlink as [L1 L2 L3 L4 L5]. destruct HrunI as [Ra Rn Rl].
  destruct (core_inner fuel d dm h2 payload i (after_receive (nextNonce (iface sN)) sB)
      (<[C.(myAddr).(ip6) := (hB, after_receive (nextNonce (iface sN)) sB)]> gB) hJ sJ (nextNonce (iface sI)))
    as (t & d2 & Ecore & Od2 & t' & Et & Ct); rewrite ?X1, ?X2, ?X3, ?X5, ?U4, ?U5, ?I1, ?S3, ?S4; try done; try lia.
  - exact (row_value _ _ _ _ _ (proj2 (proj2 Hold))).
  - rewrite Cd. unfold inner_packet. rewrite L1, L2. done.
  - unfold router_traffic. lia.
  - apply Hold.
  - rewrite lookup_insert_ne by congruence. exact HgJ.
  - congruence.
  - exists t, (finished d2). split; [exact (Hrun_core _ _ Ecore)|]. split; [change (output (finished d2)) with (output d2); rewrite Od2, So; done|].
    exists t'. split; [exact Et|]. rewrite Ct. f_equal. apply header_restored; try done; try lia.
    destruct Hm0 as (Hl0 & _ & _ & Hmm). destruct (packet_fields m0 hd payload ltac:(lia) Hc0 U1) as (_ & _ & _ & F).
    pose proof (Hmm (bytes m0 + 7)) as Hb. rewrite F in Hb by lia. change (Z.to_nat 7) with 7%nat in Hb. unfold is_byte in Hb. lia.
Qed.
End through.
