(* ===== verification/DucttapeDHT.v ===== *)
(** * Messages of the DHT between nodes (net/Ducttape.c, handleOutgoing and
    incomingForMe)

    A message of the DHT travels in a UDP packet with port 0 and hop limit 0
    between the nodes' addresses. It is proved to arrive at the DHT of the other
    node as it was given to Ducttape, with the address of the sender. *)
From stdpp Require Import gmap.
From S2P Require Import Prelude Memory Endian Bits Checksum Headers Message NaCl ReplayProtector CryptoAuth Benc Address NodeCollector Map SessionManager DHT Ducttape TUNMessageType IpTunnel DucttapeData DucttapeDelivery.
Open Scope Z_scope.

(** ** The packet *)
Section packet.
  Context {P : Platform}.

Definition dht_fields (source destination : list Z) (checksum : Z) (data : list Z) : list (list Z) :=
  let n := Z.of_nat (List.length data) in
  [store 2 0; store 2 0; store 2 (Endian_hostToBigEndian16 (n + 8)); [17]; [0]; source; destination;
   store 4 0; store 2 (Endian_hostToBigEndian16 n); store 2 checksum; data].

Definition dht_checksum (source destination data : list Z) : Z :=
  let l := of_list (concat (dht_fields source destination 0 data)) in
  Checksum_udpIp6 l 8 l 40 (Z.of_nat (List.length data) + 8).

Definition dht_header (source destination : list Z) (n : Z) : list Z :=
  store 2 0 ++ store 2 0 ++ store 2 (Endian_hostToBigEndian16 (n + 8)) ++ [17; 0] ++ source ++ destination.
Definition dht_udp (source destination data : list Z) : list Z :=
  store 4 0 ++ store 2 (Endian_hostToBigEndian16 (Z.of_nat (List.length data))) ++ store 2 (dht_checksum source destination data) ++ data.

  Variables source destination : list Z.
  Hypotheses (Hs : List.length source = 16%nat) (Hd : List.length destination = 16%nat).

Lemma length_dht c d : Z.of_nat (List.length (concat (dht_fields source destination c d))) = 48 + Z.of_nat (List.length d).
Proof. unfold dht_fields. cbn [concat]. rewrite !length_app, !length_store. cbn [List.length]. lia. Qed.

Lemma dht_packet data :
  concat (dht_fields source destination (dht_checksum source destination data) data) =
    dht_header source destination (Z.of_nat (List.length data)) ++ dht_udp source destination data.
Proof. unfold dht_fields, dht_header, dht_udp. cbn [concat]. rewrite <-!app_assoc, app_nil_r. reflexivity. Qed.

(** The part behind the addresses. *)
Lemma read_dht_udp mm a n c d : read mm a (48 + n) = concat (dht_fields source destination c d) -> n = Z.of_nat (List.length d) ->
  read mm (a + 8) 32 = source ++ destination /\
  read mm (a + 40) (n + 8) = concat [store 4 0; store 2 (Endian_hostToBigEndian16 n); store 2 c; d].
Proof.
  intros E ->. unfold dht_fields in E. cbv zeta in E. set (n := Z.of_nat (List.length d)) in *.
  set (pre := store 2 0 ++ store 2 0 ++ store 2 (Endian_hostToBigEndian16 (n + 8)) ++ [17] ++ [0]).
  assert (List.length pre = 8%nat) as Hpre by (unfold pre; rewrite !length_app, !length_store; done).
  set (post := concat [store 4 0; store 2 (Endian_hostToBigEndian16 n); store 2 c; d]) in *.
  assert (List.length post = (8 + List.length d)%nat) as Hpost by (unfold post; cbn [concat]; rewrite !length_app, !length_store; cbn; lia).
  assert (read mm a (48 + n) = pre ++ (source ++ destination) ++ post) as E'.
  { rewrite E. unfold pre, post. cbn [concat]. rewrite <-!app_assoc. reflexivity. }
  split.
  - apply (read_field mm a (48 + n) pre (source ++ destination) post); [exact E'|rewrite Hpre; done|rewrite length_app, Hs, Hd; done].
  - apply (read_field mm a (48 + n) (pre ++ source ++ destination) post []); [rewrite app_nil_r, <-app_assoc; exact E'| |lia].
    rewrite !length_app, Hpre, Hs, Hd. done.
Qed.

Lemma dht_checksum_read d mm a n :
  read mm a (48 + n) = concat (dht_fields source destination 0 d) -> n = Z.of_nat (List.length d) ->
  Checksum_udpIp6 mm (a + 8) mm (a + 40) (n + 8) = dht_checksum source destination d.
Proof.
  intros E En. destruct (read_dht_udp _ _ _ _ _ E En) as [E1 E2].
  destruct (read_dht_udp (of_list (concat (dht_fields source destination 0 d))) 0 n 0 d) as [E1' E2'];
    [rewrite En; apply read_of_list; rewrite length_dht; done|done|].
  rewrite Z.add_0_l in E1', E2'. unfold dht_checksum, Checksum_udpIp6. rewrite <-En.
  apply Ip6_read_at; [lia|congruence|congruence].
Qed.

Lemma dht_packet_verifies d mm a n : bytes_ok source -> bytes_ok destination -> bytes_ok d -> n + 8 < 2 ^ 16 ->
  read mm a (48 + n) = dht_header source destination n ++ dht_udp source destination d -> n = Z.of_nat (List.length d) ->
  Checksum_udpIp6 mm (a + 8) mm (a + 40) (n + 8) = 0.
Proof.
  intros Hbs Hbd Hb Hn E En. rewrite En, <-dht_packet, <-En in E. set (l := of_list (concat (dht_fields source destination 0 d))).
  assert (read l 0 (48 + n) = concat (dht_fields source destination 0 d)) as E0 by (rewrite En; apply read_of_list; rewrite length_dht; done).
  assert (mem_ok l) as Hl.
  { apply of_list_ok. unfold dht_fields. cbn [concat]. rewrite app_nil_r.
    repeat (apply Forall_app; split); first [apply store_ok|assumption|by apply bytes_ok_check]. }
  assert (dht_checksum source destination d = Checksum_udpIp6 l 8 l 40 (n + 8)) as Ec by (rewrite En; done).
  destruct (read_dht_udp _ _ _ _ _ E En) as [E1 E2].
  destruct (read_dht_udp _ _ _ _ _ E0 En) as [E1' E2']. rewrite Z.add_0_l in E1', E2'.
  unfold Checksum_udpIp6 in *.
  rewrite (Ip6_read_at mm l (a + 8) 8 mm (write l (40 + 2 * 3) (store 2 (dht_checksum source destination d))) (a + 40) 40);
    [|lia|congruence|].
  - rewrite Ec. apply Checksum_Ip6_verifies; [done|done|lia|apply hostToBigEndian32_range; lia|lia|lia|].
    unfold dht_fields in E0. cbv zeta in E0. apply (load_fields _ _ _ _ E0 9 2 0 46); [done|].
    cbn [take concat]. rewrite !length_app, !length_store. cbn [List.length]. lia.
  - rewrite E2. symmetry. set (c := dht_checksum _ _ d). set_field E2' 2%nat (store 2 c) 6 E3. exact E3.
Qed.

(** The writes of [handleOutgoing], in order, in front of data at [a + 48]. *)
Lemma dht_memory m0 a data n : n = Z.of_nat (List.length data) -> read m0 (a + 48) n = data ->
  let m := write m0 (a + 40) (store 4 0) in
  let m := write m (a + 44) (store 2 (Endian_hostToBigEndian16 n)) in
  let m := write m (a + 46) (store 2 0) in
  let m := write m (a + 0) (store 2 0) in
  let m := write m (a + 2) (store 2 0) in
  let m := set m (a + 6) 17 in
  let m := set m (a + 7) 0 in
  let m := write m (a + 4) (store 2 (Endian_hostToBigEndian16 (n + 8))) in
  let m := write m (a + 8) source in
  let m := write m (a + 24) destination in
  let m := write m (a + 46) (store 2 (Checksum_udpIp6 m (a + 8) m (a + 40) (n + 8))) in
  read m a (48 + n) = dht_header source destination n ++ dht_udp source destination data.
Proof.
  intros Hn Hdata.
  pose proof (read_pieces m0 [2; 2; 2; 1; 1; 16; 16; 4; 2; 2; n] a) as E0. cbn [fold_right pieces] in E0.
  replace (2 + (2 + (2 + (1 + (1 + (16 + (16 + (4 + (2 + (2 + (n + 0))))))))))) with (48 + n) in E0 by lia.
  specialize (E0 ltac:(repeat constructor; lia)).
  replace (a + 2 + 2 + 2 + 1 + 1 + 16 + 16 + 4 + 2 + 2) with (a + 48) in E0 by lia. rewrite Hdata in E0.
  set_field E0 7%nat (store 4 0) 40 E1. set_field E1 8%nat (store 2 (Endian_hostToBigEndian16 n)) 44 E2.
  set_field E2 9%nat (store 2 0) 46 E3. set_field E3 0%nat (store 2 0) 0 E4. set_field E4 1%nat (store 2 0) 2 E5.
  set_byte E5 3%nat 17 6 E6. set_byte E6 4%nat 0 7 E7. set_field E7 2%nat (store 2 (Endian_hostToBigEndian16 (n + 8))) 4 E8.
  set_field E8 5%nat source 8 E9. set_field E9 6%nat destination 24 E10.
  cbv zeta. set (m10 := write _ (a + 24) destination) in *.
  assert (Checksum_udpIp6 m10 (a + 8) m10 (a + 40) (n + 8) = dht_checksum source destination data) as ->.
  { apply dht_checksum_read; [rewrite E10, Hn; reflexivity|done]. }
  set_field E10 9%nat (store 2 (dht_checksum source destination data)) 46 E11. rewrite Hn at 2. rewrite <-dht_packet, E11, Hn. reflexivity.
Qed.

(** The header and what is behind it. *)
Lemma length_dht_header n : List.length (dht_header source destination n) = 40%nat.
Proof. unfold dht_header. rewrite !length_app, !length_store, Hs, Hd. done. Qed.
Lemma length_dht_udp data : List.length (dht_udp source destination data) = (8 + List.length data)%nat.
Proof. unfold dht_udp. rewrite !length_app, !length_store. lia. Qed.

Lemma dht_header_fields n :
  source_of (dht_header source destination n) = source /\ destination_of (dht_header source destination n) = destination /\
  nth 6 (dht_header source destination n) 0 = 17 /\ nth 7 (dht_header source destination n) 0 = 0.
Proof.
  set (pre := store 2 0 ++ store 2 0 ++ store 2 (Endian_hostToBigEndian16 (n + 8)) ++ [17; 0]).
  assert (dht_header source destination n = pre ++ source ++ destination) as -> by (unfold dht_header, pre; rewrite <-!app_assoc; done).
  assert (List.length pre = 8%nat) as Hp by (unfold pre; rewrite !length_app, !length_store; done).
  unfold source_of, destination_of. split; [|split; [|split]].
  - rewrite drop_app_length' by done. rewrite take_app_length'; done.
  - rewrite (app_assoc pre), drop_app_length' by (rewrite length_app; lia). apply take_ge. lia.
  - rewrite app_nth1 by lia. unfold pre. rewrite !app_assoc, app_nth2 by (rewrite !length_app, !length_store; lia).
    rewrite !length_app, !length_store. done.
  - rewrite app_nth1 by lia. unfold pre. rewrite !app_assoc, app_nth2 by (rewrite !length_app, !length_store; lia).
    rewrite !length_app, !length_store. done.
Qed.

Lemma load_header_field m a (k : nat) z : read m a (Z.of_nat k) = store k z -> load k m a = z mod 2 ^ (8 * Z.of_nat k).
Proof.
  intros E. rewrite <-(load_stored k z). apply load_read. rewrite E. symmetry. apply read_of_list. rewrite length_store. done.
Qed.

Lemma dht_udp_fields m a data n : n = Z.of_nat (List.length data) -> n < 2 ^ 16 -> read m a (n + 8) = dht_udp source destination data ->
  load 4 m (a + UDPHeader_sourceAndDestPorts) = 0 /\ Endian_bigEndianToHost16 (load 2 m (a + UDPHeader_length_be)) = n /\
  read m (a + 8) n = data.
Proof.
  intros En Hn E. unfold dht_udp in E. rewrite <-En in E. set (c := store 2 _) in E at 2.
  assert (List.length c = 2%nat) as Hc by (unfold c; apply length_store). clearbody c.
  split; [|split].
  - rewrite (load_header_field _ _ 4 0); [done|]. apply (read_field m a (n + 8) [] (store 4 0) _ 0 4 E); [done|rewrite length_store; done].
  - rewrite (load_header_field _ _ 2 (Endian_hostToBigEndian16 n)).
    + rewrite Z.mod_small by (apply (hostToBigEndian16_range n); lia). apply bigEndianToHost16_host. lia.
    + apply (read_field m a (n + 8) (store 4 0) (store 2 (Endian_hostToBigEndian16 n)) _ 4 2 E); rewrite length_store; done.
  - apply (read_field m a (n + 8) (store 4 0 ++ store 2 (Endian_hostToBigEndian16 n) ++ c) data [] 8 n); [|rewrite !length_app, !length_store, Hc; done|done].
    rewrite app_nil_r, <-!app_assoc. exact E.
Qed.
End packet.

(** ** Between two nodes *)
Section delivery.
  Context {P : Platform} {N : NaCl} {L : NaClLaws N} {T : TunType P} {TL : TunTypeLaws P T} {R : RandomSource}
    {W : Type} {Rt : Router W} {Su : Surroundings}.
  #[local] Existing Instance bytes_key.

#[local] Abbreviation sessions := (gmap Ip6 (Z * SessionManager_Session)).
#[local] Abbreviation state := (Ducttape (W := W)).

(** The node a message is sent to: the one that the table has for the path, or one
    made up from the message. *)
Definition node_for (w : W) (message : DHTMessage) (found : option Z) : Node :=
  match found with
  | Some i => node_of w i
  | None =>
      {| node_reach := 0;
         node_version := match message.(replyTo) with
                         | Some query => match Dict_getInt query.(asDict) (Some (chars "p")) with Some v => u32 v | None => 0 end
                         | None => stack_version
                         end;
         address := message.(dht_address) |}
  end.

Lemma handleOutgoing_running fuel (A : state) g message found w h s :
  let node := node_for w message found in
  let data := read message.(dht_bytes) 0 message.(dht_length) in
  let packet := dht_header A.(myAddr).(ip6) message.(dht_address).(ip6) message.(dht_length)
                  ++ dht_udp A.(myAddr).(ip6) message.(dht_address).(ip6) data in
  mem_ok message.(dht_bytes) -> 0 <= message.(dht_length) <= DHTMessage_MAX_SIZE ->
  Ip6_valid A.(myAddr).(ip6) -> bytes_ok A.(myAddr).(ip6) ->
  Ip6_valid message.(dht_address).(ip6) -> bytes_ok message.(dht_address).(ip6) ->
  getNode message.(dht_address).(path) A.(router) = Some (found, w) ->
  sm_ok A.(sm) g -> Ip6_valid node.(address).(ip6) -> g !! node.(address).(ip6) = Some (h, s) ->
  Bits_isZero (of_list s.(iface).(herPerminentPubKey)) 0 32 = false ->
  running A.(cryptoAuth) s.(iface) -> s.(iface).(nextNonce) < UINT32_MAX ->
  0 < newer s.(session_version) node.(node_version) -> 0 <= node.(address).(path) < 2 ^ 64 ->
  exists p A', handleOutgoing (handle_event (Datatypes.S fuel)) message A = Some (0, A') /\ message_ok p /\
    content p = running_packet (be_split 8 node.(address).(path) ++ [0; 0; 0; 0]) s.(sendHandle_be) s.(iface) packet /\
    A'.(output) = A.(output) ++ [SwitchOut p] /\
    sm_ok A'.(sm) (<[node.(address).(ip6) := (h, after_send (Some node.(address).(key)) node.(node_version) s)]> g) /\
    A'.(router) = (match found with Some i => set_node_version i (newer s.(session_version) node.(node_version)) w | None => w end) /\
    same_node A A' /\ A'.(current).(currentSessionVersion) = A.(current).(currentSessionVersion).
Proof.
  intros node data packet Hm Hlen HkA HbA HkB HbB Hget Hsm Hk Hg Hkey Hrun Hmax Hver Hpath. unfold DHTMessage_MAX_SIZE in Hlen.
  set (n := message.(dht_length)) in *. unfold handleOutgoing. run. unfold Headers_UDPHeader_SIZE. rewrite shift_up by (cbn; lia). run.
  unfold Headers_IP6Header_SIZE. rewrite shift_up by (cbn; lia). run. cbn [bytes buffer length padding].
  rewrite (u16_small (dht_length message)), (u16_small (dht_length message + 8)) by (fold n; lia). fold n.
  replace (n + 8 + 40 - 40) with (n + 8) by lia.
  unfold UDPHeader_sourceAndDestPorts, UDPHeader_length_be, UDPHeader_checksum_be, IP6Header_versionClassAndFlowLabel,
    IP6Header_flowLabelLow_be, IP6Header_nextHeader, IP6Header_hopLimit, IP6Header_payloadLength_be, IP6Header_sourceAddr, IP6Header_destinationAddr.
  rewrite !take_ge by (rewrite ?HkA, ?HkB; done).
  assert (n = Z.of_nat (List.length data)) as Hn by (unfold data; rewrite length_read; lia).
  pose proof (dht_memory A.(myAddr).(ip6) message.(dht_address).(ip6) HkA HkB message.(dht_bytes) (0 - 8 - 40) data n Hn eq_refl) as Hmem.
  cbv zeta in Hmem. change (0 - 8 - 40 + 40) with (0 - 8) in Hmem.
  change (0 - 8 - 40 + 44) with (0 - 8 + 4) in Hmem. change (0 - 8 - 40 + 46) with (0 - 8 + 6) in Hmem.
  change (0 - 8 + 0) with (0 - 8). match goal with |- context [with_buffer _ ?m] => set (M := m) end. change (read M (0 - 8 - 40) (48 + n) = packet) in Hmem.
  assert (mem_ok M) as HM by (unfold M; repeat (apply write_ok || apply set_ok); first [assumption|apply store_ok|done]).
  clearbody M. set (msg := with_buffer _ M).
  assert (message_ok msg) as Hok by (unfold message_ok; cbn; split_and!; done || lia).
  assert (content msg = packet) as Hc by (rewrite <-Hmem; unfold content; cbn [msg with_buffer bytes buffer length]; f_equal; lia).
  set (d := with_current _ (with_current _ A)).
  rewrite (run_ok _ _ _ found (with_router w d)) by (unfold router_call; cbn; rewrite Hget; done). set (d2 := with_router w d).
  match goal with |- context [sendToRouter _ ?r msg] => set (nr := r) end.
  assert (node_value d2 nr = node) as En by (unfold nr, node, node_for; destruct found; done).
  pose proof (sendToRouter_running fuel d2 g nr msg h s) as Hs. cbv zeta in Hs. rewrite En in Hs.
  destruct Hs as (p & A' & E & Cp & Okp & Out & Hsm' & Hr & Hn' & _ & Hv); try done.
  exists p, A'. rewrite run_bind, E. split; [done|]. split; [exact Okp|]. split; [rewrite Cp, Hc; done|]. split; [exact Out|].
  split; [exact Hsm'|]. split; [rewrite Hr; unfold nr; by destruct found|]. split; [exact Hn'|exact Hv].
Qed.

(** A message of the DHT for this node. *)
Lemma core_dht handle (d : state) msg source destination data i s sh messages w :
  let n := Z.of_nat (List.length data) in
  d.(current).(session) = Managed i -> session_at d i = s -> d.(current).(switchHeader) = InPacket sh ->
  message_ok msg -> content msg = dht_header source destination n ++ dht_udp source destination data ->
  n <= DHTMessage_MAX_SIZE -> bytes_ok data ->
  Ip6_valid source -> bytes_ok source -> source = s.(session_ip6) ->
  Ip6_valid destination -> bytes_ok destination -> destination = d.(myAddr).(ip6) ->
  handleDHT data {| ip6 := source; key := s.(iface).(herPerminentPubKey); path := label_of msg.(buffer) sh |} d.(router) = Some (messages, w) ->
  core handle msg d = (_ ← send_all handle messages; mret Error_NONE) (with_router w (with_current (set_ip6Header (InPacket msg.(bytes))) d)).
Proof.
  intros n Hses Hs Hsh (Hl & Hp & Ht & Hm) Hc Hn Hb Hks Hbs Hsrc Hkd Hbd Hdst Hdht. unfold DHTMessage_MAX_SIZE in Hn.
  pose proof (length_dht_header source destination Hks Hkd n) as Hlh.
  destruct (packet_fields msg _ _ (proj1 Hl) Hc Hlh) as (El & F1 & F2 & F3). rewrite length_dht_udp in El by done.
  destruct (dht_header_fields source destination Hks Hkd n) as (D1 & D2 & D3 & D4).
  unfold core. run. set (d1 := with_current _ d).
  unfold isForMe. rewrite F2, D2, memcmp_same, bool_decide_eq_true_2 by (done || by rewrite Hdst).
  unfold Headers_IP6Header_SIZE. change (-40) with (- (40)). rewrite shift_down by lia. run. cbn [buffer bytes].
  run_by (run_session d1 i s Hses Hs). rewrite F1, D1, <-Hsrc, memcmp_same, bool_decide_eq_true_2 by done. cbn [negb].
  unfold getHerPublicKey. run. run_by (run_session d1 i s Hses Hs). run. unfold incomingForMe, takeHandle. cbn [andb]. run.
  run_by (run_session d1 i s Hses Hs). run. change (ip6Header (current d1)) with (InPacket (bytes msg)). cbn [header_in]. run.
  cbn [buffer bytes length].
  rewrite F1, D1, <-Hsrc, memcmp_same, bool_decide_eq_true_2 by done. cbn [negb].
  assert (length msg = 48 + n) as Elen by (unfold n; lia). rewrite (proj2 (Z.eqb_neq (length msg - 40) 0)) by lia.
  assert (read (buffer msg) (bytes msg + 40) (n + 8) = dht_udp source destination data) as Eu.
  { unfold content in Hc. rewrite Elen, (read_split _ _ (48 + n) 40) in Hc by lia. apply app_inj_1 in Hc as [_ Hc];
      [|rewrite length_read, Hlh; done]. rewrite <-Hc. f_equal. lia. }
  destruct (dht_udp_fields source destination Hks Hkd _ _ data n eq_refl ltac:(lia) Eu) as (G1 & G2 & G3).
  unfold isRouterTraffic, IP6Header_nextHeader, IP6Header_hopLimit. rewrite !F3 by lia. change (Z.to_nat 6) with 6%nat. change (Z.to_nat 7) with 7%nat.
  rewrite D3, D4. cbn [Z.eqb negb orb Pos.eqb bytes buffer length]. rewrite G1, G2. unfold Headers_UDPHeader_SIZE.
  rewrite Elen. replace (48 + n - 40 - 8) with n by lia. rewrite (proj2 (Z.leb_le 8 _)), !Z.eqb_refl by lia. cbn [andb].
  replace (48 + n - 40) with (n + 8) by lia. unfold IP6Header_sourceAddr.
  rewrite (dht_packet_verifies source destination Hks Hkd data (buffer msg) (bytes msg) n) by (done || lia || (rewrite <-Hc; unfold content; f_equal; lia)).
  cbn [Z.eqb negb]. change (-8) with (- (8)). rewrite shift_down by (cbn; lia). run. cbn [length padding bytes buffer].
  change (switchHeader (current d1)) with (switchHeader (current d)). rewrite Hsh. cbn [header_in]. run.
  unfold incomingDHT. cbn [length bytes buffer].
  assert ((if n + 8 - 8 <? DHTMessage_MAX_SIZE then n + 8 - 8 else DHTMessage_MAX_SIZE) = n) as ->.
  { unfold DHTMessage_MAX_SIZE. destruct (Z.ltb_spec (n + 8 - 8) 1536); lia. }
  replace (bytes msg + 40 + 8) with (bytes msg + 48) in * by lia. rewrite G3.
  rewrite (run_ok _ _ _ messages (with_router w d1)) by (unfold router_call; change (router d1) with (router d); unfold CryptoAuth_getHerPublicKey; fold (label_of (buffer msg) sh); rewrite Hdht; done). done.
Qed.

(** What a node needs to have an address: it is one, and of bytes. *)
Record addressed (A : state) : Prop := {
  addressed_length : Ip6_valid A.(myAddr).(ip6);
  addressed_bytes : bytes_ok A.(myAddr).(ip6);
  addressed_valid : AddressCalc_validAddress A.(myAddr).(ip6) = true
}.

Lemma same_node_addressed A A' : same_node A A' -> addressed A -> addressed A'.
Proof. intros (_ & _ & E & _) [H1 H2 H3]. split; by rewrite E. Qed.

(** A packet with a message of the DHT arrives: the DHT is given it, and what that
    has to send is sent. *)
Lemma dht_arrives fuel A B gA gB hA hB sA sB hdr data p q messages w' :
  connected A B gA gB hA hB sA sB -> addressed A -> addressed B -> List.length hdr = 12%nat ->
  B.(current).(currentSessionVersion) = 0 ->
  let n := Z.of_nat (List.length data) in
  n <= DHTMessage_MAX_SIZE -> bytes_ok data ->
  content p = running_packet hdr sA.(sendHandle_be) sA.(iface)
    (dht_header A.(myAddr).(ip6) B.(myAddr).(ip6) n ++ dht_udp A.(myAddr).(ip6) B.(myAddr).(ip6) data) -> carried p q ->
  handleDHT data
    {| ip6 := A.(myAddr).(ip6); key := sB.(iface).(herPerminentPubKey); path := Bits_bitReverse64 (label_of q.(buffer) q.(bytes)) |}
    B.(router) = Some (messages, w') ->
  exists d, d.(router) = w' /\ d.(output) = B.(output) /\ same_node B d /\
    sm_ok d.(sm) (<[A.(myAddr).(ip6) := (hB, after_receive sA.(iface).(nextNonce) sB)]> gB) /\
  forall d', send_all (handle_event fuel) messages d = Some (tt, d') ->
    incomingFromSwitch (handle_event (Datatypes.S fuel)) q B = Some (0, finished d').
Proof.
  intros Hcon [HkA HbA HvA] [HkB HbB HvB] Hlh Hcur n Hn Hb Cp Hq Hdht.
  destruct (dht_header_fields A.(myAddr).(ip6) B.(myAddr).(ip6) HkA HkB n) as (D1 & D2 & _).
  destruct (comes_to_core fuel A B gA gB hA hB sA sB hdr _ _ p q Hcon Hlh Cp Hq Hcur)
    as (dm & d & i & Okd & Pd & Cd & Bd & Hrun_core & Low & Lab & Hold & (S1 & S2 & S3 & S4) & Sr & So & Sh & Ses & Sf & _);
    rewrite ?D1, ?D2; try done. { apply length_dht_header; done. }
  destruct (holds_ids _ _ _ _ _ _ Hold) as [I1 I2].
  pose proof (core_dht (handle_event fuel) d dm A.(myAddr).(ip6) B.(myAddr).(ip6) data i (after_receive sA.(iface).(nextNonce) sB)
    q.(bytes) messages w') as Hcore. cbv zeta in Hcore. rewrite S3, Sr, Lab in Hcore.
  specialize (Hcore Ses (row_value _ _ _ _ _ (proj2 (proj2 Hold))) Sh Okd Cd Hn Hb HkA HbA (eq_sym I1) HkB HbB eq_refl Hdht).
  exists (with_router w' (with_current (set_ip6Header (InPacket (bytes dm))) d)).
  split; [done|]. split; [exact So|]. split; [split_and!; done|]. split; [apply Hold|].
  intros d' Ed. apply (Hrun_core Error_NONE d'). rewrite Hcore, (run_ok _ _ _ _ _ Ed). done.
Qed.

(** C7: a message that the DHT of one node gives to Ducttape for another that it is
    connected with leaves in one packet with the label of the node (the table's
    when it knows the path); however it is carried, the DHT of the other node is
    given the same bytes, with the sender's address and key and the path on which
    the packet came. What it sends in answer is sent, and nothing else leaves. *)
Theorem Ducttape_delivers_dht fuel A B gA gB hA hB sA sB message found w :
  connected A B gA gB hA hB sA sB -> addressed A -> addressed B -> B.(current).(currentSessionVersion) = 0 ->
  mem_ok message.(dht_bytes) -> 0 <= message.(dht_length) <= DHTMessage_MAX_SIZE -> message.(dht_address).(ip6) = B.(myAddr).(ip6) ->
  getNode message.(dht_address).(path) A.(router) = Some (found, w) ->
  let node := node_for w message found in
  let data := read message.(dht_bytes) 0 message.(dht_length) in
  node.(address).(ip6) = B.(myAddr).(ip6) -> 0 <= node.(address).(path) < 2 ^ 64 ->
  0 < newer sA.(session_version) node.(node_version) ->
  exists p A', handleOutgoing (handle_event (Datatypes.S fuel)) message A = Some (0, A') /\
    A'.(output) = A.(output) ++ [SwitchOut p] /\ message_ok p /\ take 12 (content p) = be_split 8 node.(address).(path) ++ [0; 0; 0; 0] /\
  forall q, carried p q ->
  forall messages w', handleDHT data
      {| ip6 := A.(myAddr).(ip6); key := sB.(iface).(herPerminentPubKey); path := Bits_bitReverse64 (label_of q.(buffer) q.(bytes)) |}
      B.(router) = Some (messages, w') ->
  exists d, d.(router) = w' /\ d.(output) = B.(output) /\ same_node B d /\
    sm_ok d.(sm) (<[A.(myAddr).(ip6) := (hB, after_receive sA.(iface).(nextNonce) sB)]> gB) /\
  forall d', send_all (handle_event fuel) messages d = Some (tt, d') ->
    incomingFromSwitch (handle_event (Datatypes.S fuel)) q B = Some (0, finished d').
Proof.
  intros Hcon HA HB Hcur Hm Hlen Hto Hget node data Hnode Hpath Hver.
  pose proof Hcon as [C1 C2 C3 C4 C5 C6 C7 C8 C9 C10]. pose proof HA as [HkA HbA HvA]. pose proof HB as [HkB HbB HvB].
  destruct (handleOutgoing_running fuel A gA message found w hA sA) as (p & A' & E & Okp & Cp & Out & _); fold node; rewrite ?Hto, ?Hnode; try done.
  rewrite Hto in Cp. fold node data in Cp.
  assert (message.(dht_length) = Z.of_nat (List.length data)) as Hn by (unfold data; rewrite length_read; lia). rewrite Hn in Cp.
  exists p, A'. split; [exact E|]. split; [exact Out|]. split; [exact Okp|]. split.
  { rewrite Cp. unfold running_packet. rewrite take_app_length'; [done|]. rewrite length_app, length_be_split. done. }
  intros q Hq messages w' Hdht.
  apply (dht_arrives fuel A B gA gB hA hB sA sB (be_split 8 node.(address).(path) ++ [0; 0; 0; 0]) data p q); try done.
  - rewrite <-Hn. apply Hlen.
  - apply read_ok, Hm.
Qed.
End delivery.
