(* ===== verification/DucttapeExamples.v ===== *)
(** * Examples of packets between nodes

    Three nodes, 1, 2 and 3, with the sessions that they have with each other:
    the hypotheses of the theorems on the data path hold for them. *)
From stdpp Require Import gmap.
From S2P Require Import Prelude Memory Endian Bits Checksum Headers Message NaCl ReplayProtector CryptoAuth Benc Address NodeCollector Map SessionManager DHT Ducttape TUNMessageType IpTunnel DucttapeData DucttapeDelivery DucttapeThrough DucttapeDHT.
Open Scope Z_scope.
#[local] Existing Instance x86.
#[local] Existing Instance bytes_key.
#[export] Instance demo_tun : TunType x86 := tun_Linux.

(** ** The nodes *)

(** A routing table as a list: the way to a node that is not in it is the first
    node's. *)
Definition Table := list Node.
Definition nowhere : Node := {| node_reach := 0; node_version := 0; address := {| ip6 := repeat 0 16; key := repeat 0 32; path := 0 |} |}.

Fixpoint find_node (table : Table) (i : Z) (target : list Z) : option Z :=
  match table with
  | [] => None
  | n :: table => if Bits_memcmp n.(address).(ip6) target =? 0 then Some i else find_node table (i + 1) target
  end.

#[export] Instance demo_router : Router Table := {|
  lookup target := fun t => Some (match find_node t 0 target with Some i => Some i | None => match t with [] => None | _ => Some 0 end end, t);
  getNode path := fun t => Some (None, t);
  node_of t i := nth (Z.to_nat i) t nowhere;
  set_node_version i v t := t;
  beginSearch target := mret [];
  brokenPath label := mret tt;
  handleDHT content addr := mret []
|}.

#[export] Instance demo_surroundings : Surroundings := {|
  seconds := 100000; milliseconds := 100000000; switch_code _ := 0; tun_code _ := 0; print_address l := l;
  stack := scratch; errno_erange := false; stack_version := 3; stack_distance := 0
|}.

#[local] Abbreviation demo_state := (Ducttape (W := Table)).

(** ** Sessions that are running *)
Section opened.
  Context {P : Platform} {Su : Surroundings}.

Definition opened_session (k : Ip6) (w : Wrapper) (send_be version h : Z) : SessionManager_Session :=
  set_iface (set_handle_and_version send_be version (created k None seconds h)) w.

(** A new session for [k], as it is after its handshake. *)
Definition opened (k : Ip6) (w : Wrapper) (send_be version : Z) (sm : SessionManager) : SessionManager :=
  let h := sm.(ifaceMap).(nextHandle) in
  let sm := fst (SessionManager_getSession k None seconds sm) in
  match SessionManager_sessionForHandle h sm with
  | Some i => {| ifaceMap := set_value sm.(ifaceMap) i (opened_session k w send_be version h) |}
  | None => sm
  end.

Lemma opened_ok sm g k w send_be version : sm_ok sm g -> Ip6_valid k -> g !! k = None -> sm.(ifaceMap).(nextHandle) + 1 < 2 ^ 31 ->
  (forall k h s, g !! k = Some (h, s) -> expired seconds s = false) ->
  let h := sm.(ifaceMap).(nextHandle) in
  sm_ok (opened k w send_be version sm) (<[k := (h, opened_session k w send_be version h)]> g).
Proof.
  intros Hok Hk Hg Hn Hlive h. unfold opened. destruct (getSession_ok k None seconds sm g Hok Hk Hn) as (sm' & i & -> & Hok' & _).
  unfold after_get in Hok'. rewrite Hg, live_all in Hok' by done. cbn [fst]. fold h in Hok' |- *.
  destruct (handle_found _ _ k h _ Hok' (lookup_insert_eq _ _ _)) as (j & Hrow & ->).
  destruct (put_ok _ _ _ _ _ _ (opened_session k w send_be version h) Hok' Hrow eq_refl eq_refl) as [H _].
  rewrite insert_insert_eq in H. exact H.
Qed.

Lemma opened_live k w send_be version h : 0 <= seconds < 2 ^ 32 -> SESSION_TIMEOUT_SECONDS <= seconds ->
  expired seconds (opened_session k w send_be version h) = false.
Proof.
  intros Hs Ht. unfold expired, opened_session. cbn. unfold SESSION_TIMEOUT_SECONDS in *. rewrite u32_small, u64_small by lia.
  apply Z.ltb_ge. lia.
Qed.
End opened.

(** ** The nodes *)
Definition demo_key (k : Z) : list Z := repeat k 32.
Definition demo_ip (k : Z) : list Z := 0xFC :: 0xFC :: repeat k 14.
Definition demo_node (k label : Z) : Node :=
  {| node_reach := 1; node_version := 2; address := {| ip6 := demo_ip k; key := demo_key k; path := label |} |}.

Lemma demo_ip_key : map (fun k => fst (AddressCalc_addressForPublicKey (demo_key k))) [1; 2; 3] = map demo_ip [1; 2; 3].
Proof. vm_compute. reflexivity. Qed.

(** The end of a session with node [k], and the handle that the other node gave it. *)
Definition demo_end (k shared nonce : Z) (initiator : bool) : Wrapper :=
  set_isInitiator (set_nextNonce (set_secret (CryptoAuth_wrapInterface 0 0 (Some (demo_key k)) false true seconds) (repeat shared 32)) nonce) initiator.
Definition demo_handle (h : Z) : Z := Endian_hostToBigEndian32 h .| HANDLE_FLAG_BIT_be.

Definition demo_start (k : Z) (table : Table) : demo_state :=
  Ducttape_setUserInterface (Ducttape_register (demo_key k) table (IpTunnel_new (fun _ => zero_connection)) (100 : Z)).

(** A node with sessions with [k] (handle 0) and [l] (handle 1). *)
Definition demo_sm (k l : Z) (w w' : Wrapper) (h h' : Z) : SessionManager :=
  opened (demo_ip l) w' (demo_handle h') 2 (opened (demo_ip k) w (demo_handle h) 2 SessionManager_new).

Definition demo_sessions (k l : Z) (w w' : Wrapper) (h h' : Z) : gmap Ip6 (Z * SessionManager_Session) :=
  <[demo_ip l := (1, opened_session (demo_ip l) w' (demo_handle h') 2 1)]>
    (<[demo_ip k := (0, opened_session (demo_ip k) w (demo_handle h) 2 0)]> ∅).

Lemma demo_sm_ok k l w w' h h' : k <> l ->
  (opened (demo_ip k) w (demo_handle h) 2 SessionManager_new).(ifaceMap).(nextHandle) = 1 ->
  sm_ok (demo_sm k l w w' h h') (demo_sessions k l w w' h h').
Proof.
  intros Hkl Hnext. assert (demo_ip k <> demo_ip l) as Hne by (intros [= E]; done).
  pose proof (opened_ok SessionManager_new ∅ (demo_ip k) w (demo_handle h) 2 new_manager_ok eq_refl (lookup_empty _) ltac:(cbn; lia)
    ltac:(intros ? ? ? Hx; rewrite lookup_empty in Hx; done)) as H1.
  pose proof (opened_ok _ _ (demo_ip l) w' (demo_handle h') 2 H1) as H2. cbv zeta in H2. rewrite Hnext in H2. apply H2; [done| |lia|].
  - rewrite lookup_insert_ne by done. apply lookup_empty.
  - intros k' h0 s. destruct (decide (k' = demo_ip k)) as [->|]; [|rewrite lookup_insert_ne by done; rewrite lookup_empty; done].
    rewrite lookup_insert_eq. intros [= <- <-]. by apply opened_live.
Qed.

Lemma demo_first k l w w' h h' : k <> l ->
  demo_sessions k l w w' h h' !! demo_ip k = Some (0, opened_session (demo_ip k) w (demo_handle h) 2 0).
Proof. intros Hkl. unfold demo_sessions. rewrite lookup_insert_ne by (intros [= E]; done). apply lookup_insert_eq. Qed.
Lemma demo_second k l w w' h h' : demo_sessions k l w w' h h' !! demo_ip l = Some (1, opened_session (demo_ip l) w' (demo_handle h') 2 1).
Proof. apply lookup_insert_eq. Qed.

(** Each node has sessions with the two others. *)
Definition node_1 (table : Table) : demo_state :=
  with_sessions (demo_sm 2 3 (demo_end 2 12 5 true) (demo_end 3 13 7 true) 0 1) (100 : Z) (demo_start 1 table).
Definition node_2 (table : Table) : demo_state :=
  with_sessions (demo_sm 1 3 (demo_end 1 12 6 false) (demo_end 3 23 8 true) 0 0) (100 : Z) (demo_start 2 table).
Definition node_3 (table : Table) : demo_state :=
  with_sessions (demo_sm 2 1 (demo_end 2 23 9 false) (demo_end 1 13 5 false) 1 1) (100 : Z) (demo_start 3 table).

Definition sessions_1 : gmap Ip6 (Z * SessionManager_Session) := demo_sessions 2 3 (demo_end 2 12 5 true) (demo_end 3 13 7 true) 0 1.
Definition sessions_2 : gmap Ip6 (Z * SessionManager_Session) := demo_sessions 1 3 (demo_end 1 12 6 false) (demo_end 3 23 8 true) 0 0.
Definition sessions_3 : gmap Ip6 (Z * SessionManager_Session) := demo_sessions 2 1 (demo_end 2 23 9 false) (demo_end 1 13 5 false) 1 1.

Lemma demo_sessions_ok t : sm_ok (node_1 t).(sm) sessions_1 /\ sm_ok (node_2 t).(sm) sessions_2 /\ sm_ok (node_3 t).(sm) sessions_3.
Proof. split_and!; apply demo_sm_ok; (lia || (vm_compute; reflexivity)). Qed.

Lemma demo_addresses t : (node_1 t).(myAddr).(ip6) = demo_ip 1 /\ (node_2 t).(myAddr).(ip6) = demo_ip 2 /\ (node_3 t).(myAddr).(ip6) = demo_ip 3.
Proof. vm_compute. done. Qed.

Lemma demo_running k (A : demo_state) shared nonce initiator : 5 <= nonce -> 0 <= A.(cryptoAuth).(resetAfterInactivitySeconds) ->
  running A.(cryptoAuth) (demo_end k shared nonce initiator).
Proof. intros Hn Hr. split; [done|exact Hn|]. cbn. rewrite u32_small by lia. exact Hr. Qed.

(** Two of them are connected when the ends and the handles fit. *)
Lemma demo_connected (A B : demo_state) gA gB hA hB a b shared nA nB initiator send_A send_B : 0 <= hB < 2 ^ 31 ->
  sm_ok A.(sm) gA -> sm_ok B.(sm) gB -> A.(myAddr).(ip6) = demo_ip a -> B.(myAddr).(ip6) = demo_ip b ->
  gA !! demo_ip b = Some (hA, opened_session (demo_ip b) (demo_end b shared nA initiator) (demo_handle hB) send_A hA) ->
  gB !! demo_ip a = Some (hB, opened_session (demo_ip a) (demo_end a shared nB (negb initiator)) (demo_handle hA) send_B hB) ->
  5 <= nA < UINT32_MAX -> 5 <= nB < UINT32_MAX -> 0 <= A.(cryptoAuth).(resetAfterInactivitySeconds) ->
  Bits_isZero (of_list (demo_key b)) 0 32 = false -> fst (ReplayProtector_checkNonce nA ReplayProtector_new) = true ->
  connected A B gA gB hA hB (opened_session (demo_ip b) (demo_end b shared nA initiator) (demo_handle hB) send_A hA)
    (opened_session (demo_ip a) (demo_end a shared nB (negb initiator)) (demo_handle hA) send_B hB).
Proof.
  unfold UINT32_MAX. intros HhB HA HB EA EB HgA HgB HnA HnB Hr Hk Hf. split; try done.
  - by rewrite EB.
  - by rewrite EA.
  - split; try done; [by cbn; rewrite negb_involutive|cbn; lia|cbn; lia].
  - by apply demo_running; [lia|].
  - cbn. unfold UINT32_MAX. lia.
Qed.

(** ** Packets *)
Definition demo_header (source destination : list Z) (n hop : Z) : list Z :=
  [0x60; 0; 0; 0] ++ be_split 2 n ++ [99; hop] ++ source ++ destination.

(** A packet of the user's with the mark of its type in front. *)
Definition demo_message (l : list Z) : Message :=
  {| length := 4 + Z.of_nat (List.length l); padding := 600; bytes := 0; buffer := of_list ([0; 0; 0x86; 0xDD] ++ l) |}.
Definition demo_packet (l : list Z) : Message :=
  {| length := Z.of_nat (List.length l); padding := 604; bytes := 4; buffer := of_list ([0; 0; 0x86; 0xDD] ++ l) |}.

Lemma demo_popped l : Z.of_nat (List.length l) < 2 ^ 30 -> load 2 (of_list ([0; 0; 0x86; 0xDD] ++ l)) 2 = Ethernet_TYPE_IP6 ->
  TUNMessageType_pop (demo_message l) = Some (Ethernet_TYPE_IP6, demo_packet l).
Proof.
  intros Hm Ht. cbn [TUNMessageType_pop demo_tun tun_Linux]. unfold TUNMessageType_pop_Linux, demo_message. change (-4) with (- (4)).
  rewrite shift_down by (cbn [length padding]; lia). cbn [mbind option_bind length padding bytes buffer]. change (0 + 4 - 2) with 2. rewrite Ht. unfold demo_packet.
  do 2 f_equal. f_equal; lia.
Qed.

Lemma demo_packet_ok l : Z.of_nat (List.length l) < 2 ^ 30 -> bytes_ok l -> message_ok (demo_packet l) /\ content (demo_packet l) = l.
Proof.
  intros Hm Hb. split.
  - unfold message_ok. cbn. split_and!; try lia. apply of_list_ok. do 4 (constructor; [unfold is_byte; lia|]). exact Hb.
  - unfold content. cbn [demo_packet bytes length buffer]. apply (read_field _ 0 (4 + Z.of_nat (List.length l)) [0; 0; 0x86; 0xDD] l []); [|done|done].
    rewrite app_nil_r. apply read_of_list. rewrite length_app. cbn [List.length]. lia.
Qed.

(** A packet that the switches bring with its header as it was. *)
Lemma carried_itself p l : message_ok p -> take 12 (content p) = l ++ [0; 0; 0; 0] -> List.length l = 8%nat -> carried p p.
Proof.
  intros Hok Ht Hl. pose proof Hok as (Hlen & _). split; [done|]. split.
  - assert (12 <= length p) as Hp.
    { pose proof (content_length p ltac:(lia)) as Hc. assert (List.length (take 12 (content p)) = 12%nat) as H by (rewrite Ht, length_app, Hl; done).
      rewrite length_take in H. lia. }
    assert (read (buffer p) (bytes p + 8) (Z.of_nat 4) = [0; 0; 0; 0]) as E.
    { rewrite content_slice by lia. change (Z.to_nat (Z.of_nat 4)) with 4%nat. change (Z.to_nat 8) with 8%nat.
      replace (take 4 (drop 8 (content p))) with (drop 8 (take 12 (content p))) by (rewrite skipn_firstn_comm; done).
      rewrite Ht, drop_app_length' by done. done. }
    unfold Headers_getMessageType. rewrite (load_read 4 _ (of_list [0; 0; 0; 0]) _ 0) by (unfold SwitchHeader_lowBits_be; rewrite E; reflexivity). vm_compute. done.
  - exists (l ++ [0; 0; 0; 0]). rewrite <-Ht. split; [rewrite Ht, length_app, Hl; done|]. symmetry. apply take_drop.
Qed.

(** ** The theorems at work *)

(** Node 1 sends a packet to node 2, which is in its table. *)
Definition demo_hd : list Z := demo_header (demo_ip 1) (demo_ip 2) 3 64.

Lemma demo_hd_message : load 2 (of_list ([0; 0; 0x86; 0xDD] ++ demo_hd ++ [7; 8; 9])) 2 = Ethernet_TYPE_IP6 /\
  load 2 (of_list ([0; 0; 0x86; 0xDD] ++ demo_header (demo_ip 1) (demo_ip 3) 3 64 ++ [7; 8; 9])) 2 = Ethernet_TYPE_IP6.
Proof. vm_compute. done. Qed.

Lemma demo_user_packet destination : destination = 2 \/ destination = 3 ->
  user_packet (demo_header (demo_ip 1) (demo_ip destination) 3 64) [7; 8; 9] (demo_ip 1) (demo_ip destination).
Proof. intros [-> | ->]; (split; [done|done|done|done|done|split; vm_compute; done|done|intros [H _]; discriminate H]). Qed.

Lemma demo_contexts t : 0 <= (node_1 t).(cryptoAuth).(resetAfterInactivitySeconds) /\ 0 <= (node_2 t).(cryptoAuth).(resetAfterInactivitySeconds) /\
  0 <= (node_3 t).(cryptoAuth).(resetAfterInactivitySeconds).
Proof. vm_compute. split_and!; discriminate. Qed.

Definition table_1 : Table := [demo_node 2 0x13].
Definition table_2 : Table := [demo_node 3 0x99; demo_node 1 0x15].

Lemma demo_1_2 t t' : connected (node_1 t) (node_2 t') sessions_1 sessions_2 0 0
  (opened_session (demo_ip 2) (demo_end 2 12 5 true) (demo_handle 0) 2 0) (opened_session (demo_ip 1) (demo_end 1 12 6 (negb true)) (demo_handle 0) 2 0).
Proof.
  destruct (demo_sessions_ok t) as (S1 & _ & _), (demo_sessions_ok t') as (_ & S2 & _).
  destruct (demo_addresses t) as (A1 & _ & _), (demo_addresses t') as (_ & A2 & _).
  by apply demo_connected.
Qed.

(** The user of node 1 sends a packet to node 2. *)
Lemma Ducttape_delivers_packet_witness : exists p A' t B' t',
  incomingFromTun (handle_event 1) (demo_message (demo_hd ++ [7; 8; 9])) (node_1 table_1) = Some (0, A') /\
  A'.(output) = [SwitchOut p] /\ take 12 (content p) = [0; 0; 0; 0; 0; 0; 0; 0x13; 0; 0; 0; 0] /\
  incomingFromSwitch (handle_event 1) p (node_2 table_2) = Some (0, B') /\ B'.(output) = [TunOut t] /\
  TUNMessageType_pop t = Some (Ethernet_TYPE_IP6, t') /\ content t' = demo_hd ++ [7; 8; 9].
Proof.
  destruct (demo_addresses table_1) as (A1 & _ & _), (demo_addresses table_2) as (_ & A2 & _).
  destruct (demo_packet_ok (demo_hd ++ [7; 8; 9])) as [Hok Hc]; [done|by apply bytes_ok_check|].
  destruct (Ducttape_delivers_packet 0 (node_1 table_1) (node_2 table_2) sessions_1 sessions_2 0 0 _ _ table_1 0
    (demo_message (demo_hd ++ [7; 8; 9])) (demo_packet (demo_hd ++ [7; 8; 9])) demo_hd [7; 8; 9] (demo_1_2 _ _)) as (p & A' & E & Out & Okp & Hd & Hgo);
    rewrite ?A1, ?A2; [done|done|done|done|by apply demo_user_packet; left|apply demo_popped; [done|apply demo_hd_message]
    |exact Hok|done|exact Hc|vm_compute; reflexivity|done|done|done|].
  destruct (Hgo p (carried_itself p _ Okp Hd eq_refl)) as (t & B' & E2 & Out2 & t' & Et & Ct).
  exists p, A', t, B', t'. split; [exact E|]. split; [exact Out|]. split; [exact Hd|]. split; [exact E2|]. split; [exact Out2|]. split; [exact Et|exact Ct].
Defined.

Lemma demo_2_3 t t' : connected (node_2 t) (node_3 t') sessions_2 sessions_3 1 0
  (opened_session (demo_ip 3) (demo_end 3 23 8 true) (demo_handle 0) 2 1) (opened_session (demo_ip 2) (demo_end 2 23 9 (negb true)) (demo_handle 1) 2 0).
Proof.
  destruct (demo_sessions_ok t) as (_ & S2 & _), (demo_sessions_ok t') as (_ & _ & S3).
  destruct (demo_addresses t) as (_ & A2 & _), (demo_addresses t') as (_ & _ & A3).
  by apply demo_connected.
Qed.

(** The user of node 1 sends a packet to node 3; the table of node 1 has only
    node 2. *)
Definition demo_far : list Z := demo_header (demo_ip 1) (demo_ip 3) 3 64.
Definition table_3 : Table := [demo_node 2 0x13].

Lemma Ducttape_delivers_through_witness : exists p A' p' C' t B' t',
  incomingFromTun (handle_event 2) (demo_message (demo_far ++ [7; 8; 9])) (node_1 table_1) = Some (0, A') /\ A'.(output) = [SwitchOut p] /\
  incomingFromSwitch (handle_event 2) p (node_2 table_2) = Some (0, C') /\ C'.(output) = [SwitchOut p'] /\
  incomingFromSwitch (handle_event 2) p' (node_3 table_3) = Some (0, B') /\ B'.(output) = [TunOut t] /\
  TUNMessageType_pop t = Some (Ethernet_TYPE_IP6, t') /\ content t' = demo_header (demo_ip 1) (demo_ip 3) 3 62 ++ [7; 8; 9].
Proof.
  destruct (demo_addresses table_1) as (A1 & _ & _), (demo_addresses table_2) as (_ & A2 & _), (demo_addresses table_3) as (_ & _ & A3).
  destruct (demo_packet_ok (demo_far ++ [7; 8; 9])) as [Hok Hc]; [done|by apply bytes_ok_check|].
  destruct (Ducttape_delivers_through 0 (node_1 table_1) (node_2 table_2) (node_3 table_3) sessions_1 sessions_2 sessions_3 0 _ 0 _ 1 _ 0 _
    1 (opened_session (demo_ip 3) (demo_end 3 13 7 true) (demo_handle 1) 2 1) 1 (opened_session (demo_ip 1) (demo_end 1 13 5 false) (demo_handle 1) 2 1)
    table_1 0 table_2 0 (demo_message (demo_far ++ [7; 8; 9])) (demo_packet (demo_far ++ [7; 8; 9])) demo_far [7; 8; 9] (demo_1_2 _ _) (demo_2_3 _ _))
    as (p & A' & E1 & O1 & K1 & D1 & Hgo);
    rewrite ?A1, ?A2, ?A3; [apply demo_second|apply demo_second|split; done|split; done|done|done|done|done|done|done|done|done|done|done
    |by apply demo_user_packet; right|done|done|apply demo_popped; [done|apply demo_hd_message]|exact Hok|done|exact Hc
    |vm_compute; reflexivity|done|done|done|vm_compute; reflexivity|done|done|done|].
  destruct (Hgo p (carried_itself p _ K1 D1 eq_refl)) as (p' & C' & E2 & O2 & K2 & D2 & Hgo').
  assert (take 4 (drop 8 (content p)) = [0; 0; 0; 0]) as E0.
  { replace (take 4 (drop 8 (content p))) with (drop 8 (take 12 (content p))) by (rewrite skipn_firstn_comm; done). rewrite D1. done. }
  rewrite E0 in D2. destruct (Hgo' p' (carried_itself p' _ K2 D2 eq_refl)) as (t & B' & E3 & O3 & t' & Et & Ct).
  exists p, A', p', C', t, B', t'. split; [exact E1|]. split; [exact O1|]. split; [exact E2|]. split; [exact O2|]. split; [exact E3|].
  split; [exact O3|]. split; [exact Et|exact Ct].
Defined.

(** A packet as the switch brings it. *)
Definition demo_arrived (l : list Z) : Message :=
  {| length := Z.of_nat (List.length l); padding := 600; bytes := 0; buffer := of_list l |}.

Lemma demo_arrived_ok l : Z.of_nat (List.length l) < 2 ^ 30 -> bytes_ok l -> message_ok (demo_arrived l) /\ content (demo_arrived l) = l.
Proof.
  intros Hm Hb. split.
  - unfold message_ok. cbn. split_and!; try lia. by apply of_list_ok.
  - unfold content. cbn. by apply read_of_list.
Qed.

Definition demo_hop (hop : Z) : list Z := demo_header (demo_ip 1) (demo_ip 3) 3 hop.
Definition demo_sealed (hd : list Z) : list Z :=
  running_packet [0; 0; 0; 0; 0; 0; 0; 0x13; 0; 0; 0; 0] (demo_handle 0) (demo_end 2 12 5 true) (hd ++ [7; 8; 9]).

Lemma demo_sealed_carried hd : forallb (fun b => (0 <=? b) && (b <? 256)) (demo_sealed hd) = true -> Z.of_nat (List.length (demo_sealed hd)) < 2 ^ 30 ->
  carried (demo_arrived (demo_sealed hd)) (demo_arrived (demo_sealed hd)) /\ content (demo_arrived (demo_sealed hd)) = demo_sealed hd.
Proof.
  intros Hb Hl. destruct (demo_arrived_ok (demo_sealed hd) Hl) as [Hok Hc]; [by apply bytes_ok_check|]. split; [|exact Hc].
  apply (carried_itself _ [0; 0; 0; 0; 0; 0; 0; 0x13] Hok); [|done]. rewrite Hc. unfold demo_sealed. by apply labelled.
Qed.

(** Node 2 passes a packet of node 1 on to node 3, and drops one whose hop limit
    is used up. *)
Lemma Ducttape_passes_on_witness : exists p' C' C'',
  incomingFromSwitch (handle_event 2) (demo_arrived (demo_sealed (demo_hop 64))) (node_2 table_2) = Some (0, C') /\
  C'.(output) = [SwitchOut p'] /\
  content p' = running_packet [0; 0; 0; 0; 0; 0; 0; 0x99; 0; 0; 0; 0] (demo_handle 0) (demo_end 3 23 8 true) (demo_hop 63 ++ [7; 8; 9]) /\
  incomingFromSwitch (handle_event 2) (demo_arrived (demo_sealed (demo_hop 0))) (node_2 table_2) = Some (0, C'') /\ C''.(output) = [].
Proof.
  destruct (demo_addresses table_1) as (A1 & _ & _), (demo_addresses table_2) as (_ & A2 & _).
  assert (AddressCalc_validAddress (demo_ip 1) = true /\ AddressCalc_validAddress (demo_ip 3) = true) as [V1 V3] by (vm_compute; done).
  destruct (demo_sealed_carried (demo_hop 64)) as [K C]; [vm_compute; reflexivity..|].
  destruct (demo_sealed_carried (demo_hop 0)) as [K0 C0]; [vm_compute; reflexivity..|].
  destruct (Ducttape_passes_on 0 (node_1 table_1) (node_2 table_2) sessions_1 sessions_2 0 0 _ _ [0; 0; 0; 0; 0; 0; 0; 0x13; 0; 0; 0; 0]
    (demo_hop 64) [7; 8; 9] _ _ table_2 (demo_1_2 _ _) eq_refl C K) as [_ Hgo]; [done|by rewrite A2|done|exact V1|exact V3|by rewrite A2|].
  destruct (Ducttape_passes_on 0 (node_1 table_1) (node_2 table_2) sessions_1 sessions_2 0 0 _ _ [0; 0; 0; 0; 0; 0; 0; 0x13; 0; 0; 0; 0]
    (demo_hop 0) [7; 8; 9] _ _ table_2 (demo_1_2 _ _) eq_refl C0 K0) as [Hdrop _]; [done|by rewrite A2|done|exact V1|exact V3|by rewrite A2|].
  destruct (Hdrop (or_introl eq_refl)) as (C'' & E'' & O'').
  destruct (Hgo 0 1 (opened_session (demo_ip 3) (demo_end 3 23 8 true) (demo_handle 0) 2 1)) as (p' & C' & E' & O' & _ & Cp);
    [done|vm_compute; reflexivity|apply demo_second|done|by rewrite A1|done|split; done|done|done|split; [discriminate|reflexivity]|].
  exists p', C', C''. split; [exact E'|]. split; [exact O'|]. split; [|exact (conj E'' O'')]. rewrite Cp, C.
  assert (take 4 (drop 8 (demo_sealed (demo_hop 64))) = [0; 0; 0; 0]) as -> by (vm_compute; reflexivity).
  assert (lower_hop (demo_hop 64) = demo_hop 63) as -> by (vm_compute; reflexivity). reflexivity.
Defined.

(** The DHT of node 1 sends a message to node 2. *)
Definition demo_dht : DHTMessage :=
  {| dht_address := {| ip6 := demo_ip 2; key := demo_key 2; path := 0x13 |}; dht_bytes := of_list (chars "d1:q2:pne"); dht_length := 9;
     asDict := None; replyTo := None |}.

Lemma demo_addressed t : addressed (node_1 t) /\ addressed (node_2 t).
Proof.
  destruct (demo_addresses t) as (A1 & A2 & _).
  split; (split; [by rewrite ?A1, ?A2|rewrite ?A1, ?A2; by apply bytes_ok_check|rewrite ?A1, ?A2; vm_compute; reflexivity]).
Qed.

Lemma Ducttape_delivers_dht_witness : exists p A' B',
  handleOutgoing (handle_event 1) demo_dht (node_1 table_1) = Some (0, A') /\ A'.(output) = [SwitchOut p] /\
  incomingFromSwitch (handle_event 1) p (node_2 table_2) = Some (0, B') /\ B'.(output) = [].
Proof.
  destruct (demo_addresses table_1) as (A1 & _ & _), (demo_addresses table_2) as (_ & A2 & _).
  destruct (Ducttape_delivers_dht 0 (node_1 table_1) (node_2 table_2) sessions_1 sessions_2 0 0 _ _ demo_dht None table_1 (demo_1_2 _ _)
    (proj1 (demo_addressed _)) (proj2 (demo_addressed _))) as (p & A' & E & Out & Okp & Hd & Hgo);
    [done|apply of_list_ok; by apply bytes_ok_check|split; [discriminate|by unfold DHTMessage_MAX_SIZE]|by rewrite A2|done|by rewrite A2
    |split; [discriminate|reflexivity]|done|].
  destruct (Hgo p (carried_itself p _ Okp Hd eq_refl) [] table_2 eq_refl) as (d & _ & Od & _ & _ & Hlast).
  exists p, A', (finished d). split; [exact E|]. split; [exact Out|]. split; [exact (Hlast d eq_refl)|exact Od].
Defined.
