(* ===== verification/DucttapeDefects.v ===== *)
(** * What goes wrong in Ducttape (net/Ducttape.c)

    The next hop that is found for the user's packet is used for somebody else's;
    any node can send packets under any address; and a letter to oneself comes
    back without the mark that a device's packets have. *)
From stdpp Require Import gmap.
From S2P Require Import Prelude Memory Endian Bits Checksum Headers Message NaCl ReplayProtector CryptoAuth Benc Address NodeCollector Map SessionManager DHT Ducttape TUNMessageType IpTunnel DucttapeData DucttapeDelivery DucttapeThrough DucttapeDHT DucttapeExamples.
Open Scope Z_scope.

Section defects.
  Context {P : Platform} {N : NaCl} {L : NaClLaws N} {T : TunType P} {TL : TunTypeLaws P T} {R : RandomSource} {RL : RandomLaws R}
    {W : Type} {Rt : Router W} {Su : Surroundings}.
  #[local] Existing Instance bytes_key.

#[local] Abbreviation sessions := (gmap Ip6 (Z * SessionManager_Session)).
#[local] Abbreviation state := (Ducttape (W := W)).

(** C9: a packet that the user of a node sends to a node in the table leaves the
    next hop behind: the next packet that the node passes on for another goes to
    that node, wherever it is for and whatever the table has for it. *)
Theorem Ducttape_stale_next_hop fuel A C gA gC hA hC sA sC w n h s msg m0 hd0 payload0 hdr hd payload p q :
  connected A C gA gC hA hC sA sC ->
  Ip6_valid C.(myAddr).(ip6) -> C.(current).(currentSessionVersion) = 0 ->
  (* the user's packet, for node [n] *)
  let node := node_of w n in
  user_packet hd0 payload0 C.(myAddr).(ip6) node.(address).(ip6) -> Ip6_valid node.(address).(ip6) ->
  TUNMessageType_pop msg = Some (Ethernet_TYPE_IP6, m0) -> message_ok m0 -> 36 <= padding m0 -> content m0 = hd0 ++ payload0 ->
  lookup node.(address).(ip6) C.(router) = Some (Some n, w) ->
  gC !! node.(address).(ip6) = Some (h, s) -> node.(address).(ip6) <> A.(myAddr).(ip6) ->
  Bits_isZero (of_list s.(iface).(herPerminentPubKey)) 0 32 = false -> running C.(cryptoAuth) s.(iface) ->
  s.(iface).(nextNonce) + 1 < UINT32_MAX -> 0 < newer s.(session_version) node.(node_version) -> 0 <= node.(address).(path) < 2 ^ 64 ->
  (forall v, (node_of (set_node_version n v w) n).(address) = node.(address)) ->
  (* the packet of [A], for any other *)
  List.length hdr = 12%nat -> content p = running_packet hdr sA.(sendHandle_be) sA.(iface) (hd ++ payload) -> carried p q ->
  List.length hd = 40%nat -> AddressCalc_validAddress (source_of hd) = true -> AddressCalc_validAddress (destination_of hd) = true ->
  destination_of hd <> C.(myAddr).(ip6) -> nth 7 hd 0 <> 0 ->
  let handle := handle_event (Datatypes.S (Datatypes.S fuel)) in
  exists p1 C1 p2 C2, incomingFromTun handle msg C = Some (switch_code p1, C1) /\ C1.(output) = C.(output) ++ [SwitchOut p1] /\
    incomingFromSwitch handle q C1 = Some (0, C2) /\ C2.(output) = C1.(output) ++ [SwitchOut p2] /\
    take 8 (content p2) = be_split 8 node.(address).(path).
Proof.
  intros Hcon HkC Hcur node Hup Hkn Hpop Hm0 Hpad Hc0 Hlook HgC Hne Hkey Hrun Hmax Hver Hpath Hset Hlh Cp Hq Hhd Hvs Hvd Hdst Hhop handle.
  unfold handle. rewrite (incomingFromTun_known _ C _ w n msg m0 hd0 payload0 HkC Hkn Hup Hpop Hm0 Hc0 Hlook Hkn), bool_decide_eq_true_2 by done.
  set (d := with_current (set_forwardTo (Some n)) _). destruct Hcon as [D1 D2 D3 D4 D5 D6 D7 D8 D9 D10].
  pose proof (sendToRouter_running (Datatypes.S fuel) d gC (InStore n) m0 h s) as Hs. cbv zeta in Hs.
  change (node_value d (InStore n)) with node in Hs.
  destruct Hs as (p1 & C1 & E1 & _ & _ & O1 & S1 & R1 & (T1 & T2 & T3 & T4) & F1 & V1); try done; try lia.
  change (myAddr d) with (myAddr C) in T3. change (cryptoAuth d) with (cryptoAuth C) in T2.
  set (k := node.(address).(ip6)) in *. set (v := newer _ _) in *. set (s1 := after_send _ _ s) in *.
  assert (s1.(iface) = set_nextNonce s.(iface) (s.(iface).(nextNonce) + 1)) as Es1.
  { unfold s1, after_send. cbv zeta. rewrite (touched_iface _ _ _ Hkey). done. }
  assert (session_version s1 = v) as Ev1 by (unfold s1, after_send; cbv zeta; rewrite (touched_iface _ _ _ Hkey); done).
  assert ((node_of C1.(router) n).(address) = node.(address)) as Ea by (rewrite R1; apply Hset).
  assert (connected A C1 gA (<[k := (h, s1)]> gC) hA hC sA sC) as Hcon1.
  { split; try done; [by rewrite T3|]. rewrite lookup_insert_ne by done. done. }
  destruct (passes_on fuel A C1 gA (<[k := (h, s1)]> gC) hA hC sA sC hdr hd payload p q (C1.(router)) n h s1 Hcon1 Hlh Cp Hq)
    as (p2 & C2 & E2 & O2 & _ & Cp2); rewrite ?T3, ?T2, ?V1, ?Ea, ?Es1; try done.
  - unfold next_hop. rewrite F1. done.
  - apply lookup_insert_eq.
  - destruct Hrun as [H1 H2 H3]. split; cbn; done || lia.
  - rewrite Ev1. unfold newer at 1. case_match; lia.
  - exists p1, C1, p2, C2. split; [exact E1|]. split; [exact O1|]. split; [exact E2|]. split; [exact O2|].
    rewrite Cp2, Ea. unfold running_packet. rewrite <-app_assoc, take_app_length'; [done|rewrite length_be_split; done].
Qed.

(** A packet that the user sends to the node itself comes back from it as it
    went in but without the mark of its type: the device reads the mark from the
    packet. *)
Theorem Ducttape_letter_unmarked handle (d : state) msg m0 hd payload :
  Ip6_valid d.(myAddr).(ip6) -> AddressCalc_validAddress d.(myAddr).(ip6) = true ->
  TUNMessageType_pop msg = Some (Ethernet_TYPE_IP6, m0) -> 0 <= length m0 -> content m0 = hd ++ payload -> List.length hd = 40%nat ->
  nth 0 hd 0 >> 4 = 6 -> source_of hd = d.(myAddr).(ip6) -> destination_of hd = d.(myAddr).(ip6) ->
  incomingFromTun handle msg d = Some (Error_NONE, with_output (TunOut m0) d).
Proof.
  intros HkA Hval Hpop Hl Hc Hlh Hv Hs Hd. destruct (packet_fields m0 hd payload Hl Hc Hlh) as (_ & F1 & F2 & F3).
  assert (Headers_getIpVersion (buffer m0) (bytes m0) = 6) as Hv6.
  { unfold Headers_getIpVersion. rewrite <-(Z.add_0_r (bytes m0)), F3 by lia. change (Z.to_nat 0) with 0%nat. rewrite Z.shiftr_land, Hv. reflexivity. }
  destruct ethernet_types as (Ht46 & _). unfold incomingFromTun. rewrite Hpop. run. rewrite Hv6, F1, F2, Hs, Hd, Hval.
  rewrite (proj2 (Z.eqb_neq Ethernet_TYPE_IP6 Ethernet_TYPE_IP4)) by congruence. rewrite !Z.eqb_refl. cbn [andb orb negb].
  rewrite !memcmp_same by done. rewrite !bool_decide_eq_true_2 by done. cbn [negb]. run. done.
Qed.

(** *** Any source

    A session that is new: the manager makes it, in a row of its own. *)
Lemma run_getSession_new (d : state) g k ck : sm_ok d.(sm) g -> Ip6_valid k -> g !! k = None ->
  d.(sm).(ifaceMap).(nextHandle) + 1 < 2 ^ 31 ->
  exists sm' i g' h, getSession k ck d = Some (i, with_sessions sm' d.(rng) d) /\
    holds (with_sessions sm' d.(rng) d) g' k h (created k ck seconds h) i.
Proof.
  intros Hok Hk Hg Hn. destruct (getSession_ok k ck seconds d.(sm) g Hok Hk Hn) as (sm' & i & E & Hok' & Hi & Hg' & _).
  set (g' := after_get _ _ _ _ _) in *. set (h := handles (ifaceMap sm') i) in *. exists sm', i, g', h.
  split. { unfold getSession. run. rewrite E. done. }
  assert (values (ifaceMap sm') i = created k ck seconds h) as Ev.
  { pose proof Hg' as E'. unfold g', after_get in E'. rewrite Hg, lookup_insert_eq in E'. injection E' as Eh <-. rewrite Eh. done. }
  rewrite Ev in Hg'. split; [exact Hok'|]. split; [exact Hg'|]. split; [exact Hi|].
  destruct (rep_all _ _ (sm_rep _ _ Hok') _ _ _ Hg') as (j & Hj & Ek & Eh & _).
  rewrite (handles_inj _ _ _ _ (sm_rep _ _ Hok') Hj Hi Eh) in Ek. split; [exact Ek|]. split; [done|]. exact Ev.
Qed.

(** The handle in front of the first content of a session. *)
Lemma takeHandle_some (d : state) g k h s i msg handle_be payload :
  holds d g k h s i -> d.(current).(session) = Managed i -> message_ok msg ->
  content msg = handle_be ++ payload -> List.length handle_be = 4%nat ->
  exists msg' s', takeHandle msg true d = Some (msg', put_session_at i s' d) /\
    holds (put_session_at i s' d) (<[k := (h, s')]> g) k h s' i /\ s'.(iface) = s.(iface) /\ s'.(session_ip6) = s.(session_ip6) /\
    message_ok msg' /\ content msg' = payload /\ length msg' = length msg - 4 /\ padding msg' = padding msg + 4 /\
    bytes msg' = bytes msg + 4 /\ buffer msg' = buffer msg.
Proof.
  intros Hh Hses (Hl & Hp & Ht & Hm) Hc Hlh.
  pose proof (content_length msg ltac:(lia)) as Hcl. rewrite Hc, length_app, Hlh in Hcl.
  unfold takeHandle. rewrite (proj2 (Z.leb_le 4 (length msg))) by lia. cbn [andb]. unfold Message_pop.
  change (-4) with (- (4)). rewrite shift_down by lia. cbn [mbind option_bind]. run.
  run_by (run_session d i s Hses (row_value _ _ _ _ _ (proj2 (proj2 Hh)))).
  set (s' := set_handle_and_version _ _ s). run_by (run_put d i s' Hses). run. eexists _, s'. split; [reflexivity|].
  split; [exact (holds_put d g k h s i s' d.(rng) Hh eq_refl eq_refl)|]. do 2 (split; [done|]).
  cbn [length padding bytes buffer]. split; [unfold message_ok; cbn; split_and!; done || lia|]. split; [|done].
  unfold content in Hc. rewrite (read_split _ _ _ 4) in Hc by lia.
  apply app_inj_1 in Hc as [_ Hc]; [exact Hc|]. rewrite length_read, Hlh. done.
Qed.

(** A hello that comes in for a session that is new: it becomes the session of
    the key in the hello. *)
Lemma call_receive_hello handle (d : state) g k h s i q flag nonce pub tpub plain :
  holds d g k h s i -> plain_wrapper s.(iface) -> s.(iface).(nextNonce) = 0 -> message_ok q -> 16 <= padding q ->
  List.length tpub = 32%nat ->
  hs_packet q 0 flag nonce pub (seal nonce (crypto_box_beforenm pub d.(cryptoAuth).(privateKey)) (tpub ++ plain)) ->
  let s' := set_iface s (CryptoAuth.after_receive seconds s.(iface) 0 flag pub tpub) in
  let d' := with_sessions {| ifaceMap := set_value d.(sm).(ifaceMap) i s' |} d.(rng) d in
  exists dm, call_session handle receiveMessage i q d = handle (Deliver dm) d' /\ message_ok dm /\
    length dm = length q - 120 /\ padding dm = padding q + 120 /\ bytes dm = bytes q + 120 /\ content dm = plain /\
    (forall x, x < bytes q + 72 -> buffer dm x = buffer q x) /\
    holds d' (<[k := (h, s')]> g) k h s' i.
Proof.
  intros Hh Hw Hn Hok Hpad Htp Hs s' d'. pose proof Hh as (_ & _ & Hrow).
  destruct (receive_handshake d.(cryptoAuth) seconds s.(iface) q d.(rng) 0 flag nonce pub tpub plain Hw Hok Hpad Htp
    (or_introl (conj Hn eq_refl)) Hs) as (dm & E & Cd & Od & Ld & Pd & Bd & Fd). exists dm.
  rewrite <-(row_value _ _ _ _ _ Hrow) in E. rewrite (call_once _ _ _ _ _ _ _ _ E), (row_value _ _ _ _ _ Hrow).
  split; [reflexivity|]. do 6 (split; [done|]). apply (holds_put d g k h s i _ d.(rng)); done.
Qed.

(** What a node does with such a hello behind the header of a packet for it. *)
Lemma core_hello fuel (d : state) msg hd flag nonce pub tpub handle_be payload h0 i sO g :
  d.(current).(session) = Managed i -> session_at d i = sO -> d.(userIf) = true ->
  message_ok msg -> content msg = hd ++ content h0 -> 0 <= length h0 -> List.length hd = 40%nat ->
  hs_packet h0 0 flag nonce pub (seal nonce (crypto_box_beforenm pub d.(cryptoAuth).(privateKey)) (tpub ++ handle_be ++ payload)) ->
  List.length tpub = 32%nat -> List.length handle_be = 4%nat -> payload <> [] -> nth 0 hd 0 >> 4 = 6 ->
  List.length sO.(session_ip6) = 16%nat -> source_of hd <> sO.(session_ip6) -> Ip6_valid (source_of hd) ->
  List.length d.(myAddr).(ip6) = 16%nat -> destination_of hd = d.(myAddr).(ip6) -> ~ router_traffic hd ->
  sm_ok d.(sm) g -> g !! source_of hd = None -> d.(sm).(ifaceMap).(nextHandle) + 1 < 2 ^ 31 ->
  exists t d', core (handle_event (Datatypes.S fuel)) msg d = Some (Error_NONE, d') /\ d'.(output) = d.(output) ++ [TunOut t] /\
    (exists t', TUNMessageType_pop t = Some (Ethernet_TYPE_IP6, t') /\ content t' = shorter 124 (limited hd) ++ payload) /\
    exists g' h s, sm_ok d'.(sm) g' /\ g' !! source_of hd = Some (h, s) /\ CryptoAuth_getHerPublicKey s.(iface) = pub.
Proof.
  intros Hses HsO Hu Hok Hc Hl0 Hlh Hs Htp Hlb Hpl Hv HlO Hsrc Hks Hmy Hdst Hnr Hsm Hg Hn. pose proof Hok as (Hl & Hp & Ht & Hm).
  destruct (packet_fields msg hd _ ltac:(lia) Hc Hlh) as (El & F1 & F2 & F3). rewrite content_length in El by done.
  pose proof (hs_length _ _ _ _ _ _ Hs) as Hhl. rewrite seal_length, !length_app, Htp, Hlb in Hhl.
  unfold core. run. set (d1 := with_current _ d). unfold isForMe. rewrite F2, Hdst, memcmp_same, bool_decide_eq_true_2 by done.
  unfold Headers_IP6Header_SIZE. change (-40) with (- (40)). rewrite shift_down by lia. run. cbn [buffer bytes].
  run_by (run_session d1 i sO Hses HsO).
  assert (List.length (source_of hd) = 16%nat) as Hls by (rewrite <-F1, length_read; done).
  rewrite F1, memcmp_same, bool_decide_eq_false_2 by congruence. cbn [negb].
  destruct (run_getSession_new d1 g (source_of hd) None Hsm Hks Hg Hn) as (sm' & k & g1 & h & Eg & H1). run_by Eg. clear Eg. run.
  set (s1 := created _ _ _ h) in *. set (d2 := with_sessions _ _ d1) in *.
  set (q := {| length := length msg - 40; padding := _; bytes := _; buffer := _ |}).
  assert (transmit h0 q) as Htr.
  { split; [|split; [unfold message_ok; cbn; split_and!; done || lia|cbn; lia]].
    unfold content in Hc. rewrite (read_split _ _ _ 40) in Hc by lia. apply app_inj_1 in Hc as [_ Hc]; [exact Hc|rewrite length_read, Hlh; done]. }
  pose proof (hs_transmit h0 q _ _ _ _ _ Hl0 Htr Hs) as Hq. destruct Htr as (_ & Hokq & Hpq).
  assert (Endian_bigEndianToHost32 (load 4 (buffer msg) (bytes msg + 40)) = 0) as ->.
  { apply load_be_split; [lia|done|]. pose proof (hs_stage _ _ _ _ _ _ Hq) as E. rewrite Z.add_0_r in E. exact E. }
  change (0 <=? 3) with true. set (d3 := with_current (set_layer INNER) _).
  destruct (call_receive_hello (handle_event (Datatypes.S fuel)) d3 g1 (source_of hd) h s1 k q flag nonce pub tpub (handle_be ++ payload) H1
    ltac:(done) eq_refl Hokq Hpq Htp Hq) as (dm & -> & P1 & P2 & P3 & P4 & P5 & P6 & H4).
  set (s4 := set_iface s1 _) in *. set (d4 := with_sessions _ _ d3) in *. cbn [q length padding bytes buffer] in *.
  cbn [handle_event]. unfold incomingFromCryptoAuth. run. change (layer (current d4)) with INNER. cbv iota.
  set (d5 := with_current (set_layer INVALID) d4). change (initMessage (current d4)) with true.
  unfold getHerPublicKey. run. run_by (run_session d5 k s4 eq_refl (row_value _ _ _ _ _ (proj2 (proj2 H4)))). run.
  destruct (takeHandle_some d5 _ (source_of hd) h s4 k dm handle_be payload H4 eq_refl P1 P5 Hlb)
    as (dn & s5 & Et & H5 & I5 & J5 & N1 & N2 & N3 & N4 & N5 & N6). rewrite insert_insert_eq in H5.
  rewrite (incomingForMe_handle _ d5 _ dm dn _ Et).
  assert (read (buffer dn) (bytes msg) 40 = hd) as Eh.
  { rewrite N6. rewrite (read_ext _ (buffer msg) _ (bytes msg)) by (intros j Hj; apply P6; lia).
    unfold content in Hc. rewrite (read_split _ _ _ 40) in Hc by lia. apply app_inj_1 in Hc as [Hc _]; [exact Hc|rewrite length_read, Hlh; done]. }
  assert (0 < List.length payload)%nat by (destruct payload; [done|cbn; lia]).
  destruct (incomingForMe_tun (handle_event fuel) (put_session_at k s5 d5) dn (CryptoAuth_getHerPublicKey (iface s4)) (bytes msg) 124 hd k s5)
    as (t & E & t' & E1 & E2); try done.
  - exact (row_value _ _ _ _ _ (proj2 (proj2 H5))).
  - lia.
  - lia.
  - lia.
  - exists t. eexists. split; [exact E|]. split; [done|]. split; [exists t'; rewrite E2, N2; done|].
    eexists _, h, s5. split; [apply H5|]. split; [apply lookup_insert_eq|]. rewrite I5. reflexivity.
Qed.

(** C10: any source. A node with any keys that has the key of [C] starts a
    session with [C], and its first packet comes to [C] over a node [A], in
    [A]'s session, behind a header with any source: as long as that is an
    address that is valid, is not [A]'s own and has no session in [C], the user
    of [C] gets the content as a packet of that source, and [C] has a session for
    that source from then on, with the sender's key. Nowhere is it asked if the
    address is the one that belongs to the key. *)
Theorem Ducttape_accepts_any_source fuel A C gA gC hA hC sA sC ctxL now w r m handle_be payload hdr hd :
  connected A C gA gC hA hC sA sC -> C.(current).(currentSessionVersion) = 0 -> C.(userIf) = true ->
  Ip6_valid C.(myAddr).(ip6) -> Ip6_valid A.(myAddr).(ip6) -> C.(sm).(ifaceMap).(nextHandle) + 1 < 2 ^ 31 ->
  (* the sender: its keys, and a new session for the key of [C] *)
  keys_ok ctxL -> keys_ok C.(cryptoAuth) -> live ctxL now w -> plain_wrapper w -> w.(nextNonce) = 0 ->
  w.(herPerminentPubKey) = C.(cryptoAuth).(publicKey) -> knowHerKey w = true ->
  message_ok m -> 120 <= padding m -> content m = handle_be ++ payload -> List.length handle_be = 4%nat -> payload <> [] ->
  (* the header *)
  List.length hd = 40%nat -> nth 0 hd 0 >> 4 = 6 -> ~ router_traffic hd -> destination_of hd = C.(myAddr).(ip6) ->
  AddressCalc_validAddress (source_of hd) = true -> AddressCalc_validAddress (destination_of hd) = true ->
  source_of hd <> A.(myAddr).(ip6) -> gC !! source_of hd = None -> List.length hdr = 12%nat ->
  exists h w' r', sendMessage ctxL now m w r = Some (w', r', [SendWrapped h], FromCallee) /\
  forall p q, content p = running_packet hdr sA.(sendHandle_be) sA.(iface) (hd ++ content h) -> carried p q ->
  exists t C', incomingFromSwitch (handle_event (Datatypes.S (Datatypes.S fuel))) q C = Some (0, C') /\
    C'.(output) = C.(output) ++ [TunOut t] /\
    (exists t', TUNMessageType_pop t = Some (Ethernet_TYPE_IP6, t') /\ content t' = shorter 124 (limited hd) ++ payload) /\
    exists g' hs s, sm_ok C'.(sm) g' /\ g' !! source_of hd = Some (hs, s) /\
      CryptoAuth_getHerPublicKey s.(iface) = ctxL.(publicKey).
Proof.
  intros Hcon Hcur Hu HkC HkA Hn KL KC Hlive Hw Hw0 Hher Hknow Hm Hpad Cm Hlb Hpl Hlh Hv Hnr Hdst Hvs Hvd Hne Hg Hl12.
  destruct (send_handshake ctxL now m w r Hlive Hw (or_introl Hw0) Hknow KL Hm Hpad) as (h & r' & nonce & temp & E & Okh & Htl & _ & Hhs).
  exists h, (CryptoAuth.after_send w temp), r'. split; [exact E|]. intros p q Cp Hq.
  rewrite Hw0, Cm in Hhs. change (0 =? 0) with true in Hhs. cbv iota in Hhs. rewrite Hher, (shared_perm ctxL C.(cryptoAuth) KL KC) in Hhs.
  destruct (comes_to_core (Datatypes.S fuel) A C gA gC hA hC sA sC hdr hd (content h) p q Hcon Hl12 Cp Hq Hcur Hlh Hvs Hvd)
    as (dm & d & i & Okd & Pd & Cd & Bd & Hrun_core & _ & _ & Hold & (S1 & S2 & S3 & S4) & Sr & So & Sh & Ses & Sf & Sn).
  destruct (holds_ids _ _ _ _ _ _ Hold) as [I1 _].
  destruct (core_hello fuel d dm hd w.(authenticatePackets) nonce ctxL.(publicKey) (crypto_scalarmult_curve25519_base temp) handle_be payload h i
    (after_receive (nextNonce (iface sA)) sC) (<[A.(myAddr).(ip6) := (hC, after_receive (nextNonce (iface sA)) sC)]> gC))
    as (t & d' & Ec & Out & Ht & Hsess); rewrite ?S2, ?S3, ?S4, ?I1, ?Sn; try done.
  - exact (row_value _ _ _ _ _ (proj2 (proj2 Hold))).
  - destruct Okh. lia.
  - by apply base_length.
  - unfold Ip6_valid, source_of. rewrite length_take, length_drop. lia.
  - apply Hold.
  - rewrite lookup_insert_ne by congruence. exact Hg.
  - exists t, (finished d'). split; [exact (Hrun_core _ _ Ec)|]. split; [cbn; congruence|]. split; [exact Ht|exact Hsess].
Qed.

End defects.

(** ** Examples *)
#[local] Existing Instance x86.
#[local] Existing Instance bytes_key.

(** The user of node 2 sends a packet to node 3; then node 1's packet for node 4,
    which is in the table of node 2, goes to node 3. *)
Definition table_4 : Table := [demo_node 3 0x99; demo_node 4 0x17].
Definition demo_mine : list Z := demo_header (demo_ip 2) (demo_ip 3) 3 64.
Definition demo_other : list Z := demo_header (demo_ip 1) (demo_ip 4) 3 64.

Lemma Ducttape_stale_next_hop_witness : exists p1 C1 p2 C2,
  lookup (demo_ip 4) table_4 = Some (Some 1, table_4) /\
  incomingFromTun (handle_event 2) (demo_message (demo_mine ++ [7; 8; 9])) (node_2 table_4) = Some (0, C1) /\ C1.(output) = [SwitchOut p1] /\
  incomingFromSwitch (handle_event 2) (demo_arrived (demo_sealed demo_other)) C1 = Some (0, C2) /\ C2.(output) = C1.(output) ++ [SwitchOut p2] /\
  take 8 (content p2) = [0; 0; 0; 0; 0; 0; 0; 0x99].
Proof.
  destruct (demo_addresses table_4) as (A1 & A2 & A3).
  destruct (demo_packet_ok (demo_mine ++ [7; 8; 9])) as [Hok Hc]; [done|by apply bytes_ok_check|].
  destruct (demo_sealed_carried demo_other) as [K C]; [vm_compute; reflexivity..|].
  destruct (Ducttape_stale_next_hop 0 (node_1 table_1) (node_2 table_4) sessions_1 sessions_2 0 0 _ _ table_4 0 1
    (opened_session (demo_ip 3) (demo_end 3 23 8 true) (demo_handle 0) 2 1) (demo_message (demo_mine ++ [7; 8; 9]))
    (demo_packet (demo_mine ++ [7; 8; 9])) demo_mine [7; 8; 9] [0; 0; 0; 0; 0; 0; 0; 0x13; 0; 0; 0; 0] demo_other [7; 8; 9]
    (demo_arrived (demo_sealed demo_other)) (demo_arrived (demo_sealed demo_other)) (demo_1_2 _ _)) as (p1 & C1 & p2 & C2 & E1 & O1 & E2 & O2 & H);
    rewrite ?A2; [done|done|split; try done; intros [? _]; discriminate|done
    |apply demo_popped; [done|vm_compute; reflexivity]|exact Hok|done|exact Hc|vm_compute; reflexivity|apply demo_second
    |by rewrite (proj1 (demo_addresses _))|done|split; done|done|done|split; [discriminate|reflexivity]|done|done|exact C|exact K|done
    |vm_compute; reflexivity|vm_compute; reflexivity|done|done|].
  exists p1, C1, p2, C2. split; [vm_compute; reflexivity|]. split; [exact E1|]. split; [exact O1|]. split; [exact E2|]. split; [exact O2|exact H].
Defined.

(** *** A false address

    Node 3 as it is, but its program puts the address of another, 7, in its
    packets. It has no session with node 1 yet, and sends over node 2. *)
Definition liar : Ducttape (W := Table) :=
  let d := with_sessions (fst (SessionManager_getSession (demo_ip 1) (Some (demo_key 1)) seconds
    (opened (demo_ip 2) (demo_end 2 23 9 false) (demo_handle 1) 2 SessionManager_new))) (100 : Z) (demo_start 3 table_3) in
  {| router := d.(router); ipTunnel := d.(ipTunnel); cryptoAuth := d.(cryptoAuth); sm := d.(sm); rng := d.(rng);
     myAddr := {| ip6 := demo_ip 7; key := demo_key 3; path := 0 |}; userIf := true; switchPingerIf := false;
     timeBetweenSearches := 0; timeOfLastSearch := 0; current := d.(current); output := [] |}.
Definition table_5 : Table := [demo_node 1 0x15].

(** What a node sent last. *)
Definition last_out (result : option (Z * Ducttape (W := Table))) : option Message :=
  match result with
  | Some (_, d) => match rev d.(output) with SwitchOut m :: _ | TunOut m :: _ => Some m | _ => None end
  | None => None
  end.

Definition spoofed : option Message :=
  p ← last_out (incomingFromTun (handle_event 4) (demo_message (demo_header (demo_ip 7) (demo_ip 1) 3 64 ++ [7; 8; 9])) liar);
  q ← last_out (incomingFromSwitch (handle_event 4) p (node_2 table_5));
  last_out (incomingFromSwitch (handle_event 4) q (node_1 table_1)).

(** The packet is given to the user of node 1 as node 7's. *)
Lemma spoofed_run :
  fst (AddressCalc_addressForPublicKey liar.(cryptoAuth).(publicKey)) = demo_ip 3 /\
  option_map content spoofed = Some ([0; 0; 0x86; 0xDD] ++ demo_header (demo_ip 7) (demo_ip 1) 3 62 ++ [7; 8; 9]).
Proof. vm_compute. done. Qed.

(** Node 3, whose address is [demo_ip 3], sends node 2 a hello over node 1 as
    [demo_ip 7]. *)
Definition liar_context : Context := (node_3 table_3).(cryptoAuth).
Definition liar_wrapper : Wrapper := CryptoAuth_wrapInterface 0 0 (Some (node_2 table_4).(cryptoAuth).(publicKey)) false true 0.
Definition liar_message : Message := demo_packet ([0; 0; 0; 5] ++ [7; 8; 9]).
Definition liar_hello : Message :=
  match sendMessage liar_context 0 liar_message liar_wrapper (100 : Z) with
  | Some (_, _, [SendWrapped h], _) => h
  | _ => liar_message
  end.
Definition liar_header : list Z := demo_header (demo_ip 7) (demo_ip 2) 127 64.
Definition liar_packet : list Z :=
  running_packet [0; 0; 0; 0; 0; 0; 0; 0x13; 0; 0; 0; 0] (demo_handle 0) (demo_end 2 12 5 true) (liar_header ++ content liar_hello).

Lemma liar_carried : carried (demo_arrived liar_packet) (demo_arrived liar_packet) /\ content (demo_arrived liar_packet) = liar_packet.
Proof.
  destruct (demo_arrived_ok liar_packet) as [Hok Hc]; [vm_compute; reflexivity|apply bytes_ok_check; vm_compute; reflexivity|]. split; [|exact Hc].
  apply (carried_itself _ [0; 0; 0; 0; 0; 0; 0; 0x13] Hok); [|done]. rewrite Hc. unfold liar_packet. by apply labelled.
Qed.

Lemma liar_keys : keys_ok liar_context /\ keys_ok (node_2 table_4).(cryptoAuth) /\ live liar_context 0 liar_wrapper /\ knowHerKey liar_wrapper = true.
Proof.
  split; [|split; [|split; [vm_compute; discriminate|vm_compute; reflexivity]]];
    (split; [vm_compute; reflexivity|split; [apply bytes_ok_check; vm_compute; reflexivity|vm_compute; reflexivity]]).
Qed.

Lemma liar_unknown : sessions_2 !! demo_ip 7 = None /\ (node_2 table_4).(sm).(ifaceMap).(nextHandle) + 1 < 2 ^ 31.
Proof.
  split; [|vm_compute; reflexivity]. unfold sessions_2, demo_sessions. rewrite !lookup_insert_ne by (intros [= E]; done). apply lookup_empty.
Qed.

Lemma Ducttape_accepts_any_source_witness : exists t C' t',
  fst (AddressCalc_addressForPublicKey liar_context.(publicKey)) = demo_ip 3 /\
  incomingFromSwitch (handle_event 2) (demo_arrived liar_packet) (node_2 table_4) = Some (0, C') /\ C'.(output) = [TunOut t] /\
  TUNMessageType_pop t = Some (Ethernet_TYPE_IP6, t') /\ content t' = demo_header (demo_ip 7) (demo_ip 2) 3 64 ++ [7; 8; 9].
Proof.
  destruct (demo_addresses table_4) as (_ & A2 & _), (demo_addresses table_1) as (A1 & _ & _).
  destruct (demo_packet_ok ([0; 0; 0; 5] ++ [7; 8; 9])) as [Hok Hc]; [done|by apply bytes_ok_check|].
  destruct liar_carried as [K C], liar_keys as (K1 & K2 & K3 & K4), liar_unknown as [N1 N2].
  destruct (Ducttape_accepts_any_source 0 (node_1 table_1) (node_2 table_4) sessions_1 sessions_2 0 0 _ _ liar_context 0 liar_wrapper (100 : Z)
    liar_message [0; 0; 0; 5] [7; 8; 9] [0; 0; 0; 0; 0; 0; 0; 0x13; 0; 0; 0; 0] liar_header (demo_1_2 _ _)) as (h & w' & r' & E & Hgo);
    rewrite ?A1, ?A2; [done|done|done|done|exact N2|exact K1|exact K2|exact K3|done|done|done|exact K4|exact Hok|done|exact Hc|done|done|done|done
    |intros [H _]; discriminate H|done|vm_compute; reflexivity|vm_compute; reflexivity|intros H; discriminate H|exact N1|done|].
  assert (liar_hello = h) as El by (unfold liar_hello; rewrite E; done).
  destruct (Hgo (demo_arrived liar_packet) (demo_arrived liar_packet)) as (t & C' & E2 & O2 & (t' & Et & Ct) & _); [rewrite <-El; exact C|exact K|].
  exists t, C', t'. split; [vm_compute; reflexivity|]. split; [exact E2|]. split; [exact O2|]. split; [exact Et|]. rewrite Ct.
  vm_compute. reflexivity.
Defined.
